(* ===== verification/_CoqProject ===== *)
-Q . S2P
Prelude.v
Utf8.v
Path.v
KError.v
Windows.v
Fifo.v
Keyboard.v
Tty.v
Ansi.v
Elf.v
Bitmap.v
Packet.v
Socket.v
Net.v
Scheduler.v
Executor.v
Vfs.v
VfsFiles.v
Heap.v
HeapSegs.v
HeapList.v
HeapRefine.v
Paging.v
PagingTree.v
PagingMap.v
PagingRange.v
PagingSpace.v
PagingTask.v
PagingBitmap.v
Loader.v
LoaderSpec.v
LoaderTask.v
Exec.v
UserMem.v
TaskExit.v
Fat.v
FatSpec.v
Procfs.v
FsInit.v
Syscall.v
