(* ===== verification/Prelude.v ===== *)
(** * myos-x86_64: a verification library of the kernel's core

    myos-x86_64 is an operating system kernel in Rust.  This library models the
    parts of the kernel that carry its own logic as executable functions and
    proves that they do what the rest of the kernel relies on.

    ** The program and the files

    The kernel ([kernel/src]) boots from a memory map, hands out physical frames,
    sets up its page tables and its heap, runs user tasks that start, preempt,
    wait for and reap each other, and serves their system calls with a network
    stack, a file system and a console.  Each file models one part and requires
    the parts it calls:

    - [Prelude] (this file): outcomes ([Ok], [Err], a panic), explicit state
      passing with early returns, checked and wrapping machine integers, slices,
      big-endian bytes, [BTreeMap] iteration, transition sequences ([reach]),
      the safety triples [hoare], and the generic lemmas;
    - [Utf8]: the text functions of the standard library that the file systems use
      (UTF-8, UTF-16, trimming);
    - [Path] ([fs/path.rs]): paths as strings, [normalize], [join], [parent],
      [name], [diff];
    - [KError] ([error.rs]): the error values that the operations return;
    - [Windows] ([graphics/multi_layer.rs], [graphics/window_manager]): the layers of the
      screen and the windows over them, as far as removing them goes;
    - [Fifo] ([util/fifo.rs]): the ring buffer;
    - [Ansi] ([util/ansi.rs]): the console's escape sequence machine, on a [Fifo];
    - [Keyboard] ([util/keyboard], [device/ps2_keyboard.rs]): the key maps, key
      events and the PS/2 driver, on a [Fifo];
    - [Tty] ([device/tty.rs], [device/usb/hid_keyboard.rs]): the terminal and what
      types on it: both keyboards and the serial line;
    - [Elf] ([common/src/elf.rs]): the ELF image: headers, sections, names;
    - [Bitmap] ([mem/bitmap.rs], [common/src/mem_desc.rs]): the physical frame
      allocator, its bitmap read and written in a memory of bytes;
    - [Packet] ([net/checksum.rs], [tcp.rs], [udp.rs], [icmp.rs], [arp.rs], [ip.rs],
      [eth.rs]): parsing, construction, checksums and printing of packets;
    - [Socket] ([net/tcp.rs], [net/udp.rs], [net/socket.rs]): the TCP socket's
      state machine, UDP sockets, the table of sockets and ports;
    - [Net] ([net/mod.rs]): the network manager: the handlers of received frames
      and the operations behind the socket system calls;
    - [Scheduler] ([task/scheduler.rs], [task/mod.rs]): tasks, run queues,
      preemption, sleeping, exit and exit codes;
    - [Executor] ([task/async_task.rs]): the asynchronous executor over any type of
      futures;
    - [Vfs] ([fs/vfs.rs]): the file tree, path resolution, mounts, open files,
      pipes and device files; the trait of mounted file systems is the class
      [FileSystem], with [FileSystemSafe] for the ones that do not panic;
      [VfsFiles] states what descriptors and pipes promise;
    - [Heap] ([mem/allocator.rs]): the heap as a list of holes that lie in the
      free memory itself; [HeapSegs] is the abstract heap, a row of free and used
      segments, [HeapList] the list of holes as a representation of it, and
      [HeapRefine] the refinement;
    - [Paging] ([arch/x86_64/paging.rs], [VirtualAddress] of [arch/mod.rs]): page
      table entries as words, mapping, the kernel's table and the copy-on-write
      tables of tasks, on any physical memory with a frame allocator (the class
      [PhysMem], its contract [PhysMemLaws]); [PagingTree], [PagingMap] and
      [PagingRange] show what the code does to the tables under a root,
      [PagingSpace] and [PagingTask] what it does to an address space;
      [PagingBitmap] discharges the contract for the allocator of [Bitmap] and
      composes the initialisation of memory ([mem/mod.rs]);
    - [Loader] ([Task::new] of [task/mod.rs], [Context::init]): segments, stack,
      arguments and registers of a new program, and the frames that a dropped
      task gives back, on any physical memory; [LoaderSpec] and [LoaderTask] show what memory the
      program sees, and [Exec] ([task/exec.rs]) composes [exec_elf] with the file
      system, the frame allocator and the scheduler;
    - [UserMem] ([sbrk], [free] and [sbrksz] of [task/syscall.rs]): the memory a running
      program asks for, through the scheduler, the frame allocator and the table of the
      task, on which the kernel then runs: a new page table whose frame that table hides is
      a page fault;
    - [TaskExit] ([Drop] of [TaskResource]): what the end of a task gives back: frames,
      windows, files, page table;
    - [Fat] ([fs/fat]): the boot sector, cluster chains, names and the read-only
      file system on a volume in memory; [FatSpec] relates it to a tree of
      directories and files;
    - [Procfs] ([fs/procfs.rs]): the files that show the tasks;
    - [FsInit] ([fs/mod.rs]): both are mounted at boot; [SafeFs] discharges the
      interface of [Vfs] for the two of them, and a file of the volume is read
      through the tree;
    - [Syscall] ([task/syscall.rs], [util/cstring.rs]): the system calls on files,
      directories, pipes, programs and sockets that do not wait, on the memory of
      [UserMem].

    Definitions keep the names of the source; a method [T::m] whose name is
    not unique is [T_m].  A struct is a [Record], an enum an [Inductive].
    A function that takes [&mut self] is a state-passing function: an early
    return with an error keeps the state reached so far.  A reference that
    [find_task_mut] or [socket_mut_by_id] returns is the function that writes
    through it.  The kernel is built in the dev profile, so [+], [-] and [*] that
    overflow panic ([uadd], [usub], [umul]).

    A loop over a collection is structural recursion on it.  Seven loops need
    fuel, and each has a lemma that its fuel is enough: the folding of the
    checksum takes two rounds ([Packet.fold_loop_done]), draining the console's
    buffer one round per byte ([Ansi.drain_buf_all]), walking up the file tree
    one round per file ([VfsFiles.abs_path_total]), the loops over the list of
    holes one round per node ([HeapList.rep_length]), reading a line one round per
    character of the terminal's buffer ([Tty.tty_line_rep]), reading a
    C string one round per byte, there are 2^64 addresses
    ([Syscall.from_cstring_ptr_run]), and following a
    cluster chain at most as many rounds as a chain without a cycle can have, there
    are 2^28 cluster numbers ([FatSpec.fat_chain_terminates]; on a cycle the code never
    returns).

    ** What the theorems show

    - Memory: initialisation from any sane memory map leaves exactly the
      available frames outside the bitmap free; allocation returns a run of free
      frames or fails only when there is none; freeing is the inverse of
      allocation and a double free is detected ([Bitmap]).  The heap refines the
      row of segments under any allocations, deallocations and writes by the
      owners of blocks: blocks are aligned and disjoint, free neighbours are
      joined, and the heap is whole again when everything was freed
      ([HeapRefine]).  The tables built at boot translate every address above
      the first page to itself, and the heap starts in frames the tables
      do not use ([PagingBitmap.memory_init_correct]); a task's address space is
      the kernel's with the task's own changes, the kernel's never changes
      with it, and its frames all return ([PagingBitmap.task_address_space]).
    - Programs: a new task sees the segments of its file, zeros where the file has
      none, its stack and its arguments, given arguments that fit their frames
      ([Exec.task_image_correct]); whatever it did to its memory, its end gives exactly its
      frames back, removes its windows and closes its files
      ([TaskExit.task_resources_returned]); [exec_elf] reads the
      file, starts the task and leaves the scheduler as it was on an error; an image built from headers and sections is read back as them
      ([Elf]).  The memory calls of a program behave as a set of disjoint blocks,
      until a freed frame is missed ([UserMem.user_memory_refines_blocks]).
    - Files: no sequence of file operations panics or breaks the tree, given
      bounded offsets ([VfsFiles.vfs_operations_safe]); a descriptor is a byte
      array with a position, a pipe a byte stream; opening a new path creates it
      and the path of a file leads back to it.  The FAT file system finds, lists and
      reads exactly the tree that the volume encodes ([FatSpec.fat_refines_tree]), also
      behind the mount point ([FsInit.mounted_fat_file_read]); every task's files are
      readable in the process file system ([Procfs]).  What a program writes to a file it
      reads back into its memory ([Syscall.sys_file_roundtrip]).
    - Network: no sequence of system calls and received frames panics or
      corrupts the socket table, given truthful UDP length fields
      ([Net.net_operations_safe]); an established TCP socket delivers a prefix of
      the peer's stream whatever the network does; handshake, ping, ARP and UDP
      exchanges end to end; the packet formats round trip and checksums are
      sound and complete.
    - Tasks: every reachable state of the scheduler keeps each task in one queue
      and the parent and child fields a tree; if tasks wait only for their
      own children, nobody waits in vain and the scheduler always has a task to
      run; a parent is woken by its child's exit and collects its code;
      preemption is round robin and gives every task its registers back.  An
      asynchronous task that finishes in finitely many polls is finished by the
      executor, whatever the others do ([Executor]).
    - Input: the PS/2 driver refines a queue in front of a decoder, and pressed keys
      come back as their events ([Keyboard]); the terminal refines a list of
      characters, and a line typed on a USB keyboard is the line a program reads
      ([Tty.usb_keyboard_types_line]).
    - Text: path normalisation and joining keep the directory that is meant;
      the ring buffer refines a bounded queue; the escape machine is total and
      decodes what is printed.
    - Some theorems state how the code departs from what its callers expect:
      [Packet.UdpPacket_length_field], [Socket.remove_child_unbinds_listener],
      [Net.recv_tcp_short_buffer_loses_data], [Net.stray_segment_occupies_port],
      [Scheduler.second_waiter_sleeps_forever], [VfsFiles.seek_write_panics],
      [HeapRefine.heap_exhausted_panics], [FatSpec.scan_lists_deleted_files],
      [Exec.exec_elf_leaves_file_open], [Keyboard.release_blocks_keyboard],
      [Tty.char_read_hides_line], [UserMem.sbrk_overflow_panics],
      [UserMem.sbrk_after_free_faults], [TaskExit.closed_file_panics],
      [Syscall.close_prefers_file], [Syscall.bind_length_panics], and [PagingBitmap.kernel_map_identity]
      for physical addresses from 512 GiB on.

    ** What is not modelled

    Locks and interrupt flags: an operation runs to its end under its lock, as
    the kernel runs on one processor; the one place where a lock may be found
    taken and the error is visible, the transmit queue of the network card, is a
    flag of the network manager's state.  The processor's cache of translations
    ([invlpg]) is not modelled; physical memory is reached at its own
    address, as the kernel maps it.  On the table of a task that has freed memory the freed
    frames are holes of that mapping.  [UserMem] models this for the tables that [sbrk]
    needs, which are the frames a system call on the task's memory takes and writes itself;
    for the table and the image of a program that such a task starts ([sys_exec]) it is not
    modelled.  The heap's memory holds typed nodes: a read
    where no node was written is a panic of the model.  The other parts do not allocate
    from it: their vectors and maps grow without limit but the size limit of a vector,
    where the kernel can run out of its 32 MiB and panic ([HeapRefine.heap_exhausted_panics]).

    The boot loader, the assembly of the context switch, descriptor tables, ACPI, PCI
    and USB work on processor and device registers whose behaviour is not in the
    source; so do the network card and the mouse.  The port input of the keyboards and
    of the serial line is an argument of the model.  [dwarf::parse], which reads debugging
    information for backtraces, is a parameter of [Exec].  Of graphics only the removal
    of layers and windows is modelled; drawing into the frame buffer is left out with the images
    and fonts it shows, and so are the programs under [apps].  Of the system calls, those that wait for interrupts
    (standard input, [sendto], [recvfrom], [connect], [accept]), [iomsg] for windows,
    [uname], [uptime], [break] and the dispatcher that decodes registers are not
    modelled; [wait] and [exit] are operations of [Scheduler].  A user pointer outside the
    table of the task is a panic of the model, where the kernel takes a page
    fault. *)
From Stdlib Require Import ZArith Lia.
From stdpp Require Import base gmap list sets strings sorting.

Open Scope Z_scope.

(** ** Outcomes

    A Rust function of the kernel either returns [Ok], returns [Err], or
    panics (a failed [assert!], an out-of-range index, an [unwrap] of [None],
    an arithmetic overflow: the kernel is built in the dev profile, where
    overflow checks are on).  The error type is a parameter here; [KError]
    instantiates it with the kernel's [Error_]. *)

Inductive outcome (E A : Type) : Type :=
| Ok (a : A)
| Err (e : E)
| Panic.
Arguments Ok {E A} a.
Arguments Err {E A} e.
Arguments Panic {E A}.

Definition obind {E A B} (m : outcome E A) (f : A -> outcome E B) : outcome E B :=
  match m with
  | Ok a => f a
  | Err e => Err e
  | Panic => Panic
  end.

(** [ok_or e o] is [Option::ok_or]; [unwrap_or_panic] is [Option::unwrap]. *)
Definition ok_or {E A} (e : E) (o : option A) : outcome E A :=
  match o with Some a => Ok a | None => Err e end.

Definition unwrap {E A} (o : option A) : outcome E A :=
  match o with Some a => Ok a | None => Panic end.

Definition is_ok {E A} (m : outcome E A) : bool :=
  match m with Ok _ => true | _ => false end.

(** ** Stateful code

    Code that takes [&mut self] passes the state explicitly.  An early return
    with [Err] keeps the state reached so far, as in the source. *)

Definition ST (S E A : Type) : Type := S -> outcome E A * S.

Definition sret {S E A} (a : A) : ST S E A := fun s => (Ok a, s).
Definition serr {S E A} (e : E) : ST S E A := fun s => (Err e, s).
Definition spanic {S E A} : ST S E A := fun s => (Panic, s).
Definition sget {S E} : ST S E S := fun s => (Ok s, s).
Definition sput {S E} (s' : S) : ST S E unit := fun _ => (Ok tt, s').
Definition smodify {S E} (f : S -> S) : ST S E unit := fun s => (Ok tt, f s).
Definition slift {S E A} (m : outcome E A) : ST S E A := fun s => (m, s).

Definition sbind {S E A B} (m : ST S E A) (f : A -> ST S E B) : ST S E B :=
  fun s => match m s with
           | (Ok a, s') => f a s'
           | (Err e, s') => (Err e, s')
           | (Panic, s') => (Panic, s')
           end.

(** [let _ = m;]: the result, an error included, is dropped.  A panic is not. *)
Definition signore {S E A} (m : ST S E A) : ST S E unit :=
  fun s => match m s with
           | (Panic, s') => (Panic, s')
           | (_, s') => (Ok tt, s')
           end.

(** [assert!(b)] *)
Definition sassert {S E} (b : bool) : ST S E unit :=
  if b then sret tt else spanic.

Declare Scope kernel_scope.
Delimit Scope kernel_scope with kernel.

Notation "'let?' x ':=' m 'in' k" := (obind m (fun x => k))
  (at level 10, x pattern, m at level 100, k at level 200,
   format "'[v' 'let?'  x  ':='  m  'in' '/' k ']'") : kernel_scope.
Notation "'let!' x ':=' m 'in' k" := (sbind m (fun x => k))
  (at level 10, x pattern, m at level 100, k at level 200,
   format "'[v' 'let!'  x  ':='  m  'in' '/' k ']'") : kernel_scope.
Notation "'do!' m 'in' k" := (sbind m (fun _ => k))
  (at level 10, m at level 100, k at level 200,
   format "'[v' 'do!'  m  'in' '/' k ']'") : kernel_scope.

Open Scope kernel_scope.

(** A [for] loop over a list of indices whose body may fail. *)
Fixpoint sfor {S E A} (l : list A) (body : A -> ST S E unit) : ST S E unit :=
  match l with
  | [] => sret tt
  | x :: l' => do! body x in sfor l' body
  end.

(** ** Machine integers

    Values are [Z]; a [w]-bit operation names its width.  [uadd], [usub] and
    [umul] are the checked operators of the dev profile, [wrap] the wrapping
    ones. *)

Definition wrap (w x : Z) : Z := x mod 2 ^ w.
Definition is_uint (w x : Z) : bool := (0 <=? x) && (x <? 2 ^ w).

Definition uadd {E} (w a b : Z) : outcome E Z :=
  if a + b <? 2 ^ w then Ok (a + b) else Panic.
Definition usub {E} (w a b : Z) : outcome E Z :=
  if b <=? a then Ok (a - b) else Panic.
Definition umul {E} (w a b : Z) : outcome E Z :=
  if a * b <? 2 ^ w then Ok (a * b) else Panic.

(** Division panics on zero. *)
Definition udiv {E} (a b : Z) : outcome E Z := if b =? 0 then Panic else Ok (a / b).

Definition wrapping_add (w a b : Z) : Z := wrap w (a + b).

(** Bitwise complement of a [w]-bit value ([!x]). *)
Definition unot (w x : Z) : Z := 2 ^ w - 1 - x.

(** ** Slices

    [idx l i] is [l[i]] and [slice l a b] is [l[a..b]]: both panic out of range. *)

Definition idx {E A} (l : list A) (i : nat) : outcome E A :=
  match l !! i with Some x => Ok x | None => Panic end.

Definition slice {E A} (l : list A) (a b : nat) : outcome E (list A) :=
  if (a <=? b)%nat && (b <=? length l)%nat
  then Ok (take (b - a) (drop a l)) else Panic.

(** [saturating_add] of [usize] *)
Definition saturating_add (a b : Z) : Z := Z.min (a + b) (2 ^ 64 - 1).

(** What a read of [max_len] bytes from [offset] gives. *)
Definition read_range {A} (data : list A) (offset max_len : Z) : list A :=
  take (Z.to_nat max_len) (drop (Z.to_nat offset) data).

(** [Vec::resize] *)
Definition vec_resize {A} (l : list A) (n : nat) (x : A) : list A :=
  take n l ++ replicate (n - length l) x.

(** Big-endian byte strings ([from_be_bytes], [to_be_bytes]). *)
Definition from_be_bytes (bs : list Z) : Z :=
  fold_left (fun acc b => acc * 256 + b) bs 0.

Fixpoint to_be_bytes (n : nat) (x : Z) : list Z :=
  match n with
  | O => []
  | S n' => to_be_bytes n' (x / 256) ++ [x mod 256]
  end.

(** Little-endian ones. *)
Definition from_le_bytes (bs : list Z) : Z := from_be_bytes (rev bs).
Definition to_le_bytes (n : nat) (x : Z) : list Z := rev (to_be_bytes n x).

Definition is_byte (b : Z) : bool := is_uint 8 b.

(** ** Loops

    [loop_nat n] runs at most [n] rounds of a [loop] whose body goes on with a
    state ([inl]) or breaks with a result ([inr]); [loop_pos] is the same with the
    number in binary, so that a bound may be large. *)

Section Loop.
Context {E St R : Type} (body : St -> outcome E (St + R)).

Fixpoint loop_nat (n : nat) (s : St) : outcome E (St + R) :=
  match n with
  | O => Ok (inl s)
  | S n => match body s with
           | Ok (inl s') => loop_nat n s'
           | r => r
           end
  end.

Fixpoint loop_pos (p : positive) (s : St) : outcome E (St + R) :=
  match p with
  | xH => body s
  | xO p => match loop_pos p s with
            | Ok (inl s') => loop_pos p s'
            | r => r
            end
  | xI p => match body s with
            | Ok (inl s1) => match loop_pos p s1 with
                             | Ok (inl s2) => loop_pos p s2
                             | r => r
                             end
            | r => r
            end
  end.

Lemma loop_nat_add n m s :
  loop_nat (n + m) s = match loop_nat n s with Ok (inl s') => loop_nat m s' | r => r end.
Proof.
  revert s. induction n as [|n IH]; intros s; cbn; [done|]. destruct (body s) as [[s'|]| |]; [apply IH|done..].
Qed.

Lemma loop_pos_nat p s : loop_pos p s = loop_nat (Pos.to_nat p) s.
Proof.
  revert s. induction p as [p IH|p IH|]; intros s; cbn [loop_pos].
  - rewrite Pos2Nat.inj_xI. replace (2 * Pos.to_nat p)%nat with (Pos.to_nat p + Pos.to_nat p)%nat by lia.
    cbn [loop_nat]. destruct (body s) as [[s1|]| |]; [|done..]. rewrite loop_nat_add, <- IH.
    destruct (loop_pos p s1) as [[s2|]| |]; [apply IH|done..].
  - rewrite Pos2Nat.inj_xO. replace (2 * Pos.to_nat p)%nat with (Pos.to_nat p + Pos.to_nat p)%nat by lia.
    rewrite loop_nat_add, <- IH. destruct (loop_pos p s) as [[s2|]| |]; [apply IH|done..].
  - rewrite Pos2Nat.inj_1. cbn. by destruct (body s) as [[s1|]| |].
Qed.

(** A result does not depend on the bound. *)
Lemma loop_nat_done n m s r :
  loop_nat n s = Ok (inr r) -> (n <= m)%nat -> loop_nat m s = Ok (inr r).
Proof.
  intros Hn Hm. replace m with (n + (m - n))%nat by lia. by rewrite loop_nat_add, Hn.
Qed.

End Loop.

(** ** [BTreeMap]

    A map is a [gmap]; its iteration order is the order of the keys. *)

Definition btree_key_le {A} (p q : Z * A) : Prop := (fst p <= fst q)%Z.
#[export] Instance btree_key_le_dec {A} : RelDecision (@btree_key_le A) :=
  fun p q => Z_le_dec (fst p) (fst q).

Definition btree_iter {A} (m : gmap Z A) : list (Z * A) :=
  merge_sort btree_key_le (map_to_list m).

(** ** Transition sequences *)

Section Reach.
Context {St : Type} (step : St -> St -> Prop).

Inductive reach (s : St) : St -> Prop :=
| reach_refl : reach s s
| reach_step s' s'' : reach s s' -> step s' s'' -> reach s s''.

(** An invariant of the initial state that every step preserves holds in
    every reachable state. *)
Lemma reach_invariant (P : St -> Prop) s s' :
  P s -> (forall a b, P a -> step a b -> P b) -> reach s s' -> P s'.
Proof. intros H0 Hs Hr. induction Hr; eauto. Qed.

End Reach.

(** ** Automation *)

Create HintDb kernel.
Create Rewrite HintDb kernel_len.

(** Case analysis on the scrutinee of the goal's (or a hypothesis') outermost
    monadic computation, keeping the equation. *)
Ltac ok_inv :=
  repeat match goal with
  | H : Ok _ = Ok _ |- _ => injection H as H; subst
  | H : (Ok _, _) = (Ok _, _) |- _ => injection H as ? ?; subst
  | H : (_, _) = (_, _) |- _ => injection H as ? ?; subst
  | H : Err _ = Ok _ |- _ => discriminate H
  | H : Panic = Ok _ |- _ => discriminate H
  | H : Ok _ = Err _ |- _ => discriminate H
  | H : Panic = Err _ |- _ => discriminate H
  | H : Ok _ = Panic |- _ => discriminate H
  | H : Err _ = Panic |- _ => discriminate H
  end.

(** Decide every boolean comparison of the goal by [lia] facts. *)
Ltac bool_cases :=
  repeat match goal with
  | |- context [Z.eqb ?a ?b] => destruct (Z.eqb_spec a b)
  | |- context [Z.leb ?a ?b] => destruct (Z.leb_spec a b)
  | |- context [Z.ltb ?a ?b] => destruct (Z.ltb_spec a b)
  | |- context [Nat.eqb ?a ?b] => destruct (Nat.eqb_spec a b)
  | |- context [Nat.leb ?a ?b] => destruct (Nat.leb_spec a b)
  | |- context [Nat.ltb ?a ?b] => destruct (Nat.ltb_spec a b)
  end.

(** ** Generic lemmas *)

Lemma obind_ok {E A B} (m : outcome E A) (f : A -> outcome E B) b :
  obind m f = Ok b -> exists a, m = Ok a /\ f a = Ok b.
Proof. destruct m; simpl; [eauto | discriminate..]. Qed.

Lemma sbind_ok {S E A B} (m : ST S E A) (f : A -> ST S E B) s b s'' :
  sbind m f s = (Ok b, s'') -> exists a s', m s = (Ok a, s') /\ f a s' = (Ok b, s'').
Proof. unfold sbind. destruct (m s) as [[a|e|] s'] eqn:Hm; [eauto | discriminate..]. Qed.

Lemma sbind_run {S E A B} (m : ST S E A) (f : A -> ST S E B) s a s' :
  m s = (Ok a, s') -> sbind m f s = f a s'.
Proof. unfold sbind. by intros ->. Qed.

Lemma slift_ok {S E A} (m : outcome E A) (s : S) a s' :
  slift m s = (Ok a, s') -> m = Ok a /\ s' = s.
Proof. unfold slift. by intros [= -> ->]. Qed.

Lemma is_uint_spec w x : is_uint w x = true <-> 0 <= x < 2 ^ w.
Proof. unfold is_uint. rewrite andb_true_iff, Z.leb_le, Z.ltb_lt. done. Qed.

Lemma wrap_uint w x : 0 <= w -> is_uint w (wrap w x) = true.
Proof.
  intros Hw. apply is_uint_spec. unfold wrap. apply Z.mod_pos_bound.
  apply Z.pow_pos_nonneg; lia.
Qed.

Lemma wrap_small w x : is_uint w x = true -> wrap w x = x.
Proof. rewrite is_uint_spec. unfold wrap. apply Z.mod_small. Qed.

(** Checked arithmetic that stays in range. *)
Lemma usub_run {E} w a b : b <= a -> usub (E := E) w a b = Ok (a - b).
Proof. intros H. unfold usub. destruct (Z.leb_spec b a); [done|lia]. Qed.

Lemma uadd_run {E} w a b : a + b < 2 ^ w -> uadd (E := E) w a b = Ok (a + b).
Proof. intros H. unfold uadd. destruct (Z.ltb_spec (a + b) (2 ^ w)); [done|lia]. Qed.

Lemma umul_run {E} w a b : a * b < 2 ^ w -> umul (E := E) w a b = Ok (a * b).
Proof. intros H. unfold umul. destruct (Z.ltb_spec (a * b) (2 ^ w)); [done|lia]. Qed.

(** Joining two fields of a word. *)
Lemma lor_shiftl n a b : 0 <= n -> 0 <= b < 2 ^ n -> Z.lor (Z.shiftl a n) b = a * 2 ^ n + b.
Proof.
  intros Hn0 Hb. assert (Z.land (Z.shiftl a n) b = 0) as Hl.
  { apply Z.bits_inj'. intros m Hm. rewrite Z.land_spec, Z.bits_0, Z.shiftl_spec by lia.
    destruct (Z.lt_ge_cases m n).
    - by rewrite Z.testbit_neg_r by lia.
    - rewrite <- (Z.mod_small b (2 ^ n)), Z.mod_pow2_bits_high by lia. apply andb_false_r. }
  rewrite <- Z.lxor_lor, <- Z.add_nocarry_lxor by done. by rewrite Z.shiftl_mul_pow2 by lia.
Qed.

(** The slice of a read is clamped to the data. *)
Lemma slice_range {E A} (data : list A) offset max_len :
  0 <= offset -> 0 <= max_len < 2 ^ 64 -> Z.of_nat (length data) < 2 ^ 64 ->
  let start := Z.min offset (Z.of_nat (length data)) in
  let end_ := Z.min (saturating_add start max_len) (Z.of_nat (length data)) in
  slice (E := E) data (Z.to_nat start) (Z.to_nat end_) = Ok (read_range data offset max_len).
Proof.
  intros Ho Hm Hd start end_. unfold slice. assert (start <= end_ <= Z.of_nat (length data)) as [? ?]
    by (unfold start, end_, saturating_add; lia). assert (0 <= start) by (unfold start; lia).
  destruct (Nat.leb_spec (Z.to_nat start) (Z.to_nat end_)); [|lia].
  destruct (Nat.leb_spec (Z.to_nat end_) (length data)); [|lia]. cbn [andb]. f_equal. unfold read_range.
  destruct (Z.le_gt_cases (Z.of_nat (length data)) offset).
  - rewrite !(drop_ge data) by (unfold start; lia). by rewrite !take_nil.
  - replace (Z.to_nat start) with (Z.to_nat offset) by (unfold start; lia).
    destruct (Z.le_gt_cases (offset + max_len) (Z.of_nat (length data))).
    + f_equal. unfold end_, saturating_add, start. lia.
    + rewrite !firstn_all2; [done|..]; rewrite length_drop; [lia|]. unfold end_, saturating_add, start. lia.
Qed.

Lemma slice_no_panic {E A} (data : list A) offset max_len :
  0 <= offset < 2 ^ 64 -> 0 <= max_len ->
  let start := Z.min offset (Z.of_nat (length data)) in
  let end_ := Z.min (saturating_add start max_len) (Z.of_nat (length data)) in
  slice (E := E) data (Z.to_nat start) (Z.to_nat end_) <> Panic.
Proof.
  intros Ho Hm start end_. unfold slice. assert (start <= end_ <= Z.of_nat (length data)) as [? ?]
    by (unfold start, end_, saturating_add; lia).
  destruct (Nat.leb_spec (Z.to_nat start) (Z.to_nat end_)); [|lia].
  by destruct (Nat.leb_spec (Z.to_nat end_) (length data)); [|lia].
Qed.

Lemma length_to_be_bytes n x : length (to_be_bytes n x) = n.
Proof.
  revert x. induction n as [|n IH]; intros x; simpl; [done|].
  rewrite length_app, IH. simpl. lia.
Qed.

Lemma from_be_bytes_snoc l b : from_be_bytes (l ++ [b]) = from_be_bytes l * 256 + b.
Proof. unfold from_be_bytes. by rewrite fold_left_app. Qed.

(** Decoding the encoding of an [8n]-bit value gives it back. *)
Lemma from_to_be_bytes n x :
  0 <= x < 256 ^ Z.of_nat n -> from_be_bytes (to_be_bytes n x) = x.
Proof.
  revert x. induction n as [|n IH]; intros x Hx; simpl.
  - simpl in Hx. unfold from_be_bytes. simpl. lia.
  - rewrite from_be_bytes_snoc, IH.
    + rewrite (Z.div_mod x 256) at 3; lia.
    + rewrite Nat2Z.inj_succ, Z.pow_succ_r in Hx by lia.
      split; [apply Z.div_pos; lia | apply Z.div_lt_upper_bound; lia].
Qed.

Lemma to_be_bytes_bytes n x : Forall (fun b => is_byte b = true) (to_be_bytes n x).
Proof.
  revert x. induction n as [|n IH]; intros x; simpl; [constructor|].
  apply Forall_app. split; [apply IH|]. constructor; [|constructor].
  apply is_uint_spec. apply Z.mod_pos_bound. lia.
Qed.

Lemma from_to_le_bytes n x : 0 <= x < 256 ^ Z.of_nat n -> from_le_bytes (to_le_bytes n x) = x.
Proof. intros Hx. unfold from_le_bytes, to_le_bytes. rewrite rev_involutive. by apply from_to_be_bytes. Qed.

Lemma length_to_le_bytes n x : length (to_le_bytes n x) = n.
Proof. unfold to_le_bytes. by rewrite length_rev, length_to_be_bytes. Qed.

Lemma to_le_bytes_bytes n x : Forall (fun b => is_byte b = true) (to_le_bytes n x).
Proof. unfold to_le_bytes. apply Forall_rev, to_be_bytes_bytes. Qed.

(** A list of bytes. *)
Abbreviation bytes l := (Forall (fun b => is_byte b = true) l).

Lemma is_byte_range b : is_byte b = true <-> 0 <= b < 256.
Proof. apply is_uint_spec. Qed.

Lemma from_be_bytes_bound l :
  bytes l -> 0 <= from_be_bytes l < 256 ^ Z.of_nat (length l).
Proof.
  induction l as [|b l IH] using rev_ind; intros Hl; [cbn; lia|].
  apply Forall_app in Hl as [Hl Hb]. inversion_clear Hb as [|? ? Hb' _].
  apply is_byte_range in Hb'. specialize (IH Hl). rewrite from_be_bytes_snoc, length_app.
  cbn [length]. rewrite Nat2Z.inj_add, Z.pow_add_r by lia.
  change (256 ^ Z.of_nat 1) with 256. lia.
Qed.

Lemma from_le_bytes_bound l :
  bytes l -> 0 <= from_le_bytes l < 256 ^ Z.of_nat (length l).
Proof. intros Hl. unfold from_le_bytes. rewrite <- length_rev. by apply from_be_bytes_bound, Forall_rev. Qed.

(** Encoding the decoding of a byte string gives it back. *)
Lemma to_from_be_bytes l : bytes l -> to_be_bytes (length l) (from_be_bytes l) = l.
Proof.
  induction l as [|b l IH] using rev_ind; intros Hl; [done|].
  apply Forall_app in Hl as [Hl Hb]. inversion_clear Hb as [|? ? Hb' _].
  apply is_byte_range in Hb'. rewrite from_be_bytes_snoc, length_app.
  replace (length l + length [b])%nat with (S (length l)) by (cbn; lia). cbn [to_be_bytes].
  rewrite Z.div_add_l, Z.div_small, Z.add_0_r, IH by (done || lia).
  by rewrite Z.add_comm, Z.mod_add, Z.mod_small by lia.
Qed.

(** Flipping a predicate at one element changes the count by one. *)
Lemma filter_flip_length {A} (f g : A -> bool) (l : list A) x :
  NoDup l -> x ∈ l -> f x = true -> g x = false ->
  (forall y, y ∈ l -> y <> x -> f y = g y) ->
  length (List.filter f l) = S (length (List.filter g l)).
Proof.
  induction 1 as [|y l Hy Hnd IH]; intros Hx Hf Hg Heq; [by apply not_elem_of_nil in Hx|].
  apply elem_of_cons in Hx as [->|Hx]; simpl.
  - rewrite Hf, Hg. simpl. f_equal. f_equal. apply List.filter_ext_in. intros z Hz%list_elem_of_In.
    apply Heq; [by apply elem_of_cons; right|]. by intros ->.
  - assert (y <> x) by (by intros ->). rewrite <- (Heq y); [|by apply elem_of_cons; left|done].
    assert (length (List.filter f l) = S (length (List.filter g l))) as IHl.
    { apply IH; [done..|]. intros z Hz. apply Heq. by apply elem_of_cons; right. }
    destruct (f y); simpl; lia.
Qed.

Lemma filter_reject_length {A} (f : A -> bool) (l : list A) x :
  x ∈ l -> f x = false -> (length (List.filter f l) < length l)%nat.
Proof.
  intros Hx Hf. induction l as [|y l IH]; [by apply not_elem_of_nil in Hx|].
  apply elem_of_cons in Hx as [->|Hx]; simpl.
  - rewrite Hf. pose proof (List.filter_length_le f l). lia.
  - specialize (IH Hx). destruct (f y); simpl; lia.
Qed.

Lemma filter_accept_length {A} (f : A -> bool) (l : list A) x :
  x ∈ l -> f x = true -> (0 < length (List.filter f l))%nat.
Proof.
  intros Hx Hf. assert (In x (List.filter f l)) as Hin
    by (apply List.filter_In; by rewrite <- list_elem_of_In).
  destruct (List.filter f l); [done|simpl; lia].
Qed.

(** On a list without repeated keys, a key identifies its element. *)
Lemma NoDup_fmap_inj {A B} (f : A -> B) (l : list A) x y :
  NoDup (f <$> l) -> x ∈ l -> y ∈ l -> f x = f y -> x = y.
Proof.
  induction l as [|z l IH]; [by intros _ ?%not_elem_of_nil|].
  rewrite fmap_cons, NoDup_cons. intros [Hz Hnd] Hx Hy Hf.
  apply elem_of_cons in Hx as [->|Hx], Hy as [->|Hy]; [done| | |by apply IH].
  - destruct Hz. rewrite Hf. by apply list_elem_of_fmap_2.
  - destruct Hz. rewrite <- Hf. by apply list_elem_of_fmap_2.
Qed.

Lemma sfor_ok_cons {S E A} (x : A) l (body : A -> ST S E unit) s s' :
  body x s = (Ok tt, s') -> sfor (x :: l) body s = sfor l body s'.
Proof. intros H. simpl. unfold sbind. by rewrite H. Qed.

Lemma elem_of_btree_iter {A} (m : gmap Z A) k v :
  (k, v) ∈ btree_iter m <-> m !! k = Some v.
Proof.
  unfold btree_iter. rewrite merge_sort_Permutation. apply elem_of_map_to_list.
Qed.

(** ** Safety of stateful code

    [hoare P m Q]: from a state in [P], [m] does not panic and ends in [Q],
    whether it returns a value or an error. *)

Definition hoare {S E A} (P : S -> Prop) (m : ST S E A) (Q : S -> Prop) : Prop :=
  forall s, P s -> Q (snd (m s)) /\ fst (m s) <> Panic.

(** The same for one run. *)
Definition runs {S E A} (m : ST S E A) (s : S) (Q : S -> Prop) : Prop :=
  let '(r, s') := m s in Q s' /\ r <> Panic.

Section Hoare.
Context {S E : Type}.
Implicit Types P Q R : S -> Prop.

Lemma hoare_runs {A} P (m : ST S E A) Q : (forall s, P s -> runs m s Q) -> hoare P m Q.
Proof. intros Hm s Hs. specialize (Hm s Hs). unfold runs in Hm. by destruct (m s). Qed.

Lemma runs_hoare {A} P (m : ST S E A) Q s : hoare P m Q -> P s -> runs m s Q.
Proof. intros Hm Hs. destruct (Hm s Hs). unfold runs. by destruct (m s). Qed.

Lemma hoare_ret {A} P (a : A) : hoare P (sret (E := E) a) P.
Proof. intros s Hs. done. Qed.

Lemma hoare_err {A} P (e : E) : hoare P (serr (A := A) e) P.
Proof. intros s Hs. done. Qed.

Lemma hoare_get P : hoare P (sget (E := E)) P.
Proof. intros s Hs. done. Qed.

Lemma hoare_lift {A} P (m : outcome E A) : m <> Panic -> hoare P (slift m) P.
Proof. intros Hm s Hs. done. Qed.

Lemma hoare_modify P Q (f : S -> S) : (forall s, P s -> Q (f s)) -> hoare P (smodify (E := E) f) Q.
Proof. intros Hf s Hs. split; [by apply Hf|done]. Qed.

Lemma hoare_bind {A B} P R Q (m : ST S E A) (f : A -> ST S E B) :
  hoare P m R -> (forall a, hoare R (f a) Q) -> (forall s, R s -> Q s) -> hoare P (sbind m f) Q.
Proof.
  intros Hm Hf HQ s Hs. destruct (Hm s Hs) as [H1 H2]. unfold sbind.
  destruct (m s) as [[a|e|] s']; cbn in *; [by apply Hf|split; [by apply HQ|done]|done].
Qed.

(** The state the rest of the computation sees is known. *)
Lemma hoare_get_bind {B} P Q (f : S -> ST S E B) :
  (forall s0, hoare (fun s => P s /\ s = s0) (f s0) Q) -> hoare P (sbind sget f) Q.
Proof. intros Hf s Hs. by apply (Hf s s). Qed.

Lemma hoare_conseq {A} P P' Q Q' (m : ST S E A) :
  hoare P' m Q' -> (forall s, P s -> P' s) -> (forall s, Q' s -> Q s) -> hoare P m Q.
Proof. intros Hm HP HQ s Hs. destruct (Hm s (HP s Hs)) as [H1 H2]. split; [by apply HQ|done]. Qed.

Lemma hoare_ignore {A} P Q (m : ST S E A) : hoare P m Q -> hoare P (signore m) Q.
Proof.
  intros Hm s Hs. destruct (Hm s Hs) as [H1 H2]. unfold signore. by destruct (m s) as [[a|e|] s'].
Qed.

End Hoare.

#[export] Hint Resolve hoare_ret hoare_err hoare_get : kernel.

#[export] Hint Rewrite @length_to_be_bytes @length_app @length_drop @length_take
  @length_replicate : kernel_len.
