(* ===== verification/Utf8.v ===== *)
(** * Rust strings

    A [String] is UTF-8: a Rocq [string] holds its bytes and a list of [Z] its
    characters.  The conversions of the standard library that the kernel uses
    to read names from a disk: [String::from_utf8_lossy], [from_utf16_lossy] and
    [str::trim]. *)
From Stdlib Require Import ZArith Lia Ascii.
From stdpp Require Import base list strings.
From S2P Require Import Prelude.

#[local] Open Scope string_scope.
#[local] Open Scope list_scope.
#[local] Open Scope Z_scope.

(** ** Encoding *)

(** [U+FFFD] *)
Definition REPLACEMENT_CHARACTER : Z := 0xfffd.

Definition encode_utf8 (c : Z) : list Z :=
  if c <? 0x80 then [c]
  else if c <? 0x800 then [0xc0 + c / 64; 0x80 + c mod 64]
  else if c <? 0x10000 then [0xe0 + c / 4096; 0x80 + c / 64 mod 64; 0x80 + c mod 64]
  else [0xf0 + c / 262144; 0x80 + c / 4096 mod 64; 0x80 + c / 64 mod 64; 0x80 + c mod 64].

Definition byte_ascii (b : Z) : ascii := Ascii.ascii_of_N (Z.to_N b).

Definition bytes_string (l : list Z) : string := String.string_of_list_ascii (byte_ascii <$> l).

(** The string of a list of characters. *)
Definition chars_string (l : list Z) : string := bytes_string (mjoin (encode_utf8 <$> l)).

(** ** Decoding *)

Definition between (lo hi b : Z) : bool := (lo <=? b) && (b <=? hi).
Definition is_continuation (b : Z) : bool := between 0x80 0xbf b.

(** The bytes that may follow the first byte of a sequence of three or four. *)
Definition second_ok (b0 b1 : Z) : bool :=
  if b0 =? 0xe0 then between 0xa0 0xbf b1
  else if b0 =? 0xed then between 0x80 0x9f b1
  else if b0 =? 0xf0 then between 0x90 0xbf b1
  else if b0 =? 0xf4 then between 0x80 0x8f b1
  else is_continuation b1.

(** Every maximal part of an ill-formed sequence becomes one replacement
    character. *)
Fixpoint from_utf8_lossy (l : list Z) : list Z :=
  match l with
  | [] => []
  | b0 :: l0 =>
      if b0 <? 0x80 then b0 :: from_utf8_lossy l0
      else if between 0xc2 0xdf b0 then
        match l0 with
        | b1 :: l1 =>
            if is_continuation b1 then ((b0 - 0xc0) * 64 + (b1 - 0x80)) :: from_utf8_lossy l1
            else REPLACEMENT_CHARACTER :: from_utf8_lossy l0
        | [] => [REPLACEMENT_CHARACTER]
        end
      else if between 0xe0 0xef b0 then
        match l0 with
        | b1 :: l1 =>
            if second_ok b0 b1 then
              match l1 with
              | b2 :: l2 =>
                  if is_continuation b2
                  then ((b0 - 0xe0) * 4096 + (b1 - 0x80) * 64 + (b2 - 0x80)) :: from_utf8_lossy l2
                  else REPLACEMENT_CHARACTER :: from_utf8_lossy l1
              | [] => [REPLACEMENT_CHARACTER]
              end
            else REPLACEMENT_CHARACTER :: from_utf8_lossy l0
        | [] => [REPLACEMENT_CHARACTER]
        end
      else if between 0xf0 0xf4 b0 then
        match l0 with
        | b1 :: l1 =>
            if second_ok b0 b1 then
              match l1 with
              | b2 :: l2 =>
                  if is_continuation b2 then
                    match l2 with
                    | b3 :: l3 =>
                        if is_continuation b3
                        then ((b0 - 0xf0) * 262144 + (b1 - 0x80) * 4096 + (b2 - 0x80) * 64 + (b3 - 0x80))
                               :: from_utf8_lossy l3
                        else REPLACEMENT_CHARACTER :: from_utf8_lossy l2
                    | [] => [REPLACEMENT_CHARACTER]
                    end
                  else REPLACEMENT_CHARACTER :: from_utf8_lossy l1
              | [] => [REPLACEMENT_CHARACTER]
              end
            else REPLACEMENT_CHARACTER :: from_utf8_lossy l0
        | [] => [REPLACEMENT_CHARACTER]
        end
      else REPLACEMENT_CHARACTER :: from_utf8_lossy l0
  end.

Fixpoint from_utf16_lossy (l : list Z) : list Z :=
  match l with
  | [] => []
  | u :: l0 =>
      if negb (between 0xd800 0xdfff u) then u :: from_utf16_lossy l0
      else if 0xdc00 <=? u then REPLACEMENT_CHARACTER :: from_utf16_lossy l0
      else match l0 with
           | u1 :: l1 =>
               if between 0xdc00 0xdfff u1
               then (0x10000 + (u - 0xd800) * 1024 + (u1 - 0xdc00)) :: from_utf16_lossy l1
               else REPLACEMENT_CHARACTER :: from_utf16_lossy l0
           | [] => [REPLACEMENT_CHARACTER]
           end
  end.

(** ** Whitespace *)

(** [char::is_whitespace]: the Unicode property [White_Space]. *)
Definition is_whitespace (c : Z) : bool :=
  between 0x9 0xd c || (c =? 0x20) || (c =? 0x85) || (c =? 0xa0) || (c =? 0x1680)
  || between 0x2000 0x200a c || (c =? 0x2028) || (c =? 0x2029) || (c =? 0x202f) || (c =? 0x205f)
  || (c =? 0x3000).

Fixpoint trim_start (l : list Z) : list Z :=
  match l with
  | c :: l' => if is_whitespace c then trim_start l' else l
  | [] => []
  end.

Definition trim (l : list Z) : list Z := rev (trim_start (rev (trim_start l))).

(** ** Lemmas *)

Lemma from_utf16_plain l :
  Forall (fun u => u < 0xd800) l -> from_utf16_lossy l = l.
Proof.
  induction 1 as [|u l Hu Hl IH]; [done|]. cbn [from_utf16_lossy]. unfold between.
  destruct (Z.leb_spec 0xd800 u); [lia|]. cbn. by rewrite IH.
Qed.

Lemma from_utf8_ascii l : Forall (fun b => b < 0x80) l -> from_utf8_lossy l = l.
Proof.
  induction 1 as [|b l Hb Hl IH]; [done|]. cbn [from_utf8_lossy].
  destruct (Z.ltb_spec b 0x80); [|lia]. by rewrite IH.
Qed.

(** The bytes of a string. *)
Definition string_bytes (s : string) : list Z := (fun a => Z.of_N (Ascii.N_of_ascii a)) <$> String.list_ascii_of_string s.

Lemma string_bytes_string l : bytes l -> string_bytes (bytes_string l) = l.
Proof.
  intros Hl. unfold string_bytes, bytes_string. rewrite String.list_ascii_of_string_of_list_ascii, <- list_fmap_compose.
  induction Hl as [|b l Hb Hl IH]; [done|]. cbn [fmap list_fmap]. f_equal; [|exact IH].
  apply is_byte_range in Hb. unfold compose, byte_ascii. rewrite Ascii.N_ascii_embedding by lia. lia.
Qed.
