(* ===== verification/Path.v ===== *)
(** * Paths of the virtual file system ([kernel/src/fs/path.rs])

    A path is a string; the operations split it at [/], drop empty and [.]
    components and resolve [..].  The file models every operation of
    [impl Path], gives the meaning of a path as a walk in a tree ([walk]) and
    shows that normalisation and joining keep that meaning. *)
From Stdlib Require Import ZArith Lia Ascii.
From stdpp Require Import base list strings.
From S2P Require Import Prelude.

Open Scope string_scope.

#[local] Arguments String.append !s1 s2 : simpl nomatch.

(** ** Definitions *)

Record Path := MkPath { path_str : string }.

#[export] Instance Path_eq_dec : EqDecision Path.
Proof. solve_decision. Defined.

Definition Path_ROOT : string := "/".
Definition Path_SEPARATOR : ascii := "/"%char.
Definition Path_CURRENT_DIR : string := ".".
Definition Path_PARENT_DIR : string := "..".

Definition str_is_empty (s : string) : bool :=
  match s with EmptyString => true | _ => false end.

(** [str::split] at a character: [n] separators give [n + 1] pieces. *)
Fixpoint str_split (c : ascii) (s : string) : list string :=
  match s with
  | EmptyString => [""]
  | String a s' =>
      if Ascii.eqb a c then "" :: str_split c s'
      else match str_split c s' with
           | h :: t => String a h :: t
           | [] => [String a ""]
           end
  end.

Definition str_join (sep : string) (l : list string) : string := String.concat sep l.

Definition str_starts_with (s pre : string) : bool := String.prefix pre s.

Fixpoint str_ends_with_char (s : string) (c : ascii) : bool :=
  match s with
  | EmptyString => false
  | String a EmptyString => Ascii.eqb a c
  | String _ s' => str_ends_with_char s' c
  end.

Fixpoint str_strip_prefix (s pre : string) : option string :=
  match pre, s with
  | EmptyString, _ => Some s
  | String a pre', String b s' =>
      if Ascii.eqb a b then str_strip_prefix s' pre' else None
  | String _ _, EmptyString => None
  end.

Definition Path_new (s : string) : Path := MkPath s.
Definition Path_root : Path := MkPath Path_ROOT.

Definition Path_is_abs (p : Path) : bool := str_starts_with (path_str p) Path_ROOT.

(** The filter and the fold of [normalize]. *)
Definition normalize_keep (s : string) : bool :=
  negb (str_is_empty s) && negb (String.eqb s Path_CURRENT_DIR).

Definition normalize_push (is_abs : bool) (acc : list string) (part : string) : list string :=
  if String.eqb part Path_PARENT_DIR then
    match last acc with
    | Some l => if negb (String.eqb l Path_PARENT_DIR) then removelast acc
                else if is_abs then acc else (acc ++ [part])%list
    | None => if is_abs then acc else (acc ++ [part])%list
    end
  else (acc ++ [part])%list.

Definition normalize_parts (p : Path) : list string :=
  fold_left (normalize_push (Path_is_abs p))
    (List.filter normalize_keep (str_split Path_SEPARATOR (path_str p))) [].

Definition Path_normalize (p : Path) : Path :=
  let parts := normalize_parts p in
  if Path_is_abs p
  then MkPath (Path_ROOT ++ str_join (String Path_SEPARATOR "") parts)
  else MkPath (str_join (String Path_SEPARATOR "") parts).

Definition Path_join (p : Path) (name : string) : Path :=
  let path := path_str p in
  let path := if str_ends_with_char path Path_SEPARATOR then path
              else path ++ String Path_SEPARATOR "" in
  Path_normalize (MkPath (path ++ name)).

Definition Path_names (p : Path) : list string :=
  List.filter (fun s => negb (str_is_empty s)) (str_split Path_SEPARATOR (path_str p)).

Definition Path_name (p : Path) : string :=
  match last (Path_names p) with Some n => n | None => Path_ROOT end.

Definition Path_parent (p : Path) : Path :=
  let normalized := path_str (Path_normalize p) in
  if String.eqb normalized Path_ROOT then MkPath normalized
  else
    let parts := removelast
      (List.filter (fun s => negb (str_is_empty s)) (str_split Path_SEPARATOR normalized)) in
    if str_starts_with (path_str p) Path_ROOT then
      let parent := Path_ROOT ++ str_join Path_ROOT parts in
      if str_is_empty parent then Path_root else MkPath parent
    else
      let parent := str_join Path_ROOT parts in
      if str_is_empty parent then MkPath Path_CURRENT_DIR else MkPath parent.

Definition Path_diff (p other : Path) : Path :=
  match str_strip_prefix (path_str p) (path_str other) with
  | Some stripped =>
      MkPath (default stripped (str_strip_prefix stripped (String Path_SEPARATOR "")))
  | None =>
      match str_strip_prefix (path_str other) (path_str p) with
      | Some stripped =>
          MkPath (default stripped (str_strip_prefix stripped (String Path_SEPARATOR "")))
      | None => p
      end
  end.

(** ** Specification

    What a path denotes: starting from a directory, given by the names from
    the root, follow the components one by one. *)

Definition walk_step (dir : list string) (name : string) : list string :=
  if str_is_empty name || String.eqb name Path_CURRENT_DIR then dir
  else if String.eqb name Path_PARENT_DIR then removelast dir
  else (dir ++ [name])%list.

Definition walk (dir : list string) (names : list string) : list string :=
  fold_left walk_step names dir.

(** A component that names an entry. *)
Definition plain_name (s : string) : bool :=
  negb (str_is_empty s) && negb (String.eqb s Path_CURRENT_DIR)
  && negb (String.eqb s Path_PARENT_DIR).

(** No separator inside. *)
Fixpoint no_sep (s : string) : bool :=
  match s with
  | EmptyString => true
  | String a s' => negb (Ascii.eqb a Path_SEPARATOR) && no_sep s'
  end.

(** Normal forms: plain names, behind some [..] when the path is relative. *)
Definition canonical (is_abs : bool) (parts : list string) : Prop :=
  exists n names, parts = (replicate n Path_PARENT_DIR ++ names)%list
    /\ Forall (fun s => plain_name s = true) names /\ (is_abs = true -> n = 0%nat).

(** ** Strings *)

Lemma str_app_assoc (a b c : string) : (a ++ b) ++ c = a ++ (b ++ c).
Proof. induction a as [|x a IH]; cbn [String.append]; [done|]. by rewrite IH. Qed.

Lemma str_split_no_sep s : no_sep s = true -> str_split Path_SEPARATOR s = [s].
Proof.
  induction s as [|a s IH]; simpl; [done|].
  destruct (Ascii.eqb a Path_SEPARATOR) eqn:E; simpl; [discriminate|].
  intros H. by rewrite (IH H).
Qed.

Lemma str_split_nonempty c s : str_split c s <> [].
Proof.
  destruct s as [|a s]; simpl; [done|].
  destruct (Ascii.eqb a c); [done|]. by destruct (str_split c s).
Qed.

Lemma str_split_pieces s : Forall (fun x => no_sep x = true) (str_split Path_SEPARATOR s).
Proof.
  induction s as [|a s IH]; simpl; [by repeat constructor|].
  destruct (Ascii.eqb a Path_SEPARATOR) eqn:E; [by constructor|].
  destruct (str_split Path_SEPARATOR s) as [|h t]; inversion IH; subst.
  - constructor; [|done]. simpl. by rewrite E.
  - constructor; [|done]. simpl. by rewrite E.
Qed.

(** Splitting a string at a separator splits what comes before and after. *)
Lemma str_split_app a b :
  str_split Path_SEPARATOR (a ++ String Path_SEPARATOR b)
  = (str_split Path_SEPARATOR a ++ str_split Path_SEPARATOR b)%list.
Proof.
  induction a as [|x a IH].
  - cbn [String.append str_split]. by rewrite Ascii.eqb_refl.
  - cbn [String.append str_split]. rewrite IH.
    destruct (Ascii.eqb x Path_SEPARATOR); [done|].
    pose proof (str_split_nonempty Path_SEPARATOR a) as Hne.
    by destruct (str_split Path_SEPARATOR a) as [|h t].
Qed.

Lemma str_split_join parts :
  parts <> [] -> Forall (fun s => no_sep s = true) parts ->
  str_split Path_SEPARATOR (str_join (String Path_SEPARATOR "") parts) = parts.
Proof.
  unfold str_join. induction parts as [|p parts IH]; [done|]. intros _ Hf.
  inversion Hf as [|? ? Hp Hr]; subst.
  destruct parts as [|q parts]; [by apply str_split_no_sep|].
  change (String.concat (String Path_SEPARATOR "") (p :: q :: parts))
    with (p ++ (String Path_SEPARATOR "" ++ String.concat (String Path_SEPARATOR "") (q :: parts))).
  cbn [String.append]. rewrite str_split_app, (IH ltac:(done) Hr).
  by rewrite (str_split_no_sep p Hp).
Qed.

Lemma ends_with_char_snoc s c :
  str_ends_with_char s c = true -> exists s', s = s' ++ String c "".
Proof.
  induction s as [|a s IH]; [done|]. destruct s as [|b s].
  - simpl. intros H%Ascii.eqb_eq. subst. by exists "".
  - intros H. destruct (IH H) as [s' Hs']. exists (String a s').
    cbn [String.append]. by rewrite Hs'.
Qed.

Lemma is_abs_String p :
  Path_is_abs p = true <-> exists s, path_str p = String Path_SEPARATOR s.
Proof.
  unfold Path_is_abs, str_starts_with, Path_ROOT, Path_SEPARATOR.
  destruct p as [[|a s]]; cbn [path_str String.prefix]; split.
  - done.
  - intros [? ?]; done.
  - destruct (ascii_dec "/"%char a) as [<-|]; intros H; [by eexists | discriminate].
  - intros [t Ht]. injection Ht as -> _.
    destruct (ascii_dec "/"%char "/"%char); [by destruct s | done].
Qed.

Lemma is_abs_root_app s : Path_is_abs (MkPath (Path_ROOT ++ s)) = true.
Proof. apply is_abs_String. by eexists. Qed.

(** ** Normalisation *)

Lemma normalize_keep_plain s :
  normalize_keep s = true -> String.eqb s Path_PARENT_DIR = false -> plain_name s = true.
Proof. unfold normalize_keep, plain_name. by intros -> ->. Qed.

Lemma plain_name_facts s :
  plain_name s = true ->
  str_is_empty s = false /\ String.eqb s Path_CURRENT_DIR = false
  /\ String.eqb s Path_PARENT_DIR = false.
Proof.
  unfold plain_name. rewrite !andb_true_iff, !negb_true_iff. tauto.
Qed.

(** The last component of a normal form is [..] only when it has no plain name. *)
Lemma canonical_last n names :
  Forall (fun s => plain_name s = true) names ->
  last (replicate n Path_PARENT_DIR ++ names)%list
  = match last names with
    | Some l => Some l
    | None => match n with O => None | S _ => Some Path_PARENT_DIR end
    end.
Proof.
  intros _. rewrite last_app. destruct (last names); [done|].
  destruct n as [|n]; [done|]. rewrite replicate_S_end, last_snoc. done.
Qed.

Lemma normalize_push_canonical b acc part :
  canonical b acc -> normalize_keep part = true -> canonical b (normalize_push b acc part).
Proof.
  intros (n & names & -> & Hf & Hb) Hk. unfold normalize_push.
  destruct (String.eqb part Path_PARENT_DIR) eqn:E.
  - apply String.eqb_eq in E as ->. rewrite (canonical_last _ _ Hf).
    destruct names as [|x names _] using rev_ind.
    + rewrite app_nil_r. destruct n as [|n]; simpl.
      * destruct b; [by exists 0%nat, []|]. by exists 1%nat, [].
      * destruct b; [by specialize (Hb eq_refl)|].
        exists (S (S n)), []. by rewrite replicate_S_end, app_nil_r.
    + rewrite last_snoc. apply Forall_app in Hf as [Hf Hx]. inversion Hx; subst.
      destruct (plain_name_facts x) as (_ & _ & ->); [done|]. simpl.
      exists n, names. by rewrite app_assoc, removelast_last.
  - exists n, (names ++ [part])%list. rewrite app_assoc. split_and!; [done| |done].
    apply Forall_app. split; [done|]. constructor; [|constructor].
    by apply normalize_keep_plain.
Qed.

Lemma normalize_parts_canonical p : canonical (Path_is_abs p) (normalize_parts p).
Proof.
  unfold normalize_parts. set (b := Path_is_abs p). clearbody b.
  assert (canonical b []) as H by (by exists 0%nat, []).
  revert H. generalize (@nil string).
  induction (str_split Path_SEPARATOR (path_str p)) as [|x l IH]; intros acc H; simpl; [done|].
  destruct (normalize_keep x) eqn:E; simpl; [|by apply IH].
  apply IH. by apply normalize_push_canonical.
Qed.

Lemma normalize_push_Forall (P : string -> Prop) b acc part :
  Forall P acc -> P part -> Forall P (normalize_push b acc part).
Proof.
  intros Ha Hp. unfold normalize_push.
  assert (Forall P (acc ++ [part])) by (apply Forall_app; by repeat constructor).
  destruct (String.eqb part Path_PARENT_DIR); [|done].
  destruct acc as [|x acc _] using rev_ind; [by destruct b|].
  rewrite last_snoc. destruct (negb _); [|by destruct b].
  rewrite removelast_last. by apply Forall_app in Ha as [? _].
Qed.

Lemma normalize_parts_no_sep p : Forall (fun s => no_sep s = true) (normalize_parts p).
Proof.
  unfold normalize_parts. assert (H : Forall (fun s => no_sep s = true) (@nil string)) by constructor.
  revert H. generalize (@nil string). pose proof (str_split_pieces (path_str p)) as Hp.
  induction Hp as [|x l Hx Hl IH]; intros acc H; simpl; [done|].
  destruct (normalize_keep x); simpl; [|by apply IH]. apply IH. by apply normalize_push_Forall.
Qed.

Lemma canonical_keep b parts : canonical b parts -> Forall (fun s => normalize_keep s = true) parts.
Proof.
  intros (n & names & -> & Hf & _). apply Forall_app. split.
  - apply Forall_replicate. done.
  - eapply Forall_impl; [exact Hf|]. intros x Hx%plain_name_facts.
    unfold normalize_keep. by destruct Hx as (-> & -> & _).
Qed.

Lemma filter_Forall (f : string -> bool) l :
  Forall (fun s => f s = true) l -> List.filter f l = l.
Proof. induction 1 as [|x l Hx Hl IH]; simpl; [done|]. by rewrite Hx, IH. Qed.

Lemma keep_nonempty s : normalize_keep s = true -> negb (str_is_empty s) = true.
Proof. unfold normalize_keep. by intros [? _]%andb_true_iff. Qed.

Lemma split_root_app s :
  str_split Path_SEPARATOR (Path_ROOT ++ s) = "" :: str_split Path_SEPARATOR s.
Proof. done. Qed.

(** The components of a string made of normal components are these components. *)
Lemma split_join_filter f parts :
  f "" = false -> Forall (fun s => no_sep s = true) parts -> Forall (fun s => f s = true) parts ->
  List.filter f (str_split Path_SEPARATOR (str_join (String Path_SEPARATOR "") parts)) = parts.
Proof.
  intros H0 Hs Hf. destruct parts as [|x parts]; [simpl; by rewrite H0|].
  rewrite str_split_join; [|done..]. by apply filter_Forall.
Qed.

Lemma normalize_components f p :
  f "" = false -> Forall (fun s => f s = true) (normalize_parts p) ->
  List.filter f (str_split Path_SEPARATOR (path_str (Path_normalize p))) = normalize_parts p.
Proof.
  intros H0 Hf. unfold Path_normalize.
  destruct (Path_is_abs p); cbn [path_str];
    [rewrite split_root_app; cbn [List.filter]; rewrite H0|];
    apply split_join_filter; auto using normalize_parts_no_sep.
Qed.

Lemma names_normalize p : Path_names (Path_normalize p) = normalize_parts p.
Proof.
  apply (normalize_components (fun s => negb (str_is_empty s))); [done|].
  eapply Forall_impl; [eapply canonical_keep, normalize_parts_canonical|]. apply keep_nonempty.
Qed.

Lemma is_abs_normalize p : Path_is_abs (Path_normalize p) = Path_is_abs p.
Proof.
  unfold Path_normalize. destruct (Path_is_abs p) eqn:E; [by apply is_abs_root_app|].
  apply not_true_iff_false. intros H%is_abs_String. destruct H as [s Hs]. simpl in Hs.
  pose proof (normalize_components (fun x => negb (str_is_empty x)) p eq_refl) as Hn.
  pose proof (canonical_keep _ _ (normalize_parts_canonical p)) as Hk.
  pose proof (normalize_parts_no_sep p) as Hns.
  destruct (normalize_parts p) as [|x parts]; [done|].
  inversion Hk as [|? ? Hx _]; subst. inversion Hns as [|? ? Hx' _]; subst.
  apply keep_nonempty in Hx. destruct x as [|a x]; [done|].
  unfold str_join in Hs. destruct parts; simpl in Hs; injection Hs as -> _;
    cbn [no_sep] in Hx'; by rewrite Ascii.eqb_refl in Hx'.
Qed.

(** A normal form is left as it is by the fold of [normalize]. *)
Lemma canonical_fold b parts :
  canonical b parts -> fold_left (normalize_push b) parts [] = parts.
Proof.
  intros (n & names & -> & Hf & Hb). rewrite fold_left_app.
  assert (fold_left (normalize_push b) (replicate n Path_PARENT_DIR) []
          = replicate n Path_PARENT_DIR) as ->.
  { destruct b; [by rewrite (Hb eq_refl)|]. clear Hb. induction n as [|n IH]; [done|].
    rewrite replicate_S_end, fold_left_app, IH. simpl. unfold normalize_push.
    destruct n as [|n]; [done|]. by rewrite replicate_S_end, last_snoc. }
  clear Hb. generalize (replicate n Path_PARENT_DIR). clear n.
  induction Hf as [|x names Hx Hf IH]; intros acc; simpl; [by rewrite app_nil_r|].
  unfold normalize_push at 2. destruct (plain_name_facts x) as (_ & _ & ->); [done|].
  rewrite IH. by rewrite <- app_assoc.
Qed.

Lemma normalize_parts_normalize p : normalize_parts (Path_normalize p) = normalize_parts p.
Proof.
  unfold normalize_parts at 1. rewrite is_abs_normalize.
  rewrite (normalize_components normalize_keep); [|done|].
  - apply canonical_fold, normalize_parts_canonical.
  - eapply canonical_keep, normalize_parts_canonical.
Qed.

Lemma normalize_idem p : Path_normalize (Path_normalize p) = Path_normalize p.
Proof.
  unfold Path_normalize at 1. rewrite normalize_parts_normalize, is_abs_normalize.
  unfold Path_normalize. by destruct (Path_is_abs p).
Qed.

(** ** Meaning *)

(** What a path names, seen from the directory [cwd]. *)
Definition denote (cwd : list string) (p : Path) : list string :=
  walk (if Path_is_abs p then [] else cwd) (Path_names p).

Lemma walk_app dir a b : walk dir (a ++ b)%list = walk (walk dir a) b.
Proof. apply fold_left_app. Qed.

Lemma walk_filter (f : string -> bool) dir l :
  (forall s, f s = false -> str_is_empty s || String.eqb s Path_CURRENT_DIR = true) ->
  walk dir (List.filter f l) = walk dir l.
Proof.
  intros H. revert dir. induction l as [|x l IH]; intros dir; simpl; [done|].
  destruct (f x) eqn:E; simpl; [apply IH|].
  rewrite IH. unfold walk_step. by rewrite (H _ E).
Qed.

Lemma walk_plain dir s : plain_name s = true -> walk_step dir s = (dir ++ [s])%list.
Proof. intros (H1 & H2 & H3)%plain_name_facts. unfold walk_step. by rewrite H1, H2, H3. Qed.

Lemma walk_parent dir : walk_step dir Path_PARENT_DIR = removelast dir.
Proof. done. Qed.

(** One step of the fold of [normalize] is one step of the walk. *)
Lemma normalize_push_walk b acc part dir :
  canonical b acc -> normalize_keep part = true -> (b = true -> dir = []) ->
  walk dir (normalize_push b acc part) = walk_step (walk dir acc) part.
Proof.
  intros (n & names & -> & Hf & Hb) Hk Hdir.
  assert (walk dir ((replicate n Path_PARENT_DIR ++ names) ++ [part])
          = walk_step (walk dir (replicate n Path_PARENT_DIR ++ names)) part) as Hsnoc
    by (by rewrite walk_app).
  unfold normalize_push. destruct (String.eqb part Path_PARENT_DIR) eqn:E; [|done].
  apply String.eqb_eq in E as ->. rewrite (canonical_last _ _ Hf).
  destruct names as [|x names _] using rev_ind.
  - destruct b; [|by destruct n].
    rewrite (Hb eq_refl), (Hdir eq_refl). done.
  - rewrite last_snoc. apply Forall_app in Hf as [Hf Hx]. inversion Hx as [|? ? Hp _]; subst.
    destruct (plain_name_facts x Hp) as (_ & _ & ->). simpl negb. cbv iota.
    rewrite app_assoc, removelast_last, (walk_app dir _ [x]). simpl.
    by rewrite (walk_plain _ _ Hp), walk_parent, removelast_last.
Qed.

Lemma keep_dropped s :
  normalize_keep s = false -> str_is_empty s || String.eqb s Path_CURRENT_DIR = true.
Proof. unfold normalize_keep. destruct (str_is_empty s), (String.eqb s _); done. Qed.

Lemma fold_push_walk b l acc dir :
  canonical b acc -> (b = true -> dir = []) ->
  walk dir (fold_left (normalize_push b) (List.filter normalize_keep l) acc)
  = walk (walk dir acc) (List.filter normalize_keep l).
Proof.
  intros H Hdir. revert acc H. induction l as [|x l IH]; intros acc H; simpl; [done|].
  destruct (normalize_keep x) eqn:E; simpl; [|by apply IH].
  rewrite IH by (by apply normalize_push_canonical). by rewrite (normalize_push_walk b).
Qed.

Lemma normalize_parts_walk p dir :
  (Path_is_abs p = true -> dir = []) -> walk dir (normalize_parts p) = walk dir (Path_names p).
Proof.
  intros Hdir. unfold Path_names. rewrite walk_filter by (intros s; destruct s; done).
  unfold normalize_parts. rewrite (fold_push_walk (Path_is_abs p)); [|by exists 0%nat, []|done].
  apply walk_filter, keep_dropped.
Qed.

(** Joining appends the components of [name] to those of the path. *)
Lemma join_components p name :
  List.filter normalize_keep (str_split Path_SEPARATOR
    ((if str_ends_with_char (path_str p) Path_SEPARATOR then path_str p
      else path_str p ++ String Path_SEPARATOR "") ++ name))
  = (List.filter normalize_keep (str_split Path_SEPARATOR (path_str p))
     ++ List.filter normalize_keep (str_split Path_SEPARATOR name))%list.
Proof.
  rewrite <- List.filter_app.
  destruct (str_ends_with_char (path_str p) Path_SEPARATOR) eqn:E.
  - apply ends_with_char_snoc in E as [s ->]. rewrite str_app_assoc. cbn [String.append].
    rewrite !str_split_app, !List.filter_app. cbn [str_split]. simpl List.filter.
    by rewrite app_nil_r.
  - rewrite str_app_assoc. cbn [String.append]. by rewrite str_split_app.
Qed.

Lemma is_abs_join p name :
  path_str p <> "" -> Path_is_abs (Path_join p name) = Path_is_abs p.
Proof.
  intros Hne. unfold Path_join. rewrite is_abs_normalize.
  destruct p as [[|a s]]; [done|]. unfold Path_is_abs, str_starts_with, Path_ROOT. cbn [path_str].
  assert (forall s, String.prefix "" s = true) as Hp by (by intros []).
  destruct (str_ends_with_char _ _); cbn [String.append String.prefix];
    by rewrite !Hp.
Qed.

Lemma normalize_parts_join p name :
  path_str p <> "" ->
  normalize_parts (Path_join p name)
  = fold_left (normalize_push (Path_is_abs p))
      (List.filter normalize_keep (str_split Path_SEPARATOR name)) (normalize_parts p).
Proof.
  intros Hne. pose proof (is_abs_join p name Hne) as Ha. unfold Path_join in *.
  rewrite is_abs_normalize in Ha. rewrite normalize_parts_normalize.
  unfold normalize_parts at 1. rewrite Ha. cbn [path_str].
  by rewrite join_components, fold_left_app.
Qed.

Lemma join_plain_parts p n :
  Path_is_abs p = true -> plain_name n = true -> no_sep n = true ->
  normalize_parts (Path_join p n) = (normalize_parts p ++ [n])%list.
Proof.
  intros Ha Hp Hs. rewrite normalize_parts_join.
  2:{ apply is_abs_String in Ha as [s ->]. done. }
  rewrite str_split_no_sep by done.
  destruct (plain_name_facts n Hp) as (H1 & H2 & H3).
  cbn [List.filter]. unfold normalize_keep. rewrite H1, H2. simpl.
  unfold normalize_push. by rewrite H3.
Qed.

Lemma join_root_slash parts : str_join Path_ROOT parts = str_join (String Path_SEPARATOR "") parts.
Proof. done. Qed.

Lemma normalize_abs p :
  Path_is_abs p = true ->
  Path_normalize p = MkPath (Path_ROOT ++ str_join (String Path_SEPARATOR "") (normalize_parts p)).
Proof. intros H. unfold Path_normalize. by rewrite H. Qed.

Lemma join_plain_parent p n :
  Path_is_abs p = true -> normalize_parts (Path_join p n) = (normalize_parts p ++ [n])%list ->
  Path_parent (Path_join p n) = Path_normalize p.
Proof.
  intros Ha Hj. assert (path_str p <> "") as Hne by (apply is_abs_String in Ha as [s ->]; done).
  pose proof (is_abs_join p n Hne) as Haj. rewrite Ha in Haj.
  assert (Path_names (Path_normalize (Path_join p n)) = (normalize_parts p ++ [n])%list) as Hn
    by (by rewrite names_normalize).
  unfold Path_parent. unfold Path_names in Hn. rewrite Hn, removelast_last.
  destruct (String.eqb _ Path_ROOT) eqn:E.
  - apply String.eqb_eq in E. rewrite E in Hn. simpl in Hn. by destruct (normalize_parts p).
  - unfold Path_is_abs in Haj. rewrite Haj. cbn [Path_ROOT String.append str_is_empty].
    by rewrite (normalize_abs p Ha).
Qed.

Lemma join_denote cwd p name :
  path_str p <> "" ->
  denote cwd (Path_join p name) = walk (denote cwd p) (Path_names (MkPath name)).
Proof.
  intros Hne. unfold denote. rewrite (is_abs_join p name Hne).
  set (dir := if Path_is_abs p then [] else cwd).
  rewrite <- (normalize_parts_walk (Path_join p name)).
  2:{ rewrite (is_abs_join p name Hne). unfold dir. by intros ->. }
  rewrite <- (normalize_parts_walk p) by (unfold dir; by intros ->).
  rewrite (normalize_parts_join p name Hne).
  rewrite (fold_push_walk (Path_is_abs p)); [|apply normalize_parts_canonical|unfold dir; by intros ->].
  unfold Path_names. cbn [path_str].
  rewrite (walk_filter (fun s => negb (str_is_empty s))) by (intros s; destruct s; done).
  apply walk_filter. apply keep_dropped.
Qed.

(** A walk down plain names. *)
Lemma walk_plain_names dir l :
  Forall (fun s => plain_name s = true) l -> walk dir l = (dir ++ l)%list.
Proof.
  intros Hl. revert dir. induction Hl as [|x l Hx Hl IH]; intros dir; [by rewrite app_nil_r|].
  change (walk dir (x :: l)) with (walk (walk_step dir x) l). rewrite (walk_plain dir x Hx), IH.
  by rewrite <- app_assoc.
Qed.

Lemma canonical_abs parts :
  canonical true parts -> Forall (fun s => plain_name s = true) parts.
Proof. intros (n & names & -> & Hf & Hb). by rewrite (Hb eq_refl). Qed.

(** The names of an absolute normalised path are what it denotes. *)
Lemma names_abs_denote p dir :
  Path_is_abs p = true -> Path_names (Path_normalize p) = denote dir p.
Proof.
  intros Ha. unfold denote. rewrite Ha, names_normalize, <- normalize_parts_walk by done.
  pose proof (normalize_parts_canonical p) as Hc. rewrite Ha in Hc.
  by rewrite (walk_plain_names [] _ (canonical_abs _ Hc)).
Qed.

Lemma names_join_parts f parts :
  f "" = false -> Forall (fun s => no_sep s = true) parts -> Forall (fun s => f s = true) parts ->
  List.filter f (str_split Path_SEPARATOR (Path_ROOT ++ str_join Path_ROOT parts)) = parts.
Proof.
  intros H0 Hs Hf. rewrite join_root_slash, split_root_app. cbn [List.filter]. rewrite H0.
  by apply split_join_filter.
Qed.

Lemma Forall_removelast {A} (P : A -> Prop) l : Forall P l -> Forall P (removelast l).
Proof.
  induction l as [|x l _] using rev_ind; [done|]. rewrite removelast_last. by intros [? _]%Forall_app.
Qed.

(** The first character of a joined list of names is not a separator. *)
Lemma is_abs_relative parts :
  parts <> [] -> Forall (fun s => no_sep s = true) parts ->
  Forall (fun s => negb (str_is_empty s) = true) parts ->
  Path_is_abs (MkPath (str_join (String Path_SEPARATOR "") parts)) = false.
Proof.
  intros Hne Hs Hn. apply not_true_iff_false. intros [r Hr]%is_abs_String. cbn [path_str] in Hr.
  pose proof (str_split_join parts Hne Hs) as Hsp. rewrite Hr in Hsp. cbn in Hsp.
  destruct parts as [|x parts]; [done|]. injection Hsp as <- _. by inversion Hn.
Qed.

(** The parent denotes the walk without the last component. *)
Lemma parent_denote dir p :
  denote dir (Path_parent p)
  = walk (if Path_is_abs p then [] else dir) (removelast (normalize_parts p)).
Proof.
  pose proof (names_normalize p) as Hn. pose proof (is_abs_normalize p) as Ha.
  unfold Path_parent. unfold Path_names in Hn. rewrite Hn.
  assert (Forall (fun s => no_sep s = true) (removelast (normalize_parts p))) as Hsep
    by apply Forall_removelast, normalize_parts_no_sep.
  assert (Forall (fun s => negb (str_is_empty s) = true) (removelast (normalize_parts p))) as Hne.
  { apply Forall_removelast. eapply Forall_impl; [eapply canonical_keep, normalize_parts_canonical|].
    apply keep_nonempty. }
  destruct (String.eqb_spec (path_str (Path_normalize p)) Path_ROOT) as [Hr|_].
  - rewrite Hr in Hn. cbn in Hn. rewrite <- Hn. cbn [removelast]. unfold denote, Path_names. cbn [path_str].
    rewrite Hr. assert (Path_is_abs p = true) as -> by (rewrite <- Ha; unfold Path_is_abs; by rewrite Hr).
    reflexivity.
  - fold (Path_is_abs p). destruct (Path_is_abs p) eqn:Hp.
    + assert (forall x, str_is_empty (Path_ROOT ++ x) = false) as -> by done. unfold denote. rewrite is_abs_root_app. unfold Path_names.
      cbn [path_str]. by rewrite (names_join_parts (fun s => negb (str_is_empty s))).
    + destruct (removelast (normalize_parts p)) as [|x l] eqn:Hl; [reflexivity|].
      rewrite join_root_slash. unfold denote.
      assert (str_is_empty (str_join (String Path_SEPARATOR "") (x :: l)) = false) as ->.
      { apply Forall_cons in Hne as [Hx _]. destruct x as [|a x]; [done|]. by destruct l. }
      rewrite (is_abs_relative (x :: l)) by done. unfold Path_names. cbn [path_str].
      by rewrite (split_join_filter (fun s => negb (str_is_empty s))).
Qed.

(** The components of the parent of a normalised path. *)
Lemma names_parent p :
  Path_names (Path_parent p) = removelast (normalize_parts p)
  \/ (removelast (normalize_parts p) = [] /\ Path_names (Path_parent p) = [Path_CURRENT_DIR]).
Proof.
  pose proof (names_normalize p) as Hn. unfold Path_parent. unfold Path_names in Hn. rewrite Hn.
  assert (Forall (fun s => no_sep s = true) (removelast (normalize_parts p))) as Hsep
    by apply Forall_removelast, normalize_parts_no_sep.
  assert (Forall (fun s => negb (str_is_empty s) = true) (removelast (normalize_parts p))) as Hne.
  { apply Forall_removelast. eapply Forall_impl; [eapply canonical_keep, normalize_parts_canonical|].
    apply keep_nonempty. }
  destruct (String.eqb_spec (path_str (Path_normalize p)) Path_ROOT) as [Hr|_].
  - left. rewrite Hr in Hn |- *. cbn in Hn. by rewrite <- Hn.
  - destruct (str_starts_with _ _).
    + left. change (str_is_empty (Path_ROOT ++ str_join Path_ROOT (removelast (normalize_parts p)))) with false.
      apply (names_join_parts (fun s => negb (str_is_empty s))); done.
    + destruct (removelast (normalize_parts p)) as [|x l] eqn:Hl; [by right|]. left. rewrite join_root_slash.
      assert (str_is_empty (str_join (String Path_SEPARATOR "") (x :: l)) = false) as ->.
      { apply Forall_cons in Hne as [Hx _]. destruct x as [|a x]; [done|]. by destruct l. }
      by apply (split_join_filter (fun s => negb (str_is_empty s))).
Qed.

Lemma normalize_keep_names p :
  List.filter normalize_keep (str_split Path_SEPARATOR (path_str p))
  = List.filter normalize_keep (Path_names p).
Proof.
  unfold Path_names. induction (str_split _ _) as [|x l IH]; [done|]. cbn [List.filter].
  destruct (normalize_keep x) eqn:Hk.
  - rewrite (keep_nonempty x Hk). cbn [List.filter]. by rewrite Hk, IH.
  - destruct (negb _); cbn [List.filter]; by rewrite ?Hk.
Qed.

Lemma parent_name_denote dir p :
  Path_names p <> [] -> plain_name (Path_name p) = true ->
  denote dir p = (denote dir (Path_parent p) ++ [Path_name p])%list.
Proof.
  intros Hne Hp. rewrite parent_denote. unfold denote. set (d := if Path_is_abs p then [] else dir).
  rewrite <- (normalize_parts_walk p d) by (unfold d; by intros ->).
  unfold normalize_parts, Path_name in *. rewrite normalize_keep_names.
  destruct (Path_names p) as [|n ns _] using rev_ind; [done|]. rewrite last_snoc in Hp |- *.
  destruct (plain_name_facts n Hp) as (H1 & H2 & H3).
  rewrite List.filter_app. cbn [List.filter]. assert (normalize_keep n = true) as ->
    by (unfold normalize_keep; by rewrite H1, H2).
  rewrite fold_left_app. cbn [fold_left]. unfold normalize_push at 1 3. rewrite H3, removelast_last.
  rewrite walk_app. cbn [walk fold_left]. by rewrite walk_plain.
Qed.

Lemma parent_root_denote dir p :
  Path_names p = [] -> denote dir (Path_parent p) = denote dir p.
Proof.
  intros Hn. rewrite parent_denote. unfold denote, normalize_parts. by rewrite normalize_keep_names, Hn.
Qed.

(** ** Properties *)

(** Normalising a path a second time changes nothing, and the result is in
    normal form: its components are plain names, preceded by [..] components
    only when the path is relative; it is absolute exactly when the path is. *)
Theorem Path_normalize_canonical p :
  Path_normalize (Path_normalize p) = Path_normalize p
  /\ Path_is_abs (Path_normalize p) = Path_is_abs p
  /\ canonical (Path_is_abs p) (Path_names (Path_normalize p)).
Proof.
  split_and!; [apply normalize_idem | apply is_abs_normalize |].
  rewrite names_normalize. apply normalize_parts_canonical.
Qed.

(** C36: normalisation keeps the meaning of a path, from every directory: the
    walk of the normal form ends where the walk of the path itself ends. *)
Theorem Path_normalize_denote cwd p : denote cwd (Path_normalize p) = denote cwd p.
Proof.
  unfold denote. rewrite is_abs_normalize, names_normalize.
  apply normalize_parts_walk. by intros ->.
Qed.

(** Joining a non-empty path and a name denotes the walk of the name's
    components from what the path denotes. *)
Theorem Path_join_denote cwd p name :
  path_str p <> "" ->
  denote cwd (Path_join p name) = walk (denote cwd p) (Path_names (MkPath name)).
Proof. apply join_denote. Qed.

Lemma Path_join_denote_witness :
  path_str (MkPath "/a/b") <> ""
  /\ denote ["x"] (Path_join (MkPath "/a/b") "../c") = ["a"; "c"].
Proof.
  split; [done|]. rewrite (Path_join_denote ["x"] (MkPath "/a/b") "../c"); [|done].
  reflexivity.
Defined.

(** for an absolute path and a plain name, [join] and [parent]/[name] are
    inverse: the parent of the joined path is the path (normalised), its last
    component is the name. *)
Theorem Path_join_parent_name p n :
  Path_is_abs p = true -> plain_name n = true -> no_sep n = true ->
  Path_parent (Path_join p n) = Path_normalize p /\ Path_name (Path_join p n) = n.
Proof.
  intros Ha Hp Hs. pose proof (join_plain_parts p n Ha Hp Hs) as Hj.
  assert (Path_names (Path_join p n) = (normalize_parts p ++ [n])%list) as Hn.
  { rewrite <- Hj. unfold Path_join. by rewrite names_normalize, normalize_parts_normalize. }
  split.
  - apply (join_plain_parent p n Ha Hj).
  - unfold Path_name. by rewrite Hn, last_snoc.
Qed.

Lemma Path_join_parent_name_witness :
  Path_parent (Path_join (MkPath "/mnt/../dev") "tty") = MkPath "/dev"
  /\ Path_name (Path_join (MkPath "/mnt/../dev") "tty") = "tty".
Proof.
  exact (Path_join_parent_name (MkPath "/mnt/../dev") "tty" eq_refl eq_refl eq_refl).
Defined.
