(* ===== verification/KError.v ===== *)
(** * The kernel's error type ([kernel/src/error.rs])

    [Error] with the error enums of the modelled components and, for its
    other variants, of the components it names; [Error_] adds the optional
    context string.  [Result A] is [core::result::Result<A, Error_>] together
    with the possibility of a panic. *)
From Stdlib Require Import ZArith.
From stdpp Require Import base strings.
From S2P Require Import Prelude Path.

Inductive BitmapMemoryManagerError :=
| FreeMemoryFrameWasNotFound
| MemoryFrameWasAlreadyAllocated (index : Z)
| MemoryFrameWasAlreadyDeallocated (index : Z)
| InvalidMemoryFrameLength (len : Z).

Record FileDescriptorNumber := MkFd { fd_get : Z }.

Inductive VirtualFileSystemError :=
| NoSuchFileOrDirectory (path : option Path)
| FileOrDirectoryAlreadyExists (path : Path)
| InvalidFileType (path : option Path)
| NotDirectory (path : option Path)
| NotFile (path : option Path)
| ReadOnly (path : option Path)
| BlockingFileResource (fd : FileDescriptorNumber)
| ReleasedFileResource (fd : FileDescriptorNumber)
| InvalidFileName
| InvalidFileDescriptorNumber.

Inductive PageError :=
| PageNotMapped
| AddressNotAlignedByPageSize (addr : Z)
| AddressNotMapped (addr : Z).

Inductive AllocationError :=
| InvalidLayout (size align : Z)
| InvalidNode
| NoCursor
| NoNextCursor
| NullCursor.

Inductive Elf64Error := InvalidMagicNumber.

Inductive AcpiError :=
| InvalidSignature
| InvalidRevision (revision : Z)
| InvalidChecksum
| FixedAcpiDescriptionTableWasNotFound.

Inductive ConfigurationSpaceHeaderType :=
| NonBridge
| PciToPciBridge
| PciToCardBusBridge
| MultiFunction
| HeaderTypeInvalid (v : Z).

Inductive PciError :=
| DeviceNotFoundByBdf (bus device func : Z)
| DeviceNotFoundById (vendor_id device_id : Z)
| InvalidConfigurationSpaceHeaderType (ty : ConfigurationSpaceHeaderType)
| FailedToReadMsiCapabilityFields
| MsiCapabilityFieldWasNotFound.

Inductive XhcDriverError :=
| InvalidRegisterAddress
| RegisterNotInitialized
| HostControllerIsNotHalted
| EventRingNotInitialized
| DeviceContextBaseAddressArrayNotInitialized
| CommandRingNotInitialized
| PortScNotInitialized
| PortNotConnected (port : Z).

Record Point := MkPoint { pt_x : Z; pt_y : Z }.
Record Size := MkSize { sz_width : Z; sz_height : Z }.
Inductive PixelFormat := Rgb | Bgr | Bgra.

Inductive DrawError :=
| SourcePositionOutOfBounds (point : Point)
| DestinationPositionOutOfBounds (point : Point)
| RectSizeOutOfBounds (size : Size)
| InvalidPixelFormat (src dst : PixelFormat).

Inductive LayerError :=
| OutsideBufferArea (layer_id : Z) (point : Point)
| InvalidLayerId (id : Z).

Inductive WindowManagerError :=
| MousePointerLayerWasNotFound
| TaskbarLayerWasNotFound
| WindowWasNotFound (layer_id : Z).

Inductive Error :=
| NotInitialized
| Locked
| IndexOutOfBounds (index : Z) (len : option Z)
| OutOfRange (value min max : Z)
| NotAligned (value align : Z)
| InvalidBufferSize (required actual : Z)
| BufferFull
| BufferEmpty
| AlreadyExists
| Overflow
| NotFound
| InvalidData
| NotSupported
| EElf64 (e : Elf64Error)
| EAcpi (e : AcpiError)
| EVirtualFileSystem (e : VirtualFileSystemError)
| EPci (e : PciError)
| EXhcDriver (e : XhcDriverError)
| EDraw (e : DrawError)
| ELayer (e : LayerError)
| EWindowManager (e : WindowManagerError)
| EAllocation (e : AllocationError)
| EBitmapMemoryManager (e : BitmapMemoryManagerError)
| EPage (e : PageError).

Record Error_ := MkError_ { error_kind : Error; error_context : option string }.

(** [From<Error> for Error_] ([.into()]) and [with_context]. *)
Definition error_into (kind : Error) : Error_ := MkError_ kind None.
Definition with_context (kind : Error) (c : string) : Error_ := MkError_ kind (Some c).

Definition should_retry (e : Error_) : bool :=
  match error_kind e with Locked => true | _ => false end.

Abbreviation Result A := (outcome Error_ A).
Abbreviation SR S A := (ST S Error_ A).
