(* ===== verification/Windows.v ===== *)
(** * Layers and windows ([graphics/multi_layer.rs], [graphics/window_manager])

    The layers of the screen and the windows over them, as far as a dropped task needs
    them: [window_manager::remove_component] removes a window or a component of one,
    and their [Drop] removes their layers.  Pixels are not drawn here. *)
From Stdlib Require Import ZArith Lia.
From stdpp Require Import base sets list.
From S2P Require Import Prelude KError.

#[local] Open Scope list_scope.
#[local] Open Scope Z_scope.

(** ** Layers *)

Record Rect := MkRect { rc_origin : Point; rc_size : Size }.

Definition Rect_new (x y width height : Z) : Rect := MkRect (MkPoint x y) (MkSize width height).

Record Layer := MkLayer {
  layer_num : Z;
  layer_pos : Point;
  layer_size : Size;
  layer_buf : list Z;
  layer_disabled : bool;
  layer_format : PixelFormat;
  always_on_top : bool;
  dirty_rect : option Rect;
  pos_moved : bool;
  old_pos : option Point
}.

Definition set_dirty_rect (r : option Rect) (l : Layer) : Layer :=
  MkLayer (layer_num l) (layer_pos l) (layer_size l) (layer_buf l) (layer_disabled l) (layer_format l)
    (always_on_top l) r (pos_moved l) (old_pos l).

Definition extend_dirty_rect (rect : Rect) (l : Layer) : Result Layer :=
  match dirty_rect l with
  | Some curr =>
      let min_x := Z.min (pt_x (rc_origin curr)) (pt_x (rc_origin rect)) in
      let min_y := Z.min (pt_y (rc_origin curr)) (pt_y (rc_origin rect)) in
      let? x1 := uadd 64 (pt_x (rc_origin curr)) (sz_width (rc_size curr)) in
      let? x2 := uadd 64 (pt_x (rc_origin rect)) (sz_width (rc_size rect)) in
      let max_x := Z.max x1 x2 in
      let? y1 := uadd 64 (pt_y (rc_origin curr)) (sz_height (rc_size curr)) in
      let? y2 := uadd 64 (pt_y (rc_origin rect)) (sz_height (rc_size rect)) in
      let max_y := Z.max y1 y2 in
      let? width := usub 64 max_x min_x in
      let? height := usub 64 max_y min_y in
      Ok (set_dirty_rect (Some (Rect_new min_x min_y width height)) l)
  | None => Ok (set_dirty_rect (Some rect) l)
  end.

(** [pos + size] in both directions. *)
Definition layer_end (l : Layer) : Result (Z * Z) :=
  let? x2 := uadd 64 (pt_x (layer_pos l)) (sz_width (layer_size l)) in
  let? y2 := uadd 64 (pt_y (layer_pos l)) (sz_height (layer_size l)) in
  Ok (x2, y2).

(** What a removed layer, at [pos] up to [(r_x2, r_y2)], uncovers of another. *)
Definition uncover (pos : Point) (r_x2 r_y2 : Z) (layer : Layer) : Result Layer :=
  if layer_disabled layer then Ok layer
  else
    let l_x1 := pt_x (layer_pos layer) in
    let l_y1 := pt_y (layer_pos layer) in
    let? (l_x2, l_y2) := layer_end layer in
    let ix1 := Z.max (pt_x pos) l_x1 in
    let iy1 := Z.max (pt_y pos) l_y1 in
    let ix2 := Z.min r_x2 l_x2 in
    let iy2 := Z.min r_y2 l_y2 in
    if (ix1 <? ix2) && (iy1 <? iy2) then
      let? x := usub 64 ix1 l_x1 in
      let? y := usub 64 iy1 l_y1 in
      let? width := usub 64 ix2 ix1 in
      let? height := usub 64 iy2 iy1 in
      extend_dirty_rect (Rect_new x y width height) layer
    else Ok layer.

Fixpoint uncover_all (pos : Point) (r_x2 r_y2 : Z) (layers : list Layer) : Result (list Layer) :=
  match layers with
  | [] => Ok []
  | l :: ls => let? l := uncover pos r_x2 r_y2 l in let? ls := uncover_all pos r_x2 r_y2 ls in Ok (l :: ls)
  end.

Definition remove_layer (layer_id : Z) : SR (list Layer) unit :=
  let! layers := sget in
  match list_find (fun l => layer_num l = layer_id) layers with
  | Some (_, removed) =>
      let! (r_x2, r_y2) := slift (layer_end removed) in
      let rest := filter (fun l => layer_num l <> layer_id) layers in
      let! layers := slift (uncover_all (layer_pos removed) r_x2 r_y2 rest) in
      smodify (fun _ => layers)
  | None => serr (error_into (ELayer (InvalidLayerId layer_id)))
  end.

(** ** Windows *)

(** A component, a button or a child of a window, is its layer; of a window and the
    manager these are the fields that removal reads. *)
Record Window := MkWindow {
  window_layer : Z;
  close_button : Z;
  resize_button : Z;
  minimize_button : Z;
  window_children : list Z
}.

Record WindowManager := MkWindowManager {
  windows : list Window;
  res : option Size
}.

Record Graphics := MkGraphics {
  LAYER_MAN : list Layer;
  WINDOW_MAN : WindowManager
}.

Definition on_layers {A} (c : SR (list Layer) A) : SR Graphics A := fun g =>
  let '(r, l) := c (LAYER_MAN g) in (r, MkGraphics l (WINDOW_MAN g)).

Definition set_windows (ws : list Window) : SR Graphics unit :=
  smodify (fun g => MkGraphics (LAYER_MAN g) (MkWindowManager ws (res (WINDOW_MAN g)))).

(** [Drop] of an image, a button, a label, a canvas. *)
Definition Component_drop (layer_id : Z) : SR Graphics unit := signore (on_layers (remove_layer layer_id)).

(** [Drop for Window], then its fields. *)
Definition Window_drop (w : Window) : SR Graphics unit :=
  do! signore (on_layers (remove_layer (window_layer w))) in
  do! Component_drop (close_button w) in
  do! Component_drop (resize_button w) in
  do! Component_drop (minimize_button w) in
  sfor (window_children w) Component_drop.

Definition with_children (cs : list Z) (w : Window) : Window :=
  MkWindow (window_layer w) (close_button w) (resize_button w) (minimize_button w) cs.

(** The window without its child, and the child. *)
Definition remove_child (layer_id : Z) (w : Window) : option (Window * Z) :=
  match list_find (eq layer_id) (window_children w) with
  | Some (pos, child) => Some (with_children (delete pos (window_children w)) w, child)
  | None => None
  end.

(** The loop over the windows. *)
Fixpoint remove_from (layer_id : Z) (ws : list Window) : option (list Window * Z) :=
  match ws with
  | [] => None
  | w :: ws =>
      match remove_child layer_id w with
      | Some (w, child) => Some (w :: ws, child)
      | None => '(ws, child) ← remove_from layer_id ws; Some (w :: ws, child)
      end
  end.

Definition remove_component (layer_id : Z) : SR Graphics unit :=
  let! g := sget in
  match res (WINDOW_MAN g) with
  | None => serr (error_into NotInitialized)
  | Some _ =>
      let ws := windows (WINDOW_MAN g) in
      match list_find (fun w => window_layer w = layer_id) ws with
      | Some (index, w) => do! set_windows (delete index ws) in Window_drop w
      | None =>
          match remove_from layer_id ws with
          | Some (ws, child) => do! set_windows ws in Component_drop child
          | None => serr (error_into (EWindowManager (WindowWasNotFound layer_id)))
          end
      end
  end.

(** ** Removal is safe *)

(** A layer lies below 2^64 in both directions, and what of it is dirty lies in it. *)
Definition rect_in (s : Size) (r : Rect) : Prop :=
  0 <= pt_x (rc_origin r) /\ 0 <= sz_width (rc_size r) /\ pt_x (rc_origin r) + sz_width (rc_size r) <= sz_width s
  /\ 0 <= pt_y (rc_origin r) /\ 0 <= sz_height (rc_size r) /\ pt_y (rc_origin r) + sz_height (rc_size r) <= sz_height s.

Record layer_ok (l : Layer) : Prop := {
  lo_x : 0 <= pt_x (layer_pos l) /\ 0 <= sz_width (layer_size l) /\ pt_x (layer_pos l) + sz_width (layer_size l) < 2 ^ 64;
  lo_y : 0 <= pt_y (layer_pos l) /\ 0 <= sz_height (layer_size l) /\ pt_y (layer_pos l) + sz_height (layer_size l) < 2 ^ 64;
  lo_dirty : match dirty_rect l with Some r => rect_in (layer_size l) r | None => True end
}.

Lemma layer_end_ok l :
  layer_ok l -> layer_end l = Ok (pt_x (layer_pos l) + sz_width (layer_size l), pt_y (layer_pos l) + sz_height (layer_size l)).
Proof. intros [Hx Hy _]. unfold layer_end. rewrite !uadd_run by lia. done. Qed.

Lemma extend_dirty_rect_ok r l :
  layer_ok l -> rect_in (layer_size l) r ->
  exists l', extend_dirty_rect r l = Ok l' /\ layer_ok l' /\ layer_num l' = layer_num l.
Proof.
  intros [Hx Hy Hd] Hr. unfold rect_in in Hr. unfold extend_dirty_rect. destruct (dirty_rect l) as [c|].
  - unfold rect_in in Hd. rewrite !uadd_run by lia. cbn [obind]. rewrite usub_run by lia. cbn [obind]. rewrite usub_run by lia. cbn [obind].
    eexists. split; [reflexivity|]. split; [|done]. split; [done|done|].
    unfold rect_in. cbn [set_dirty_rect dirty_rect Rect_new rc_origin rc_size pt_x pt_y sz_width sz_height layer_size]. lia.
  - eexists. split; [reflexivity|]. split; [|done]. by split.
Qed.

Lemma uncover_ok pos x2 y2 l :
  layer_ok l -> exists l', uncover pos x2 y2 l = Ok l' /\ layer_ok l' /\ layer_num l' = layer_num l.
Proof.
  intros H. unfold uncover. destruct (layer_disabled l); [by exists l|]. rewrite layer_end_ok by done. cbn [obind].
  destruct (_ && _) eqn:Hi; [|by exists l]. apply andb_true_iff in Hi as [Hi1%Z.ltb_lt Hi2%Z.ltb_lt].
  rewrite usub_run by lia. cbn [obind]. rewrite usub_run by lia. cbn [obind]. rewrite usub_run by lia. cbn [obind].
  rewrite usub_run by lia. cbn [obind]. apply extend_dirty_rect_ok; [done|].
  unfold rect_in. cbn [Rect_new rc_origin rc_size pt_x pt_y sz_width sz_height]. lia.
Qed.

Lemma uncover_all_ok pos x2 y2 ls :
  Forall layer_ok ls ->
  exists ls', uncover_all pos x2 y2 ls = Ok ls' /\ Forall layer_ok ls' /\ layer_num <$> ls' = layer_num <$> ls.
Proof.
  induction 1 as [|l ls H _ (ls' & E & H' & N)]; [by exists []|]. destruct (uncover_ok pos x2 y2 l H) as (l' & E1 & H1 & N1).
  cbn [uncover_all]. rewrite E1. cbn [obind]. rewrite E. cbn [obind]. exists (l' :: ls'). split; [done|]. split; [by constructor|].
  cbn. by rewrite N, N1.
Qed.

Lemma filter_all {A} (P : A -> Prop) `{!forall x, Decision (P x)} (l : list A) : Forall P l -> filter P l = l.
Proof. induction 1 as [|x l Hx _ IH]; [done|]. by rewrite filter_cons_True, IH. Qed.

(** Removing a layer leaves the others. *)
Lemma remove_layer_run id ls :
  Forall layer_ok ls ->
  exists r ls', remove_layer id ls = (r, ls') /\ r <> Panic /\ Forall layer_ok ls'
    /\ layer_num <$> ls' = filter (fun n => n <> id) (layer_num <$> ls).
Proof.
  intros H. unfold remove_layer, sbind at 1, sget.
  assert (layer_num <$> filter (fun l => layer_num l <> id) ls = filter (fun n => n <> id) (layer_num <$> ls)) as Hf.
  { clear H. induction ls as [|l ls IH]; [done|]. rewrite fmap_cons, !filter_cons. repeat case_decide; [|done..]. by rewrite fmap_cons, IH. }
  destruct (list_find _ ls) as [[i l]|] eqn:Hl.
  - apply list_find_Some in Hl as (Hi & _). rewrite layer_end_ok by (by eapply Forall_lookup_1).
    destruct (uncover_all_ok (layer_pos l) (pt_x (layer_pos l) + sz_width (layer_size l)) (pt_y (layer_pos l) + sz_height (layer_size l))
                (filter (fun l => layer_num l <> id) ls)) as (ls' & E & H' & N); 
      [apply Forall_forall; intros x [_ Hx]%list_elem_of_filter; by rewrite Forall_forall in H; apply H|].
    unfold sbind, slift. rewrite E. eexists _, ls'. split; [reflexivity|]. split; [done|]. split; [done|]. by rewrite N.
  - eexists _, ls. split; [reflexivity|]. split; [done|]. split; [done|]. rewrite <- Hf. f_equal. symmetry. apply filter_all. by apply list_find_None in Hl.
Qed.

Definition graphics_ok (g : Graphics) : Prop := Forall layer_ok (LAYER_MAN g).

Definition window_ids (g : Graphics) : list Z := window_layer <$> windows (WINDOW_MAN g).

(** [Window_drop] drops its components one after another. *)
Definition window_layers (w : Window) : list Z :=
  window_layer w :: close_button w :: resize_button w :: minimize_button w :: window_children w.

Lemma Component_drop_run id g :
  graphics_ok g -> exists g', Component_drop id g = (Ok tt, g') /\ graphics_ok g' /\ WINDOW_MAN g' = WINDOW_MAN g.
Proof.
  intros H. destruct (remove_layer_run id (LAYER_MAN g) H) as (r & ls & E & Hr & H' & _).
  unfold Component_drop, signore, on_layers. rewrite E. exists (MkGraphics ls (WINDOW_MAN g)). by destruct r.
Qed.

Lemma drops_run ids : forall g,
  graphics_ok g -> exists g', sfor ids Component_drop g = (Ok tt, g') /\ graphics_ok g' /\ WINDOW_MAN g' = WINDOW_MAN g.
Proof.
  induction ids as [|id ids IH]; intros g H; [by exists g|]. destruct (Component_drop_run id g H) as (g1 & E1 & H1 & W1).
  destruct (IH g1 H1) as (g' & E' & H' & W'). exists g'. cbn [sfor]. unfold sbind. rewrite E1. rewrite W', W1 in *. done.
Qed.

Lemma Window_drop_run w g :
  graphics_ok g -> exists g', Window_drop w g = (Ok tt, g') /\ graphics_ok g' /\ WINDOW_MAN g' = WINDOW_MAN g.
Proof. exact (drops_run (window_layers w) g). Qed.

Lemma remove_from_ids id ws ws' child : remove_from id ws = Some (ws', child) -> window_layer <$> ws' = window_layer <$> ws.
Proof.
  revert ws'. induction ws as [|w ws IH]; intros ws' H; [done|]. cbn in H.
  destruct (remove_child id w) as [[w1 c]|] eqn:Hw.
  - injection H as <- <-. unfold remove_child in Hw. destruct (list_find _ _) as [[i c']|]; [|done]. by injection Hw as <- _.
  - destruct (remove_from id ws) as [[ws1 c]|]; [|done]. injection H as <- <-. cbn. by rewrite (IH ws1).
Qed.

(** An initialised window manager has no window of the name afterwards, and all others. *)
Lemma remove_component_run id g :
  graphics_ok g -> is_Some (res (WINDOW_MAN g)) -> NoDup (window_ids g) ->
  exists r g', remove_component id g = (r, g') /\ r <> Panic /\ graphics_ok g' /\ res (WINDOW_MAN g') = res (WINDOW_MAN g)
    /\ window_ids g' = filter (fun n => n <> id) (window_ids g).
Proof.
  intros H [sz Hres] Hnd. unfold remove_component, sbind at 1, sget. rewrite Hres.
  destruct (list_find _ _) as [[i w]|] eqn:Hw.
  - apply list_find_Some in Hw as (Hi & Hid & _). unfold sbind at 1, set_windows, smodify.
    set (g1 := MkGraphics _ _). destruct (Window_drop_run w g1 H) as (g' & E & H' & W). rewrite E. eexists _, g'.
    split; [reflexivity|]. split; [done|]. split; [done|]. unfold window_ids. rewrite W. split; [cbn; congruence|].
    cbn [g1 WINDOW_MAN windows]. unfold window_ids in Hnd. apply list_elem_of_split_length in Hi as (ws1 & ws2 & Hws & ->). rewrite Hws in *.
    rewrite delete_middle, !fmap_app, fmap_cons, filter_app, filter_cons_False in * by (intros Hn; by apply Hn).
    apply NoDup_app in Hnd as (_ & H1 & [H2 _]%NoDup_cons). rewrite Hid in *.
    by rewrite !filter_all by (apply Forall_forall; intros n Hn ->; set_solver).
  - apply list_find_None in Hw. assert (filter (fun n => n <> id) (window_ids g) = window_ids g) as Hf.
    { apply filter_all. unfold window_ids. by rewrite Forall_fmap. }
    destruct (remove_from id _) as [[ws c]|] eqn:Hr.
    + unfold sbind at 1, set_windows, smodify. set (g1 := MkGraphics _ _). destruct (Component_drop_run c g1 H) as (g' & E & H' & W).
      rewrite E. eexists _, g'. split; [reflexivity|]. split; [done|]. split; [done|]. unfold window_ids at 1. rewrite W, Hf. split; [cbn; congruence|].
      exact (remove_from_ids _ _ _ _ Hr).
    + eexists _, g. split; [reflexivity|]. split; [done|]. split; [done|]. split; [congruence|]. by rewrite Hf.
Qed.

Definition remove_components (ids : list Z) : SR Graphics unit := sfor ids (fun id => signore (remove_component id)).

(** A window manager that is in use, or not yet initialised. *)
Definition manager_ok (g : Graphics) : Prop :=
  graphics_ok g /\ NoDup (window_ids g) /\ (res (WINDOW_MAN g) = None -> windows (WINDOW_MAN g) = []).

Lemma remove_components_run ids : forall g,
  manager_ok g ->
  exists g', remove_components ids g = (Ok tt, g') /\ manager_ok g'
    /\ window_ids g' = filter (fun n => n ∉ ids) (window_ids g).
Proof.
  induction ids as [|id ids IH]; intros g G; pose proof G as (H & Hnd & Hz).
  { exists g. split; [done|]. split; [done|]. symmetry. apply filter_all, Forall_forall. set_solver. }
  unfold remove_components. cbn [sfor]. unfold sbind, signore at 1. destruct (res (WINDOW_MAN g)) as [sz|] eqn:Hr.
  - destruct (remove_component_run id g H) as (r & g1 & E1 & Hp & H1 & R1 & W1); [by rewrite Hr|done|]. rewrite E1.
    destruct (IH g1) as (g' & E' & H' & W').
    { split; [done|]. split; [rewrite W1; by apply NoDup_filter|]. by rewrite R1, Hr. }
    exists g'. rewrite W', W1. split; [by destruct r|]. split; [done|]. rewrite list_filter_filter.
    apply list_filter_iff. intros n. set_solver.
  - unfold remove_component at 1. unfold sbind, sget. rewrite Hr.
    destruct (IH g G) as (g' & E' & H' & W'). exists g'. split; [done|]. split; [done|].
    rewrite W'. unfold window_ids. by rewrite Hz.
Qed.
