(* ===== verification/Fifo.v ===== *)
(** * The ring buffer of the input drivers ([kernel/src/util/fifo.rs])

    [Fifo<T, SIZE>] is an array with a read and a write position.  The module
    models every operation, states what the buffer promises as a bounded
    queue ([spec_enqueue], [spec_dequeue]) and shows the refinement. *)
From Stdlib Require Import ZArith Lia.
From stdpp Require Import base list.
From S2P Require Import Prelude KError.

Section Fifo.
Context {T : Type}.

Record Fifo := MkFifo {
  fifo_buf : list T;
  fifo_size : Z;
  fifo_read_ptr : Z;
  fifo_write_ptr : Z
}.

Definition Fifo_new (SIZE : Z) (default : T) : Fifo :=
  {| fifo_buf := replicate (Z.to_nat SIZE) default; fifo_size := SIZE;
     fifo_read_ptr := 0; fifo_write_ptr := 0 |}.

(** [a % b] on [usize]: a zero divisor panics. *)
Definition urem {E} (a b : Z) : outcome E Z :=
  if b =? 0 then Panic else Ok (a mod b).

Definition Fifo_len (f : Fifo) : Result Z :=
  let read_ptr := fifo_read_ptr f in
  let write_ptr := fifo_write_ptr f in
  let? s := uadd 64 write_ptr (fifo_size f) in
  let? d := usub 64 s read_ptr in
  urem d (fifo_size f).

Definition Fifo_is_full (f : Fifo) : Result bool :=
  let read_ptr := fifo_read_ptr f in
  let write_ptr := fifo_write_ptr f in
  let? s := uadd 64 write_ptr 1 in
  let? n := urem s (fifo_size f) in
  Ok (n =? read_ptr).

Definition Fifo_reset_ptr (f : Fifo) : Fifo :=
  {| fifo_buf := fifo_buf f; fifo_size := fifo_size f;
     fifo_read_ptr := 0; fifo_write_ptr := 0 |}.

Definition Fifo_read_write_ptr (f : Fifo) : Z * Z := (fifo_read_ptr f, fifo_write_ptr f).

Definition set_write_ptr (f : Fifo) (p : Z) : Fifo :=
  {| fifo_buf := fifo_buf f; fifo_size := fifo_size f;
     fifo_read_ptr := fifo_read_ptr f; fifo_write_ptr := p |}.
Definition set_read_ptr (f : Fifo) (p : Z) : Fifo :=
  {| fifo_buf := fifo_buf f; fifo_size := fifo_size f;
     fifo_read_ptr := p; fifo_write_ptr := fifo_write_ptr f |}.
Definition set_fifo_buf (f : Fifo) (b : list T) : Fifo :=
  {| fifo_buf := b; fifo_size := fifo_size f;
     fifo_read_ptr := fifo_read_ptr f; fifo_write_ptr := fifo_write_ptr f |}.

Definition Fifo_enqueue (value : T) : SR Fifo unit :=
  let! f := sget in
  let read_ptr := fifo_read_ptr f in
  let write_ptr := fifo_write_ptr f in
  let! s := slift (uadd 64 write_ptr 1) in
  let! next_write_ptr := slift (urem s (fifo_size f)) in
  if next_write_ptr =? read_ptr then serr (error_into BufferFull)
  else
    (* compare_exchange *)
    let! f := sget in
    if negb (fifo_write_ptr f =? write_ptr) then serr (error_into Locked)
    else
      do! sput (set_write_ptr f next_write_ptr) in
      let! f := sget in
      if (Z.to_nat write_ptr <? length (fifo_buf f))%nat
      then sput (set_fifo_buf f (<[Z.to_nat write_ptr := value]> (fifo_buf f)))
      else spanic.

Definition Fifo_dequeue : SR Fifo T :=
  let! f := sget in
  let read_ptr := fifo_read_ptr f in
  let write_ptr := fifo_write_ptr f in
  let! s := slift (uadd 64 read_ptr 1) in
  let! next_read_ptr := slift (urem s (fifo_size f)) in
  if read_ptr =? write_ptr then serr (error_into BufferEmpty)
  else
    (* compare_exchange *)
    let! f := sget in
    if negb (fifo_read_ptr f =? read_ptr) then serr (error_into Locked)
    else
      do! sput (set_read_ptr f next_read_ptr) in
      let! f := sget in
      slift (idx (fifo_buf f) (Z.to_nat read_ptr)).

(** ** Specification: a queue of bounded capacity *)

Definition spec_enqueue (cap : Z) (value : T) (q : list T) : Result unit * list T :=
  if Z.of_nat (length q) <? cap then (Ok tt, (q ++ [value])%list)
  else (Err (error_into BufferFull), q).

Definition spec_dequeue (q : list T) : Result T * list T :=
  match q with
  | [] => (Err (error_into BufferEmpty), [])
  | x :: q' => (Ok x, q')
  end.

(** ** Invariant and abstraction *)

Definition fifo_wf (f : Fifo) : Prop :=
  2 <= fifo_size f < 2 ^ 63
  /\ Z.of_nat (length (fifo_buf f)) = fifo_size f
  /\ 0 <= fifo_read_ptr f < fifo_size f
  /\ 0 <= fifo_write_ptr f < fifo_size f.

(** The queued elements start at the read position and wrap around. *)
Definition fifo_count (f : Fifo) : Z :=
  (fifo_write_ptr f + fifo_size f - fifo_read_ptr f) mod fifo_size f.

Definition fifo_abs (f : Fifo) : list T :=
  take (Z.to_nat (fifo_count f))
    (drop (Z.to_nat (fifo_read_ptr f)) (fifo_buf f) ++ fifo_buf f).
End Fifo.
Arguments Fifo T : clear implicits.

(** ** Lemmas *)

Section FifoLemmas.
Context {T : Type}.
Implicit Types f : Fifo T.

Lemma fifo_count_cases f :
  fifo_wf f ->
  fifo_count f = if fifo_read_ptr f <=? fifo_write_ptr f
                 then fifo_write_ptr f - fifo_read_ptr f
                 else fifo_write_ptr f + fifo_size f - fifo_read_ptr f.
Proof.
  intros (Hs & Hl & Hr & Hw). unfold fifo_count.
  destruct (Z.leb_spec (fifo_read_ptr f) (fifo_write_ptr f)).
  - replace (_ + _ - _) with (fifo_write_ptr f - fifo_read_ptr f + 1 * fifo_size f) by lia.
    rewrite Z.mod_add by lia. apply Z.mod_small. lia.
  - apply Z.mod_small. lia.
Qed.

Lemma next_ptr_cases (p n : Z) :
  0 <= p < n -> (p + 1) mod n = if p + 1 =? n then 0 else p + 1.
Proof.
  intros H. destruct (Z.eqb_spec (p + 1) n) as [->|].
  - apply Z.mod_same. lia.
  - apply Z.mod_small. lia.
Qed.

Lemma length_fifo_abs f : fifo_wf f -> Z.of_nat (length (fifo_abs f)) = fifo_count f.
Proof.
  intros Hwf. pose proof (fifo_count_cases f Hwf) as Hc. destruct Hwf as (Hs & Hl & Hr & Hw).
  unfold fifo_abs. rewrite length_take, length_app, length_drop. rewrite Hc in *.
  destruct (Z.leb_spec (fifo_read_ptr f) (fifo_write_ptr f)); lia.
Qed.

(** The element at position [i] of the abstract queue. *)
Lemma fifo_abs_lookup f (i : nat) :
  fifo_wf f -> Z.of_nat i < fifo_count f ->
  fifo_abs f !! i
  = fifo_buf f !! Z.to_nat ((fifo_read_ptr f + Z.of_nat i) mod fifo_size f).
Proof.
  intros Hwf Hi. pose proof (fifo_count_cases f Hwf) as Hc. destruct Hwf as (Hs & Hl & Hr & Hw).
  assert (fifo_count f < fifo_size f) as Hcs
    by (rewrite Hc; destruct (Z.leb_spec (fifo_read_ptr f) (fifo_write_ptr f)); lia).
  unfold fifo_abs. rewrite lookup_take_lt by lia.
  destruct (Z.ltb_spec (fifo_read_ptr f + Z.of_nat i) (fifo_size f)) as [Hlt|Hge].
  - rewrite lookup_app_l by (rewrite length_drop; lia). rewrite lookup_drop, Z.mod_small by lia.
    f_equal. lia.
  - rewrite lookup_app_r by (rewrite length_drop; lia). rewrite length_drop.
    replace (fifo_read_ptr f + Z.of_nat i)
      with (fifo_read_ptr f + Z.of_nat i - fifo_size f + 1 * fifo_size f) by lia.
    rewrite Z.mod_add, Z.mod_small by lia. f_equal. lia.
Qed.

Lemma fifo_enqueue_run f v :
  fifo_wf f ->
  Fifo_enqueue v f
  = if (fifo_write_ptr f + 1) mod fifo_size f =? fifo_read_ptr f
    then (Err (error_into BufferFull), f)
    else (Ok tt, set_fifo_buf (set_write_ptr f ((fifo_write_ptr f + 1) mod fifo_size f))
                   (<[Z.to_nat (fifo_write_ptr f) := v]> (fifo_buf f))).
Proof.
  intros (Hs & Hl & Hr & Hw). unfold Fifo_enqueue, sbind, sget, slift, sput, serr, uadd, urem.
  destruct (Z.ltb_spec (fifo_write_ptr f + 1) (2 ^ 64)); [|lia].
  destruct (Z.eqb_spec (fifo_size f) 0); [lia|].
  destruct (_ =? fifo_read_ptr f); [done|].
  rewrite Z.eqb_refl. simpl.
  destruct (Nat.ltb_spec (Z.to_nat (fifo_write_ptr f)) (length (fifo_buf f))); [done|lia].
Qed.

Lemma fifo_dequeue_run f :
  fifo_wf f ->
  Fifo_dequeue f
  = if fifo_read_ptr f =? fifo_write_ptr f
    then (Err (error_into BufferEmpty), f)
    else (idx (fifo_buf f) (Z.to_nat (fifo_read_ptr f)),
          set_read_ptr f ((fifo_read_ptr f + 1) mod fifo_size f)).
Proof.
  intros (Hs & Hl & Hr & Hw). unfold Fifo_dequeue, sbind, sget, slift, sput, serr, uadd, urem.
  destruct (Z.ltb_spec (fifo_read_ptr f + 1) (2 ^ 64)); [|lia].
  destruct (Z.eqb_spec (fifo_size f) 0); [lia|].
  destruct (_ =? fifo_write_ptr f); [done|].
  by rewrite Z.eqb_refl.
Qed.
(** Where the write position stands relative to the read position. *)
Lemma fifo_write_pos f :
  fifo_wf f -> fifo_write_ptr f = (fifo_read_ptr f + fifo_count f) mod fifo_size f.
Proof.
  intros Hwf. pose proof (fifo_count_cases f Hwf) as Hc. destruct Hwf as (Hs & Hl & Hr & Hw).
  rewrite Hc. destruct (Z.leb_spec (fifo_read_ptr f) (fifo_write_ptr f)).
  - rewrite Z.mod_small; lia.
  - replace (_ + (_ + _ - _)) with (fifo_write_ptr f + 1 * fifo_size f) by lia.
    rewrite Z.mod_add, Z.mod_small; lia.
Qed.

(** [a] and [b] positions ahead of [p], both less than a turn, coincide only if
    [a = b]. *)
Lemma mod_ahead_ne (p a b n : Z) :
  0 <= p < n -> 0 <= a < n -> 0 <= b < n -> a <> b -> (p + a) mod n <> (p + b) mod n.
Proof.
  intros Hp Ha Hb Hne.
  assert (forall x, 0 <= x < n -> (p + x) mod n = if p + x <? n then p + x else p + x - n) as Hm.
  { intros x Hx. destruct (Z.ltb_spec (p + x) n); [apply Z.mod_small; lia|].
    replace (p + x) with (p + x - n + 1 * n) by lia. rewrite Z.mod_add, Z.mod_small; lia. }
  rewrite !Hm by done.
  destruct (Z.ltb_spec (p + a) n), (Z.ltb_spec (p + b) n); lia.
Qed.

Lemma fifo_full_iff f :
  fifo_wf f ->
  ((fifo_write_ptr f + 1) mod fifo_size f = fifo_read_ptr f
   <-> fifo_count f = fifo_size f - 1).
Proof.
  intros Hwf. pose proof (fifo_count_cases f Hwf) as Hc. destruct Hwf as (Hs & Hl & Hr & Hw).
  rewrite next_ptr_cases, Hc by lia.
  destruct (Z.leb_spec (fifo_read_ptr f) (fifo_write_ptr f)),
    (Z.eqb_spec (fifo_write_ptr f + 1) (fifo_size f)); lia.
Qed.

Lemma fifo_empty_iff f :
  fifo_wf f -> (fifo_read_ptr f = fifo_write_ptr f <-> fifo_count f = 0).
Proof.
  intros Hwf. pose proof (fifo_count_cases f Hwf) as Hc. destruct Hwf as (Hs & Hl & Hr & Hw).
  rewrite Hc. destruct (Z.leb_spec (fifo_read_ptr f) (fifo_write_ptr f)); lia.
Qed.

Lemma next_ptr_bound (p n : Z) : 0 < n -> 0 <= (p + 1) mod n < n.
Proof. apply Z.mod_pos_bound. Qed.

(** Writing an element behind the queue appends it. *)
Lemma fifo_push_abs f v :
  fifo_wf f -> fifo_count f <> fifo_size f - 1 ->
  let f' := set_fifo_buf (set_write_ptr f ((fifo_write_ptr f + 1) mod fifo_size f))
              (<[Z.to_nat (fifo_write_ptr f) := v]> (fifo_buf f)) in
  fifo_wf f' /\ fifo_count f' = fifo_count f + 1 /\ fifo_abs f' = (fifo_abs f ++ [v])%list.
Proof.
  intros Hwf Hnf f'. pose proof (fifo_count_cases f Hwf) as Hc.
  assert (fifo_wf f') as Hwf'.
  { destruct Hwf as (Hs & Hl & Hr & Hw). unfold fifo_wf, f'. simpl. rewrite length_insert.
    pose proof (next_ptr_bound (fifo_write_ptr f) (fifo_size f)). lia. }
  assert (fifo_count f' = fifo_count f + 1) as Hc'.
  { rewrite (fifo_count_cases f' Hwf'), Hc. destruct Hwf as (Hs & Hl & Hr & Hw).
    unfold f'. simpl. rewrite next_ptr_cases by lia. revert Hnf. rewrite Hc.
    destruct (Z.eqb_spec (fifo_write_ptr f + 1) (fifo_size f)); bool_cases; lia. }
  split_and!; [done..|]. pose proof (length_fifo_abs f Hwf) as Hlen.
  pose proof (length_fifo_abs f' Hwf') as Hlen'. pose proof (fifo_write_pos f Hwf) as Hwp.
  apply list_eq_same_length with (n := length (fifo_abs f'));
    [rewrite length_app; simpl; lia | done |]. intros i x y Hi.
  rewrite (fifo_abs_lookup f' i Hwf') by lia. unfold f' at 1 2 3. simpl.
  destruct Hwf as (Hs & Hl & Hr & Hw).
  assert (0 <= fifo_count f < fifo_size f) as Hcb by (apply Z.mod_pos_bound; lia).
  destruct (decide (Z.of_nat i = fifo_count f)) as [Heq|Hne].
  - rewrite Heq, <- Hwp, list_lookup_insert_eq by lia.
    rewrite lookup_app_r by lia. replace (i - _)%nat with 0%nat by lia. simpl. congruence.
  - pose proof (mod_ahead_ne (fifo_read_ptr f) (fifo_count f) (Z.of_nat i) (fifo_size f)) as Hm.
    pose proof (Z.mod_pos_bound (fifo_read_ptr f + Z.of_nat i) (fifo_size f)).
    rewrite lookup_app_l, list_lookup_insert_ne by lia.
    rewrite (fifo_abs_lookup f i) by (unfold fifo_wf; lia). congruence.
Qed.

(** Moving the read position drops the first element. *)
Lemma fifo_pop_abs f :
  fifo_wf f -> fifo_count f <> 0 ->
  let f' := set_read_ptr f ((fifo_read_ptr f + 1) mod fifo_size f) in
  fifo_wf f' /\ exists x, idx (E := Error_) (fifo_buf f) (Z.to_nat (fifo_read_ptr f)) = Ok x
                         /\ fifo_abs f = x :: fifo_abs f'.
Proof.
  intros Hwf Hne f'. pose proof (fifo_count_cases f Hwf) as Hc.
  pose proof (length_fifo_abs f Hwf) as Hlen.
  assert (fifo_wf f') as Hwf'.
  { destruct Hwf as (Hs & Hl & Hr & Hw). unfold fifo_wf, f'. simpl.
    pose proof (next_ptr_bound (fifo_read_ptr f) (fifo_size f)). lia. }
  pose proof (length_fifo_abs f' Hwf') as Hlen'.
  assert (fifo_count f' = fifo_count f - 1) as Hc'.
  { rewrite (fifo_count_cases f' Hwf'), Hc. destruct Hwf as (Hs & Hl & Hr & Hw).
    unfold f'. simpl. rewrite next_ptr_cases by lia. revert Hne. rewrite Hc.
    destruct (Z.eqb_spec (fifo_read_ptr f + 1) (fifo_size f)); bool_cases; lia. }
  assert (0 <= fifo_count f < fifo_size f) as Hcb
    by (destruct Hwf; apply Z.mod_pos_bound; lia).
  destruct (lookup_lt_is_Some_2 (fifo_buf f) (Z.to_nat (fifo_read_ptr f))) as [x Hx];
    [destruct Hwf; lia|].
  split; [done|]. exists x. unfold idx. rewrite Hx. split; [done|].
  apply list_eq_same_length with (n := length (fifo_abs f)); [simpl; lia | done |].
  intros i y z Hi. rewrite (fifo_abs_lookup f i Hwf) by lia. destruct i as [|i].
  - simpl. rewrite Z.add_0_r, Z.mod_small by (destruct Hwf; lia). congruence.
  - change ((x :: fifo_abs f') !! S i) with (fifo_abs f' !! i).
    rewrite (fifo_abs_lookup f' i Hwf') by lia. unfold f'. cbn [fifo_buf fifo_size fifo_read_ptr set_read_ptr].
    rewrite Zplus_mod_idemp_l.
    replace (fifo_read_ptr f + 1 + Z.of_nat i) with (fifo_read_ptr f + Z.of_nat (S i)) by lia.
    congruence.
Qed.

Lemma fifo_enqueue_spec f v :
  fifo_wf f ->
  fifo_wf (snd (Fifo_enqueue v f))
  /\ (fst (Fifo_enqueue v f), fifo_abs (snd (Fifo_enqueue v f)))
     = spec_enqueue (fifo_size f - 1) v (fifo_abs f).
Proof.
  intros Hwf. rewrite (fifo_enqueue_run f v Hwf). unfold spec_enqueue.
  rewrite (length_fifo_abs f Hwf). pose proof (fifo_full_iff f Hwf) as Hfull.
  assert (0 <= fifo_count f < fifo_size f) by (destruct Hwf; apply Z.mod_pos_bound; lia).
  destruct (Z.eqb_spec ((fifo_write_ptr f + 1) mod fifo_size f) (fifo_read_ptr f));
    destruct (Z.ltb_spec (fifo_count f) (fifo_size f - 1)); simpl; [lia | done | | lia].
  destruct (fifo_push_abs f v Hwf) as (H1 & _ & H2); [lia|]. by rewrite H2.
Qed.

Lemma fifo_dequeue_spec f :
  fifo_wf f ->
  fifo_wf (snd (Fifo_dequeue f))
  /\ (fst (Fifo_dequeue f), fifo_abs (snd (Fifo_dequeue f))) = spec_dequeue (fifo_abs f).
Proof.
  intros Hwf. rewrite (fifo_dequeue_run f Hwf). unfold spec_dequeue.
  pose proof (fifo_empty_iff f Hwf) as He. pose proof (length_fifo_abs f Hwf) as Hlen.
  destruct (Z.eqb_spec (fifo_read_ptr f) (fifo_write_ptr f)); simpl.
  - destruct (fifo_abs f); [done|]. simpl in Hlen. lia.
  - destruct (fifo_pop_abs f Hwf) as (H1 & x & Hx & ->); [lia|]. by rewrite Hx.
Qed.

Lemma fifo_new_wf (n : Z) (d : T) : 2 <= n < 2 ^ 63 -> fifo_wf (Fifo_new n d).
Proof. intros H. unfold fifo_wf. simpl. rewrite length_replicate. lia. Qed.

Lemma fifo_new_abs (n : Z) (d : T) : 2 <= n < 2 ^ 63 -> fifo_abs (Fifo_new n d) = [].
Proof.
  intros H. unfold fifo_abs, fifo_count. simpl.
  by rewrite Z.sub_0_r, Z.mod_same by lia.
Qed.

Lemma fifo_reset_wf f : fifo_wf f -> fifo_wf (Fifo_reset_ptr f).
Proof. unfold fifo_wf. simpl. lia. Qed.

Lemma fifo_reset_abs f : fifo_wf f -> fifo_abs (Fifo_reset_ptr f) = [].
Proof.
  intros (Hs & _). unfold fifo_abs, fifo_count. simpl.
  by rewrite Z.sub_0_r, Z.mod_same by lia.
Qed.

Lemma fifo_len_run f :
  fifo_wf f -> Fifo_len f = Ok (Z.of_nat (length (fifo_abs f))).
Proof.
  intros Hwf. rewrite (length_fifo_abs f Hwf). destruct Hwf as (Hs & Hl & Hr & Hw).
  unfold Fifo_len, uadd, usub, urem, fifo_count.
  destruct (Z.ltb_spec (fifo_write_ptr f + fifo_size f) (2 ^ 64)); [|lia]. simpl.
  destruct (Z.leb_spec (fifo_read_ptr f) (fifo_write_ptr f + fifo_size f)); [|lia]. simpl.
  destruct (Z.eqb_spec (fifo_size f) 0); [lia|done].
Qed.

Lemma fifo_is_full_run f :
  fifo_wf f -> Fifo_is_full f = Ok (Z.of_nat (length (fifo_abs f)) =? fifo_size f - 1).
Proof.
  intros Hwf. rewrite (length_fifo_abs f Hwf). pose proof (fifo_full_iff f Hwf) as Hfull.
  destruct Hwf as (Hs & Hl & Hr & Hw). assert (0 <= fifo_count f < fifo_size f) as Hc by (apply Z.mod_pos_bound; lia).
  unfold Fifo_is_full, uadd, urem. destruct (Z.ltb_spec (fifo_write_ptr f + 1) (2 ^ 64)); [|lia]. cbn [obind].
  destruct (Z.eqb_spec (fifo_size f) 0); [lia|]. cbn [obind]. f_equal. bool_cases; lia.
Qed.

(** A run of operations, with the results they return. *)
Inductive fifo_op := OpEnqueue (v : T) | OpDequeue | OpLen | OpIsFull | OpReset.

Inductive fifo_res :=
  RUnit (r : Result unit) | RElem (r : Result T) | RLen (r : Result Z) | RFull (r : Result bool) | RReset.

Definition fifo_exec (o : fifo_op) (f : Fifo T) : fifo_res * Fifo T :=
  match o with
  | OpEnqueue v => let '(r, f') := Fifo_enqueue v f in (RUnit r, f')
  | OpDequeue => let '(r, f') := Fifo_dequeue f in (RElem r, f')
  | OpLen => (RLen (Fifo_len f), f)
  | OpIsFull => (RFull (Fifo_is_full f), f)
  | OpReset => (RReset, Fifo_reset_ptr f)
  end.

Definition spec_exec (cap : Z) (o : fifo_op) (q : list T) : fifo_res * list T :=
  match o with
  | OpEnqueue v => let '(r, q') := spec_enqueue cap v q in (RUnit r, q')
  | OpDequeue => let '(r, q') := spec_dequeue q in (RElem r, q')
  | OpLen => (RLen (Ok (Z.of_nat (length q))), q)
  | OpIsFull => (RFull (Ok (Z.of_nat (length q) =? cap)), q)
  | OpReset => (RReset, [])
  end.

Fixpoint fifo_run (ops : list fifo_op) (f : Fifo T) : list fifo_res * Fifo T :=
  match ops with
  | [] => ([], f)
  | o :: ops' => let '(r, f') := fifo_exec o f in
                 let '(rs, f'') := fifo_run ops' f' in (r :: rs, f'')
  end.

Fixpoint spec_run (cap : Z) (ops : list fifo_op) (q : list T) : list fifo_res * list T :=
  match ops with
  | [] => ([], q)
  | o :: ops' => let '(r, q') := spec_exec cap o q in
                 let '(rs, q'') := spec_run cap ops' q' in (r :: rs, q'')
  end.

(** One operation simulates one operation of the specification. *)
Lemma fifo_exec_simulates o f :
  fifo_wf f ->
  fifo_wf (snd (fifo_exec o f)) /\ fifo_size (snd (fifo_exec o f)) = fifo_size f
  /\ spec_exec (fifo_size f - 1) o (fifo_abs f)
     = (fst (fifo_exec o f), fifo_abs (snd (fifo_exec o f))).
Proof.
  intros Hwf. destruct o as [v| | | |]; simpl.
  - destruct (fifo_enqueue_spec f v Hwf) as [H1 H2]. rewrite <- H2.
    pose proof (fifo_enqueue_run f v Hwf) as Hr. destruct (Fifo_enqueue v f) as [r f'].
    simpl in *. split_and!; [done| |done].
    destruct (_ =? fifo_read_ptr f); by injection Hr as -> ->.
  - destruct (fifo_dequeue_spec f Hwf) as [H1 H2]. rewrite <- H2.
    pose proof (fifo_dequeue_run f Hwf) as Hr. destruct (Fifo_dequeue f) as [r f'].
    simpl in *. split_and!; [done| |done].
    destruct (_ =? fifo_write_ptr f); by injection Hr as -> ->.
  - by rewrite (fifo_len_run f Hwf).
  - by rewrite (fifo_is_full_run f Hwf).
  - split_and!; [by apply fifo_reset_wf|done|]. by rewrite fifo_reset_abs.
Qed.

Lemma fifo_run_simulates ops f :
  fifo_wf f ->
  fifo_wf (snd (fifo_run ops f))
  /\ spec_run (fifo_size f - 1) ops (fifo_abs f)
     = (fst (fifo_run ops f), fifo_abs (snd (fifo_run ops f))).
Proof.
  revert f. induction ops as [|o ops IH]; intros f Hwf; simpl; [done|].
  destruct (fifo_exec_simulates o f Hwf) as (H1 & H2 & H3). rewrite H3.
  destruct (fifo_exec o f) as [r f']. simpl in *.
  destruct (IH f' H1) as [H4 H5]. rewrite <- H2, H5. by destruct (fifo_run ops f').
Qed.
End FifoLemmas.

(** ** Properties *)

(** C31: a ring buffer of [n] places behaves, over every sequence of [enqueue],
    [dequeue], [len], [is_full] and [reset_ptr], as a first-in first-out queue of
    capacity [n - 1]: the same results (values, [BufferFull] exactly when [n - 1]
    elements are queued, [BufferEmpty] exactly when none is, the number of elements,
    whether there are [n - 1], never a panic, never [Locked]) and the same contents
    at the end. *)
Theorem Fifo_refines_queue (T : Type) (n : Z) (d : T) ops :
  2 <= n < 2 ^ 63 ->
  let '(rs, f) := fifo_run ops (Fifo_new n d) in
  spec_run (n - 1) ops [] = (rs, fifo_abs f) /\ fifo_wf f.
Proof.
  intros Hn. pose proof (fifo_run_simulates ops _ (fifo_new_wf n d Hn)) as [H1 H2].
  rewrite (fifo_new_abs n d Hn) in H2. simpl fifo_size in H2. rewrite H2.
  by destruct (fifo_run ops (Fifo_new n d)).
Qed.

Lemma Fifo_refines_queue_witness :
  2 <= 3 < 2 ^ 63
  /\ spec_run 2 [OpEnqueue 7; OpEnqueue 8; OpIsFull; OpEnqueue 9; OpDequeue; OpLen; OpDequeue; OpDequeue] []
     = ([RUnit (Ok tt); RUnit (Ok tt); RFull (Ok true); RUnit (Err (error_into BufferFull));
         RElem (Ok 7); RLen (Ok 1); RElem (Ok 8); RElem (Err (error_into BufferEmpty))], []).
Proof.
  split; [lia|].
  exact (proj1 (Fifo_refines_queue Z 3 0
    [OpEnqueue 7; OpEnqueue 8; OpIsFull; OpEnqueue 9; OpDequeue; OpLen; OpDequeue; OpDequeue]
    ltac:(lia))).
Defined.
