(* ===== verification/Keyboard.v ===== *)
(** * Keyboards ([kernel/src/util/keyboard], [kernel/src/device/ps2_keyboard.rs])

    The key maps, the translation of scan codes and of USB usage ids into key events,
    and the PS/2 driver: bytes of the interrupt handler go through a ring buffer and
    are collected until they form a scan code.  Characters are code points.  Port
    input and output are not modelled: the byte that [poll_int] reads is its argument. *)
From Stdlib Require Import ZArith Lia.
From stdpp Require Import base gmap list.
From S2P Require Import Prelude KError Fifo.

#[local] Open Scope list_scope.
#[local] Open Scope Z_scope.

(** ** Keys ([scan_code.rs], [key_event.rs]) *)

Inductive KeyCode :=
  | KEsc | KF1 | KF2 | KF3 | KF4 | KF5 | KF6 | KF7 | KF8 | KF9 | KF10 | KF11 | KF12 | KPrintScreen | KScrollLock
  | KPause | KInsert | KHome | KPageUp | KDelete | KEnd | KPageDown | KCursorRight | KCursorLeft | KCursorDown |
  KCursorUp | KNumLock | KKpDivide | KKpMultiply | KKpSubtract | KKpAdd | KKpEnter | KKp1 | KKp2 | KKp3 | KKp4 |
  KKp5 | KKp6 | KKp7 | KKp8 | KKp9 | KKp0 | KKpPeriod | KLCtrl | KLGui | KLAlt | KSpace | KRGui | KRAlt | KApps
  | KRCtrl | KLShift | KCapsLock | KTab | KBackspace | KEnter | KRShift | KNum1 | KNum2 | KNum3 | KNum4 | KNum5
  | KNum6 | KNum7 | KNum8 | KNum9 | KNum0 | KA | KB | KC | KD | KE | KF | KG | KH | KI | KJ | KK | KL | KM | KN
  | KO | KP | KQ | KR | KS | KT | KU | KV | KW | KX | KY | KZ | KBacktick | KSubtract | KEqual | KBracketLeft |
  KBracketRight | KBackslash | KSemicolon | KQuote | KComma | KPeriod | KSlash | KHankakuZenkaku | KMuhenkan |
  KHenkan | KKatakanaHiragana | KYen | KRoUnderscore.

Definition is_shift (k : KeyCode) : bool := match k with KLShift | KRShift => true | _ => false end.
Definition is_ctrl (k : KeyCode) : bool := match k with KLCtrl | KRCtrl => true | _ => false end.
Definition is_gui (k : KeyCode) : bool := match k with KLGui | KRGui => true | _ => false end.
Definition is_alt (k : KeyCode) : bool := match k with KLAlt | KRAlt => true | _ => false end.

Record ScanCode := ScanCode_ {
  key_code : KeyCode;
  sc_c : option Z;
  on_shift_c : option Z;
  ps2_scan_code_pressed : list Z;
  ps2_scan_code_released : list Z;
  usb_hid_usage_id : Z
}.

Inductive KeyState := Pressed | Released.

Record ModifierKeysState := MkMods { shift : bool; ctrl : bool; gui : bool; alt : bool }.

Definition ModifierKeysState_default : ModifierKeysState := MkMods false false false false.

Record KeyEvent := MkKeyEvent { ev_code : KeyCode; ev_state : KeyState; ev_c : option Z }.

(** ** Key maps ([key_map.rs]) *)
Definition jis_keys_1 : list ScanCode := [
  ScanCode_ KEsc (Some 27) None [0x01; 0x00; 0x00; 0x00; 0x00; 0x00] [0x81; 0x00; 0x00; 0x00; 0x00; 0x00] 0x29;
  ScanCode_ KF1 None None [0x3b; 0x00; 0x00; 0x00; 0x00; 0x00] [0xbb; 0x00; 0x00; 0x00; 0x00; 0x00] 0x3a;
  ScanCode_ KF2 None None [0x3c; 0x00; 0x00; 0x00; 0x00; 0x00] [0xbc; 0x00; 0x00; 0x00; 0x00; 0x00] 0x3b;
  ScanCode_ KF3 None None [0x3d; 0x00; 0x00; 0x00; 0x00; 0x00] [0xbd; 0x00; 0x00; 0x00; 0x00; 0x00] 0x3c;
  ScanCode_ KF4 None None [0x3e; 0x00; 0x00; 0x00; 0x00; 0x00] [0xbe; 0x00; 0x00; 0x00; 0x00; 0x00] 0x3d;
  ScanCode_ KF5 None None [0x3f; 0x00; 0x00; 0x00; 0x00; 0x00] [0xbf; 0x00; 0x00; 0x00; 0x00; 0x00] 0x3e;
  ScanCode_ KF6 None None [0x40; 0x00; 0x00; 0x00; 0x00; 0x00] [0xc0; 0x00; 0x00; 0x00; 0x00; 0x00] 0x3f;
  ScanCode_ KF7 None None [0x41; 0x00; 0x00; 0x00; 0x00; 0x00] [0xc1; 0x00; 0x00; 0x00; 0x00; 0x00] 0x40;
  ScanCode_ KF8 None None [0x42; 0x00; 0x00; 0x00; 0x00; 0x00] [0xc2; 0x00; 0x00; 0x00; 0x00; 0x00] 0x41;
  ScanCode_ KF9 None None [0x43; 0x00; 0x00; 0x00; 0x00; 0x00] [0xc3; 0x00; 0x00; 0x00; 0x00; 0x00] 0x42;
  ScanCode_ KF10 None None [0x44; 0x00; 0x00; 0x00; 0x00; 0x00] [0xc4; 0x00; 0x00; 0x00; 0x00; 0x00] 0x43;
  ScanCode_ KF11 None None [0x57; 0x00; 0x00; 0x00; 0x00; 0x00] [0xd7; 0x00; 0x00; 0x00; 0x00; 0x00] 0x44;
  ScanCode_ KF12 None None [0x58; 0x00; 0x00; 0x00; 0x00; 0x00] [0xd8; 0x00; 0x00; 0x00; 0x00; 0x00] 0x45;
  ScanCode_ KPrintScreen None None [0xe0; 0x1d; 0x46; 0x9d; 0xc5; 0x00] [0xe0; 0xb7; 0xe0; 0xaa; 0x00; 0x00] 0x46;
  ScanCode_ KScrollLock None None [0x46; 0x00; 0x00; 0x00; 0x00; 0x00] [0xc6; 0x00; 0x00; 0x00; 0x00; 0x00] 0x47;
  ScanCode_ KPause None None [0xe1; 0x1d; 0x45; 0x9d; 0xc5; 0x00] [0x00; 0x00; 0x00; 0x00; 0x00; 0x00] 0x48;
  ScanCode_ KInsert None None [0xe0; 0x52; 0x00; 0x00; 0x00; 0x00] [0xe0; 0xd2; 0x00; 0x00; 0x00; 0x00] 0x49;
  ScanCode_ KHome None None [0xe0; 0x47; 0x00; 0x00; 0x00; 0x00] [0xe0; 0xc7; 0x00; 0x00; 0x00; 0x00] 0x4a
].

Definition jis_keys_2 : list ScanCode := [
  ScanCode_ KPageUp None None [0xe0; 0x49; 0x00; 0x00; 0x00; 0x00] [0xe0; 0xc9; 0x00; 0x00; 0x00; 0x00] 0x4b;
  ScanCode_ KDelete (Some 127) None [0xe0; 0x53; 0x00; 0x00; 0x00; 0x00] [0xe0; 0xd3; 0x00; 0x00; 0x00; 0x00] 0x4c;
  ScanCode_ KEnd None None [0xe0; 0x4f; 0x00; 0x00; 0x00; 0x00] [0xe0; 0xcf; 0x00; 0x00; 0x00; 0x00] 0x4d;
  ScanCode_ KPageDown None None [0xe0; 0x51; 0x00; 0x00; 0x00; 0x00] [0xe0; 0xd1; 0x00; 0x00; 0x00; 0x00] 0x4e;
  ScanCode_ KCursorRight None None [0xe0; 0x4d; 0x00; 0x00; 0x00; 0x00] [0xe0; 0xcd; 0x00; 0x00; 0x00; 0x00] 0x4f;
  ScanCode_ KCursorLeft None None [0xe0; 0x4b; 0x00; 0x00; 0x00; 0x00] [0xe0; 0xcb; 0x00; 0x00; 0x00; 0x00] 0x50;
  ScanCode_ KCursorDown None None [0xe0; 0x50; 0x00; 0x00; 0x00; 0x00] [0xe0; 0xd0; 0x00; 0x00; 0x00; 0x00] 0x51;
  ScanCode_ KCursorUp None None [0xe0; 0x48; 0x00; 0x00; 0x00; 0x00] [0xe0; 0xc8; 0x00; 0x00; 0x00; 0x00] 0x52;
  ScanCode_ KNumLock None None [0x45; 0x00; 0x00; 0x00; 0x00; 0x00] [0xc5; 0x00; 0x00; 0x00; 0x00; 0x00] 0x53;
  ScanCode_ KKpDivide (Some 47) None [0xe0; 0x35; 0x00; 0x00; 0x00; 0x00] [0xe0; 0xb5; 0x00; 0x00; 0x00; 0x00] 0x54;
  ScanCode_ KKpMultiply (Some 42) None [0x37; 0x00; 0x00; 0x00; 0x00; 0x00] [0xb7; 0x00; 0x00; 0x00; 0x00; 0x00] 0x55;
  ScanCode_ KKpSubtract (Some 45) None [0x4a; 0x00; 0x00; 0x00; 0x00; 0x00] [0xca; 0x00; 0x00; 0x00; 0x00; 0x00] 0x56;
  ScanCode_ KKpAdd (Some 43) None [0x4e; 0x00; 0x00; 0x00; 0x00; 0x00] [0xce; 0x00; 0x00; 0x00; 0x00; 0x00] 0x57;
  ScanCode_ KKpEnter (Some 10) None [0xe0; 0x1c; 0x00; 0x00; 0x00; 0x00] [0xe0; 0x9c; 0x00; 0x00; 0x00; 0x00] 0x58;
  ScanCode_ KKp1 (Some 49) None [0x4f; 0x00; 0x00; 0x00; 0x00; 0x00] [0xcf; 0x00; 0x00; 0x00; 0x00; 0x00] 0x59;
  ScanCode_ KKp2 (Some 50) None [0x50; 0x00; 0x00; 0x00; 0x00; 0x00] [0xd0; 0x00; 0x00; 0x00; 0x00; 0x00] 0x5a;
  ScanCode_ KKp3 (Some 51) None [0x51; 0x00; 0x00; 0x00; 0x00; 0x00] [0xd1; 0x00; 0x00; 0x00; 0x00; 0x00] 0x5b;
  ScanCode_ KKp4 (Some 52) None [0x4b; 0x00; 0x00; 0x00; 0x00; 0x00] [0xcb; 0x00; 0x00; 0x00; 0x00; 0x00] 0x5c
].

Definition jis_keys_3 : list ScanCode := [
  ScanCode_ KKp5 (Some 53) None [0x4c; 0x00; 0x00; 0x00; 0x00; 0x00] [0xcc; 0x00; 0x00; 0x00; 0x00; 0x00] 0x5d;
  ScanCode_ KKp6 (Some 54) None [0x4d; 0x00; 0x00; 0x00; 0x00; 0x00] [0xcd; 0x00; 0x00; 0x00; 0x00; 0x00] 0x5e;
  ScanCode_ KKp7 (Some 55) None [0x47; 0x00; 0x00; 0x00; 0x00; 0x00] [0xc7; 0x00; 0x00; 0x00; 0x00; 0x00] 0x5f;
  ScanCode_ KKp8 (Some 56) None [0x48; 0x00; 0x00; 0x00; 0x00; 0x00] [0xc8; 0x00; 0x00; 0x00; 0x00; 0x00] 0x60;
  ScanCode_ KKp9 (Some 57) None [0x49; 0x00; 0x00; 0x00; 0x00; 0x00] [0xc9; 0x00; 0x00; 0x00; 0x00; 0x00] 0x61;
  ScanCode_ KKp0 (Some 48) None [0x52; 0x00; 0x00; 0x00; 0x00; 0x00] [0xd2; 0x00; 0x00; 0x00; 0x00; 0x00] 0x62;
  ScanCode_ KKpPeriod (Some 46) None [0x53; 0x00; 0x00; 0x00; 0x00; 0x00] [0xd3; 0x00; 0x00; 0x00; 0x00; 0x00] 0x63;
  ScanCode_ KLCtrl None None [0x1d; 0x00; 0x00; 0x00; 0x00; 0x00] [0x9d; 0x00; 0x00; 0x00; 0x00; 0x00] 0xe0;
  ScanCode_ KLGui None None [0xe0; 0x5b; 0x00; 0x00; 0x00; 0x00] [0xe0; 0xdb; 0x00; 0x00; 0x00; 0x00] 0xe3;
  ScanCode_ KLAlt None None [0x38; 0x00; 0x00; 0x00; 0x00; 0x00] [0xb8; 0x00; 0x00; 0x00; 0x00; 0x00] 0xe2;
  ScanCode_ KSpace (Some 32) None [0x39; 0x00; 0x00; 0x00; 0x00; 0x00] [0xb9; 0x00; 0x00; 0x00; 0x00; 0x00] 0x2c;
  ScanCode_ KRGui None None [0xe0; 0x5c; 0x00; 0x00; 0x00; 0x00] [0xe0; 0xdc; 0x00; 0x00; 0x00; 0x00] 0xe7;
  ScanCode_ KRAlt None None [0xe0; 0x38; 0x00; 0x00; 0x00; 0x00] [0xe0; 0xb8; 0x00; 0x00; 0x00; 0x00] 0xe6;
  ScanCode_ KApps None None [0xe0; 0x6d; 0x00; 0x00; 0x00; 0x00] [0xe0; 0xdd; 0x00; 0x00; 0x00; 0x00] 0x65;
  ScanCode_ KRCtrl None None [0xe0; 0x1d; 0x00; 0x00; 0x00; 0x00] [0xe0; 0x9d; 0x00; 0x00; 0x00; 0x00] 0xe4;
  ScanCode_ KLShift None None [0x2a; 0x00; 0x00; 0x00; 0x00; 0x00] [0xaa; 0x00; 0x00; 0x00; 0x00; 0x00] 0xe1;
  ScanCode_ KCapsLock None None [0x3a; 0x00; 0x00; 0x00; 0x00; 0x00] [0xba; 0x00; 0x00; 0x00; 0x00; 0x00] 0x39;
  ScanCode_ KTab (Some 9) None [0x0f; 0x00; 0x00; 0x00; 0x00; 0x00] [0x8f; 0x00; 0x00; 0x00; 0x00; 0x00] 0x2b
].

Definition jis_keys_4 : list ScanCode := [
  ScanCode_ KBackspace (Some 8) None [0x0e; 0x00; 0x00; 0x00; 0x00; 0x00] [0x8e; 0x00; 0x00; 0x00; 0x00; 0x00] 0x2a;
  ScanCode_ KEnter (Some 10) None [0x1c; 0x00; 0x00; 0x00; 0x00; 0x00] [0x9c; 0x00; 0x00; 0x00; 0x00; 0x00] 0x28;
  ScanCode_ KRShift None None [0x36; 0x00; 0x00; 0x00; 0x00; 0x00] [0xb6; 0x00; 0x00; 0x00; 0x00; 0x00] 0xe5;
  ScanCode_ KNum1 (Some 49) (Some 33) [0x02; 0x00; 0x00; 0x00; 0x00; 0x00] [0x82; 0x00; 0x00; 0x00; 0x00; 0x00] 0x1e;
  ScanCode_ KNum2 (Some 50) (Some 34) [0x03; 0x00; 0x00; 0x00; 0x00; 0x00] [0x83; 0x00; 0x00; 0x00; 0x00; 0x00] 0x1f;
  ScanCode_ KNum3 (Some 51) (Some 35) [0x04; 0x00; 0x00; 0x00; 0x00; 0x00] [0x84; 0x00; 0x00; 0x00; 0x00; 0x00] 0x20;
  ScanCode_ KNum4 (Some 52) (Some 36) [0x05; 0x00; 0x00; 0x00; 0x00; 0x00] [0x85; 0x00; 0x00; 0x00; 0x00; 0x00] 0x21;
  ScanCode_ KNum5 (Some 53) (Some 37) [0x06; 0x00; 0x00; 0x00; 0x00; 0x00] [0x86; 0x00; 0x00; 0x00; 0x00; 0x00] 0x22;
  ScanCode_ KNum6 (Some 54) (Some 38) [0x07; 0x00; 0x00; 0x00; 0x00; 0x00] [0x87; 0x00; 0x00; 0x00; 0x00; 0x00] 0x23;
  ScanCode_ KNum7 (Some 55) (Some 39) [0x08; 0x00; 0x00; 0x00; 0x00; 0x00] [0x88; 0x00; 0x00; 0x00; 0x00; 0x00] 0x24;
  ScanCode_ KNum8 (Some 56) (Some 40) [0x09; 0x00; 0x00; 0x00; 0x00; 0x00] [0x89; 0x00; 0x00; 0x00; 0x00; 0x00] 0x25;
  ScanCode_ KNum9 (Some 57) (Some 41) [0x0a; 0x00; 0x00; 0x00; 0x00; 0x00] [0x8a; 0x00; 0x00; 0x00; 0x00; 0x00] 0x26;
  ScanCode_ KNum0 (Some 48) None [0x0b; 0x00; 0x00; 0x00; 0x00; 0x00] [0x8b; 0x00; 0x00; 0x00; 0x00; 0x00] 0x27;
  ScanCode_ KA (Some 97) (Some 65) [0x1e; 0x00; 0x00; 0x00; 0x00; 0x00] [0x9e; 0x00; 0x00; 0x00; 0x00; 0x00] 0x04;
  ScanCode_ KB (Some 98) (Some 66) [0x30; 0x00; 0x00; 0x00; 0x00; 0x00] [0xb0; 0x00; 0x00; 0x00; 0x00; 0x00] 0x05;
  ScanCode_ KC (Some 99) (Some 67) [0x2e; 0x00; 0x00; 0x00; 0x00; 0x00] [0xae; 0x00; 0x00; 0x00; 0x00; 0x00] 0x06;
  ScanCode_ KD (Some 100) (Some 68) [0x20; 0x00; 0x00; 0x00; 0x00; 0x00] [0xa0; 0x00; 0x00; 0x00; 0x00; 0x00] 0x07;
  ScanCode_ KE (Some 101) (Some 69) [0x12; 0x00; 0x00; 0x00; 0x00; 0x00] [0x92; 0x00; 0x00; 0x00; 0x00; 0x00] 0x08
].

Definition jis_keys_5 : list ScanCode := [
  ScanCode_ KF (Some 102) (Some 70) [0x21; 0x00; 0x00; 0x00; 0x00; 0x00] [0xa1; 0x00; 0x00; 0x00; 0x00; 0x00] 0x09;
  ScanCode_ KG (Some 103) (Some 71) [0x22; 0x00; 0x00; 0x00; 0x00; 0x00] [0xa2; 0x00; 0x00; 0x00; 0x00; 0x00] 0x0a;
  ScanCode_ KH (Some 104) (Some 72) [0x23; 0x00; 0x00; 0x00; 0x00; 0x00] [0xa3; 0x00; 0x00; 0x00; 0x00; 0x00] 0x0b;
  ScanCode_ KI (Some 105) (Some 73) [0x17; 0x00; 0x00; 0x00; 0x00; 0x00] [0x97; 0x00; 0x00; 0x00; 0x00; 0x00] 0x0c;
  ScanCode_ KJ (Some 106) (Some 74) [0x24; 0x00; 0x00; 0x00; 0x00; 0x00] [0xa4; 0x00; 0x00; 0x00; 0x00; 0x00] 0x0d;
  ScanCode_ KK (Some 107) (Some 75) [0x25; 0x00; 0x00; 0x00; 0x00; 0x00] [0xa5; 0x00; 0x00; 0x00; 0x00; 0x00] 0x0e;
  ScanCode_ KL (Some 108) (Some 76) [0x26; 0x00; 0x00; 0x00; 0x00; 0x00] [0xa6; 0x00; 0x00; 0x00; 0x00; 0x00] 0x0f;
  ScanCode_ KM (Some 109) (Some 77) [0x32; 0x00; 0x00; 0x00; 0x00; 0x00] [0xb2; 0x00; 0x00; 0x00; 0x00; 0x00] 0x10;
  ScanCode_ KN (Some 110) (Some 78) [0x31; 0x00; 0x00; 0x00; 0x00; 0x00] [0xb1; 0x00; 0x00; 0x00; 0x00; 0x00] 0x11;
  ScanCode_ KO (Some 111) (Some 79) [0x18; 0x00; 0x00; 0x00; 0x00; 0x00] [0x98; 0x00; 0x00; 0x00; 0x00; 0x00] 0x12;
  ScanCode_ KP (Some 112) (Some 80) [0x19; 0x00; 0x00; 0x00; 0x00; 0x00] [0x99; 0x00; 0x00; 0x00; 0x00; 0x00] 0x13;
  ScanCode_ KQ (Some 113) (Some 81) [0x10; 0x00; 0x00; 0x00; 0x00; 0x00] [0x90; 0x00; 0x00; 0x00; 0x00; 0x00] 0x14;
  ScanCode_ KR (Some 114) (Some 82) [0x13; 0x00; 0x00; 0x00; 0x00; 0x00] [0x93; 0x00; 0x00; 0x00; 0x00; 0x00] 0x15;
  ScanCode_ KS (Some 115) (Some 83) [0x1f; 0x00; 0x00; 0x00; 0x00; 0x00] [0x9f; 0x00; 0x00; 0x00; 0x00; 0x00] 0x16;
  ScanCode_ KT (Some 116) (Some 84) [0x14; 0x00; 0x00; 0x00; 0x00; 0x00] [0x94; 0x00; 0x00; 0x00; 0x00; 0x00] 0x17;
  ScanCode_ KU (Some 117) (Some 85) [0x16; 0x00; 0x00; 0x00; 0x00; 0x00] [0x96; 0x00; 0x00; 0x00; 0x00; 0x00] 0x18;
  ScanCode_ KV (Some 118) (Some 86) [0x2f; 0x00; 0x00; 0x00; 0x00; 0x00] [0xaf; 0x00; 0x00; 0x00; 0x00; 0x00] 0x19;
  ScanCode_ KW (Some 119) (Some 87) [0x11; 0x00; 0x00; 0x00; 0x00; 0x00] [0x91; 0x00; 0x00; 0x00; 0x00; 0x00] 0x1a
].

Definition jis_keys_6 : list ScanCode := [
  ScanCode_ KX (Some 120) (Some 88) [0x2d; 0x00; 0x00; 0x00; 0x00; 0x00] [0xad; 0x00; 0x00; 0x00; 0x00; 0x00] 0x1b;
  ScanCode_ KY (Some 121) (Some 89) [0x15; 0x00; 0x00; 0x00; 0x00; 0x00] [0x95; 0x00; 0x00; 0x00; 0x00; 0x00] 0x1c;
  ScanCode_ KZ (Some 122) (Some 90) [0x2c; 0x00; 0x00; 0x00; 0x00; 0x00] [0xac; 0x00; 0x00; 0x00; 0x00; 0x00] 0x1d;
  ScanCode_ KSubtract (Some 45) (Some 61) [0x0c; 0x00; 0x00; 0x00; 0x00; 0x00] [0x8c; 0x00; 0x00; 0x00; 0x00; 0x00] 0x2d;
  ScanCode_ KEqual (Some 94) (Some 126) [0x0d; 0x00; 0x00; 0x00; 0x00; 0x00] [0x8d; 0x00; 0x00; 0x00; 0x00; 0x00] 0x2e;
  ScanCode_ KYen (Some 165) (Some 124) [0x7d; 0x00; 0x00; 0x00; 0x00; 0x00] [0xfd; 0x00; 0x00; 0x00; 0x00; 0x00] 0x89;
  ScanCode_ KBracketLeft (Some 64) (Some 96) [0x1a; 0x00; 0x00; 0x00; 0x00; 0x00] [0x9a; 0x00; 0x00; 0x00; 0x00; 0x00] 0x2f;
  ScanCode_ KBracketRight (Some 91) (Some 123) [0x1b; 0x00; 0x00; 0x00; 0x00; 0x00] [0x9b; 0x00; 0x00; 0x00; 0x00; 0x00] 0x30;
  ScanCode_ KBackslash (Some 93) (Some 125) [0x2b; 0x00; 0x00; 0x00; 0x00; 0x00] [0xab; 0x00; 0x00; 0x00; 0x00; 0x00] 0x31;
  ScanCode_ KSemicolon (Some 59) (Some 43) [0x27; 0x00; 0x00; 0x00; 0x00; 0x00] [0xa7; 0x00; 0x00; 0x00; 0x00; 0x00] 0x33;
  ScanCode_ KQuote (Some 58) (Some 42) [0x28; 0x00; 0x00; 0x00; 0x00; 0x00] [0xa8; 0x00; 0x00; 0x00; 0x00; 0x00] 0x34;
  ScanCode_ KComma (Some 44) (Some 60) [0x33; 0x00; 0x00; 0x00; 0x00; 0x00] [0xb3; 0x00; 0x00; 0x00; 0x00; 0x00] 0x36;
  ScanCode_ KPeriod (Some 46) (Some 62) [0x34; 0x00; 0x00; 0x00; 0x00; 0x00] [0xb4; 0x00; 0x00; 0x00; 0x00; 0x00] 0x37;
  ScanCode_ KSlash (Some 47) (Some 63) [0x35; 0x00; 0x00; 0x00; 0x00; 0x00] [0xb5; 0x00; 0x00; 0x00; 0x00; 0x00] 0x38;
  ScanCode_ KHankakuZenkaku None None [0x29; 0x00; 0x00; 0x00; 0x00; 0x00] [0xa9; 0x00; 0x00; 0x00; 0x00; 0x00] 0x35;
  ScanCode_ KMuhenkan None None [0x7b; 0x00; 0x00; 0x00; 0x00; 0x00] [0xfb; 0x00; 0x00; 0x00; 0x00; 0x00] 0x8b;
  ScanCode_ KHenkan None None [0x79; 0x00; 0x00; 0x00; 0x00; 0x00] [0xf9; 0x00; 0x00; 0x00; 0x00; 0x00] 0x8a;
  ScanCode_ KKatakanaHiragana None None [0x70; 0x00; 0x00; 0x00; 0x00; 0x00] [0xf0; 0x00; 0x00; 0x00; 0x00; 0x00] 0x88
].

Definition jis_keys_7 : list ScanCode := [
  ScanCode_ KRoUnderscore (Some 92) (Some 95) [0x73; 0x00; 0x00; 0x00; 0x00; 0x00] [0xf3; 0x00; 0x00; 0x00; 0x00; 0x00] 0x87
].

Definition ansi_keys_1 : list ScanCode := [
  ScanCode_ KEsc (Some 27) None [0x01; 0x00; 0x00; 0x00; 0x00; 0x00] [0x81; 0x00; 0x00; 0x00; 0x00; 0x00] 0x29;
  ScanCode_ KF1 None None [0x3b; 0x00; 0x00; 0x00; 0x00; 0x00] [0xbb; 0x00; 0x00; 0x00; 0x00; 0x00] 0x3a;
  ScanCode_ KF2 None None [0x3c; 0x00; 0x00; 0x00; 0x00; 0x00] [0xbc; 0x00; 0x00; 0x00; 0x00; 0x00] 0x3b;
  ScanCode_ KF3 None None [0x3d; 0x00; 0x00; 0x00; 0x00; 0x00] [0xbd; 0x00; 0x00; 0x00; 0x00; 0x00] 0x3c;
  ScanCode_ KF4 None None [0x3e; 0x00; 0x00; 0x00; 0x00; 0x00] [0xbe; 0x00; 0x00; 0x00; 0x00; 0x00] 0x3d;
  ScanCode_ KF5 None None [0x3f; 0x00; 0x00; 0x00; 0x00; 0x00] [0xbf; 0x00; 0x00; 0x00; 0x00; 0x00] 0x3e;
  ScanCode_ KF6 None None [0x40; 0x00; 0x00; 0x00; 0x00; 0x00] [0xc0; 0x00; 0x00; 0x00; 0x00; 0x00] 0x3f;
  ScanCode_ KF7 None None [0x41; 0x00; 0x00; 0x00; 0x00; 0x00] [0xc1; 0x00; 0x00; 0x00; 0x00; 0x00] 0x40;
  ScanCode_ KF8 None None [0x42; 0x00; 0x00; 0x00; 0x00; 0x00] [0xc2; 0x00; 0x00; 0x00; 0x00; 0x00] 0x41;
  ScanCode_ KF9 None None [0x43; 0x00; 0x00; 0x00; 0x00; 0x00] [0xc3; 0x00; 0x00; 0x00; 0x00; 0x00] 0x42;
  ScanCode_ KF10 None None [0x44; 0x00; 0x00; 0x00; 0x00; 0x00] [0xc4; 0x00; 0x00; 0x00; 0x00; 0x00] 0x43;
  ScanCode_ KF11 None None [0x57; 0x00; 0x00; 0x00; 0x00; 0x00] [0xd7; 0x00; 0x00; 0x00; 0x00; 0x00] 0x44;
  ScanCode_ KF12 None None [0x58; 0x00; 0x00; 0x00; 0x00; 0x00] [0xd8; 0x00; 0x00; 0x00; 0x00; 0x00] 0x45;
  ScanCode_ KPrintScreen None None [0xe0; 0x1d; 0x46; 0x9d; 0xc5; 0x00] [0xe0; 0xb7; 0xe0; 0xaa; 0x00; 0x00] 0x46;
  ScanCode_ KScrollLock None None [0x46; 0x00; 0x00; 0x00; 0x00; 0x00] [0xc6; 0x00; 0x00; 0x00; 0x00; 0x00] 0x47;
  ScanCode_ KPause None None [0xe1; 0x1d; 0x45; 0x9d; 0xc5; 0x00] [0x00; 0x00; 0x00; 0x00; 0x00; 0x00] 0x48;
  ScanCode_ KInsert None None [0xe0; 0x52; 0x00; 0x00; 0x00; 0x00] [0xe0; 0xd2; 0x00; 0x00; 0x00; 0x00] 0x49;
  ScanCode_ KHome None None [0xe0; 0x47; 0x00; 0x00; 0x00; 0x00] [0xe0; 0xc7; 0x00; 0x00; 0x00; 0x00] 0x4a
].

Definition ansi_keys_2 : list ScanCode := [
  ScanCode_ KPageUp None None [0xe0; 0x49; 0x00; 0x00; 0x00; 0x00] [0xe0; 0xc9; 0x00; 0x00; 0x00; 0x00] 0x4b;
  ScanCode_ KDelete (Some 127) None [0xe0; 0x53; 0x00; 0x00; 0x00; 0x00] [0xe0; 0xd3; 0x00; 0x00; 0x00; 0x00] 0x4c;
  ScanCode_ KEnd None None [0xe0; 0x4f; 0x00; 0x00; 0x00; 0x00] [0xe0; 0xcf; 0x00; 0x00; 0x00; 0x00] 0x4d;
  ScanCode_ KPageDown None None [0xe0; 0x51; 0x00; 0x00; 0x00; 0x00] [0xe0; 0xd1; 0x00; 0x00; 0x00; 0x00] 0x4e;
  ScanCode_ KCursorRight None None [0xe0; 0x4d; 0x00; 0x00; 0x00; 0x00] [0xe0; 0xcd; 0x00; 0x00; 0x00; 0x00] 0x4f;
  ScanCode_ KCursorLeft None None [0xe0; 0x4b; 0x00; 0x00; 0x00; 0x00] [0xe0; 0xcb; 0x00; 0x00; 0x00; 0x00] 0x50;
  ScanCode_ KCursorDown None None [0xe0; 0x50; 0x00; 0x00; 0x00; 0x00] [0xe0; 0xd0; 0x00; 0x00; 0x00; 0x00] 0x51;
  ScanCode_ KCursorUp None None [0xe0; 0x48; 0x00; 0x00; 0x00; 0x00] [0xe0; 0xc8; 0x00; 0x00; 0x00; 0x00] 0x52;
  ScanCode_ KNumLock None None [0x45; 0x00; 0x00; 0x00; 0x00; 0x00] [0xc5; 0x00; 0x00; 0x00; 0x00; 0x00] 0x53;
  ScanCode_ KKpDivide (Some 47) None [0xe0; 0x35; 0x00; 0x00; 0x00; 0x00] [0xe0; 0xb5; 0x00; 0x00; 0x00; 0x00] 0x54;
  ScanCode_ KKpMultiply (Some 42) None [0x37; 0x00; 0x00; 0x00; 0x00; 0x00] [0xb7; 0x00; 0x00; 0x00; 0x00; 0x00] 0x55;
  ScanCode_ KKpSubtract (Some 45) None [0x4a; 0x00; 0x00; 0x00; 0x00; 0x00] [0xca; 0x00; 0x00; 0x00; 0x00; 0x00] 0x56;
  ScanCode_ KKpAdd (Some 43) None [0x4e; 0x00; 0x00; 0x00; 0x00; 0x00] [0xce; 0x00; 0x00; 0x00; 0x00; 0x00] 0x57;
  ScanCode_ KKpEnter (Some 10) None [0xe0; 0x1c; 0x00; 0x00; 0x00; 0x00] [0xe0; 0x9c; 0x00; 0x00; 0x00; 0x00] 0x58;
  ScanCode_ KKp1 (Some 49) None [0x4f; 0x00; 0x00; 0x00; 0x00; 0x00] [0xcf; 0x00; 0x00; 0x00; 0x00; 0x00] 0x59;
  ScanCode_ KKp2 (Some 50) None [0x50; 0x00; 0x00; 0x00; 0x00; 0x00] [0xd0; 0x00; 0x00; 0x00; 0x00; 0x00] 0x5a;
  ScanCode_ KKp3 (Some 51) None [0x51; 0x00; 0x00; 0x00; 0x00; 0x00] [0xd1; 0x00; 0x00; 0x00; 0x00; 0x00] 0x5b;
  ScanCode_ KKp4 (Some 52) None [0x4b; 0x00; 0x00; 0x00; 0x00; 0x00] [0xcb; 0x00; 0x00; 0x00; 0x00; 0x00] 0x5c
].

Definition ansi_keys_3 : list ScanCode := [
  ScanCode_ KKp5 (Some 53) None [0x4c; 0x00; 0x00; 0x00; 0x00; 0x00] [0xcc; 0x00; 0x00; 0x00; 0x00; 0x00] 0x5d;
  ScanCode_ KKp6 (Some 54) None [0x4d; 0x00; 0x00; 0x00; 0x00; 0x00] [0xcd; 0x00; 0x00; 0x00; 0x00; 0x00] 0x5e;
  ScanCode_ KKp7 (Some 55) None [0x47; 0x00; 0x00; 0x00; 0x00; 0x00] [0xc7; 0x00; 0x00; 0x00; 0x00; 0x00] 0x5f;
  ScanCode_ KKp8 (Some 56) None [0x48; 0x00; 0x00; 0x00; 0x00; 0x00] [0xc8; 0x00; 0x00; 0x00; 0x00; 0x00] 0x60;
  ScanCode_ KKp9 (Some 57) None [0x49; 0x00; 0x00; 0x00; 0x00; 0x00] [0xc9; 0x00; 0x00; 0x00; 0x00; 0x00] 0x61;
  ScanCode_ KKp0 (Some 48) None [0x52; 0x00; 0x00; 0x00; 0x00; 0x00] [0xd2; 0x00; 0x00; 0x00; 0x00; 0x00] 0x62;
  ScanCode_ KKpPeriod (Some 46) None [0x53; 0x00; 0x00; 0x00; 0x00; 0x00] [0xd3; 0x00; 0x00; 0x00; 0x00; 0x00] 0x63;
  ScanCode_ KLCtrl None None [0x1d; 0x00; 0x00; 0x00; 0x00; 0x00] [0x9d; 0x00; 0x00; 0x00; 0x00; 0x00] 0xe0;
  ScanCode_ KLGui None None [0xe0; 0x5b; 0x00; 0x00; 0x00; 0x00] [0xe0; 0xdb; 0x00; 0x00; 0x00; 0x00] 0xe3;
  ScanCode_ KLAlt None None [0x38; 0x00; 0x00; 0x00; 0x00; 0x00] [0xb8; 0x00; 0x00; 0x00; 0x00; 0x00] 0xe2;
  ScanCode_ KSpace (Some 32) None [0x39; 0x00; 0x00; 0x00; 0x00; 0x00] [0xb9; 0x00; 0x00; 0x00; 0x00; 0x00] 0x2c;
  ScanCode_ KRGui None None [0xe0; 0x5c; 0x00; 0x00; 0x00; 0x00] [0xe0; 0xdc; 0x00; 0x00; 0x00; 0x00] 0xe7;
  ScanCode_ KRAlt None None [0xe0; 0x38; 0x00; 0x00; 0x00; 0x00] [0xe0; 0xb8; 0x00; 0x00; 0x00; 0x00] 0xe6;
  ScanCode_ KApps None None [0xe0; 0x6d; 0x00; 0x00; 0x00; 0x00] [0xe0; 0xdd; 0x00; 0x00; 0x00; 0x00] 0x65;
  ScanCode_ KRCtrl None None [0xe0; 0x1d; 0x00; 0x00; 0x00; 0x00] [0xe0; 0x9d; 0x00; 0x00; 0x00; 0x00] 0xe4;
  ScanCode_ KLShift None None [0x2a; 0x00; 0x00; 0x00; 0x00; 0x00] [0xaa; 0x00; 0x00; 0x00; 0x00; 0x00] 0xe1;
  ScanCode_ KCapsLock None None [0x3a; 0x00; 0x00; 0x00; 0x00; 0x00] [0xba; 0x00; 0x00; 0x00; 0x00; 0x00] 0x39;
  ScanCode_ KTab (Some 9) None [0x0f; 0x00; 0x00; 0x00; 0x00; 0x00] [0x8f; 0x00; 0x00; 0x00; 0x00; 0x00] 0x2b
].

Definition ansi_keys_4 : list ScanCode := [
  ScanCode_ KBackspace (Some 8) None [0x0e; 0x00; 0x00; 0x00; 0x00; 0x00] [0x8e; 0x00; 0x00; 0x00; 0x00; 0x00] 0x2a;
  ScanCode_ KEnter (Some 10) None [0x1c; 0x00; 0x00; 0x00; 0x00; 0x00] [0x9c; 0x00; 0x00; 0x00; 0x00; 0x00] 0x28;
  ScanCode_ KRShift None None [0x36; 0x00; 0x00; 0x00; 0x00; 0x00] [0xb6; 0x00; 0x00; 0x00; 0x00; 0x00] 0xe5;
  ScanCode_ KNum1 (Some 49) (Some 33) [0x02; 0x00; 0x00; 0x00; 0x00; 0x00] [0x82; 0x00; 0x00; 0x00; 0x00; 0x00] 0x1e;
  ScanCode_ KNum2 (Some 50) (Some 64) [0x03; 0x00; 0x00; 0x00; 0x00; 0x00] [0x83; 0x00; 0x00; 0x00; 0x00; 0x00] 0x1f;
  ScanCode_ KNum3 (Some 51) (Some 35) [0x04; 0x00; 0x00; 0x00; 0x00; 0x00] [0x84; 0x00; 0x00; 0x00; 0x00; 0x00] 0x20;
  ScanCode_ KNum4 (Some 52) (Some 36) [0x05; 0x00; 0x00; 0x00; 0x00; 0x00] [0x85; 0x00; 0x00; 0x00; 0x00; 0x00] 0x21;
  ScanCode_ KNum5 (Some 53) (Some 37) [0x06; 0x00; 0x00; 0x00; 0x00; 0x00] [0x86; 0x00; 0x00; 0x00; 0x00; 0x00] 0x22;
  ScanCode_ KNum6 (Some 54) (Some 94) [0x07; 0x00; 0x00; 0x00; 0x00; 0x00] [0x87; 0x00; 0x00; 0x00; 0x00; 0x00] 0x23;
  ScanCode_ KNum7 (Some 55) (Some 38) [0x08; 0x00; 0x00; 0x00; 0x00; 0x00] [0x88; 0x00; 0x00; 0x00; 0x00; 0x00] 0x24;
  ScanCode_ KNum8 (Some 56) (Some 42) [0x09; 0x00; 0x00; 0x00; 0x00; 0x00] [0x89; 0x00; 0x00; 0x00; 0x00; 0x00] 0x25;
  ScanCode_ KNum9 (Some 57) (Some 40) [0x0a; 0x00; 0x00; 0x00; 0x00; 0x00] [0x8a; 0x00; 0x00; 0x00; 0x00; 0x00] 0x26;
  ScanCode_ KNum0 (Some 48) (Some 41) [0x0b; 0x00; 0x00; 0x00; 0x00; 0x00] [0x8b; 0x00; 0x00; 0x00; 0x00; 0x00] 0x27;
  ScanCode_ KA (Some 97) (Some 65) [0x1e; 0x00; 0x00; 0x00; 0x00; 0x00] [0x9e; 0x00; 0x00; 0x00; 0x00; 0x00] 0x04;
  ScanCode_ KB (Some 98) (Some 66) [0x30; 0x00; 0x00; 0x00; 0x00; 0x00] [0xb0; 0x00; 0x00; 0x00; 0x00; 0x00] 0x05;
  ScanCode_ KC (Some 99) (Some 67) [0x2e; 0x00; 0x00; 0x00; 0x00; 0x00] [0xae; 0x00; 0x00; 0x00; 0x00; 0x00] 0x06;
  ScanCode_ KD (Some 100) (Some 68) [0x20; 0x00; 0x00; 0x00; 0x00; 0x00] [0xa0; 0x00; 0x00; 0x00; 0x00; 0x00] 0x07;
  ScanCode_ KE (Some 101) (Some 69) [0x12; 0x00; 0x00; 0x00; 0x00; 0x00] [0x92; 0x00; 0x00; 0x00; 0x00; 0x00] 0x08
].

Definition ansi_keys_5 : list ScanCode := [
  ScanCode_ KF (Some 102) (Some 70) [0x21; 0x00; 0x00; 0x00; 0x00; 0x00] [0xa1; 0x00; 0x00; 0x00; 0x00; 0x00] 0x09;
  ScanCode_ KG (Some 103) (Some 71) [0x22; 0x00; 0x00; 0x00; 0x00; 0x00] [0xa2; 0x00; 0x00; 0x00; 0x00; 0x00] 0x0a;
  ScanCode_ KH (Some 104) (Some 72) [0x23; 0x00; 0x00; 0x00; 0x00; 0x00] [0xa3; 0x00; 0x00; 0x00; 0x00; 0x00] 0x0b;
  ScanCode_ KI (Some 105) (Some 73) [0x17; 0x00; 0x00; 0x00; 0x00; 0x00] [0x97; 0x00; 0x00; 0x00; 0x00; 0x00] 0x0c;
  ScanCode_ KJ (Some 106) (Some 74) [0x24; 0x00; 0x00; 0x00; 0x00; 0x00] [0xa4; 0x00; 0x00; 0x00; 0x00; 0x00] 0x0d;
  ScanCode_ KK (Some 107) (Some 75) [0x25; 0x00; 0x00; 0x00; 0x00; 0x00] [0xa5; 0x00; 0x00; 0x00; 0x00; 0x00] 0x0e;
  ScanCode_ KL (Some 108) (Some 76) [0x26; 0x00; 0x00; 0x00; 0x00; 0x00] [0xa6; 0x00; 0x00; 0x00; 0x00; 0x00] 0x0f;
  ScanCode_ KM (Some 109) (Some 77) [0x32; 0x00; 0x00; 0x00; 0x00; 0x00] [0xb2; 0x00; 0x00; 0x00; 0x00; 0x00] 0x10;
  ScanCode_ KN (Some 110) (Some 78) [0x31; 0x00; 0x00; 0x00; 0x00; 0x00] [0xb1; 0x00; 0x00; 0x00; 0x00; 0x00] 0x11;
  ScanCode_ KO (Some 111) (Some 79) [0x18; 0x00; 0x00; 0x00; 0x00; 0x00] [0x98; 0x00; 0x00; 0x00; 0x00; 0x00] 0x12;
  ScanCode_ KP (Some 112) (Some 80) [0x19; 0x00; 0x00; 0x00; 0x00; 0x00] [0x99; 0x00; 0x00; 0x00; 0x00; 0x00] 0x13;
  ScanCode_ KQ (Some 113) (Some 81) [0x10; 0x00; 0x00; 0x00; 0x00; 0x00] [0x90; 0x00; 0x00; 0x00; 0x00; 0x00] 0x14;
  ScanCode_ KR (Some 114) (Some 82) [0x13; 0x00; 0x00; 0x00; 0x00; 0x00] [0x93; 0x00; 0x00; 0x00; 0x00; 0x00] 0x15;
  ScanCode_ KS (Some 115) (Some 83) [0x1f; 0x00; 0x00; 0x00; 0x00; 0x00] [0x9f; 0x00; 0x00; 0x00; 0x00; 0x00] 0x16;
  ScanCode_ KT (Some 116) (Some 84) [0x14; 0x00; 0x00; 0x00; 0x00; 0x00] [0x94; 0x00; 0x00; 0x00; 0x00; 0x00] 0x17;
  ScanCode_ KU (Some 117) (Some 85) [0x16; 0x00; 0x00; 0x00; 0x00; 0x00] [0x96; 0x00; 0x00; 0x00; 0x00; 0x00] 0x18;
  ScanCode_ KV (Some 118) (Some 86) [0x2f; 0x00; 0x00; 0x00; 0x00; 0x00] [0xaf; 0x00; 0x00; 0x00; 0x00; 0x00] 0x19;
  ScanCode_ KW (Some 119) (Some 87) [0x11; 0x00; 0x00; 0x00; 0x00; 0x00] [0x91; 0x00; 0x00; 0x00; 0x00; 0x00] 0x1a
].

Definition ansi_keys_6 : list ScanCode := [
  ScanCode_ KX (Some 120) (Some 88) [0x2d; 0x00; 0x00; 0x00; 0x00; 0x00] [0xad; 0x00; 0x00; 0x00; 0x00; 0x00] 0x1b;
  ScanCode_ KY (Some 121) (Some 89) [0x15; 0x00; 0x00; 0x00; 0x00; 0x00] [0x95; 0x00; 0x00; 0x00; 0x00; 0x00] 0x1c;
  ScanCode_ KZ (Some 122) (Some 90) [0x2c; 0x00; 0x00; 0x00; 0x00; 0x00] [0xac; 0x00; 0x00; 0x00; 0x00; 0x00] 0x1d;
  ScanCode_ KBacktick (Some 96) (Some 126) [0x29; 0x00; 0x00; 0x00; 0x00; 0x00] [0xa9; 0x00; 0x00; 0x00; 0x00; 0x00] 0x32;
  ScanCode_ KSubtract (Some 45) (Some 95) [0x0c; 0x00; 0x00; 0x00; 0x00; 0x00] [0x8c; 0x00; 0x00; 0x00; 0x00; 0x00] 0x2d;
  ScanCode_ KEqual (Some 61) (Some 43) [0x0d; 0x00; 0x00; 0x00; 0x00; 0x00] [0x8d; 0x00; 0x00; 0x00; 0x00; 0x00] 0x2e;
  ScanCode_ KBracketLeft (Some 91) (Some 123) [0x1a; 0x00; 0x00; 0x00; 0x00; 0x00] [0x9a; 0x00; 0x00; 0x00; 0x00; 0x00] 0x2f;
  ScanCode_ KBracketRight (Some 93) (Some 125) [0x1b; 0x00; 0x00; 0x00; 0x00; 0x00] [0x9b; 0x00; 0x00; 0x00; 0x00; 0x00] 0x30;
  ScanCode_ KBackslash (Some 92) (Some 124) [0x2b; 0x00; 0x00; 0x00; 0x00; 0x00] [0xab; 0x00; 0x00; 0x00; 0x00; 0x00] 0x31;
  ScanCode_ KSemicolon (Some 59) (Some 58) [0x27; 0x00; 0x00; 0x00; 0x00; 0x00] [0xa7; 0x00; 0x00; 0x00; 0x00; 0x00] 0x33;
  ScanCode_ KQuote (Some 39) (Some 34) [0x28; 0x00; 0x00; 0x00; 0x00; 0x00] [0xa8; 0x00; 0x00; 0x00; 0x00; 0x00] 0x34;
  ScanCode_ KComma (Some 44) (Some 60) [0x33; 0x00; 0x00; 0x00; 0x00; 0x00] [0xb3; 0x00; 0x00; 0x00; 0x00; 0x00] 0x36;
  ScanCode_ KPeriod (Some 46) (Some 62) [0x34; 0x00; 0x00; 0x00; 0x00; 0x00] [0xb4; 0x00; 0x00; 0x00; 0x00; 0x00] 0x37;
  ScanCode_ KSlash (Some 47) (Some 63) [0x35; 0x00; 0x00; 0x00; 0x00; 0x00] [0xb5; 0x00; 0x00; 0x00; 0x00; 0x00] 0x38
].

Inductive KeyMap := AnsiUs104 (arr : list ScanCode) | JisJp109 (arr : list ScanCode).

Definition JIS_JP_109_KEY_MAP : KeyMap :=
  JisJp109 (jis_keys_1 ++ jis_keys_2 ++ jis_keys_3 ++ jis_keys_4 ++ jis_keys_5 ++ jis_keys_6 ++ jis_keys_7).
Definition ANSI_US_104_KEY_MAP : KeyMap :=
  AnsiUs104 (ansi_keys_1 ++ ansi_keys_2 ++ ansi_keys_3 ++ ansi_keys_4 ++ ansi_keys_5 ++ ansi_keys_6).

Definition scan_codes (m : KeyMap) : list ScanCode := match m with AnsiUs104 arr | JisJp109 arr => arr end.

(** [BTreeMap::insert] for both codes of every key. *)
Definition insert_ps2 (map : gmap (list Z) ScanCode) (sc : ScanCode) : gmap (list Z) ScanCode :=
  <[ps2_scan_code_released sc := sc]> (<[ps2_scan_code_pressed sc := sc]> map).
Definition to_ps2_map (m : KeyMap) : gmap (list Z) ScanCode := foldl insert_ps2 ∅ (scan_codes m).
Definition to_usb_hid_map (m : KeyMap) : gmap Z ScanCode :=
  foldl (fun map sc => <[usb_hid_usage_id sc := sc]> map) ∅ (scan_codes m).

(** ** Events ([util/keyboard/mod.rs]) *)

Definition set_modifier (k : KeyCode) (down : bool) (mods : ModifierKeysState) : ModifierKeysState :=
  if is_shift k then MkMods down (ctrl mods) (gui mods) (alt mods)
  else if is_ctrl k then MkMods (shift mods) down (gui mods) (alt mods)
  else if is_gui k then MkMods (shift mods) (ctrl mods) down (alt mods)
  else if is_alt k then MkMods (shift mods) (ctrl mods) (gui mods) down
  else mods.

(** [c.unwrap() as u8] under [Ctrl]. *)
Definition control_char (c : Z) : Z :=
  let b := c mod 256 in
  if (0x40 <=? b) && (b <=? 0x5f) then b - 0x40
  else if (0x60 <=? b) && (b <=? 0x7f) then b - 0x60
  else c.

Definition key_char (mods : ModifierKeysState) (sc : ScanCode) : option Z :=
  let c := if shift mods then on_shift_c sc else sc_c sc in
  if ctrl mods then control_char <$> c else c.

(** [unreachable!()] when the code is neither of the two. *)
Definition key_event_from_ps2 (key_map : gmap (list Z) ScanCode) (code : list Z)
    : SR ModifierKeysState (option KeyEvent) := fun mods =>
  match key_map !! code with
  | None => (Ok None, mods)
  | Some scan_code =>
      let k := key_code scan_code in
      if bool_decide (ps2_scan_code_pressed scan_code = code) then
        let mods := set_modifier k true mods in
        (Ok (Some (MkKeyEvent k Pressed (key_char mods scan_code))), mods)
      else if bool_decide (ps2_scan_code_released scan_code = code) then (Ok None, set_modifier k false mods)
      else (Panic, mods)
  end.

Definition key_event_from_usb_hid (key_map : gmap Z ScanCode) (mods : ModifierKeysState) (key_state : KeyState)
    (usage_id : Z) : Result (option KeyEvent) :=
  match key_map !! usage_id with
  | None => Ok None
  | Some scan_code =>
      if negb (usage_id =? usb_hid_usage_id scan_code) then Panic
      else match key_state with
           | Released => Ok None
           | Pressed => Ok (Some (MkKeyEvent (key_code scan_code) key_state (key_char mods scan_code)))
           end
  end.

(** ** The PS/2 driver ([device/ps2_keyboard.rs]) *)

Record Ps2KeyboardDriver := MkPs2 {
  attached : bool;
  key_map : KeyMap;
  key_map_cache : option (gmap (list Z) ScanCode);
  mod_keys_state : ModifierKeysState;
  data_buf : Fifo Z;
  kbd_data : list (option Z)
}.

Implicit Types d : Ps2KeyboardDriver.

Definition Ps2KeyboardDriver_new (m : KeyMap) : Ps2KeyboardDriver :=
  {| attached := false; key_map := m; key_map_cache := None; mod_keys_state := ModifierKeysState_default;
     data_buf := Fifo_new 128 0; kbd_data := replicate 6 None |}.

Definition set_buf (f : Fifo Z) d : Ps2KeyboardDriver :=
  MkPs2 (attached d) (key_map d) (key_map_cache d) (mod_keys_state d) f (kbd_data d).
Definition set_data (l : list (option Z)) d : Ps2KeyboardDriver :=
  MkPs2 (attached d) (key_map d) (key_map_cache d) (mod_keys_state d) (data_buf d) l.
Definition set_mods (x : ModifierKeysState) d : Ps2KeyboardDriver :=
  MkPs2 (attached d) (key_map d) (key_map_cache d) x (data_buf d) (kbd_data d).

Definition on_buf {A} (c : SR (Fifo Z) A) : SR Ps2KeyboardDriver A := fun d =>
  let '(r, f) := c (data_buf d) in (r, set_buf f d).

Definition kbd_input (data : Z) : SR Ps2KeyboardDriver unit := fun d =>
  match on_buf (Fifo_enqueue data) d with
  | (Err _, d) => on_buf (Fifo_enqueue data) (set_buf (Fifo_reset_ptr (data_buf d)) d)
  | r => r
  end.

Definition clear_data d : Ps2KeyboardDriver := set_data ((fun _ => None) <$> kbd_data d) d.

(** The first empty place, or none. *)
Definition put_byte (byte : Z) d : Ps2KeyboardDriver :=
  match list_find (fun x => x = None) (kbd_data d) with
  | Some (i, _) => set_data (<[i := Some byte]> (kbd_data d)) d
  | None => let d := clear_data d in set_data (<[0%nat := Some byte]> (kbd_data d)) d
  end.

Definition kbd_event : SR Ps2KeyboardDriver (option KeyEvent) :=
  let! byte := on_buf Fifo_dequeue in
  do! smodify (put_byte byte) in
  let! d := sget in
  let code := default 0 <$> kbd_data d in
  let! cache := slift (unwrap (key_map_cache d)) in
  let '(r, mods) := key_event_from_ps2 cache code (mod_keys_state d) in
  do! smodify (set_mods mods) in
  let! e := slift r in
  do! (match e with Some _ => smodify clear_data | None => sret tt end) in
  sret e.

(** [registered] is the outcome of [vfs::add_dev_file]. *)
Definition kbd_attach (registered : Result unit) : SR Ps2KeyboardDriver unit := fun d =>
  let d := MkPs2 (attached d) (key_map d) (Some (to_ps2_map (key_map d))) (mod_keys_state d) (data_buf d) (kbd_data d) in
  match registered with
  | Ok _ => (Ok tt, MkPs2 true (key_map d) (key_map_cache d) (mod_keys_state d) (data_buf d) (kbd_data d))
  | Err e => (Err e, d)
  | Panic => (Panic, d)
  end.

Definition kbd_poll_normal : SR Ps2KeyboardDriver (option KeyEvent) :=
  let! d := sget in
  if negb (attached d) then serr (error_into NotInitialized) else kbd_event.

Definition kbd_poll_int (data : Z) : SR Ps2KeyboardDriver unit :=
  let! d := sget in
  if negb (attached d) then serr (error_into NotInitialized) else kbd_input data.

(** * Lemmas *)

(** Keys are compared by their number. *)
Definition key_num (k : KeyCode) : nat :=
  match k with
  | KEsc => 0 | KF1 => 1 | KF2 => 2 | KF3 => 3 | KF4 => 4 | KF5 => 5 | KF6 => 6 | KF7 => 7 | KF8 => 8
  | KF9 => 9 | KF10 => 10 | KF11 => 11 | KF12 => 12 | KPrintScreen => 13 | KScrollLock => 14 | KPause => 15
  | KInsert => 16 | KHome => 17 | KPageUp => 18 | KDelete => 19 | KEnd => 20 | KPageDown => 21
  | KCursorRight => 22 | KCursorLeft => 23 | KCursorDown => 24 | KCursorUp => 25 | KNumLock => 26
  | KKpDivide => 27 | KKpMultiply => 28 | KKpSubtract => 29 | KKpAdd => 30 | KKpEnter => 31 | KKp1 => 32
  | KKp2 => 33 | KKp3 => 34 | KKp4 => 35 | KKp5 => 36 | KKp6 => 37 | KKp7 => 38 | KKp8 => 39 | KKp9 => 40
  | KKp0 => 41 | KKpPeriod => 42 | KLCtrl => 43 | KLGui => 44 | KLAlt => 45 | KSpace => 46 | KRGui => 47
  | KRAlt => 48 | KApps => 49 | KRCtrl => 50 | KLShift => 51 | KCapsLock => 52 | KTab => 53 | KBackspace => 54
  | KEnter => 55 | KRShift => 56 | KNum1 => 57 | KNum2 => 58 | KNum3 => 59 | KNum4 => 60 | KNum5 => 61
  | KNum6 => 62 | KNum7 => 63 | KNum8 => 64 | KNum9 => 65 | KNum0 => 66 | KA => 67 | KB => 68 | KC => 69
  | KD => 70 | KE => 71 | KF => 72 | KG => 73 | KH => 74 | KI => 75 | KJ => 76 | KK => 77 | KL => 78
  | KM => 79 | KN => 80 | KO => 81 | KP => 82 | KQ => 83 | KR => 84 | KS => 85 | KT => 86 | KU => 87
  | KV => 88 | KW => 89 | KX => 90 | KY => 91 | KZ => 92 | KBacktick => 93 | KSubtract => 94 | KEqual => 95
  | KBracketLeft => 96 | KBracketRight => 97 | KBackslash => 98 | KSemicolon => 99 | KQuote => 100
  | KComma => 101 | KPeriod => 102 | KSlash => 103 | KHankakuZenkaku => 104 | KMuhenkan => 105
  | KHenkan => 106 | KKatakanaHiragana => 107 | KYen => 108 | KRoUnderscore => 109
  end.
Definition all_keys : list KeyCode := [
  KEsc; KF1; KF2; KF3; KF4; KF5; KF6; KF7; KF8; KF9; KF10; KF11; KF12; KPrintScreen; KScrollLock; KPause;
  KInsert; KHome; KPageUp; KDelete; KEnd; KPageDown; KCursorRight; KCursorLeft; KCursorDown; KCursorUp;
  KNumLock; KKpDivide; KKpMultiply; KKpSubtract; KKpAdd; KKpEnter; KKp1; KKp2; KKp3; KKp4; KKp5; KKp6; KKp7;
  KKp8; KKp9; KKp0; KKpPeriod; KLCtrl; KLGui; KLAlt; KSpace; KRGui; KRAlt; KApps; KRCtrl; KLShift; KCapsLock;
  KTab; KBackspace; KEnter; KRShift; KNum1; KNum2; KNum3; KNum4; KNum5; KNum6; KNum7; KNum8; KNum9; KNum0; KA;
  KB; KC; KD; KE; KF; KG; KH; KI; KJ; KK; KL; KM; KN; KO; KP; KQ; KR; KS; KT; KU; KV; KW; KX; KY; KZ;
  KBacktick; KSubtract; KEqual; KBracketLeft; KBracketRight; KBackslash; KSemicolon; KQuote; KComma; KPeriod;
  KSlash; KHankakuZenkaku; KMuhenkan; KHenkan; KKatakanaHiragana; KYen; KRoUnderscore].

Lemma all_keys_lookup (k : KeyCode) : all_keys !! key_num k = Some k.
Proof. by destruct k. Qed.

#[export] Instance key_num_inj : Inj (=) (=) key_num.
Proof. intros k1 k2 Hk. apply Some_inj. by rewrite <- !all_keys_lookup, Hk. Qed.

#[export] Instance KeyCode_eq_dec : EqDecision KeyCode.
Proof.
  refine (fun k1 k2 => cast_if (decide (key_num k1 = key_num k2))); [|congruence].
  by apply (inj key_num).
Defined.
#[export] Instance ScanCode_eq_dec : EqDecision ScanCode.
Proof. solve_decision. Defined.
#[export] Instance KeyState_eq_dec : EqDecision KeyState.
Proof. solve_decision. Defined.

(** ** Tables *)

(** Every entry of the table of codes belongs to a key of the map with that code. *)
Lemma foldl_insert_lookup {K A} `{Countable K} (f : gmap K A -> A -> gmap K A) (P : K -> A -> Prop) (l : list A) :
  (forall map x k y, f map x !! k = Some y -> map !! k = Some y \/ (y = x /\ P k x)) ->
  forall k y, foldl f ∅ l !! k = Some y -> y ∈ l /\ P k y.
Proof.
  intros Hf. assert (forall map, (forall k y, foldl f map l !! k = Some y -> map !! k = Some y \/ (y ∈ l /\ P k y)))
    as Hgen; [|by intros k y [|]%Hgen].
  induction l as [|x l IH]; intros map k y; simpl; [by left|].
  intros [Hm|[Hin HP]]%IH; [|right; split; [set_solver|done]].
  destruct (Hf _ _ _ _ Hm) as [|[-> HP]]; [by left|right; split; [set_solver|done]].
Qed.

Lemma to_ps2_map_lookup (m : KeyMap) (code : list Z) (sc : ScanCode) :
  to_ps2_map m !! code = Some sc ->
  sc ∈ scan_codes m /\ (ps2_scan_code_pressed sc = code \/ ps2_scan_code_released sc = code).
Proof.
  revert code sc. apply foldl_insert_lookup. intros map x k y. unfold insert_ps2.
  rewrite lookup_insert_Some. intros [[<- <-]|[_ Hl]]; [by right; eauto|].
  apply lookup_insert_Some in Hl as [[<- <-]|[_ Hl]]; [by right; eauto|by left].
Qed.

Lemma to_usb_hid_map_lookup (m : KeyMap) (id : Z) (sc : ScanCode) :
  to_usb_hid_map m !! id = Some sc -> sc ∈ scan_codes m /\ usb_hid_usage_id sc = id.
Proof.
  revert id sc. apply (foldl_insert_lookup _ (fun k x => usb_hid_usage_id x = k)). intros map x k y.
  rewrite lookup_insert_Some. intros [[<- <-]|[_ Hl]]; [by right; eauto|by left].
Qed.

(** ** Events *)

Definition press (sc : ScanCode) (mods : ModifierKeysState) : KeyEvent :=
  MkKeyEvent (key_code sc) Pressed (key_char mods sc).

(** [key_event_from_ps2] without the case that cannot arise. *)
Lemma key_event_from_ps2_cases (m : KeyMap) (code : list Z) (mods : ModifierKeysState) :
  key_event_from_ps2 (to_ps2_map m) code mods
  = match to_ps2_map m !! code with
    | None => (Ok None, mods)
    | Some sc =>
        if bool_decide (ps2_scan_code_pressed sc = code)
        then (Ok (Some (press sc (set_modifier (key_code sc) true mods))), set_modifier (key_code sc) true mods)
        else (Ok None, set_modifier (key_code sc) false mods)
    end.
Proof.
  unfold key_event_from_ps2. destruct (to_ps2_map m !! code) as [sc|] eqn:Hl; [|done].
  apply to_ps2_map_lookup in Hl as [_ Hl]. case_bool_decide; [done|].
  destruct Hl as [|Hl]; [done|]. by rewrite (bool_decide_true _ Hl).
Qed.

(** ** The driver as a decoder of bytes

    The collected bytes are a list of at most six; the rest of the code is zeros. *)

Definition pad6 (bs : list Z) : list Z := bs ++ replicate (6 - length bs) 0.
Definition collected (bs : list Z) : list (option Z) := (Some <$> bs) ++ replicate (6 - length bs) None.
Definition collect (bs : list Z) (b : Z) : list Z := if (length bs <? 6)%nat then bs ++ [b] else [b].

Abbreviation decoder := (ModifierKeysState * list Z)%type.

Definition decode_byte (m : KeyMap) (b : Z) (st : decoder) : option KeyEvent * decoder :=
  let bs := collect (snd st) b in
  match to_ps2_map m !! pad6 bs with
  | None => (None, (fst st, bs))
  | Some sc =>
      let mods := set_modifier (key_code sc) (bool_decide (ps2_scan_code_pressed sc = pad6 bs)) (fst st) in
      if bool_decide (ps2_scan_code_pressed sc = pad6 bs) then (Some (press sc mods), (mods, []))
      else (None, (mods, bs))
  end.

Fixpoint decode (m : KeyMap) (bytes : list Z) (st : decoder) : list KeyEvent * decoder :=
  match bytes with
  | [] => ([], st)
  | b :: bytes => let '(e, st) := decode_byte m b st in
                  let '(es, st) := decode m bytes st in (option_list e ++ es, st)
  end.

(** A run of interrupts and polls. *)
Inductive kbd_op := KbdInt (b : Z) | KbdPoll.

Definition kbd_exec (o : kbd_op) d : Result (option KeyEvent) * Ps2KeyboardDriver :=
  match o with
  | KbdInt b => let '(r, d) := kbd_poll_int b d in (let? _ := r in Ok None, d)
  | KbdPoll => kbd_poll_normal d
  end.

Definition spec_kbd_exec (m : KeyMap) (o : kbd_op) (s : list Z * decoder) : Result (option KeyEvent) * (list Z * decoder) :=
  let '(q, st) := s in
  match o, q with
  | KbdInt b, _ => (Ok None, (if (length q <? 127)%nat then q ++ [b] else [b], st))
  | KbdPoll, [] => (Err (error_into BufferEmpty), (q, st))
  | KbdPoll, b :: q => let '(e, st) := decode_byte m b st in (Ok e, (q, st))
  end.

Fixpoint run_ops {S} (exec : kbd_op -> S -> Result (option KeyEvent) * S) (ops : list kbd_op) (s : S)
    : list (Result (option KeyEvent)) * S :=
  match ops with
  | [] => ([], s)
  | o :: ops => let '(r, s) := exec o s in let '(rs, s) := run_ops exec ops s in (r :: rs, s)
  end.

Record kbd_rel d (q : list Z) (st : decoder) : Prop := {
  kr_attached : attached d = true;
  kr_cache : key_map_cache d = Some (to_ps2_map (key_map d));
  kr_mods : mod_keys_state d = fst st;
  kr_wf : fifo_wf (data_buf d);
  kr_size : fifo_size (data_buf d) = 128;
  kr_queue : fifo_abs (data_buf d) = q;
  kr_data : kbd_data d = collected (snd st);
  kr_len : (length (snd st) <= 6)%nat
}.

Lemma collected_code (bs : list Z) : default 0 <$> collected bs = pad6 bs.
Proof.
  unfold collected, pad6. rewrite fmap_app, fmap_replicate. f_equal.
  induction bs; simpl; [done|by f_equal].
Qed.

Lemma put_byte_collected d b (bs : list Z) :
  kbd_data d = collected bs -> (length bs <= 6)%nat -> kbd_data (put_byte b d) = collected (collect bs b).
Proof.
  intros Hd Hl. unfold put_byte, clear_data. rewrite Hd.
  do 7 (destruct bs as [|? bs]; [done|]). simpl in Hl. lia.
Qed.

Lemma collected_clear (bs : list Z) :
  (length bs <= 6)%nat -> (fun _ => None) <$> collected bs = collected [].
Proof. intros Hl. do 7 (destruct bs as [|? bs]; [done|]). simpl in Hl. lia. Qed.

Lemma put_byte_frame d b : exists l, put_byte b d = set_data l d.
Proof. unfold put_byte. destruct (list_find _ _) as [[i ?]|]; eauto. Qed.

Lemma collect_len (bs : list Z) b : (length bs <= 6)%nat -> (length (collect bs b) <= 6)%nat.
Proof. unfold collect. destruct (Nat.ltb_spec (length bs) 6); rewrite ?length_app; simpl; lia. Qed.

Lemma on_buf_exec {A} (c : SR (Fifo Z) A) d : on_buf c d = (fst (c (data_buf d)), set_buf (snd (c (data_buf d))) d).
Proof. unfold on_buf. by destruct (c (data_buf d)). Qed.

Lemma data_buf_enqueue (f : Fifo Z) b :
  fifo_wf f -> fifo_size f = 128 ->
  exists f', fifo_wf f' /\ fifo_size f' = 128 /\
  if (length (fifo_abs f) <? 127)%nat then Fifo_enqueue b f = (Ok tt, f') /\ fifo_abs f' = fifo_abs f ++ [b]
  else Fifo_enqueue b f = (Err (error_into BufferFull), f') /\ fifo_abs f' = fifo_abs f.
Proof.
  intros Hwf Hs. destruct (fifo_exec_simulates (OpEnqueue b) f Hwf) as (H1 & H2 & H3).
  simpl in *. destruct (Fifo_enqueue b f) as [r f']. simpl in *. exists f'. split_and!; [done|lia|].
  unfold spec_enqueue in H3. rewrite Hs in H3.
  destruct (Z.ltb_spec (Z.of_nat (length (fifo_abs f))) (128 - 1)), (Nat.ltb_spec (length (fifo_abs f)) 127);
    try lia; naive_solver.
Qed.

Lemma data_buf_dequeue (f : Fifo Z) :
  fifo_wf f -> fifo_size f = 128 ->
  exists f', fifo_wf f' /\ fifo_size f' = 128 /\
  match fifo_abs f with
  | [] => Fifo_dequeue f = (Err (error_into BufferEmpty), f') /\ fifo_abs f' = []
  | b :: q => Fifo_dequeue f = (Ok b, f') /\ fifo_abs f' = q
  end.
Proof.
  intros Hwf Hs. destruct (fifo_exec_simulates OpDequeue f Hwf) as (H1 & H2 & H3).
  simpl in *. destruct (Fifo_dequeue f) as [r f']. simpl in *. exists f'. split_and!; [done|lia|].
  unfold spec_dequeue in H3. destruct (fifo_abs f); naive_solver.
Qed.

(** An interrupt appends its byte; when 127 wait already they are dropped first. *)
Lemma kbd_poll_int_rel d q st b :
  kbd_rel d q st ->
  exists d', kbd_poll_int b d = (Ok tt, d') /\ key_map d' = key_map d
  /\ kbd_rel d' (if (length q <? 127)%nat then q ++ [b] else [b]) st.
Proof.
  intros [Ha Hc Hm Hwf Hs <- Hd Hl]. unfold kbd_poll_int, sbind, sget. rewrite Ha. simpl.
  unfold kbd_input. rewrite on_buf_exec.
  destruct (data_buf_enqueue _ b Hwf Hs) as (f & Hf & Hfs & He).
  destruct (length (fifo_abs (data_buf d)) <? 127)%nat; destruct He as [-> Hq]; simpl.
  - eexists. split; [done|]. by split.
  - rewrite on_buf_exec. simpl.
    destruct (data_buf_enqueue _ b (fifo_reset_wf _ Hf) Hfs) as (f2 & Hf2 & Hfs2 & He2).
    rewrite fifo_reset_abs in He2 by done. destruct He2 as [-> Hq2]. eexists. split; [done|]. by split.
Qed.

(** A poll takes one byte and decodes it. *)
Lemma kbd_poll_normal_rel d q st :
  kbd_rel d q st ->
  exists d', kbd_poll_normal d = (fst (spec_kbd_exec (key_map d) KbdPoll (q, st)), d') /\ key_map d' = key_map d
  /\ kbd_rel d' (fst (snd (spec_kbd_exec (key_map d) KbdPoll (q, st)))) (snd (snd (spec_kbd_exec (key_map d) KbdPoll (q, st)))).
Proof.
  destruct st as [mods bs]. intros [Ha Hc Hm Hwf Hs Hq Hd Hl].
  unfold kbd_poll_normal, kbd_event, sbind, sget, smodify, slift. rewrite Ha. simpl. rewrite on_buf_exec. simpl.
  destruct (data_buf_dequeue _ Hwf Hs) as (f & Hf & Hfs & He). rewrite Hq in He.
  destruct q as [|b q]; destruct He as [-> Hqf]; simpl.
  { eexists. split; [done|]. by split. }
  pose proof (put_byte_collected (set_buf f d) b bs Hd Hl) as Hp.
  destruct (put_byte_frame (set_buf f d) b) as [l Hput]. rewrite Hput in *. simpl in Hp, Hm |- *. subst l.
  rewrite Hc. simpl. rewrite collected_code, key_event_from_ps2_cases. unfold decode_byte. simpl. rewrite Hm.
  pose proof (collect_len bs b Hl).
  destruct (to_ps2_map (key_map d) !! pad6 (collect bs b)) as [sc|] eqn:Hlk; [case_bool_decide|]; simpl.
  all: eexists; split; [reflexivity|split; [reflexivity|split; try done]].
  - by apply collected_clear.
  - simpl. lia.
Qed.

Lemma kbd_run_rel ops d q st :
  kbd_rel d q st ->
  exists d', run_ops kbd_exec ops d = (fst (run_ops (spec_kbd_exec (key_map d)) ops (q, st)), d')
  /\ key_map d' = key_map d
  /\ kbd_rel d' (fst (snd (run_ops (spec_kbd_exec (key_map d)) ops (q, st))))
       (snd (snd (run_ops (spec_kbd_exec (key_map d)) ops (q, st)))).
Proof.
  revert d q st. induction ops as [|o ops IH]; intros d q st Hr; [eexists; by split|].
  assert (exists d', kbd_exec o d = (fst (spec_kbd_exec (key_map d) o (q, st)), d') /\ key_map d' = key_map d
    /\ kbd_rel d' (fst (snd (spec_kbd_exec (key_map d) o (q, st)))) (snd (snd (spec_kbd_exec (key_map d) o (q, st)))))
    as (d1 & He & Hm & Hr1).
  { destruct o as [b|]; [|by apply kbd_poll_normal_rel].
    destruct (kbd_poll_int_rel d q st b Hr) as (d' & Hi & Hk & Hr'). simpl. rewrite Hi. eexists. by split. }
  cbn [run_ops]. rewrite He. destruct (spec_kbd_exec (key_map d) o (q, st)) as [r [q1 st1]]. simpl in *.
  destruct (IH _ _ _ Hr1) as (d2 & He2 & Hm2 & Hr2). rewrite Hm in He2, Hm2, Hr2. rewrite He2.
  destruct (run_ops (spec_kbd_exec (key_map d)) ops (q1, st1)) as [rs s']. exists d2. by split.
Qed.

(** The driver after [attach]. *)
Definition kbd_ready (m : KeyMap) : Ps2KeyboardDriver := snd (kbd_attach (Ok tt) (Ps2KeyboardDriver_new m)).

Lemma kbd_ready_rel (m : KeyMap) : kbd_rel (kbd_ready m) [] (ModifierKeysState_default, []).
Proof. split; done || (simpl; lia). Qed.

(** ** Bytes in, events out *)

Definition op_bytes (ops : list kbd_op) : list Z :=
  flat_map (fun o => match o with KbdInt b => [b] | KbdPoll => [] end) ops.
Definition run_events (rs : list (Result (option KeyEvent))) : list KeyEvent :=
  flat_map (fun r => match r with Ok (Some e) => [e] | _ => [] end) rs.

(** Never more than 127 bytes wait, starting with [n]. *)
Fixpoint never_full (n : nat) (ops : list kbd_op) : bool :=
  match ops with
  | [] => true
  | KbdInt _ :: ops => (n <? 127)%nat && never_full (S n) ops
  | KbdPoll :: ops => never_full (Nat.pred n) ops
  end.

Lemma decode_app m (xs ys : list Z) st :
  decode m (xs ++ ys) st
  = (fst (decode m xs st) ++ fst (decode m ys (snd (decode m xs st))), snd (decode m ys (snd (decode m xs st)))).
Proof.
  revert st. induction xs as [|x xs IH]; intros st; simpl; [by destruct (decode m ys st)|].
  destruct (decode_byte m x st) as [e st1]. rewrite IH.
  destruct (decode m xs st1) as [es st2]. simpl. by rewrite app_assoc.
Qed.

Lemma spec_run_decode m ops q st :
  never_full (length q) ops = true ->
  let '(rs, (q', st')) := run_ops (spec_kbd_exec m) ops (q, st) in
  fst (decode m (q ++ op_bytes ops) st) = run_events rs ++ fst (decode m q' st').
Proof.
  revert q st. induction ops as [|o ops IH]; intros q st Hn; simpl; [by rewrite app_nil_r|].
  destruct o as [b|]; simpl in Hn.
  - apply andb_prop in Hn as [Hb Hn]. simpl. rewrite Hb.
    specialize (IH (q ++ [b]) st). rewrite length_app, Nat.add_1_r in IH. specialize (IH Hn).
    destruct (run_ops _ ops _) as [rs [q' st']]. simpl. by rewrite <- IH, <- app_assoc.
  - destruct q as [|b q]; simpl in *.
    + specialize (IH [] st Hn). by destruct (run_ops _ ops _) as [rs [q' st']].
    + destruct (decode_byte m b st) as [e st1] eqn:He. specialize (IH q st1 Hn).
      destruct (run_ops _ ops _) as [rs [q' st']]. simpl. destruct (decode m (q ++ _) st1) as [es st2].
      simpl in *. rewrite IH. destruct e; simpl; done.
Qed.

(** What the driver returns over a run that never fills the buffer and ends with it
    empty is the decoding of the bytes of the interrupts. *)
Lemma kbd_run_decode m ops :
  never_full 0 ops = true ->
  fifo_abs (data_buf (snd (run_ops kbd_exec ops (kbd_ready m)))) = [] ->
  run_events (fst (run_ops kbd_exec ops (kbd_ready m)))
  = fst (decode m (op_bytes ops) (ModifierKeysState_default, [])).
Proof.
  intros Hn. destruct (kbd_run_rel ops _ _ _ (kbd_ready_rel m)) as (d' & He & _ & Hr). rewrite He. simpl in *.
  pose proof (spec_run_decode m ops [] (ModifierKeysState_default, []) Hn) as Hd.
  destruct (run_ops (spec_kbd_exec m) ops _) as [rs [q' st']]. simpl in *.
  rewrite (kr_queue _ _ _ Hr). intros ->. rewrite Hd. simpl. by rewrite app_nil_r.
Qed.

(** The bytes of a code: the zeros at the end are padding. *)
Fixpoint strip0 (l : list Z) : list Z :=
  match l with
  | [] => []
  | x :: l => match strip0 l with [] => if x =? 0 then [] else [x] | r => x :: r end
  end.

Definition press_bytes (sc : ScanCode) : list Z := strip0 (ps2_scan_code_pressed sc).
Definition release_bytes (sc : ScanCode) : list Z := strip0 (ps2_scan_code_released sc).

(** The press code of [sc] is its own and no proper prefix of it is a code. *)
Definition recognised (m : KeyMap) (sc : ScanCode) : bool :=
  let bs := press_bytes sc in
  negb (bool_decide (bs = [])) && (length bs <=? 6)%nat && bool_decide (pad6 bs = ps2_scan_code_pressed sc)
  && bool_decide (to_ps2_map m !! pad6 bs = Some sc)
  && forallb (fun i => bool_decide (to_ps2_map m !! pad6 (take i bs) = None)) (seq 1 (length bs - 1)).

Fixpoint press_events (scs : list ScanCode) (mods : ModifierKeysState) : list KeyEvent :=
  match scs with
  | [] => []
  | sc :: scs => let mods := set_modifier (key_code sc) true mods in press sc mods :: press_events scs mods
  end.

Lemma collect_short (bs : list Z) b : (length bs < 6)%nat -> collect bs b = bs ++ [b].
Proof. intros H. unfold collect. by rewrite (proj2 (Nat.ltb_lt _ _) H). Qed.

Lemma decode_suffix m sc (suf : list Z) : forall pre mods,
  suf <> [] -> (length (pre ++ suf) <= 6)%nat ->
  ps2_scan_code_pressed sc = pad6 (pre ++ suf) -> to_ps2_map m !! pad6 (pre ++ suf) = Some sc ->
  (forall i, (length pre < i < length (pre ++ suf))%nat -> to_ps2_map m !! pad6 (take i (pre ++ suf)) = None) ->
  decode m suf (mods, pre)
  = ([press sc (set_modifier (key_code sc) true mods)], (set_modifier (key_code sc) true mods, [])).
Proof.
  induction suf as [|b suf IH]; intros pre mods Hne Hl Hp Hm Hi; [done|]. simpl.
  unfold decode_byte. simpl. rewrite length_app in Hl. simpl in Hl. rewrite collect_short by lia.
  destruct suf as [|b2 suf]; [by rewrite Hm, bool_decide_true|].
  pose proof (Hi (S (length pre))) as Hpre.
  change (b :: b2 :: suf) with ([b] ++ b2 :: suf) in Hpre. rewrite app_assoc in Hpre.
  rewrite take_app_length' in Hpre by (rewrite length_app; simpl; lia).
  rewrite Hpre by (rewrite !length_app; simpl; lia).
  rewrite (IH (pre ++ [b]) mods); [done|done|..]; rewrite <- ?app_assoc; simpl; try done.
  - rewrite length_app. simpl in *. lia.
  - intros i Hr. apply Hi. rewrite length_app in Hr. simpl in Hr. lia.
Qed.

Lemma decode_press m sc mods :
  recognised m sc = true ->
  decode m (press_bytes sc) (mods, [])
  = ([press sc (set_modifier (key_code sc) true mods)], (set_modifier (key_code sc) true mods, [])).
Proof.
  unfold recognised. intros H. repeat (apply andb_prop in H as [H ?]).
  apply negb_true_iff, bool_decide_eq_false in H.
  rewrite Nat.leb_le in *. rewrite !bool_decide_eq_true in *.
  apply decode_suffix; simpl; try done. intros i Hi.
  match goal with Hf : forallb _ _ = true |- _ => rewrite forallb_forall in Hf; specialize (Hf i) as Hpre end.
  rewrite bool_decide_eq_true, in_seq in Hpre. apply Hpre. lia.
Qed.

Lemma decode_presses m scs mods :
  forallb (recognised m) scs = true ->
  fst (decode m (flat_map press_bytes scs) (mods, [])) = press_events scs mods.
Proof.
  revert mods. induction scs as [|sc scs IH]; intros mods; simpl; [done|].
  intros [Hsc H]%andb_prop. by rewrite decode_app, (decode_press m sc mods Hsc), <- IH.
Qed.

Definition is_kernel_map (m : KeyMap) : Prop := m = JIS_JP_109_KEY_MAP \/ m = ANSI_US_104_KEY_MAP.

Definition not_print_screen (sc : ScanCode) : bool := negb (bool_decide (key_code sc = KPrintScreen)).

Lemma kernel_maps_recognised m sc :
  is_kernel_map m -> sc ∈ scan_codes m -> not_print_screen sc = true -> recognised m sc = true.
Proof.
  intros Hm Hin Hp.
  assert (forallb (fun sc => implb (not_print_screen sc) (recognised m sc)) (scan_codes m) = true) as Hall
    by (destruct Hm as [-> | ->]; vm_compute; reflexivity).
  rewrite forallb_forall in Hall. specialize (Hall sc (proj1 (list_elem_of_In _ _) Hin)). by rewrite Hp in Hall.
Qed.

(** ** After a release

    A release of a one-byte key at the start of the collected bytes stays there. *)

Definition one_byte (sc : ScanCode) : bool :=
  match press_bytes sc, release_bytes sc with [_], [_] => true | _, _ => false end.
Definition type_key (sc : ScanCode) : list Z := press_bytes sc ++ release_bytes sc.

Definition extends (r : Z) (code : list Z) : bool :=
  match code with x :: y :: _ => (x =? r) && negb (y =? 0) | _ => false end.

(** No code starts with the release byte of a one-byte key and goes on, and that
    byte alone is no press code. *)
Definition release_isolated (m : KeyMap) (r : Z) : bool :=
  forallb (fun sc => negb (extends r (ps2_scan_code_pressed sc)) && negb (extends r (ps2_scan_code_released sc))
                     && negb (bool_decide (ps2_scan_code_pressed sc = pad6 [r]))) (scan_codes m).

Definition one_byte_ok (m : KeyMap) (sc : ScanCode) : bool :=
  match press_bytes sc, release_bytes sc with
  | [p], [r] => recognised m sc && negb (p =? 0) && negb (r =? 0) && release_isolated m r
  | _, _ => true
  end.

Lemma kernel_maps_one_byte m sc :
  is_kernel_map m -> sc ∈ scan_codes m -> one_byte sc = true ->
  exists p r, press_bytes sc = [p] /\ release_bytes sc = [r] /\ p <> 0 /\ r <> 0
  /\ recognised m sc = true /\ release_isolated m r = true.
Proof.
  intros Hm Hin. assert (forallb (one_byte_ok m) (scan_codes m) = true) as Hall
    by (destruct Hm as [-> | ->]; vm_compute; reflexivity).
  rewrite forallb_forall in Hall. specialize (Hall sc (proj1 (list_elem_of_In _ _) Hin)).
  unfold one_byte, one_byte_ok in *. destruct (press_bytes sc) as [|p [|]]; try done.
  destruct (release_bytes sc) as [|r [|]]; try done. intros _. exists p, r.
  do 3 (apply andb_prop in Hall as [Hall ?]). rewrite negb_true_iff, Z.eqb_neq in *. by split_and!.
Qed.

Lemma isolated_lookup m r y (l : list Z) :
  release_isolated m r = true -> y <> 0 -> to_ps2_map m !! (r :: y :: l) = None.
Proof.
  intros Hr Hy. destruct (to_ps2_map m !! (r :: y :: l)) as [sc|] eqn:Hl; [|done].
  apply to_ps2_map_lookup in Hl as [Hin Hc]. unfold release_isolated in Hr. rewrite forallb_forall in Hr.
  specialize (Hr sc (proj1 (list_elem_of_In _ _) Hin)). apply Z.eqb_neq in Hy.
  repeat (apply andb_prop in Hr as [Hr ?]).
  destruct Hc as [Hc|Hc]; rewrite Hc in *; unfold extends in *; rewrite Z.eqb_refl, Hy in *; done.
Qed.

(** The stuck decoder: an odd number of bytes, the first one an isolated release. *)
Definition stuck (m : KeyMap) (bs : list Z) : Prop :=
  exists r tl, bs = r :: tl /\ release_isolated m r = true /\ Forall (fun b => b <> 0) tl
               /\ (length tl = 0 \/ length tl = 2 \/ length tl = 4)%nat.

Lemma decode_stuck_byte m r y (tl : list Z) b mods :
  release_isolated m r = true -> y <> 0 -> (length tl < 4)%nat ->
  decode_byte m b (mods, r :: y :: tl) = (None, (mods, r :: y :: tl ++ [b])).
Proof.
  intros Hr Hy Hl. unfold decode_byte. simpl. rewrite collect_short by (simpl; lia).
  unfold pad6. simpl. by rewrite (isolated_lookup m r y).
Qed.

Lemma decode_lone_release m (bs : list Z) r mods :
  release_isolated m r = true -> length bs = 6%nat ->
  exists mods', decode_byte m r (mods, bs) = (None, (mods', [r])).
Proof.
  intros Hr Hl. unfold decode_byte, collect. simpl. rewrite Hl. simpl.
  destruct (to_ps2_map m !! pad6 [r]) as [sc|] eqn:Hm; [|by eexists].
  apply to_ps2_map_lookup in Hm as [Hin _]. unfold release_isolated in Hr. rewrite forallb_forall in Hr.
  specialize (Hr sc (proj1 (list_elem_of_In _ _) Hin)). repeat (apply andb_prop in Hr as [Hr ?]).
  rewrite negb_true_iff, bool_decide_eq_false in *. rewrite bool_decide_eq_false_2 by done. by eexists.
Qed.

Lemma decode_stuck_key m sc mods (bs : list Z) :
  is_kernel_map m -> sc ∈ scan_codes m -> one_byte sc = true -> stuck m bs ->
  exists st, decode m (type_key sc) (mods, bs) = ([], st) /\ stuck m (snd st).
Proof.
  intros Hm Hin Hsc (r & tl & -> & Hr & Htl & Hlen).
  destruct (kernel_maps_one_byte m sc Hm Hin Hsc) as (p & r' & Hp & Hr' & Hp0 & Hr0 & _ & Hiso).
  unfold type_key. rewrite Hp, Hr'. simpl.
  assert (decode_byte m p (mods, r :: tl) = (None, (mods, r :: tl ++ [p]))) as Hdp.
  { destruct tl as [|y tl].
    - unfold decode_byte. simpl. rewrite collect_short by (simpl; lia).
      unfold pad6. simpl. by rewrite (isolated_lookup m r p).
    - inversion Htl; subst. apply decode_stuck_byte; [done..|]. simpl in Hlen. lia. }
  rewrite Hdp. simpl. destruct (decide (length tl = 4)%nat) as [H4|H4].
  - destruct (decode_lone_release m (r :: tl ++ [p]) r' mods Hiso) as [mods' ->];
      [simpl; rewrite length_app; simpl; lia|].
    eexists. split; [done|]. exists r', []. simpl. split_and!; [done..|lia].
  - assert (exists y tl', tl ++ [p] = y :: tl' /\ y <> 0 /\ (length tl' < 4)%nat) as (y & tl' & Htp & Hy & Hl').
    { destruct tl as [|y tl]; [exists p, []; simpl; split_and!; [done..|lia]|].
      inversion Htl; subst. exists y, (tl ++ [p]). rewrite length_app. simpl in *. split_and!; [done..|lia]. }
    rewrite Htp. rewrite decode_stuck_byte by done. eexists. split; [done|]. exists r, ((y :: tl') ++ [r']).
    split; [done|]. rewrite <- Htp. split_and!; [done| |rewrite !length_app; simpl; lia].
    rewrite !Forall_app. split_and!; [done|by repeat constructor..].
Qed.

Lemma decode_stuck m scs mods (bs : list Z) :
  is_kernel_map m -> Forall (fun sc => sc ∈ scan_codes m /\ one_byte sc = true) scs -> stuck m bs ->
  fst (decode m (flat_map type_key scs) (mods, bs)) = [].
Proof.
  intros Hm Hscs. revert mods bs. induction Hscs as [|sc scs [Hin Hsc] _ IH]; intros mods bs Hs; [done|].
  destruct (decode_stuck_key m sc mods bs Hm Hin Hsc Hs) as ([mods' bs'] & Hd & Hs'). simpl.
  rewrite decode_app, Hd. simpl. by apply IH.
Qed.

Lemma decode_first_only m sc scs mods :
  is_kernel_map m -> Forall (fun sc => sc ∈ scan_codes m /\ one_byte sc = true) (sc :: scs) ->
  fst (decode m (flat_map type_key (sc :: scs)) (mods, [])) = [press sc (set_modifier (key_code sc) true mods)].
Proof.
  intros Hm [[Hin Hsc] Hscs]%Forall_cons.
  destruct (kernel_maps_one_byte m sc Hm Hin Hsc) as (p & r & Hp & Hr & _ & _ & Hrec & Hiso).
  simpl. unfold type_key at 1. rewrite Hr, <- !app_assoc, decode_app, (decode_press m sc mods Hrec), decode_app.
  destruct (decode_lone_release m [0; 0; 0; 0; 0; 0] r (set_modifier (key_code sc) true mods) Hiso eq_refl)
    as [mods' Hd]. simpl.
  assert (decode_byte m r (set_modifier (key_code sc) true mods, []) = (None, (mods', [r]))) as ->
    by (rewrite <- Hd; done).
  simpl. rewrite (decode_stuck m scs mods' [r]); [done..|].
  exists r, []. simpl. split_and!; [done..|lia].
Qed.

(** ** Properties *)

(** C29: over every sequence of interrupts and polls an attached PS/2 driver returns what
    a queue of 127 bytes in front of a decoder returns: a poll takes the oldest byte
    and gives its event ([BufferEmpty] when there is none), an interrupt that finds the
    queue full drops what waits, and nothing panics, the [unreachable!] of
    [key_event_from_ps2] and the [unwrap] of the code table included. *)
Theorem kbd_refines_decoder (m : KeyMap) (ops : list kbd_op) :
  fst (run_ops kbd_exec ops (kbd_ready m))
  = fst (run_ops (spec_kbd_exec m) ops ([], (ModifierKeysState_default, [])))
  /\ Panic ∉ fst (run_ops kbd_exec ops (kbd_ready m)).
Proof.
  destruct (kbd_run_rel ops _ _ _ (kbd_ready_rel m)) as (d' & He & _ & _). rewrite He. split; [done|]. simpl.
  generalize (@nil Z, (ModifierKeysState_default, @nil Z)). clear.
  induction ops as [|o ops IH]; intros s; [set_solver|]. cbn [run_ops].
  assert (fst (spec_kbd_exec m o s) <> Panic) as Hnp.
  { destruct s as [q st], o as [|], q as [|x q]; simpl; try done. by destruct (decode_byte m x st). }
  destruct (spec_kbd_exec m o s) as [r s']. specialize (IH s').
  destruct (run_ops (spec_kbd_exec m) ops s') as [rs s'']. simpl in *.
  by apply not_elem_of_cons.
Qed.

(** C30: on both key maps of the kernel, the keys pressed one after another, PrintScreen
    excepted, come back as exactly their press events, in order, each with the character
    that the modifiers pressed so far select; however the interrupts for the bytes and
    the polls interleave, as long as at most 127 bytes wait and the last poll empties
    the buffer. *)
Theorem pressed_keys_decoded (m : KeyMap) (scs : list ScanCode) (ops : list kbd_op) :
  is_kernel_map m ->
  Forall (fun sc => sc ∈ scan_codes m /\ not_print_screen sc = true) scs ->
  op_bytes ops = flat_map press_bytes scs ->
  never_full 0 ops = true ->
  fifo_abs (data_buf (snd (run_ops kbd_exec ops (kbd_ready m)))) = [] ->
  run_events (fst (run_ops kbd_exec ops (kbd_ready m))) = press_events scs ModifierKeysState_default.
Proof.
  intros Hm Hscs Hb Hn Hq. rewrite (kbd_run_decode m ops Hn Hq), Hb. apply decode_presses.
  apply forallb_forall. intros sc Hin. rewrite Forall_forall in Hscs.
  destruct (Hscs sc) as [Hsc Hp]; [by apply list_elem_of_In|]. by apply kernel_maps_recognised.
Qed.

(** C38: the collected bytes are cleared only when a poll returns an event, and a release
    returns none: when keys with one-byte codes are pressed and released one after
    another, the first press is the only event the driver ever returns. *)
Theorem release_blocks_keyboard (m : KeyMap) (sc : ScanCode) (scs : list ScanCode) (ops : list kbd_op) :
  is_kernel_map m ->
  Forall (fun sc => sc ∈ scan_codes m /\ one_byte sc = true) (sc :: scs) ->
  op_bytes ops = flat_map type_key (sc :: scs) ->
  never_full 0 ops = true ->
  fifo_abs (data_buf (snd (run_ops kbd_exec ops (kbd_ready m)))) = [] ->
  run_events (fst (run_ops kbd_exec ops (kbd_ready m)))
  = [press sc (set_modifier (key_code sc) true ModifierKeysState_default)].
Proof.
  intros Hm Hscs Hb Hn Hq. rewrite (kbd_run_decode m ops Hn Hq), Hb. by apply decode_first_only.
Qed.

(** PrintScreen's press code starts with right Ctrl's: it is reported as right Ctrl and
    ScrollLock. *)
Lemma print_screen_misread :
  fst (decode JIS_JP_109_KEY_MAP [0xe0; 0x1d; 0x46; 0x9d; 0xc5] (ModifierKeysState_default, []))
  = [MkKeyEvent KRCtrl Pressed None; MkKeyEvent KScrollLock Pressed None]
  /\ (press_bytes <$> List.find (fun sc => bool_decide (key_code sc = KPrintScreen)) (scan_codes JIS_JP_109_KEY_MAP))
     = Some [0xe0; 0x1d; 0x46; 0x9d; 0xc5].
Proof. split; vm_compute; reflexivity. Qed.

(** Shift, [a] and the right cursor key on the US map, the third byte polled late. *)
Definition sample_keys (codes : list KeyCode) (m : KeyMap) : list ScanCode :=
  flat_map (fun k => List.filter (fun sc => bool_decide (key_code sc = k)) (scan_codes m)) codes.

Definition sample_ops : list kbd_op :=
  [KbdInt 0x2a; KbdPoll; KbdInt 0x1e; KbdInt 0xe0; KbdPoll; KbdInt 0x4d; KbdPoll; KbdPoll; KbdPoll].

Lemma pressed_keys_decoded_witness :
  run_events (fst (run_ops kbd_exec sample_ops (kbd_ready ANSI_US_104_KEY_MAP)))
  = [MkKeyEvent KLShift Pressed None; MkKeyEvent KA Pressed (Some 65); MkKeyEvent KCursorRight Pressed None].
Proof.
  rewrite (pressed_keys_decoded ANSI_US_104_KEY_MAP
             (sample_keys [KLShift; KA; KCursorRight] ANSI_US_104_KEY_MAP) sample_ops).
  - vm_compute. reflexivity.
  - by right.
  - apply Forall_forall. intros sc Hin. revert sc Hin. apply Forall_forall.
    repeat (apply Forall_cons; split; [split; [apply (bool_decide_unpack _); vm_compute; exact I|reflexivity]|]).
    apply Forall_nil; exact I.
  - vm_compute. reflexivity.
  - reflexivity.
  - vm_compute. reflexivity.
Defined.

Lemma release_blocks_keyboard_witness :
  run_events (fst (run_ops kbd_exec
    [KbdInt 0x23; KbdInt 0xa3; KbdPoll; KbdPoll; KbdInt 0x17; KbdPoll; KbdInt 0x97; KbdPoll] (kbd_ready JIS_JP_109_KEY_MAP)))
  = [MkKeyEvent KH Pressed (Some 104)].
Proof.
  rewrite (release_blocks_keyboard JIS_JP_109_KEY_MAP
             (ScanCode_ KH (Some 104) (Some 72) [0x23; 0; 0; 0; 0; 0] [0xa3; 0; 0; 0; 0; 0] 0x0b)
             [ScanCode_ KI (Some 105) (Some 73) [0x17; 0; 0; 0; 0; 0] [0x97; 0; 0; 0; 0; 0] 0x0c]).
  - vm_compute. reflexivity.
  - by left.
  - repeat (apply Forall_cons; split; [split; [apply (bool_decide_unpack _); vm_compute; exact I|reflexivity]|]).
    apply Forall_nil; exact I.
  - vm_compute. reflexivity.
  - reflexivity.
  - vm_compute. reflexivity.
Defined.
