(* ===== verification/Tty.v ===== *)
(** * The terminal ([kernel/src/device/tty.rs]) and what types on it

    The ring buffers of the terminal, its input, output and line operations, and the
    three sources of its input: the PS/2 keyboard ([ps2_keyboard.rs]), the USB HID
    keyboard ([usb/hid_keyboard.rs]) and the serial line ([uart.rs]).  Characters are
    code points.  What [uart::send_data] and [frame_buf_console::write_char] are given
    is recorded in order; their outcome does not matter here, the code ignores it.  The
    HID report and the received byte are arguments.  The locks are free. *)
From Stdlib Require Import ZArith Lia.
From stdpp Require Import base gmap list sorting.
From S2P Require Import Prelude KError Fifo Keyboard.

#[local] Open Scope list_scope.
#[local] Open Scope Z_scope.

(** ** Buffers *)

Definition IO_BUF_LEN : Z := 512.

Inductive BufferType := Input | Output | ErrorOutput.

#[export] Instance BufferType_eq_dec : EqDecision BufferType.
Proof. solve_decision. Defined.

Record Buffer := MkBuffer {
  buf_n : Z;
  buf_chars : list Z;
  buf_head : Z;
  buf_tail : Z;
  buf_full : bool
}.

Definition Buffer_default (N : Z) : Buffer := MkBuffer N (replicate (Z.to_nat N) 0) 0 0 false.

(** [(p + k) % N] *)
Definition buf_step (b : Buffer) (p k : Z) : Result Z :=
  let? s := uadd 64 p k in urem s (buf_n b).

Definition Buffer_push (c : Z) : SR Buffer unit :=
  let! b := sget in
  let! head := (if buf_full b then slift (buf_step b (buf_head b) 1) else sret (buf_head b)) in
  do! sput (MkBuffer (buf_n b) (buf_chars b) head (buf_tail b) (buf_full b)) in
  do! sassert (Z.to_nat (buf_tail b) <? length (buf_chars b))%nat in
  let chars := <[Z.to_nat (buf_tail b) := c]> (buf_chars b) in
  do! sput (MkBuffer (buf_n b) chars head (buf_tail b) (buf_full b)) in
  let! tail := slift (buf_step b (buf_tail b) 1) in
  sput (MkBuffer (buf_n b) chars head tail (tail =? head)).

Definition Buffer_pop_front : SR Buffer (option Z) :=
  let! b := sget in
  if negb (buf_full b) && (buf_head b =? buf_tail b) then sret None
  else
    let! c := slift (idx (buf_chars b) (Z.to_nat (buf_head b))) in
    let! head := slift (buf_step b (buf_head b) 1) in
    do! sput (MkBuffer (buf_n b) (buf_chars b) head (buf_tail b) false) in
    sret (Some c).

Definition Buffer_pop_back : SR Buffer (option Z) :=
  let! b := sget in
  if negb (buf_full b) && (buf_head b =? buf_tail b) then sret None
  else
    let! s := slift (uadd 64 (buf_tail b) (buf_n b)) in
    let! s := slift (usub 64 s 1) in
    let! tail := slift (urem s (buf_n b)) in
    do! sput (MkBuffer (buf_n b) (buf_chars b) (buf_head b) tail (buf_full b)) in
    let! c := slift (idx (buf_chars b) (Z.to_nat tail)) in
    do! sput (MkBuffer (buf_n b) (buf_chars b) (buf_head b) tail false) in
    sret (Some c).

Definition Buffer_len (b : Buffer) : Result Z :=
  if buf_full b then Ok (buf_n b)
  else if buf_head b <=? buf_tail b then usub 64 (buf_tail b) (buf_head b)
  else let? s := uadd 64 (buf_n b) (buf_tail b) in usub 64 s (buf_head b).

Definition Buffer_clear (b : Buffer) : Buffer := MkBuffer (buf_n b) (buf_chars b) 0 0 false.

(** ** The terminal *)

Inductive EscState := EscNormal | Esc | EscBracket.

(** [serial_out] and [console_out] hold what was sent, oldest first. *)
Record Tty := MkTty {
  tty_attached : bool;
  input_buf : Buffer;
  output_buf : Buffer;
  err_output_buf : Buffer;
  use_serial_port : bool;
  is_ready_get_line : bool;
  esc_state : EscState;
  flag_sigint : bool;
  serial_out : list Z;
  console_out : list Z
}.

Implicit Types t : Tty.

Definition Tty_new (serial : bool) : Tty :=
  {| tty_attached := false; input_buf := Buffer_default IO_BUF_LEN; output_buf := Buffer_default IO_BUF_LEN;
     err_output_buf := Buffer_default IO_BUF_LEN; use_serial_port := serial; is_ready_get_line := false;
     esc_state := EscNormal; flag_sigint := false; serial_out := []; console_out := [] |}.

Definition get_buf (ty : BufferType) t : Buffer :=
  match ty with Input => input_buf t | Output => output_buf t | ErrorOutput => err_output_buf t end.
Definition put_buf (ty : BufferType) (b : Buffer) t : Tty :=
  MkTty (tty_attached t) (if bool_decide (ty = Input) then b else input_buf t)
    (if bool_decide (ty = Output) then b else output_buf t)
    (if bool_decide (ty = ErrorOutput) then b else err_output_buf t)
    (use_serial_port t) (is_ready_get_line t) (esc_state t) (flag_sigint t) (serial_out t) (console_out t).
Definition set_line_ready (r : bool) t : Tty :=
  MkTty (tty_attached t) (input_buf t) (output_buf t) (err_output_buf t) (use_serial_port t) r
    (esc_state t) (flag_sigint t) (serial_out t) (console_out t).
Definition set_esc (e : EscState) t : Tty :=
  MkTty (tty_attached t) (input_buf t) (output_buf t) (err_output_buf t) (use_serial_port t) (is_ready_get_line t)
    e (flag_sigint t) (serial_out t) (console_out t).
Definition set_sigint (f : bool) t : Tty :=
  MkTty (tty_attached t) (input_buf t) (output_buf t) (err_output_buf t) (use_serial_port t) (is_ready_get_line t)
    (esc_state t) f (serial_out t) (console_out t).
Definition send (serial console : list Z) t : Tty :=
  MkTty (tty_attached t) (input_buf t) (output_buf t) (err_output_buf t) (use_serial_port t) (is_ready_get_line t)
    (esc_state t) (flag_sigint t) (serial_out t ++ serial) (console_out t ++ console).

Definition with_buf {A} (ty : BufferType) (c : SR Buffer A) : SR Tty A := fun t =>
  let '(r, b) := c (get_buf ty t) in (r, put_buf ty b t).

(** ['\x08' | '\x7f'] *)
Definition is_erase (c : Z) : bool := (c =? 0x08) || (c =? 0x7f).

(** The bytes that [write] sends over the serial line. *)
Definition serial_bytes (c : Z) : list Z :=
  let data := if is_erase c then 0x08 else c mod 256 in
  if data =? 0x08 then [data; 0x20; data] else [data].

Definition tty_write (c : Z) (ty : BufferType) : SR Tty unit :=
  do! (if is_erase c then do! with_buf ty Buffer_pop_back in sret tt else with_buf ty (Buffer_push c)) in
  let! t := sget in
  if bool_decide (ty <> Input)
  then smodify (send (if use_serial_port t then serial_bytes c else []) [c])
  else sret tt.

(** The [loop] of [line]: [s] is the string so far; [n] rounds at most. *)
Fixpoint line_loop (n : nat) (ty : BufferType) (s : list Z) : SR Tty (list Z) :=
  match n with
  | O => spanic
  | S n =>
      let! c := with_buf ty Buffer_pop_front in
      match c with
      | Some c => line_loop n ty (if is_erase c then removelast s else s ++ [c])
      | None => sret s
      end
  end.

(** Every round but the last takes a character out, and [IO_BUF_LEN] are there at most. *)
Definition tty_line (ty : BufferType) : SR Tty (list Z) := line_loop (S (Z.to_nat IO_BUF_LEN)) ty [].

Definition tty_char (ty : BufferType) : SR Tty (option Z) :=
  let! c := with_buf ty Buffer_pop_front in
  do! (if bool_decide (ty = Input) && bool_decide (c = Some 0x0a) then smodify (set_line_ready false) else sret tt) in
  sret c.

Definition tty_input_count t : Result Z := Buffer_len (input_buf t).

Definition clear_input t : Tty := set_line_ready false (put_buf Input (Buffer_clear (input_buf t)) t).

(** The new escape state, and whether the character is echoed. *)
Definition esc_step (e : EscState) (c : Z) : EscState * bool :=
  match e with
  | EscNormal => if c =? 0x1b then (Esc, false) else (EscNormal, true)
  | Esc => (if c =? 0x5b then EscBracket else EscNormal, false)
  | EscBracket => (EscNormal, false)
  end.

Definition input_char (c : Z) : SR Tty unit :=
  if is_erase c then
    do! with_buf Input (Buffer_push c) in
    signore (tty_write 0x08 Output)
  else
    do! with_buf Input (Buffer_push c) in
    do! (if c =? 0x0a then smodify (set_line_ready true) else sret tt) in
    let! t := sget in
    let '(e, echo) := esc_step (esc_state t) c in
    do! smodify (set_esc e) in
    if echo then signore (tty_write c Output) else sret tt.

(** [write_str] of a string and [write] of bytes: every character to the output. *)
Definition tty_write_all (cs : list Z) : SR Tty unit := sfor cs (fun c => tty_write c Output).

(** The functions of the module. *)

Definition tty_attach (registered : Result unit) : SR Tty unit := fun t =>
  match registered with
  | Ok _ => (Ok tt, MkTty true (input_buf t) (output_buf t) (err_output_buf t) (use_serial_port t)
                      (is_ready_get_line t) (esc_state t) (flag_sigint t) (serial_out t) (console_out t))
  | Err e => (Err e, t)
  | Panic => (Panic, t)
  end.

Definition input (c : Z) : SR Tty unit :=
  if c =? 0x03 then
    do! smodify (set_sigint true) in
    smodify clear_input
  else input_char (if c =? 0x0d then 0x0a else c).

(** Whether [exit_current(-1)] is called. *)
Definition check_sigint : SR Tty bool :=
  let! t := sget in
  do! sput (set_sigint false t) in
  sret (flag_sigint t).

Definition line : SR Tty (option (list Z)) :=
  let! t := sget in
  if is_ready_get_line t then
    do! sput (set_line_ready false t) in
    let! s := tty_line Input in
    sret (Some s)
  else sret None.

Definition char : SR Tty (option Z) := tty_char Input.

(** ** Sources of input *)

(** What a key event types: an escape sequence for a cursor key. *)
Definition type_event (e : KeyEvent) : SR Tty unit :=
  match ev_code e with
  | KCursorUp => do! input 0x1b in do! input 0x5b in input 0x41
  | KCursorDown => do! input 0x1b in do! input 0x5b in input 0x42
  | KCursorRight => do! input 0x1b in do! input 0x5b in input 0x43
  | KCursorLeft => do! input 0x1b in do! input 0x5b in input 0x44
  | _ => match ev_c e with Some c => input c | None => sret tt end
  end.

(** [ps2_keyboard::poll_normal] *)
Definition ps2_poll_normal : SR (Ps2KeyboardDriver * Tty) unit := fun '(d, t) =>
  let '(r, d) := kbd_poll_normal d in
  match r with
  | Ok (Some e) => let '(r, t) := type_event e t in (r, (d, t))
  | Ok None => (Ok tt, (d, t))
  | Err e => (Err e, (d, t))
  | Panic => (Panic, (d, t))
  end.

(** [uart::poll_normal]: [received] is what [receive_data] gives. *)
Definition uart_poll_normal (uart_attached : bool) (received : option Z) : SR Tty unit :=
  if negb uart_attached then serr (error_into NotInitialized)
  else match received with Some data => input data | None => sret tt end.

(** [BTreeSet<u8>] as a sorted list without duplicates. *)
Fixpoint set_insert (x : Z) (l : list Z) : list Z :=
  match l with
  | [] => [x]
  | y :: l' => if x <? y then x :: l else if x =? y then l else y :: set_insert x l'
  end.
Definition set_of (l : list Z) : list Z := foldr set_insert [] l.
Definition set_mem (x : Z) (l : list Z) : bool := existsb (Z.eqb x) l.
Definition symmetric_difference (a b : list Z) : list Z :=
  set_of (List.filter (fun x => negb (set_mem x b)) a ++ List.filter (fun x => negb (set_mem x a)) b).

Record UsbHidKeyboardDriver := MkHid {
  hid_key_map : gmap Z ScanCode;
  hid_mods : ModifierKeysState;
  prev_pressed : list Z
}.

Definition UsbHidKeyboardDriver_new (m : KeyMap) : UsbHidKeyboardDriver :=
  MkHid (to_usb_hid_map m) ModifierKeysState_default [].

Definition report_mods (report : list Z) : ModifierKeysState :=
  let modifier := default 0 (report !! 0%nat) in
  let bit mask := negb (Z.land modifier mask =? 0) in
  {| ctrl := bit 0x01 || bit 0x10; shift := bit 0x02 || bit 0x20;
     alt := bit 0x04 || bit 0x40; gui := bit 0x08 || bit 0x80 |}.

(** One round of the [for] loop of [poll]. *)
Definition hid_key (m : gmap Z ScanCode) (mods : ModifierKeysState) (pressed : list Z) (id : Z) : SR Tty unit :=
  let key_state := if set_mem id pressed then Pressed else Released in
  let! e := slift (key_event_from_usb_hid m mods key_state id) in
  match e with
  | Some e => if bool_decide (ev_state e = Pressed) then type_event e else sret tt
  | None => sret tt
  end.

(** [report] is what [xhc.hid_report] returns. *)
Definition hid_poll (report : Result (list Z)) : SR (UsbHidKeyboardDriver * Tty) unit := fun '(d, t) =>
  match report with
  | Ok report =>
      let mods := report_mods report in
      let d := MkHid (hid_key_map d) mods (prev_pressed d) in
      let pressed := set_of (List.filter (fun id => negb (id =? 0)) (drop 2 report)) in
      match sfor (symmetric_difference pressed (prev_pressed d)) (hid_key (hid_key_map d) mods pressed) t with
      | (Ok _, t) => (Ok tt, (MkHid (hid_key_map d) mods pressed, t))
      | (Err e, t) => (Err e, (d, t))
      | (Panic, t) => (Panic, (d, t))
      end
  | Err e => (Err e, (d, t))
  | Panic => (Panic, (d, t))
  end.

(** * Lemmas *)

(** ** Buffers

    [buf_rep b l]: [b] holds the characters [l], oldest first, from [head] on and round
    the end of the array. *)

Record buf_rep (b : Buffer) (l : list Z) : Prop := {
  br_n : 1 <= buf_n b < 2 ^ 63;
  br_len : Z.of_nat (length (buf_chars b)) = buf_n b;
  br_head : 0 <= buf_head b < buf_n b;
  br_max : Z.of_nat (length l) <= buf_n b;
  br_tail : buf_tail b = (buf_head b + Z.of_nat (length l)) mod buf_n b;
  br_full : buf_full b = (Z.of_nat (length l) =? buf_n b);
  br_chars : forall i x, l !! i = Some x ->
    buf_chars b !! Z.to_nat ((buf_head b + Z.of_nat i) mod buf_n b) = Some x
}.

Lemma ring_pos (h i n : Z) :
  0 <= h < n -> 0 <= i <= n -> (h + i) mod n = if h + i <? n then h + i else h + i - n.
Proof.
  intros Hh Hi. destruct (Z.ltb_spec (h + i) n); [apply Z.mod_small; lia|].
  destruct (Z.eq_dec i n) as [->|].
  - replace (h + n) with (h + 1 * n) by lia. rewrite Z.mod_add, Z.mod_small by lia. lia.
  - replace (h + i) with (h + i - n + 1 * n) at 1 by lia. rewrite Z.mod_add by lia. apply Z.mod_small. lia.
Qed.

(** Turns positions round the ring into linear arithmetic. *)
Ltac ring_lia :=
  rewrite ?ring_pos in * by lia;
  repeat match goal with
  | H : context [if ?x <? ?y then _ else _] |- _ => destruct (Z.ltb_spec x y)
  | |- context [if ?x <? ?y then _ else _] => destruct (Z.ltb_spec x y)
  end; try lia.

Lemma buf_step_ok b (p k : Z) :
  1 <= buf_n b < 2 ^ 63 -> 0 <= p < buf_n b -> 0 <= k <= buf_n b -> buf_step b p k = Ok ((p + k) mod buf_n b).
Proof.
  intros Hn Hp Hk. unfold buf_step, uadd, urem. rewrite (proj2 (Z.ltb_lt _ _)) by lia. simpl.
  destruct (Z.eqb_spec (buf_n b) 0); [lia|done].
Qed.

Lemma Buffer_default_rep (N : Z) : 1 <= N < 2 ^ 63 -> buf_rep (Buffer_default N) [].
Proof.
  intros HN. split; simpl; rewrite ?length_replicate; try lia; [by rewrite Z.mod_0_l by lia|destruct N; [lia|done..]|done].
Qed.

Lemma Buffer_clear_rep b l : buf_rep b l -> buf_rep (Buffer_clear b) [].
Proof.
  intros [Hn Hl Hh _ _ _ _]. split; simpl; try lia; [by rewrite Z.mod_0_l by lia| |done].
  destruct (buf_n b); [lia|done..].
Qed.

Lemma Buffer_len_run b l : buf_rep b l -> Buffer_len b = Ok (Z.of_nat (length l)).
Proof.
  intros [Hn Hl Hh Hm Ht Hf _]. unfold Buffer_len, usub, uadd. rewrite Hf.
  destruct (Z.eqb_spec (Z.of_nat (length l)) (buf_n b)) as [->|]; [done|].
  destruct (Z.leb_spec (buf_head b) (buf_tail b)); simpl; [f_equal; ring_lia|].
  rewrite (proj2 (Z.ltb_lt _ _)) by ring_lia. simpl. rewrite (proj2 (Z.leb_le _ _)) by ring_lia. f_equal. ring_lia.
Qed.

Lemma buf_empty_test b l : buf_rep b l -> negb (buf_full b) && (buf_head b =? buf_tail b) = bool_decide (l = []).
Proof.
  intros [Hn Hl Hh Hm Ht Hf _]. rewrite Hf, Ht. destruct l as [|x l]; simpl length in *.
  - rewrite Z.add_0_r, Z.mod_small, Z.eqb_refl by lia. destruct (Z.eqb_spec (Z.of_nat 0) (buf_n b)); [lia|done].
  - rewrite bool_decide_false by done. destruct (Z.eqb_spec (Z.of_nat (S (length l))) (buf_n b)); [done|]. simpl.
    apply Z.eqb_neq. ring_lia.
Qed.

Lemma Buffer_pop_front_run b l :
  buf_rep b l ->
  exists b', Buffer_pop_front b = (Ok (head l), b') /\ buf_rep b' (tail l) /\ buf_n b' = buf_n b.
Proof.
  intros Hr. pose proof (buf_empty_test b l Hr) as He. destruct Hr as [Hn Hl Hh Hm Ht Hf Hc].
  unfold Buffer_pop_front, sbind, sget, slift, sput, sret. rewrite He.
  destruct l as [|x l]; [by exists b|]. rewrite bool_decide_false by done.
  pose proof (Hc 0%nat x eq_refl) as Hx. rewrite Z.add_0_r, Z.mod_small in Hx by lia.
  unfold idx. rewrite Hx. rewrite buf_step_ok by lia. simpl in *.
  eexists. split; [done|]. split; [|done]. split; simpl; try lia.
  - ring_lia.
  - rewrite Ht, Zplus_mod_idemp_l. f_equal. lia.
  - intros i y Hy. rewrite <- (Hc (S i) y Hy). rewrite Zplus_mod_idemp_l. do 3 f_equal. lia.
Qed.

Lemma Buffer_pop_back_run b l :
  buf_rep b l ->
  exists b', Buffer_pop_back b = (Ok (last l), b') /\ buf_rep b' (removelast l) /\ buf_n b' = buf_n b.
Proof.
  intros Hr. pose proof (buf_empty_test b l Hr) as He. destruct Hr as [Hn Hl Hh Hm Ht Hf Hc].
  unfold Buffer_pop_back, sbind, sget, slift, sput, sret. rewrite He.
  destruct l as [|x l _] using rev_ind; [by exists b|].
  rewrite bool_decide_false by (by destruct l). rewrite last_snoc, removelast_last, length_app in *.
  cbn [length] in *. rewrite Nat.add_1_r in *.
  pose proof (Hc (length l) x (list_lookup_middle l [] x _ eq_refl)) as Hx.
  unfold uadd, usub, urem, idx. rewrite (proj2 (Z.ltb_lt _ _)) by ring_lia. cbn [fst snd].
  rewrite (proj2 (Z.leb_le _ _)) by ring_lia. destruct (Z.eqb_spec (buf_n b) 0); [lia|].
  assert ((buf_tail b + buf_n b - 1) mod buf_n b = (buf_head b + Z.of_nat (length l)) mod buf_n b) as Htl.
  { replace (buf_tail b + buf_n b - 1) with (buf_tail b + (buf_n b - 1)) by lia.
    rewrite Ht, Zplus_mod_idemp_l.
    replace (buf_head b + Z.of_nat (S (length l)) + (buf_n b - 1))
      with (buf_head b + Z.of_nat (length l) + 1 * buf_n b) by lia. by rewrite Z.mod_add by lia. }
  rewrite Htl, Hx. eexists. split; [done|]. split; [|done].
  split; cbn [buf_n buf_chars buf_head buf_tail buf_full]; try lia.
  intros i y Hy. apply Hc. by apply lookup_app_l_Some.
Qed.

(** A full buffer loses its oldest character. *)
Definition pushed (N : Z) (l : list Z) (c : Z) : list Z :=
  (if Z.of_nat (length l) =? N then tail l else l) ++ [c].

Lemma pushed_rep b h (l : list Z) c :
  1 <= buf_n b < 2 ^ 63 -> Z.of_nat (length (buf_chars b)) = buf_n b ->
  0 <= h < buf_n b -> Z.of_nat (length l) < buf_n b -> buf_tail b = (h + Z.of_nat (length l)) mod buf_n b ->
  (forall i x, l !! i = Some x -> buf_chars b !! Z.to_nat ((h + Z.of_nat i) mod buf_n b) = Some x) ->
  buf_rep (MkBuffer (buf_n b) (<[Z.to_nat (buf_tail b) := c]> (buf_chars b)) h ((buf_tail b + 1) mod buf_n b)
             ((buf_tail b + 1) mod buf_n b =? h)) (l ++ [c]).
Proof.
  intros Hn Hl Hh Hm Ht Hc.
  assert (Hlen : Z.of_nat (length (l ++ [c])) = Z.of_nat (length l) + 1) by (rewrite length_app; simpl; lia).
  split; cbn [buf_n buf_chars buf_head buf_tail buf_full]; rewrite ?length_insert, ?Hlen; try lia.
  - rewrite Ht, Zplus_mod_idemp_l. f_equal. lia.
  - rewrite Ht, Zplus_mod_idemp_l. rewrite <- Z.add_assoc. ring_lia.
  - intros i x [Hi|[Hi Hx]]%lookup_app_Some.
    + pose proof (lookup_lt_Some _ _ _ Hi). rewrite list_lookup_insert_ne; [by apply Hc|].
      rewrite Ht. ring_lia.
    + destruct (i - length l)%nat eqn:Hd; [|done]. injection Hx as ->.
      replace i with (length l) by lia. rewrite <- Ht. apply list_lookup_insert_eq.
      rewrite Ht. pose proof (Z.mod_pos_bound (h + Z.of_nat (length l)) (buf_n b)). lia.
Qed.

Lemma Buffer_push_run b l c :
  buf_rep b l ->
  exists b', Buffer_push c b = (Ok tt, b') /\ buf_rep b' (pushed (buf_n b) l c) /\ buf_n b' = buf_n b.
Proof.
  intros [Hn Hl Hh Hm Ht Hf Hc]. unfold Buffer_push, sbind, sget, slift, sput, sret, sassert.
  assert (exists h l', (if buf_full b then buf_step b (buf_head b) 1 else Ok (buf_head b)) = Ok h
    /\ 0 <= h < buf_n b /\ Z.of_nat (length l') < buf_n b /\ buf_tail b = (h + Z.of_nat (length l')) mod buf_n b
    /\ (forall i x, l' !! i = Some x -> buf_chars b !! Z.to_nat ((h + Z.of_nat i) mod buf_n b) = Some x)
    /\ pushed (buf_n b) l c = l' ++ [c]) as (h & l' & Hh1 & Hh2 & Hm2 & Ht2 & Hc2 & ->).
  { unfold pushed. rewrite Hf. destruct (Z.eqb_spec (Z.of_nat (length l)) (buf_n b)) as [Hfull|].
    - exists ((buf_head b + 1) mod buf_n b), (tail l). rewrite buf_step_ok by lia.
      destruct l as [|x l]; simpl in Hfull; [lia|]. simpl tail. cbn [length] in *.
      split_and!; [done|apply Z.mod_pos_bound; lia|apply Z.mod_pos_bound; lia|lia| | |done].
      + rewrite Ht, Zplus_mod_idemp_l. f_equal. lia.
      + intros i y Hy. rewrite <- (Hc (S i) y Hy), Zplus_mod_idemp_l. do 3 f_equal. lia.
    - exists (buf_head b), l. split_and!; try done; lia. }
  destruct (buf_full b); [rewrite Hh1|injection Hh1 as <-].
  all: assert (0 <= buf_tail b < buf_n b) by (rewrite Ht2; apply Z.mod_pos_bound; lia).
  all: rewrite (proj2 (Nat.ltb_lt _ _)) by lia; rewrite buf_step_ok by lia.
  all: eexists; split; [reflexivity|]; split; [|done].
  all: apply (pushed_rep b _ l' c); done.
Qed.

(** ** The terminal as lists

    [tty_rep t s]: the buffers of [t] hold 512 characters at most, the input those of
    [s]; the serial line has seen what the console has. *)

Record Term := MkTerm {
  tm_input : list Z;
  tm_ready : bool;
  tm_esc : EscState;
  tm_sigint : bool;
  tm_screen : list Z
}.

Record tty_rep t (s : Term) : Prop := {
  tr_input : buf_rep (input_buf t) (tm_input s);
  tr_input_n : buf_n (input_buf t) = IO_BUF_LEN;
  tr_output : exists o, buf_rep (output_buf t) o;
  tr_error : exists o, buf_rep (err_output_buf t) o;
  tr_ready : is_ready_get_line t = tm_ready s;
  tr_esc : esc_state t = tm_esc s;
  tr_sigint : flag_sigint t = tm_sigint s;
  tr_screen : console_out t = tm_screen s;
  tr_serial : serial_out t = if use_serial_port t then flat_map serial_bytes (tm_screen s) else []
}.

Definition edit (s : list Z) (c : Z) : list Z := if is_erase c then removelast s else s ++ [c].
Definition edited (cs : list Z) : list Z := foldl edit [] cs.

Definition term_put (cs : list Z) (s : Term) : Term :=
  MkTerm (tm_input s) (tm_ready s) (tm_esc s) (tm_sigint s) (tm_screen s ++ cs).

Definition term_char (c : Z) (s : Term) : Term :=
  let inp := pushed IO_BUF_LEN (tm_input s) c in
  if is_erase c then MkTerm inp (tm_ready s) (tm_esc s) (tm_sigint s) (tm_screen s ++ [0x08])
  else MkTerm inp (tm_ready s || (c =? 0x0a)) (fst (esc_step (tm_esc s) c)) (tm_sigint s)
         (tm_screen s ++ if snd (esc_step (tm_esc s) c) then [c] else []).

Definition term_input (c : Z) (s : Term) : Term :=
  if c =? 0x03 then MkTerm [] false (tm_esc s) true (tm_screen s)
  else term_char (if c =? 0x0d then 0x0a else c) s.

Lemma with_buf_run {A} (ty : BufferType) (c : SR Buffer A) t :
  with_buf ty c t = (fst (c (get_buf ty t)), put_buf ty (snd (c (get_buf ty t))) t).
Proof. unfold with_buf. by destruct (c (get_buf ty t)). Qed.

Lemma push_input_rep t s c :
  tty_rep t s ->
  exists t', with_buf Input (Buffer_push c) t = (Ok tt, t')
  /\ tty_rep t' (MkTerm (pushed IO_BUF_LEN (tm_input s) c) (tm_ready s) (tm_esc s) (tm_sigint s) (tm_screen s)).
Proof.
  intros [Hi Hn Ho He Hr Hes Hs Hsc Hse]. rewrite with_buf_run.
  destruct (Buffer_push_run _ _ c Hi) as (b' & Hp & Hb & Hbn). simpl. rewrite Hp. simpl.
  eexists. split; [done|]. rewrite Hn in Hb, Hbn. by split.
Qed.

Lemma write_output_rep t s c :
  tty_rep t s -> exists t', tty_write c Output t = (Ok tt, t') /\ tty_rep t' (term_put [c] s).
Proof.
  intros [Hi Hn (o & Ho) He Hr Hes Hs Hsc Hse]. unfold tty_write, sbind, sget, smodify, sret.
  assert (exists b o', (if is_erase c then do! with_buf Output Buffer_pop_back in sret tt
                        else with_buf Output (Buffer_push c)) t = (Ok tt, put_buf Output b t) /\ buf_rep b o')
    as (b & o' & Hw & Hb).
  { destruct (is_erase c); unfold sbind; rewrite with_buf_run.
    - destruct (Buffer_pop_back_run _ _ Ho) as (b & Hp & Hb & _). simpl. rewrite Hp. by eexists _, _.
    - destruct (Buffer_push_run _ _ c Ho) as (b & Hp & Hb & _). simpl. rewrite Hp. by eexists _, _. }
  unfold sbind, sret in Hw. rewrite Hw. simpl. eexists. split; [done|].
  split; simpl; try done; [by eexists|by rewrite Hsc|]. rewrite Hse.
  destruct (use_serial_port t); [|done]. rewrite flat_map_app. simpl. by rewrite app_nil_r.
Qed.

Lemma input_char_rep t s c :
  tty_rep t s -> exists t', input_char c t = (Ok tt, t') /\ tty_rep t' (term_char c s).
Proof.
  intros Hr. destruct (push_input_rep t s c Hr) as (t1 & Hp & Hr1). unfold input_char, term_char.
  destruct (is_erase c) eqn:Hc; unfold sbind; rewrite Hp.
  - unfold signore. destruct (write_output_rep t1 _ 0x08 Hr1) as (t2 & -> & Hr2). by exists t2.
  - assert (exists t2, (if c =? 0x0a then smodify (set_line_ready true) else sret tt) t1 = (@Ok Error_ _ tt, t2)
      /\ tty_rep t2 (MkTerm (pushed IO_BUF_LEN (tm_input s) c) (tm_ready s || (c =? 0x0a)) (tm_esc s)
                       (tm_sigint s) (tm_screen s))) as (t2 & -> & Hr2).
    { destruct Hr1. destruct (c =? 0x0a); eexists; (split; [done|]); split; simpl in *; try done.
      - by rewrite orb_true_r.
      - by rewrite orb_false_r. }
    unfold sget. rewrite (tr_esc _ _ Hr2). cbn [tm_esc]. destruct (esc_step (tm_esc s) c) as [e echo]. simpl.
    assert (tty_rep (set_esc e t2) (MkTerm (pushed IO_BUF_LEN (tm_input s) c) (tm_ready s || (c =? 0x0a)) e
                       (tm_sigint s) (tm_screen s))) as Hr3 by (by destruct Hr2).
    cbn [smodify sret fst snd]. destruct echo; [|exists (set_esc e t2); split; [done|]; by rewrite app_nil_r].
    unfold signore. destruct (write_output_rep _ _ c Hr3) as (t4 & -> & Hr4). by exists t4.
Qed.

Lemma input_rep t s c : tty_rep t s -> exists t', input c t = (Ok tt, t') /\ tty_rep t' (term_input c s).
Proof.
  intros Hr. unfold input, term_input. destruct (c =? 0x03); [|by apply input_char_rep].
  destruct Hr as [Hi Hn Ho He Hre Hes Hs Hsc Hse]. eexists. split; [done|].
  split; try done. simpl. by eapply Buffer_clear_rep.
Qed.

Lemma pop_input_rep t s :
  tty_rep t s ->
  exists t', with_buf Input Buffer_pop_front t = (Ok (head (tm_input s)), t')
  /\ tty_rep t' (MkTerm (tail (tm_input s)) (tm_ready s) (tm_esc s) (tm_sigint s) (tm_screen s)).
Proof.
  intros [Hi Hn Ho He Hr Hes Hs Hsc Hse]. rewrite with_buf_run.
  destruct (Buffer_pop_front_run _ _ Hi) as (b' & Hp & Hb & Hbn). simpl. rewrite Hp. simpl.
  eexists. split; [done|]. rewrite Hn in Hbn. by split.
Qed.

Lemma line_loop_rep (n : nat) : forall t s str,
  tty_rep t s -> (length (tm_input s) < n)%nat ->
  exists t', line_loop n Input str t = (Ok (foldl edit str (tm_input s)), t')
  /\ tty_rep t' (MkTerm [] (tm_ready s) (tm_esc s) (tm_sigint s) (tm_screen s)).
Proof.
  induction n as [|n IH]; intros t s str Hr Hl; [lia|]. cbn [line_loop]. unfold sbind.
  destruct (pop_input_rep t s Hr) as (t1 & -> & Hr1). destruct (tm_input s) as [|c l]; simpl in *.
  - by exists t1.
  - apply (IH t1 _ (edit str c) Hr1). simpl. lia.
Qed.

(** [line] ends: the fuel covers a full buffer. *)
Lemma tty_line_rep t s :
  tty_rep t s ->
  exists t', tty_line Input t = (Ok (edited (tm_input s)), t')
  /\ tty_rep t' (MkTerm [] (tm_ready s) (tm_esc s) (tm_sigint s) (tm_screen s)).
Proof.
  intros Hr. apply line_loop_rep; [done|]. pose proof (br_max _ _ (tr_input _ _ Hr)) as Hm.
  rewrite (tr_input_n _ _ Hr) in Hm. lia.
Qed.

(** ** Runs *)

Inductive tty_op := TInput (c : Z) | TLine | TChar | TCount | TSigint | TWrite (cs : list Z).

Inductive tty_res :=
| TrUnit (r : Result unit)
| TrLine (r : Result (option (list Z)))
| TrChar (r : Result (option Z))
| TrCount (r : Result Z)
| TrSigint (r : Result bool).

Definition tty_exec (o : tty_op) t : tty_res * Tty :=
  match o with
  | TInput c => let '(r, t) := input c t in (TrUnit r, t)
  | TLine => let '(r, t) := line t in (TrLine r, t)
  | TChar => let '(r, t) := char t in (TrChar r, t)
  | TCount => (TrCount (tty_input_count t), t)
  | TSigint => let '(r, t) := check_sigint t in (TrSigint r, t)
  | TWrite cs => let '(r, t) := tty_write_all cs t in (TrUnit r, t)
  end.

Definition term_exec (o : tty_op) (s : Term) : tty_res * Term :=
  match o with
  | TInput c => (TrUnit (Ok tt), term_input c s)
  | TLine =>
      if tm_ready s
      then (TrLine (Ok (Some (edited (tm_input s)))), MkTerm [] false (tm_esc s) (tm_sigint s) (tm_screen s))
      else (TrLine (Ok None), s)
  | TChar =>
      (TrChar (Ok (head (tm_input s))),
       MkTerm (tail (tm_input s)) (tm_ready s && negb (bool_decide (head (tm_input s) = Some 0x0a)))
         (tm_esc s) (tm_sigint s) (tm_screen s))
  | TCount => (TrCount (Ok (Z.of_nat (length (tm_input s)))), s)
  | TSigint => (TrSigint (Ok (tm_sigint s)), MkTerm (tm_input s) (tm_ready s) (tm_esc s) false (tm_screen s))
  | TWrite cs => (TrUnit (Ok tt), term_put cs s)
  end.

Fixpoint run_all {S} (exec : tty_op -> S -> tty_res * S) (ops : list tty_op) (s : S) : list tty_res * S :=
  match ops with
  | [] => ([], s)
  | o :: ops => let '(r, s) := exec o s in let '(rs, s) := run_all exec ops s in (r :: rs, s)
  end.

Lemma write_all_rep (cs : list Z) : forall t s,
  tty_rep t s -> exists t', tty_write_all cs t = (Ok tt, t') /\ tty_rep t' (term_put cs s).
Proof.
  induction cs as [|c cs IH]; intros t s Hr.
  - exists t. split; [done|]. unfold term_put. rewrite app_nil_r. by destruct s.
  - unfold tty_write_all. cbn [sfor]. unfold sbind.
    destruct (write_output_rep t s c Hr) as (t1 & -> & Hr1). destruct (IH t1 _ Hr1) as (t2 & He & Hr2).
    exists t2. split; [done|]. unfold term_put in *. simpl in Hr2. by rewrite <- app_assoc in Hr2.
Qed.

Lemma line_rep t s :
  tty_rep t s ->
  exists t', tty_exec TLine t = (fst (term_exec TLine s), t') /\ tty_rep t' (snd (term_exec TLine s)).
Proof.
  intros Hr. simpl. unfold line, sbind, sget, sput, sret. rewrite (tr_ready _ _ Hr).
  destruct (tm_ready s) eqn:Hre; [|by exists t].
  assert (tty_rep (set_line_ready false t) (MkTerm (tm_input s) false (tm_esc s) (tm_sigint s) (tm_screen s))) as Hr1
    by (by destruct Hr).
  destruct (tty_line_rep _ _ Hr1) as (t2 & -> & Hr2). by exists t2.
Qed.

Lemma char_rep t s :
  tty_rep t s ->
  exists t', tty_exec TChar t = (fst (term_exec TChar s), t') /\ tty_rep t' (snd (term_exec TChar s)).
Proof.
  intros Hr. simpl. unfold char, tty_char, sbind, smodify, sret.
  destruct (pop_input_rep t s Hr) as (t1 & -> & Hr1). simpl.
  destruct Hr1. case_bool_decide; simpl in *; eexists; (split; [done|]); split; simpl; try done.
  - by rewrite andb_false_r.
  - by rewrite andb_true_r.
Qed.

Lemma tty_exec_rep (o : tty_op) t s :
  tty_rep t s -> exists t', tty_exec o t = (fst (term_exec o s), t') /\ tty_rep t' (snd (term_exec o s)).
Proof.
  intros Hr. destruct o as [c| | | | |cs]; [..|simpl].
  - simpl. destruct (input_rep t s c Hr) as (t1 & -> & Hr1). by exists t1.
  - by apply line_rep.
  - by apply char_rep.
  - simpl. unfold tty_input_count. rewrite (Buffer_len_run _ _ (tr_input _ _ Hr)). by exists t.
  - simpl. rewrite (tr_sigint _ _ Hr). destruct Hr. by eexists.
  - destruct (write_all_rep cs t s Hr) as (t1 & -> & Hr1). by exists t1.
Qed.

Lemma tty_run_rep (ops : list tty_op) : forall t s,
  tty_rep t s ->
  exists t', run_all tty_exec ops t = (fst (run_all term_exec ops s), t') /\ tty_rep t' (snd (run_all term_exec ops s)).
Proof.
  induction ops as [|o ops IH]; intros t s Hr; [by exists t|]. cbn [run_all].
  destruct (tty_exec_rep o t s Hr) as (t1 & -> & Hr1). destruct (term_exec o s) as [r s1]. simpl in Hr1.
  destruct (IH t1 s1 Hr1) as (t2 & -> & Hr2). destruct (run_all term_exec ops s1). by exists t2.
Qed.

Definition Term_new : Term := MkTerm [] false EscNormal false [].

Lemma Tty_new_rep (serial : bool) : tty_rep (Tty_new serial) Term_new.
Proof.
  assert (buf_rep (Buffer_default IO_BUF_LEN) []) by (by apply Buffer_default_rep).
  split; try done; simpl; eauto. by destruct serial.
Qed.

(** ** Typed text *)

(** Neither Ctrl-C nor the end of a line. *)
Definition plain (c : Z) : bool := negb ((c =? 0x03) || (c =? 0x0a) || (c =? 0x0d)).

Definition term_types (cs : list Z) (s : Term) : Term := foldl (fun s c => term_input c s) s cs.

Lemma run_all_app {S} (exec : tty_op -> S -> tty_res * S) (xs ys : list tty_op) (s : S) :
  run_all exec (xs ++ ys) s
  = (fst (run_all exec xs s) ++ fst (run_all exec ys (snd (run_all exec xs s))),
     snd (run_all exec ys (snd (run_all exec xs s)))).
Proof.
  revert s. induction xs as [|x xs IH]; intros s; simpl; [by destruct (run_all exec ys s)|].
  destruct (exec x s) as [r s1]. rewrite IH. by destruct (run_all exec xs s1).
Qed.

Lemma run_inputs (cs : list Z) (s : Term) :
  run_all term_exec (TInput <$> cs) s = (replicate (length cs) (TrUnit (Ok tt)), term_types cs s).
Proof. revert s. induction cs as [|c cs IH]; intros s; simpl; [done|]. by rewrite IH. Qed.

Lemma pushed_room (l : list Z) c : Z.of_nat (length l) < IO_BUF_LEN -> pushed IO_BUF_LEN l c = l ++ [c].
Proof. intros H. unfold pushed. by rewrite (proj2 (Z.eqb_neq _ _)) by lia. Qed.

Lemma term_input_room c s :
  c <> 0x03 -> Z.of_nat (length (tm_input s)) < IO_BUF_LEN ->
  tm_input (term_input c s) = tm_input s ++ [if c =? 0x0d then 0x0a else c]
  /\ tm_ready (term_input c s) = tm_ready s || (c =? 0x0a) || (c =? 0x0d).
Proof.
  intros H3 Hl. unfold term_input. rewrite (proj2 (Z.eqb_neq _ _) H3). unfold term_char.
  rewrite pushed_room by done. destruct (Z.eqb_spec c 0x0d) as [->|]; simpl; [by rewrite !orb_true_r|].
  destruct (is_erase c) eqn:He; simpl; (split; [done|]); [|by rewrite orb_false_r].
  unfold is_erase in He. destruct (Z.eqb_spec c 0x0a) as [->|]; [done|]. by rewrite !orb_false_r.
Qed.

Lemma term_types_plain (cs : list Z) : forall s,
  forallb plain cs = true -> Z.of_nat (length (tm_input s)) + Z.of_nat (length cs) <= IO_BUF_LEN ->
  tm_input (term_types cs s) = tm_input s ++ cs /\ tm_ready (term_types cs s) = tm_ready s.
Proof.
  induction cs as [|c cs IH]; intros s; simpl; [by rewrite app_nil_r|]. intros [Hc Hcs]%andb_prop Hl.
  unfold plain in Hc. rewrite negb_true_iff, !orb_false_iff, !Z.eqb_neq in Hc. destruct Hc as [[H3 Ha] Hd].
  destruct (term_input_room c s H3) as [Hi Hr]; [lia|].
  rewrite (proj2 (Z.eqb_neq _ _) Ha), (proj2 (Z.eqb_neq _ _) Hd), !orb_false_r in *.
  destruct (IH (term_input c s) Hcs) as [Hi2 Hr2]; [rewrite Hi, length_app; simpl; lia|].
  by rewrite Hi2, Hr2, Hi, Hr, <- app_assoc.
Qed.

Lemma edited_line (cs : list Z) : edited (cs ++ [0x0a]) = edited cs ++ [0x0a].
Proof. unfold edited. by rewrite foldl_app. Qed.

(** A typed line, then Enter. *)
Lemma term_types_line (cs : list Z) (e : Z) s :
  forallb plain cs = true -> e = 0x0a \/ e = 0x0d ->
  Z.of_nat (length (tm_input s)) + Z.of_nat (length cs) < IO_BUF_LEN ->
  tm_input (term_types (cs ++ [e]) s) = tm_input s ++ cs ++ [0x0a] /\ tm_ready (term_types (cs ++ [e]) s) = true.
Proof.
  intros Hcs He Hl. unfold term_types. rewrite foldl_app. simpl.
  destruct (term_types_plain cs s Hcs) as [Hi Hr]; [lia|].
  destruct (term_input_room e (term_types cs s)) as [Hi2 Hr2]; [lia|rewrite Hi, length_app; lia|].
  unfold term_types in *. rewrite Hi2, Hr2, Hi, <- app_assoc.
  destruct He as [-> | ->]; simpl; by rewrite !orb_true_r.
Qed.

(** Reading [n] characters off the front. *)
Lemma run_chars (l : list Z) : forall s rest,
  tm_input s = l ++ rest ->
  let s' := snd (run_all term_exec (replicate (length l) TChar) s) in
  fst (run_all term_exec (replicate (length l) TChar) s) = (fun c => TrChar (Ok (Some c))) <$> l
  /\ tm_input s' = rest /\ (0x0a ∈ l -> tm_ready s' = false) /\ (tm_ready s = false -> tm_ready s' = false).
Proof.
  induction l as [|c l IH]; intros s rest Hs; [set_solver|]. simpl. rewrite Hs. simpl.
  edestruct (IH (MkTerm (l ++ rest) (tm_ready s && negb (bool_decide (Some c = Some 0x0a))) (tm_esc s) (tm_sigint s)
              (tm_screen s)) rest eq_refl) as (H1 & H2 & H3 & H4).
  destruct (run_all term_exec _ _) as [rs s']. simpl in *. rewrite H1. split_and!; [done|done| |].
  - intros [<-|Hin]%elem_of_cons; [|auto]. apply H4. by rewrite bool_decide_true, andb_false_r.
  - intros Hs0. apply H4. by rewrite Hs0.
Qed.

(** ** Keyboards *)

Definition event_chars (code : KeyCode) (c : option Z) : list Z :=
  match code with
  | KCursorUp => [0x1b; 0x5b; 0x41]
  | KCursorDown => [0x1b; 0x5b; 0x42]
  | KCursorRight => [0x1b; 0x5b; 0x43]
  | KCursorLeft => [0x1b; 0x5b; 0x44]
  | _ => option_list c
  end.

Lemma input_last (c : Z) t : sbind (input c) (fun _ => sret tt) t = input c t.
Proof. unfold sbind, sret. by destruct (input c t) as [[[]| |] t']. Qed.

Lemma input_option (c : option Z) t :
  match c with Some c => input c | None => sret tt end t = sfor (option_list c) input t.
Proof. destruct c; [symmetry; apply input_last|done]. Qed.

Lemma type_event_chars e t : type_event e t = sfor (event_chars (ev_code e) (ev_c e)) input t.
Proof.
  destruct e as [k st c]. unfold type_event. cbn [ev_code ev_c].
  destruct k; cbn [event_chars sfor]; try apply input_option.
  all: unfold sbind; repeat (destruct (input _ _) as [[[]| |] ?]; try done).
Qed.

Lemma inputs_rep (cs : list Z) : forall t s,
  tty_rep t s -> exists t', sfor cs input t = (Ok tt, t') /\ tty_rep t' (term_types cs s).
Proof.
  induction cs as [|c cs IH]; intros t s Hr; [by exists t|]. cbn [sfor]. unfold sbind.
  destruct (input_rep t s c Hr) as (t1 & -> & Hr1). by apply IH.
Qed.

Lemma term_types_app (xs ys : list Z) s : term_types (xs ++ ys) s = term_types ys (term_types xs s).
Proof. apply foldl_app. Qed.

(** A PS/2 poll types the event its byte completes. *)
Lemma ps2_poll_rep d t s b (q : list Z) (st : decoder) :
  kbd_rel d (b :: q) st -> tty_rep t s ->
  let '(e, st') := decode_byte (key_map d) b st in
  exists d' t', ps2_poll_normal (d, t) = (Ok tt, (d', t')) /\ kbd_rel d' q st'
  /\ tty_rep t' (term_types (match e with Some e => event_chars (ev_code e) (ev_c e) | None => [] end) s).
Proof.
  intros Hk Hr. destruct (kbd_poll_normal_rel d (b :: q) st Hk) as (d' & He & _ & Hk').
  simpl in He, Hk'. destruct (decode_byte (key_map d) b st) as [e st']. simpl in *.
  unfold ps2_poll_normal. rewrite He. destruct e as [e|]; [|by exists d', t].
  rewrite type_event_chars. destruct (inputs_rep (event_chars (ev_code e) (ev_c e)) t s Hr) as (t' & -> & Hr').
  by exists d', t'.
Qed.

(** What a USB key types under the modifiers of its report. *)
Definition hid_chars (m : KeyMap) (mods : ModifierKeysState) (id : Z) : list Z :=
  match to_usb_hid_map m !! id with
  | Some sc => event_chars (key_code sc) (key_char mods sc)
  | None => []
  end.

(** The keys of a report, and those that were not down before, in ascending order. *)
Definition report_keys (report : list Z) : list Z := set_of (List.filter (fun id => negb (id =? 0)) (drop 2 report)).
Definition new_keys (report prev : list Z) : list Z :=
  List.filter (fun id => set_mem id (report_keys report)) (symmetric_difference (report_keys report) prev).

Lemma hid_key_run m mods (pressed : list Z) id t :
  hid_key (to_usb_hid_map m) mods pressed id t
  = sfor (if set_mem id pressed then hid_chars m mods id else []) input t.
Proof.
  unfold hid_key, sbind, slift, key_event_from_usb_hid, hid_chars.
  destruct (to_usb_hid_map m !! id) as [sc|] eqn:Hl; [|by destruct (set_mem id pressed)].
  apply to_usb_hid_map_lookup in Hl as [_ <-]. rewrite Z.eqb_refl. simpl.
  destruct (set_mem (usb_hid_usage_id sc) pressed); [|done]. simpl. by rewrite type_event_chars.
Qed.

Lemma hid_keys_rep m mods (pressed ids : list Z) : forall t s,
  tty_rep t s ->
  exists t', sfor ids (hid_key (to_usb_hid_map m) mods pressed) t = (Ok tt, t')
  /\ tty_rep t' (term_types (flat_map (hid_chars m mods) (List.filter (fun id => set_mem id pressed) ids)) s).
Proof.
  induction ids as [|id ids IH]; intros t s Hr; [by exists t|]. cbn [sfor]. unfold sbind. rewrite hid_key_run.
  destruct (inputs_rep (if set_mem id pressed then hid_chars m mods id else []) t s Hr) as (t1 & -> & Hr1).
  destruct (IH t1 _ Hr1) as (t2 & -> & Hr2). exists t2. split; [done|]. simpl.
  destruct (set_mem id pressed); simpl; [by rewrite term_types_app|done].
Qed.

Lemma hid_poll_rep m d t s (report : list Z) :
  hid_key_map d = to_usb_hid_map m -> tty_rep t s ->
  exists t', hid_poll (Ok report) (d, t)
    = (Ok tt, (MkHid (to_usb_hid_map m) (report_mods report) (report_keys report), t'))
  /\ tty_rep t' (term_types (flat_map (hid_chars m (report_mods report)) (new_keys report (prev_pressed d))) s).
Proof.
  intros Hm Hr. unfold hid_poll. cbn [hid_key_map prev_pressed]. rewrite Hm.
  destruct (hid_keys_rep m (report_mods report) (report_keys report)
              (symmetric_difference (report_keys report) (prev_pressed d)) t s Hr) as (t1 & He & Hr1).
  unfold report_keys in He at 1 2. rewrite He. by exists t1.
Qed.

(** A run of reports. *)
Fixpoint hid_run (reports : list (list Z)) : SR (UsbHidKeyboardDriver * Tty) unit :=
  match reports with
  | [] => sret tt
  | r :: reports => do! hid_poll (Ok r) in hid_run reports
  end.

(** What the reports type, from the keys down before. *)
Fixpoint hid_text (m : KeyMap) (reports : list (list Z)) (prev : list Z) : list Z :=
  match reports with
  | [] => []
  | r :: reports => flat_map (hid_chars m (report_mods r)) (new_keys r prev) ++ hid_text m reports (report_keys r)
  end.

Lemma hid_run_rep m (reports : list (list Z)) : forall d t s,
  hid_key_map d = to_usb_hid_map m -> tty_rep t s ->
  exists d' t', hid_run reports (d, t) = (Ok tt, (d', t')) /\ hid_key_map d' = to_usb_hid_map m
  /\ tty_rep t' (term_types (hid_text m reports (prev_pressed d)) s).
Proof.
  induction reports as [|r reports IH]; intros d t s Hm Hr; [by exists d, t|]. cbn [hid_run]. unfold sbind.
  destruct (hid_poll_rep m d t s r Hm Hr) as (t1 & -> & Hr1).
  destruct (IH (MkHid (to_usb_hid_map m) (report_mods r) (report_keys r)) t1 _ eq_refl Hr1) as (d2 & t2 & -> & Hd & Hr2).
  exists d2, t2. split_and!; [done..|]. cbn [hid_text]. by rewrite term_types_app.
Qed.

(** *** Sets *)

Lemma set_mem_spec (x : Z) (l : list Z) : set_mem x l = true <-> x ∈ l.
Proof.
  unfold set_mem. rewrite existsb_exists, list_elem_of_In. split.
  - by intros (y & Hy & ->%Z.eqb_eq).
  - intros Hx. exists x. by rewrite Z.eqb_refl.
Qed.

Lemma set_insert_spec (x y : Z) (l : list Z) : y ∈ set_insert x l <-> y = x \/ y ∈ l.
Proof.
  induction l as [|z l IH]; simpl; [by rewrite elem_of_cons|]. destruct (x <? z); [by rewrite !elem_of_cons|].
  destruct (Z.eqb_spec x z) as [->|]; rewrite !elem_of_cons, ?IH; tauto.
Qed.

Lemma set_of_spec (y : Z) (l : list Z) : y ∈ set_of l <-> y ∈ l.
Proof. induction l as [|x l IH]; simpl; [done|]. rewrite set_insert_spec, elem_of_cons. by rewrite IH. Qed.

Lemma set_insert_sorted (x : Z) (l : list Z) : StronglySorted Z.lt l -> StronglySorted Z.lt (set_insert x l).
Proof.
  induction 1 as [|y l Hs IH Hy]; simpl; [by repeat constructor|].
  destruct (Z.ltb_spec x y); [|destruct (Z.eqb_spec x y); [by constructor|]]; repeat constructor; try done.
  - eapply Forall_impl; [exact Hy|]. simpl. lia.
  - rewrite Forall_forall in *. intros z [->|Hz]%set_insert_spec; [lia|by apply Hy].
Qed.

Lemma set_of_sorted (l : list Z) : StronglySorted Z.lt (set_of l).
Proof. induction l; simpl; [constructor|by apply set_insert_sorted]. Qed.

Lemma filter_sorted (f : Z -> bool) (l : list Z) : StronglySorted Z.lt l -> StronglySorted Z.lt (List.filter f l).
Proof.
  induction 1 as [|y l Hs IH Hy]; simpl; [constructor|]. destruct (f y); [|done]. constructor; [done|].
  rewrite Forall_forall in *. intros z Hz. apply Hy. apply list_elem_of_In, filter_In in Hz as [Hz _].
  by apply list_elem_of_In.
Qed.

Lemma elem_of_filter_b (f : Z -> bool) (l : list Z) (x : Z) : x ∈ List.filter f l <-> x ∈ l /\ f x = true.
Proof. by rewrite !list_elem_of_In, filter_In. Qed.

Lemma new_keys_spec (report prev : list Z) (id : Z) :
  id ∈ new_keys report prev <-> id ∈ drop 2 report /\ id <> 0 /\ id ∉ prev.
Proof.
  unfold new_keys, symmetric_difference, report_keys.
  rewrite elem_of_filter_b, set_of_spec, elem_of_app, !elem_of_filter_b, !negb_true_iff, set_mem_spec, set_of_spec.
  rewrite elem_of_filter_b, negb_true_iff, Z.eqb_neq, <- !not_true_iff_false, !set_mem_spec, set_of_spec.
  rewrite elem_of_filter_b, negb_true_iff, Z.eqb_neq. tauto.
Qed.

Lemma new_keys_sorted (report prev : list Z) : StronglySorted Z.lt (new_keys report prev).
Proof. apply filter_sorted, set_of_sorted. Qed.

(** *** Keys tapped one by one *)

Definition hid_report (mb id : Z) : list Z := [mb; 0; id; 0; 0; 0; 0; 0].

(** A key goes down with the modifiers [mb] and everything goes up. *)
Definition tap (mb : Z) (sc : ScanCode) : list (list Z) := [hid_report mb (usb_hid_usage_id sc); hid_report 0 0].

Definition tap_chars (mb : Z) (sc : ScanCode) : list Z :=
  event_chars (key_code sc) (key_char (report_mods (hid_report mb 0)) sc).

Definition hid_key_ok (m : KeyMap) (sc : ScanCode) : bool :=
  negb (usb_hid_usage_id sc =? 0) && bool_decide (to_usb_hid_map m !! usb_hid_usage_id sc = Some sc).

Lemma kernel_maps_hid m sc :
  is_kernel_map m -> sc ∈ scan_codes m ->
  usb_hid_usage_id sc <> 0 /\ to_usb_hid_map m !! usb_hid_usage_id sc = Some sc.
Proof.
  intros Hm Hin. assert (forallb (hid_key_ok m) (scan_codes m) = true) as Hall
    by (destruct Hm as [-> | ->]; vm_compute; reflexivity).
  rewrite forallb_forall in Hall. specialize (Hall sc (proj1 (list_elem_of_In _ _) Hin)).
  unfold hid_key_ok in Hall. by rewrite andb_true_iff, negb_true_iff, Z.eqb_neq, bool_decide_eq_true in Hall.
Qed.

Lemma hid_text_tap m mb sc (reports : list (list Z)) :
  is_kernel_map m -> sc ∈ scan_codes m ->
  hid_text m (tap mb sc ++ reports) [] = tap_chars mb sc ++ hid_text m reports [].
Proof.
  intros Hm Hin. destruct (kernel_maps_hid m sc Hm Hin) as [H0 Hl]. simpl.
  assert (report_keys (hid_report mb (usb_hid_usage_id sc)) = [usb_hid_usage_id sc]) as Hk.
  { unfold report_keys, hid_report. simpl. by rewrite (proj2 (Z.eqb_neq _ _) H0). }
  assert (new_keys (hid_report mb (usb_hid_usage_id sc)) [] = [usb_hid_usage_id sc]) as ->.
  { unfold new_keys. rewrite Hk. simpl. by rewrite Z.eqb_refl. }
  rewrite Hk. simpl. unfold hid_chars. rewrite Hl, app_nil_r. done.
Qed.

Lemma hid_text_taps m (keys : list (Z * ScanCode)) :
  is_kernel_map m -> Forall (fun k => snd k ∈ scan_codes m) keys ->
  hid_text m (flat_map (fun k => tap (fst k) (snd k)) keys) [] = flat_map (fun k => tap_chars (fst k) (snd k)) keys.
Proof.
  intros Hm. induction 1 as [|[mb sc] keys Hin _ IH]; [done|].
  cbn [flat_map fst snd]. by rewrite hid_text_tap, IH.
Qed.

Lemma enter_chars m enter : is_kernel_map m -> enter ∈ scan_codes m -> key_code enter = KEnter -> tap_chars 0 enter = [0x0a].
Proof.
  intros Hm Hin He.
  assert (forallb (fun sc => implb (bool_decide (key_code sc = KEnter)) (bool_decide (tap_chars 0 sc = [0x0a])))
            (scan_codes m) = true) as Hall by (destruct Hm as [-> | ->]; vm_compute; reflexivity).
  rewrite forallb_forall in Hall. specialize (Hall enter (proj1 (list_elem_of_In _ _) Hin)).
  rewrite (bool_decide_true _ He) in Hall. by apply bool_decide_eq_true in Hall.
Qed.

(** ** Properties *)

(** C27: over every sequence of typed characters, line and character reads, counts,
    interrupt checks and writes, the terminal returns what a list of at most 512
    characters returns, a new character pushing the oldest out of a full list: [line]
    gives the whole input with the erase characters applied, but only after a line end,
    Ctrl-C empties the input and is reported once; the console sees the echo and the
    output in order, the serial line the same with backspaces spelled out; and no
    operation fails or panics. *)
Theorem tty_refines_terminal (serial : bool) (ops : list tty_op) :
  let '(rs, t) := run_all tty_exec ops (Tty_new serial) in
  let '(rs', s) := run_all term_exec ops Term_new in
  rs = rs' /\ console_out t = tm_screen s
  /\ serial_out t = (if use_serial_port t then flat_map serial_bytes (tm_screen s) else [])
  /\ (length (tm_input s) <= 512)%nat.
Proof.
  destruct (tty_run_rep ops _ _ (Tty_new_rep serial)) as (t & -> & Hr).
  destruct (run_all term_exec ops Term_new) as [rs s]. simpl in *.
  pose proof (br_max _ _ (tr_input _ _ Hr)) as Hm. rewrite (tr_input_n _ _ Hr) in Hm. unfold IO_BUF_LEN in Hm.
  destruct Hr. split_and!; [done..|lia].
Qed.

(** C26: keys tapped one after another on a USB keyboard, each under the modifiers of its
    report, and then Enter: every poll succeeds, and [line] returns the characters the
    key map gives for them, with the erase keys applied, and the line end.  The text is
    shorter than 512 characters and holds no Ctrl-C and no line end of its own. *)
Theorem usb_keyboard_types_line (m : KeyMap) (serial : bool) (keys : list (Z * ScanCode)) (enter : ScanCode) :
  is_kernel_map m ->
  Forall (fun k => snd k ∈ scan_codes m) keys ->
  enter ∈ scan_codes m -> key_code enter = KEnter ->
  let text := flat_map (fun k => tap_chars (fst k) (snd k)) keys in
  forallb plain text = true -> Z.of_nat (length text) < 512 ->
  exists d t,
    hid_run (flat_map (fun k => tap (fst k) (snd k)) (keys ++ [(0, enter)]))
      (UsbHidKeyboardDriver_new m, Tty_new serial) = (Ok tt, (d, t))
    /\ fst (line t) = Ok (Some (edited text ++ [0x0a]))
    /\ tty_input_count (snd (line t)) = Ok 0.
Proof.
  intros Hm Hkeys Hin He text Hp Hl.
  destruct (hid_run_rep m (flat_map (fun k => tap (fst k) (snd k)) (keys ++ [(0, enter)]))
              (UsbHidKeyboardDriver_new m) _ _ eq_refl (Tty_new_rep serial)) as (d & t & Hrun & _ & Hr).
  exists d, t. split; [done|].
  cbn [prev_pressed UsbHidKeyboardDriver_new] in Hr.
  rewrite hid_text_taps in Hr by (done || (apply Forall_app; split; [done|by repeat constructor])).
  rewrite flat_map_app in Hr. fold text in Hr. cbn [flat_map fst snd] in Hr.
  rewrite app_nil_r, (enter_chars m enter Hm Hin He) in Hr.
  destruct (term_types_line text 0x0a Term_new Hp (or_introl eq_refl)) as [Hi Hre]; [simpl; unfold IO_BUF_LEN; lia|].
  destruct (line_rep t _ Hr) as (t2 & Hline & Hr2). unfold tty_exec in Hline. cbn [term_exec] in Hline, Hr2.
  rewrite Hre, Hi in Hline. rewrite Hre in Hr2. simpl app in Hline. rewrite edited_line in Hline.
  destruct (line t) as [r t'] eqn:Hl'. injection Hline as -> ->. split; [done|].
  unfold tty_input_count. simpl. by rewrite (Buffer_len_run _ _ (tr_input _ _ Hr2)).
Qed.

(** C28: whatever a USB keyboard reports, the poll succeeds, remembers the keys that are
    down and types, in ascending order of their usage ids, exactly the keys of the report
    that were not down before, each once: held and released keys type nothing, and the
    assertion of [key_event_from_usb_hid] holds. *)
Theorem hid_poll_types_new_keys (m : KeyMap) d t s (report : list Z) :
  hid_key_map d = to_usb_hid_map m -> tty_rep t s ->
  exists keys d' t',
    hid_poll (Ok report) (d, t) = (Ok tt, (d', t'))
    /\ (forall id, id ∈ keys <-> id ∈ drop 2 report /\ id <> 0 /\ id ∉ prev_pressed d)
    /\ StronglySorted Z.lt keys
    /\ tty_rep t' (term_types (flat_map (hid_chars m (report_mods report)) keys) s)
    /\ hid_key_map d' = to_usb_hid_map m
    /\ (forall id, id ∈ prev_pressed d' <-> id ∈ drop 2 report /\ id <> 0).
Proof.
  intros Hm Hr. destruct (hid_poll_rep m d t s report Hm Hr) as (t1 & He & Hr1).
  exists (new_keys report (prev_pressed d)), (MkHid (to_usb_hid_map m) (report_mods report) (report_keys report)), t1.
  split_and!; [done|intros id; apply new_keys_spec|apply new_keys_sorted|done|done|].
  intros id. simpl. unfold report_keys. by rewrite set_of_spec, elem_of_filter_b, negb_true_iff, Z.eqb_neq.
Qed.

(** Two lines wait; the first is read character by character.  Its line end clears
    the flag that [line] tests, so the second line, complete in the buffer, is not
    returned. *)
Theorem char_read_hides_line (serial : bool) (cs1 cs2 : list Z) :
  forallb plain cs1 = true -> forallb plain cs2 = true ->
  Z.of_nat (length cs1 + length cs2) < 511 ->
  let ops := (TInput <$> (cs1 ++ [0x0d]) ++ (cs2 ++ [0x0d])) ++ replicate (length cs1 + 1) TChar in
  fst (run_all tty_exec (ops ++ [TLine; TCount]) (Tty_new serial))
  = fst (run_all tty_exec ops (Tty_new serial))
    ++ [TrLine (Ok None); TrCount (Ok (Z.of_nat (length cs2) + 1))].
Proof.
  intros H1 H2 Hl ops. rewrite run_all_app.
  destruct (tty_run_rep ops _ _ (Tty_new_rep serial)) as (t & -> & Hr). cbn [fst snd]. f_equal.
  assert (tm_input (snd (run_all term_exec ops Term_new)) = cs2 ++ [0x0a]
    /\ tm_ready (snd (run_all term_exec ops Term_new)) = false) as [Hi Hre].
  { unfold ops. rewrite run_all_app, run_inputs. cbn [fst snd]. rewrite term_types_app.
    destruct (term_types_line cs1 0x0d Term_new H1 (or_intror eq_refl)) as [Ha Hb];
      [simpl; unfold IO_BUF_LEN; lia|].
    destruct (term_types_line cs2 0x0d (term_types (cs1 ++ [0x0d]) Term_new) H2 (or_intror eq_refl)) as [Hc _];
      [rewrite Ha; simpl; rewrite length_app; simpl; unfold IO_BUF_LEN; lia|].
    rewrite Ha in Hc. simpl app in Hc.
    destruct (run_chars (cs1 ++ [0x0a]) _ (cs2 ++ [0x0a]) Hc) as (_ & Hd & He & _).
    rewrite length_app in *. cbn [length] in *. split; [exact Hd|]. apply He. set_solver. }
  destruct (tty_run_rep [TLine; TCount] t _ Hr) as (t2 & -> & _). simpl. rewrite Hre. simpl.
  by rewrite Hi, length_app, Nat2Z.inj_add.
Qed.

(** *** Witnesses *)

(** [A] (with shift), [x], backspace, [b]. *)
Lemma usb_keyboard_types_line_witness :
  exists d t,
    hid_run (flat_map (fun k => tap (fst k) (snd k))
      ([(2, ScanCode_ KA (Some 97) (Some 65) [0x1e; 0; 0; 0; 0; 0] [0x9e; 0; 0; 0; 0; 0] 0x04);
        (0, ScanCode_ KX (Some 120) (Some 88) [0x2d; 0; 0; 0; 0; 0] [0xad; 0; 0; 0; 0; 0] 0x1b);
        (0, ScanCode_ KBackspace (Some 8) None [0x0e; 0; 0; 0; 0; 0] [0x8e; 0; 0; 0; 0; 0] 0x2a);
        (0, ScanCode_ KB (Some 98) (Some 66) [0x30; 0; 0; 0; 0; 0] [0xb0; 0; 0; 0; 0; 0] 0x05)]
       ++ [(0, ScanCode_ KEnter (Some 10) None [0x1c; 0; 0; 0; 0; 0] [0x9c; 0; 0; 0; 0; 0] 0x28)]))
      (UsbHidKeyboardDriver_new ANSI_US_104_KEY_MAP, Tty_new true) = (Ok tt, (d, t))
    /\ fst (line t) = Ok (Some [65; 98; 10]) /\ tty_input_count (snd (line t)) = Ok 0.
Proof.
  apply (usb_keyboard_types_line ANSI_US_104_KEY_MAP true
    [(2, ScanCode_ KA (Some 97) (Some 65) [0x1e; 0; 0; 0; 0; 0] [0x9e; 0; 0; 0; 0; 0] 0x04);
     (0, ScanCode_ KX (Some 120) (Some 88) [0x2d; 0; 0; 0; 0; 0] [0xad; 0; 0; 0; 0; 0] 0x1b);
     (0, ScanCode_ KBackspace (Some 8) None [0x0e; 0; 0; 0; 0; 0] [0x8e; 0; 0; 0; 0; 0] 0x2a);
     (0, ScanCode_ KB (Some 98) (Some 66) [0x30; 0; 0; 0; 0; 0] [0xb0; 0; 0; 0; 0; 0] 0x05)]).
  - by right.
  - repeat (apply Forall_cons; split; [apply (bool_decide_unpack _); vm_compute; exact I|]).
    apply Forall_nil; exact I.
  - apply (bool_decide_unpack _); vm_compute; exact I.
  - reflexivity.
  - vm_compute. reflexivity.
  - vm_compute. reflexivity.
Defined.

Lemma hid_poll_types_new_keys_witness :
  exists (keys : list Z) d t,
    hid_poll (Ok [2; 0; 5; 4; 4; 0; 0; 0]) (MkHid (to_usb_hid_map ANSI_US_104_KEY_MAP) ModifierKeysState_default [5], Tty_new false)
    = (Ok tt, (d, t)) /\ (forall id, id ∈ keys <-> id = 4).
Proof.
  destruct (hid_poll_types_new_keys ANSI_US_104_KEY_MAP
              (MkHid (to_usb_hid_map ANSI_US_104_KEY_MAP) ModifierKeysState_default [5]) (Tty_new false) Term_new
              [2; 0; 5; 4; 4; 0; 0; 0] eq_refl (Tty_new_rep false)) as (keys & d & t & He & Hk & _).
  exists keys, d, t. split; [exact He|]. intros id. rewrite Hk. cbn [drop prev_pressed].
  rewrite !elem_of_cons, elem_of_nil. lia.
Defined.

Lemma char_read_hides_line_witness :
  fst (run_all tty_exec ([TInput 97; TInput 13; TInput 98; TInput 13; TChar; TChar] ++ [TLine; TCount]) (Tty_new true))
  = fst (run_all tty_exec [TInput 97; TInput 13; TInput 98; TInput 13; TChar; TChar] (Tty_new true))
    ++ [TrLine (Ok None); TrCount (Ok 2)].
Proof. exact (char_read_hides_line true [97] [98] eq_refl eq_refl eq_refl). Defined.
