(* ===== verification/Ansi.v ===== *)
(** * ANSI escape sequences of the console ([kernel/src/util/ansi.rs])

    [AnsiEscapeStream] is a state machine over characters (code points, as
    [Z]); the parameters of a CSI sequence are collected in a [Fifo<char, 16>]
    and parsed at its final letter.  The file models the machine with its
    buffer, and shows that it never fails and that it decodes every sequence
    of [CsiSequence] from its printed form. *)
From Stdlib Require Import ZArith Lia.
From stdpp Require Import base list.
From S2P Require Import Prelude KError Fifo.

(** ** Definitions *)

Inductive CsiSequence :=
| CursorUp (n : Z)
| CursorDown (n : Z)
| CursorRight (n : Z)
| CursorLeft (n : Z)
| CursorNextLineHead (n : Z)
| CursorPrevLineHead (n : Z)
| CursorColumn (n : Z)
| CursorPosition (row col : Z)
| ScrollUp (n : Z)
| ScrollDown (n : Z)
| ClearScreenAfterCursor
| ClearScreenBeforeCursor
| ClearScreenAll
| ClearRowAfterCursor
| ClearRowBeforeCursor
| ClearRowAll
| CharReset
| CharBold
| CharDim
| CharItalic
| CharUnderline
| CharBlink
| CharBlinkFast
| CharReverseColor
| CharHidden
| CharCancel
| ForeColorBlack
| ForeColorRed
| ForeColorGreen
| ForeColorYellow
| ForeColorBlue
| ForeColorMagenta
| ForeColorCyan
| ForeColorWhite
| BackColorBlack
| BackColorRed
| BackColorGreen
| BackColorYellow
| BackColorBlue
| BackColorMagenta
| BackColorCyan
| BackColorWhite.

Inductive AnsiEvent :=
| AnsiControlChar (c : Z)
| AnsiCsiSequence (s : CsiSequence).

Inductive AnsiState := AnsiNormal | AnsiEsc | AnsiCsi.

Record AnsiEscapeStream := MkAnsi {
  ansi_state : AnsiState;
  ansi_buf : Fifo Z
}.

Definition AnsiEscapeStream_new : AnsiEscapeStream :=
  {| ansi_state := AnsiNormal; ansi_buf := Fifo_new 16 0 |}.

Definition AnsiEscapeStream_reset (s : AnsiEscapeStream) : AnsiEscapeStream :=
  {| ansi_state := AnsiNormal; ansi_buf := Fifo_reset_ptr (ansi_buf s) |}.

(** Characters, by code point. *)
Definition ch_esc : Z := 27.
Definition ch_lbracket : Z := 91.
Definition ch_semicolon : Z := 59.
Definition ch_0 : Z := 48.
Definition is_ascii_digit (c : Z) : bool := (48 <=? c) && (c <=? 57).
Definition is_ascii_alphabetic (c : Z) : bool :=
  ((65 <=? c) && (c <=? 90)) || ((97 <=? c) && (c <=? 122)).

(** [str::parse] into an unsigned type of maximum [max], for a string of
    digits: empty and too large are errors. *)
Definition parse_digit (max : Z) (acc : option Z) (d : Z) : option Z :=
  match acc with
  | Some a => if a * 10 + (d - ch_0) <=? max then Some (a * 10 + (d - ch_0)) else None
  | None => None
  end.
Definition parse_num (max : Z) (digits : list Z) : option Z :=
  match digits with
  | [] => None
  | _ => fold_left (parse_digit max) digits (Some 0)
  end.
Definition parse_u32 : list Z -> option Z := parse_num (2 ^ 32 - 1).
Definition parse_i32 : list Z -> option Z := parse_num (2 ^ 31 - 1).

(** The letters that take a count, ['A' .. 'G'], ['S'] and ['T']. *)
Definition csi_count_seq (ch num : Z) : option CsiSequence :=
  if ch =? 65 then Some (CursorUp num)
  else if ch =? 66 then Some (CursorDown num)
  else if ch =? 67 then Some (CursorRight num)
  else if ch =? 68 then Some (CursorLeft num)
  else if ch =? 69 then Some (CursorNextLineHead num)
  else if ch =? 70 then Some (CursorPrevLineHead num)
  else if ch =? 71 then Some (CursorColumn num)
  else if ch =? 83 then Some (ScrollUp num)
  else if ch =? 84 then Some (ScrollDown num)
  else None.

(** ['J'] and ['K']: [None] is the source's [continue]. *)
Definition csi_clear_seq (ch : Z) (num : option Z) : option CsiSequence :=
  if ch =? 74 then
    match num with
    | Some 0 => Some ClearScreenAfterCursor
    | Some 1 => Some ClearScreenBeforeCursor
    | Some 2 => Some ClearScreenAll
    | Some _ => None
    | None => Some ClearScreenAfterCursor
    end
  else
    match num with
    | Some 0 => Some ClearRowAfterCursor
    | Some 1 => Some ClearRowBeforeCursor
    | Some 2 => Some ClearRowAll
    | Some _ => None
    | None => Some ClearRowAfterCursor
    end.

(** ['m']: [None] is the source's [continue]. *)
Definition csi_char_seq (num : option Z) : option CsiSequence :=
  match num with
  | None => Some CharReset
  | Some num =>
      if num =? 0 then Some CharReset
      else if num =? 1 then Some CharBold
      else if num =? 2 then Some CharDim
      else if num =? 3 then Some CharItalic
      else if num =? 4 then Some CharUnderline
      else if num =? 5 then Some CharBlink
      else if num =? 6 then Some CharBlinkFast
      else if num =? 7 then Some CharReverseColor
      else if num =? 8 then Some CharHidden
      else if num =? 9 then Some CharCancel
      else if num =? 30 then Some ForeColorBlack
      else if num =? 31 then Some ForeColorRed
      else if num =? 32 then Some ForeColorGreen
      else if num =? 33 then Some ForeColorYellow
      else if num =? 34 then Some ForeColorBlue
      else if num =? 35 then Some ForeColorMagenta
      else if num =? 36 then Some ForeColorCyan
      else if num =? 37 then Some ForeColorWhite
      else if num =? 40 then Some BackColorBlack
      else if num =? 41 then Some BackColorRed
      else if num =? 42 then Some BackColorGreen
      else if num =? 43 then Some BackColorYellow
      else if num =? 44 then Some BackColorBlue
      else if num =? 45 then Some BackColorMagenta
      else if num =? 46 then Some BackColorCyan
      else if num =? 47 then Some BackColorWhite
      else None
  end.

(** The loop over the collected characters, with its two number buffers. *)
Fixpoint parse_seq (num_buf1 num_buf2 : list Z) (seq : list Z) : option CsiSequence :=
  match seq with
  | [] => None
  | ch :: rest =>
      if is_ascii_digit ch then parse_seq (num_buf1 ++ [ch]) num_buf2 rest
      else match csi_count_seq ch (default 1 (parse_u32 num_buf1)) with
      | Some s => Some s
      | None =>
      if (ch =? 72) || (ch =? 102) then
        match parse_u32 num_buf1, parse_u32 num_buf2 with
        | Some num1, Some num2 => Some (CursorPosition num2 num1)
        | _, _ => parse_seq num_buf1 num_buf2 rest
        end
      else if (ch =? 74) || (ch =? 75) then
        match csi_clear_seq ch (parse_i32 num_buf1) with
        | Some s => Some s
        | None => parse_seq num_buf1 num_buf2 rest
        end
      else if ch =? 109 then
        match csi_char_seq (parse_i32 num_buf1) with
        | Some s => Some s
        | None => parse_seq num_buf1 num_buf2 rest
        end
      else if ch =? ch_semicolon then
        match num_buf1 with
        | [] => parse_seq num_buf1 num_buf2 rest
        | _ => parse_seq [] num_buf1 rest
        end
      else parse_seq num_buf1 num_buf2 rest
      end
  end.

(** [while let Ok(ch) = self.buf.dequeue()]; the fuel bounds the number of
    elements the buffer can hold. *)
Fixpoint drain_buf (fuel : nat) : SR (Fifo Z) (list Z) :=
  match fuel with
  | O => sret []
  | S n => fun f =>
      match Fifo_dequeue f with
      | (Ok ch, f') => (let! seq := drain_buf n in sret (ch :: seq)) f'
      | (Err _, f') => (Ok [], f')
      | (Panic, f') => (Panic, f')
      end
  end.

(** A [Fifo] operation on the stream's buffer. *)
Definition on_buf {A} (m : SR (Fifo Z) A) : SR AnsiEscapeStream A :=
  fun s => let '(r, b) := m (ansi_buf s) in
           (r, {| ansi_state := ansi_state s; ansi_buf := b |}).

Definition parse_csi_seq : SR AnsiEscapeStream (option AnsiEvent) :=
  let! s := sget in
  let! seq := on_buf (drain_buf (Z.to_nat (fifo_size (ansi_buf s)))) in
  do! smodify AnsiEscapeStream_reset in
  sret (AnsiCsiSequence <$> parse_seq [] [] seq).

Definition set_ansi_state (s : AnsiEscapeStream) (st : AnsiState) : AnsiEscapeStream :=
  {| ansi_state := st; ansi_buf := ansi_buf s |}.
Definition set_ansi_buf (s : AnsiEscapeStream) (b : Fifo Z) : AnsiEscapeStream :=
  {| ansi_state := ansi_state s; ansi_buf := b |}.

Definition AnsiEscapeStream_push (c : Z) : SR AnsiEscapeStream (option AnsiEvent) :=
  let! s := sget in
  match ansi_state s with
  | AnsiNormal =>
      if c =? ch_esc then
        do! sput (set_ansi_state s AnsiEsc) in
        sret (Some (AnsiControlChar c))
      else sret None
  | AnsiEsc =>
      if c =? ch_lbracket then
        do! sput (set_ansi_buf (set_ansi_state s AnsiCsi) (Fifo_reset_ptr (ansi_buf s))) in
        sret (Some (AnsiControlChar c))
      else
        do! sput (set_ansi_state s AnsiNormal) in
        sret None
  | AnsiCsi =>
      do! (fun s => match on_buf (Fifo_enqueue c) s with
                    | (Ok _, s') => (Ok tt, s')
                    | (Panic, s') => (Panic, s')
                    | (Err _, s') =>
                        (do! smodify (fun s => set_ansi_buf s (Fifo_reset_ptr (ansi_buf s))) in
                         on_buf (Fifo_enqueue c)) s'
                    end) in
      (* end of CSI sequence *)
      if is_ascii_alphabetic c then parse_csi_seq
      else sret (Some (AnsiControlChar c))
  end.

(** The stream fed with a text, and the events it reports. *)
Fixpoint ansi_feed (text : list Z) : SR AnsiEscapeStream (list (option AnsiEvent)) :=
  match text with
  | [] => sret []
  | c :: text' =>
      let! e := AnsiEscapeStream_push c in
      let! es := ansi_feed text' in
      sret (e :: es)
  end.

(** ** Specification: the printed form of a sequence *)

Fixpoint to_dec (fuel : nat) (n : Z) : list Z :=
  match fuel with
  | O => []
  | S f => ((if n <? 10 then [] else to_dec f (n / 10)) ++ [ch_0 + n mod 10])%list
  end.

(** The parameters and the final letter of a sequence. *)
Definition csi_print (s : CsiSequence) : list Z * Z :=
  let num := to_dec 10 in
  match s with
  | CursorUp n => (num n, 65)
  | CursorDown n => (num n, 66)
  | CursorRight n => (num n, 67)
  | CursorLeft n => (num n, 68)
  | CursorNextLineHead n => (num n, 69)
  | CursorPrevLineHead n => (num n, 70)
  | CursorColumn n => (num n, 71)
  | CursorPosition row col => ((num row ++ [ch_semicolon] ++ num col)%list, 72)
  | ScrollUp n => (num n, 83)
  | ScrollDown n => (num n, 84)
  | ClearScreenAfterCursor => (num 0, 74)
  | ClearScreenBeforeCursor => (num 1, 74)
  | ClearScreenAll => (num 2, 74)
  | ClearRowAfterCursor => (num 0, 75)
  | ClearRowBeforeCursor => (num 1, 75)
  | ClearRowAll => (num 2, 75)
  | CharReset => (num 0, 109)
  | CharBold => (num 1, 109)
  | CharDim => (num 2, 109)
  | CharItalic => (num 3, 109)
  | CharUnderline => (num 4, 109)
  | CharBlink => (num 5, 109)
  | CharBlinkFast => (num 6, 109)
  | CharReverseColor => (num 7, 109)
  | CharHidden => (num 8, 109)
  | CharCancel => (num 9, 109)
  | ForeColorBlack => (num 30, 109)
  | ForeColorRed => (num 31, 109)
  | ForeColorGreen => (num 32, 109)
  | ForeColorYellow => (num 33, 109)
  | ForeColorBlue => (num 34, 109)
  | ForeColorMagenta => (num 35, 109)
  | ForeColorCyan => (num 36, 109)
  | ForeColorWhite => (num 37, 109)
  | BackColorBlack => (num 40, 109)
  | BackColorRed => (num 41, 109)
  | BackColorGreen => (num 42, 109)
  | BackColorYellow => (num 43, 109)
  | BackColorBlue => (num 44, 109)
  | BackColorMagenta => (num 45, 109)
  | BackColorCyan => (num 46, 109)
  | BackColorWhite => (num 47, 109)
  end.

(** Parameters in range: counts are [u32]; the two numbers of a position leave
    room for the separator and the letter in the 15 places of the buffer. *)
Definition csi_ok (s : CsiSequence) : bool :=
  match s with
  | CursorUp n | CursorDown n | CursorRight n | CursorLeft n | CursorNextLineHead n
  | CursorPrevLineHead n | CursorColumn n | ScrollUp n | ScrollDown n => is_uint 32 n
  | CursorPosition row col =>
      (0 <=? row) && (row <? 10 ^ 6) && (0 <=? col) && (col <? 10 ^ 6)
  | _ => true
  end.

Definition csi_text (s : CsiSequence) : list Z :=
  ([ch_esc; ch_lbracket] ++ fst (csi_print s) ++ [snd (csi_print s)])%list.

(** What a terminal reports for it: a control character for each character but
    the last, then the sequence. *)
Definition csi_events (s : CsiSequence) : list (option AnsiEvent) :=
  (map (fun c => Some (AnsiControlChar c)) ([ch_esc; ch_lbracket] ++ fst (csi_print s))
   ++ [Some (AnsiCsiSequence s)])%list.

Definition ansi_wf (s : AnsiEscapeStream) : Prop :=
  fifo_wf (ansi_buf s) /\ fifo_size (ansi_buf s) = 16.

(** ** Lemmas *)

Lemma fifo_enqueue_size f (v : Z) : fifo_wf f -> fifo_size (snd (Fifo_enqueue v f)) = fifo_size f.
Proof. intros Hwf. rewrite (fifo_enqueue_run f v Hwf). by destruct (_ =? _). Qed.

Lemma fifo_dequeue_size (f : Fifo Z) : fifo_wf f -> fifo_size (snd (Fifo_dequeue f)) = fifo_size f.
Proof. intros Hwf. rewrite (fifo_dequeue_run f Hwf). by destruct (_ =? _). Qed.

(** Enough fuel drains the whole buffer, oldest character first. *)
Lemma drain_buf_all fuel f :
  fifo_wf f -> (length (fifo_abs f) < fuel)%nat ->
  exists f', drain_buf fuel f = (Ok (fifo_abs f), f') /\ fifo_wf f' /\ fifo_size f' = fifo_size f.
Proof.
  revert f. induction fuel as [|fuel IH]; intros f Hwf Hlen; [lia|].
  destruct (fifo_dequeue_spec f Hwf) as [Hwf' Hq]. pose proof (fifo_dequeue_size f Hwf) as Hsz.
  simpl. destruct (Fifo_dequeue f) as [r f']. simpl in *.
  destruct (fifo_abs f) as [|x q]; simpl in Hq; injection Hq as -> Hq.
  - exists f'. by rewrite <- Hsz.
  - destruct (IH f' Hwf') as (f'' & Hd & Hwf'' & Hs''); [rewrite Hq; simpl in Hlen; lia|].
    exists f''. unfold sbind. rewrite Hd, Hq, <- Hsz. done.
Qed.

Lemma enqueue_room f (c : Z) :
  fifo_wf f -> Z.of_nat (length (fifo_abs f)) < fifo_size f - 1 ->
  exists f', Fifo_enqueue c f = (Ok tt, f') /\ fifo_wf f' /\ fifo_size f' = fifo_size f
             /\ fifo_abs f' = (fifo_abs f ++ [c])%list.
Proof.
  intros Hwf Hlen. destruct (fifo_enqueue_spec f c Hwf) as [H1 H2].
  pose proof (fifo_enqueue_size f c Hwf) as H3. unfold spec_enqueue in H2.
  destruct (Z.ltb_spec (Z.of_nat (length (fifo_abs f))) (fifo_size f - 1)); [|lia].
  destruct (Fifo_enqueue c f) as [r f']. simpl in *. injection H2 as -> H2. eauto.
Qed.

(** Collecting a character: the oldest ones are dropped when the buffer is full. *)
Lemma push_csi_collect s c :
  ansi_wf s -> ansi_state s = AnsiCsi ->
  exists s', ansi_wf s' /\ ansi_state s' = AnsiCsi
    /\ fifo_abs (ansi_buf s')
       = ((if Z.of_nat (length (fifo_abs (ansi_buf s))) <? 15
           then fifo_abs (ansi_buf s) else []) ++ [c])%list
    /\ AnsiEscapeStream_push c s
       = (if is_ascii_alphabetic c then parse_csi_seq s' else (Ok (Some (AnsiControlChar c)), s')).
Proof.
  intros [Hwf Hsz] Hst. unfold AnsiEscapeStream_push, on_buf. unfold sbind at 1, sget at 1. rewrite Hst.
  destruct (Z.ltb_spec (Z.of_nat (length (fifo_abs (ansi_buf s)))) 15) as [Hlt|Hge].
  - destruct (enqueue_room (ansi_buf s) c Hwf) as (f' & He & Hwf' & Hs' & Ha'); [lia|].
    exists (set_ansi_buf s f'). unfold ansi_wf, sbind, sret. rewrite He, Hst. simpl.
    split_and!; [done|congruence|done|done|]. unfold set_ansi_buf. rewrite Hst.
    by destruct (is_ascii_alphabetic c).
  - destruct (fifo_enqueue_spec (ansi_buf s) c Hwf) as [H1 H2]. unfold spec_enqueue in H2.
    destruct (Z.ltb_spec (Z.of_nat (length (fifo_abs (ansi_buf s)))) (fifo_size (ansi_buf s) - 1)); [lia|].
    pose proof (fifo_enqueue_size _ c Hwf) as H3.
    unfold sbind, sret, smodify. destruct (Fifo_enqueue c (ansi_buf s)) as [r f1].
    simpl in *. injection H2 as -> H2.
    destruct (enqueue_room (Fifo_reset_ptr f1) c (fifo_reset_wf f1 H1)) as (f' & He & Hwf' & Hs' & Ha').
    { rewrite (fifo_reset_abs f1 H1). simpl. lia. }
    exists (set_ansi_buf s f'). unfold ansi_wf. rewrite He, Hst.
    rewrite (fifo_reset_abs f1 H1) in Ha'. simpl in Hs'. simpl.
    split_and!; [done|congruence|done|done|]. unfold set_ansi_buf. rewrite Hst.
    by destruct (is_ascii_alphabetic c).
Qed.

Lemma parse_csi_seq_run s :
  ansi_wf s ->
  exists s', parse_csi_seq s = (Ok (AnsiCsiSequence <$> parse_seq [] [] (fifo_abs (ansi_buf s))), s')
    /\ ansi_wf s' /\ ansi_state s' = AnsiNormal.
Proof.
  intros [Hwf Hsz]. pose proof (length_fifo_abs _ Hwf) as Hl.
  assert (fifo_count (ansi_buf s) < 16) by (unfold fifo_count; rewrite Hsz; apply Z.mod_pos_bound; lia).
  destruct (drain_buf_all (Z.to_nat (fifo_size (ansi_buf s))) (ansi_buf s) Hwf) as (f' & Hd & Hwf' & Hs');
    [lia|].
  eexists. unfold parse_csi_seq, sbind, sget, on_buf, smodify, sret. rewrite Hd.
  split; [done|]. unfold ansi_wf. simpl. split; [|done]. split; [by apply fifo_reset_wf|congruence].
Qed.

(** The events of characters that are not letters, inside a sequence. *)
Lemma feed_csi_body l s :
  ansi_wf s -> ansi_state s = AnsiCsi -> Forall (fun c => is_ascii_alphabetic c = false) l ->
  Z.of_nat (length (fifo_abs (ansi_buf s)) + length l) <= 15 ->
  exists s', ansi_feed l s = (Ok (map (fun c => Some (AnsiControlChar c)) l), s')
    /\ ansi_wf s' /\ ansi_state s' = AnsiCsi
    /\ fifo_abs (ansi_buf s') = (fifo_abs (ansi_buf s) ++ l)%list.
Proof.
  intros Hwf Hst Hl. revert s Hwf Hst. induction Hl as [|c l Hc Hl IH]; intros s Hwf Hst Hlen.
  - exists s. by rewrite app_nil_r.
  - destruct (push_csi_collect s c Hwf Hst) as (s1 & Hwf1 & Hst1 & Ha1 & Hp).
    rewrite Hc in Hp. simpl in Hlen.
    destruct (Z.ltb_spec (Z.of_nat (length (fifo_abs (ansi_buf s)))) 15); [|lia].
    destruct (IH s1 Hwf1 Hst1) as (s2 & Hf & Hwf2 & Hst2 & Ha2).
    { rewrite Ha1, length_app. simpl. lia. }
    exists s2. simpl. unfold sbind. rewrite Hp, Hf. simpl. rewrite Ha2, Ha1, <- app_assoc. done.
Qed.

Lemma ansi_feed_app a b s es s' :
  ansi_feed a s = (Ok es, s') ->
  ansi_feed (a ++ b)%list s
  = match ansi_feed b s' with
    | (Ok es', s'') => (Ok (es ++ es')%list, s'')
    | (Err e, s'') => (Err e, s'')
    | (Panic, s'') => (Panic, s'')
    end.
Proof.
  revert s es. induction a as [|c a IH]; intros s es; simpl.
  - unfold sret. intros [= <- <-]. by destruct (ansi_feed b s) as [[] ?].
  - unfold sbind. destruct (AnsiEscapeStream_push c s) as [[e| |] s1]; [|discriminate..].
    destruct (ansi_feed a s1) as [[es1| |] s2] eqn:E; [|discriminate..].
    unfold sret. intros [= <- <-]. rewrite (IH s1 es1 E).
    by destruct (ansi_feed b s2) as [[] ?].
Qed.

(** ** Numbers *)

Lemma to_dec_digits fuel n :
  0 <= n -> Forall (fun c => is_ascii_digit c = true) (to_dec fuel n).
Proof.
  revert n. induction fuel as [|fuel IH]; intros n Hn; simpl; [constructor|].
  apply Forall_app. split.
  - destruct (n <? 10); [constructor|]. apply IH, Z.div_pos; lia.
  - constructor; [|constructor]. unfold is_ascii_digit, ch_0.
    pose proof (Z.mod_pos_bound n 10). apply andb_true_iff; split; apply Z.leb_le; lia.
Qed.

Lemma length_to_dec fuel (k : nat) n :
  0 <= n < 10 ^ Z.of_nat k -> (1 <= k)%nat -> (length (to_dec fuel n) <= k)%nat.
Proof.
  revert k n. induction fuel as [|fuel IH]; intros k n Hn Hk; simpl; [lia|].
  rewrite length_app. simpl. destruct (Z.ltb_spec n 10); simpl; [lia|].
  destruct k as [|k]; [lia|]. rewrite Nat2Z.inj_succ, Z.pow_succ_r in Hn by lia.
  destruct (decide (k = 0%nat)) as [->|]; [simpl in Hn; lia|].
  assert (length (to_dec fuel (n / 10)) <= k)%nat; [|lia].
  apply IH; [|lia]. split; [apply Z.div_pos; lia|]. apply Z.div_lt_upper_bound; lia.
Qed.

Lemma to_dec_nonempty fuel n : to_dec (S fuel) n <> [].
Proof. simpl. by destruct (if n <? 10 then _ else _). Qed.

Lemma parse_to_dec max (fuel : nat) n :
  0 <= n < 10 ^ Z.of_nat fuel -> n <= max -> (1 <= fuel)%nat ->
  parse_num max (to_dec fuel n) = Some n.
Proof.
  intros Hn Hmax Hf.
  assert (fold_left (parse_digit max) (to_dec fuel n) (Some 0) = Some n) as H.
  { revert n Hn Hmax. induction fuel as [|fuel IH]; intros n Hn Hmax; [lia|].
    simpl. rewrite fold_left_app. simpl. pose proof (Z.div_mod n 10 ltac:(lia)) as Hdm.
    assert ((if n <? 10 then Some 0
             else fold_left (parse_digit max) (to_dec fuel (n / 10)) (Some 0))
            = Some (n / 10)) as E.
    { destruct (Z.ltb_spec n 10); [by rewrite Z.div_small by lia|].
      rewrite Nat2Z.inj_succ, Z.pow_succ_r in Hn by lia.
      destruct fuel as [|fuel]; [simpl in Hn; lia|].
      apply IH; [lia| |]; [|apply Z.div_le_upper_bound; lia].
      split; [apply Z.div_pos; lia|]. apply Z.div_lt_upper_bound; lia. }
    replace (fold_left _ (if n <? 10 then [] else to_dec fuel (n / 10)) (Some 0)) with (Some (n / 10))
      by (rewrite <- E; by destruct (n <? 10)).
    unfold parse_digit. replace (n / 10 * 10 + (ch_0 + n mod 10 - ch_0)) with n by lia.
    by destruct (Z.leb_spec n max); [|lia]. }
  unfold parse_num. destruct (to_dec fuel n) eqn:E; [|done].
  destruct fuel; [lia|]. by apply to_dec_nonempty in E.
Qed.

Lemma digit_not_alphabetic c : is_ascii_digit c = true -> is_ascii_alphabetic c = false.
Proof. unfold is_ascii_digit, is_ascii_alphabetic. bool_cases; simpl; lia. Qed.

Lemma parse_seq_digits b1 b2 l r :
  Forall (fun c => is_ascii_digit c = true) l ->
  parse_seq b1 b2 (l ++ r)%list = parse_seq (b1 ++ l)%list b2 r.
Proof.
  intros H. revert b1. induction H as [|c l Hc Hl IH]; intros b1; simpl; [by rewrite app_nil_r|].
  rewrite Hc, IH. by rewrite <- app_assoc.
Qed.

Lemma parse_seq_count n ch :
  is_uint 32 n = true -> is_ascii_digit ch = false ->
  parse_seq [] [] (to_dec 10 n ++ [ch])%list
  = match csi_count_seq ch n with Some s => Some s | None => parse_seq (to_dec 10 n) [] [ch] end.
Proof.
  intros Hn%is_uint_spec Hch. rewrite parse_seq_digits by (apply to_dec_digits; lia).
  assert (parse_u32 (to_dec 10 n) = Some n) as Hp by (apply parse_to_dec; lia).
  set (d := to_dec 10 n) in *. clearbody d. simpl. rewrite Hch, Hp. simpl.
  by destruct (csi_count_seq ch n).
Qed.

Lemma parse_seq_position row col :
  0 <= row < 10 ^ 6 -> 0 <= col < 10 ^ 6 ->
  parse_seq [] [] ((to_dec 10 row ++ [ch_semicolon] ++ to_dec 10 col) ++ [72])%list
  = Some (CursorPosition row col).
Proof.
  intros Hr Hc. rewrite <- !app_assoc. rewrite parse_seq_digits by (apply to_dec_digits; lia).
  pose proof (to_dec_nonempty 9 row) as Hne.
  assert (parse_u32 (to_dec 10 row) = Some row) as Hpr by (apply parse_to_dec; lia).
  assert (parse_u32 (to_dec 10 col) = Some col) as Hpc by (apply parse_to_dec; lia).
  rewrite app_nil_l. destruct (to_dec 10 row) as [|x l] eqn:E; [done|]. rewrite <- E in *.
  change (parse_seq (to_dec 10 row) [] ([ch_semicolon] ++ to_dec 10 col ++ [72]))
    with (match to_dec 10 row with
          | [] => parse_seq (to_dec 10 row) [] (to_dec 10 col ++ [72])
          | _ => parse_seq [] (to_dec 10 row) (to_dec 10 col ++ [72])
          end).
  rewrite E at 1. rewrite parse_seq_digits by (apply to_dec_digits; lia).
  set (dr := to_dec 10 row) in *. set (dc := to_dec 10 col) in *. clearbody dr dc.
  simpl. by rewrite Hpr, Hpc.
Qed.

(** Printing and parsing the parameters of a sequence. *)
Lemma parse_print_seq s :
  csi_ok s = true -> parse_seq [] [] (fst (csi_print s) ++ [snd (csi_print s)])%list = Some s.
Proof.
  destruct s; intros Hok;
    try (cbn [csi_print fst snd]; rewrite parse_seq_count by done; reflexivity).
  cbn [csi_print fst snd]. apply andb_true_iff in Hok as [Hok H4].
  apply andb_true_iff in Hok as [Hok H3]. apply andb_true_iff in Hok as [H1 H2].
  apply parse_seq_position; lia.
Qed.

Lemma csi_print_fits s :
  csi_ok s = true ->
  Z.of_nat (length (fst (csi_print s))) <= 13
  /\ Forall (fun c => is_ascii_alphabetic c = false) (fst (csi_print s))
  /\ is_ascii_alphabetic (snd (csi_print s)) = true.
Proof.
  assert (forall n, 0 <= n < 10 ^ 10 ->
            (length (to_dec 10 n) <= 13)%nat
            /\ Forall (fun c => is_ascii_alphabetic c = false) (to_dec 10 n)) as Hnum.
  { intros n Hn. split.
    - assert (length (to_dec 10 n) <= 10)%nat; [|lia]. apply length_to_dec; lia.
    - eapply Forall_impl; [apply to_dec_digits; lia|]. apply digit_not_alphabetic. }
  intros Hok. destruct s; cbn [csi_print fst snd];
    try (match goal with |- Z.of_nat (length (to_dec 10 ?n)) <= 13 /\ _ =>
           destruct (Hnum n) as [? ?]; [try apply is_uint_spec in Hok; lia|];
           split_and!; [lia|done|done] end).
  simpl in Hok. apply andb_true_iff in Hok as [Hok H4].
  apply andb_true_iff in Hok as [Hok H3]. apply andb_true_iff in Hok as [H1 H2].
  pose proof (length_to_dec 10 6 row ltac:(lia) ltac:(lia)).
  pose proof (length_to_dec 10 6 col ltac:(lia) ltac:(lia)).
  split_and!.
  - rewrite !length_app. simpl length at 2. lia.
  - apply Forall_app. split; [apply Hnum; lia|].
    apply Forall_app. split; [by repeat constructor | apply Hnum; lia].
  - done.
Qed.

(** ** Properties *)

(** The stream never fails: from a well-formed state, pushing any character
    returns [Ok] (no error from the buffer, no panic) and the state stays
    well-formed. *)
Theorem Ansi_push_total s c :
  ansi_wf s -> exists e s', AnsiEscapeStream_push c s = (Ok e, s') /\ ansi_wf s'.
Proof.
  intros Hwf. destruct (ansi_state s) eqn:Hst.
  - unfold AnsiEscapeStream_push, sbind, sget, sput, sret. rewrite Hst. destruct (c =? ch_esc); eauto.
  - unfold AnsiEscapeStream_push, sbind, sget, sput, sret. rewrite Hst.
    destruct (c =? ch_lbracket); [|eauto]. do 2 eexists. split; [done|].
    destruct Hwf. by split; [apply fifo_reset_wf|].
  - destruct (push_csi_collect s c Hwf Hst) as (s' & Hwf' & _ & _ & ->).
    destruct (is_ascii_alphabetic c); [|eauto].
    destruct (parse_csi_seq_run s' Hwf') as (s'' & -> & ? & _). eauto.
Qed.

Lemma Ansi_push_total_witness :
  ansi_wf AnsiEscapeStream_new
  /\ exists e s', AnsiEscapeStream_push ch_esc AnsiEscapeStream_new = (Ok e, s') /\ ansi_wf s'.
Proof.
  assert (ansi_wf AnsiEscapeStream_new) as H
    by (split; [apply fifo_new_wf; lia | reflexivity]).
  split; [exact H | exact (Ansi_push_total _ _ H)].
Defined.

(** C37: the stream decodes what is printed: fed with the text of a sequence
    ([ESC \[ parameters letter]) in its normal state, it reports a control
    character for each character before the letter and then exactly that
    sequence, and is back in its normal state.  Counts are any [u32]; row and
    column are below [10^6], so that the text fits the 15 places of the buffer. *)
Theorem Ansi_roundtrip seq s :
  ansi_wf s -> ansi_state s = AnsiNormal -> csi_ok seq = true ->
  exists s', ansi_feed (csi_text seq) s = (Ok (csi_events seq), s')
    /\ ansi_wf s' /\ ansi_state s' = AnsiNormal.
Proof.
  intros Hwf Hst Hok. destruct (csi_print_fits seq Hok) as (Hlen & Hbody & Hlast).
  set (s0 := set_ansi_buf (set_ansi_state s AnsiCsi) (Fifo_reset_ptr (ansi_buf s))).
  assert (ansi_wf s0) as Hwf0 by (destruct Hwf; by split; [apply fifo_reset_wf|]).
  assert (ansi_feed [ch_esc; ch_lbracket] s
          = (Ok [Some (AnsiControlChar ch_esc); Some (AnsiControlChar ch_lbracket)], s0)) as Hpre.
  { simpl. unfold AnsiEscapeStream_push, sbind, sget, sput, sret. rewrite Hst. reflexivity. }
  assert (fifo_abs (ansi_buf s0) = []) as Ha0 by (destruct Hwf; by apply fifo_reset_abs).
  destruct (feed_csi_body (fst (csi_print seq)) s0 Hwf0 eq_refl Hbody) as (s1 & Hf & Hwf1 & Hst1 & Ha1).
  { rewrite Ha0. simpl. lia. }
  destruct (push_csi_collect s1 (snd (csi_print seq)) Hwf1 Hst1) as (s2 & Hwf2 & _ & Ha2 & Hp).
  rewrite Hlast in Hp. rewrite Ha1, Ha0, app_nil_l in Ha2.
  destruct (Z.ltb_spec (Z.of_nat (length (fst (csi_print seq)))) 15); [|lia].
  destruct (parse_csi_seq_run s2 Hwf2) as (s3 & Hr & Hwf3 & Hst3).
  rewrite Ha2, (parse_print_seq seq Hok) in Hr. exists s3. split; [|done].
  unfold csi_text, csi_events. rewrite (ansi_feed_app _ _ _ _ _ Hpre).
  rewrite (ansi_feed_app _ [snd (csi_print seq)] _ _ _ Hf). simpl. unfold sbind.
  by rewrite Hp, Hr.
Qed.

Lemma Ansi_roundtrip_witness :
  exists s', ansi_feed [27; 91; 50; 52; 59; 53; 49; 72] AnsiEscapeStream_new
             = (Ok (csi_events (CursorPosition 24 51)), s')
    /\ ansi_wf s' /\ ansi_state s' = AnsiNormal.
Proof.
  assert (ansi_wf AnsiEscapeStream_new) as H
    by (split; [apply fifo_new_wf; lia | reflexivity]).
  exact (Ansi_roundtrip (CursorPosition 24 51) AnsiEscapeStream_new H eq_refl eq_refl).
Defined.
