(* ===== verification/Elf.v ===== *)
(** * ELF images ([common/src/elf.rs])

    An image is the bytes of a file as they lie in memory: the code reads headers
    through pointers without looking at the length, so what lies behind the bytes
    is part of the model. *)
From Stdlib Require Import ZArith Lia.
From stdpp Require Import base list strings.
From S2P Require Import Prelude Utf8 KError.

#[local] Open Scope string_scope.
#[local] Open Scope list_scope.
#[local] Open Scope Z_scope.

Definition MAGIC : list Z := [0x7f; 0x45; 0x4c; 0x46].

(** ** Enumerations *)

Inductive ElfClass := Bit32 | Bit64 | ClassOther (x : Z).

Definition ElfClass_from (value : Z) : ElfClass :=
  if value =? 1 then Bit32 else if value =? 2 then Bit64 else ClassOther value.

Inductive ElfData := LittleEndian | BigEndian | DataOther (x : Z).

Definition ElfData_from (value : Z) : ElfData :=
  if value =? 1 then LittleEndian else if value =? 2 then BigEndian else DataOther value.

Inductive ElfType := Relocatable | Executable | Shared | Core | TypeOther (x : Z).

Definition ElfType_from (value : Z) : ElfType :=
  match value with
  | 1 => Relocatable
  | 2 => Executable
  | 3 => Shared
  | 4 => Core
  | x => TypeOther x
  end.

Inductive ElfMachine :=
| MachineNone | Sparc | X86 | Mips | PowerPc | Arm | SuperH | Ia64 | X8664 | Aarch64 | RiscV
| MachineOther (x : Z).

Definition ElfMachine_from (value : Z) : ElfMachine :=
  match value with
  | 0x00 => MachineNone
  | 0x02 => Sparc
  | 0x03 => X86
  | 0x08 => Mips
  | 0x14 => PowerPc
  | 0x28 => Arm
  | 0x2a => SuperH
  | 0x32 => Ia64
  | 0x3e => X8664
  | 0xb7 => Aarch64
  | 0xf3 => RiscV
  | x => MachineOther x
  end.

Inductive SegmentType :=
| SegNull | Load | Dynamic | Interpreter | Note | SegReserved | ProgramHeader | ThreadLocalStorage
| OsSpecLow | OsSpecHigh | ProcSpecLow | ProcSpecHigh
| SegOther (x : Z).

Definition SegmentType_from (value : Z) : SegmentType :=
  match value with
  | 0x00000000 => SegNull
  | 0x00000001 => Load
  | 0x00000002 => Dynamic
  | 0x00000003 => Interpreter
  | 0x00000004 => Note
  | 0x00000005 => SegReserved
  | 0x00000006 => ProgramHeader
  | 0x00000007 => ThreadLocalStorage
  | 0x60000000 => OsSpecLow
  | 0x6fffffff => OsSpecHigh
  | 0x70000000 => ProcSpecLow
  | 0x7fffffff => ProcSpecHigh
  | x => SegOther x
  end.

Inductive SegmentFlags := FlagExecutable | FlagWritable | FlagReadable | FlagOther (x : Z).

Definition SegmentFlags_from (value : Z) : SegmentFlags :=
  match value with
  | 0x1 => FlagExecutable
  | 0x2 => FlagWritable
  | 0x4 => FlagReadable
  | x => FlagOther x
  end.

Inductive SectionHeaderType :=
| SecNull | Program | SymbolTable | StringTable | RelocationEntriesWithAddends | SymbolHashTable
| DynamicLinkInfo | Notes | Bss | RelocationEntries | SecReserved | DynamicLinkSymbolTable
| Constructors | Destructors | PreConstructors | Group | SymbolTableSectionHeaderIndex
| NumberOfDefinedTypes | OsSpec
| SecOther (x : Z).

Definition SectionHeaderType_from (value : Z) : SectionHeaderType :=
  match value with
  | 0x00 => SecNull
  | 0x01 => Program
  | 0x02 => SymbolTable
  | 0x03 => StringTable
  | 0x04 => RelocationEntriesWithAddends
  | 0x05 => SymbolHashTable
  | 0x06 => DynamicLinkInfo
  | 0x07 => Notes
  | 0x08 => Bss
  | 0x09 => RelocationEntries
  | 0x0a => SecReserved
  | 0x0b => DynamicLinkSymbolTable
  | 0x0e => Constructors
  | 0x0f => Destructors
  | 0x10 => PreConstructors
  | 0x11 => Group
  | 0x12 => SymbolTableSectionHeaderIndex
  | 0x13 => NumberOfDefinedTypes
  | 0x60000000 => OsSpec
  | x => SecOther x
  end.

#[export] Instance ElfType_eq_dec : EqDecision ElfType.
Proof. solve_decision. Defined.
#[export] Instance ElfMachine_eq_dec : EqDecision ElfMachine.
Proof. solve_decision. Defined.
#[export] Instance SegmentType_eq_dec : EqDecision SegmentType.
Proof. solve_decision. Defined.
#[export] Instance SectionHeaderType_eq_dec : EqDecision SectionHeaderType.
Proof. solve_decision. Defined.

(** ** Headers

    The offsets are those of [repr(C)]: [verison1] is a byte, followed by three
    bytes of padding. *)

Record Elf64Header := MkElf64Header {
  magic : list Z;
  eh_class : Z;
  eh_data : Z;
  version0 : Z;
  os_abi : Z;
  abi_version : Z;
  eh_reserved : list Z;
  type_ : Z;
  eh_machine : Z;
  verison1 : Z;
  entry_point : Z;
  ph_offset : Z;
  sh_offset : Z;
  eh_flags : Z;
  eh_size : Z;
  ph_entry_size : Z;
  ph_num : Z;
  sh_entry_size : Z;
  sh_num : Z;
  sh_str_index : Z
}.

Record Elf64ProgramHeader := MkElf64ProgramHeader {
  ph_segment_type : Z;
  ph_flags : Z;
  ph_file_offset : Z;
  ph_virt_addr : Z;
  ph_phys_addr : Z;
  ph_file_size : Z;
  ph_mem_size : Z;
  ph_align : Z
}.

Record Elf64SectionHeader := MkElf64SectionHeader {
  sh_name : Z;
  sh_header_type : Z;
  sh_flags : Z;
  sh_addr : Z;
  sh_file_offset : Z;
  sh_size : Z;
  sh_link : Z;
  sh_info : Z;
  sh_addr_align : Z;
  sh_ent_size : Z
}.

Definition is_valid (h : Elf64Header) : bool := bool_decide (magic h = MAGIC).
Definition class (h : Elf64Header) : ElfClass := ElfClass_from (eh_class h).
Definition data_encoding (h : Elf64Header) : ElfData := ElfData_from (eh_data h).
Definition elf_type (h : Elf64Header) : ElfType := ElfType_from (type_ h).
Definition elf_machine (h : Elf64Header) : ElfMachine := ElfMachine_from (eh_machine h).
Definition segment_type (ph : Elf64ProgramHeader) : SegmentType := SegmentType_from (ph_segment_type ph).
Definition segment_flags (ph : Elf64ProgramHeader) : SegmentFlags := SegmentFlags_from (ph_flags ph).
Definition header_type (sh : Elf64SectionHeader) : SectionHeaderType := SectionHeaderType_from (sh_header_type sh).

Definition PROGRAM_HEADER_SIZE : Z := 56.
Definition SECTION_HEADER_SIZE : Z := 64.

(** ** Images *)

(** The file's bytes, and the bytes of the memory around them by distance from
    their start. *)
Record Elf64 := MkElf64 {
  elf_data : list Z;
  elf_around : Z -> Z
}.

Section Elf.
Implicit Types e : Elf64.

Definition elf_byte e (k : Z) : Z :=
  if 0 <=? k then default (elf_around e k) (elf_data e !! Z.to_nat k) else elf_around e k.

(** A little-endian integer of [n] bytes, and [n] bytes, at a distance. *)
Definition elf_bytes e (off : Z) (n : nat) : list Z := (fun i => elf_byte e (off + i)) <$> seqZ 0 (Z.of_nat n).
Definition elf_int e (off : Z) (n : nat) : Z := from_le_bytes (elf_bytes e off n).

Definition header e : Elf64Header :=
  {| magic := elf_bytes e 0 4; eh_class := elf_byte e 4; eh_data := elf_byte e 5;
     version0 := elf_byte e 6; os_abi := elf_byte e 7; abi_version := elf_byte e 8;
     eh_reserved := elf_bytes e 9 7; type_ := elf_int e 16 2; eh_machine := elf_int e 18 2;
     verison1 := elf_byte e 20; entry_point := elf_int e 24 8; ph_offset := elf_int e 32 8;
     sh_offset := elf_int e 40 8; eh_flags := elf_int e 48 4; eh_size := elf_int e 52 2;
     ph_entry_size := elf_int e 54 2; ph_num := elf_int e 56 2; sh_entry_size := elf_int e 58 2;
     sh_num := elf_int e 60 2; sh_str_index := elf_int e 62 2 |}.

Definition Elf64_new (data : list Z) (around : Z -> Z) : outcome Elf64Error Elf64 :=
  let e := {| elf_data := data; elf_around := around |} in
  if negb (is_valid (header e)) then Err InvalidMagicNumber else Ok e.

(** [x as isize] and the checked sum of two [isize]. *)
Definition as_isize (x : Z) : Z := if x <? 2 ^ 63 then x else x - 2 ^ 64.
Definition isize_add (a b : Z) : Result Z :=
  if (- 2 ^ 63 <=? a + b) && (a + b <? 2 ^ 63) then Ok (a + b) else Panic.

Definition program_header_at e (off : Z) : Elf64ProgramHeader :=
  {| ph_segment_type := elf_int e off 4; ph_flags := elf_int e (off + 4) 4;
     ph_file_offset := elf_int e (off + 8) 8; ph_virt_addr := elf_int e (off + 16) 8;
     ph_phys_addr := elf_int e (off + 24) 8; ph_file_size := elf_int e (off + 32) 8;
     ph_mem_size := elf_int e (off + 40) 8; ph_align := elf_int e (off + 48) 8 |}.

Definition section_header_at e (off : Z) : Elf64SectionHeader :=
  {| sh_name := elf_int e off 4; sh_header_type := elf_int e (off + 4) 4;
     sh_flags := elf_int e (off + 8) 8; sh_addr := elf_int e (off + 16) 8;
     sh_file_offset := elf_int e (off + 24) 8; sh_size := elf_int e (off + 32) 8;
     sh_link := elf_int e (off + 40) 4; sh_info := elf_int e (off + 44) 4;
     sh_addr_align := elf_int e (off + 48) 8; sh_ent_size := elf_int e (off + 56) 8 |}.

(** The loops over [0..len] that read a header at each step. *)
Fixpoint headers_from {A} (at_ : Z -> A) (offset size : Z) (is_ : list Z) : Result (list A) :=
  match is_ with
  | [] => Ok []
  | i :: is_ =>
      let? off := isize_add (as_isize offset) (size * i) in
      let? rest := headers_from at_ offset size is_ in
      Ok (at_ off :: rest)
  end.

Definition program_headers e : Result (list Elf64ProgramHeader) :=
  headers_from (program_header_at e) (ph_offset (header e)) PROGRAM_HEADER_SIZE (seqZ 0 (ph_num (header e))).

Definition section_headers e : Result (list Elf64SectionHeader) :=
  headers_from (section_header_at e) (sh_offset (header e)) SECTION_HEADER_SIZE (seqZ 0 (sh_num (header e))).

Definition elf_len e : Z := Z.of_nat (length (elf_data e)).

Definition data_by_section_header e (sh : Elf64SectionHeader) : Result (option (list Z)) :=
  let offset := sh_file_offset sh in
  let size := sh_size sh in
  if (offset =? 0) || (size =? 0) then Ok None
  else
    let? end_ := uadd 64 offset size in
    if elf_len e <? end_ then Ok None
    else let? d := slice (elf_data e) (Z.to_nat offset) (Z.to_nat end_) in Ok (Some d).

Definition data_by_program_header e (ph : Elf64ProgramHeader) : Result (option (list Z)) :=
  let offset := ph_file_offset ph in
  let file_size := ph_file_size ph in
  let mem_size := ph_mem_size ph in
  if negb (bool_decide (segment_type ph = Load)) then Ok None
  else if (file_size =? 0) || (mem_size =? 0) then Ok None
  else
    let? end_ := uadd 64 offset file_size in
    if elf_len e <? end_ then Ok None
    else let? d := slice (elf_data e) (Z.to_nat offset) (Z.to_nat end_) in Ok (Some d).

Definition string_table e : Result (option (list Z)) :=
  let? shs := section_headers e in
  match List.find (fun h => bool_decide (header_type h = StringTable)) shs with
  | None => Ok None
  | Some h => data_by_section_header e h
  end.

Fixpoint take_until_nul (bs : list Z) : list Z :=
  match bs with
  | [] => []
  | c :: bs => if c =? 0 then [] else c :: take_until_nul bs
  end.

(** Names are lists of characters; ["<NO NAME>"] for sections without one. *)
Definition NO_NAME : list Z := [0x3c; 0x4e; 0x4f; 0x20; 0x4e; 0x41; 0x4d; 0x45; 0x3e].

Definition section_name_from_string_table e (sh : Elf64SectionHeader) : Result (list Z) :=
  let name_offset := sh_name sh in
  let? t := string_table e in
  match t with
  | None => Ok NO_NAME
  | Some string_table =>
      if Z.of_nat (length string_table) <? name_offset then Ok NO_NAME
      else
        let? rest := slice string_table (Z.to_nat name_offset) (length string_table) in
        Ok (from_utf8_lossy (take_until_nul rest))
  end.

(** [find] over the sections; the name of each is looked up anew. *)
Fixpoint find_section e (name : list Z) (shs : list Elf64SectionHeader) : Result (option Elf64SectionHeader) :=
  match shs with
  | [] => Ok None
  | sh :: shs =>
      let? n := section_name_from_string_table e sh in
      if bool_decide (n = name) then Ok (Some sh) else find_section e name shs
  end.

Definition section_header_by_name e (name : list Z) : Result (option Elf64SectionHeader) :=
  let? shs := section_headers e in find_section e name shs.

End Elf.

(** ** Layout *)

(** The bytes of a header and of a program header, field by field. *)
Definition header_fields (h : Elf64Header) : list (list Z) :=
  [magic h; [eh_class h]; [eh_data h]; [version0 h]; [os_abi h]; [abi_version h]; eh_reserved h;
   to_le_bytes 2 (type_ h); to_le_bytes 2 (eh_machine h); [verison1 h]; [0; 0; 0];
   to_le_bytes 8 (entry_point h); to_le_bytes 8 (ph_offset h); to_le_bytes 8 (sh_offset h);
   to_le_bytes 4 (eh_flags h); to_le_bytes 2 (eh_size h); to_le_bytes 2 (ph_entry_size h);
   to_le_bytes 2 (ph_num h); to_le_bytes 2 (sh_entry_size h); to_le_bytes 2 (sh_num h);
   to_le_bytes 2 (sh_str_index h)].

Definition program_header_fields (ph : Elf64ProgramHeader) : list (list Z) :=
  [to_le_bytes 4 (ph_segment_type ph); to_le_bytes 4 (ph_flags ph); to_le_bytes 8 (ph_file_offset ph);
   to_le_bytes 8 (ph_virt_addr ph); to_le_bytes 8 (ph_phys_addr ph); to_le_bytes 8 (ph_file_size ph);
   to_le_bytes 8 (ph_mem_size ph); to_le_bytes 8 (ph_align ph)].

Definition program_header_bytes (ph : Elf64ProgramHeader) : list Z := mjoin (program_header_fields ph).

Definition is_u (bits x : Z) : Prop := 0 <= x < 2 ^ bits.

Record header_ok (h : Elf64Header) : Prop := {
  ok_magic : length (magic h) = 4%nat;
  ok_reserved : length (eh_reserved h) = 7%nat;
  ok_shorts : Forall (is_u 16) [type_ h; eh_machine h; eh_size h; ph_entry_size h; ph_num h; sh_entry_size h; sh_num h; sh_str_index h];
  ok_longs : Forall (is_u 64) [entry_point h; ph_offset h; sh_offset h];
  ok_flags : is_u 32 (eh_flags h)
}.

Definition program_header_ok (ph : Elf64ProgramHeader) : Prop :=
  Forall (is_u 32) [ph_segment_type ph; ph_flags ph]
  /\ Forall (is_u 64) [ph_file_offset ph; ph_virt_addr ph; ph_phys_addr ph; ph_file_size ph; ph_mem_size ph; ph_align ph].

Section Layout.
Implicit Types e : Elf64.

Lemma elf_bytes_at e pre bs post :
  elf_data e = pre ++ bs ++ post -> elf_bytes e (Z.of_nat (length pre)) (length bs) = bs.
Proof.
  intros He. unfold elf_bytes. apply list_eq_same_length with (length bs); [done|by rewrite length_fmap, length_seqZ; lia|].
  intros i x y Hi Hx Hy. apply list_lookup_fmap_Some in Hx as (j & -> & Hj). apply lookup_seqZ in Hj as [Hj _]. subst j.
  unfold elf_byte. destruct (Z.leb_spec 0 (Z.of_nat (length pre) + (0 + Z.of_nat i))); [|lia].
  rewrite He, lookup_app_r by lia. replace (Z.to_nat _ - length pre)%nat with i by lia.
  rewrite lookup_app_l by lia. by rewrite Hy.
Qed.

(** The fields of a record lie one after the other. *)
Lemma elf_field e pre fields post i f off :
  elf_data e = pre ++ mjoin fields ++ post -> fields !! i = Some f ->
  off = Z.of_nat (length pre + length (mjoin (take i fields))) -> elf_bytes e off (length f) = f.
Proof.
  intros He Hi ->. rewrite <- length_app. apply elf_bytes_at with (mjoin (drop (S i) fields) ++ post).
  rewrite He, <- (take_drop_middle _ _ _ Hi) at 1. rewrite join_app. cbn. by rewrite <- !app_assoc.
Qed.

Lemma elf_field_int e pre fields post i n x off :
  elf_data e = pre ++ mjoin fields ++ post -> fields !! i = Some (to_le_bytes n x) ->
  off = Z.of_nat (length pre + length (mjoin (take i fields))) -> is_u (8 * Z.of_nat n) x -> elf_int e off n = x.
Proof.
  intros He Hi Ho Hx. unfold elf_int. rewrite <- (length_to_le_bytes n x) at 1. rewrite (elf_field e pre fields post i _ off He Hi Ho).
  apply from_to_le_bytes. unfold is_u in Hx. by rewrite Z.pow_mul_r in Hx by lia.
Qed.

Lemma elf_field_byte e pre fields post i x off :
  elf_data e = pre ++ mjoin fields ++ post -> fields !! i = Some [x] ->
  off = Z.of_nat (length pre + length (mjoin (take i fields))) -> elf_byte e off = x.
Proof.
  intros He Hi Ho. pose proof (elf_field e pre fields post i _ off He Hi Ho) as Hf. cbn in Hf.
  injection Hf as Hf. by rewrite Z.add_0_r in Hf.
Qed.

End Layout.

(** Solves the offset of a field. *)
Ltac field_offset :=
  cbn [header_fields program_header_fields firstn mjoin list_join]; rewrite ?length_app, ?length_to_le_bytes; cbn [length]; lia.

Ltac read_field He n :=
  first [ eapply (elf_field_int _ _ _ _ n); [exact He|reflexivity|field_offset|done]
        | eapply (elf_field_byte _ _ _ _ n); [exact He|reflexivity|field_offset] ].

Lemma header_read e h rest :
  header_ok h -> elf_data e = mjoin (header_fields h) ++ rest -> header e = h.
Proof.
  intros [Hm Hr Hs Hl Hf] He. rewrite !Forall_cons in Hs. rewrite !Forall_cons in Hl. destruct_and!.
  assert (elf_data e = [] ++ mjoin (header_fields h) ++ rest) as He' by done. clear He.
  assert (elf_bytes e 0 4 = magic h) as Hmagic by (rewrite <- Hm; eapply (elf_field e [] _ rest 0); [exact He'|done|field_offset]).
  assert (elf_bytes e 9 7 = eh_reserved h) as Hres by (rewrite <- Hr; eapply (elf_field e [] _ rest 6); [exact He'|done|field_offset]).
  transitivity (MkElf64Header (magic h) (eh_class h) (eh_data h) (version0 h) (os_abi h) (abi_version h) (eh_reserved h)
    (type_ h) (eh_machine h) (verison1 h) (entry_point h) (ph_offset h) (sh_offset h) (eh_flags h) (eh_size h)
    (ph_entry_size h) (ph_num h) (sh_entry_size h) (sh_num h) (sh_str_index h)); [|by destruct h].
  unfold header. f_equal; [exact Hmagic|read_field He' 1%nat|read_field He' 2%nat|read_field He' 3%nat|read_field He' 4%nat
    |read_field He' 5%nat|exact Hres|read_field He' 7%nat|read_field He' 8%nat|read_field He' 9%nat|read_field He' 11%nat
    |read_field He' 12%nat|read_field He' 13%nat|read_field He' 14%nat|read_field He' 15%nat|read_field He' 16%nat
    |read_field He' 17%nat|read_field He' 18%nat|read_field He' 19%nat|read_field He' 20%nat].
Qed.

Lemma program_header_read e pre ph post :
  program_header_ok ph -> elf_data e = pre ++ program_header_bytes ph ++ post ->
  program_header_at e (Z.of_nat (length pre)) = ph.
Proof.
  intros [Hs Hl] He. rewrite !Forall_cons in Hs. rewrite !Forall_cons in Hl. destruct_and!. unfold program_header_bytes in He.
  transitivity (MkElf64ProgramHeader (ph_segment_type ph) (ph_flags ph) (ph_file_offset ph) (ph_virt_addr ph) (ph_phys_addr ph)
    (ph_file_size ph) (ph_mem_size ph) (ph_align ph)); [|by destruct ph].
  unfold program_header_at. f_equal; [read_field He 0%nat|read_field He 1%nat|read_field He 2%nat|read_field He 3%nat
    |read_field He 4%nat|read_field He 5%nat|read_field He 6%nat|read_field He 7%nat].
Qed.

Lemma program_header_size ph : length (program_header_bytes ph) = 56%nat.
Proof. unfold program_header_bytes. cbn [program_header_fields mjoin list_join]. by rewrite !length_app, !length_to_le_bytes. Qed.

Lemma headers_read e pre phs post offset k :
  Forall program_header_ok phs -> elf_data e = pre ++ mjoin (program_header_bytes <$> phs) ++ post ->
  Z.of_nat (length pre) = offset + PROGRAM_HEADER_SIZE * k -> 0 <= offset -> 0 <= k ->
  Z.of_nat (length (elf_data e)) < 2 ^ 63 ->
  headers_from (program_header_at e) offset PROGRAM_HEADER_SIZE (seqZ k (Z.of_nat (length phs))) = Ok phs.
Proof.
  intros Hphs. revert pre k. induction Hphs as [|ph phs Hph Hphs IH]; intros pre k He Hpre Ho Hk Hlen; [done|].
  cbn [length]. rewrite Nat2Z.inj_succ, seqZ_cons by lia. rewrite Z.pred_succ. cbn [headers_from].
  cbn [fmap list_fmap mjoin list_join] in He. rewrite He, !length_app in Hlen.
  unfold as_isize, isize_add. unfold PROGRAM_HEADER_SIZE in *.
  destruct (Z.ltb_spec offset (2 ^ 63)); [|lia]. destruct (Z.leb_spec (- 2 ^ 63) (offset + 56 * k)); [|lia].
  destruct (Z.ltb_spec (offset + 56 * k) (2 ^ 63)); [|lia]. cbn [andb obind].
  pose proof (program_header_size ph) as Hsz.
  rewrite (IH (pre ++ program_header_bytes ph)).
  - cbn [obind]. rewrite <- Hpre. erewrite program_header_read; [done|done|]. rewrite He. by rewrite <- app_assoc.
  - rewrite He. by rewrite <- !app_assoc.
  - rewrite length_app, Hsz. lia.
  - done.
  - lia.
  - rewrite He, !length_app. lia.
Qed.

(** ** A small image *)

Definition demo_header : Elf64Header :=
  MkElf64Header MAGIC 2 1 1 0 0 (replicate 7 0) 2 0x3e 1 0xffff800000000010 64 0 0 64 56 1 64 0 0.

(** Four bytes of code and twelve of zeroes, to be run from their start. *)
Definition demo_segment : Elf64ProgramHeader :=
  MkElf64ProgramHeader 1 5 120 0xffff800000000010 0 4 16 0x1000.

(** ** Properties *)

(** C35: Reading is the inverse of the ELF layout: from the bytes of a header, of
    anything, of program headers at the place the header names and of anything,
    the image gives back the header and the program headers, and it is accepted
    exactly when the header has the magic number. *)
Theorem elf_image_roundtrip h phs mid rest around :
  header_ok h -> Forall program_header_ok phs ->
  ph_offset h = Z.of_nat (64 + length mid) -> ph_num h = Z.of_nat (length phs) ->
  let data := mjoin (header_fields h) ++ mid ++ mjoin (program_header_bytes <$> phs) ++ rest in
  Z.of_nat (length data) < 2 ^ 63 ->
  let e := {| elf_data := data; elf_around := around |} in
  header e = h /\ program_headers e = Ok phs
  /\ Elf64_new data around = if decide (magic h = MAGIC) then Ok e else Err InvalidMagicNumber.
Proof.
  intros Hh Hphs Hoff Hnum data Hlen e.
  assert (header e = h) as Hhead by (by eapply header_read).
  split; [done|]. split.
  - unfold program_headers. rewrite Hhead, Hnum, Hoff.
    apply (headers_read e (mjoin (header_fields h) ++ mid) phs rest); [done| | |lia|lia|done].
    + subst e data. cbn [elf_data]. by rewrite <- !app_assoc.
    + rewrite length_app. destruct Hh. cbn [header_fields mjoin list_join].
      rewrite !length_app, !length_to_le_bytes. cbn [length]. lia.
  - unfold Elf64_new. fold e. rewrite Hhead. unfold is_valid.
    destruct (decide (magic h = MAGIC)) as [Hm|Hm]; [by rewrite (bool_decide_eq_true_2 _ Hm)|by rewrite (bool_decide_eq_false_2 _ Hm)].
Qed.

Lemma elf_image_roundtrip_witness :
  let data := mjoin (header_fields demo_header) ++ program_header_bytes demo_segment ++ [0x90; 0x90; 0xeb; 0xfe] in
  Elf64_new data (fun _ => 0) = Ok {| elf_data := data; elf_around := fun _ => 0 |}
  /\ program_headers {| elf_data := data; elf_around := fun _ => 0 |} = Ok [demo_segment].
Proof.
  intros data.
  destruct (elf_image_roundtrip demo_header [demo_segment] [] [0x90; 0x90; 0xeb; 0xfe] (fun _ => 0)) as (_ & H1 & H2).
  - split; [reflexivity|reflexivity|repeat constructor; vm_compute; discriminate || reflexivity
      |repeat constructor; vm_compute; discriminate || reflexivity|split; vm_compute; discriminate || reflexivity].
  - apply Forall_singleton. split; repeat constructor; vm_compute; discriminate || reflexivity.
  - reflexivity.
  - reflexivity.
  - vm_compute. reflexivity.
  - split; [exact H2|exact H1].
Defined.
