(* ===== verification/Bitmap.v ===== *)
(** * The physical frame allocator ([kernel/src/mem/bitmap.rs])

    One bit per 4 KiB frame, in a bitmap that lives in physical memory.  The
    state is the manager's counters together with the memory, a function from
    addresses to bytes, so that the bitmap is read and written through its
    address as in the source.  [common/src/mem_desc.rs] gives the memory map. *)
From Stdlib Require Import ZArith Lia.
From stdpp Require Import base list.
From S2P Require Import Prelude KError.

(** ** Definitions *)

Definition PAGE_SIZE : Z := 4096.
Definition UEFI_PAGE_SIZE : Z := 0x1000.

Inductive MemoryType :=
| MemReserved
| LoaderCode
| LoaderData
| BootServicesCode
| BootServicesData
| RuntimeServicesCode
| RuntimeServicesData
| Conventional
| Unusable
| AcpiReclaim
| AcpiNonVolatile
| Mmio
| MmioPortSpace
| PalCode
| PersistentMemory
| MemOther (v : Z).

Definition is_available_memory (ty : MemoryType) : bool :=
  match ty with
  | BootServicesCode | BootServicesData | Conventional => true
  | _ => false
  end.

Record MemoryDescriptor := MkDesc {
  desc_ty : MemoryType;
  desc_phys_start : Z;
  desc_virt_start : Z;
  desc_page_cnt : Z;
  desc_attr : Z
}.

Definition is_valid_mem_desc (d : MemoryDescriptor) : bool :=
  is_available_memory (desc_ty d) && negb (desc_phys_start d =? 0)
  && (desc_phys_start d mod PAGE_SIZE =? 0).

Record MemoryFrame := MkFrame {
  frame_start_phys_addr : Z;
  frame_size : Z;
  frame_deallocated : bool
}.

Definition MemoryFrame_new (addr size : Z) : Result MemoryFrame :=
  if size mod PAGE_SIZE =? 0
  then Ok {| frame_start_phys_addr := addr; frame_size := size; frame_deallocated := false |}
  else Panic.

Definition frame_index (f : MemoryFrame) : Z := frame_start_phys_addr f / PAGE_SIZE.

(** [Drop for MemoryFrame]: a frame that was not given back panics. *)
Definition MemoryFrame_drop (f : MemoryFrame) : Result unit :=
  if frame_deallocated f then Ok tt else Panic.

(** [leak] gives the frame up for good: dropping it no longer panics. *)
Definition MemoryFrame_leak (f : MemoryFrame) : MemoryFrame :=
  {| frame_start_phys_addr := frame_start_phys_addr f; frame_size := frame_size f;
     frame_deallocated := true |}.

(** *** A byte of the bitmap *)

Definition BITMAP_SIZE : Z := 8.

Definition bitmap_index_error (index : Z) : Error_ :=
  error_into (IndexOutOfBounds index (Some BITMAP_SIZE)).

Definition Bitmap_get (b index : Z) : Result bool :=
  if BITMAP_SIZE <=? index then Err (bitmap_index_error index)
  else Ok (negb (Z.land (Z.shiftr b index) 0x1 =? 0)).

Definition Bitmap_set (b index : Z) (value : bool) : Result Z :=
  if BITMAP_SIZE <=? index then Err (bitmap_index_error index)
  else
    let b' := Z.lor (Z.land b (unot 8 (Z.shiftl 0x1 index))) (Z.shiftl (Z.b2z value) index) in
    let? v := Bitmap_get b' index in
    (* assert_eq! *)
    if Bool.eqb v value then Ok b' else Panic.

Definition Bitmap_fill (value : bool) : Z := if value then 0xff else 0.
Definition is_allocated_all (b : Z) : bool := b =? 0xff.
Definition is_free_all (b : Z) : bool := b =? 0.

(** *** The manager *)

Record BitmapMemoryManager := MkBmm {
  bmm_bitmap_phys_addr : option Z;
  total_frame_len : Z;
  allocated_frame_len : Z;
  free_frame_len : Z;
  allocated_frame_len_in_available_mem : Z;
  total_available_mem_size : Z
}.

Definition BitmapMemoryManager_new : BitmapMemoryManager :=
  {| bmm_bitmap_phys_addr := None; total_frame_len := 0; allocated_frame_len := 0;
     free_frame_len := 0; allocated_frame_len_in_available_mem := 0;
     total_available_mem_size := 0 |}.

(** The manager and the physical memory it runs in. *)
Record Machine := MkMachine { bmm : BitmapMemoryManager; phys : Z -> Z }.

Definition write_phys (s : Machine) (addr v : Z) : Machine :=
  {| bmm := bmm s; phys := fun a => if a =? addr then v else phys s a |}.

Definition set_counts (s : Machine) (allocated free in_available : Z) : Machine :=
  {| bmm := {| bmm_bitmap_phys_addr := bmm_bitmap_phys_addr (bmm s);
               total_frame_len := total_frame_len (bmm s);
               allocated_frame_len := allocated;
               free_frame_len := free;
               allocated_frame_len_in_available_mem := in_available;
               total_available_mem_size := total_available_mem_size (bmm s) |};
     phys := phys s |}.

Definition bitmap_phys_addr (m : BitmapMemoryManager) : Result Z :=
  ok_or (error_into NotInitialized) (bmm_bitmap_phys_addr m).

Definition bitmap_len (m : BitmapMemoryManager) : Result Z :=
  let? n := uadd 64 (total_frame_len m) BITMAP_SIZE in
  let? n := usub 64 n 1 in
  Ok (n / BITMAP_SIZE).

Definition bitmap_offset (frame_index : Z) : Z := frame_index / BITMAP_SIZE.
Definition bitmap_pos (frame_index : Z) : Z := frame_index mod BITMAP_SIZE.

(** The address of a byte of the bitmap. *)
Definition bitmap_at (offset : Z) : SR Machine Z :=
  let! s := sget in
  let! len := slift (bitmap_len (bmm s)) in
  if len <=? offset then serr (error_into (IndexOutOfBounds offset (Some len)))
  else
    let! a := slift (bitmap_phys_addr (bmm s)) in
    slift (uadd 64 a offset).

Definition bmm_error (e : BitmapMemoryManagerError) : Error_ :=
  error_into (EBitmapMemoryManager e).

(** The counter updates at the end of [alloc_frame] and [dealloc_frame], each
    with its overflow checks and the final [assert_eq!]. *)
Definition count_alloc : SR Machine unit :=
  let! s := sget in
  let m := bmm s in
  let! a := slift (uadd 64 (allocated_frame_len m) 1) in
  let! f := slift (usub 64 (free_frame_len m) 1) in
  let! v := slift (uadd 64 (allocated_frame_len_in_available_mem m) 1) in
  do! sput (set_counts s a f v) in
  let! t := slift (uadd 64 a f) in
  sassert (total_frame_len m =? t).

Definition count_dealloc : SR Machine unit :=
  let! s := sget in
  let m := bmm s in
  let! a := slift (usub 64 (allocated_frame_len m) 1) in
  let! f := slift (uadd 64 (free_frame_len m) 1) in
  let! v := slift (usub 64 (allocated_frame_len_in_available_mem m) 1) in
  do! sput (set_counts s a f v) in
  let! t := slift (uadd 64 a f) in
  sassert (total_frame_len m =? t).

Definition alloc_frame (frame_index : Z) : SR Machine unit :=
  let bitmap_pos := bitmap_pos frame_index in
  let! addr := bitmap_at (bitmap_offset frame_index) in
  let! s := sget in
  (* already allocated *)
  let! b := slift (Bitmap_get (phys s addr) bitmap_pos) in
  if b then serr (bmm_error (MemoryFrameWasAlreadyAllocated frame_index))
  else
    let! v := slift (Bitmap_set (phys s addr) bitmap_pos true) in
    do! sput (write_phys s addr v) in
    count_alloc.

Definition dealloc_frame (frame_index : Z) : SR Machine unit :=
  let bitmap_pos := bitmap_pos frame_index in
  let! addr := bitmap_at (bitmap_offset frame_index) in
  let! s := sget in
  (* already deallocated *)
  let! b := slift (Bitmap_get (phys s addr) bitmap_pos) in
  if negb b then serr (bmm_error (MemoryFrameWasAlreadyDeallocated frame_index))
  else
    let! v := slift (Bitmap_set (phys s addr) bitmap_pos false) in
    do! sput (write_phys s addr v) in
    count_dealloc.

(** *** Initialisation *)

(** [iter().max()] over the checked ends of the descriptors. *)
Fixpoint max_phys_addr (mem_map : list MemoryDescriptor) (best : option Z) : Result (option Z) :=
  match mem_map with
  | [] => Ok best
  | d :: rest =>
      let? size := umul 64 (desc_page_cnt d) UEFI_PAGE_SIZE in
      let? e := uadd 64 (desc_phys_start d) size in
      max_phys_addr rest (Some (match best with Some m => Z.max m e | None => e end))
  end.

(** [iter().find(..)] of the first valid region that can hold the bitmap. *)
Fixpoint find_bitmap_desc (total : Z) (mem_map : list MemoryDescriptor)
  : Result (option MemoryDescriptor) :=
  match mem_map with
  | [] => Ok None
  | d :: rest =>
      if is_valid_mem_desc d then
        let? size := umul 64 (desc_page_cnt d) UEFI_PAGE_SIZE in
        if total / BITMAP_SIZE <=? size then Ok (Some d) else find_bitmap_desc total rest
      else find_bitmap_desc total rest
  end.

Fixpoint sum_available (mem_map : list MemoryDescriptor) (acc : Z) : Result Z :=
  match mem_map with
  | [] => Ok acc
  | d :: rest =>
      if is_valid_mem_desc d then
        let? size := umul 64 (desc_page_cnt d) UEFI_PAGE_SIZE in
        let? acc := uadd 64 acc size in
        sum_available rest acc
      else sum_available rest acc
  end.

Definition bmm_init (mem_map : list MemoryDescriptor) : SR Machine unit :=
  do! sassert (UEFI_PAGE_SIZE =? PAGE_SIZE) in
  let! max := slift (max_phys_addr mem_map None) in
  let! max := slift (unwrap max) in
  let! n := slift (uadd 64 max UEFI_PAGE_SIZE) in
  let total := Z.max (n / UEFI_PAGE_SIZE) 1 in
  (* find available memory area for bitmap *)
  let! d := slift (find_bitmap_desc total mem_map) in
  let! d := slift (unwrap d) in
  (* calc total available memory size *)
  let! available := slift (sum_available mem_map 0) in
  smodify (fun s =>
    {| bmm := {| bmm_bitmap_phys_addr := Some (desc_phys_start d);
                 total_frame_len := total;
                 allocated_frame_len := total;
                 free_frame_len := 0;
                 allocated_frame_len_in_available_mem := available / UEFI_PAGE_SIZE;
                 total_available_mem_size := available |};
       phys := phys s |}).

Definition bmm_init2 (mem_map : list MemoryDescriptor) : SR Machine unit :=
  (* fill all bitmap *)
  let! s := sget in
  let! len := slift (bitmap_len (bmm s)) in
  do! sfor (seqZ 0 len) (fun i =>
        let! addr := bitmap_at i in
        smodify (fun s => write_phys s addr (Bitmap_fill true))) in
  (* deallocate available memory frame *)
  do! sfor (List.filter is_valid_mem_desc mem_map) (fun d =>
        sfor (seqZ 0 (desc_page_cnt d)) (fun i =>
          let! o := slift (umul 64 i PAGE_SIZE) in
          let! a := slift (uadd 64 (desc_phys_start d) o) in
          dealloc_frame (a / PAGE_SIZE))) in
  (* allocate bitmap memory frame *)
  let! s := sget in
  let! addr := slift (bitmap_phys_addr (bmm s)) in
  let! len := slift (bitmap_len (bmm s)) in
  let first := addr / PAGE_SIZE in
  let! e := slift (uadd 64 addr len) in
  let last := e / PAGE_SIZE in
  sfor (seqZ first (last + 1 - first)) (fun i => signore (alloc_frame i)).

(** *** Allocation *)

Definition not_found : Error_ := bmm_error FreeMemoryFrameWasNotFound.

(** [i * BITMAP_SIZE + j] *)
Definition loop_index (i j : Z) : Result Z :=
  let? x := umul 64 i BITMAP_SIZE in uadd 64 x j.

(** The inner loop of [alloc_single_mem_frame]: the frame it returns, if any. *)
Fixpoint single_inner (i : Z) (b : Z) (js : list Z) : SR Machine (option MemoryFrame) :=
  match js with
  | [] => sret None
  | j :: js' =>
      let! index := slift (loop_index i j) in
      if index =? 0 then single_inner i b js'
      else
        let! allocated := slift (Bitmap_get b j) in
        if negb allocated then
          do! alloc_frame index in
          let! addr := slift (umul 64 index PAGE_SIZE) in
          let! frame := slift (MemoryFrame_new addr PAGE_SIZE) in
          sret (Some frame)
        else single_inner i b js'
  end.

Fixpoint single_outer (offs : list Z) : SR Machine MemoryFrame :=
  match offs with
  | [] => serr not_found
  | i :: offs' =>
      let! addr := bitmap_at i in
      let! s := sget in
      let b := phys s addr in
      if is_allocated_all b then single_outer offs'
      else
        let! r := single_inner i b (seqZ 0 BITMAP_SIZE) in
        match r with
        | Some frame => sret frame
        | None => single_outer offs'
        end
  end.

Definition alloc_single_mem_frame : SR Machine MemoryFrame :=
  let! s := sget in
  if free_frame_len (bmm s) =? 0 then serr not_found
  else
    let! len := slift (bitmap_len (bmm s)) in
    single_outer (seqZ 0 len).

(** The loops of [alloc_multi_mem_frame] carry [start_frame_index] and
    [consecutive_count]; the boolean says that ['outer] was left. *)
Fixpoint multi_inner (len i b : Z) (js : list Z) (start : option Z) (count : Z)
  : Result (option Z * Z * bool) :=
  match js with
  | [] => Ok (start, count, false)
  | j :: js' =>
      let? index := loop_index i j in
      if index =? 0 then multi_inner len i b js' start count
      else
        let? allocated := Bitmap_get b j in
        if negb allocated then
          let start := if count =? 0 then Some index else start in
          let? count := uadd 64 count 1 in
          if count =? len then Ok (start, count, true)
          else multi_inner len i b js' start count
        else multi_inner len i b js' None 0
  end.

Fixpoint multi_outer (len : Z) (offs : list Z) (start : option Z) (count : Z)
  : SR Machine (option Z * Z) :=
  match offs with
  | [] => sret (start, count)
  | i :: offs' =>
      let! addr := bitmap_at i in
      let! s := sget in
      let b := phys s addr in
      if (len =? BITMAP_SIZE) && (0 <? i) && is_free_all b
      then let! start := slift (umul 64 i BITMAP_SIZE) in sret (Some start, len)
      else
        let! r := slift (multi_inner len i b (seqZ 0 BITMAP_SIZE) start count) in
        let '(start, count, broke) := r in
        if broke then sret (start, count) else multi_outer len offs' start count
  end.

Definition alloc_multi_mem_frame (len : Z) : SR Machine MemoryFrame :=
  if len =? 0 then serr (bmm_error (InvalidMemoryFrameLength len))
  else if len =? 1 then alloc_single_mem_frame
  else
    let! s := sget in
    if free_frame_len (bmm s) <? len then serr not_found
    else
      let! n := slift (bitmap_len (bmm s)) in
      let! r := multi_outer len (seqZ 0 n) None 0 in
      let '(start, count) := r in
      let! start := slift (ok_or not_found start) in
      if count <? len then serr not_found
      else
        do! sfor (seqZ 0 len) (fun i =>
              let! index := slift (uadd 64 start i) in
              alloc_frame index) in
        let! addr := slift (umul 64 start PAGE_SIZE) in
        let! size := slift (umul 64 PAGE_SIZE len) in
        slift (MemoryFrame_new addr size).

(** [dealloc_mem_frame] owns the frame: when it returns early with an error,
    the frame, still marked as allocated, is dropped, which panics. *)
Definition dealloc_mem_frame (mem_frame : MemoryFrame) : SR Machine unit :=
  let size := frame_size mem_frame in
  let index := frame_index mem_frame in
  fun s =>
    match (let! e := slift (uadd 64 index (size / PAGE_SIZE)) in
           sfor (seqZ index (e - index)) dealloc_frame) s with
    | (Ok _, s') => (Ok tt, s')
    | (Err e, s') => (let? _ := MemoryFrame_drop mem_frame in Err e, s')
    | (Panic, s') => (Panic, s')
    end.

(** [zero_out]: physical memory is mapped at its own address. *)
Definition MemoryFrame_zero_out (f : MemoryFrame) : SR Machine unit :=
  smodify (fun s =>
    {| bmm := bmm s;
       phys := fun a => if (frame_start_phys_addr f <=? a)
                           && (a <? frame_start_phys_addr f + frame_size f) then 0 else phys s a |}).

Definition bmm_mem_frame (frame_index : Z) : SR Machine (option MemoryFrame) :=
  fun s =>
    match bitmap_at (bitmap_offset frame_index) s with
    | (Ok _, s) => (let? a := umul 64 frame_index PAGE_SIZE in
                    let? f := MemoryFrame_new a PAGE_SIZE in Ok (Some f), s)
    | (Err _, s) => (Ok None, s)
    | (Panic, s) => (Panic, s)
    end.

Definition mem_init (mem_map : list MemoryDescriptor) : SR Machine unit :=
  do! bmm_init mem_map in bmm_init2 mem_map.

Definition total_mem_size (s : Machine) : Result Z :=
  umul 64 (total_frame_len (bmm s)) PAGE_SIZE.

Definition mem_size (s : Machine) : Result (Z * Z) :=
  let? used := umul 64 (allocated_frame_len_in_available_mem (bmm s)) PAGE_SIZE in
  Ok (used, total_available_mem_size (bmm s)).

(** ** Abstraction and invariant *)

Definition bitmap_base (s : Machine) : Z := default 0 (bmm_bitmap_phys_addr (bmm s)).
Definition bitmap_bytes (s : Machine) : Z := (total_frame_len (bmm s) + 7) / 8.

(** The bit of frame [i]. *)
Definition allocated (s : Machine) (i : Z) : bool :=
  Z.testbit (phys s (bitmap_base s + i / 8)) (i mod 8).

Definition free_frames (s : Machine) : list Z :=
  List.filter (fun i => negb (allocated s i)) (seqZ 0 (total_frame_len (bmm s))).

Record bmm_wf (s : Machine) : Prop := {
  wf_addr : is_Some (bmm_bitmap_phys_addr (bmm s));
  wf_base : 0 <= bitmap_base s /\ bitmap_base s + bitmap_bytes s < 2 ^ 64;
  wf_total : 1 <= total_frame_len (bmm s) <= 2 ^ 52;
  wf_bytes : forall o, 0 <= o < bitmap_bytes s -> 0 <= phys s (bitmap_base s + o) < 256;
  wf_padding : forall i, total_frame_len (bmm s) <= i < 8 * bitmap_bytes s -> allocated s i = true;
  wf_free : free_frame_len (bmm s) = Z.of_nat (length (free_frames s));
  wf_sum : allocated_frame_len (bmm s) + free_frame_len (bmm s) = total_frame_len (bmm s);
  wf_avail_nonneg : 0 <= allocated_frame_len_in_available_mem (bmm s);
  wf_avail : allocated_frame_len_in_available_mem (bmm s) + free_frame_len (bmm s)
             = total_available_mem_size (bmm s) / PAGE_SIZE;
  wf_avail_size : 0 <= total_available_mem_size (bmm s) < 2 ^ 64
}.

(** [s'] is [s] with the bits of the [n] frames from [i] set to [v] and the
    counters moved accordingly. *)
Definition frames_set (s s' : Machine) (i n : Z) (v : bool) : Prop :=
  bmm_bitmap_phys_addr (bmm s') = bmm_bitmap_phys_addr (bmm s)
  /\ total_frame_len (bmm s') = total_frame_len (bmm s)
  /\ total_available_mem_size (bmm s') = total_available_mem_size (bmm s)
  /\ (forall k, 0 <= k < 8 * bitmap_bytes s ->
        allocated s' k = if (i <=? k) && (k <? i + n) then v else allocated s k)
  /\ free_frame_len (bmm s') = free_frame_len (bmm s) + (if v then - n else n)
  /\ allocated_frame_len_in_available_mem (bmm s')
     = allocated_frame_len_in_available_mem (bmm s) + (if v then n else - n).

(** A run of [n] free frames from [i], frame 0 excluded. *)
Definition free_run (s : Machine) (i n : Z) : Prop :=
  1 <= i /\ i + n <= total_frame_len (bmm s)
  /\ forall k, i <= k < i + n -> allocated s k = false.

(** ** Bits *)

Lemma Bitmap_get_spec b j : 0 <= j < 8 -> Bitmap_get b j = Ok (Z.testbit b j).
Proof.
  intros Hj. unfold Bitmap_get, BITMAP_SIZE. destruct (Z.leb_spec 8 j); [lia|].
  change 0x1 with (Z.ones 1). rewrite Z.land_ones by lia. change (2 ^ 1) with 2.
  rewrite Zmod_odd, <- Z.bit0_odd, Z.shiftr_spec, Z.add_0_l by lia.
  by destruct (Z.testbit b j).
Qed.

Definition set_check (b j : Z) (v : bool) : bool :=
  match Bitmap_set b j v with
  | Ok b' => is_byte b' && forallb (fun k => Bool.eqb (Z.testbit b' k)
                                       (if k =? j then v else Z.testbit b k)) (seqZ 0 8)
  | _ => false
  end.

Lemma set_check_all :
  forallb (fun b => forallb (fun j => set_check b j true && set_check b j false) (seqZ 0 8))
    (seqZ 0 256) = true.
Proof. vm_compute. reflexivity. Qed.

(** [Bitmap_set] changes one bit of a byte and passes its own assertion. *)
Lemma Bitmap_set_spec b j v :
  0 <= b < 256 -> 0 <= j < 8 ->
  exists b', Bitmap_set b j v = Ok b' /\ 0 <= b' < 256
    /\ forall k, 0 <= k < 8 -> Z.testbit b' k = if k =? j then v else Z.testbit b k.
Proof.
  intros Hb Hj. pose proof set_check_all as H.
  rewrite forallb_forall in H. specialize (H b). rewrite <- list_elem_of_In, elem_of_seqZ in H.
  specialize (H ltac:(lia)). rewrite forallb_forall in H. specialize (H j).
  rewrite <- list_elem_of_In, elem_of_seqZ in H. specialize (H ltac:(lia)).
  assert (set_check b j v = true) as Hc by (apply andb_true_iff in H as [? ?]; by destruct v).
  unfold set_check in Hc. destruct (Bitmap_set b j v) as [b'| |]; [|done..].
  apply andb_true_iff in Hc as [H1 H2]. exists b'. apply is_uint_spec in H1. split_and!; [done|lia..|].
  intros k Hk. rewrite forallb_forall in H2. apply Bool.eqb_prop, H2.
  apply list_elem_of_In, elem_of_seqZ. lia.
Qed.

Lemma byte_full_bits k : 0 <= k < 8 -> Z.testbit 0xff k = true.
Proof.
  intros H. assert (k = 0 \/ k = 1 \/ k = 2 \/ k = 3 \/ k = 4 \/ k = 5 \/ k = 6 \/ k = 7) as Hk by lia.
  destruct Hk as [->|[->|[->|[->|[->|[->|[->| ->]]]]]]]; reflexivity.
Qed.

(** ** Generic arithmetic of the bitmap *)

Lemma div8_mod8 i : i = 8 * (i / 8) + i mod 8.
Proof. apply Z.div_mod. lia. Qed.

Lemma mod8_bound i : 0 <= i mod 8 < 8.
Proof. apply Z.mod_pos_bound. lia. Qed.

Lemma bytes_bound s :
  total_frame_len (bmm s) <= 8 * bitmap_bytes s < total_frame_len (bmm s) + 8.
Proof. unfold bitmap_bytes. pose proof (div8_mod8 (total_frame_len (bmm s) + 7)). pose proof (mod8_bound (total_frame_len (bmm s) + 7)). lia. Qed.

Lemma bitmap_len_run s :
  1 <= total_frame_len (bmm s) <= 2 ^ 52 -> bitmap_len (bmm s) = Ok (bitmap_bytes s).
Proof.
  intros H. unfold bitmap_len, uadd, usub, BITMAP_SIZE, bitmap_bytes.
  destruct (Z.ltb_spec (total_frame_len (bmm s) + 8) (2 ^ 64)); [|lia]. simpl.
  destruct (Z.leb_spec 1 (total_frame_len (bmm s) + 8)); [|lia]. simpl.
  do 2 f_equal. lia.
Qed.

Lemma bitmap_at_pre s o :
  is_Some (bmm_bitmap_phys_addr (bmm s)) -> bitmap_base s + bitmap_bytes s < 2 ^ 64 ->
  1 <= total_frame_len (bmm s) <= 2 ^ 52 -> 0 <= o < bitmap_bytes s ->
  bitmap_at o s = (Ok (bitmap_base s + o), s).
Proof.
  intros [a Ha] Hb Ht Ho.
  unfold bitmap_at, sbind, sget, slift, bitmap_phys_addr, bitmap_base in *.
  rewrite bitmap_len_run by done. rewrite Ha in *. simpl in *.
  destruct (Z.leb_spec (bitmap_bytes s) o); [lia|]. simpl. unfold uadd.
  destruct (Z.ltb_spec (a + o) (2 ^ 64)); [done|lia].
Qed.

Lemma bitmap_at_run s o :
  bmm_wf s -> 0 <= o < bitmap_bytes s -> bitmap_at o s = (Ok (bitmap_base s + o), s).
Proof. intros Hwf Ho. apply bitmap_at_pre; [apply Hwf..|done]. Qed.

(** ** One frame *)

(** [alloc_frame] and [dealloc_frame] as one operation, setting the bit to [v]. *)
Definition set_frame (v : bool) (i : Z) : SR Machine unit :=
  if v then alloc_frame i else dealloc_frame i.

(** The state after a successful [set_frame]. *)
Definition after_set (s : Machine) (v : bool) (i b : Z) : Machine :=
  set_counts (write_phys s (bitmap_base s + i / 8) b)
    (allocated_frame_len (bmm s) + (if v then 1 else -1))
    (free_frame_len (bmm s) + (if v then -1 else 1))
    (allocated_frame_len_in_available_mem (bmm s) + (if v then 1 else -1)).

Lemma allocated_after s v i b k :
  (forall j, 0 <= j < 8 -> Z.testbit b j = if j =? i mod 8 then v
                                         else Z.testbit (phys s (bitmap_base s + i / 8)) j) ->
  allocated (after_set s v i b) k = if k =? i then v else allocated s k.
Proof.
  intros Hb. unfold allocated, after_set, set_counts, write_phys.
  change (bitmap_base _) with (bitmap_base s). simpl phys.
  pose proof (div8_mod8 k). pose proof (div8_mod8 i). pose proof (mod8_bound k).
  destruct (Z.eqb_spec (bitmap_base s + k / 8) (bitmap_base s + i / 8)) as [Heq|Hne].
  - rewrite Hb by lia. destruct (Z.eqb_spec (k mod 8) (i mod 8)), (Z.eqb_spec k i); try lia; [done|].
    by rewrite <- Heq.
  - destruct (Z.eqb_spec k i) as [->|]; [lia|done].
Qed.

Lemma free_frames_after s v i b :
  0 <= i < total_frame_len (bmm s) -> allocated s i = negb v ->
  (forall k, allocated (after_set s v i b) k = if k =? i then v else allocated s k) ->
  Z.of_nat (length (free_frames (after_set s v i b)))
  = Z.of_nat (length (free_frames s)) + (if v then -1 else 1).
Proof.
  intros Hi Ha Hk. unfold free_frames.
  change (total_frame_len (bmm (after_set s v i b))) with (total_frame_len (bmm s)).
  set (l := seqZ 0 _). assert (i ∈ l) by (apply elem_of_seqZ; lia).
  assert (NoDup l) by apply NoDup_seqZ. clearbody l.
  assert (allocated (after_set s v i b) i = v) as Hi' by (by rewrite Hk, Z.eqb_refl).
  destruct v; simpl in Ha.
  - rewrite (filter_flip_length (fun k => negb (allocated s k))
       (fun k => negb (allocated (after_set s true i b) k)) l i); [lia|done|done|by rewrite Ha|by rewrite Hi'|].
    intros y _ Hy. rewrite Hk. by destruct (Z.eqb_spec y i).
  - rewrite (filter_flip_length (fun k => negb (allocated (after_set s false i b) k))
       (fun k => negb (allocated s k)) l i); [lia|done|done|by rewrite Hi'|by rewrite Ha|].
    intros y _ Hy. rewrite Hk. by destruct (Z.eqb_spec y i).
Qed.

(** The run of [set_frame] on a frame whose bit differs from [v]. *)
Lemma set_frame_step v s i :
  bmm_wf s -> 0 <= i < total_frame_len (bmm s) -> allocated s i = negb v ->
  (v = false -> 1 <= allocated_frame_len_in_available_mem (bmm s)) ->
  exists b, set_frame v i s = (Ok tt, after_set s v i b) /\ 0 <= b < 256
    /\ forall j, 0 <= j < 8 -> Z.testbit b j = if j =? i mod 8 then v
                                         else Z.testbit (phys s (bitmap_base s + i / 8)) j.
Proof.
  intros Hwf Hi Ha Hv. pose proof (bytes_bound s) as Hbb. pose proof (div8_mod8 i). pose proof (mod8_bound i).
  assert (0 <= i / 8 < bitmap_bytes s) as Ho by lia.
  destruct (Bitmap_set_spec (phys s (bitmap_base s + i / 8)) (i mod 8) v) as (b & Hset & Hb & Hbits);
    [by apply wf_bytes|done|].
  exists b. split; [|done]. unfold allocated in Ha.
  assert (Hfree : if v then 1 <= free_frame_len (bmm s)
                  else free_frame_len (bmm s) < total_frame_len (bmm s)).
  { rewrite (wf_free s Hwf). unfold free_frames.
    assert (i ∈ seqZ 0 (total_frame_len (bmm s))) as Hin by (apply elem_of_seqZ; lia).
    pose proof (length_seqZ 0 (total_frame_len (bmm s))) as Hl. destruct v.
    - pose proof (filter_accept_length (fun k => negb (allocated s k)) _ i Hin) as Hacc.
      unfold allocated at 1 in Hacc. rewrite Ha in Hacc. specialize (Hacc eq_refl). lia.
    - pose proof (filter_reject_length (fun k => negb (allocated s k)) _ i Hin) as Hrej.
      unfold allocated at 1 in Hrej. rewrite Ha in Hrej. specialize (Hrej eq_refl). lia. }
  pose proof (wf_sum s Hwf). pose proof (wf_avail s Hwf). pose proof (wf_total s Hwf).
  pose proof (wf_avail_size s Hwf). pose proof (wf_avail_nonneg s Hwf).
  pose proof (wf_free s Hwf) as Hfr.
  assert (total_available_mem_size (bmm s) / PAGE_SIZE < 2 ^ 52)
    by (unfold PAGE_SIZE; apply Z.div_lt_upper_bound; lia).
  unfold after_set. destruct v; simpl in Hv, Hfree |- *;
    unfold alloc_frame, dealloc_frame, bitmap_offset, bitmap_pos, BITMAP_SIZE, sbind;
    rewrite (bitmap_at_run s _ Hwf Ho); unfold sget, slift; rewrite Bitmap_get_spec, Ha by done;
    cbn [negb]; cbv iota; rewrite Hset;
    unfold sput, count_alloc, count_dealloc, sbind, sget, slift, sassert, uadd, usub; simpl;
    repeat match goal with
    | |- context [?a <? ?b] => destruct (Z.ltb_spec a b); [|lia]
    | |- context [?a <=? ?b] => destruct (Z.leb_spec a b); [|lia]
    | |- context [?a =? ?b] => destruct (Z.eqb_spec a b); [|lia]
    end; reflexivity.
Qed.

Lemma set_frame_run v s i :
  bmm_wf s -> 0 <= i < total_frame_len (bmm s) -> allocated s i = negb v ->
  (v = false -> 1 <= allocated_frame_len_in_available_mem (bmm s)) ->
  exists s', set_frame v i s = (Ok tt, s') /\ bmm_wf s' /\ frames_set s s' i 1 v.
Proof.
  intros Hwf Hi Ha Hv. destruct (set_frame_step v s i Hwf Hi Ha Hv) as (b & Hrun & Hb & Hbits).
  pose proof (fun k => allocated_after s v i b k Hbits) as Hk.
  pose proof (free_frames_after s v i b Hi Ha Hk) as Hfree.
  exists (after_set s v i b). split; [done|]. destruct Hwf. split.
  - constructor; try done.
    + intros o Ho. change (bitmap_base (after_set s v i b)) with (bitmap_base s).
      unfold after_set, set_counts, write_phys. simpl.
      destruct (_ =? _); [done|]. by apply wf_bytes0.
    + intros k Hkr. rewrite Hk. destruct (Z.eqb_spec k i) as [->|]; [simpl in Hkr; lia|]. by apply wf_padding0.
    + rewrite Hfree. simpl. lia.
    + simpl. destruct v; lia.
    + simpl. destruct v; [lia|]. specialize (Hv eq_refl). lia.
    + simpl. destruct v; lia.
  - split_and!; try done.
    + intros k Hkr. rewrite Hk. destruct (Z.eqb_spec k i); bool_cases; simpl; lia || done.
Qed.

(** The frame is already in the wanted state: an error, and nothing changes. *)
Lemma set_frame_noop v s i :
  bmm_wf s -> 0 <= i < 8 * bitmap_bytes s -> allocated s i = v ->
  set_frame v i s
  = (Err (bmm_error (if v then MemoryFrameWasAlreadyAllocated i
                     else MemoryFrameWasAlreadyDeallocated i)), s).
Proof.
  intros Hwf Hi Ha. pose proof (div8_mod8 i). pose proof (mod8_bound i).
  assert (0 <= i / 8 < bitmap_bytes s) as Ho by lia. unfold allocated in Ha.
  destruct v; simpl; unfold alloc_frame, dealloc_frame, bitmap_offset, bitmap_pos, BITMAP_SIZE, sbind;
    rewrite (bitmap_at_run s _ Hwf Ho); unfold sget, slift; rewrite Bitmap_get_spec, Ha by done; done.
Qed.

(** ** Runs of frames *)

Lemma frames_set_bytes s s' i n v : frames_set s s' i n v -> bitmap_bytes s' = bitmap_bytes s.
Proof. intros (_ & Ht & _). unfold bitmap_bytes. by rewrite Ht. Qed.

Lemma frames_set_refl s i v : frames_set s s i 0 v.
Proof.
  split_and!; try done; [|destruct v; lia..].
  intros k _. bool_cases; simpl; lia || done.
Qed.

Lemma frames_set_step s s1 s2 i n v :
  0 <= n -> frames_set s s1 i 1 v -> frames_set s1 s2 (i + 1) n v -> frames_set s s2 i (n + 1) v.
Proof.
  intros Hn H1 H2. pose proof (frames_set_bytes _ _ _ _ _ H1) as Hb.
  destruct H1 as (A1 & A2 & A3 & A4 & A5 & A6), H2 as (B1 & B2 & B3 & B4 & B5 & B6).
  split_and!; try congruence; [|destruct v; lia..].
  intros k Hk. rewrite B4, A4 by (rewrite ?Hb; done).
  bool_cases; simpl; lia || done.
Qed.

(** Setting a run of frames one by one. *)
Lemma set_run v (n : nat) s i :
  bmm_wf s -> 0 <= i -> i + Z.of_nat n <= total_frame_len (bmm s) ->
  (forall k, i <= k < i + Z.of_nat n -> allocated s k = negb v) ->
  (v = false -> Z.of_nat n <= allocated_frame_len_in_available_mem (bmm s)) ->
  exists s', sfor (seqZ i (Z.of_nat n)) (set_frame v) s = (Ok tt, s')
    /\ bmm_wf s' /\ frames_set s s' i (Z.of_nat n) v.
Proof.
  revert s i. induction n as [|n IH]; intros s i Hwf Hi Hle Hbits Hv.
  - exists s. split_and!; [done..|]. apply frames_set_refl.
  - rewrite seqZ_cons by lia.
    destruct (set_frame_run v s i Hwf) as (s1 & Hrun & Hwf1 & Hset); [lia|apply Hbits; lia|intros Hv'; specialize (Hv Hv'); lia|].
    rewrite (sfor_ok_cons _ _ _ _ _ Hrun).
    replace (Z.pred (Z.of_nat (S n))) with (Z.of_nat n) by lia.
    replace (Z.succ i) with (i + 1) by lia.
    pose proof Hset as (A1 & A2 & A3 & A4 & A5 & A6). pose proof (bytes_bound s) as Hb.
    destruct (IH s1 (i + 1) Hwf1) as (s2 & Hrun2 & Hwf2 & Hset2); [lia|lia| | |].
    2:{ intros ->. specialize (Hv eq_refl). simpl in A6. lia. }
    { intros k Hk. rewrite A4 by lia. bool_cases; simpl; solve [lia | apply Hbits; lia]. }
    exists s2. split_and!; [done..|]. rewrite Nat2Z.inj_succ. unfold Z.succ.
    eapply frames_set_step; [lia|done..].
Qed.

(** The same run as the source writes it, from an offset. *)
Lemma sfor_shift {S} (body : Z -> SR S unit) start (n : nat) o s :
  0 <= start -> 0 <= o -> start + o + Z.of_nat n <= 2 ^ 64 ->
  sfor (seqZ o (Z.of_nat n)) (fun i => let! index := slift (uadd 64 start i) in body index) s
  = sfor (seqZ (start + o) (Z.of_nat n)) body s.
Proof.
  revert o s. induction n as [|n IH]; intros o s Hs Ho Hle; [done|].
  rewrite (seqZ_cons o), (seqZ_cons (start + o)) by lia. cbn [sfor].
  unfold sbind, slift in *. unfold uadd at 1.
  destruct (Z.ltb_spec (start + o) (2 ^ 64)); [|lia].
  destruct (body (start + o) s) as [[[]|e|] s']; [|done..].
  replace (Z.pred (Z.of_nat (Datatypes.S n))) with (Z.of_nat n) by lia.
  rewrite IH by lia. by replace (Z.succ (start + o)) with (start + Z.succ o) by lia.
Qed.

(** ** Searching *)

Lemma loop_index_run i j :
  0 <= i < 2 ^ 60 -> 0 <= j < 8 -> loop_index i j = Ok (i * 8 + j).
Proof.
  intros Hi Hj. unfold loop_index, umul, uadd, BITMAP_SIZE.
  destruct (Z.ltb_spec (i * 8) (2 ^ 64)); [|lia]. simpl.
  destruct (Z.ltb_spec (i * 8 + j) (2 ^ 64)); [done|lia].
Qed.

(** The bit of frame [8 i + j] in its byte. *)
Lemma allocated_byte s i j :
  0 <= j < 8 -> allocated s (i * 8 + j) = Z.testbit (phys s (bitmap_base s + i)) j.
Proof.
  intros Hj. unfold allocated. replace (i * 8 + j) with (j + i * 8) by lia.
  by rewrite Z.div_add, Z.mod_add, Z.div_small, Z.mod_small by lia.
Qed.

Lemma free_below_total s k :
  bmm_wf s -> 0 <= k < 8 * bitmap_bytes s -> allocated s k = false -> k < total_frame_len (bmm s).
Proof.
  intros Hwf Hk Ha. destruct (Z.lt_ge_cases k (total_frame_len (bmm s))) as [|Hge]; [done|].
  rewrite (wf_padding s Hwf) in Ha by lia. done.
Qed.

Lemma bytes_small s : bmm_wf s -> 0 <= bitmap_bytes s < 2 ^ 60.
Proof. intros Hwf. pose proof (bytes_bound s). pose proof (wf_total s Hwf). lia. Qed.

Lemma frame_new_run start len :
  1 <= start -> 1 <= len -> start + len <= 2 ^ 52 ->
  (umul (E := Error_) 64 start PAGE_SIZE = Ok (start * PAGE_SIZE))
  /\ (umul (E := Error_) 64 PAGE_SIZE len = Ok (PAGE_SIZE * len))
  /\ MemoryFrame_new (start * PAGE_SIZE) (PAGE_SIZE * len)
     = Ok {| frame_start_phys_addr := start * PAGE_SIZE; frame_size := PAGE_SIZE * len;
             frame_deallocated := false |}.
Proof.
  intros H1 H2 H3. unfold umul, MemoryFrame_new, PAGE_SIZE in *.
  destruct (Z.ltb_spec (start * 4096) (2 ^ 64)), (Z.ltb_spec (4096 * len) (2 ^ 64)); try lia.
  split_and!; [done..|]. by rewrite (Z.mul_comm 4096 len), Z.mod_mul by lia.
Qed.

(** The frame handed out for a run. *)
Definition frame_at (start len : Z) : MemoryFrame :=
  {| frame_start_phys_addr := start * PAGE_SIZE; frame_size := PAGE_SIZE * len;
     frame_deallocated := false |}.

(** A search of [\[lo, hi)] for one free frame ended with [r] in [s']: the
    lowest one was taken, or there was none and [none] is returned. *)
Definition single_result {A} (s : Machine) (lo hi : Z) (mk : MemoryFrame -> A) (none : Result A)
    (r : Result A) (s' : Machine) : Prop :=
  (exists k, lo <= k < hi /\ 1 <= k /\ allocated s k = false
     /\ (forall q, lo <= q < k -> 1 <= q -> allocated s q = true)
     /\ r = Ok (mk (frame_at k 1)) /\ bmm_wf s' /\ frames_set s s' k 1 true)
  \/ (r = none /\ s' = s /\ forall q, lo <= q < hi -> 1 <= q -> allocated s q = true).

Lemma single_take s k :
  bmm_wf s -> 1 <= k < 8 * bitmap_bytes s -> allocated s k = false ->
  exists s', (do! alloc_frame k in
              let! addr := slift (umul 64 k PAGE_SIZE) in
              let! frame := slift (MemoryFrame_new addr PAGE_SIZE) in
              sret (Some frame)) s = (Ok (Some (frame_at k 1)), s')
    /\ bmm_wf s' /\ frames_set s s' k 1 true.
Proof.
  intros Hwf Hk Ha. pose proof (free_below_total s k Hwf ltac:(lia) Ha).
  destruct (set_frame_run true s k Hwf) as (s' & Hrun & Hwf' & Hset); [lia|done|done|].
  pose proof (wf_total s Hwf). destruct (frame_new_run k 1) as (H1 & _ & H2); [lia..|].
  exists s'. split; [|done]. simpl in Hrun. unfold sbind. rewrite Hrun. unfold slift. rewrite H1.
  rewrite Z.mul_1_r in H2. rewrite H2. unfold sret, frame_at. by rewrite Z.mul_1_r.
Qed.

Lemma single_inner_spec (n : nat) s i j :
  bmm_wf s -> 0 <= i < bitmap_bytes s -> 0 <= j -> j + Z.of_nat n = 8 ->
  let '(r, s') := single_inner i (phys s (bitmap_base s + i)) (seqZ j (Z.of_nat n)) s in
  single_result s (i * 8 + j) (i * 8 + 8) Some (Ok None) r s'.
Proof.
  intros Hwf Hi. pose proof (bytes_small s Hwf). revert j. induction n as [|n IH]; intros j Hj Hn.
  { right. split_and!; [done..|]. intros q Hq. lia. }
  rewrite seqZ_cons by lia. replace (Z.pred (Z.of_nat (S n))) with (Z.of_nat n) by lia.
  replace (Z.succ j) with (j + 1) by lia. specialize (IH (j + 1) ltac:(lia) ltac:(lia)).
  cbn [single_inner]. unfold sbind at 1, slift at 1. rewrite loop_index_run by lia.
  pose proof (allocated_byte s i j ltac:(lia)) as Hab.
  assert (forall r s', (1 <= i * 8 + j -> allocated s (i * 8 + j) = true) ->
            single_result s (i * 8 + (j + 1)) (i * 8 + 8) Some (Ok None) r s' ->
            single_result s (i * 8 + j) (i * 8 + 8) Some (Ok None) r s') as Hext.
  { intros r s' Hq [(k & H1 & H2 & H3 & H4 & H5 & H6 & H7)|(H1 & H2 & H3)].
    - left. exists k. split_and!; [lia|lia|lia|done| |done..]. intros q Hq1 Hq2.
      destruct (decide (q = i * 8 + j)) as [->|]; [by apply Hq|]. apply H4; lia.
    - right. split_and!; [done..|]. intros q Hq1 Hq2.
      destruct (decide (q = i * 8 + j)) as [->|]; [by apply Hq|]. apply H3; lia. }
  destruct (Z.eqb_spec (i * 8 + j) 0) as [H0|H0].
  { destruct (single_inner _ _ _ s) as [r s']. apply Hext; [lia|done]. }
  unfold sbind at 1, slift at 1. rewrite Bitmap_get_spec, <- Hab by lia.
  destruct (allocated s (i * 8 + j)) eqn:Ha; cbn [negb]; cbv iota.
  { destruct (single_inner _ _ _ s) as [r s']. by apply Hext. }
  destruct (single_take s (i * 8 + j) Hwf) as (s' & -> & Hwf' & Hset); [lia|done|].
  left. exists (i * 8 + j). split_and!; [lia|lia|lia|done| |done..]. intros q Hq. lia.
Qed.

Lemma single_outer_spec (n : nat) s o :
  bmm_wf s -> 0 <= o -> o + Z.of_nat n = bitmap_bytes s ->
  let '(r, s') := single_outer (seqZ o (Z.of_nat n)) s in
  single_result s (o * 8) (8 * bitmap_bytes s) id (Err not_found) r s'.
Proof.
  intros Hwf. revert o. induction n as [|n IH]; intros o Ho Hn.
  { right. split_and!; [done..|]. intros q Hq. lia. }
  rewrite seqZ_cons by lia. replace (Z.pred (Z.of_nat (S n))) with (Z.of_nat n) by lia.
  replace (Z.succ o) with (o + 1) by lia. specialize (IH (o + 1) ltac:(lia) ltac:(lia)).
  cbn [single_outer]. unfold sbind at 1. rewrite (bitmap_at_run s o Hwf) by lia.
  unfold sbind at 1, sget at 1.
  assert (forall r s', (forall q, o * 8 <= q < o * 8 + 8 -> 1 <= q -> allocated s q = true) ->
            single_result s ((o + 1) * 8) (8 * bitmap_bytes s) id (Err not_found) r s' ->
            single_result s (o * 8) (8 * bitmap_bytes s) id (Err not_found) r s') as Hext.
  { intros r s' Hq [(k & H1 & H2 & H3 & H4 & H5 & H6 & H7)|(H1 & H2 & H3)].
    - left. exists k. split_and!; [lia|lia|lia|done| |done..]. intros q Hq1 Hq2.
      destruct (decide (q < o * 8 + 8)); [apply Hq; lia|]. apply H4; lia.
    - right. split_and!; [done..|]. intros q Hq1 Hq2.
      destruct (decide (q < o * 8 + 8)); [apply Hq; lia|]. apply H3; lia. }
  unfold is_allocated_all. destruct (Z.eqb_spec (phys s (bitmap_base s + o)) 0xff) as [Hff|Hff].
  { destruct (single_outer _ s) as [r s']. apply Hext; [|done]. intros q Hq _.
    replace q with (o * 8 + (q - o * 8)) by lia. rewrite allocated_byte, Hff by lia.
    apply byte_full_bits. lia. }
  unfold sbind at 1. change (seqZ 0 BITMAP_SIZE) with (seqZ 0 (Z.of_nat 8)).
  pose proof (single_inner_spec 8 s o 0 Hwf ltac:(lia) ltac:(lia) ltac:(lia)) as Hin.
  destruct (single_inner _ _ _ s) as [r s'] eqn:E.
  destruct Hin as [(k & H1 & H2 & H3 & H4 & -> & H5 & H6)|(-> & -> & H3)].
  - left. exists k. rewrite Z.add_0_r in *. split_and!; [lia|lia|lia|done..].
  - rewrite Z.add_0_r in *. destruct (single_outer _ s) as [r s']. apply Hext; [|done].
    intros q Hq1 Hq2. apply H3; lia.
Qed.

(** What the loops of [alloc_multi_mem_frame] know before frame [k]: [count]
    free frames end at [k], no more, and no run of [len] was passed. *)
Definition run_inv (s : Machine) (len k : Z) (start : option Z) (count : Z) : Prop :=
  0 <= count < len
  /\ (count = 0 \/ 1 <= k - count)
  /\ start = (if count =? 0 then None else Some (k - count))
  /\ (forall q, k - count <= q < k -> allocated s q = false)
  /\ (1 <= k - count - 1 -> allocated s (k - count - 1) = true)
  /\ (forall st, 1 <= st -> st + len <= k -> exists q, st <= q < st + len /\ allocated s q = true).

Lemma run_inv_skip s len start count :
  run_inv s len 0 start count -> run_inv s len 1 start count.
Proof.
  intros (H1 & H2 & -> & H4 & H5 & H6). assert (count = 0) as -> by lia.
  split_and!; [lia|lia|by left|done|intros; lia|intros; lia|]. intros st H7 H8. lia.
Qed.

Lemma run_inv_allocated s len k start count :
  1 <= k -> run_inv s len k start count -> allocated s k = true -> run_inv s len (k + 1) None 0.
Proof.
  intros Hk (H1 & H2 & _ & H4 & H5 & H6) Ha.
  split_and!; [lia|lia|by left|done|intros; lia| |].
  - intros _. by replace (k + 1 - 0 - 1) with k by lia.
  - intros st Hst Hle. destruct (decide (st + len <= k)); [by apply H6|].
    exists k. split; [lia|done].
Qed.

Lemma run_inv_free s len k start count :
  1 <= k -> run_inv s len k start count -> allocated s k = false -> count + 1 < len ->
  run_inv s len (k + 1) (if count =? 0 then Some k else start) (count + 1).
Proof.
  intros Hk (H1 & H2 & -> & H4 & H5 & H6) Ha Hc. split_and!; [lia|lia|right; lia| | | |].
  - destruct (Z.eqb_spec count 0), (Z.eqb_spec (count + 1) 0); try lia; f_equal; lia.
  - intros q Hq. destruct (decide (q = k)) as [->|]; [done|]. apply H4. lia.
  - replace (k + 1 - (count + 1) - 1) with (k - count - 1) by lia. done.
  - intros st Hst Hle. destruct (decide (st + len <= k)); [by apply H6|].
    exists (k - count - 1). split; [lia|]. apply H5. lia.
Qed.

Lemma run_inv_found s len k start count :
  1 <= k -> run_inv s len k start count -> allocated s k = false -> count + 1 = len ->
  exists st, (if count =? 0 then Some k else start) = Some st
    /\ 1 <= st /\ st + len = k + 1 /\ forall q, st <= q < st + len -> allocated s q = false.
Proof.
  intros Hk (H1 & H2 & -> & H4 & H5 & H6) Ha Hc. exists (k - count). split_and!; [|lia|lia|].
  - destruct (Z.eqb_spec count 0); f_equal; lia.
  - intros q Hq. destruct (decide (q = k)) as [->|]; [done|]. apply H4. lia.
Qed.

(** The result of a search up to [hi]: a run of [len] free frames, or the loop
    invariant at [hi]. *)
Definition multi_found (s : Machine) (len hi : Z) (start : option Z) (count : Z) : Prop :=
  count = len /\ exists st, start = Some st /\ 1 <= st /\ st + len <= hi
    /\ forall q, st <= q < st + len -> allocated s q = false.

Lemma multi_inner_spec (n : nat) s len i j start count :
  bmm_wf s -> 0 <= i < bitmap_bytes s -> 0 <= j -> j + Z.of_nat n = 8 -> len < 2 ^ 64 ->
  run_inv s len (i * 8 + j) start count ->
  exists start' count' broke,
    multi_inner len i (phys s (bitmap_base s + i)) (seqZ j (Z.of_nat n)) start count
    = Ok (start', count', broke)
    /\ if broke then multi_found s len (i * 8 + 8) start' count'
       else run_inv s len (i * 8 + 8) start' count'.
Proof.
  intros Hwf Hi. pose proof (bytes_small s Hwf). revert j start count.
  induction n as [|n IH]; intros j start count Hj Hn Hlen Hinv.
  { exists start, count, false. split; [done|]. by assert (j = 8) as -> by lia. }
  rewrite seqZ_cons by lia. replace (Z.pred (Z.of_nat (S n))) with (Z.of_nat n) by lia.
  replace (Z.succ j) with (j + 1) by lia. cbn [multi_inner]. rewrite loop_index_run by lia. simpl.
  pose proof (allocated_byte s i j ltac:(lia)) as Hab.
  assert (forall start count, run_inv s len (i * 8 + j + 1) start count ->
            run_inv s len (i * 8 + (j + 1)) start count) as Hsh
    by (intros ??; by rewrite Z.add_assoc).
  destruct (Z.eqb_spec (i * 8 + j) 0) as [H0|H0].
  { apply IH; [lia..|]. apply Hsh. rewrite H0 in *. by apply run_inv_skip. }
  rewrite Bitmap_get_spec, <- Hab by lia. simpl.
  destruct (allocated s (i * 8 + j)) eqn:Ha; simpl.
  { apply IH; [lia..|]. eapply Hsh, run_inv_allocated; [lia|done..]. }
  unfold uadd. pose proof Hinv as (Hc & _). destruct (Z.ltb_spec (count + 1) (2 ^ 64)); [|lia]. simpl.
  destruct (Z.eqb_spec (count + 1) len) as [Heq|Hne].
  - destruct (run_inv_found s len (i * 8 + j) start count) as (st & Hst & Hst1 & Hst2 & Hst3);
      [lia|done..|].
    eexists _, _, true. split; [done|]. split; [done|]. exists st. split_and!; [done..|lia|done].
  - apply IH; [lia..|]. apply Hsh, run_inv_free; [lia|done|done|lia].
Qed.

Lemma multi_outer_spec (n : nat) s len o start count :
  bmm_wf s -> 0 <= o -> o + Z.of_nat n = bitmap_bytes s -> 2 <= len < 2 ^ 64 ->
  run_inv s len (o * 8) start count ->
  exists start' count',
    multi_outer len (seqZ o (Z.of_nat n)) start count s = (Ok (start', count'), s)
    /\ (multi_found s len (8 * bitmap_bytes s) start' count'
        \/ run_inv s len (8 * bitmap_bytes s) start' count').
Proof.
  intros Hwf. pose proof (bytes_small s Hwf). revert o start count.
  induction n as [|n IH]; intros o start count Ho Hn Hlen Hinv.
  { exists start, count. split; [done|]. right. by replace (8 * bitmap_bytes s) with (o * 8) by lia. }
  rewrite seqZ_cons by lia. replace (Z.pred (Z.of_nat (S n))) with (Z.of_nat n) by lia.
  replace (Z.succ o) with (o + 1) by lia.
  cbn [multi_outer]. unfold sbind at 1. rewrite (bitmap_at_run s o Hwf) by lia.
  unfold sbind at 1, sget at 1, is_free_all. change BITMAP_SIZE with 8.
  destruct ((len =? 8) && (0 <? o) && (phys s (bitmap_base s + o) =? 0)) eqn:Hfast.
  - apply andb_true_iff in Hfast as [Hfast H3%Z.eqb_eq].
    apply andb_true_iff in Hfast as [H1%Z.eqb_eq H2%Z.ltb_lt].
    unfold sbind, slift, umul. destruct (Z.ltb_spec (o * 8) (2 ^ 64)); [|lia].
    eexists _, _. split; [done|]. left. split; [done|]. exists (o * 8). split_and!; [done|lia|lia|].
    intros q Hq. replace q with (o * 8 + (q - o * 8)) by lia.
    rewrite allocated_byte, H3 by lia. apply Z.bits_0.
  - unfold sbind at 1, slift. change (seqZ 0 8) with (seqZ 0 (Z.of_nat 8)).
    destruct (multi_inner_spec 8 s len o 0 start count) as (st & c & broke & -> & Hr);
      [done|lia|lia|lia|lia|by rewrite Z.add_0_r|].
    destruct broke.
    + exists st, c. split; [done|]. left. destruct Hr as (Hc & x & H1 & H2 & H3 & H4).
      split; [done|]. exists x. split_and!; [done..|lia|done].
    + apply IH; [lia..|]. by replace ((o + 1) * 8) with (o * 8 + 8) by lia.
Qed.

(** A free run is made of free frames: it is not longer than their number. *)
Lemma free_run_count s i n :
  bmm_wf s -> 0 <= n -> free_run s i n -> n <= free_frame_len (bmm s).
Proof.
  intros Hwf Hn (H1 & H2 & H3). rewrite (wf_free s Hwf).
  assert (length (seqZ i n) <= length (free_frames s))%nat as Hle.
  { apply List.NoDup_incl_length; [apply NoDup_ListNoDup, NoDup_seqZ|].
    intros q Hq%list_elem_of_In%elem_of_seqZ. unfold free_frames. apply List.filter_In.
    rewrite <- list_elem_of_In, elem_of_seqZ, H3 by lia. split; [lia|done]. }
  rewrite length_seqZ in Hle. lia.
Qed.

(** ** The allocator *)

(** What [alloc_mem_frame len] promises. *)
Definition alloc_promise (s : Machine) (len : Z) (r : Result MemoryFrame) (s' : Machine) : Prop :=
  match r with
  | Ok frame =>
      exists start, 1 <= len /\ free_run s start len /\ frame = frame_at start len
        /\ frames_set s s' start len true /\ bmm_wf s'
  | Err e =>
      s' = s
      /\ ((len = 0 /\ e = bmm_error (InvalidMemoryFrameLength 0))
          \/ (1 <= len /\ e = not_found /\ forall start, ~ free_run s start len))
  | Panic => False
  end.

Lemma alloc_single_promise s :
  bmm_wf s -> let '(r, s') := alloc_single_mem_frame s in alloc_promise s 1 r s'.
Proof.
  intros Hwf. unfold alloc_single_mem_frame, sbind, sget.
  destruct (Z.eqb_spec (free_frame_len (bmm s)) 0) as [H0|H0].
  { simpl. split; [done|]. right. split_and!; [lia|done|]. intros st Hrun.
    pose proof (free_run_count s st 1 Hwf ltac:(lia) Hrun). lia. }
  unfold slift. rewrite bitmap_len_run by apply Hwf. pose proof (bytes_small s Hwf).
  pose proof (single_outer_spec (Z.to_nat (bitmap_bytes s)) s 0 Hwf ltac:(lia) ltac:(lia)) as Hs.
  rewrite Z2Nat.id in Hs by lia. destruct (single_outer _ s) as [r s'].
  destruct Hs as [(k & H1 & H2 & H3 & _ & -> & H5 & H6)|(-> & -> & H3)]; simpl.
  - exists k. split_and!; [lia| |done|done|done]. pose proof (free_below_total s k Hwf ltac:(lia) H3).
    split_and!; [lia..|]. intros q Hq. by replace q with k by lia.
  - split; [done|]. right. split_and!; [lia|done|]. intros st (Ha & Hb & Hc).
    pose proof (bytes_bound s). specialize (Hc st ltac:(lia)).
    by rewrite (H3 st) in Hc by lia.
Qed.

(** Taking a free run that was found. *)
Lemma alloc_run_promise s len start :
  bmm_wf s -> 1 <= len -> free_run s start len ->
  let '(r, s') :=
    (let! start := slift (ok_or not_found (Some start)) in
     if len <? len then serr not_found
     else
       do! sfor (seqZ 0 len) (fun i =>
             let! index := slift (uadd 64 start i) in
             alloc_frame index) in
       let! addr := slift (umul 64 start PAGE_SIZE) in
       let! size := slift (umul 64 PAGE_SIZE len) in
       slift (MemoryFrame_new addr size)) s in
  alloc_promise s len r s'.
Proof.
  intros Hwf Hlen Hrun. pose proof Hrun as (H1 & H2 & H3). pose proof (wf_total s Hwf).
  destruct (set_run true (Z.to_nat len) s start Hwf) as (s' & Hs & Hwf' & Hset);
    [lia|lia|intros k Hk; apply H3; lia|done|].
  rewrite Z2Nat.id in Hs, Hset by lia.
  destruct (frame_new_run start len) as (E1 & E2 & E3); [lia..|].
  unfold sbind at 1, slift at 1. simpl ok_or. cbv iota.
  destruct (Z.ltb_spec len len); [lia|]. unfold sbind at 1.
  pose proof (sfor_shift alloc_frame start (Z.to_nat len) 0 s) as Hsh.
  rewrite Z2Nat.id, Z.add_0_r in Hsh by lia. rewrite Hsh by lia.
  change alloc_frame with (set_frame true). rewrite Hs.
  unfold sbind, slift. rewrite E1, E2, E3. exists start. done.
Qed.

Lemma alloc_multi_promise s len :
  bmm_wf s -> 0 <= len < 2 ^ 64 ->
  let '(r, s') := alloc_multi_mem_frame len s in alloc_promise s len r s'.
Proof.
  intros Hwf Hlen. unfold alloc_multi_mem_frame.
  destruct (Z.eqb_spec len 0) as [->|]; [simpl; auto|].
  destruct (Z.eqb_spec len 1) as [->|]; [by apply alloc_single_promise|].
  unfold sbind at 1, sget at 1. destruct (Z.ltb_spec (free_frame_len (bmm s)) len) as [Hf|Hf].
  { simpl. split; [done|]. right. split_and!; [lia|done|]. intros st Hrun.
    pose proof (free_run_count s st len Hwf ltac:(lia) Hrun). lia. }
  unfold sbind at 1, slift at 1. rewrite bitmap_len_run by apply Hwf. pose proof (bytes_small s Hwf).
  destruct (multi_outer_spec (Z.to_nat (bitmap_bytes s)) s len 0 None 0) as (st & c & Hrun & Hres);
    [done|lia|lia|lia| |].
  { split_and!; [lia|lia|by left|done|intros; lia|intros; lia|]. intros st Hst Hle. lia. }
  rewrite Z2Nat.id in Hrun by lia. unfold sbind at 1. rewrite Hrun.
  destruct Hres as [(-> & k & -> & H1 & H2 & H3)|(H1 & H2 & -> & H4 & H5 & H6)].
  - apply alloc_run_promise; [done|lia|]. split_and!; [lia| |done].
    pose proof (free_below_total s (k + len - 1) Hwf ltac:(lia) (H3 (k + len - 1) ltac:(lia))). lia.
  - assert (forall st, ~ free_run s st len) as Hno.
    { intros st (Ha & Hb & Hc). pose proof (bytes_bound s).
      destruct (H6 st Ha ltac:(lia)) as (q & Hq & Hq'). by rewrite Hc in Hq'. }
    destruct (Z.eqb_spec c 0); simpl; unfold sbind, slift; simpl.
    + split; [done|]. right. split_and!; [lia|done..].
    + destruct (Z.ltb_spec c len); [|lia]. split; [done|]. right. split_and!; [lia|done..].
Qed.

(** ** Giving frames back *)

Lemma dealloc_run_promise s start len :
  bmm_wf s -> 1 <= start -> 1 <= len -> start + len <= total_frame_len (bmm s) ->
  (forall k, start <= k < start + len -> allocated s k = true) ->
  len <= allocated_frame_len_in_available_mem (bmm s) ->
  exists s', dealloc_mem_frame (frame_at start len) s = (Ok tt, s')
    /\ bmm_wf s' /\ frames_set s s' start len false.
Proof.
  intros Hwf H1 H2 H3 H4 H5. pose proof (wf_total s Hwf).
  destruct (set_run false (Z.to_nat len) s start Hwf) as (s' & Hs & Hwf' & Hset);
    [lia|lia|intros k Hk; apply H4; lia|lia|].
  rewrite Z2Nat.id in Hs, Hset by lia. exists s'. split; [|done].
  unfold dealloc_mem_frame, frame_index, frame_at, frame_size, frame_start_phys_addr, PAGE_SIZE.
  rewrite (Z.mul_comm 4096 len), !Z.div_mul by lia.
  unfold sbind, slift, uadd. destruct (Z.ltb_spec (start + len) (2 ^ 64)); [|lia].
  replace (start + len - start) with len by lia.
  change dealloc_frame with (set_frame false). by rewrite Hs.
Qed.

(** The first frame of the run is free already: [dealloc_frame] returns its
    error, and the frame dropped on the way out panics. *)
Lemma dealloc_free_frame_panics s start len :
  bmm_wf s -> 1 <= start -> 1 <= len -> start + len <= total_frame_len (bmm s) ->
  allocated s start = false ->
  dealloc_mem_frame (frame_at start len) s = (Panic, s).
Proof.
  intros Hwf H1 H2 H3 H4. pose proof (wf_total s Hwf). pose proof (bytes_bound s).
  unfold dealloc_mem_frame, frame_index, frame_at, frame_size, frame_start_phys_addr, PAGE_SIZE.
  rewrite (Z.mul_comm 4096 len), !Z.div_mul by lia.
  unfold sbind, slift, uadd. destruct (Z.ltb_spec (start + len) (2 ^ 64)); [|lia].
  replace (start + len - start) with len by lia. rewrite seqZ_cons by lia. cbn [sfor].
  change dealloc_frame with (set_frame false). unfold sbind.
  rewrite (set_frame_noop false s start Hwf) by (done || lia). done.
Qed.

(** ** Initialisation *)

Definition desc_end (d : MemoryDescriptor) : Z := desc_phys_start d + desc_page_cnt d * UEFI_PAGE_SIZE.

(** The frames of a region, and those of the regions that may be allocated. *)
Definition desc_frames (d : MemoryDescriptor) : list Z :=
  seqZ (desc_phys_start d / PAGE_SIZE) (desc_page_cnt d).
Definition available_frames (mem_map : list MemoryDescriptor) : list Z :=
  mjoin (desc_frames <$> List.filter is_valid_mem_desc mem_map).

(** What the firmware's memory map is trusted for: the numbers are unsigned,
    the regions end below [2^63] and the available ones do not overlap. *)
Record mem_map_ok (mem_map : list MemoryDescriptor) : Prop := {
  ok_desc : Forall (fun d => 0 <= desc_phys_start d /\ 0 <= desc_page_cnt d /\ desc_end d <= 2 ^ 63) mem_map;
  ok_disjoint : NoDup (available_frames mem_map)
}.

(** Where [bmm_init] puts the bitmap. *)
Definition max_end (mem_map : list MemoryDescriptor) : Z :=
  foldr (fun d m => Z.max (desc_end d) m) 0 mem_map.
Definition total_frames (mem_map : list MemoryDescriptor) : Z := max_end mem_map / UEFI_PAGE_SIZE + 1.
Definition fits_bitmap (total : Z) (d : MemoryDescriptor) : bool :=
  is_valid_mem_desc d && (total / BITMAP_SIZE <=? desc_page_cnt d * UEFI_PAGE_SIZE).

Lemma max_end_bound mem_map :
  Forall (fun d => 0 <= desc_phys_start d /\ 0 <= desc_page_cnt d /\ desc_end d <= 2 ^ 63) mem_map ->
  0 <= max_end mem_map <= 2 ^ 63 /\ Forall (fun d => desc_end d <= max_end mem_map) mem_map.
Proof.
  induction 1 as [|d l Hd Hl [IH1 IH2]]; [split; [cbn; lia|constructor]|].
  cbn [max_end foldr]. fold (max_end l). split; [lia|]. constructor; [lia|].
  eapply Forall_impl; [exact IH2|]. intros x Hx. cbn beta in *. lia.
Qed.

Lemma max_phys_addr_run mem_map best :
  Forall (fun d => 0 <= desc_phys_start d /\ 0 <= desc_page_cnt d /\ desc_end d <= 2 ^ 63) mem_map ->
  0 <= best -> max_phys_addr mem_map (Some best) = Ok (Some (Z.max best (max_end mem_map))).
Proof.
  intros H. revert best. induction H as [|d l Hd Hl IH]; intros best Hb.
  { cbn. do 2 f_equal. lia. }
  cbn [max_phys_addr max_end foldr]. fold (max_end l). unfold desc_end, UEFI_PAGE_SIZE in *.
  unfold umul, uadd. destruct (Z.ltb_spec (desc_page_cnt d * 4096) (2 ^ 64)); [|lia]. cbn [obind].
  destruct (Z.ltb_spec (desc_phys_start d + desc_page_cnt d * 4096) (2 ^ 64)); [|lia]. cbn [obind].
  rewrite IH by lia. do 2 f_equal. lia.
Qed.

Lemma max_phys_addr_first mem_map :
  mem_map_ok mem_map -> mem_map <> [] ->
  max_phys_addr mem_map None = Ok (Some (max_end mem_map)).
Proof.
  intros [H _] Hne. pose proof (max_phys_addr_run mem_map 0 H ltac:(lia)) as Hr.
  destruct (max_end_bound _ H) as [? _]. rewrite Z.max_r in Hr by lia. rewrite <- Hr.
  destruct mem_map as [|d l]; [done|]. cbn [max_phys_addr]. inversion_clear H as [|? ? Hd _].
  unfold desc_end, UEFI_PAGE_SIZE in *.
  unfold umul, uadd. destruct (Z.ltb_spec (desc_page_cnt d * 4096) (2 ^ 64)); [|lia]. cbn [obind].
  destruct (Z.ltb_spec (desc_phys_start d + desc_page_cnt d * 4096) (2 ^ 64)); [|lia]. cbn [obind].
  by rewrite Z.max_r by lia.
Qed.

Lemma find_bitmap_desc_run total mem_map :
  Forall (fun d => 0 <= desc_phys_start d /\ 0 <= desc_page_cnt d /\ desc_end d <= 2 ^ 63) mem_map ->
  find_bitmap_desc total mem_map = Ok (List.find (fits_bitmap total) mem_map).
Proof.
  induction 1 as [|d l Hd Hl IH]; [done|]. cbn [find_bitmap_desc List.find].
  unfold desc_end, UEFI_PAGE_SIZE, fits_bitmap in *.
  destruct (is_valid_mem_desc d); [|done]. unfold umul.
  destruct (Z.ltb_spec (desc_page_cnt d * 4096) (2 ^ 64)); [|lia]. cbn.
  change UEFI_PAGE_SIZE with 4096. by destruct (total / BITMAP_SIZE <=? desc_page_cnt d * 4096).
Qed.

Lemma available_frames_cons d l :
  available_frames (d :: l)
  = (if is_valid_mem_desc d then desc_frames d else []) ++ available_frames l.
Proof. unfold available_frames. cbn. by destruct (is_valid_mem_desc d). Qed.

Lemma available_frames_bound mem_map k :
  mem_map_ok mem_map -> k ∈ available_frames mem_map -> 1 <= k < total_frames mem_map.
Proof.
  intros [H _] Hk. destruct (max_end_bound _ H) as [Hm He].
  unfold available_frames in Hk. apply list_elem_of_join in Hk as (l & Hk & Hl).
  apply list_elem_of_fmap in Hl as (d & -> & Hd). apply elem_of_seqZ in Hk.
  apply list_elem_of_In, List.filter_In in Hd as [Hd Hv]. apply list_elem_of_In in Hd.
  rewrite Forall_forall in H, He. specialize (H d Hd). specialize (He d Hd). cbn beta in *.
  unfold is_valid_mem_desc in Hv. rewrite !andb_true_iff, negb_true_iff, Z.eqb_neq, Z.eqb_eq in Hv.
  destruct Hv as [[_ Hv1] Hv2]. unfold total_frames, desc_end, UEFI_PAGE_SIZE, PAGE_SIZE in *.
  pose proof (Z.div_mod (desc_phys_start d) 4096). pose proof (Z.div_mod (max_end mem_map) 4096).
  pose proof (Z.mod_pos_bound (max_end mem_map) 4096). lia.
Qed.

Lemma available_frames_count mem_map :
  mem_map_ok mem_map -> Z.of_nat (length (available_frames mem_map)) <= total_frames mem_map.
Proof.
  intros Hok. destruct (max_end_bound _ (ok_desc _ Hok)) as [Hm _].
  pose proof (Z.div_pos (max_end mem_map) UEFI_PAGE_SIZE ltac:(lia) ltac:(done)).
  assert (length (available_frames mem_map) <= length (seqZ 0 (total_frames mem_map)))%nat as Hl.
  { apply List.NoDup_incl_length; [apply NoDup_ListNoDup, Hok|].
    intros k Hk%list_elem_of_In. apply list_elem_of_In, elem_of_seqZ.
    pose proof (available_frames_bound _ _ Hok Hk). lia. }
  rewrite length_seqZ in Hl. unfold total_frames in *. lia.
Qed.

Lemma sum_available_run mem_map acc :
  Forall (fun d => 0 <= desc_phys_start d /\ 0 <= desc_page_cnt d /\ desc_end d <= 2 ^ 63) mem_map ->
  0 <= acc -> acc + PAGE_SIZE * Z.of_nat (length (available_frames mem_map)) < 2 ^ 64 ->
  sum_available mem_map acc = Ok (acc + PAGE_SIZE * Z.of_nat (length (available_frames mem_map))).
Proof.
  intros H. revert acc. induction H as [|d l Hd Hl IH]; intros acc Hacc Hb.
  { cbn. f_equal. lia. }
  rewrite available_frames_cons in *. cbn [sum_available].
  unfold desc_end, UEFI_PAGE_SIZE, PAGE_SIZE in *.
  destruct (is_valid_mem_desc d); [|by apply IH].
  rewrite length_app in *. unfold desc_frames in *. rewrite length_seqZ in *.
  unfold umul, uadd. destruct (Z.ltb_spec (desc_page_cnt d * 4096) (2 ^ 64)); [|lia]. cbn [obind].
  destruct (Z.ltb_spec (acc + desc_page_cnt d * 4096) (2 ^ 64)); [|lia]. cbn [obind].
  rewrite IH by lia. f_equal. lia.
Qed.

(** The manager after [bmm_init]. *)
Definition init_bmm (mem_map : list MemoryDescriptor) (d : MemoryDescriptor) : BitmapMemoryManager :=
  let n := Z.of_nat (length (available_frames mem_map)) in
  {| bmm_bitmap_phys_addr := Some (desc_phys_start d);
     total_frame_len := total_frames mem_map;
     allocated_frame_len := total_frames mem_map;
     free_frame_len := 0;
     allocated_frame_len_in_available_mem := n;
     total_available_mem_size := PAGE_SIZE * n |}.

Lemma bmm_init_run mem_map d s :
  mem_map_ok mem_map -> mem_map <> [] ->
  List.find (fits_bitmap (total_frames mem_map)) mem_map = Some d ->
  bmm_init mem_map s = (Ok tt, {| bmm := init_bmm mem_map d; phys := phys s |}).
Proof.
  intros Hok Hne Hd. pose proof (ok_desc _ Hok) as H. destruct (max_end_bound _ H) as [Hm _].
  pose proof (available_frames_count _ Hok) as Hc.
  assert (total_frames mem_map <= 2 ^ 51 + 1) as Ht.
  { unfold total_frames, UEFI_PAGE_SIZE.
    pose proof (Z.div_le_mono (max_end mem_map) (2 ^ 63) 4096 ltac:(lia) ltac:(lia)) as Hq.
    change (2 ^ 63 / 4096) with (2 ^ 51) in Hq. lia. }
  unfold bmm_init, sbind, sassert, slift. change (UEFI_PAGE_SIZE =? PAGE_SIZE) with true. cbv iota.
  unfold sret. rewrite max_phys_addr_first by done. cbn [unwrap]. unfold uadd.
  destruct (Z.ltb_spec (max_end mem_map + UEFI_PAGE_SIZE) (2 ^ 64)); [|unfold UEFI_PAGE_SIZE in *; lia].
  assert (Z.max ((max_end mem_map + UEFI_PAGE_SIZE) / UEFI_PAGE_SIZE) 1 = total_frames mem_map) as ->.
  { unfold total_frames, UEFI_PAGE_SIZE. pose proof (Z.div_pos (max_end mem_map) 4096).
    replace (max_end mem_map + 4096) with (max_end mem_map + 1 * 4096) by lia.
    rewrite Z.div_add by lia. lia. }
  rewrite find_bitmap_desc_run, Hd by done. cbn [unwrap].
  rewrite sum_available_run; [|done|lia|unfold PAGE_SIZE; lia].
  unfold smodify, init_bmm. do 3 f_equal. cbn [bmm phys]. rewrite Z.add_0_l.
  unfold PAGE_SIZE, UEFI_PAGE_SIZE. rewrite Z.mul_comm at 1. by rewrite Z.div_mul by lia.
Qed.

(** The first loop of [bmm_init2]. *)
Lemma fill_run (n : nat) s o :
  is_Some (bmm_bitmap_phys_addr (bmm s)) -> bitmap_base s + bitmap_bytes s < 2 ^ 64 ->
  1 <= total_frame_len (bmm s) <= 2 ^ 52 -> 0 <= o -> o + Z.of_nat n = bitmap_bytes s ->
  exists s', sfor (seqZ o (Z.of_nat n)) (fun i =>
        let! addr := bitmap_at i in
        smodify (fun s => write_phys s addr (Bitmap_fill true))) s = (Ok tt, s')
    /\ bmm s' = bmm s
    /\ forall a, phys s' a = if (bitmap_base s + o <=? a) && (a <? bitmap_base s + bitmap_bytes s)
                            then 0xff else phys s a.
Proof.
  revert s o. induction n as [|n IH]; intros s o Ha Hb Ht Ho Hn.
  { exists s. split_and!; [done..|]. intros a. bool_cases; simpl; lia || done. }
  rewrite seqZ_cons by lia. replace (Z.pred (Z.of_nat (S n))) with (Z.of_nat n) by lia.
  replace (Z.succ o) with (o + 1) by lia. cbn [sfor]. unfold sbind at 1 2.
  rewrite bitmap_at_pre by (done || lia). unfold smodify at 1.
  set (s1 := write_phys s (bitmap_base s + o) (Bitmap_fill true)).
  destruct (IH s1 (o + 1)) as (s' & -> & Hm & Hp); [done|done|done|lia|change (bitmap_bytes s1) with (bitmap_bytes s); lia|].
  exists s'. split_and!; [done..|]. intros a. rewrite Hp.
  change (bitmap_base s1) with (bitmap_base s). change (bitmap_bytes s1) with (bitmap_bytes s).
  unfold s1, write_phys. cbn [phys]. bool_cases; simpl; lia || done.
Qed.

(** The second loop, on one region: its frames, one by one. *)
Lemma free_region_loop d (n : nat) i s :
  0 <= desc_phys_start d -> desc_phys_start d mod PAGE_SIZE = 0 -> 0 <= i ->
  desc_phys_start d + (i + Z.of_nat n) * PAGE_SIZE < 2 ^ 64 ->
  sfor (seqZ i (Z.of_nat n)) (fun i =>
    let! o := slift (umul 64 i PAGE_SIZE) in
    let! a := slift (uadd 64 (desc_phys_start d) o) in
    dealloc_frame (a / PAGE_SIZE)) s
  = sfor (seqZ (desc_phys_start d / PAGE_SIZE + i) (Z.of_nat n)) dealloc_frame s.
Proof.
  unfold PAGE_SIZE. revert i s. induction n as [|n IH]; intros i s Hd Hmod Hi Hb; [done|].
  rewrite (seqZ_cons i), (seqZ_cons (_ + i)) by lia. cbn [sfor].
  replace (Z.pred (Z.of_nat (S n))) with (Z.of_nat n) by lia.
  unfold sbind, slift in *. unfold umul at 1, uadd at 1.
  destruct (Z.ltb_spec (i * 4096) (2 ^ 64)); [|lia].
  destruct (Z.ltb_spec (desc_phys_start d + i * 4096) (2 ^ 64)); [|lia].
  rewrite Z.div_add by lia. destruct (dealloc_frame _ s) as [[[]|e|] s']; [|done..].
  rewrite IH by lia. do 2 f_equal. lia.
Qed.

(** The bits after the frames of [l] were freed. *)
Definition freed (total : Z) (all l : list Z) (s : Machine) : Prop :=
  bmm_wf s /\ total_frame_len (bmm s) = total
  /\ (forall k, 0 <= k < total -> allocated s k = negb (bool_decide (k ∈ l)))
  /\ allocated_frame_len_in_available_mem (bmm s) = Z.of_nat (length all) - Z.of_nat (length l).

Lemma free_region total all l d s :
  freed total all l s -> 0 <= desc_phys_start d -> 0 <= desc_page_cnt d -> desc_end d <= 2 ^ 63 ->
  is_valid_mem_desc d = true ->
  (forall k, k ∈ desc_frames d -> k < total /\ k ∉ l) ->
  (length l + length (desc_frames d) <= length all)%nat ->
  exists s', sfor (seqZ 0 (desc_page_cnt d)) (fun i =>
          let! o := slift (umul 64 i PAGE_SIZE) in
          let! a := slift (uadd 64 (desc_phys_start d) o) in
          dealloc_frame (a / PAGE_SIZE)) s = (Ok tt, s')
    /\ bmm_bitmap_phys_addr (bmm s') = bmm_bitmap_phys_addr (bmm s)
    /\ freed total all (l ++ desc_frames d) s'.
Proof.
  intros (Hwf & Htot & Hbits & Hcnt) H1 H2 H3 Hv Hin Hlen. unfold desc_frames in *.
  unfold is_valid_mem_desc in Hv. rewrite !andb_true_iff, Z.eqb_eq in Hv. destruct Hv as [_ Hmod].
  pose proof (Z.div_pos (desc_phys_start d) PAGE_SIZE ltac:(lia) ltac:(done)) as Ha.
  pose proof (free_region_loop d (Z.to_nat (desc_page_cnt d)) 0 s) as Hloop.
  unfold desc_end, UEFI_PAGE_SIZE in H3. rewrite Z2Nat.id, Z.add_0_r in Hloop by lia.
  rewrite Hloop by (done || lia || (unfold PAGE_SIZE; lia)). clear Hloop.
  set (a := desc_phys_start d / PAGE_SIZE) in *. set (n := desc_page_cnt d) in *.
  destruct (decide (n = 0)) as [->|Hn].
  { exists s. rewrite app_nil_r. done. }
  assert (forall k, a <= k < a + n -> k < total /\ k ∉ l) as Hin'
    by (intros k Hk; apply Hin, elem_of_seqZ; lia).
  destruct (set_run false (Z.to_nat n) s a Hwf) as (s1 & Hrun & Hwf1 & Hset);
    rewrite ?Z2Nat.id in * by lia.
  - lia.
  - destruct (Hin' (a + n - 1)); lia.
  - intros k Hk. destruct (Hin' k) as [? ?]; [lia|].
    by rewrite Hbits, bool_decide_false by (done || lia).
  - rewrite length_seqZ in Hlen. lia.
  - exists s1. pose proof Hset as (S1 & S2 & S3 & S4 & S5 & S6). pose proof (bytes_bound s).
    split_and!; [done..|]. split_and!; [done|congruence| |rewrite length_app, length_seqZ; lia].
    intros k Hk. rewrite S4, Hbits by lia.
    destruct (bool_decide_reflect (k ∈ l ++ seqZ a n)) as [Hi|Hi];
      rewrite elem_of_app, elem_of_seqZ in Hi; destruct (bool_decide_reflect (k ∈ l));
      bool_cases; simpl; first [done | exfalso; apply Hi; solve [by left | right; lia]
        | exfalso; destruct Hi; [done|lia]].
Qed.

Lemma free_regions mem_map done_ todo s :
  mem_map_ok mem_map ->
  available_frames mem_map = available_frames done_ ++ available_frames todo ->
  Forall (fun d => 0 <= desc_phys_start d /\ 0 <= desc_page_cnt d /\ desc_end d <= 2 ^ 63) todo ->
  freed (total_frames mem_map) (available_frames mem_map) (available_frames done_) s ->
  exists s', sfor (List.filter is_valid_mem_desc todo) (fun d =>
        sfor (seqZ 0 (desc_page_cnt d)) (fun i =>
          let! o := slift (umul 64 i PAGE_SIZE) in
          let! a := slift (uadd 64 (desc_phys_start d) o) in
          dealloc_frame (a / PAGE_SIZE))) s = (Ok tt, s')
    /\ bmm_bitmap_phys_addr (bmm s') = bmm_bitmap_phys_addr (bmm s)
    /\ freed (total_frames mem_map) (available_frames mem_map) (available_frames mem_map) s'.
Proof.
  intros Hok. revert done_ s. induction todo as [|d l IH]; intros done_ s Happ Hall Hf.
  { exists s. split_and!; [done..|]. change (available_frames []) with (@nil Z) in Happ.
    rewrite app_nil_r in Happ. by rewrite Happ in *. }
  rewrite available_frames_cons in Happ. inversion_clear Hall as [|? ? Hd Hl]. cbn [List.filter].
  destruct (is_valid_mem_desc d) eqn:Hv; [|exact (IH done_ s Happ Hl Hf)].
  assert (available_frames (done_ ++ [d]) = available_frames done_ ++ desc_frames d) as Hsnoc.
  { unfold available_frames. rewrite List.filter_app. cbn. rewrite Hv, fmap_app, join_app.
    cbn. by rewrite app_nil_r. }
  pose proof (ok_disjoint _ Hok) as Hnd. rewrite Happ in Hnd.
  apply NoDup_app in Hnd as (_ & Hdisj & _).
  destruct (free_region _ _ _ d s Hf) as (s1 & Hrun & Haddr & Hf1); [lia..|done| | |].
  - intros k Hk. split.
    + apply (available_frames_bound _ _ Hok). rewrite Happ, !elem_of_app. auto.
    + intros Hk'. apply (Hdisj k Hk'), elem_of_app. by left.
  - rewrite Happ, !length_app. lia.
  - cbn [sfor]. unfold sbind at 1. rewrite Hrun, <- Haddr. rewrite <- Hsnoc in Hf1.
    apply (IH (done_ ++ [d])); [|done..]. by rewrite Hsnoc, <- app_assoc.
Qed.

(** The third loop of [bmm_init2], on one frame: afterwards it is allocated,
    whether the attempt succeeded or its error was dropped. *)
Lemma reserve_frame s i :
  bmm_wf s -> 0 <= i ->
  exists s', signore (alloc_frame i) s = (Ok tt, s') /\ bmm_wf s'
    /\ bmm_bitmap_phys_addr (bmm s') = bmm_bitmap_phys_addr (bmm s)
    /\ total_frame_len (bmm s') = total_frame_len (bmm s)
    /\ forall k, 0 <= k < total_frame_len (bmm s) -> allocated s' k = (k =? i) || allocated s k.
Proof.
  intros Hwf Hi. pose proof (bytes_bound s). unfold signore.
  destruct (Z.lt_ge_cases i (8 * bitmap_bytes s)) as [Hlt|Hge].
  - destruct (allocated s i) eqn:Ha.
    + pose proof (set_frame_noop true s i Hwf ltac:(lia) Ha) as Hn. simpl in Hn. rewrite Hn.
      exists s. split_and!; [done..|]. intros k Hk. by destruct (Z.eqb_spec k i) as [->|].
    + pose proof (free_below_total s i Hwf ltac:(lia) Ha).
      destruct (set_frame_run true s i Hwf) as (s' & Hrun & Hwf' & S1 & S2 & S3 & S4 & _);
        [lia|done|done|]. simpl in Hrun. rewrite Hrun. exists s'. split_and!; [done..|].
      intros k Hk. rewrite S4 by lia. bool_cases; simpl; lia || done.
  - exists s. split_and!; [|done..|]; [|intros k Hk; by destruct (Z.eqb_spec k i); [lia|]].
    unfold alloc_frame, bitmap_at, sbind, sget, slift.
    rewrite bitmap_len_run by apply Hwf. unfold bitmap_offset, BITMAP_SIZE.
    pose proof (div8_mod8 i). pose proof (mod8_bound i).
    destruct (Z.leb_spec (bitmap_bytes s) (i / 8)); [done|lia].
Qed.

Lemma reserve_run (n : nat) s i :
  bmm_wf s -> 0 <= i ->
  exists s', sfor (seqZ i (Z.of_nat n)) (fun i => signore (alloc_frame i)) s = (Ok tt, s')
    /\ bmm_wf s'
    /\ bmm_bitmap_phys_addr (bmm s') = bmm_bitmap_phys_addr (bmm s)
    /\ total_frame_len (bmm s') = total_frame_len (bmm s)
    /\ forall k, 0 <= k < total_frame_len (bmm s) ->
         allocated s' k = ((i <=? k) && (k <? i + Z.of_nat n)) || allocated s k.
Proof.
  revert s i. induction n as [|n IH]; intros s i Hwf Hi.
  { exists s. split_and!; [done..|]. intros k Hk. bool_cases; simpl; lia || done. }
  rewrite seqZ_cons by lia. replace (Z.pred (Z.of_nat (S n))) with (Z.of_nat n) by lia.
  destruct (reserve_frame s i Hwf Hi) as (s1 & Hrun & Hwf1 & A1 & A2 & A3).
  cbn [sfor]. unfold sbind at 1. rewrite Hrun.
  destruct (IH s1 (Z.succ i) Hwf1) as (s2 & -> & Hwf2 & B1 & B2 & B3); [lia|].
  exists s2. split_and!; [done|done|congruence|congruence|].
  intros k Hk. rewrite B3, A3 by lia. bool_cases; simpl; lia || done.
Qed.

(** After the bitmap was filled every frame is allocated. *)
Lemma filled_wf mem_map d s :
  mem_map_ok mem_map -> 0 <= desc_phys_start d <= 2 ^ 63 ->
  bmm s = init_bmm mem_map d ->
  (forall o, 0 <= o < bitmap_bytes s -> phys s (bitmap_base s + o) = 0xff) ->
  freed (total_frames mem_map) (available_frames mem_map) [] s.
Proof.
  intros Hok Hd Hm Hp. destruct (max_end_bound _ (ok_desc _ Hok)) as [Hmax _].
  pose proof (available_frames_count _ Hok) as Hc. pose proof (bytes_bound s) as Hbb.
  assert (1 <= total_frames mem_map <= 2 ^ 51 + 1) as Ht.
  { unfold total_frames, UEFI_PAGE_SIZE.
    pose proof (Z.div_le_mono (max_end mem_map) (2 ^ 63) 4096 ltac:(lia) ltac:(lia)) as Hq.
    change (2 ^ 63 / 4096) with (2 ^ 51) in Hq. pose proof (Z.div_pos (max_end mem_map) 4096). lia. }
  assert (total_frame_len (bmm s) = total_frames mem_map) as Htot by (by rewrite Hm).
  assert (bitmap_base s = desc_phys_start d) as Hbase by (unfold bitmap_base; by rewrite Hm).
  assert (forall k, 0 <= k < 8 * bitmap_bytes s -> allocated s k = true) as Hall.
  { intros k Hk. unfold allocated. pose proof (div8_mod8 k). pose proof (mod8_bound k).
    rewrite Hp by lia. by apply byte_full_bits. }
  assert (free_frames s = []) as Hfree.
  { unfold free_frames.
    destruct (List.filter _ _) as [|x l] eqn:E; [done|].
    assert (In x (x :: l)) as Hx by (by left). rewrite <- E in Hx.
    apply List.filter_In in Hx as [Hx Hx']. apply list_elem_of_In, elem_of_seqZ in Hx.
    by rewrite Hall in Hx' by lia. }
  split_and!; [constructor|done| |].
  - rewrite Hm. by eexists.
  - lia.
  - lia.
  - intros o Ho. rewrite Hp by done. lia.
  - intros k Hk. apply Hall. lia.
  - by rewrite Hfree, Hm.
  - rewrite Hm. cbn. lia.
  - rewrite Hm. cbn. lia.
  - rewrite Hm. cbn [init_bmm allocated_frame_len_in_available_mem free_frame_len total_available_mem_size].
    unfold PAGE_SIZE. rewrite Z.mul_comm, Z.div_mul by lia. lia.
  - rewrite Hm. cbn [init_bmm total_available_mem_size]. unfold PAGE_SIZE. lia.
  - intros k Hk. rewrite Hall by lia. done.
  - rewrite Hm. cbn. lia.
Qed.

(** The frames that hold the bitmap, as [bmm_init2] counts them. *)
Definition bitmap_first (s : Machine) : Z := bitmap_base s / PAGE_SIZE.
Definition bitmap_last (s : Machine) : Z := (bitmap_base s + bitmap_bytes s) / PAGE_SIZE.

Lemma bmm_init2_run mem_map d s :
  mem_map_ok mem_map -> 0 <= desc_phys_start d <= 2 ^ 63 -> bmm s = init_bmm mem_map d ->
  exists s', bmm_init2 mem_map s = (Ok tt, s') /\ bmm_wf s'
    /\ bmm_bitmap_phys_addr (bmm s') = Some (desc_phys_start d)
    /\ total_frame_len (bmm s') = total_frames mem_map
    /\ forall k, 0 <= k < total_frames mem_map ->
         allocated s' k = ((bitmap_first s' <=? k) && (k <=? bitmap_last s'))
                          || negb (bool_decide (k ∈ available_frames mem_map)).
Proof.
  intros Hok Hd Hm. pose proof (bytes_bound s) as Hbb.
  assert (1 <= total_frames mem_map <= 2 ^ 52) as Ht.
  { destruct (max_end_bound _ (ok_desc _ Hok)) as [Hmax _]. unfold total_frames, UEFI_PAGE_SIZE.
    pose proof (Z.div_le_mono (max_end mem_map) (2 ^ 63) 4096 ltac:(lia) ltac:(lia)) as Hq.
    change (2 ^ 63 / 4096) with (2 ^ 51) in Hq. pose proof (Z.div_pos (max_end mem_map) 4096). lia. }
  assert (total_frame_len (bmm s) = total_frames mem_map) as Htot by (by rewrite Hm).
  assert (bitmap_base s = desc_phys_start d) as Hbase by (unfold bitmap_base; by rewrite Hm).
  destruct (fill_run (Z.to_nat (bitmap_bytes s)) s 0) as (s1 & Hfill & Hm1 & Hp1);
    [rewrite Hm; by eexists|lia|lia|lia|lia|]. rewrite Z2Nat.id in Hfill by lia.
  assert (bitmap_base s1 = bitmap_base s /\ bitmap_bytes s1 = bitmap_bytes s) as [Hb1 Hy1]
    by (unfold bitmap_base, bitmap_bytes; by rewrite Hm1).
  assert (freed (total_frames mem_map) (available_frames mem_map) [] s1) as Hf1.
  { apply (filled_wf mem_map d); [done|done|congruence|]. rewrite Hb1, Hy1. intros o Ho.
    rewrite Hp1. bool_cases; simpl; lia || done. }
  destruct (free_regions mem_map [] mem_map s1 Hok eq_refl (ok_desc _ Hok) Hf1)
    as (s2 & Hfree & Ha2 & Hwf2 & Htot2 & Hbits2 & _).
  unfold bmm_init2. rewrite (sbind_run sget _ s s s) by done.
  rewrite (sbind_run _ _ s (bitmap_bytes s) s) by (unfold slift; by rewrite bitmap_len_run by lia).
  rewrite (sbind_run _ _ _ _ _ Hfill), (sbind_run _ _ _ _ _ Hfree).
  unfold sbind, sget. rewrite Hm1, Hm in Ha2. cbn [init_bmm bmm_bitmap_phys_addr] in Ha2.
  assert (bitmap_base s2 = desc_phys_start d) as Hb2 by (unfold bitmap_base; by rewrite Ha2).
  assert (bitmap_bytes s2 = bitmap_bytes s) as Hy2 by (unfold bitmap_bytes; by rewrite Htot2, Htot).
  unfold slift at 1, bitmap_phys_addr. rewrite Ha2. cbn [ok_or].
  unfold slift. rewrite bitmap_len_run by lia. unfold uadd. rewrite Hy2.
  destruct (Z.ltb_spec (desc_phys_start d + bitmap_bytes s) (2 ^ 64)); [|lia].
  set (first := desc_phys_start d / PAGE_SIZE). set (last := (desc_phys_start d + bitmap_bytes s) / PAGE_SIZE).
  assert (0 <= first <= last) as Hfl.
  { split; [by apply Z.div_pos; [lia|]|]. apply Z.div_le_mono; [done|lia]. }
  destruct (reserve_run (Z.to_nat (last + 1 - first)) s2 first Hwf2) as (s3 & Hr & Hwf3 & A1 & A2 & A3); [lia|].
  rewrite Z2Nat.id in Hr, A3 by lia. rewrite Hr. exists s3. split_and!; [done|done|congruence|congruence|].
  intros k Hk. rewrite A3, Hbits2 by lia. unfold bitmap_first, bitmap_last.
  assert (bitmap_base s3 = desc_phys_start d) as -> by (unfold bitmap_base; by rewrite A1, Ha2).
  assert (bitmap_bytes s3 = bitmap_bytes s) as -> by (unfold bitmap_bytes; by rewrite A2, Htot2, Htot).
  fold first last. bool_cases; simpl; lia || done.
Qed.

Lemma mem_init_run mem_map d s :
  mem_map_ok mem_map -> List.find (fits_bitmap (total_frames mem_map)) mem_map = Some d ->
  exists s', mem_init mem_map s = (Ok tt, s') /\ bmm_wf s'
    /\ bmm_bitmap_phys_addr (bmm s') = Some (desc_phys_start d)
    /\ total_frame_len (bmm s') = total_frames mem_map
    /\ forall k, 0 <= k < total_frames mem_map ->
         allocated s' k = ((bitmap_first s' <=? k) && (k <=? bitmap_last s'))
                          || negb (bool_decide (k ∈ available_frames mem_map)).
Proof.
  intros Hok Hd. assert (mem_map <> []) as Hne by (intros ->; done).
  pose proof (ok_desc _ Hok) as Hall. rewrite Forall_forall in Hall.
  pose proof (List.find_some _ _ Hd) as [Hin _]. apply list_elem_of_In in Hin.
  specialize (Hall d Hin). cbn beta in Hall. unfold desc_end, UEFI_PAGE_SIZE in Hall.
  unfold mem_init. rewrite (sbind_run _ _ _ _ _ (bmm_init_run mem_map d s Hok Hne Hd)).
  apply (bmm_init2_run mem_map d); [done|lia|done].
Qed.

(** A machine with 68 KiB of memory, for concrete runs: 15 usable frames from 4 KiB
    up and a reserved one. *)
Definition demo_map : list MemoryDescriptor :=
  [ {| desc_ty := Conventional; desc_phys_start := 0x1000; desc_virt_start := 0; desc_page_cnt := 15; desc_attr := 0 |};
    {| desc_ty := MemReserved; desc_phys_start := 0x10000; desc_virt_start := 0; desc_page_cnt := 1; desc_attr := 0 |} ].
Definition demo_machine : Machine :=
  snd (mem_init demo_map {| bmm := BitmapMemoryManager_new; phys := fun _ => 0 |}).

Lemma demo_map_ok : mem_map_ok demo_map.
Proof.
  constructor; [|apply (bool_decide_unpack _); by vm_compute].
  repeat constructor; vm_compute; by intros.
Qed.

Lemma demo_wf : bmm_wf demo_machine.
Proof.
  destruct (mem_init_run demo_map (List.nth 0 demo_map (MkDesc MemReserved 0 0 0 0))
              {| bmm := BitmapMemoryManager_new; phys := fun _ => 0 |})
    as (s' & Hrun & Hwf & _); [apply demo_map_ok|done|].
  unfold demo_machine. by rewrite Hrun.
Qed.

(** ** Properties *)

(** the physical frame allocator is set up correctly from any sane memory
    map that has a region for the bitmap: initialisation does not panic and
    establishes the invariant; the free frames are exactly the frames of the
    available regions other than those that hold the bitmap, and no byte of the
    bitmap lies in a frame that can be handed out. *)
Theorem mem_init_correct mem_map d s :
  mem_map_ok mem_map -> List.find (fits_bitmap (total_frames mem_map)) mem_map = Some d ->
  exists s', mem_init mem_map s = (Ok tt, s') /\ bmm_wf s'
    /\ bitmap_base s' = desc_phys_start d
    /\ (forall k, 0 <= k < total_frame_len (bmm s') ->
          allocated s' k = false
          <-> k ∈ available_frames mem_map /\ ~ (bitmap_first s' <= k <= bitmap_last s'))
    /\ (forall o, 0 <= o < bitmap_bytes s' ->
          let k := (bitmap_base s' + o) / PAGE_SIZE in
          k < total_frame_len (bmm s') -> allocated s' k = true).
Proof.
  intros Hok Hd. destruct (mem_init_run mem_map d s Hok Hd) as (s' & Hrun & Hwf & Ha & Ht & Hbits).
  exists s'. split_and!; [done|done|unfold bitmap_base; by rewrite Ha|..]; rewrite Ht.
  - intros k Hk. rewrite (Hbits k Hk), orb_false_iff, negb_false_iff, bool_decide_eq_true,
      andb_false_iff, !Z.leb_gt. split; [intros [? ?]; split; [done|lia]|intros [? ?]; split; [lia|done]].
  - intros o Ho k Hk. pose proof (wf_base s' Hwf) as [Hb _].
    rewrite Hbits by (split; [apply Z.div_pos; unfold PAGE_SIZE; lia|done]).
    assert (bitmap_first s' <= k <= bitmap_last s') as Hr
      by (split; apply Z.div_le_mono; unfold PAGE_SIZE; lia).
    bool_cases; simpl; lia || done.
Qed.

Lemma mem_init_correct_witness :
  exists s', mem_init demo_map {| bmm := BitmapMemoryManager_new; phys := fun _ => 0 |} = (Ok tt, s')
    /\ bmm_wf s'.
Proof.
  destruct (mem_init_correct demo_map (List.nth 0 demo_map (MkDesc MemReserved 0 0 0 0))
    {| bmm := BitmapMemoryManager_new; phys := fun _ => 0 |} demo_map_ok eq_refl) as (s' & H1 & H2 & _).
  exists s'. split; assumption.
Defined.

(** C18: [alloc_mem_frame] is sound and complete and never panics.  In a well-formed
    state, for every length a [usize] holds: [Ok] hands out [len] consecutive
    frames that were free (frame 0 never), marks exactly those and keeps the
    invariant; [Err] leaves the state alone and is returned only for length 0
    or when no run of [len] free frames exists anywhere. *)
Theorem alloc_mem_frame_correct s len :
  bmm_wf s -> 0 <= len < 2 ^ 64 ->
  match alloc_multi_mem_frame len s with
  | (Ok frame, s') =>
      exists start, 1 <= len /\ free_run s start len /\ frame = frame_at start len
        /\ frames_set s s' start len true /\ bmm_wf s'
  | (Err e, s') =>
      s' = s
      /\ ((len = 0 /\ e = bmm_error (InvalidMemoryFrameLength 0))
          \/ (1 <= len /\ e = not_found /\ forall start, ~ free_run s start len))
  | (Panic, _) => False
  end.
Proof.
  intros Hwf Hlen. pose proof (alloc_multi_promise s len Hwf Hlen) as H.
  by destruct (alloc_multi_mem_frame len s) as [[frame|e|] s'].
Qed.

Lemma alloc_mem_frame_correct_witness :
  fst (alloc_multi_mem_frame 3 demo_machine) = Ok (frame_at 2 3)
  /\ match alloc_multi_mem_frame 3 demo_machine with
     | (Ok frame, s') => bmm_wf s'
     | _ => False
     end.
Proof.
  split; [vm_compute; reflexivity|].
  pose proof (alloc_mem_frame_correct demo_machine 3 demo_wf ltac:(lia)) as H.
  destruct (alloc_multi_mem_frame 3 demo_machine) as [[frame|e|] s'] eqn:E.
  - destruct H as (start & _ & _ & _ & _ & H). exact H.
  - exfalso. assert (Hf : fst (alloc_multi_mem_frame 3 demo_machine) = Err e) by (rewrite E; reflexivity).
    vm_compute in Hf. discriminate Hf.
  - exact H.
Defined.

(** giving back what was allocated restores the allocator, and giving it
    back a second time is caught: after [alloc] and [dealloc] every frame has
    the bit and every counter the value it had before, and a further [dealloc]
    of the same frames panics instead of freeing frames of somebody else. *)
Theorem alloc_dealloc_roundtrip s len frame s1 :
  bmm_wf s -> 0 <= len < 2 ^ 64 ->
  alloc_multi_mem_frame len s = (Ok frame, s1) ->
  exists s2, dealloc_mem_frame frame s1 = (Ok tt, s2) /\ bmm_wf s2 /\ bmm s2 = bmm s
    /\ (forall k, 0 <= k < total_frame_len (bmm s) -> allocated s2 k = allocated s k)
    /\ dealloc_mem_frame frame s2 = (Panic, s2).
Proof.
  intros Hwf Hlen Hal. pose proof (alloc_multi_promise s len Hwf Hlen) as H. rewrite Hal in H.
  destruct H as (start & H1 & (R1 & R2 & R3) & -> & (A1 & A2 & A3 & A4 & A5 & A6) & Hwf1).
  pose proof (wf_avail_nonneg s Hwf). pose proof (bytes_bound s) as Hb.
  destruct (dealloc_run_promise s1 start len Hwf1) as (s2 & Hd & Hwf2 & (B1 & B2 & B3 & B4 & B5 & B6));
    [lia|lia|lia| |lia|].
  { intros k Hk. rewrite A4 by lia. bool_cases; simpl; lia || done. }
  assert (bitmap_bytes s1 = bitmap_bytes s) as Hy by (unfold bitmap_bytes; by rewrite A2).
  assert (forall k, 0 <= k < total_frame_len (bmm s) -> allocated s2 k = allocated s k) as Hbits.
  { intros k Hk. rewrite B4, A4 by lia. bool_cases; simpl; try done; rewrite R3 by lia; done. }
  exists s2. split_and!; [done|done| |done|].
  - pose proof (wf_sum s Hwf). pose proof (wf_sum s2 Hwf2). cbv iota in *.
    destruct (bmm s), (bmm s2). cbn [bmm_bitmap_phys_addr total_frame_len total_available_mem_size
      free_frame_len allocated_frame_len allocated_frame_len_in_available_mem] in *. f_equal; congruence || lia.
  - apply dealloc_free_frame_panics; [done|lia|lia|lia|]. rewrite Hbits by lia. apply R3. lia.
Qed.

Lemma alloc_dealloc_roundtrip_witness :
  exists frame s1 s2, alloc_multi_mem_frame 8 demo_machine = (Ok frame, s1)
    /\ dealloc_mem_frame frame s1 = (Ok tt, s2).
Proof.
  destruct (alloc_multi_mem_frame 8 demo_machine) as [[frame|e|] s1] eqn:E.
  - destruct (alloc_dealloc_roundtrip demo_machine 8 frame s1 demo_wf ltac:(lia) E) as (s2 & H & _).
    exists frame, s1, s2. split; [reflexivity|exact H].
  - exfalso. assert (Hf : fst (alloc_multi_mem_frame 8 demo_machine) = Err e) by (rewrite E; reflexivity).
    vm_compute in Hf. discriminate Hf.
  - exfalso. assert (Hf : fst (alloc_multi_mem_frame 8 demo_machine) = Panic) by (rewrite E; reflexivity).
    vm_compute in Hf. discriminate Hf.
Defined.
