(* ===== verification/Packet.v ===== *)
(** * Packet formats of the network stack ([kernel/src/net])

    [checksum.rs] and the packets of [tcp.rs], [udp.rs], [icmp.rs], [arp.rs],
    [ip.rs] and [eth.rs]: parsing ([try_from]), construction ([new_with]),
    checksums and printing ([to_vec]).  Bytes and fields are [Z]; indexing and
    slicing go through [idx] and [slice], so a parser that reads out of range
    panics here too. *)
From Stdlib Require Import ZArith Lia.
From stdpp Require Import base list strings.
From S2P Require Import Prelude KError.

(** ** Definitions *)

(** [core::net::Ipv4Addr]: its octets. *)
Abbreviation Ipv4Addr := (Z * Z * Z * Z)%type.
Abbreviation EthernetAddress := (Z * Z * Z * Z * Z * Z)%type.

Definition octets (a : Ipv4Addr) : list Z :=
  let '(a0, a1, a2, a3) := a in [a0; a1; a2; a3].

Definition EthernetAddress_into (a : EthernetAddress) : list Z :=
  let '(a0, a1, a2, a3, a4, a5) := a in [a0; a1; a2; a3; a4; a5].

Definition EthernetAddress_broadcast : EthernetAddress :=
  (0xff, 0xff, 0xff, 0xff, 0xff, 0xff).

(** [u16::from_be_bytes(\[v\[i\], v\[i+1\]\])] and the like. *)
Definition u16_at (v : list Z) (i : nat) : Result Z :=
  let? a := idx v i in
  let? b := idx v (i + 1) in
  Ok (from_be_bytes [a; b]).

Definition u32_at (v : list Z) (i : nat) : Result Z :=
  let? a := idx v i in
  let? b := idx v (i + 1) in
  let? c := idx v (i + 2) in
  let? d := idx v (i + 3) in
  Ok (from_be_bytes [a; b; c; d]).

Definition ipv4_at (v : list Z) (i : nat) : Result Ipv4Addr :=
  let? a := idx v i in
  let? b := idx v (i + 1) in
  let? c := idx v (i + 2) in
  let? d := idx v (i + 3) in
  Ok (a, b, c, d).

Definition mac_at (v : list Z) (i : nat) : Result EthernetAddress :=
  let? a := idx v i in
  let? b := idx v (i + 1) in
  let? c := idx v (i + 2) in
  let? d := idx v (i + 3) in
  let? e := idx v (i + 4) in
  let? f := idx v (i + 5) in
  Ok (a, b, c, d, e, f).

Definition buffer_size (required : nat) (v : list Z) : Error :=
  InvalidBufferSize (Z.of_nat required) (Z.of_nat (length v)).

(** *** [checksum.rs] *)

Fixpoint checksum_fold (acc : Z) (data : list Z) : Z :=
  match data with
  | [] => acc
  | [h] => wrapping_add 32 acc (from_be_bytes [h; 0])
  | h :: l :: rest => checksum_fold (wrapping_add 32 acc (from_be_bytes [h; l])) rest
  end.

Definition checksum_words (data : list Z) : Z := checksum_fold 0 data.

(** The [while] loop of [fold_checksum]; two rounds are enough for a [u32]
    ([fold_loop_done]). *)
Fixpoint fold_loop (fuel : nat) (sum : Z) : Z :=
  match fuel with
  | O => sum
  | S n => if 0 <? Z.shiftr sum 16
           then fold_loop n (Z.land sum 0xffff + Z.shiftr sum 16)
           else sum
  end.

Definition fold_checksum (sum : Z) : Z := unot 16 (wrap 16 (fold_loop 2 sum)).

Definition pseudo_header_sum (src_addr dst_addr : Ipv4Addr) (protocol : Z) (len : nat) : Result Z :=
  let '(s0, s1, s2, s3) := src_addr in
  let '(d0, d1, d2, d3) := dst_addr in
  let? sum := uadd 32 0 (Z.lor (Z.shiftl s0 8) s1) in
  let? sum := uadd 32 sum (Z.lor (Z.shiftl s2 8) s3) in
  let? sum := uadd 32 sum (Z.lor (Z.shiftl d0 8) d1) in
  let? sum := uadd 32 sum (Z.lor (Z.shiftl d2 8) d3) in
  let? sum := uadd 32 sum protocol in
  uadd 32 sum (wrap 32 (Z.of_nat len)).

(** *** [tcp.rs]: the packet *)

Record TcpPacket := MkTcp {
  tcp_src_port : Z;
  tcp_dst_port : Z;
  tcp_seq_num : Z;
  tcp_ack_num : Z;
  tcp_flags : Z;
  tcp_window_size : Z;
  tcp_checksum : Z;
  tcp_urgent_ptr : Z;
  tcp_options : list Z;
  tcp_data : list Z
}.

Definition FLAGS_FIN : Z := 0x01.
Definition FLAGS_SYN : Z := 0x02.
Definition FLAGS_RST : Z := 0x04.
Definition FLAGS_PSH : Z := 0x08.
Definition FLAGS_ACK : Z := 0x10.
Definition FLAGS_URG : Z := 0x20.
Definition FLAGS_ECE : Z := 0x40.
Definition FLAGS_CWR : Z := 0x80.
Definition FLAGS_NS : Z := 0x100.

Definition TcpPacket_try_from (value : list Z) : Result TcpPacket :=
  if (length value <? 20)%nat then Err (error_into (buffer_size 20 value))
  else
    let? src_port := u16_at value 0 in
    let? dst_port := u16_at value 2 in
    let? seq_num := u32_at value 4 in
    let? ack_num := u32_at value 8 in
    let? flags := u16_at value 12 in
    let? window_size := u16_at value 14 in
    let? checksum := u16_at value 16 in
    let? urgent_ptr := u16_at value 18 in
    let data_offset_words := Z.to_nat (Z.shiftr flags 12) in
    if (data_offset_words <? 5)%nat then Err (with_context InvalidData "TCP data offset")
    else
      let header_len := (data_offset_words * 4)%nat in
      if (length value <? header_len)%nat then Err (error_into (buffer_size header_len value))
      else
        let? options := slice value 20 header_len in
        let? data := slice value header_len (length value) in
        Ok {| tcp_src_port := src_port; tcp_dst_port := dst_port;
              tcp_seq_num := seq_num; tcp_ack_num := ack_num; tcp_flags := flags;
              tcp_window_size := window_size; tcp_checksum := checksum;
              tcp_urgent_ptr := urgent_ptr; tcp_options := options; tcp_data := data |}.

(** [header_len << 12] keeps 16 bits; [header_len] is a [u16] cast of a
    [usize]. *)
Definition TcpPacket_new_with (src_port dst_port seq_num ack_num flags_without_header_len
    window_size urgent_ptr : Z) (options data : list Z) : Result TcpPacket :=
  let header_len := wrap 16 (Z.of_nat ((20 + length options + 3) / 4)) in
  let flags := Z.lor (wrap 16 (Z.shiftl header_len 12)) (Z.land flags_without_header_len 0x0fff) in
  let? n := usub 64 (header_len * 4) 20 in
  Ok {| tcp_src_port := src_port; tcp_dst_port := dst_port;
        tcp_seq_num := seq_num; tcp_ack_num := ack_num; tcp_flags := flags;
        tcp_window_size := window_size; tcp_checksum := 0; tcp_urgent_ptr := urgent_ptr;
        tcp_options := vec_resize options (Z.to_nat n) 0; tcp_data := data |}.

Definition TcpPacket_to_vec (p : TcpPacket) : list Z :=
  to_be_bytes 2 (tcp_src_port p) ++ to_be_bytes 2 (tcp_dst_port p)
  ++ to_be_bytes 4 (tcp_seq_num p) ++ to_be_bytes 4 (tcp_ack_num p)
  ++ to_be_bytes 2 (tcp_flags p) ++ to_be_bytes 2 (tcp_window_size p)
  ++ to_be_bytes 2 (tcp_checksum p) ++ to_be_bytes 2 (tcp_urgent_ptr p)
  ++ tcp_options p ++ tcp_data p.

Definition tcp_set_checksum (p : TcpPacket) (c : Z) : TcpPacket :=
  {| tcp_src_port := tcp_src_port p; tcp_dst_port := tcp_dst_port p;
     tcp_seq_num := tcp_seq_num p; tcp_ack_num := tcp_ack_num p; tcp_flags := tcp_flags p;
     tcp_window_size := tcp_window_size p; tcp_checksum := c;
     tcp_urgent_ptr := tcp_urgent_ptr p; tcp_options := tcp_options p; tcp_data := tcp_data p |}.

Definition TcpPacket_calc_checksum (p : TcpPacket) : TcpPacket :=
  let p := tcp_set_checksum p 0 in
  tcp_set_checksum p (fold_checksum (checksum_words (TcpPacket_to_vec p))).

Definition TcpPacket_verify_checksum_with_ipv4 (p : TcpPacket) (src_addr dst_addr : Ipv4Addr)
  : Result bool :=
  let packet := TcpPacket_to_vec p in
  let? sum := pseudo_header_sum src_addr dst_addr 6 (length packet) in
  let checksum := fold_checksum (wrapping_add 32 sum (checksum_words packet)) in
  Ok ((checksum =? 0xffff) || (checksum =? 0)).

Definition TcpPacket_calc_checksum_with_ipv4 (p : TcpPacket) (src_addr dst_addr : Ipv4Addr)
  : Result TcpPacket :=
  let p := tcp_set_checksum p 0 in
  let packet := TcpPacket_to_vec p in
  let? sum := pseudo_header_sum src_addr dst_addr 6 (length packet) in
  Ok (tcp_set_checksum p (fold_checksum (wrapping_add 32 sum (checksum_words packet)))).

Definition flags_header_len (p : TcpPacket) : Z := Z.shiftr (tcp_flags p) 12 * 4.
Definition flags_fin (p : TcpPacket) : bool := negb (Z.land (tcp_flags p) FLAGS_FIN =? 0).
Definition flags_syn (p : TcpPacket) : bool := negb (Z.land (tcp_flags p) FLAGS_SYN =? 0).
Definition flags_rst (p : TcpPacket) : bool := negb (Z.land (tcp_flags p) FLAGS_RST =? 0).
Definition flags_psh (p : TcpPacket) : bool := negb (Z.land (tcp_flags p) FLAGS_PSH =? 0).
Definition flags_ack (p : TcpPacket) : bool := negb (Z.land (tcp_flags p) FLAGS_ACK =? 0).
Definition flags_urg (p : TcpPacket) : bool := negb (Z.land (tcp_flags p) FLAGS_URG =? 0).
Definition flags_ece (p : TcpPacket) : bool := negb (Z.land (tcp_flags p) FLAGS_ECE =? 0).
Definition flags_cwr (p : TcpPacket) : bool := negb (Z.land (tcp_flags p) FLAGS_CWR =? 0).
Definition flags_ns (p : TcpPacket) : bool := negb (Z.land (tcp_flags p) FLAGS_NS =? 0).

(** *** [udp.rs]: the packet *)

Record UdpPacket := MkUdp {
  udp_src_port : Z;
  udp_dst_port : Z;
  udp_len : Z;
  udp_checksum : Z;
  udp_data : list Z
}.

Definition UdpPacket_try_from (value : list Z) : Result UdpPacket :=
  if (length value <? 8)%nat then Err (error_into (buffer_size 8 value))
  else
    let? src_port := u16_at value 0 in
    let? dst_port := u16_at value 2 in
    let? len := u16_at value 4 in
    let? checksum := u16_at value 6 in
    let? data := slice value 8 (Z.to_nat len) in
    Ok {| udp_src_port := src_port; udp_dst_port := dst_port; udp_len := len;
          udp_checksum := checksum; udp_data := data |}.

Definition UdpPacket_new_with (src_port dst_port : Z) (data : list Z) : Result UdpPacket :=
  let? len := uadd 16 8 (wrap 16 (Z.of_nat (length data))) in
  Ok {| udp_src_port := src_port; udp_dst_port := dst_port; udp_len := len;
        udp_checksum := 0; udp_data := data |}.

Definition UdpPacket_to_vec (p : UdpPacket) : list Z :=
  to_be_bytes 2 (udp_src_port p) ++ to_be_bytes 2 (udp_dst_port p)
  ++ to_be_bytes 2 (udp_len p) ++ to_be_bytes 2 (udp_checksum p) ++ udp_data p.

Definition udp_set_checksum (p : UdpPacket) (c : Z) : UdpPacket :=
  {| udp_src_port := udp_src_port p; udp_dst_port := udp_dst_port p; udp_len := udp_len p;
     udp_checksum := c; udp_data := udp_data p |}.

Definition UdpPacket_calc_checksum_with_ipv4 (p : UdpPacket) (src_addr dst_addr : Ipv4Addr)
  : Result UdpPacket :=
  let p := udp_set_checksum p 0 in
  let udp_vec := UdpPacket_to_vec p in
  let? sum := pseudo_header_sum src_addr dst_addr 17 (length udp_vec) in
  Ok (udp_set_checksum p (fold_checksum (wrapping_add 32 sum (checksum_words udp_vec)))).

(** *** [icmp.rs] *)

Inductive IcmpType := EchoReply | EchoRequest | IcmpOther (x : Z).

Definition u8_from_IcmpType (ty : IcmpType) : Z :=
  match ty with EchoReply => 0 | EchoRequest => 8 | IcmpOther x => x end.

Definition IcmpType_from (data : Z) : IcmpType :=
  if data =? 0 then EchoReply else if data =? 8 then EchoRequest else IcmpOther data.

Record IcmpPacket := MkIcmp {
  icmp_ty : IcmpType;
  icmp_code : Z;
  icmp_checksum : Z;
  icmp_id : Z;
  icmp_seq : Z;
  icmp_data : list Z
}.

Definition IcmpPacket_try_from (value : list Z) : Result IcmpPacket :=
  if (length value <? 8)%nat then Err (error_into (buffer_size 8 value))
  else
    let? ty := idx value 0 in
    let? code := idx value 1 in
    let? checksum := u16_at value 2 in
    let? id := u16_at value 4 in
    let? seq := u16_at value 6 in
    let? data := slice value 8 (length value) in
    Ok {| icmp_ty := IcmpType_from ty; icmp_code := code; icmp_checksum := checksum;
          icmp_id := id; icmp_seq := seq; icmp_data := data |}.

Definition IcmpPacket_to_vec (p : IcmpPacket) : list Z :=
  [u8_from_IcmpType (icmp_ty p); icmp_code p] ++ to_be_bytes 2 (icmp_checksum p)
  ++ to_be_bytes 2 (icmp_id p) ++ to_be_bytes 2 (icmp_seq p) ++ icmp_data p.

Definition icmp_set (p : IcmpPacket) (ty : IcmpType) (c : Z) : IcmpPacket :=
  {| icmp_ty := ty; icmp_code := icmp_code p; icmp_checksum := c;
     icmp_id := icmp_id p; icmp_seq := icmp_seq p; icmp_data := icmp_data p |}.

(** The chunks of the header, then those of the data, go through one sum. *)
Definition IcmpPacket_calc_checksum (p : IcmpPacket) : IcmpPacket :=
  let header := [u8_from_IcmpType (icmp_ty p); icmp_code p; 0; 0;
                 wrap 8 (Z.shiftr (icmp_id p) 8); wrap 8 (Z.land (icmp_id p) 0xff);
                 wrap 8 (Z.shiftr (icmp_seq p) 8); wrap 8 (Z.land (icmp_seq p) 0xff)] in
  let sum := checksum_fold (checksum_fold 0 header) (icmp_data p) in
  icmp_set p (icmp_ty p) (unot 16 (wrap 16 (fold_loop 2 sum))).

(** *** [eth.rs]: types *)

Inductive EthernetType :=
| EthIpv4
| EthIpv6
| EthArp
| EthOther (v : Z)
| EthPayloadLength (v : Z).

Definition EthernetType_from (value : Z) : EthernetType :=
  if value <=? 0x05dc then EthPayloadLength value
  else if value =? 0x0800 then EthIpv4
  else if value =? 0x86dd then EthIpv6
  else if value =? 0x0806 then EthArp
  else EthOther value.

Definition EthernetType_into (value : EthernetType) : list Z :=
  match value with
  | EthIpv4 => [0x08; 0x00]
  | EthIpv6 => [0x86; 0xdd]
  | EthArp => [0x08; 0x06]
  | EthOther value => to_be_bytes 2 value
  | EthPayloadLength value => to_be_bytes 2 value
  end.

(** *** [arp.rs] *)

Inductive ArpOperation := ArpRequest | ArpReply.

#[export] Instance ArpOperation_eq_dec : EqDecision ArpOperation.
Proof. solve_decision. Defined.

Definition ArpOperation_into (value : ArpOperation) : Z * Z :=
  match value with ArpRequest => (0, 1) | ArpReply => (0, 2) end.

Definition ArpOperation_try_from (value : Z * Z) : Result ArpOperation :=
  match value with
  | (0, 1) => Ok ArpRequest
  | (0, 2) => Ok ArpReply
  | _ => Err (error_into InvalidData)
  end.

Record ArpPacket := MkArp {
  arp_hardware_ty : Z * Z;
  arp_protocol_ty : EthernetType;
  arp_hardware_len : Z;
  arp_protocol_len : Z;
  arp_op : Z * Z;
  arp_sender_eth_addr : EthernetAddress;
  arp_sender_ipv4_addr : Ipv4Addr;
  arp_target_eth_addr : EthernetAddress;
  arp_target_ipv4_addr : Ipv4Addr
}.

Definition ArpPacket_try_from (data : list Z) : Result ArpPacket :=
  if (length data <? 28)%nat then Err (error_into (buffer_size 28 data))
  else
    let? h0 := idx data 0 in
    let? h1 := idx data 1 in
    let? protocol_ty := u16_at data 2 in
    let? hardware_len := idx data 4 in
    let? protocol_len := idx data 5 in
    let? o0 := idx data 6 in
    let? o1 := idx data 7 in
    let? sender_eth_addr := mac_at data 8 in
    let? sender_ipv4_addr := ipv4_at data 14 in
    let? target_eth_addr := mac_at data 18 in
    let? target_ipv4_addr := ipv4_at data 24 in
    Ok {| arp_hardware_ty := (h0, h1); arp_protocol_ty := EthernetType_from protocol_ty;
          arp_hardware_len := hardware_len; arp_protocol_len := protocol_len; arp_op := (o0, o1);
          arp_sender_eth_addr := sender_eth_addr; arp_sender_ipv4_addr := sender_ipv4_addr;
          arp_target_eth_addr := target_eth_addr; arp_target_ipv4_addr := target_ipv4_addr |}.

Definition ArpPacket_new_with (op : ArpOperation) (sender_eth_addr : EthernetAddress)
    (sender_ipv4_addr : Ipv4Addr) (target_eth_addr : EthernetAddress) (target_ipv4_addr : Ipv4Addr)
  : ArpPacket :=
  {| arp_hardware_ty := (0, 1); arp_protocol_ty := EthIpv4; arp_hardware_len := 6;
     arp_protocol_len := 4; arp_op := ArpOperation_into op;
     arp_sender_eth_addr := sender_eth_addr; arp_sender_ipv4_addr := sender_ipv4_addr;
     arp_target_eth_addr := target_eth_addr; arp_target_ipv4_addr := target_ipv4_addr |}.

Definition ArpPacket_op (p : ArpPacket) : Result ArpOperation := ArpOperation_try_from (arp_op p).

Definition ArpPacket_to_vec (p : ArpPacket) : list Z :=
  [fst (arp_hardware_ty p); snd (arp_hardware_ty p)] ++ EthernetType_into (arp_protocol_ty p)
  ++ [arp_hardware_len p; arp_protocol_len p] ++ [fst (arp_op p); snd (arp_op p)]
  ++ EthernetAddress_into (arp_sender_eth_addr p) ++ octets (arp_sender_ipv4_addr p)
  ++ EthernetAddress_into (arp_target_eth_addr p) ++ octets (arp_target_ipv4_addr p).

(** *** [ip.rs] *)

Inductive Protocol := Icmp | Tcp | Udp | ProtoOther (x : Z).

#[export] Instance Protocol_eq_dec : EqDecision Protocol.
Proof. solve_decision. Defined.

Definition u8_from_Protocol (proto : Protocol) : Z :=
  match proto with Icmp => 1 | Tcp => 6 | Udp => 17 | ProtoOther x => x end.

Definition Protocol_from (data : Z) : Protocol :=
  if data =? 1 then Icmp else if data =? 6 then Tcp else if data =? 17 then Udp else ProtoOther data.

Inductive Ipv4Payload :=
| IcmpPayload (p : IcmpPacket)
| TcpPayload (p : TcpPacket)
| UdpPayload (p : UdpPacket).

Record Ipv4Packet := MkIpv4 {
  ip_version_ihl : Z;
  ip_dscp_ecn : Z;
  ip_len : Z;
  ip_id : Z;
  ip_flags : Z;
  ip_ttl : Z;
  ip_protocol : Protocol;
  ip_checksum : Z;
  ip_src_addr : Ipv4Addr;
  ip_dst_addr : Ipv4Addr;
  ip_data : list Z
}.

Definition Ipv4Packet_try_from (value : list Z) : Result Ipv4Packet :=
  if (length value <? 20)%nat then Err (error_into (buffer_size 20 value))
  else
    let? version_ihl := idx value 0 in
    let? dscp_ecn := idx value 1 in
    let? len := u16_at value 2 in
    let? id := u16_at value 4 in
    let? flags := u16_at value 6 in
    let? ttl := idx value 8 in
    let? protocol := idx value 9 in
    let? checksum := u16_at value 10 in
    let? src_addr := ipv4_at value 12 in
    let? dst_addr := ipv4_at value 16 in
    let ihl := (Z.to_nat (Z.land version_ihl 0x0f) * 4)%nat in
    if (length value <? ihl)%nat then Err (with_context InvalidData "IP IHL")
    else
      let payload_len := (Z.to_nat len - ihl)%nat in
      let data_end := (ihl + payload_len)%nat in
      let? data := slice value ihl (Nat.min data_end (length value)) in
      Ok {| ip_version_ihl := version_ihl; ip_dscp_ecn := dscp_ecn; ip_len := len; ip_id := id;
            ip_flags := flags; ip_ttl := ttl; ip_protocol := Protocol_from protocol;
            ip_checksum := checksum; ip_src_addr := src_addr; ip_dst_addr := dst_addr;
            ip_data := data |}.

Definition Ipv4Payload_to_vec (payload : Ipv4Payload) : list Z :=
  match payload with
  | IcmpPayload packet => IcmpPacket_to_vec packet
  | TcpPayload packet => TcpPacket_to_vec packet
  | UdpPayload packet => UdpPacket_to_vec packet
  end.

Definition Ipv4Packet_new_with (version_ihl dscp_ecn id flags : Z) (protocol : Protocol)
    (src_addr dst_addr : Ipv4Addr) (payload : Ipv4Payload) : Result Ipv4Packet :=
  let payload_vec := Ipv4Payload_to_vec payload in
  let? len := uadd 16 20 (wrap 16 (Z.of_nat (length payload_vec))) in
  Ok {| ip_version_ihl := version_ihl; ip_dscp_ecn := dscp_ecn; ip_len := len; ip_id := id;
        ip_flags := flags; ip_ttl := 64; ip_protocol := protocol; ip_checksum := 0;
        ip_src_addr := src_addr; ip_dst_addr := dst_addr; ip_data := payload_vec |}.

Definition Ipv4Packet_to_vec (p : Ipv4Packet) : list Z :=
  [ip_version_ihl p; ip_dscp_ecn p] ++ to_be_bytes 2 (ip_len p) ++ to_be_bytes 2 (ip_id p)
  ++ to_be_bytes 2 (ip_flags p) ++ [ip_ttl p; u8_from_Protocol (ip_protocol p)]
  ++ to_be_bytes 2 (ip_checksum p) ++ octets (ip_src_addr p) ++ octets (ip_dst_addr p)
  ++ ip_data p.

Definition ip_set_checksum (p : Ipv4Packet) (c : Z) : Ipv4Packet :=
  {| ip_version_ihl := ip_version_ihl p; ip_dscp_ecn := ip_dscp_ecn p; ip_len := ip_len p;
     ip_id := ip_id p; ip_flags := ip_flags p; ip_ttl := ip_ttl p; ip_protocol := ip_protocol p;
     ip_checksum := c; ip_src_addr := ip_src_addr p; ip_dst_addr := ip_dst_addr p;
     ip_data := ip_data p |}.

Definition Ipv4Packet_calc_checksum (p : Ipv4Packet) : Ipv4Packet :=
  let p := ip_set_checksum p 0 in
  let ihl := (Z.to_nat (Z.land (ip_version_ihl p) 0x0f) * 4)%nat in
  let packet := Ipv4Packet_to_vec p in
  let header := take (Nat.min ihl (length packet)) packet in
  let sum := checksum_fold 0 header in
  ip_set_checksum p (unot 16 (wrap 16 (fold_loop 2 sum))).

Definition Ipv4Packet_validate (p : Ipv4Packet) : Result unit :=
  if negb (Z.shiftr (ip_version_ihl p) 4 =? 4) then Err (with_context InvalidData "IP version")
  else if ip_ttl p =? 0 then Err (with_context InvalidData "IP TTL")
  else Ok tt.

Definition Ipv4Packet_payload (p : Ipv4Packet) : Result Ipv4Payload :=
  match ip_protocol p with
  | Icmp => let? q := IcmpPacket_try_from (ip_data p) in Ok (IcmpPayload q)
  | Tcp => let? q := TcpPacket_try_from (ip_data p) in Ok (TcpPayload q)
  | Udp => let? q := UdpPacket_try_from (ip_data p) in Ok (UdpPayload q)
  | ProtoOther _ => Err (error_into InvalidData)
  end.

(** *** [eth.rs]: frames *)

Inductive EthernetPayload :=
| ArpPayload (p : ArpPacket)
| IpPayload (p : Ipv4Packet)
| NoPayload.

Definition EthernetPayload_to_vec (p : EthernetPayload) : list Z :=
  match p with
  | ArpPayload packet => ArpPacket_to_vec packet
  | IpPayload packet => Ipv4Packet_to_vec packet
  | NoPayload => []
  end.

Record EthernetFrame := MkEth {
  eth_dst_mac_addr : EthernetAddress;
  eth_src_mac_addr : EthernetAddress;
  eth_eth_type : EthernetType;
  eth_payload : list Z
}.

Definition EthernetFrame_try_from (value : list Z) : Result EthernetFrame :=
  if (length value <? 14)%nat then Err (error_into (buffer_size 14 value))
  else
    let? dst_mac := slice value 0 6 in
    let? src_mac := slice value 6 12 in
    let? eth_type := u16_at value 12 in
    let? payload := slice value 14 (length value) in
    let? dst_mac_addr := mac_at dst_mac 0 in
    let? src_mac_addr := mac_at src_mac 0 in
    Ok {| eth_dst_mac_addr := dst_mac_addr; eth_src_mac_addr := src_mac_addr;
          eth_eth_type := EthernetType_from eth_type; eth_payload := payload |}.

Definition EthernetFrame_new_with (dst_mac_addr src_mac_addr : EthernetAddress)
    (eth_type : EthernetType) (payload : list Z) : EthernetFrame :=
  {| eth_dst_mac_addr := dst_mac_addr; eth_src_mac_addr := src_mac_addr;
     eth_eth_type := eth_type; eth_payload := payload |}.

Definition EthernetFrame_payload (f : EthernetFrame) : Result EthernetPayload :=
  match eth_eth_type f with
  | EthArp => let? p := ArpPacket_try_from (eth_payload f) in Ok (ArpPayload p)
  | EthIpv4 => let? p := Ipv4Packet_try_from (eth_payload f) in Ok (IpPayload p)
  | _ => Ok NoPayload
  end.

Definition EthernetFrame_to_vec (f : EthernetFrame) : Result (list Z) :=
  let? payload := EthernetFrame_payload f in
  let payload := EthernetPayload_to_vec payload in
  let payload_len := Nat.max (length payload) 46 in
  let frame_len := Nat.max (14 + payload_len) 64 in
  Ok (vec_resize (EthernetAddress_into (eth_dst_mac_addr f) ++ EthernetAddress_into (eth_src_mac_addr f)
                  ++ EthernetType_into (eth_eth_type f) ++ payload) frame_len 0).

(** ** The Internet checksum *)

(** The reference sum: the 16-bit words of a byte string added up as integers,
    an odd last byte padded with zero. *)
Fixpoint words_sum (data : list Z) : Z :=
  match data with
  | [] => 0
  | [h] => h * 256
  | h :: l :: rest => h * 256 + l + words_sum rest
  end.

(** Induction two bytes at a time. *)
Lemma pair_ind {A} (P : list A -> Prop) :
  P [] -> (forall x, P [x]) -> (forall x y l, P l -> P (x :: y :: l)) -> forall l, P l.
Proof.
  intros H0 H1 H2. fix IH 1. intros [|x [|y l]]; [apply H0|apply H1|apply H2, IH].
Qed.

Lemma words_sum_bound data :
  bytes data -> 0 <= words_sum data <= 65535 * ((Z.of_nat (length data) + 1) / 2).
Proof.
  induction data as [|x|x y l IH] using pair_ind; intros Hb; [split; by vm_compute| |].
  - inversion_clear Hb as [|? ? Hx _]. apply is_byte_range in Hx.
    change ((Z.of_nat (length [x]) + 1) / 2) with 1. cbn [words_sum]. lia.
  - inversion_clear Hb as [|? ? Hx Hb']. inversion_clear Hb' as [|? ? Hy Hl].
    apply is_byte_range in Hx, Hy. specialize (IH Hl). cbn [words_sum length].
    replace (Z.of_nat (S (S (length l))) + 1) with (Z.of_nat (length l) + 1 + 1 * 2) by lia.
    rewrite Z.div_add by lia. lia.
Qed.

(** Below the [u32] limit the wrapping sum is the reference sum. *)
Lemma checksum_fold_value data acc :
  bytes data -> 0 <= acc -> acc + words_sum data < 2 ^ 32 ->
  checksum_fold acc data = acc + words_sum data.
Proof.
  revert acc. induction data as [|x|x y l IH] using pair_ind; intros acc Hb Hacc Hs.
  - cbn. lia.
  - inversion_clear Hb as [|? ? Hx _]. apply is_byte_range in Hx. cbn in *.
    unfold wrapping_add, wrap, from_be_bytes. cbn. rewrite Z.mod_small; lia.
  - inversion_clear Hb as [|? ? Hx Hb']. inversion_clear Hb' as [|? ? Hy Hl].
    pose proof (words_sum_bound l Hl) as [Hw _].
    apply is_byte_range in Hx, Hy. cbn [words_sum checksum_fold] in *.
    unfold wrapping_add, wrap, from_be_bytes. cbn [fold_left].
    rewrite Z.mod_small by lia. rewrite IH by (done || lia). lia.
Qed.

Lemma checksum_fold_app a b acc :
  Nat.even (length a) = true -> checksum_fold acc (a ++ b) = checksum_fold (checksum_fold acc a) b.
Proof.
  revert acc. induction a as [|x|x y l IH] using pair_ind; intros acc He; [done|done|].
  cbn [app checksum_fold]. apply IH. exact He.
Qed.

Lemma words_sum_app a b :
  Nat.even (length a) = true -> words_sum (a ++ b) = words_sum a + words_sum b.
Proof.
  induction a as [|x|x y l IH] using pair_ind; intros He; [done|done|].
  cbn [app words_sum]. rewrite IH by exact He. lia.
Qed.

Lemma words_sum_u16 c : 0 <= c < 65536 -> words_sum (to_be_bytes 2 c) = c.
Proof.
  intros Hc. cbn [to_be_bytes app words_sum].
  rewrite (Z.mod_small (c / 256)) by (split; [apply Z.div_pos; lia|apply Z.div_lt_upper_bound; lia]).
  pose proof (Z.div_mod c 256). lia.
Qed.

Lemma fold_step_mod sum :
  0 <= sum ->
  let s' := Z.land sum 0xffff + Z.shiftr sum 16 in
  s' = sum mod 65536 + sum / 65536 /\ s' mod 65535 = sum mod 65535.
Proof.
  intros Hs s'. unfold s'.
  assert (Z.land sum 0xffff = sum mod 65536) as ->
    by (change 0xffff with (Z.ones 16); by rewrite Z.land_ones by lia).
  rewrite Z.shiftr_div_pow2 by lia. change (2 ^ 16) with 65536. split; [done|].
  rewrite <- (Z.mod_add (sum mod 65536 + sum / 65536) (sum / 65536) 65535) by lia.
  f_equal. pose proof (Z.div_mod sum 65536). lia.
Qed.

(** Two rounds bring a [u32] below [2^16]: the loop has ended. *)
Lemma fold_loop_done sum :
  0 <= sum < 2 ^ 32 ->
  0 <= fold_loop 2 sum < 65536
  /\ fold_loop 2 sum mod 65535 = sum mod 65535
  /\ (fold_loop 2 sum = 0 <-> sum = 0).
Proof.
  intros Hs. destruct (fold_step_mod sum ltac:(lia)) as [E1 M1]. cbn [fold_loop].
  pose proof (Z.div_mod sum 65536). pose proof (Z.mod_pos_bound sum 65536).
  assert (sum / 65536 < 65536) by (apply Z.div_lt_upper_bound; lia).
  destruct (Z.ltb_spec 0 (Z.shiftr sum 16)) as [Hp|Hp];
    rewrite Z.shiftr_div_pow2 in Hp by lia; change (2 ^ 16) with 65536 in Hp; [|lia].
  set (s1 := Z.land sum 0xffff + Z.shiftr sum 16) in *.
  destruct (fold_step_mod s1 ltac:(lia)) as [E2 M2].
  pose proof (Z.div_mod s1 65536). pose proof (Z.mod_pos_bound s1 65536).
  destruct (Z.ltb_spec 0 (Z.shiftr s1 16)) as [Hq|Hq];
    rewrite Z.shiftr_div_pow2 in Hq by lia; change (2 ^ 16) with 65536 in Hq; [|lia].
  rewrite M2, M1, E2. assert (s1 / 65536 = 1) by lia. lia.
Qed.

Lemma fold_checksum_value sum :
  0 <= sum < 2 ^ 32 ->
  exists r, fold_checksum sum = 65535 - r /\ 0 <= r < 65536
    /\ r mod 65535 = sum mod 65535 /\ (r = 0 <-> sum = 0).
Proof.
  intros Hs. destruct (fold_loop_done sum Hs) as (H1 & H2 & H3). exists (fold_loop 2 sum).
  split; [|done].
  unfold fold_checksum, unot, wrap. change (2 ^ 16) with 65536. rewrite Z.mod_small; lia.
Qed.

(** The receiver's test accepts exactly the sums divisible by [2^16 - 1]. *)
Lemma checksum_accepts sum :
  0 <= sum < 2 ^ 32 ->
  (fold_checksum sum =? 0xffff) || (fold_checksum sum =? 0) = true <-> sum mod 65535 = 0.
Proof.
  intros Hs. destruct (fold_checksum_value sum Hs) as (r & -> & Hr & Hm & _). rewrite <- Hm.
  rewrite orb_true_iff, !Z.eqb_eq. pose proof (Z.div_mod r 65535). pose proof (Z.mod_pos_bound r 65535).
  lia.
Qed.

(** Adding the checksum of a sum makes it divisible. *)
Lemma checksum_cancels sum :
  0 <= sum < 2 ^ 32 ->
  0 <= fold_checksum sum < 65536 /\ (sum + fold_checksum sum) mod 65535 = 0.
Proof.
  intros Hs. destruct (fold_checksum_value sum Hs) as (r & -> & Hr & Hm & _). split; [lia|].
  pose proof (Z.div_mod sum 65535). pose proof (Z.div_mod r 65535). rewrite Hm in *.
  replace (sum + (65535 - r)) with (0 + (sum / 65535 - r / 65535 + 1) * 65535) by lia.
  by rewrite Z.mod_add by lia.
Qed.

(** A checksum field between an even head and a tail, filled with the checksum
    of the rest, makes the whole fold to zero. *)
Lemma checksum_fill head tail :
  bytes head -> bytes tail -> Nat.even (length head) = true ->
  Z.of_nat (length head + length tail) <= 65535 ->
  let c := fold_checksum (checksum_words (head ++ to_be_bytes 2 0 ++ tail)) in
  0 <= c < 65536 /\ fold_checksum (checksum_words (head ++ to_be_bytes 2 c ++ tail)) = 0.
Proof.
  intros Hbh Hbt He Hl c.
  pose proof (words_sum_bound _ Hbh) as Hwh. pose proof (words_sum_bound _ Hbt) as Hwt.
  pose proof (Z.div_mod (Z.of_nat (length head) + 1) 2).
  pose proof (Z.mod_pos_bound (Z.of_nat (length head) + 1) 2).
  pose proof (Z.div_mod (Z.of_nat (length tail) + 1) 2).
  pose proof (Z.mod_pos_bound (Z.of_nat (length tail) + 1) 2).
  set (sum := words_sum head + words_sum tail).
  assert (0 <= sum < 2 ^ 32 - 65536) as Hsum by lia.
  assert (forall x, 0 <= x < 65536 ->
    checksum_words (head ++ to_be_bytes 2 x ++ tail) = sum + x) as Hrun.
  { intros x Hx. unfold checksum_words. rewrite checksum_fold_value;
      rewrite ?words_sum_app by done; rewrite ?words_sum_u16 by done; [lia| |lia|lia].
    rewrite !Forall_app. split_and!; [done|apply to_be_bytes_bytes|done]. }
  unfold c. rewrite (Hrun 0), Z.add_0_r by lia.
  destruct (checksum_cancels sum) as [Hc Hz]; [lia|]. split; [done|]. rewrite Hrun by done.
  destruct (fold_checksum_value (sum + fold_checksum sum)) as (r & -> & Hr & Hm & Hrz); [lia|].
  rewrite Hz in Hm. pose proof (Z.div_mod r 65535).
  destruct (fold_checksum_value sum) as (r' & E & Hr' & _ & Hz'); [lia|]. lia.
Qed.

(** ** Field codecs *)

Lemma u16_bytes x : is_uint 16 x = true -> from_be_bytes [x / 256 mod 256; x mod 256] = x.
Proof.
  intros Hx%is_uint_spec. apply (from_to_be_bytes 2). change (256 ^ Z.of_nat 2) with (2 ^ 16). lia.
Qed.

Lemma u32_bytes x :
  is_uint 32 x = true ->
  from_be_bytes [x / 256 / 256 / 256 mod 256; x / 256 / 256 mod 256; x / 256 mod 256; x mod 256] = x.
Proof.
  intros Hx%is_uint_spec. apply (from_to_be_bytes 4). change (256 ^ Z.of_nat 4) with (2 ^ 32). lia.
Qed.

Lemma u16_uint a b : is_byte a = true -> is_byte b = true -> is_uint 16 (from_be_bytes [a; b]) = true.
Proof.
  intros Ha Hb. apply is_uint_spec. change (2 ^ 16) with (256 ^ Z.of_nat (length [a; b])).
  apply from_be_bytes_bound. by repeat constructor.
Qed.

Lemma u32_uint a b c d :
  is_byte a = true -> is_byte b = true -> is_byte c = true -> is_byte d = true ->
  is_uint 32 (from_be_bytes [a; b; c; d]) = true.
Proof.
  intros Ha Hb Hc Hd. apply is_uint_spec. change (2 ^ 32) with (256 ^ Z.of_nat (length [a; b; c; d])).
  apply from_be_bytes_bound. by repeat constructor.
Qed.

Lemma u16_print a b : is_byte a = true -> is_byte b = true -> to_be_bytes 2 (from_be_bytes [a; b]) = [a; b].
Proof. intros Ha Hb. apply (to_from_be_bytes [a; b]). by repeat constructor. Qed.

Lemma u32_print a b c d :
  is_byte a = true -> is_byte b = true -> is_byte c = true -> is_byte d = true ->
  to_be_bytes 4 (from_be_bytes [a; b; c; d]) = [a; b; c; d].
Proof. intros Ha Hb Hc Hd. apply (to_from_be_bytes [a; b; c; d]). by repeat constructor. Qed.

#[export] Hint Resolve u16_uint u32_uint : kernel.

Lemma slice_tail {A} (l : list A) n :
  (n <= length l)%nat -> slice (E := Error_) l n (length l) = Ok (drop n l).
Proof.
  intros Hn. unfold slice. destruct (Nat.leb_spec n (length l)), (Nat.leb_spec (length l) (length l)); try lia.
  cbn. by rewrite take_ge by (rewrite length_drop; lia).
Qed.

Lemma slice_ok {A} (l : list A) a b :
  (a <= b)%nat -> (b <= length l)%nat -> slice (E := Error_) l a b = Ok (take (b - a) (drop a l)).
Proof.
  intros H1 H2. unfold slice. by destruct (Nat.leb_spec a b), (Nat.leb_spec b (length l)); try lia.
Qed.

(** Take the first byte of a byte string off, given that it exists. *)
Ltac byte_split v Hb :=
  destruct v as [|? v]; [cbn [length] in *; lia|];
  apply Forall_cons in Hb as [? Hb].

(** ** TCP packets *)

Record tcp_wf (p : TcpPacket) : Prop := {
  tcp_wf_src : is_uint 16 (tcp_src_port p) = true;
  tcp_wf_dst : is_uint 16 (tcp_dst_port p) = true;
  tcp_wf_seq : is_uint 32 (tcp_seq_num p) = true;
  tcp_wf_ack : is_uint 32 (tcp_ack_num p) = true;
  tcp_wf_flags : is_uint 16 (tcp_flags p) = true;
  tcp_wf_window : is_uint 16 (tcp_window_size p) = true;
  tcp_wf_checksum : is_uint 16 (tcp_checksum p) = true;
  tcp_wf_urgent : is_uint 16 (tcp_urgent_ptr p) = true;
  tcp_wf_options : bytes (tcp_options p);
  tcp_wf_data : bytes (tcp_data p);
  tcp_wf_header : flags_header_len p = 20 + Z.of_nat (length (tcp_options p))
}.

(** The printed packet with the place of the checksum visible. *)
Definition tcp_head (p : TcpPacket) : list Z :=
  to_be_bytes 2 (tcp_src_port p) ++ to_be_bytes 2 (tcp_dst_port p)
  ++ to_be_bytes 4 (tcp_seq_num p) ++ to_be_bytes 4 (tcp_ack_num p)
  ++ to_be_bytes 2 (tcp_flags p) ++ to_be_bytes 2 (tcp_window_size p).
Definition tcp_tail (p : TcpPacket) : list Z :=
  to_be_bytes 2 (tcp_urgent_ptr p) ++ tcp_options p ++ tcp_data p.

Lemma tcp_vec_split p :
  TcpPacket_to_vec p = tcp_head p ++ to_be_bytes 2 (tcp_checksum p) ++ tcp_tail p.
Proof. unfold TcpPacket_to_vec, tcp_head, tcp_tail. by rewrite <- !app_assoc. Qed.

Lemma length_tcp_vec p :
  length (TcpPacket_to_vec p) = (20 + length (tcp_options p) + length (tcp_data p))%nat.
Proof. unfold TcpPacket_to_vec. autorewrite with kernel_len. lia. Qed.

Lemma tcp_head_bytes p : bytes (tcp_head p).
Proof. unfold tcp_head. rewrite !Forall_app. split_and!; apply to_be_bytes_bytes. Qed.

Lemma tcp_tail_bytes p : bytes (tcp_options p) -> bytes (tcp_data p) -> bytes (tcp_tail p).
Proof. intros H1 H2. unfold tcp_tail. rewrite !Forall_app. split_and!; [apply to_be_bytes_bytes|done..]. Qed.

Lemma tcp_parse_print p : tcp_wf p -> TcpPacket_try_from (TcpPacket_to_vec p) = Ok p.
Proof.
  intros [H1 H2 H3 H4 H5 H6 H7 H8 H9 H10 Hh]. pose proof (length_tcp_vec p) as Hl.
  unfold TcpPacket_try_from. destruct (Nat.ltb_spec (length (TcpPacket_to_vec p)) 20); [lia|].
  unfold flags_header_len in Hh. unfold TcpPacket_to_vec, u16_at, u32_at, idx in *.
  cbn [to_be_bytes app Nat.add lookup list_lookup obind] in *.
  rewrite !u16_bytes, !u32_bytes by done. set (w := Z.shiftr (tcp_flags p) 12) in *.
  destruct (Nat.ltb_spec (Z.to_nat w) 5); [lia|].
  match goal with |- context [(length ?l <? Z.to_nat w * 4)%nat] => set (v := l) in * end.
  destruct (Nat.ltb_spec (length v) (Z.to_nat w * 4)); [lia|].
  rewrite slice_ok, slice_tail by lia. cbn [obind].
  replace (Z.to_nat w * 4)%nat with (20 + length (tcp_options p))%nat by lia.
  unfold v. cbn [Nat.add Nat.sub skipn]. rewrite Nat.sub_0_r, drop_0, take_app_length, drop_app_length.
  by destruct p.
Qed.

Lemma tcp_print_parse v p :
  bytes v -> TcpPacket_try_from v = Ok p -> tcp_wf p /\ TcpPacket_to_vec p = v.
Proof.
  intros Hb. unfold TcpPacket_try_from. destruct (Nat.ltb_spec (length v) 20) as [|Hl]; [done|].
  do 20 byte_split v Hb. unfold u16_at, u32_at, idx. cbn [Nat.add lookup list_lookup obind].
  match goal with |- context [Z.shiftr ?f 12] => set (flags := f) end.
  destruct (Nat.ltb_spec (Z.to_nat (Z.shiftr flags 12)) 5); [done|].
  match goal with |- context [(length ?l <? _)%nat] => set (w := l) end.
  destruct (Nat.ltb_spec (length w) (Z.to_nat (Z.shiftr flags 12) * 4)); [done|].
  rewrite slice_ok, slice_tail by lia. cbn [obind]. intros [= <-].
  set (n := (Z.to_nat (Z.shiftr flags 12) * 4)%nat) in *.
  assert (exists k, n = 20 + k)%nat as [k Hk] by (exists (n - 20)%nat; lia).
  rewrite Hk. unfold w in *. cbn [Nat.add Nat.sub skipn length] in *. rewrite Nat.sub_0_r, drop_0. split.
  - constructor; cbn [tcp_src_port tcp_dst_port tcp_seq_num tcp_ack_num tcp_flags tcp_window_size
      tcp_checksum tcp_urgent_ptr tcp_options tcp_data]; auto with kernel.
    + by apply u16_uint.
    + by apply Forall_take.
    + by apply Forall_drop.
    + unfold flags_header_len. cbn [tcp_flags tcp_options]. rewrite length_take. fold flags. lia.
  - unfold TcpPacket_to_vec, flags. cbn [tcp_src_port tcp_dst_port tcp_seq_num tcp_ack_num tcp_flags tcp_window_size
      tcp_checksum tcp_urgent_ptr tcp_options tcp_data].
    rewrite !u16_print, !u32_print by done. cbn [app]. by rewrite take_drop.
Qed.

Lemma tcp_parse_no_panic v : bytes v -> TcpPacket_try_from v <> Panic.
Proof.
  intros Hb. unfold TcpPacket_try_from. destruct (Nat.ltb_spec (length v) 20) as [|Hl]; [done|].
  do 20 byte_split v Hb. unfold u16_at, u32_at, idx. cbn [Nat.add lookup list_lookup obind].
  match goal with |- context [Z.shiftr ?f 12] => set (flags := f) end.
  destruct (Nat.ltb_spec (Z.to_nat (Z.shiftr flags 12)) 5); [done|].
  match goal with |- context [(length ?l <? _)%nat] => set (w := l) end.
  destruct (Nat.ltb_spec (length w) (Z.to_nat (Z.shiftr flags 12) * 4)); [done|].
  by rewrite slice_ok, slice_tail by lia.
Qed.

(** ** The pseudo header *)

Definition addr_wf (a : Ipv4Addr) : Prop := bytes (octets a).

Lemma lor_shift8 a b : 0 <= b < 256 -> Z.lor (Z.shiftl a 8) b = a * 256 + b.
Proof. intros Hb. by apply (lor_shiftl 8). Qed.

(** The pseudo header's sum never overflows for a packet of a sane length. *)
Lemma pseudo_header_sum_run src dst protocol len :
  addr_wf src -> addr_wf dst -> 0 <= protocol < 256 -> Z.of_nat len < 2 ^ 31 ->
  pseudo_header_sum src dst protocol len
  = Ok (words_sum (octets src ++ octets dst) + protocol + Z.of_nat len)
  /\ 0 <= words_sum (octets src ++ octets dst) <= 4 * 65535.
Proof.
  intros Hs Hd Hp Hl.
  assert (bytes (octets src ++ octets dst)) as Hb by (apply Forall_app; done).
  pose proof (words_sum_bound _ Hb) as Hw. rewrite length_app in Hw.
  destruct src as [[[s0 s1] s2] s3], dst as [[[d0 d1] d2] d3]. unfold addr_wf in *.
  cbn [octets app length Nat.add words_sum] in *.
  change ((Z.of_nat 8 + 1) / 2) with 4 in Hw. split; [|lia]. rewrite !Forall_cons, !is_byte_range in Hb.
  unfold pseudo_header_sum. rewrite !lor_shift8 by tauto. unfold uadd, wrap.
  rewrite (Z.mod_small (Z.of_nat len)) by lia.
  repeat match goal with
  | |- context [?x <? 2 ^ 32] => destruct (Z.ltb_spec x (2 ^ 32)); [|lia]; cbn [obind]
  end. f_equal. lia.
Qed.

(** ** TCP checksums *)

(** The whole sum that a TCP checksum covers. *)
Definition tcp_sum (p : TcpPacket) (src dst : Ipv4Addr) : Z :=
  words_sum (octets src ++ octets dst) + 6 + Z.of_nat (length (TcpPacket_to_vec p))
  + words_sum (TcpPacket_to_vec p).

Definition tcp_sendable (p : TcpPacket) : Prop :=
  bytes (tcp_options p) /\ bytes (tcp_data p) /\ Z.of_nat (length (TcpPacket_to_vec p)) <= 65535.

Lemma tcp_vec_bytes p : bytes (tcp_options p) -> bytes (tcp_data p) -> bytes (TcpPacket_to_vec p).
Proof.
  intros H1 H2. rewrite tcp_vec_split, !Forall_app.
  split_and!; [apply tcp_head_bytes|apply to_be_bytes_bytes|by apply tcp_tail_bytes].
Qed.

Lemma tcp_sum_run p src dst :
  tcp_sendable p -> addr_wf src -> addr_wf dst ->
  exists s, pseudo_header_sum src dst 6 (length (TcpPacket_to_vec p)) = Ok s
    /\ wrapping_add 32 s (checksum_words (TcpPacket_to_vec p)) = tcp_sum p src dst
    /\ 0 <= tcp_sum p src dst < 2 ^ 32 - 65536.
Proof.
  intros (H1 & H2 & H3) Hs Hd. pose proof (tcp_vec_bytes p H1 H2) as Hb.
  pose proof (words_sum_bound _ Hb) as Hw.
  destruct (pseudo_header_sum_run src dst 6 (length (TcpPacket_to_vec p))) as [-> Hps]; [done..|lia|lia|].
  assert (words_sum (TcpPacket_to_vec p) <= 65535 * 32768) as Hw'.
  { etrans; [apply Hw|]. apply Z.mul_le_mono_nonneg_l; [lia|]. apply Z.div_le_upper_bound; lia. }
  eexists. split; [done|]. unfold checksum_words. rewrite checksum_fold_value by (done || lia).
  unfold wrapping_add, wrap, tcp_sum. rewrite Z.mod_small; lia.
Qed.

Lemma tcp_verify_iff p src dst :
  tcp_sendable p -> addr_wf src -> addr_wf dst ->
  exists b, TcpPacket_verify_checksum_with_ipv4 p src dst = Ok b
    /\ (b = true <-> tcp_sum p src dst mod 65535 = 0).
Proof.
  intros Hp Hs Hd. destruct (tcp_sum_run p src dst Hp Hs Hd) as (s & E & Ew & Hb).
  unfold TcpPacket_verify_checksum_with_ipv4. rewrite E. cbn [obind]. rewrite Ew.
  eexists. split; [done|]. apply checksum_accepts. lia.
Qed.

Lemma tcp_set_checksum_vec p c : length (TcpPacket_to_vec (tcp_set_checksum p c)) = length (TcpPacket_to_vec p).
Proof. by rewrite !length_tcp_vec. Qed.

Lemma tcp_sum_checksum p c src dst :
  0 <= c < 65536 -> tcp_sum (tcp_set_checksum p c) src dst = tcp_sum (tcp_set_checksum p 0) src dst + c.
Proof.
  intros Hc. unfold tcp_sum. rewrite !tcp_set_checksum_vec, !tcp_vec_split.
  change (tcp_head (tcp_set_checksum p c)) with (tcp_head p).
  change (tcp_head (tcp_set_checksum p 0)) with (tcp_head p).
  change (tcp_tail (tcp_set_checksum p c)) with (tcp_tail p).
  change (tcp_tail (tcp_set_checksum p 0)) with (tcp_tail p). cbn [tcp_set_checksum tcp_checksum].
  generalize (words_sum (octets src ++ octets dst)) as ph. intros ph.
  rewrite !words_sum_app by done. rewrite !words_sum_u16 by lia. lia.
Qed.

Lemma tcp_calc_verifies p src dst :
  tcp_sendable p -> addr_wf src -> addr_wf dst ->
  exists c, 0 <= c < 65536
    /\ TcpPacket_calc_checksum_with_ipv4 p src dst = Ok (tcp_set_checksum p c)
    /\ TcpPacket_verify_checksum_with_ipv4 (tcp_set_checksum p c) src dst = Ok true.
Proof.
  intros Hp Hs Hd. set (p0 := tcp_set_checksum p 0).
  assert (forall c, tcp_sendable (tcp_set_checksum p c)) as Hp0.
  { intros c. unfold tcp_sendable. by rewrite tcp_set_checksum_vec. }
  destruct (tcp_sum_run p0 src dst (Hp0 0) Hs Hd) as (s & E & Ew & Hb).
  destruct (checksum_cancels (tcp_sum p0 src dst)) as [Hc Hz]; [lia|].
  exists (fold_checksum (tcp_sum p0 src dst)). split_and!; [lia|lia| |].
  - unfold TcpPacket_calc_checksum_with_ipv4. fold p0. rewrite E. cbn [obind]. by rewrite Ew.
  - set (c := fold_checksum _) in *.
    destruct (tcp_verify_iff (tcp_set_checksum p c) src dst (Hp0 c) Hs Hd) as (b & -> & Hbz).
    f_equal. apply Hbz. by rewrite tcp_sum_checksum by done.
Qed.

(** ** ICMP packets *)

Definition icmp_type_wf (ty : IcmpType) : Prop :=
  is_byte (u8_from_IcmpType ty) = true /\ IcmpType_from (u8_from_IcmpType ty) = ty.

Record icmp_wf (p : IcmpPacket) : Prop := {
  icmp_wf_ty : icmp_type_wf (icmp_ty p);
  icmp_wf_code : is_byte (icmp_code p) = true;
  icmp_wf_checksum : is_uint 16 (icmp_checksum p) = true;
  icmp_wf_id : is_uint 16 (icmp_id p) = true;
  icmp_wf_seq : is_uint 16 (icmp_seq p) = true;
  icmp_wf_data : bytes (icmp_data p)
}.

Lemma icmp_type_roundtrip x : u8_from_IcmpType (IcmpType_from x) = x.
Proof. unfold IcmpType_from. bool_cases; cbn; lia. Qed.

Lemma icmp_type_from_wf x : is_byte x = true -> icmp_type_wf (IcmpType_from x).
Proof. intros H. split; rewrite icmp_type_roundtrip; done. Qed.

Lemma icmp_parse_print p : icmp_wf p -> IcmpPacket_try_from (IcmpPacket_to_vec p) = Ok p.
Proof.
  intros [[H0 H1] H2 H3 H4 H5 H6]. unfold IcmpPacket_try_from, IcmpPacket_to_vec, u16_at, idx.
  cbn [to_be_bytes app]. set (v := _ :: _).
  destruct (Nat.ltb_spec (length v) 8) as [Hl|Hl]; [cbn in Hl; lia|]. rewrite slice_tail by lia.
  unfold v. cbn [Nat.add lookup list_lookup obind skipn]. rewrite !u16_bytes, H1, drop_0 by done.
  by destruct p.
Qed.

Lemma icmp_print_parse v p :
  bytes v -> IcmpPacket_try_from v = Ok p -> icmp_wf p /\ IcmpPacket_to_vec p = v.
Proof.
  intros Hb. unfold IcmpPacket_try_from. destruct (Nat.ltb_spec (length v) 8) as [|Hl]; [done|].
  rewrite slice_tail by lia. do 8 byte_split v Hb. unfold u16_at, idx.
  cbn [Nat.add lookup list_lookup obind skipn]. intros [= <-]. rewrite drop_0. split.
  - constructor; cbn [icmp_ty icmp_code icmp_checksum icmp_id icmp_seq icmp_data];
      auto using icmp_type_from_wf with kernel.
  - unfold IcmpPacket_to_vec. cbn [icmp_ty icmp_code icmp_checksum icmp_id icmp_seq icmp_data].
    by rewrite icmp_type_roundtrip, !u16_print by done.
Qed.

Lemma icmp_parse_no_panic v : bytes v -> IcmpPacket_try_from v <> Panic.
Proof.
  intros Hb. unfold IcmpPacket_try_from. destruct (Nat.ltb_spec (length v) 8) as [|Hl]; [done|].
  rewrite slice_tail by lia. do 8 byte_split v Hb. done.
Qed.

Lemma u16_hi_lo x :
  is_uint 16 x = true -> [wrap 8 (Z.shiftr x 8); wrap 8 (Z.land x 0xff)] = to_be_bytes 2 x.
Proof.
  intros Hx. unfold wrap. rewrite Z.shiftr_div_pow2 by lia.
  change 0xff with (Z.ones 8). rewrite Z.land_ones by lia. change (2 ^ 8) with 256.
  rewrite Z.mod_mod by lia. done.
Qed.

(** After [calc_checksum] the packet sums to zero modulo [2^16 - 1]. *)
Lemma icmp_calc_verifies p :
  icmp_wf p -> Z.of_nat (length (icmp_data p)) <= 65527 ->
  let p' := IcmpPacket_calc_checksum p in
  icmp_wf p' /\ fold_checksum (checksum_words (IcmpPacket_to_vec p')) = 0.
Proof.
  intros [[H0 H1] H2 H3 H4 H5 H6] Hl p'.
  set (head := [u8_from_IcmpType (icmp_ty p); icmp_code p]).
  set (tail := to_be_bytes 2 (icmp_id p) ++ to_be_bytes 2 (icmp_seq p) ++ icmp_data p).
  assert (bytes head) as Hbh by (by repeat constructor).
  assert (bytes tail) as Hbt.
  { unfold tail. rewrite !Forall_app. split_and!; [apply to_be_bytes_bytes..|done]. }
  destruct (checksum_fill head tail) as [Hc Hz]; [done..| |].
  { unfold tail. autorewrite with kernel_len. cbn. lia. }
  set (c := fold_checksum _) in Hc. fold c in Hz.
  assert (p' = icmp_set p (icmp_ty p) c) as Hp'.
  { unfold p', c, IcmpPacket_calc_checksum, fold_checksum, checksum_words. do 4 f_equal.
    rewrite <- checksum_fold_app by done. f_equal. unfold head, tail.
    by rewrite <- (u16_hi_lo (icmp_id p)), <- (u16_hi_lo (icmp_seq p)) by done. }
  rewrite Hp'. split; [|exact Hz]. constructor; cbn; try done. by apply is_uint_spec.
Qed.

(** ** UDP packets *)

Record udp_wf (p : UdpPacket) : Prop := {
  udp_wf_src : is_uint 16 (udp_src_port p) = true;
  udp_wf_dst : is_uint 16 (udp_dst_port p) = true;
  udp_wf_len : udp_len p = 8 + Z.of_nat (length (udp_data p));
  udp_wf_len16 : is_uint 16 (udp_len p) = true;
  udp_wf_checksum : is_uint 16 (udp_checksum p) = true;
  udp_wf_data : bytes (udp_data p)
}.

Lemma udp_parse_print p pad : udp_wf p -> UdpPacket_try_from (UdpPacket_to_vec p ++ pad) = Ok p.
Proof.
  intros [H1 H2 H3 H4 H5 H6]. unfold UdpPacket_try_from, UdpPacket_to_vec, u16_at, idx.
  cbn [to_be_bytes app]. set (v := _ :: _).
  assert (length v = 8 + length (udp_data p) + length pad)%nat as Hl
    by (unfold v; cbn [length]; rewrite length_app; lia).
  destruct (Nat.ltb_spec (length v) 8); [lia|].
  unfold v. cbn [Nat.add lookup list_lookup obind]. rewrite !u16_bytes by done. fold v.
  rewrite slice_ok by lia. cbn [obind]. rewrite H3.
  replace (Z.to_nat (8 + Z.of_nat (length (udp_data p))) - 8)%nat with (length (udp_data p)) by lia.
  unfold v. cbn [skipn]. rewrite drop_0, take_app_length. rewrite <- H3. by destruct p.
Qed.

(** The length field of a UDP header. *)
Definition udp_len_field (v : list Z) : Z := from_be_bytes (take 2 (drop 4 v)).

(** The parser trusts the length field: it panics exactly when the field is
    smaller than the header or larger than what was received. *)
Lemma udp_parse_outcome v :
  bytes v -> (8 <= length v)%nat ->
  UdpPacket_try_from v
  = if (8 <=? udp_len_field v) && (udp_len_field v <=? Z.of_nat (length v))
    then Ok {| udp_src_port := from_be_bytes (take 2 v); udp_dst_port := from_be_bytes (take 2 (drop 2 v));
               udp_len := udp_len_field v; udp_checksum := from_be_bytes (take 2 (drop 6 v));
               udp_data := take (Z.to_nat (udp_len_field v) - 8) (drop 8 v) |}
    else Panic.
Proof.
  intros Hb Hl. unfold UdpPacket_try_from. destruct (Nat.ltb_spec (length v) 8); [lia|].
  do 8 byte_split v Hb. unfold u16_at, idx, udp_len_field.
  cbn [Nat.add lookup list_lookup obind skipn firstn].
  match goal with |- context [Z.to_nat ?x] => set (n := x) end.
  assert (0 <= n) as Hn.
  { unfold n. apply from_be_bytes_bound. by repeat constructor. }
  unfold slice. match goal with |- context [(_ <=? length ?l)%nat] => set (w := l) in * end.
  destruct (Z.leb_spec 8 n), (Nat.leb_spec 8 (Z.to_nat n)); try lia; [|done].
  by destruct (Z.leb_spec n (Z.of_nat (length w))), (Nat.leb_spec (Z.to_nat n) (length w)); try lia.
Qed.

(** ** Ethernet types and ARP packets *)

Definition eth_type_wf (t : EthernetType) : Prop :=
  match t with
  | EthOther x => is_uint 16 x = true /\ EthernetType_from x = EthOther x
  | EthPayloadLength x => is_uint 16 x = true /\ EthernetType_from x = EthPayloadLength x
  | _ => True
  end.

Lemma eth_type_from_wf x : is_uint 16 x = true -> eth_type_wf (EthernetType_from x).
Proof.
  intros Hx. unfold eth_type_wf, EthernetType_from. bool_cases; cbn; try done; split; try done;
    bool_cases; lia || done.
Qed.

Lemma eth_type_parse_print t :
  eth_type_wf t -> exists a b, EthernetType_into t = [a; b]
    /\ EthernetType_from (from_be_bytes [a; b]) = t /\ is_byte a = true /\ is_byte b = true.
Proof.
  intros Ht. destruct t as [| | |x|x]; cbn [EthernetType_into to_be_bytes app];
    (eexists _, _; split; [done|]); try done;
    destruct Ht as [Hx Hf]; rewrite u16_bytes by done; split_and!; try done;
    apply is_byte_range, Z.mod_pos_bound; lia.
Qed.

Lemma eth_type_print_parse a b :
  is_byte a = true -> is_byte b = true -> EthernetType_into (EthernetType_from (from_be_bytes [a; b])) = [a; b].
Proof.
  intros Ha Hb. unfold EthernetType_from.
  repeat match goal with
  | |- context [?x <=? 0x05dc] => destruct (Z.leb_spec x 0x05dc)
  | |- context [?x =? ?y] => destruct (Z.eqb_spec x y) as [E|]
  end; cbn [EthernetType_into]; try (by apply u16_print);
    rewrite <- (u16_print a b) by done; rewrite E; done.
Qed.

Definition mac_wf (m : EthernetAddress) : Prop := bytes (EthernetAddress_into m).

Record arp_wf (p : ArpPacket) : Prop := {
  arp_wf_ty : eth_type_wf (arp_protocol_ty p);
  arp_wf_bytes : bytes (ArpPacket_to_vec p)
}.

Lemma length_arp_vec p : eth_type_wf (arp_protocol_ty p) -> length (ArpPacket_to_vec p) = 28%nat.
Proof.
  intros Ht. destruct (eth_type_parse_print _ Ht) as (a & b & Hab & _).
  unfold ArpPacket_to_vec. rewrite Hab.
  destruct (arp_sender_eth_addr p) as [[[[[? ?] ?] ?] ?] ?], (arp_target_eth_addr p) as [[[[[? ?] ?] ?] ?] ?],
    (arp_sender_ipv4_addr p) as [[[? ?] ?] ?], (arp_target_ipv4_addr p) as [[[? ?] ?] ?]. done.
Qed.

Lemma arp_parse_print p pad :
  eth_type_wf (arp_protocol_ty p) -> ArpPacket_try_from (ArpPacket_to_vec p ++ pad) = Ok p.
Proof.
  intros Ht. pose proof (length_arp_vec p Ht) as Hl. unfold ArpPacket_try_from.
  rewrite length_app, Hl. destruct (Nat.ltb_spec (28 + length pad) 28); [lia|].
  destruct (eth_type_parse_print _ Ht) as (a & b & Hab & Hty & _).
  unfold ArpPacket_to_vec. rewrite Hab.
  destruct p as [[? ?] ty ? ? [? ?] [[[[[? ?] ?] ?] ?] ?] [[[? ?] ?] ?] [[[[[? ?] ?] ?] ?] ?] [[[? ?] ?] ?]].
  cbn in Hty |- *. by rewrite Hty.
Qed.

Lemma arp_print_parse v p :
  bytes v -> ArpPacket_try_from v = Ok p -> arp_wf p /\ exists pad, v = ArpPacket_to_vec p ++ pad.
Proof.
  intros Hb. unfold ArpPacket_try_from. destruct (Nat.ltb_spec (length v) 28) as [|Hl]; [done|].
  do 28 byte_split v Hb. unfold u16_at, mac_at, ipv4_at, idx.
  cbn [Nat.add lookup list_lookup obind]. intros [= <-].
  unfold ArpPacket_to_vec. cbn [arp_hardware_ty arp_protocol_ty arp_hardware_len arp_protocol_len arp_op
    arp_sender_eth_addr arp_sender_ipv4_addr arp_target_eth_addr arp_target_ipv4_addr fst snd].
  split; [constructor|exists v].
  - cbn [arp_protocol_ty]. by apply eth_type_from_wf, u16_uint.
  - unfold ArpPacket_to_vec. cbn [arp_hardware_ty arp_protocol_ty arp_hardware_len arp_protocol_len arp_op
      arp_sender_eth_addr arp_sender_ipv4_addr arp_target_eth_addr arp_target_ipv4_addr fst snd].
    rewrite eth_type_print_parse by done. cbn. by repeat constructor.
  - by rewrite eth_type_print_parse by done.
Qed.

Lemma arp_parse_no_panic v : bytes v -> ArpPacket_try_from v <> Panic.
Proof.
  intros Hb. unfold ArpPacket_try_from. destruct (Nat.ltb_spec (length v) 28) as [|Hl]; [done|].
  do 28 byte_split v Hb. done.
Qed.

(** ** IPv4 packets *)

Definition proto_wf (x : Protocol) : Prop :=
  is_byte (u8_from_Protocol x) = true /\ Protocol_from (u8_from_Protocol x) = x.

Lemma proto_roundtrip x : u8_from_Protocol (Protocol_from x) = x.
Proof. unfold Protocol_from. bool_cases; cbn; lia. Qed.

(** A packet with a plain 20-byte header and a truthful length. *)
Record ip_wf (p : Ipv4Packet) : Prop := {
  ip_wf_version_ihl : is_byte (ip_version_ihl p) = true;
  ip_wf_ihl : Z.land (ip_version_ihl p) 0x0f = 5;
  ip_wf_dscp_ecn : is_byte (ip_dscp_ecn p) = true;
  ip_wf_len : ip_len p = 20 + Z.of_nat (length (ip_data p));
  ip_wf_len16 : is_uint 16 (ip_len p) = true;
  ip_wf_id : is_uint 16 (ip_id p) = true;
  ip_wf_flags : is_uint 16 (ip_flags p) = true;
  ip_wf_ttl : is_byte (ip_ttl p) = true;
  ip_wf_protocol : proto_wf (ip_protocol p);
  ip_wf_checksum : is_uint 16 (ip_checksum p) = true;
  ip_wf_src : addr_wf (ip_src_addr p);
  ip_wf_dst : addr_wf (ip_dst_addr p);
  ip_wf_data : bytes (ip_data p)
}.

Lemma length_octets a : length (octets a) = 4%nat.
Proof. by destruct a as [[[? ?] ?] ?]. Qed.

Lemma length_mac a : length (EthernetAddress_into a) = 6%nat.
Proof. by destruct a as [[[[[? ?] ?] ?] ?] ?]. Qed.

Lemma length_eth_type t : length (EthernetType_into t) = 2%nat.
Proof. by destruct t. Qed.

#[export] Hint Rewrite length_octets length_mac length_eth_type : kernel_len.

Lemma length_ip_vec p : length (Ipv4Packet_to_vec p) = (20 + length (ip_data p))%nat.
Proof. unfold Ipv4Packet_to_vec. autorewrite with kernel_len. cbn [length]. lia. Qed.

Lemma ip_parse_print p pad : ip_wf p -> Ipv4Packet_try_from (Ipv4Packet_to_vec p ++ pad) = Ok p.
Proof.
  intros [H1 H2 H3 H4 H5 H6 H7 H8 [H9a H9] H10 H11 H12 H13].
  pose proof (length_ip_vec p) as Hlen. unfold Ipv4Packet_try_from, Ipv4Packet_to_vec in *.
  destruct (ip_src_addr p) as [[[s0 s1] s2] s3] eqn:Es, (ip_dst_addr p) as [[[d0 d1] d2] d3] eqn:Ed.
  cbn [octets to_be_bytes app] in *. set (v := _ :: _).
  assert (length v = 20 + length (ip_data p) + length pad)%nat as Hl
    by (unfold v; cbn [length]; rewrite length_app; lia).
  destruct (Nat.ltb_spec (length v) 20); [lia|].
  unfold v at 1 2 3 4 5 6 7 8 9 10. unfold u16_at, ipv4_at, idx. cbn [Nat.add lookup list_lookup obind].
  rewrite !u16_bytes, H9, H2 by done. cbn [obind]. change (Z.to_nat 5 * 4)%nat with 20%nat.
  destruct (Nat.ltb_spec (length v) 20); [lia|]. rewrite slice_ok by lia. cbn [obind].
  replace (Nat.min (20 + (Z.to_nat (ip_len p) - 20)) (length v) - 20)%nat with (length (ip_data p)) by lia.
  unfold v. cbn [skipn]. rewrite drop_0, take_app_length, <- Es, <- Ed. by destruct p.
Qed.

Lemma ip_parse_no_panic v : bytes v -> Ipv4Packet_try_from v <> Panic.
Proof.
  intros Hb. unfold Ipv4Packet_try_from. destruct (Nat.ltb_spec (length v) 20) as [|Hl]; [done|].
  do 20 byte_split v Hb. unfold u16_at, ipv4_at, idx. cbn [Nat.add lookup list_lookup obind].
  match goal with |- context [(length ?l <? _)%nat] => set (w := l) end.
  match goal with |- context [(Z.to_nat ?x * 4)%nat] => set (n := (Z.to_nat x * 4)%nat) end.
  destruct (Nat.ltb_spec (length w) n); [done|]. by rewrite slice_ok by lia.
Qed.

(** The data of a parsed packet is part of what was received. *)
Lemma ip_parse_data v p : bytes v -> Ipv4Packet_try_from v = Ok p -> bytes (ip_data p).
Proof.
  intros Hb. unfold Ipv4Packet_try_from. destruct (Nat.ltb_spec (length v) 20) as [|Hl]; [done|].
  intros H. repeat (apply obind_ok in H as (? & _ & H)).
  destruct (_ <? _)%nat; [done|]. apply obind_ok in H as (data & Hs & [= <-]). cbn [ip_data].
  unfold slice in Hs. destruct (_ && _); [|done]. injection Hs as <-. by apply Forall_take, Forall_drop.
Qed.

(** The header of a packet with a 20-byte header sums to zero after
    [calc_checksum], as RFC 791 asks of the receiver's check. *)
Lemma ip_calc_verifies p :
  ip_wf p ->
  let p' := Ipv4Packet_calc_checksum p in
  ip_wf p' /\ fold_checksum (checksum_words (take 20 (Ipv4Packet_to_vec p'))) = 0.
Proof.
  intros Hwf p'. pose proof Hwf as [H1 H2 H3 H4 H5 H6 H7 H8 [H9a H9] H10 H11 H12 H13].
  set (head := [ip_version_ihl p; ip_dscp_ecn p] ++ to_be_bytes 2 (ip_len p) ++ to_be_bytes 2 (ip_id p)
    ++ to_be_bytes 2 (ip_flags p) ++ [ip_ttl p; u8_from_Protocol (ip_protocol p)]).
  set (tail := octets (ip_src_addr p) ++ octets (ip_dst_addr p)).
  assert (forall c, take 20 (Ipv4Packet_to_vec (ip_set_checksum p c)) = head ++ to_be_bytes 2 c ++ tail) as Htake.
  { intros c. replace (Ipv4Packet_to_vec (ip_set_checksum p c))
      with ((head ++ to_be_bytes 2 c ++ tail) ++ ip_data p)
      by (unfold Ipv4Packet_to_vec, head, tail; rewrite <- !app_assoc; done).
    apply take_app_length'. unfold head, tail. autorewrite with kernel_len. done. }
  destruct (checksum_fill head tail) as [Hc Hz].
  { unfold head. rewrite !Forall_app. split_and!; try apply to_be_bytes_bytes; by repeat constructor. }
  { unfold tail. by apply Forall_app. }
  { done. }
  { unfold head, tail. autorewrite with kernel_len. cbn. lia. }
  assert (p' = ip_set_checksum p (fold_checksum (checksum_words (head ++ to_be_bytes 2 0 ++ tail)))) as ->.
  { unfold p', Ipv4Packet_calc_checksum. cbn [ip_set_checksum ip_version_ihl]. rewrite H2.
    change (Z.to_nat 5 * 4)%nat with 20%nat. rewrite length_ip_vec, Nat.min_l by lia.
    fold (ip_set_checksum p 0). rewrite Htake. done. }
  rewrite Htake. split; [|done]. constructor; cbn; try done. by apply is_uint_spec.
Qed.

(** ** Ethernet frames *)

Definition payload_wf (p : EthernetPayload) (t : EthernetType) : Prop :=
  match p with
  | ArpPayload q => arp_wf q /\ t = EthArp
  | IpPayload q => ip_wf q /\ t = EthIpv4
  | NoPayload => False
  end.

(** Parsing a frame gives back the addresses, the type and the payload bytes,
    with whatever padding follows. *)
Lemma eth_parse_print dst src t pl :
  eth_type_wf t ->
  EthernetFrame_try_from (EthernetAddress_into dst ++ EthernetAddress_into src ++ EthernetType_into t ++ pl)
  = Ok {| eth_dst_mac_addr := dst; eth_src_mac_addr := src; eth_eth_type := t; eth_payload := pl |}.
Proof.
  intros Ht. destruct (eth_type_parse_print t Ht) as (a & b & -> & Hty & _).
  destruct dst as [[[[[? ?] ?] ?] ?] ?], src as [[[[[? ?] ?] ?] ?] ?].
  unfold EthernetFrame_try_from. cbn [EthernetAddress_into app]. set (v := _ :: _).
  destruct (Nat.ltb_spec (length v) 14) as [Hl|Hl]; [cbn in Hl; lia|].
  rewrite slice_tail, !slice_ok by lia. unfold v. cbn in Hty |- *. by rewrite Hty, drop_0.
Qed.

Lemma payload_parse_print p t dst src pad :
  payload_wf p t ->
  EthernetFrame_payload {| eth_dst_mac_addr := dst; eth_src_mac_addr := src; eth_eth_type := t;
                           eth_payload := EthernetPayload_to_vec p ++ pad |} = Ok p.
Proof.
  destruct p as [q|q|]; [intros [[Hq _] ->]|intros [Hq ->]|done];
    unfold EthernetFrame_payload; cbn [eth_eth_type eth_payload EthernetPayload_to_vec].
  - by rewrite arp_parse_print.
  - by rewrite ip_parse_print.
Qed.

Lemma eth_parse_no_panic v : bytes v -> EthernetFrame_try_from v <> Panic.
Proof.
  intros Hb. unfold EthernetFrame_try_from. destruct (Nat.ltb_spec (length v) 14) as [|Hl]; [done|].
  rewrite slice_tail, !slice_ok by lia. by do 14 byte_split v Hb.
Qed.

Lemma eth_parse_payload v f : bytes v -> EthernetFrame_try_from v = Ok f -> bytes (eth_payload f).
Proof.
  intros Hb. unfold EthernetFrame_try_from. destruct (Nat.ltb_spec (length v) 14) as [|Hl]; [done|].
  rewrite slice_tail, !slice_ok by lia. intros H. repeat (apply obind_ok in H as (? & ? & H)).
  injection H as <-. cbn [eth_payload].
  repeat match goal with H : Ok _ = Ok _ |- _ => injection H as <- end. by apply Forall_drop.
Qed.

(** A frame with a well-formed payload, printed with padding and parsed again. *)
Lemma eth_wire dst src t p :
  payload_wf p t ->
  exists v f,
    EthernetFrame_to_vec (EthernetFrame_new_with dst src t (EthernetPayload_to_vec p)) = Ok v
    /\ (64 <= length v)%nat
    /\ EthernetFrame_try_from v = Ok f
    /\ eth_dst_mac_addr f = dst /\ eth_src_mac_addr f = src /\ eth_eth_type f = t
    /\ EthernetFrame_payload f = Ok p.
Proof.
  intros Hp. assert (eth_type_wf t) as Ht by (destruct p; [by destruct Hp as [_ ->]..|done]).
  unfold EthernetFrame_to_vec, EthernetFrame_new_with.
  pose proof (payload_parse_print p t dst src [] Hp) as Hpl. rewrite app_nil_r in Hpl.
  rewrite Hpl. cbn [obind eth_dst_mac_addr eth_src_mac_addr eth_eth_type].
  set (raw := EthernetAddress_into dst ++ EthernetAddress_into src ++ EthernetType_into t ++ EthernetPayload_to_vec p).
  set (n := Nat.max _ 64).
  assert (length raw <= n)%nat as Hle by (unfold raw, n; autorewrite with kernel_len; lia).
  unfold vec_resize. rewrite take_ge by done. set (pad := replicate _ 0).
  exists (raw ++ pad). eexists. split; [done|]. split.
  { unfold pad. rewrite length_app, length_replicate. lia. }
  split; [unfold raw; rewrite <- !app_assoc; by apply eth_parse_print|].
  split_and!; [done..|]. by apply payload_parse_print.
Qed.

(** ** Properties *)

(** C32: the TCP codec is exact.  On any byte string, [try_from] does not
    panic, and it returns the packet [p] exactly when [p] is well formed (fields
    in range, data offset equal to the header length) and prints as that byte
    string: parsing and printing are inverse in both directions. *)
Theorem TcpPacket_codec v p :
  bytes v ->
  TcpPacket_try_from v <> Panic
  /\ (TcpPacket_try_from v = Ok p <-> tcp_wf p /\ TcpPacket_to_vec p = v).
Proof.
  intros Hb. split; [by apply tcp_parse_no_panic|]. split; [by apply tcp_print_parse|].
  intros [Hp <-]. by apply tcp_parse_print.
Qed.

Definition demo_tcp : TcpPacket :=
  {| tcp_src_port := 80; tcp_dst_port := 49152; tcp_seq_num := 1; tcp_ack_num := 2;
     tcp_flags := 0x6012; tcp_window_size := 65535; tcp_checksum := 0; tcp_urgent_ptr := 0;
     tcp_options := [2; 4; 5; 180]; tcp_data := [104; 105; 33] |}.

Lemma demo_tcp_wf : tcp_wf demo_tcp.
Proof. constructor; vm_compute; done || by repeat constructor. Qed.

Lemma TcpPacket_codec_witness :
  TcpPacket_try_from (TcpPacket_to_vec demo_tcp) = Ok demo_tcp.
Proof.
  destruct (TcpPacket_codec (TcpPacket_to_vec demo_tcp) demo_tcp) as [_ [_ H]].
  - vm_compute. repeat constructor.
  - apply H. split; [exact demo_tcp_wf|reflexivity].
Defined.

(** the TCP checksum.  For a packet that fits in an IPv4 datagram, the
    sender's [calc_checksum_with_ipv4] fills in a checksum the receiver's
    [verify_checksum_with_ipv4] accepts; and the receiver accepts a packet, however
    it was made, exactly when the one's complement sum of pseudo header and
    packet is zero, that is divisible by [2^16 - 1]. *)
Theorem TcpPacket_checksum_sound p src dst :
  tcp_sendable p -> addr_wf src -> addr_wf dst ->
  (exists c, 0 <= c < 65536
     /\ TcpPacket_calc_checksum_with_ipv4 p src dst = Ok (tcp_set_checksum p c)
     /\ TcpPacket_verify_checksum_with_ipv4 (tcp_set_checksum p c) src dst = Ok true)
  /\ exists b, TcpPacket_verify_checksum_with_ipv4 p src dst = Ok b
       /\ (b = true <-> tcp_sum p src dst mod 65535 = 0).
Proof. intros Hp Hs Hd. split; [by apply tcp_calc_verifies|by apply tcp_verify_iff]. Qed.

Lemma TcpPacket_checksum_sound_witness :
  TcpPacket_verify_checksum_with_ipv4 demo_tcp (10, 0, 2, 15) (10, 0, 2, 2) = Ok false
  /\ exists c, TcpPacket_calc_checksum_with_ipv4 demo_tcp (10, 0, 2, 15) (10, 0, 2, 2)
               = Ok (tcp_set_checksum demo_tcp c).
Proof.
  destruct (TcpPacket_checksum_sound demo_tcp (10, 0, 2, 15) (10, 0, 2, 2)) as [(c & _ & H & _) _].
  - split; [|split]; vm_compute; [repeat constructor|repeat constructor|discriminate].
  - vm_compute. repeat constructor.
  - vm_compute. repeat constructor.
  - split; [vm_compute; reflexivity|exists c; exact H].
Defined.

(** the UDP parser trusts the length field of the datagram.  On a byte
    string of at least eight bytes it returns the datagram cut to the length
    field when the field is between 8 and the received length, and panics
    otherwise: a datagram from the network with a wrong length field stops the
    kernel. *)
Theorem UdpPacket_length_field v :
  bytes v -> (8 <= length v)%nat ->
  (UdpPacket_try_from v = Panic
   <-> udp_len_field v < 8 \/ Z.of_nat (length v) < udp_len_field v)
  /\ (8 <= udp_len_field v <= Z.of_nat (length v) ->
      exists p, UdpPacket_try_from v = Ok p
        /\ udp_data p = take (Z.to_nat (udp_len_field v) - 8) (drop 8 v)).
Proof.
  intros Hb Hl. rewrite (udp_parse_outcome v Hb Hl). split.
  - bool_cases; cbn; split; (intros; lia || done || by (exfalso; lia)).
  - intros [H1 H2]. bool_cases; cbn; [|lia..]. by eexists.
Qed.

Lemma UdpPacket_length_field_witness :
  UdpPacket_try_from [0; 53; 200; 0; 0; 7; 0; 0] = Panic
  /\ UdpPacket_try_from [0; 53; 200; 0; 0; 9; 0; 0; 42; 1; 2]
     = Ok {| udp_src_port := 53; udp_dst_port := 51200; udp_len := 9; udp_checksum := 0; udp_data := [42] |}.
Proof.
  split; [|reflexivity].
  apply (UdpPacket_length_field [0; 53; 200; 0; 0; 7; 0; 0]).
  - repeat constructor.
  - simpl. lia.
  - left. vm_compute. reflexivity.
Defined.

(** a frame survives the wire.  An ARP packet or an IPv4 packet with a plain
    header, put into a frame, printed (with the padding to the minimal frame
    size) and parsed again by the receiver, is the same packet with the same
    addresses, and the printed frame has at least 64 bytes. *)
Theorem EthernetFrame_wire_roundtrip dst src t p :
  payload_wf p t ->
  exists v f,
    EthernetFrame_to_vec (EthernetFrame_new_with dst src t (EthernetPayload_to_vec p)) = Ok v
    /\ (64 <= length v)%nat
    /\ EthernetFrame_try_from v = Ok f
    /\ eth_dst_mac_addr f = dst /\ eth_src_mac_addr f = src /\ eth_eth_type f = t
    /\ EthernetFrame_payload f = Ok p.
Proof. apply eth_wire. Qed.

Definition demo_arp : ArpPacket :=
  ArpPacket_new_with ArpRequest (82, 84, 0, 18, 52, 86) (10, 0, 2, 15) EthernetAddress_broadcast (10, 0, 2, 2).

Lemma EthernetFrame_wire_roundtrip_witness :
  exists v f,
    EthernetFrame_to_vec (EthernetFrame_new_with EthernetAddress_broadcast (82, 84, 0, 18, 52, 86) EthArp
                            (ArpPacket_to_vec demo_arp)) = Ok v
    /\ EthernetFrame_try_from v = Ok f /\ EthernetFrame_payload f = Ok (ArpPayload demo_arp).
Proof.
  destruct (EthernetFrame_wire_roundtrip EthernetAddress_broadcast (82, 84, 0, 18, 52, 86) EthArp
              (ArpPayload demo_arp)) as (v & f & H1 & _ & H2 & _ & _ & _ & H3).
  - split; [|reflexivity]. constructor; [exact I|]. vm_compute. repeat constructor.
  - exists v, f. split; [exact H1|split; [exact H2|exact H3]].
Defined.

(** receiving a frame does not panic before the transport layer: for every
    byte string, the Ethernet, ARP and IPv4 parsers and the payload dispatch
    return a value or an error, and so do the TCP and ICMP parsers behind an
    IPv4 header. *)
Theorem frame_parse_total v :
  bytes v ->
  EthernetFrame_try_from v <> Panic
  /\ forall f, EthernetFrame_try_from v = Ok f ->
       EthernetFrame_payload f <> Panic
       /\ forall p, EthernetFrame_payload f = Ok (IpPayload p) ->
            ip_protocol p <> Udp -> Ipv4Packet_payload p <> Panic.
Proof.
  intros Hb. split; [by apply eth_parse_no_panic|]. intros f Hf.
  pose proof (eth_parse_payload v f Hb Hf) as Hpb. unfold EthernetFrame_payload. split.
  - destruct (eth_eth_type f); try done.
    + pose proof (ip_parse_no_panic _ Hpb). by destruct (Ipv4Packet_try_from _).
    + pose proof (arp_parse_no_panic _ Hpb). by destruct (ArpPacket_try_from _).
  - intros p Hp Hudp. assert (bytes (ip_data p)) as Hd.
    { destruct (eth_eth_type f); try done; apply obind_ok in Hp as (q & Hq & Hp); [|done].
      injection Hp as <-. by apply (ip_parse_data (eth_payload f)). }
    unfold Ipv4Packet_payload. destruct (ip_protocol p); try done.
    + pose proof (icmp_parse_no_panic _ Hd). by destruct (IcmpPacket_try_from _).
    + pose proof (tcp_parse_no_panic _ Hd). by destruct (TcpPacket_try_from _).
Qed.

Lemma frame_parse_total_witness :
  EthernetFrame_try_from (replicate 14 0) <> Panic.
Proof.
  apply (frame_parse_total (replicate 14 0)). repeat constructor.
Defined.
