(* ===== verification/Socket.v ===== *)
(** * Sockets ([kernel/src/net/tcp.rs], [udp.rs] and [socket.rs])

    The TCP socket's state machine, the UDP socket, and the table that maps
    socket ids and ports to sockets.  The table's state includes the counter
    [NEXT] of [SocketId::new]. *)
From Stdlib Require Import ZArith Lia.
From stdpp Require Import base gmap list strings.
From S2P Require Import Prelude KError Packet.

(** ** Definitions *)

(** *** [tcp.rs]: the socket *)

Inductive TcpSocketState :=
| Closed
| Listen
| SynReceived
| SynSent
| Established
| FinWait1
| FinWait2
| CloseWait
| Closing
| LastAck
| TimeWait.

#[export] Instance TcpSocketState_eq_dec : EqDecision TcpSocketState.
Proof. solve_decision. Defined.

Record TcpSocket := MkTcpSocket {
  ts_state : TcpSocketState;
  ts_src_port : option Z;
  ts_dst_ipv4_addr : option Ipv4Addr;
  ts_dst_port : option Z;
  ts_seq_num : Z;
  ts_next_recv_seq : Z;
  ts_buf : list Z
}.

Definition TcpSocket_new : TcpSocket :=
  {| ts_state := Closed; ts_src_port := None; ts_dst_ipv4_addr := None; ts_dst_port := None;
     ts_seq_num := 0; ts_next_recv_seq := 0; ts_buf := [] |}.

Definition set_state (st : TcpSocketState) (s : TcpSocket) : TcpSocket :=
  {| ts_state := st; ts_src_port := ts_src_port s; ts_dst_ipv4_addr := ts_dst_ipv4_addr s;
     ts_dst_port := ts_dst_port s; ts_seq_num := ts_seq_num s;
     ts_next_recv_seq := ts_next_recv_seq s; ts_buf := ts_buf s |}.

Definition set_src_port (p : Z) (s : TcpSocket) : TcpSocket :=
  {| ts_state := ts_state s; ts_src_port := Some p; ts_dst_ipv4_addr := ts_dst_ipv4_addr s;
     ts_dst_port := ts_dst_port s; ts_seq_num := ts_seq_num s;
     ts_next_recv_seq := ts_next_recv_seq s; ts_buf := ts_buf s |}.

Definition set_dst_ipv4_addr (a : Ipv4Addr) (s : TcpSocket) : TcpSocket :=
  {| ts_state := ts_state s; ts_src_port := ts_src_port s; ts_dst_ipv4_addr := Some a;
     ts_dst_port := ts_dst_port s; ts_seq_num := ts_seq_num s;
     ts_next_recv_seq := ts_next_recv_seq s; ts_buf := ts_buf s |}.

Definition set_dst_port (p : Z) (s : TcpSocket) : TcpSocket :=
  {| ts_state := ts_state s; ts_src_port := ts_src_port s; ts_dst_ipv4_addr := ts_dst_ipv4_addr s;
     ts_dst_port := Some p; ts_seq_num := ts_seq_num s;
     ts_next_recv_seq := ts_next_recv_seq s; ts_buf := ts_buf s |}.

Definition set_seq_num (n : Z) (s : TcpSocket) : TcpSocket :=
  {| ts_state := ts_state s; ts_src_port := ts_src_port s; ts_dst_ipv4_addr := ts_dst_ipv4_addr s;
     ts_dst_port := ts_dst_port s; ts_seq_num := n;
     ts_next_recv_seq := ts_next_recv_seq s; ts_buf := ts_buf s |}.

Definition set_next_recv_seq (n : Z) (s : TcpSocket) : TcpSocket :=
  {| ts_state := ts_state s; ts_src_port := ts_src_port s; ts_dst_ipv4_addr := ts_dst_ipv4_addr s;
     ts_dst_port := ts_dst_port s; ts_seq_num := ts_seq_num s;
     ts_next_recv_seq := n; ts_buf := ts_buf s |}.

Definition set_buf (b : list Z) (s : TcpSocket) : TcpSocket :=
  {| ts_state := ts_state s; ts_src_port := ts_src_port s; ts_dst_ipv4_addr := ts_dst_ipv4_addr s;
     ts_dst_port := ts_dst_port s; ts_seq_num := ts_seq_num s;
     ts_next_recv_seq := ts_next_recv_seq s; ts_buf := b |}.

Definition invalid_data : Error_ := error_into InvalidData.

Definition add_seq_num (n : Z) : SR TcpSocket unit :=
  smodify (fun s => set_seq_num (wrapping_add 32 (ts_seq_num s) n) s).

Definition reset_buf : SR TcpSocket (list Z) :=
  let! s := sget in
  do! sput (set_buf [] s) in
  sret (ts_buf s).

(** Server mode. *)
Definition start_passive (src_port : Z) : SR TcpSocket unit :=
  let! s := sget in
  if negb (bool_decide (ts_state s = Closed)) then serr invalid_data
  else
    do! smodify (set_state Listen) in
    do! smodify (set_src_port src_port) in
    do! smodify (set_seq_num 0) in
    do! reset_buf in
    sret tt.

(** Client mode. *)
Definition start_active (dst_ipv4_addr : Ipv4Addr) (dst_port : Z) : SR TcpSocket unit :=
  let! s := sget in
  if negb (bool_decide (ts_state s = Closed)) then serr invalid_data
  else
    do! smodify (set_state SynSent) in
    do! smodify (set_dst_ipv4_addr dst_ipv4_addr) in
    do! smodify (set_dst_port dst_port) in
    do! smodify (set_seq_num 0) in
    do! reset_buf in
    sret tt.

Definition receive_syn (remote_seq : Z) : SR TcpSocket Z :=
  let! s := sget in
  if negb (bool_decide (ts_state s = Listen)) then serr invalid_data
  else
    do! smodify (set_state SynReceived) in
    do! smodify (set_next_recv_seq (wrapping_add 32 remote_seq 1)) in
    let isn := ts_seq_num s in
    do! smodify (set_seq_num (wrapping_add 32 (ts_seq_num s) 1)) in
    sret isn.

Definition receive_syn_ack (remote_seq : Z) : SR TcpSocket unit :=
  let! s := sget in
  if negb (bool_decide (ts_state s = SynSent)) then serr invalid_data
  else
    do! smodify (set_state Established) in
    do! smodify (set_next_recv_seq (wrapping_add 32 remote_seq 1)) in
    smodify (set_seq_num (wrapping_add 32 (ts_seq_num s) 1)).

Definition receive_ack : SR TcpSocket unit :=
  let! s := sget in
  if negb (bool_decide (ts_state s = SynReceived)) && negb (bool_decide (ts_state s = Established))
  then serr invalid_data
  else smodify (set_state Established).

Definition receive_fin : SR TcpSocket unit :=
  let! s := sget in
  if negb (bool_decide (ts_state s = Established)) then serr invalid_data
  else
    do! smodify (set_state CloseWait) in
    smodify (set_next_recv_seq (wrapping_add 32 (ts_next_recv_seq s) 1)).

Definition receive_data (data : list Z) (seq_num : Z) : SR TcpSocket unit :=
  let! s := sget in
  if negb (bool_decide (ts_state s = Established)) then serr invalid_data
  else if negb (seq_num =? ts_next_recv_seq s) then sret tt (* out of order *)
  else
    match data with
    | [] => sret tt
    | _ =>
        do! smodify (set_buf (ts_buf s ++ data)) in
        smodify (set_next_recv_seq
          (wrapping_add 32 (ts_next_recv_seq s) (wrap 32 (Z.of_nat (length data)))))
    end.

Definition TcpSocket_close : SR TcpSocket unit := sput TcpSocket_new.

(** *** [udp.rs]: the socket *)

Record UdpSocket := MkUdpSocket { us_buf : list Z }.

Definition UdpSocket_new : UdpSocket := {| us_buf := [] |}.

Definition UdpSocket_receive (data : list Z) : SR UdpSocket unit :=
  smodify (fun s => {| us_buf := us_buf s ++ data |}).

(** [read_buf buf]: the new contents of the caller's buffer and the count. *)
Definition read_buf (buf : list Z) : SR UdpSocket (list Z * Z) :=
  let! s := sget in
  let read_len := Nat.min (length buf) (length (us_buf s)) in
  if (0 <? read_len)%nat then
    do! sput {| us_buf := drop read_len (us_buf s) |} in
    sret (take read_len (us_buf s) ++ drop read_len buf, Z.of_nat read_len)
  else sret (buf, Z.of_nat read_len).

(** *** [socket.rs] *)

Inductive SocketInner :=
| SocketTcp (s : TcpSocket)
| SocketUdp (s : UdpSocket).

Inductive SocketType := Stream | Dgram.

#[export] Instance SocketType_eq_dec : EqDecision SocketType.
Proof. solve_decision. Defined.

Record Socket := MkSocket {
  sk_port : Z;
  sk_addr : option Ipv4Addr;
  sk_inner : SocketInner;
  sk_kind : SocketType
}.

Definition set_port (port : Z) (s : Socket) : Socket :=
  {| sk_port := port; sk_addr := sk_addr s; sk_inner := sk_inner s; sk_kind := sk_kind s |}.
Definition set_addr (addr : option Ipv4Addr) (s : Socket) : Socket :=
  {| sk_port := sk_port s; sk_addr := addr; sk_inner := sk_inner s; sk_kind := sk_kind s |}.
Definition set_inner (inner : SocketInner) (s : Socket) : Socket :=
  {| sk_port := sk_port s; sk_addr := sk_addr s; sk_inner := inner; sk_kind := sk_kind s |}.

Definition socket_type_error : Error_ := with_context InvalidData "socket type".

(** The reference [inner_udp_mut] returns, as the value behind it. *)
Definition inner_udp_mut (s : Socket) : Result UdpSocket :=
  if negb (bool_decide (sk_kind s = Dgram)) then Err socket_type_error
  else match sk_inner s with SocketUdp u => Ok u | _ => Err socket_type_error end.

Definition inner_tcp_mut (s : Socket) : Result TcpSocket :=
  if negb (bool_decide (sk_kind s = Stream)) then Err socket_type_error
  else match sk_inner s with SocketTcp t => Ok t | _ => Err socket_type_error end.

Record SocketTable := MkSocketTable {
  st_table : gmap Z Socket;
  st_udp_port_map : gmap Z Z;
  st_tcp_port_map : gmap Z Z;
  st_next_id : Z
}.

Definition PORT_EPHEMERAL_START : Z := 49152.
Definition PORT_EPHEMERAL_END : Z := 65535.

Definition SocketTable_new : SocketTable :=
  {| st_table := ∅; st_udp_port_map := ∅; st_tcp_port_map := ∅; st_next_id := 4096 |}.

Definition set_table (m : gmap Z Socket) (t : SocketTable) : SocketTable :=
  {| st_table := m; st_udp_port_map := st_udp_port_map t; st_tcp_port_map := st_tcp_port_map t;
     st_next_id := st_next_id t |}.
Definition set_udp_map (m : gmap Z Z) (t : SocketTable) : SocketTable :=
  {| st_table := st_table t; st_udp_port_map := m; st_tcp_port_map := st_tcp_port_map t;
     st_next_id := st_next_id t |}.
Definition set_tcp_map (m : gmap Z Z) (t : SocketTable) : SocketTable :=
  {| st_table := st_table t; st_udp_port_map := st_udp_port_map t; st_tcp_port_map := m;
     st_next_id := st_next_id t |}.
Definition set_next_id (n : Z) (t : SocketTable) : SocketTable :=
  {| st_table := st_table t; st_udp_port_map := st_udp_port_map t; st_tcp_port_map := st_tcp_port_map t;
     st_next_id := n |}.

(** [SocketId::new]: [fetch_add] wraps. *)
Definition SocketId_new : SR SocketTable Z :=
  let! t := sget in
  do! sput (set_next_id (wrapping_add 64 (st_next_id t) 1) t) in
  sret (st_next_id t).

Definition SocketId_try_new (value : Z) : Result Z :=
  if value <? 0 then Err (with_context InvalidData "socket fd") else Ok value.

Definition socket_id_error : Error_ := with_context NotFound "socket ID".

Definition socket_by_id (id : Z) : SR SocketTable Socket :=
  let! t := sget in slift (ok_or socket_id_error (st_table t !! id)).

(** [socket_mut_by_id] and a mutation through the reference it returns. *)
Definition socket_mut_by_id {A} (id : Z) (f : SR Socket A) : SR SocketTable A :=
  let! s := socket_by_id id in
  fun t => let '(r, s') := f s in (r, set_table (<[id := s']> (st_table t)) t).

(** [socket.inner_tcp_mut()?] and a mutation through it. *)
Definition with_tcp {A} (f : SR TcpSocket A) : SR Socket A :=
  let! s := sget in
  let! t := slift (inner_tcp_mut s) in
  fun s => let '(r, t') := f t in (r, set_inner (SocketTcp t') s).

Definition with_udp {A} (f : SR UdpSocket A) : SR Socket A :=
  let! s := sget in
  let! u := slift (inner_udp_mut s) in
  fun s => let '(r, u') := f u in (r, set_inner (SocketUdp u') s).

Definition remove_socket (id : Z) : SR SocketTable unit :=
  let! socket := socket_by_id id in
  do! smodify (fun t => set_table (delete id (st_table t)) t) in
  let port := sk_port socket in
  if negb (port =? 0) then
    match sk_kind socket with
    | Stream => smodify (fun t => set_tcp_map (delete port (st_tcp_port_map t)) t)
    | Dgram => smodify (fun t => set_udp_map (delete port (st_udp_port_map t)) t)
    end
  else sret tt.

Definition socket_id_by_port_and_type (port : Z) (kind : SocketType) : SR SocketTable Z :=
  let! t := sget in
  slift (ok_or (with_context NotFound "port")
           (match kind with
            | Stream => st_tcp_port_map t !! port
            | Dgram => st_udp_port_map t !! port
            end)).

Definition insert_new_socket (kind : SocketType) (protocol : Protocol) : SR SocketTable Z :=
  let! inner := slift
    match kind with
    | Stream => if negb (bool_decide (protocol = Tcp)) then Err (with_context InvalidData "socket protocol")
                else Ok (SocketTcp TcpSocket_new)
    | Dgram => if negb (bool_decide (protocol = Udp)) then Err (with_context InvalidData "socket protocol")
               else Ok (SocketUdp UdpSocket_new)
    end in
  let! id := SocketId_new in
  let socket := {| sk_port := 0; sk_addr := None; sk_inner := inner; sk_kind := kind |} in
  do! smodify (fun t => set_table (<[id := socket]> (st_table t)) t) in
  sret id.

Definition port_used (t : SocketTable) (p : Z) : bool :=
  bool_decide (is_Some (st_tcp_port_map t !! p)) || bool_decide (is_Some (st_udp_port_map t !! p)).

Definition ephemeral_ports : list Z :=
  seqZ PORT_EPHEMERAL_START (PORT_EPHEMERAL_END + 1 - PORT_EPHEMERAL_START).

Definition bind_port (socket_id : Z) (port : option Z) : SR SocketTable unit :=
  let port := default 0 port in
  let! t := sget in
  let! port :=
    (if port =? 0 then
       match List.find (fun p => negb (port_used t p)) ephemeral_ports with
       | Some p => sret p
       | None => serr (error_into BufferFull)
       end
     else if bool_decide (is_Some (st_tcp_port_map t !! port)) then
       serr (with_context AlreadyExists "TCP port")
     else if bool_decide (is_Some (st_udp_port_map t !! port)) then
       serr (with_context AlreadyExists "UDP port")
     else sret port) in
  let! kind := socket_mut_by_id socket_id
    (do! smodify (set_port port) in let! s := sget in sret (sk_kind s)) in
  match kind with
  | Stream => smodify (fun t => set_tcp_map (<[port := socket_id]> (st_tcp_port_map t)) t)
  | Dgram => smodify (fun t => set_udp_map (<[port := socket_id]> (st_udp_port_map t)) t)
  end.

Definition find_tcp_established_socket (t : SocketTable) (server_port : Z) : option Z :=
  fst <$> List.find (fun '(_, socket) =>
    bool_decide (sk_kind socket = Stream) && (sk_port socket =? server_port)
    && match sk_inner socket with
       | SocketTcp s => bool_decide (ts_state s = Established)
       | _ => false
       end) (btree_iter (st_table t)).

Definition find_tcp_socket_by_port_and_addr (t : SocketTable) (local_port : Z)
    (remote_addr : Ipv4Addr) (remote_port : Z) : option Z :=
  fst <$> List.find (fun '(_, socket) =>
    bool_decide (sk_kind socket = Stream) && (sk_port socket =? local_port)
    && match sk_inner socket with
       | SocketTcp s =>
           match ts_dst_ipv4_addr s, ts_dst_port s with
           | Some addr, Some port => bool_decide (addr = remote_addr) && (port =? remote_port)
           | _, _ => false
           end
       | _ => false
       end) (btree_iter (st_table t)).

(** ** The TCP receive path of one socket *)

(** A segment that carries part of the peer's byte stream: [data] is the stream
    from offset [off], and [seq] numbers that offset from [isn]. *)
Definition segment_of (isn : Z) (stream : list Z) (seg : Z * list Z) : Prop :=
  exists off : nat, (off + length (snd seg) <= length stream)%nat
    /\ fst seg = wrap 32 (isn + Z.of_nat off)
    /\ snd seg = take (length (snd seg)) (drop off stream).

Definition receive_segments (segs : list (Z * list Z)) : SR TcpSocket unit :=
  sfor segs (fun '(seq, data) => receive_data data seq).

(** An established socket that holds the first [k] bytes of the stream after
    what it held before. *)
Definition holds_prefix (isn : Z) (stream buf0 : list Z) (k : nat) (s : TcpSocket) : Prop :=
  ts_state s = Established /\ (k <= length stream)%nat
  /\ ts_next_recv_seq s = wrap 32 (isn + Z.of_nat k) /\ ts_buf s = buf0 ++ take k stream.

Lemma wrap32_offset isn (a b : nat) :
  Z.of_nat a < 2 ^ 32 -> Z.of_nat b < 2 ^ 32 ->
  wrap 32 (isn + Z.of_nat a) = wrap 32 (isn + Z.of_nat b) -> a = b.
Proof.
  unfold wrap. intros Ha Hb Heq.
  assert (Z.of_nat a mod 2 ^ 32 = Z.of_nat b mod 2 ^ 32) as H.
  { replace (Z.of_nat a) with (isn + Z.of_nat a - isn) by lia.
    replace (Z.of_nat b) with (isn + Z.of_nat b - isn) by lia.
    by rewrite Zminus_mod, Heq, <- Zminus_mod. }
  rewrite !Z.mod_small in H; lia.
Qed.

Lemma wrapping_add_wrap isn k n :
  wrapping_add 32 (wrap 32 (isn + Z.of_nat k)) (wrap 32 (Z.of_nat n)) = wrap 32 (isn + Z.of_nat (k + n)).
Proof. unfold wrapping_add, wrap. rewrite <- Zplus_mod. f_equal. lia. Qed.

(** One segment: accepted when it starts where the socket stands, otherwise
    ignored. *)
Lemma receive_data_step isn stream buf0 k s off data :
  Z.of_nat (length stream) < 2 ^ 32 -> holds_prefix isn stream buf0 k s ->
  (off + length data <= length stream)%nat -> data = take (length data) (drop off stream) ->
  exists s', receive_data data (wrap 32 (isn + Z.of_nat off)) s = (Ok tt, s')
    /\ holds_prefix isn stream buf0 (if decide (off = k) then k + length data else k)%nat s'.
Proof.
  intros Hl (H1 & H2 & H3 & H4) Hoff Hdata. unfold receive_data, sbind, sget. rewrite H1.
  change (negb (bool_decide (Established = Established))) with false. cbv iota. rewrite H3.
  destruct (Z.eqb_spec (wrap 32 (isn + Z.of_nat off)) (wrap 32 (isn + Z.of_nat k))) as [Heq|Hne];
    cbn [negb]; cbv iota.
  - apply wrap32_offset in Heq as ->; [|lia..]. rewrite decide_True by done.
    destruct data as [|x data'] eqn:Ed.
    { exists s. split; [done|]. cbn [length]. rewrite Nat.add_0_r. done. }
    rewrite <- Ed in *. eexists. split; [done|]. split_and!; [done|lia| |].
    + cbn [set_next_recv_seq set_buf ts_next_recv_seq]. by rewrite wrapping_add_wrap.
    + cbn [set_next_recv_seq set_buf ts_buf]. rewrite H4, <- app_assoc. f_equal.
      rewrite Hdata at 1. by rewrite take_take_drop.
  - rewrite decide_False by (by intros ->). by exists s.
Qed.

Lemma receive_segments_prefix isn stream buf0 k s segs :
  Z.of_nat (length stream) < 2 ^ 32 -> Forall (segment_of isn stream) segs ->
  holds_prefix isn stream buf0 k s ->
  exists k' s', receive_segments segs s = (Ok tt, s') /\ (k <= k')%nat /\ holds_prefix isn stream buf0 k' s'.
Proof.
  intros Hl Hs. revert k s. induction Hs as [|[seq data] segs (off & H1 & H2 & H3) Hs IH]; intros k s Hk.
  { exists k, s. done. }
  cbn [fst snd] in *. destruct (receive_data_step isn stream buf0 k s off data) as (s1 & Hr & Hk1); [done..|].
  destruct (IH _ _ Hk1) as (k' & s' & Hr' & Hle & Hk').
  exists k', s'. split_and!; [|destruct (decide (off = k)); lia|done].
  unfold receive_segments in *. cbn [sfor]. unfold sbind. by rewrite H2, Hr.
Qed.

(** The segments of a stream cut into chunks, in order, from offset [off]. *)
Fixpoint chunk_segments (isn : Z) (off : nat) (chunks : list (list Z)) : list (Z * list Z) :=
  match chunks with
  | [] => []
  | c :: cs => (wrap 32 (isn + Z.of_nat off), c) :: chunk_segments isn (off + length c) cs
  end.

Lemma receive_chunks isn stream buf0 k s chunks :
  Z.of_nat (length stream) < 2 ^ 32 -> drop k stream = mjoin chunks ->
  holds_prefix isn stream buf0 k s ->
  exists s', receive_segments (chunk_segments isn k chunks) s = (Ok tt, s')
    /\ holds_prefix isn stream buf0 (length stream) s'.
Proof.
  intros Hl. revert k s. induction chunks as [|c cs IH]; intros k s Hd Hk.
  { exists s. split; [done|]. destruct Hk as (H1 & H2 & H3 & H4).
    assert (k = length stream) as <-; [|done]. apply (f_equal length) in Hd.
    rewrite length_drop in Hd. cbn in Hd. lia. }
  cbn [mjoin list_join] in Hd. destruct Hk as (H1 & H2 & H3 & H4).
  pose proof (f_equal length Hd) as Hlen. rewrite length_drop, length_app in Hlen.
  destruct (receive_data_step isn stream buf0 k s k c) as (s1 & Hr & Hk1); [done|done|lia| |].
  { by rewrite Hd, take_app_length. }
  rewrite decide_True in Hk1 by done.
  destruct (IH (k + length c)%nat s1) as (s' & Hr' & Hk'); [|done|].
  { by rewrite <- drop_drop, Hd, drop_app_length. }
  exists s'. split; [|done]. unfold receive_segments in *. cbn [chunk_segments sfor].
  unfold sbind. by rewrite Hr.
Qed.

(** ** The TCP state machine *)

(** The operations on a TCP socket, from any caller, in any order. *)
Inductive tcp_step : TcpSocket -> TcpSocket -> Prop :=
| step_start_passive s s' r p : start_passive p s = (r, s') -> tcp_step s s'
| step_start_active s s' r a p : addr_wf a -> start_active a p s = (r, s') -> tcp_step s s'
| step_receive_syn s s' r n : receive_syn n s = (r, s') -> tcp_step s s'
| step_receive_syn_ack s s' r n : receive_syn_ack n s = (r, s') -> tcp_step s s'
| step_receive_ack s s' r : receive_ack s = (r, s') -> tcp_step s s'
| step_receive_fin s s' r : receive_fin s = (r, s') -> tcp_step s s'
| step_receive_data s s' r d n : receive_data d n s = (r, s') -> tcp_step s s'
| step_add_seq_num s s' r n : add_seq_num n s = (r, s') -> tcp_step s s'
| step_reset_buf s s' r : reset_buf s = (r, s') -> tcp_step s s'
| step_set_dst_addr s a : addr_wf a -> tcp_step s (set_dst_ipv4_addr a s)
| step_set_dst_port s p : tcp_step s (set_dst_port p s)
| step_close s s' r : TcpSocket_close s = (r, s') -> tcp_step s s'.

(** The transitions of RFC 793 that the kernel implements, with the reset by
    [close]. *)
Definition tcp_edge (a b : TcpSocketState) : bool :=
  match a, b with
  | Closed, Listen | Closed, SynSent | Listen, SynReceived | SynSent, Established
  | SynReceived, Established | Established, CloseWait | _, Closed => true
  | _, _ => bool_decide (a = b)
  end.

(** The states the kernel can be in. *)
Definition tcp_live (s : TcpSocketState) : bool :=
  match s with
  | Closed | Listen | SynReceived | SynSent | Established | CloseWait => true
  | _ => false
  end.

Definition tcp_inv (s : TcpSocket) : Prop :=
  tcp_live (ts_state s) = true /\ is_uint 32 (ts_seq_num s) = true
  /\ is_uint 32 (ts_next_recv_seq s) = true
  /\ (ts_state s = SynSent -> is_Some (ts_dst_ipv4_addr s) /\ is_Some (ts_dst_port s))
  /\ (forall a, ts_dst_ipv4_addr s = Some a -> addr_wf a).

Lemma wrapping_add_uint a b : is_uint 32 (wrapping_add 32 a b) = true.
Proof. apply wrap_uint. lia. Qed.

#[export] Hint Resolve wrapping_add_uint : kernel.

Lemma tcp_step_edge s s' : tcp_step s s' -> tcp_edge (ts_state s) (ts_state s') = true.
Proof.
  assert (forall x, tcp_edge x x = true) as Hrefl by (by intros []).
  destruct 1 as [s s' r p H|s s' r a p Ha H|s s' r n H|s s' r n H|s s' r H|s s' r H|s s' r d n H
    |s s' r n H|s s' r H|s a Ha|s p|s s' r H];
    unfold start_passive, start_active, receive_syn, receive_syn_ack, receive_ack, receive_fin, receive_data,
      add_seq_num, reset_buf, TcpSocket_close, sbind, sget, smodify, sput, sret, serr in H || idtac; try done;
    repeat case_bool_decide; cbn [negb andb] in H;
    repeat match goal with
    | H : context [match ?d with [] => _ | _ :: _ => _ end] |- _ => destruct d
    | H : context [if negb (?a =? ?b) then _ else _] |- _ => destruct (a =? b); cbn [negb] in H
    end; injection H as <- <-; cbn;
    repeat match goal with H : ts_state _ = _ |- _ => rewrite H end; done || by destruct (ts_state s).
Qed.

Lemma tcp_step_inv s s' : tcp_inv s -> tcp_step s s' -> tcp_inv s'.
Proof.
  intros (H1 & H2 & H3 & H4 & H5).
  destruct 1 as [s s' r p H|s s' r a p Ha H|s s' r n H|s s' r n H|s s' r H|s s' r H|s s' r d n H
    |s s' r n H|s s' r H|s a Ha|s p|s s' r H];
    unfold start_passive, start_active, receive_syn, receive_syn_ack, receive_ack, receive_fin, receive_data,
      add_seq_num, reset_buf, TcpSocket_close, sbind, sget, smodify, sput, sret, serr in H || idtac;
    repeat case_bool_decide; cbn [negb andb] in H || idtac;
    repeat match goal with
    | H : context [match ?d with [] => _ | _ :: _ => _ end] |- _ => destruct d
    | H : context [if negb (?a =? ?b) then _ else _] |- _ => destruct (a =? b); cbn [negb] in H
    end; try (injection H as <- <-); unfold tcp_inv; cbn;
    split_and!; auto with kernel; try done; try (by apply wrap_uint); intros Hs;
    try done; try (destruct (H4 Hs); eauto); eauto; by intros [= <-].
Qed.

Lemma TcpSocket_new_inv : tcp_inv TcpSocket_new.
Proof. by split_and!. Qed.

(** ** The socket table *)

(** A socket's inner socket is of its kind, and its port is a [u16]. *)
Definition socket_ok (s : Socket) : Prop :=
  is_uint 16 (sk_port s) = true
  /\ match sk_kind s, sk_inner s with
     | Stream, SocketTcp t => tcp_inv t
     | Dgram, SocketUdp _ => True
     | _, _ => False
     end.

Definition port_map (t : SocketTable) (kind : SocketType) : gmap Z Z :=
  match kind with Stream => st_tcp_port_map t | Dgram => st_udp_port_map t end.

Record table_wf (t : SocketTable) : Prop := {
  tw_next : 4096 <= st_next_id t < 2 ^ 64;
  tw_ids : forall id s, st_table t !! id = Some s -> 4096 <= id < st_next_id t;
  tw_sockets : forall id s, st_table t !! id = Some s -> socket_ok s;
  tw_ports : forall kind p id, port_map t kind !! p = Some id ->
    p <> 0 /\ exists s, st_table t !! id = Some s /\ sk_kind s = kind /\ sk_port s = p;
  tw_disjoint : forall p, st_tcp_port_map t !! p = None \/ st_udp_port_map t !! p = None
}.

Lemma SocketTable_new_wf : table_wf SocketTable_new.
Proof.
  constructor; cbn.
  - lia.
  - intros id s. by rewrite lookup_empty.
  - intros id s. by rewrite lookup_empty.
  - intros [] p id; cbn; by rewrite lookup_empty.
  - intros p. left. apply lookup_empty.
Qed.

(** Changing a socket without changing its port or kind. *)
Lemma table_wf_update t id s s' :
  table_wf t -> st_table t !! id = Some s -> sk_port s' = sk_port s -> sk_kind s' = sk_kind s ->
  socket_ok s' -> table_wf (set_table (<[id := s']> (st_table t)) t).
Proof.
  intros [H1 H2 H3 H4 H5] Hid Hp Hk Hok. constructor; cbn.
  - done.
  - intros i x Hx. destruct (decide (i = id)) as [->|Hne]; [by eapply H2|].
    rewrite lookup_insert_ne in Hx by done. by eapply H2.
  - intros i x Hx. destruct (decide (i = id)) as [->|Hne].
    + rewrite lookup_insert_eq in Hx. by injection Hx as <-.
    + rewrite lookup_insert_ne in Hx by done. by eapply H3.
  - intros kind p i Hi. change (port_map (set_table _ t) kind) with (port_map t kind) in Hi.
    destruct (H4 kind p i Hi) as (Hp0 & x & Hx & Hxk & Hxp). split; [done|].
    destruct (decide (i = id)) as [->|Hne].
    + exists s'. rewrite lookup_insert_eq. simplify_eq. split_and!; congruence.
    + exists x. by rewrite lookup_insert_ne.
  - done.
Qed.

Lemma socket_by_id_run t id s : st_table t !! id = Some s -> socket_by_id id t = (Ok s, t).
Proof. intros H. unfold socket_by_id, sbind, sget, slift. by rewrite H. Qed.

Lemma socket_by_id_none t id : st_table t !! id = None -> socket_by_id id t = (Err socket_id_error, t).
Proof. intros H. unfold socket_by_id, sbind, sget, slift. by rewrite H. Qed.

Lemma socket_mut_by_id_run {A} t id s (f : SR Socket A) r s' :
  st_table t !! id = Some s -> f s = (r, s') ->
  socket_mut_by_id id f t = (r, set_table (<[id := s']> (st_table t)) t).
Proof.
  intros Hs Hf. unfold socket_mut_by_id. rewrite (sbind_run _ _ t s t) by (by apply socket_by_id_run).
  by rewrite Hf.
Qed.

Lemma socket_mut_by_id_none {A} t id (f : SR Socket A) :
  st_table t !! id = None -> socket_mut_by_id id f t = (Err socket_id_error, t).
Proof. intros H. unfold socket_mut_by_id, sbind. by rewrite socket_by_id_none. Qed.

(** *** New sockets *)

Definition fresh_socket (kind : SocketType) : Socket :=
  {| sk_port := 0; sk_addr := None; sk_kind := kind;
     sk_inner := match kind with Stream => SocketTcp TcpSocket_new | Dgram => SocketUdp UdpSocket_new end |}.

Definition kind_protocol (kind : SocketType) : Protocol :=
  match kind with Stream => Tcp | Dgram => Udp end.

(** The table with one more socket. *)
Definition with_new_socket (t : SocketTable) (s : Socket) : SocketTable :=
  {| st_table := <[st_next_id t := s]> (st_table t); st_udp_port_map := st_udp_port_map t;
     st_tcp_port_map := st_tcp_port_map t; st_next_id := st_next_id t + 1 |}.

Lemma insert_new_socket_run t kind :
  4096 <= st_next_id t -> st_next_id t + 1 < 2 ^ 64 ->
  insert_new_socket kind (kind_protocol kind) t = (Ok (st_next_id t), with_new_socket t (fresh_socket kind)).
Proof.
  intros H1 H2. unfold insert_new_socket, SocketId_new, with_new_socket, sbind, slift, sget, sput, sret, smodify.
  destruct kind; cbn [kind_protocol]; cbv iota;
    (rewrite bool_decide_true by done); cbn [negb]; unfold set_table, set_next_id; cbn;
    unfold wrapping_add, wrap; rewrite Z.mod_small by lia; done.
Qed.

Lemma next_id_fresh t : table_wf t -> st_table t !! st_next_id t = None.
Proof.
  intros Hwf. destruct (st_table t !! st_next_id t) as [s|] eqn:E; [|done].
  pose proof (tw_ids t Hwf _ _ E). lia.
Qed.

Lemma with_new_socket_wf t s :
  table_wf t -> st_next_id t + 1 < 2 ^ 64 -> socket_ok s -> table_wf (with_new_socket t s).
Proof.
  intros Hwf Hn Hok. pose proof (next_id_fresh t Hwf) as Hf. destruct Hwf as [H1 H2 H3 H4 H5].
  constructor; cbn.
  - lia.
  - intros i x Hx. destruct (decide (i = st_next_id t)) as [->|Hne]; [lia|].
    rewrite lookup_insert_ne in Hx by done. pose proof (H2 _ _ Hx). lia.
  - intros i x Hx. destruct (decide (i = st_next_id t)) as [->|Hne].
    + rewrite lookup_insert_eq in Hx. by injection Hx as <-.
    + rewrite lookup_insert_ne in Hx by done. by eapply H3.
  - intros kind p i Hi. change (port_map (with_new_socket t s) kind) with (port_map t kind) in Hi.
    destruct (H4 kind p i Hi) as (Hp0 & x & Hx & Hxk & Hxp). split; [done|]. exists x.
    rewrite lookup_insert_ne; [done|]. intros <-. congruence.
  - done.
Qed.

Lemma fresh_socket_ok kind : socket_ok (fresh_socket kind).
Proof. destruct kind; split; [done| |done|done]. apply TcpSocket_new_inv. Qed.

(** *** Removing *)

(** The table without socket [id] of port [p] and kind [kind]. *)
Definition without_socket (t : SocketTable) (id : Z) (s : Socket) : SocketTable :=
  let t := set_table (delete id (st_table t)) t in
  if sk_port s =? 0 then t
  else match sk_kind s with
       | Stream => set_tcp_map (delete (sk_port s) (st_tcp_port_map t)) t
       | Dgram => set_udp_map (delete (sk_port s) (st_udp_port_map t)) t
       end.

Lemma remove_socket_run t id s :
  st_table t !! id = Some s -> remove_socket id t = (Ok tt, without_socket t id s).
Proof.
  intros Hs. unfold remove_socket, without_socket.
  rewrite (sbind_run _ _ t s t) by (by apply socket_by_id_run). unfold sbind, smodify.
  destruct (sk_port s =? 0); cbn [negb]; [done|]. by destruct (sk_kind s).
Qed.

Lemma remove_socket_none t id :
  st_table t !! id = None -> remove_socket id t = (Err socket_id_error, t).
Proof. intros H. unfold remove_socket, sbind. by rewrite socket_by_id_none. Qed.

Lemma without_socket_map t id s kind p :
  port_map (without_socket t id s) kind !! p
  = if bool_decide (sk_port s <> 0 /\ kind = sk_kind s /\ p = sk_port s) then None else port_map t kind !! p.
Proof.
  unfold without_socket. destruct (Z.eqb_spec (sk_port s) 0) as [H0|H0].
  { rewrite bool_decide_false by tauto. by destruct kind. }
  destruct (decide (kind = sk_kind s /\ p = sk_port s)) as [[-> ->]|Hne].
  - rewrite bool_decide_true by done. destruct (sk_kind s); cbn; apply lookup_delete_eq.
  - rewrite bool_decide_false by tauto.
    destruct (sk_kind s), kind; cbn; try done; apply lookup_delete_ne; intros <-; tauto.
Qed.

Lemma without_socket_table t id s : st_table (without_socket t id s) = delete id (st_table t).
Proof. unfold without_socket. destruct (_ =? _); [done|]. by destruct (sk_kind s). Qed.

Lemma without_socket_next t id s : st_next_id (without_socket t id s) = st_next_id t.
Proof. unfold without_socket. destruct (_ =? _); [done|]. by destruct (sk_kind s). Qed.

Lemma without_socket_wf t id s :
  table_wf t -> st_table t !! id = Some s -> table_wf (without_socket t id s).
Proof.
  intros [H1 H2 H3 H4 H5] Hs. constructor; rewrite ?without_socket_table, ?without_socket_next.
  - done.
  - intros i x [_ Hx]%lookup_delete_Some. by eapply H2.
  - intros i x [_ Hx]%lookup_delete_Some. by eapply H3.
  - intros kind p i. rewrite without_socket_map. case_bool_decide as Hc; [done|]. intros Hi.
    destruct (H4 kind p i Hi) as (Hp0 & x & Hx & Hxk & Hxp). split; [done|]. exists x.
    rewrite lookup_delete_ne; [done|]. intros <-. simplify_eq. tauto.
  - intros p. change (st_tcp_port_map ?x) with (port_map x Stream).
    change (st_udp_port_map ?x) with (port_map x Dgram). rewrite !without_socket_map.
    destruct (H5 p) as [Hp|Hp]; [left|right]; case_bool_decide; done.
Qed.

(** *** Binding *)

(** The table with [id] bound to [port]. *)
Definition with_bound (t : SocketTable) (id : Z) (s : Socket) (port : Z) : SocketTable :=
  let t := set_table (<[id := set_port port s]> (st_table t)) t in
  match sk_kind s with
  | Stream => set_tcp_map (<[port := id]> (st_tcp_port_map t)) t
  | Dgram => set_udp_map (<[port := id]> (st_udp_port_map t)) t
  end.

Lemma with_bound_map t id s port kind p :
  port_map (with_bound t id s port) kind !! p
  = if bool_decide (kind = sk_kind s /\ p = port) then Some id else port_map t kind !! p.
Proof.
  unfold with_bound. destruct (decide (kind = sk_kind s /\ p = port)) as [[-> ->]|Hne].
  - rewrite bool_decide_true by done. destruct (sk_kind s); cbn; apply lookup_insert_eq.
  - rewrite bool_decide_false by done.
    destruct (sk_kind s), kind; cbn; try done; apply lookup_insert_ne; intros <-; tauto.
Qed.

Lemma with_bound_table t id s port :
  st_table (with_bound t id s port) = <[id := set_port port s]> (st_table t)
  /\ st_next_id (with_bound t id s port) = st_next_id t.
Proof. unfold with_bound. by destruct (sk_kind s). Qed.

Lemma with_bound_wf t id s port :
  table_wf t -> st_table t !! id = Some s -> sk_port s = 0 ->
  port <> 0 -> is_uint 16 port = true -> port_used t port = false ->
  table_wf (with_bound t id s port).
Proof.
  intros [H1 H2 H3 H4 H5] Hs Hp0 Hport Hu Hfree.
  destruct (with_bound_table t id s port) as [Et En]. unfold port_used in Hfree.
  apply orb_false_iff in Hfree as [Hft%bool_decide_eq_false Hfu%bool_decide_eq_false].
  rewrite <- eq_None_not_Some in Hft, Hfu. constructor; rewrite ?Et, ?En.
  - done.
  - intros i x Hx. destruct (decide (i = id)) as [->|Hne]; [by eapply H2|].
    rewrite lookup_insert_ne in Hx by done. by eapply H2.
  - intros i x Hx. destruct (decide (i = id)) as [->|Hne].
    + rewrite lookup_insert_eq in Hx. injection Hx as <-. pose proof (H3 _ _ Hs) as [_ Hk]. by split.
    + rewrite lookup_insert_ne in Hx by done. by eapply H3.
  - intros kind p i. rewrite with_bound_map. case_bool_decide as Hc.
    + destruct Hc as [-> ->]. intros [= <-]. split; [done|]. eexists. by rewrite lookup_insert_eq.
    + intros Hi. destruct (H4 kind p i Hi) as (Hpn & x & Hx & Hxk & Hxp). split; [done|]. exists x.
      rewrite lookup_insert_ne; [done|]. intros <-. simplify_eq.
  - intros p. change (st_tcp_port_map ?x) with (port_map x Stream).
    change (st_udp_port_map ?x) with (port_map x Dgram). rewrite !with_bound_map.
    destruct (decide (p = port)) as [->|Hne].
    + destruct (sk_kind s); [right|left]; rewrite bool_decide_false by (by intros []); done.
    + rewrite !bool_decide_false by (intros [_ ?]; congruence). apply H5.
Qed.

(** The port [bind_port] chooses. *)
Definition chosen_port (t : SocketTable) (port : option Z) : Result Z :=
  let port := default 0 port in
  if port =? 0 then ok_or (error_into BufferFull) (List.find (fun p => negb (port_used t p)) ephemeral_ports)
  else if bool_decide (is_Some (st_tcp_port_map t !! port)) then Err (with_context AlreadyExists "TCP port")
  else if bool_decide (is_Some (st_udp_port_map t !! port)) then Err (with_context AlreadyExists "UDP port")
  else Ok port.

Lemma chosen_port_no_panic t port : chosen_port t port <> Panic.
Proof.
  unfold chosen_port. destruct (_ =? _).
  - by destruct (List.find _ ephemeral_ports).
  - by do 2 (destruct (bool_decide _); [done|]).
Qed.

(** [bind_port] in one equation. *)
Lemma bind_port_eq t id port :
  bind_port id port t
  = match chosen_port t port with
    | Ok p => match st_table t !! id with
              | Some s => (Ok tt, with_bound t id s p)
              | None => (Err socket_id_error, t)
              end
    | Err e => (Err e, t)
    | Panic => (Panic, t)
    end.
Proof.
  unfold bind_port, chosen_port. rewrite (sbind_run sget _ t t t) by done.
  assert (forall p, (let! kind := socket_mut_by_id id
     (do! smodify (set_port p) in let! s := sget in sret (sk_kind s)) in
     match kind with
     | Stream => smodify (fun t => set_tcp_map (<[p := id]> (st_tcp_port_map t)) t)
     | Dgram => smodify (fun t => set_udp_map (<[p := id]> (st_udp_port_map t)) t)
     end) t = match st_table t !! id with
              | Some s => (Ok tt, with_bound t id s p)
              | None => (Err socket_id_error, t)
              end) as Hrun.
  { intros p. destruct (st_table t !! id) as [s|] eqn:Hs.
    - rewrite (sbind_run _ _ t (sk_kind s) (set_table (<[id := set_port p s]> (st_table t)) t)).
      + unfold with_bound. by destruct (sk_kind s).
      + by rewrite (socket_mut_by_id_run t id s _ (Ok (sk_kind s)) (set_port p s)).
    - unfold sbind at 1. by rewrite socket_mut_by_id_none. }
  destruct (default 0 port =? 0).
  - destruct (List.find _ ephemeral_ports) as [p|]; cbn [ok_or]; [|done].
    rewrite (sbind_run (sret p) _ t p t) by done. apply Hrun.
  - destruct (bool_decide _); [done|]. destruct (bool_decide _); [done|].
    rewrite (sbind_run (sret _) _ t (default 0 port) t) by done. apply Hrun.
Qed.

Lemma bind_port_run t id s port :
  st_table t !! id = Some s ->
  bind_port id port t
  = match chosen_port t port with
    | Ok p => (Ok tt, with_bound t id s p)
    | Err e => (Err e, t)
    | Panic => (Panic, t)
    end.
Proof. intros Hs. by rewrite bind_port_eq, Hs. Qed.

Lemma elem_of_ephemeral p : p ∈ ephemeral_ports <-> 49152 <= p <= 65535.
Proof.
  unfold ephemeral_ports. rewrite elem_of_seqZ. unfold PORT_EPHEMERAL_START, PORT_EPHEMERAL_END. lia.
Qed.

(** The chosen port is free and, when chosen automatically, the lowest free
    ephemeral port. *)
Lemma chosen_port_ok t port p :
  (forall q, port = Some q -> is_uint 16 q = true) -> chosen_port t port = Ok p ->
  p <> 0 /\ is_uint 16 p = true /\ port_used t p = false.
Proof.
  intros Hq. unfold chosen_port. destruct (Z.eqb_spec (default 0 port) 0) as [H0|H0].
  - destruct (List.find _ ephemeral_ports) as [q|] eqn:E; cbn [ok_or]; [|done]. intros [= <-].
    apply List.find_some in E as [Hin Hfree]. apply list_elem_of_In, elem_of_ephemeral in Hin.
    split_and!; [lia| |].
    + apply is_uint_spec. lia.
    + by apply negb_true_iff.
  - destruct (bool_decide _) eqn:E1; [done|]. destruct (bool_decide _) eqn:E2 at 1; [done|].
    intros [= <-]. split_and!; [done| |by unfold port_used; rewrite E1, E2].
    destruct port as [q|]; [by apply Hq|done].
Qed.

Lemma find_seqZ_first (f : Z -> bool) (n : nat) a p :
  List.find f (seqZ a (Z.of_nat n)) = Some p -> forall q, a <= q < p -> f q = false.
Proof.
  revert a. induction n as [|n IH]; intros a; [done|].
  rewrite seqZ_cons by lia. replace (Z.pred (Z.of_nat (S n))) with (Z.of_nat n) by lia.
  cbn [List.find]. destruct (f a) eqn:Ha.
  - intros [= <-] q Hq. lia.
  - intros Hf q Hq. destruct (decide (q = a)) as [->|]; [done|]. apply (IH (Z.succ a)); [done|lia].
Qed.

Lemma find_seqZ_lowest (f : Z -> bool) n a p :
  List.find f (seqZ a n) = Some p -> forall q, a <= q < p -> f q = false.
Proof.
  destruct (Z.le_gt_cases 0 n) as [Hn|Hn]; [|by rewrite seqZ_nil by lia].
  rewrite <- (Z2Nat.id n) by done. apply find_seqZ_first.
Qed.

Lemma ephemeral_lowest (f : Z -> bool) p q :
  List.find f ephemeral_ports = Some p -> 49152 <= q < p -> f q = false.
Proof. unfold ephemeral_ports. intros Hf Hq. by apply (find_seqZ_lowest _ _ _ _ Hf). Qed.

(** An automatic choice. *)
Lemma chosen_port_auto t port :
  default 0 port = 0 ->
  match chosen_port t port with
  | Ok p => 49152 <= p <= 65535 /\ forall q, 49152 <= q < p -> port_used t q = true
  | Err _ => forall q, 49152 <= q <= 65535 -> port_used t q = true
  | Panic => False
  end.
Proof.
  intros H0. unfold chosen_port. destruct (Z.eqb_spec (default 0 port) 0) as [_|]; [|done].
  destruct (List.find _ ephemeral_ports) as [p|] eqn:E; cbn [ok_or].
  - pose proof (List.find_some _ _ E) as [Hin _]. apply list_elem_of_In, elem_of_ephemeral in Hin.
    split; [done|]. intros q Hq. apply negb_false_iff, (ephemeral_lowest _ _ _ E Hq).
  - intros q Hq. apply elem_of_ephemeral, list_elem_of_In in Hq.
    pose proof (List.find_none _ _ E q Hq) as Hn. by apply negb_false_iff.
Qed.

(** A requested port. *)
Lemma chosen_port_explicit t q :
  q <> 0 ->
  match chosen_port t (Some q) with
  | Ok p => p = q
  | Err _ => port_used t q = true
  | Panic => False
  end.
Proof.
  intros H0. unfold chosen_port, port_used. change (default 0 (Some q)) with q.
  destruct (Z.eqb_spec q 0); [done|].
  by destruct (st_tcp_port_map t !! q), (st_udp_port_map t !! q).
Qed.

(** ** Properties *)

(** C19: in-order delivery.  An established TCP socket that expects sequence
    number [isn] is fed any list of segments of the peer's stream: with losses,
    duplicates and reordering, and across the wrap-around of the 32-bit sequence
    number.  No segment is an error, and the buffer then holds what it held
    before followed by a prefix of the stream: nothing is duplicated, skipped or
    reordered.  When the segments are the stream cut into chunks and arrive in
    order, the whole stream is delivered. *)
Theorem tcp_stream_delivery isn stream buf0 s :
  Z.of_nat (length stream) < 2 ^ 32 ->
  ts_state s = Established -> ts_next_recv_seq s = wrap 32 isn -> ts_buf s = buf0 ->
  (forall segs, Forall (segment_of isn stream) segs ->
     exists k s', receive_segments segs s = (Ok tt, s')
       /\ ts_state s' = Established /\ ts_buf s' = buf0 ++ take k stream
       /\ ts_next_recv_seq s' = wrap 32 (isn + Z.of_nat k))
  /\ (forall chunks, stream = mjoin chunks ->
     exists s', receive_segments (chunk_segments isn 0 chunks) s = (Ok tt, s')
       /\ ts_buf s' = buf0 ++ stream).
Proof.
  intros Hl H1 H2 H3.
  assert (holds_prefix isn stream buf0 0 s) as H0.
  { split_and!; [done|lia|by rewrite Z.add_0_r|by rewrite app_nil_r]. }
  split.
  - intros segs Hs. destruct (receive_segments_prefix isn stream buf0 0 s segs Hl Hs H0)
      as (k & s' & Hr & _ & E1 & _ & E2 & E3). by exists k, s'.
  - intros chunks Hc. destruct (receive_chunks isn stream buf0 0 s chunks) as (s' & Hr & _ & _ & _ & E); [done..|].
    exists s'. split; [done|]. by rewrite E, firstn_all.
Qed.

Definition demo_established : TcpSocket :=
  set_next_recv_seq 4294967295 (set_state Established TcpSocket_new).

Lemma tcp_stream_delivery_witness :
  exists s', receive_segments (chunk_segments 4294967295 0 [[1; 2]; [3]]) demo_established = (Ok tt, s')
    /\ ts_buf s' = [1; 2; 3].
Proof.
  destruct (tcp_stream_delivery 4294967295 [1; 2; 3] [] demo_established) as [_ H].
  - simpl. lia.
  - reflexivity.
  - reflexivity.
  - reflexivity.
  - destruct (H [[1; 2]; [3]] eq_refl) as (s' & H1 & H2). exists s'. split; [exact H1|exact H2].
Defined.

(** the TCP state machine.  Whatever operations are applied to a new
    socket, in any order and with any arguments, its state is one of the six
    states the kernel implements, its sequence numbers are 32-bit values, a
    connecting socket has its peer's address and port, and each operation moves
    it along an edge of the RFC 793 diagram or resets it. *)
Theorem tcp_state_machine s :
  reach tcp_step TcpSocket_new s ->
  tcp_inv s /\ forall s', tcp_step s s' -> tcp_edge (ts_state s) (ts_state s') = true.
Proof.
  intros Hr. split; [|intros s'; apply tcp_step_edge].
  apply (reach_invariant tcp_step tcp_inv TcpSocket_new); [apply TcpSocket_new_inv|apply tcp_step_inv|done].
Qed.

Lemma tcp_state_machine_witness :
  tcp_inv (snd (start_passive 80 TcpSocket_new)).
Proof.
  apply (tcp_state_machine (snd (start_passive 80 TcpSocket_new))).
  eapply reach_step; [apply reach_refl|].
  apply (step_start_passive TcpSocket_new _ (fst (start_passive 80 TcpSocket_new)) 80). reflexivity.
Defined.

(** binding a port.  In a consistent table, for an unbound socket:
    [bind_port] binds it to a free nonzero port and afterwards exactly that
    port of its kind leads to it, all other lookups being unchanged, or fails
    and changes nothing.  A requested port is refused only when a TCP or UDP
    socket holds it; an automatic one is the lowest free ephemeral port and is
    refused only when none is free. *)
Theorem bind_port_correct t id s port :
  table_wf t -> st_table t !! id = Some s -> sk_port s = 0 ->
  (forall q, port = Some q -> is_uint 16 q = true) ->
  match bind_port id port t with
  | (Ok _, t') =>
      table_wf t'
      /\ exists p, p <> 0 /\ port_used t p = false
         /\ (forall q, port = Some q -> q <> 0 -> p = q)
         /\ (default 0 port = 0 ->
             49152 <= p <= 65535 /\ forall q, 49152 <= q < p -> port_used t q = true)
         /\ st_table t' = <[id := set_port p s]> (st_table t)
         /\ forall kind q, fst (socket_id_by_port_and_type q kind t')
              = if bool_decide (kind = sk_kind s /\ q = p) then Ok id
                else fst (socket_id_by_port_and_type q kind t)
  | (Err e, t') =>
      t' = t
      /\ ((exists q, port = Some q /\ q <> 0 /\ port_used t q = true)
          \/ (default 0 port = 0 /\ forall q, 49152 <= q <= 65535 -> port_used t q = true))
  | (Panic, _) => False
  end.
Proof.
  intros Hwf Hs Hp0 Hq. rewrite (bind_port_run t id s port Hs).
  pose proof (chosen_port_auto t port) as Hauto.
  assert (forall q, port = Some q -> q <> 0 ->
    match chosen_port t port with Ok p => p = q | Err _ => port_used t q = true | Panic => False end) as Hexp.
  { intros q -> Hq0. by apply chosen_port_explicit. }
  pose proof (chosen_port_ok t port) as Hok. destruct (chosen_port t port) as [p|e|].
  - destruct (Hok p Hq eq_refl) as (C1 & C2 & C3).
    split; [by apply with_bound_wf|]. exists p.
    split_and!; [done..|apply with_bound_table|].
    intros kind q. pose proof (with_bound_map t id s p kind q) as Hm.
    unfold socket_id_by_port_and_type, sbind, sget, slift. cbn [fst].
    destruct kind; cbn [port_map] in Hm; rewrite Hm; by case_bool_decide.
  - split; [done|]. destruct (decide (default 0 port = 0)) as [H0|H0]; [right; auto|left].
    destruct port as [q|]; [|done]. exists q. split_and!; [done..|]. by apply Hexp.
  - destruct (decide (default 0 port = 0)) as [H0|H0]; [auto|]. destruct port as [q|]; [|done]. by apply (Hexp q).
Qed.

(** A table with one unbound TCP socket. *)
Definition demo_table : SocketTable := with_new_socket SocketTable_new (fresh_socket Stream).

Lemma demo_table_wf : table_wf demo_table.
Proof. apply with_new_socket_wf; [apply SocketTable_new_wf|simpl; lia|apply fresh_socket_ok]. Qed.

Lemma bind_port_correct_witness :
  match bind_port 4096 (Some 80) demo_table with (Ok _, t') => table_wf t' | _ => False end.
Proof.
  pose proof (bind_port_correct demo_table 4096 (fresh_socket Stream) (Some 80) demo_table_wf eq_refl eq_refl) as H.
  destruct (bind_port 4096 (Some 80) demo_table) as [[u|e|] t'] eqn:E.
  - apply H. intros q Hq. injection Hq as <-. reflexivity.
  - exfalso. assert (Hf : fst (bind_port 4096 (Some 80) demo_table) = Err e) by (rewrite E; reflexivity).
    lazy in Hf. discriminate Hf.
  - exfalso. assert (Hf : fst (bind_port 4096 (Some 80) demo_table) = Panic) by (rewrite E; reflexivity).
    lazy in Hf. discriminate Hf.
Defined.

(** closing an accepted connection unbinds the listener.  A connection
    accepted by a listening socket carries the listener's port without being
    registered for it; removing it deletes the registration of the port
    although that belongs to the listener, which is still in the table with
    that port and can no longer be found by it. *)
Theorem remove_child_unbinds_listener t listener child ls cs :
  table_wf t -> listener <> child ->
  st_table t !! listener = Some ls -> st_table t !! child = Some cs ->
  sk_kind cs = sk_kind ls -> sk_port cs = sk_port ls ->
  fst (socket_id_by_port_and_type (sk_port ls) (sk_kind ls) t) = Ok listener ->
  exists t', remove_socket child t = (Ok tt, t')
    /\ st_table t' !! listener = Some ls
    /\ fst (socket_id_by_port_and_type (sk_port ls) (sk_kind ls) t') = Err (with_context NotFound "port").
Proof.
  intros Hwf Hne Hl Hc Hk Hp Hmap. exists (without_socket t child cs).
  split; [by apply remove_socket_run|]. split; [by rewrite without_socket_table, lookup_delete_ne|].
  assert (port_map t (sk_kind ls) !! sk_port ls = Some listener) as Hm.
  { unfold socket_id_by_port_and_type, sbind, sget, slift in Hmap. cbn [fst] in Hmap.
    destruct (sk_kind ls); cbn [port_map] in *;
      match goal with H : ok_or _ ?o = _ |- _ => destruct o; [by injection H as ->|done] end. }
  destruct (tw_ports t Hwf _ _ _ Hm) as [Hp0 _].
  pose proof (without_socket_map t child cs (sk_kind ls) (sk_port ls)) as Hw.
  rewrite bool_decide_true in Hw by (split_and!; congruence).
  unfold socket_id_by_port_and_type, sbind, sget, slift. cbn [fst].
  destruct (sk_kind ls); cbn [port_map] in Hw; by rewrite Hw.
Qed.

(** A listener on port 80 and a connection that carries its port. *)
Definition demo_shared : SocketTable :=
  with_new_socket (with_bound demo_table 4096 (fresh_socket Stream) 80) (set_port 80 (fresh_socket Stream)).

Lemma remove_child_unbinds_listener_witness :
  exists t', remove_socket 4097 demo_shared = (Ok tt, t')
    /\ fst (socket_id_by_port_and_type 80 Stream demo_shared) = Ok 4096
    /\ fst (socket_id_by_port_and_type 80 Stream t') = Err (with_context NotFound "port").
Proof.
  destruct (remove_child_unbinds_listener demo_shared 4096 4097 (set_port 80 (fresh_socket Stream))
              (set_port 80 (fresh_socket Stream))) as (t' & H1 & _ & H2);
    [|discriminate|reflexivity..|].
  - apply with_new_socket_wf; [|simpl; lia|split; [reflexivity|exact TcpSocket_new_inv]].
    apply with_bound_wf; [exact demo_table_wf|reflexivity|reflexivity|discriminate|reflexivity|reflexivity].
  - exists t'. split; [exact H1|split; [reflexivity|exact H2]].
Defined.
