(* ===== verification/Net.v ===== *)
(** * The network manager ([kernel/src/net/mod.rs])

    The handlers for received packets and the operations behind the socket
    system calls.  The state is the [NetworkManager] together with what it
    touches of its surroundings: the transmit queue of the network card
    ([push_eth_frame_to_tx_queue] in [device/rtl8139.rs], behind a lock that may
    be taken) and the uptime ([device/local_apic_timer.rs]). *)
From Stdlib Require Import ZArith Lia.
From stdpp Require Import base gmap list strings.
From S2P Require Import Prelude KError Packet Socket.

(** ** Definitions *)

Definition GATEWAY_ADDR : Ipv4Addr := (10, 0, 2, 2).
Definition LOCAL_ADDR : Ipv4Addr := (10, 0, 2, 15).
Definition SUBNET_MASK : Ipv4Addr := (255, 255, 255, 0).

Definition masked (a : Ipv4Addr) : Ipv4Addr :=
  let '(a0, a1, a2, a3) := a in
  let '(m0, m1, m2, m3) := SUBNET_MASK in
  (Z.land a0 m0, Z.land a1 m1, Z.land a2 m2, Z.land a3 m3).

Definition target_ip (my_ip dst_ip : Ipv4Addr) : Ipv4Addr :=
  if bool_decide (masked my_ip = masked dst_ip) then dst_ip else GATEWAY_ADDR.

(** An ARP entry: the address, or none yet, and the time of the last request
    or reply (in nanoseconds). *)
Abbreviation ArpTable := (gmap Ipv4Addr (option EthernetAddress * Z)).

Record NetworkManager := MkNet {
  nm_my_ipv4_addr : Ipv4Addr;
  nm_my_mac_addr : option EthernetAddress;
  nm_arp_table : ArpTable;
  nm_socket_table : SocketTable;
  (* the surroundings *)
  nm_tx_queue : list EthernetFrame;
  nm_tx_locked : bool;
  nm_uptime : Z
}.

Definition NetworkManager_new (ipv4_addr : Ipv4Addr) : NetworkManager :=
  {| nm_my_ipv4_addr := ipv4_addr; nm_my_mac_addr := None; nm_arp_table := ∅;
     nm_socket_table := SocketTable_new; nm_tx_queue := []; nm_tx_locked := false; nm_uptime := 0 |}.

Definition set_my_mac_addr (mac_addr : EthernetAddress) (n : NetworkManager) : NetworkManager :=
  {| nm_my_ipv4_addr := nm_my_ipv4_addr n; nm_my_mac_addr := Some mac_addr;
     nm_arp_table := nm_arp_table n; nm_socket_table := nm_socket_table n;
     nm_tx_queue := nm_tx_queue n; nm_tx_locked := nm_tx_locked n; nm_uptime := nm_uptime n |}.
Definition set_arp_table (m : ArpTable) (n : NetworkManager) : NetworkManager :=
  {| nm_my_ipv4_addr := nm_my_ipv4_addr n; nm_my_mac_addr := nm_my_mac_addr n;
     nm_arp_table := m; nm_socket_table := nm_socket_table n;
     nm_tx_queue := nm_tx_queue n; nm_tx_locked := nm_tx_locked n; nm_uptime := nm_uptime n |}.
Definition set_socket_table (t : SocketTable) (n : NetworkManager) : NetworkManager :=
  {| nm_my_ipv4_addr := nm_my_ipv4_addr n; nm_my_mac_addr := nm_my_mac_addr n;
     nm_arp_table := nm_arp_table n; nm_socket_table := t;
     nm_tx_queue := nm_tx_queue n; nm_tx_locked := nm_tx_locked n; nm_uptime := nm_uptime n |}.
Definition set_tx_queue (q : list EthernetFrame) (n : NetworkManager) : NetworkManager :=
  {| nm_my_ipv4_addr := nm_my_ipv4_addr n; nm_my_mac_addr := nm_my_mac_addr n;
     nm_arp_table := nm_arp_table n; nm_socket_table := nm_socket_table n;
     nm_tx_queue := q; nm_tx_locked := nm_tx_locked n; nm_uptime := nm_uptime n |}.

(** An operation on the socket table. *)
Definition on_table {A} (m : SR SocketTable A) : SR NetworkManager A :=
  fun n => let '(r, t) := m (nm_socket_table n) in (r, set_socket_table t n).

(** [self.socket_table.socket_mut_by_id(id)?.inner_tcp_mut()?] and an operation
    through it. *)
Definition on_tcp {A} (id : Z) (m : SR TcpSocket A) : SR NetworkManager A :=
  on_table (socket_mut_by_id id (with_tcp m)).

Definition no_context (c : string) : Error_ := with_context NotFound c.

Definition my_mac_addr : SR NetworkManager EthernetAddress :=
  let! n := sget in
  slift (ok_or (with_context NotInitialized "MAC address") (nm_my_mac_addr n)).

(** [device::rtl8139::push_eth_frame_to_tx_queue] *)
Definition push_eth_frame_to_tx_queue (f : EthernetFrame) : SR NetworkManager unit :=
  let! n := sget in
  if nm_tx_locked n then serr (error_into Locked)
  else sput (set_tx_queue (nm_tx_queue n ++ [f]) n).

Definition send_eth_payload (payload : EthernetPayload) (dst_mac_addr : EthernetAddress)
    (eth_type : EthernetType) : SR NetworkManager unit :=
  let payload_vec := EthernetPayload_to_vec payload in
  let! src_mac_addr := my_mac_addr in
  push_eth_frame_to_tx_queue (EthernetFrame_new_with dst_mac_addr src_mac_addr eth_type payload_vec).

Definition send_arp_packet (op : ArpOperation) (sender_eth_addr : EthernetAddress)
    (sender_ipv4_addr : Ipv4Addr) (target_eth_addr : EthernetAddress) (target_ipv4_addr : Ipv4Addr)
  : SR NetworkManager unit :=
  let packet := ArpPacket_new_with op sender_eth_addr sender_ipv4_addr target_eth_addr target_ipv4_addr in
  send_eth_payload (ArpPayload packet) target_eth_addr EthArp.

(** [*last_req + Duration::from_millis(1000)]; a [Duration] holds [2^64] seconds. *)
Definition NANOS_PER_SEC : Z := 1000000000.
Definition duration_add (a b : Z) : Result Z :=
  if a + b <? 2 ^ 64 * NANOS_PER_SEC then Ok (a + b) else Panic.

Definition resolve_mac_addr (ipv4_addr : Ipv4Addr) : SR NetworkManager (option EthernetAddress) :=
  let! n := sget in
  let now := nm_uptime n in
  let request :=
    let! mac := my_mac_addr in
    let! n := sget in
    do! send_arp_packet ArpRequest mac (nm_my_ipv4_addr n) EthernetAddress_broadcast ipv4_addr in
    sret None in
  match nm_arp_table n !! ipv4_addr with
  | Some (Some mac, _) => sret (Some mac)
  | Some (None, last_req) =>
      let! deadline := slift (duration_add last_req NANOS_PER_SEC) in
      if now <? deadline then sret None
      else
        do! sput (set_arp_table (<[ipv4_addr := (None, now)]> (nm_arp_table n)) n) in
        request
  | None =>
      do! sput (set_arp_table (<[ipv4_addr := (None, now)]> (nm_arp_table n)) n) in
      request
  end.

(** The end of every transmission: resolve the next hop, then queue the frame. *)
Definition send_ipv4 (ipv4_packet : Ipv4Packet) (dst_addr : Ipv4Addr) : SR NetworkManager unit :=
  let! n := sget in
  let target := target_ip (nm_my_ipv4_addr n) dst_addr in
  let! mac := resolve_mac_addr target in
  let! dst_mac_addr := slift (ok_or (no_context "MAC address") mac) in
  send_eth_payload (IpPayload ipv4_packet) dst_mac_addr EthIpv4.

(** A TCP segment to a peer: checksum, IPv4 packet and its checksum. *)
Definition tcp_to_ipv4 (my dst_addr : Ipv4Addr) (packet : TcpPacket) : Result Ipv4Packet :=
  let? packet := TcpPacket_calc_checksum_with_ipv4 packet my dst_addr in
  let? ipv4_packet := Ipv4Packet_new_with 0x45 0 0 0 Tcp my dst_addr (TcpPayload packet) in
  Ok (Ipv4Packet_calc_checksum ipv4_packet).

Definition udp_to_ipv4 (my dst_addr : Ipv4Addr) (packet : UdpPacket) : Result Ipv4Packet :=
  let? packet := UdpPacket_calc_checksum_with_ipv4 packet my dst_addr in
  let? ipv4_packet := Ipv4Packet_new_with 0x45 0 0 0 Udp my dst_addr (UdpPayload packet) in
  Ok (Ipv4Packet_calc_checksum ipv4_packet).

Definition send_udp_packet (src_port dst_port : Z) (dst_addr : Ipv4Addr) (data : list Z)
  : SR NetworkManager unit :=
  let! n := sget in
  let! udp_packet := slift (UdpPacket_new_with src_port dst_port data) in
  let! ipv4_packet := slift (udp_to_ipv4 (nm_my_ipv4_addr n) dst_addr udp_packet) in
  send_ipv4 ipv4_packet dst_addr.

(** *** Operations of the socket system calls *)

Definition create_new_socket (kind : SocketType) : SR NetworkManager Z :=
  let protocol := match kind with Stream => Tcp | Dgram => Udp end in
  on_table (insert_new_socket kind protocol).

Definition bind_socket_v4 (socket_id : Z) (bound_addr : option Ipv4Addr) (port : option Z)
  : SR NetworkManager unit :=
  on_table
    (let! socket := socket_by_id socket_id in
     if negb (sk_port socket =? 0) then serr (error_into AlreadyExists)
     else
       do! bind_port socket_id port in
       socket_mut_by_id socket_id (smodify (set_addr bound_addr))).

Definition sendto_udp_v4 (socket_id : Z) (dst_addr : Ipv4Addr) (dst_port : Z) (data : list Z)
  : SR NetworkManager unit :=
  let! socket := on_table (socket_by_id socket_id) in
  send_udp_packet (sk_port socket) dst_port dst_addr data.

(** The caller's buffer after the call, and the number of bytes. *)
Definition recvfrom_udp_v4 (socket_id : Z) (buf : list Z) : SR NetworkManager (list Z * Z) :=
  on_table (socket_mut_by_id socket_id (with_udp (read_buf buf))).

Definition listen_tcp_v4 (socket_id : Z) : SR NetworkManager unit :=
  on_table (socket_mut_by_id socket_id
    (let! socket := sget in
     let port := sk_port socket in
     if port =? 0 then serr (with_context InvalidData "socket not bound")
     else with_tcp (start_passive port))).

Definition accept_tcp_v4 (socket_id : Z) : SR NetworkManager Z :=
  on_table
    (let! socket := socket_by_id socket_id in
     let! tcp_socket := slift (inner_tcp_mut socket) in
     if negb (bool_decide (ts_state tcp_socket = Listen)) then serr (with_context InvalidData "socket state")
     else
       let! t := sget in
       slift (ok_or (no_context "incoming connection") (find_tcp_established_socket t (sk_port socket)))).

Definition connect_tcp_v4 (socket_id : Z) (dst_addr : Ipv4Addr) (dst_port : Z) : SR NetworkManager unit :=
  on_table
    (let! socket := socket_by_id socket_id in
     do! (if sk_port socket =? 0 then bind_port socket_id None else sret tt) in
     socket_mut_by_id socket_id (with_tcp (start_active dst_addr dst_port))).

(** What [send_tcp_fin] and [send_tcp_packet] read of the socket: its port and
    its TCP socket. *)
Definition tcp_socket_of (socket_id : Z) : SR NetworkManager (Z * TcpSocket) :=
  on_table
    (let! socket := socket_by_id socket_id in
     let! tcp_socket := slift (inner_tcp_mut socket) in
     sret (sk_port socket, tcp_socket)).

Definition send_tcp_syn (socket_id : Z) : SR NetworkManager unit :=
  let! (src_port, tcp_socket) := tcp_socket_of socket_id in
  if negb (bool_decide (ts_state tcp_socket = SynSent)) then serr (with_context InvalidData "socket state")
  else
    let! dst_port := slift (ok_or (no_context "destination port") (ts_dst_port tcp_socket)) in
    let! dst_addr := slift (ok_or (no_context "destination address") (ts_dst_ipv4_addr tcp_socket)) in
    let! syn_packet := slift (TcpPacket_new_with src_port dst_port (ts_seq_num tcp_socket) 0
                                FLAGS_SYN 65535 0 [] []) in
    let! n := sget in
    let! ipv4_packet := slift (tcp_to_ipv4 (nm_my_ipv4_addr n) dst_addr syn_packet) in
    send_ipv4 ipv4_packet dst_addr.

Definition send_tcp_fin (socket_id : Z) : SR NetworkManager unit :=
  let! socket := on_table (socket_by_id socket_id) in
  match inner_tcp_mut socket with
  | Ok tcp_socket =>
      if negb (bool_decide (ts_state tcp_socket = Established)) then sret tt
      else
        let! dst_port := slift (ok_or (no_context "destination port") (ts_dst_port tcp_socket)) in
        let! dst_addr := slift (ok_or (no_context "destination address") (ts_dst_ipv4_addr tcp_socket)) in
        let! packet := slift (TcpPacket_new_with (sk_port socket) dst_port (ts_seq_num tcp_socket)
                                (ts_next_recv_seq tcp_socket) (Z.lor FLAGS_ACK FLAGS_FIN) 65535 0 [] []) in
        let! n := sget in
        let! ipv4_packet := slift (tcp_to_ipv4 (nm_my_ipv4_addr n) dst_addr packet) in
        do! send_ipv4 ipv4_packet dst_addr in
        on_tcp socket_id (add_seq_num 1)
  | _ => sret tt
  end.

Definition send_tcp_packet (socket_id : Z) (data : list Z) : SR NetworkManager unit :=
  let! (src_port, tcp_socket) := tcp_socket_of socket_id in
  if negb (bool_decide (ts_state tcp_socket = Established)) then serr (with_context InvalidData "socket state")
  else
    let! dst_port := slift (ok_or (no_context "destination port") (ts_dst_port tcp_socket)) in
    let! dst_addr := slift (ok_or (no_context "destination address") (ts_dst_ipv4_addr tcp_socket)) in
    let! packet := slift (TcpPacket_new_with src_port dst_port (ts_seq_num tcp_socket)
                            (ts_next_recv_seq tcp_socket) (Z.lor FLAGS_ACK FLAGS_PSH) 65535 0 [] data) in
    let! n := sget in
    let! ipv4_packet := slift (tcp_to_ipv4 (nm_my_ipv4_addr n) dst_addr packet) in
    do! send_ipv4 ipv4_packet dst_addr in
    match data with
    | [] => sret tt
    | _ => on_tcp socket_id (add_seq_num (wrap 32 (Z.of_nat (length data))))
    end.

Definition close_socket (socket_id : Z) : SR NetworkManager unit :=
  do! signore (send_tcp_fin socket_id) in
  on_table (remove_socket socket_id).

Definition tcp_readable (s : TcpSocketState) : bool :=
  match s with
  | Established | FinWait1 | FinWait2 | CloseWait | TimeWait | LastAck | Closing => true
  | _ => false
  end.

(** The part of [recv_tcp_packet] that works on the TCP socket. *)
Definition recv_buffered (buf : list Z) : SR TcpSocket (list Z * Z) :=
  let! s := sget in
  if negb (tcp_readable (ts_state s)) then serr (with_context InvalidData "socket state")
  else
    let! data := reset_buf in
    match data with
    | [] => sret (buf, 0)
    | _ =>
        let len := Nat.min (length buf) (length data) in
        sret (take len data ++ drop len buf, Z.of_nat len)
    end.

Definition recv_tcp_packet (socket_id : Z) (buf : list Z) : SR NetworkManager (list Z * Z) :=
  on_tcp socket_id (recv_buffered buf).

Definition is_tcp_established (socket_id : Z) : SR NetworkManager bool :=
  let! (_, tcp_socket) := tcp_socket_of socket_id in
  sret (bool_decide (ts_state tcp_socket = Established)).

(** *** Received packets *)

(** The id of the socket [udp_socket_mut_by_port] returns a reference into. *)
Definition udp_socket_mut_by_port (port : Z) : SR SocketTable Z :=
  fun t =>
    match socket_id_by_port_and_type port Dgram t with
    | (Ok id, t) => (let! s := socket_by_id id in
                     let! _ := slift (inner_udp_mut s) in sret id) t
    | (Panic, t) => (Panic, t)
    | (Err _, t) =>
        (let! id := insert_new_socket Dgram Udp in
         do! bind_port id (Some port) in
         let! s := socket_by_id id in
         let! _ := slift (inner_udp_mut s) in
         sret id) t
    end.

Definition tcp_socket_mut_by_port (local_port : Z) (remote_addr : Ipv4Addr) (remote_port : Z)
  : SR SocketTable Z :=
  let ref id := (let! s := socket_by_id id in
                 let! _ := slift (inner_tcp_mut s) in
                 sret id) in
  fun t =>
    match find_tcp_socket_by_port_and_addr t local_port remote_addr remote_port with
    | Some id => ref id t
    | None =>
        match socket_id_by_port_and_type local_port Stream t with
        | (Ok id, t) => ref id t
        | (Panic, t) => (Panic, t)
        | (Err _, t) =>
            (let! id := insert_new_socket Stream Tcp in
             do! bind_port id (Some local_port) in
             ref id) t
        end
    end.

Definition receive_icmp_packet (packet : IcmpPacket) : option IcmpPacket :=
  match icmp_ty packet with
  | EchoRequest => Some (IcmpPacket_calc_checksum (icmp_set packet EchoReply (icmp_checksum packet)))
  | _ => None
  end.

(** [u16 1460] as MSS option. *)
Definition mss_options : list Z := [0x02; 0x04; wrap 8 (Z.shiftr 1460 8); wrap 8 (Z.land 1460 0xff)].

(** The branch of a listening socket: a new socket for the connection. *)
Definition receive_on_listen (packet : TcpPacket) (remote_addr : Ipv4Addr)
  : SR SocketTable (option TcpPacket) :=
  let src_port := tcp_src_port packet in
  let dst_port := tcp_dst_port packet in
  if negb (flags_syn packet) then sret None
  else
    let! new_socket_id := insert_new_socket Stream Tcp in
    let! (next_seq_num, ack_num) := socket_mut_by_id new_socket_id
      (do! smodify (set_port dst_port) in
       with_tcp
         (do! start_passive dst_port in
          do! smodify (set_dst_ipv4_addr remote_addr) in
          do! smodify (set_dst_port src_port) in
          let! next_seq_num := receive_syn (tcp_seq_num packet) in
          let! s := sget in
          sret (next_seq_num, ts_next_recv_seq s))) in
    let! reply := slift (TcpPacket_new_with dst_port src_port next_seq_num ack_num
                           (Z.lor FLAGS_SYN FLAGS_ACK) 65535 0 mss_options []) in
    sret (Some reply).

(** A bare acknowledgement of what [s] has received. *)
Definition ack_reply (packet : TcpPacket) (s : TcpSocket) : Result TcpPacket :=
  TcpPacket_new_with (tcp_dst_port packet) (tcp_src_port packet) (ts_seq_num s) (ts_next_recv_seq s)
    FLAGS_ACK 65535 0 [] [].

Definition receive_on_syn_sent (packet : TcpPacket) : SR TcpSocket (option TcpPacket) :=
  if negb (flags_syn packet) || negb (flags_ack packet) then sret None
  else
    do! receive_syn_ack (tcp_seq_num packet) in
    let! s := sget in
    let! reply := slift (ack_reply packet s) in
    sret (Some reply).

Definition receive_on_syn_received (packet : TcpPacket) : SR TcpSocket (option TcpPacket) :=
  if negb (flags_ack packet) then sret None
  else do! receive_ack in sret None.

Definition receive_on_established (packet : TcpPacket) : SR TcpSocket (option TcpPacket) :=
  do! (if flags_ack packet then receive_ack else sret tt) in
  let has_data := match tcp_data packet with [] => false | _ => true end in
  do! (if has_data then receive_data (tcp_data packet) (tcp_seq_num packet) else sret tt) in
  do! (if flags_fin packet then receive_fin else sret tt) in
  if has_data || flags_fin packet then
    let! s := sget in
    let! reply := slift (ack_reply packet s) in
    sret (Some reply)
  else sret None.

Definition receive_tcp_packet (packet : TcpPacket) (remote_addr : Ipv4Addr)
  : SR NetworkManager (option TcpPacket) :=
  on_table (fun t =>
    match tcp_socket_mut_by_port (tcp_dst_port packet) remote_addr (tcp_src_port packet) t with
    | (Panic, t) => (Panic, t)
    | (Err _, t) => (Ok None, t)
    | (Ok id, t) =>
        (let! state := socket_mut_by_id id (with_tcp (let! s := sget in sret (ts_state s))) in
         match state with
         | Listen => receive_on_listen packet remote_addr
         | SynSent => socket_mut_by_id id (with_tcp (receive_on_syn_sent packet))
         | SynReceived => socket_mut_by_id id (with_tcp (receive_on_syn_received packet))
         | Established => socket_mut_by_id id (with_tcp (receive_on_established packet))
         | _ => sret None
         end) t
    end).

Definition receive_udp_packet (packet : UdpPacket) : SR NetworkManager (option UdpPacket) :=
  on_table
    (let! id := udp_socket_mut_by_port (udp_dst_port packet) in
     do! socket_mut_by_id id (with_udp (UdpSocket_receive (udp_data packet))) in
     sret None).

Definition receive_arp_packet (packet : ArpPacket) : SR NetworkManager (option ArpPacket) :=
  let! arp_op := slift (ArpPacket_op packet) in
  let sender_ipv4_addr := arp_sender_ipv4_addr packet in
  let sender_mac_addr := arp_sender_eth_addr packet in
  let! n := sget in
  do! sput (set_arp_table (<[sender_ipv4_addr := (Some sender_mac_addr, nm_uptime n)]> (nm_arp_table n)) n) in
  if bool_decide (arp_op = ArpRequest) then
    if negb (bool_decide (arp_target_ipv4_addr packet = nm_my_ipv4_addr n)) then sret None
    else
      let! mac := my_mac_addr in
      sret (Some (ArpPacket_new_with ArpReply mac (nm_my_ipv4_addr n) sender_mac_addr sender_ipv4_addr))
  else sret None.

Definition receive_ipv4_packet (packet : Ipv4Packet) : SR NetworkManager (option Ipv4Packet) :=
  do! slift (Ipv4Packet_validate packet) in
  let! n := sget in
  if negb (bool_decide (ip_dst_addr packet = nm_my_ipv4_addr n)) then sret None
  else
    let! payload := slift (Ipv4Packet_payload packet) in
    let! reply_payload :=
      match payload with
      | IcmpPayload icmp_packet => sret (IcmpPayload <$> receive_icmp_packet icmp_packet)
      | TcpPayload tcp_packet =>
          let! is_valid := slift (TcpPacket_verify_checksum_with_ipv4 tcp_packet
                                    (ip_src_addr packet) (ip_dst_addr packet)) in
          if negb is_valid then sret None
          else
            let! reply := receive_tcp_packet tcp_packet (ip_src_addr packet) in
            match reply with
            | Some reply_tcp_packet =>
                let! q := slift (TcpPacket_calc_checksum_with_ipv4 reply_tcp_packet
                                   (nm_my_ipv4_addr n) (ip_src_addr packet)) in
                sret (Some (TcpPayload q))
            | None => sret None
            end
      | UdpPayload udp_packet => do! receive_udp_packet udp_packet in sret None
      end in
    match reply_payload with
    | Some reply_payload =>
        let! ipv4_packet := slift (Ipv4Packet_new_with (ip_version_ihl packet) (ip_dscp_ecn packet)
          (ip_id packet) (ip_flags packet) (ip_protocol packet) (nm_my_ipv4_addr n)
          (ip_src_addr packet) reply_payload) in
        sret (Some (Ipv4Packet_calc_checksum ipv4_packet))
    | None => sret None
    end.

Definition receive_eth_payload (payload : EthernetPayload) : SR NetworkManager (option EthernetPayload) :=
  match payload with
  | ArpPayload arp_packet =>
      let! reply := receive_arp_packet arp_packet in sret (ArpPayload <$> reply)
  | IpPayload ipv4_packet =>
      let! reply := receive_ipv4_packet ipv4_packet in sret (IpPayload <$> reply)
  | NoPayload => sret None
  end.

(** ** Safety of the handlers *)

(** *** One socket *)

(** The operations of a TCP socket keep its invariant and do not panic. *)
Lemma tcp_op_safe {A} (m : SR TcpSocket A) :
  (forall s, tcp_step s (snd (m s))) -> (forall s, fst (m s) <> Panic) -> hoare tcp_inv m tcp_inv.
Proof. intros H1 H2 s Hs. split; [|apply H2]. by eapply tcp_step_inv. Qed.

Ltac tcp_op ctor :=
  apply tcp_op_safe; intros s;
  [match goal with |- tcp_step ?s (snd ?r) => destruct r eqn:E; by eapply ctor end
  |unfold start_passive, start_active, receive_syn, receive_syn_ack, receive_ack, receive_fin, receive_data,
     add_seq_num, reset_buf, sbind, sget, smodify, sput, sret, serr;
   repeat case_bool_decide; cbn; repeat case_match; done].

Lemma start_passive_safe p : hoare tcp_inv (start_passive p) tcp_inv.
Proof. tcp_op step_start_passive. Qed.
Lemma start_active_safe a p : addr_wf a -> hoare tcp_inv (start_active a p) tcp_inv.
Proof. intros Ha. tcp_op step_start_active. Qed.
Lemma receive_syn_safe n : hoare tcp_inv (receive_syn n) tcp_inv.
Proof. tcp_op step_receive_syn. Qed.
Lemma receive_syn_ack_safe n : hoare tcp_inv (receive_syn_ack n) tcp_inv.
Proof. tcp_op step_receive_syn_ack. Qed.
Lemma receive_ack_safe : hoare tcp_inv receive_ack tcp_inv.
Proof. tcp_op step_receive_ack. Qed.
Lemma receive_fin_safe : hoare tcp_inv receive_fin tcp_inv.
Proof. tcp_op step_receive_fin. Qed.
Lemma receive_data_safe d n : hoare tcp_inv (receive_data d n) tcp_inv.
Proof. tcp_op step_receive_data. Qed.
Lemma add_seq_num_safe n : hoare tcp_inv (add_seq_num n) tcp_inv.
Proof. tcp_op step_add_seq_num. Qed.
Lemma reset_buf_safe : hoare tcp_inv reset_buf tcp_inv.
Proof. tcp_op step_reset_buf. Qed.

#[export] Hint Resolve start_passive_safe start_active_safe receive_syn_safe receive_syn_ack_safe
  receive_ack_safe receive_fin_safe receive_data_safe add_seq_num_safe reset_buf_safe : kernel.

(** Building a segment does not panic, and the segment is small. *)
Lemma tcp_new_with_ok src dst seq ack flags win urg options data :
  (length options <= 40)%nat ->
  exists p, TcpPacket_new_with src dst seq ack flags win urg options data = Ok p
    /\ (length (tcp_options p) <= 43)%nat /\ tcp_data p = data.
Proof.
  intros Hl. unfold TcpPacket_new_with.
  set (w := ((20 + length options + 3) / 4)%nat).
  assert (5 <= w <= 15)%nat as Hw.
  { unfold w. split; [apply Nat.div_le_lower_bound; lia|].
    pose proof (Nat.Div0.div_le_mono (20 + length options + 3) 63 4 ltac:(lia)) as H.
    change (63 / 4)%nat with 15%nat in H. lia. }
  rewrite wrap_small by (apply is_uint_spec; lia). unfold usub.
  destruct (Z.leb_spec 20 (Z.of_nat w * 4)); [|lia]. cbn [obind]. eexists. split; [done|].
  cbn [tcp_options tcp_data]. split; [|done]. unfold vec_resize.
  rewrite length_app, length_take, length_replicate. lia.
Qed.

Lemma ack_reply_ok packet s : ack_reply packet s <> Panic.
Proof. unfold ack_reply. by destruct (tcp_new_with_ok (tcp_dst_port packet) (tcp_src_port packet) (ts_seq_num s) (ts_next_recv_seq s) FLAGS_ACK 65535 0 [] [] ltac:(cbn; lia)) as (p & -> & _). Qed.

#[export] Hint Resolve ack_reply_ok : kernel.

(** Go through a handler with the rules and the lemmas of its operations. *)
Ltac hoare_go :=
  repeat match goal with
  | |- forall _, _ => intros
  | |- hoare ?P (sbind _ _) ?P => apply (hoare_bind P P P); [| |done]
  | |- hoare _ (slift _) _ => apply hoare_lift
  | |- hoare _ (if ?b then _ else _) _ => destruct b
  | |- hoare _ (match ?x with _ => _ end) _ => destruct x
  | |- _ => solve [eauto with kernel]
  end.

Lemma receive_on_established_safe packet : hoare tcp_inv (receive_on_established packet) tcp_inv.
Proof. unfold receive_on_established. hoare_go. Qed.
Lemma receive_on_syn_sent_safe packet : hoare tcp_inv (receive_on_syn_sent packet) tcp_inv.
Proof. unfold receive_on_syn_sent. hoare_go. Qed.
Lemma receive_on_syn_received_safe packet : hoare tcp_inv (receive_on_syn_received packet) tcp_inv.
Proof. unfold receive_on_syn_received. hoare_go. Qed.

#[export] Hint Resolve receive_on_established_safe receive_on_syn_sent_safe receive_on_syn_received_safe : kernel.

(** *** The table *)

(** A consistent table with room for [k] more socket ids. *)
Definition table_room (k : Z) (t : SocketTable) : Prop := table_wf t /\ st_next_id t + k < 2 ^ 64.

Definition socket_is (kind : SocketType) (port : Z) (s : Socket) : Prop :=
  socket_ok s /\ sk_kind s = kind /\ sk_port s = port.

Lemma inner_tcp_mut_eq s :
  inner_tcp_mut s = match sk_kind s, sk_inner s with
                    | Stream, SocketTcp t => Ok t
                    | _, _ => Err socket_type_error
                    end.
Proof. unfold inner_tcp_mut. by destruct (sk_kind s), (sk_inner s). Qed.

Lemma inner_udp_mut_eq s :
  inner_udp_mut s = match sk_kind s, sk_inner s with
                    | Dgram, SocketUdp u => Ok u
                    | _, _ => Err socket_type_error
                    end.
Proof. unfold inner_udp_mut. by destruct (sk_kind s), (sk_inner s). Qed.

Lemma inner_tcp_no_panic s : inner_tcp_mut s <> Panic.
Proof. rewrite inner_tcp_mut_eq. destruct (sk_kind s), (sk_inner s); discriminate. Qed.

Lemma inner_udp_no_panic s : inner_udp_mut s <> Panic.
Proof. rewrite inner_udp_mut_eq. destruct (sk_kind s), (sk_inner s); discriminate. Qed.

#[export] Hint Resolve inner_tcp_no_panic inner_udp_no_panic : kernel.

Lemma with_tcp_safe {A} (m : SR TcpSocket A) kind port :
  hoare tcp_inv m tcp_inv -> hoare (socket_is kind port) (with_tcp m) (socket_is kind port).
Proof.
  intros Hm s ((Hu & Hok) & Hk & Hp). unfold with_tcp, sbind, sget, slift. rewrite inner_tcp_mut_eq.
  destruct s as [sp sa [t|u] []]; cbn in *; try done.
  destruct (Hm t Hok) as [H1 H2]. destruct (m t) as [r t']. cbn in *. by split; [split_and!|].
Qed.

Lemma with_udp_safe {A} (m : SR UdpSocket A) kind port :
  (forall u, fst (m u) <> Panic) -> hoare (socket_is kind port) (with_udp m) (socket_is kind port).
Proof.
  intros Hm s ((Hu & Hok) & Hk & Hp). unfold with_udp, sbind, sget, slift. rewrite inner_udp_mut_eq.
  destruct s as [sp sa [t|u] []]; cbn in *; try done.
  pose proof (Hm u) as H2. destruct (m u) as [r u']. cbn in *. by split; [split_and!|].
Qed.

Lemma on_socket_safe {A} k id (f : SR Socket A) :
  (forall kind port, hoare (socket_is kind port) f (socket_is kind port)) ->
  hoare (table_room k) (socket_mut_by_id id f) (table_room k).
Proof.
  intros Hf t [Hwf Hk]. destruct (st_table t !! id) as [s|] eqn:Hs.
  - pose proof (tw_sockets t Hwf _ _ Hs) as Hok.
    destruct (Hf (sk_kind s) (sk_port s) s) as [(H1 & H2 & H3) Hp]; [done|].
    destruct (f s) as [r s'] eqn:E. rewrite (socket_mut_by_id_run t id s f r s' Hs E). cbn in *.
    split; [|done]. split; [|done]. by apply (table_wf_update t id s s').
  - rewrite (socket_mut_by_id_none t id f Hs). done.
Qed.

Lemma on_tcp_socket_safe {A} k id (m : SR TcpSocket A) :
  hoare tcp_inv m tcp_inv -> hoare (table_room k) (socket_mut_by_id id (with_tcp m)) (table_room k).
Proof. intros Hm. apply on_socket_safe. intros. by apply with_tcp_safe. Qed.

Lemma socket_by_id_safe k id : hoare (table_room k) (socket_by_id id) (table_room k).
Proof.
  intros t Ht. unfold socket_by_id, sbind, sget, slift. cbn. by destruct (st_table t !! id).
Qed.

Lemma by_port_safe k port kind : hoare (table_room k) (socket_id_by_port_and_type port kind) (table_room k).
Proof. intros t Ht. unfold socket_id_by_port_and_type, sbind, sget, slift. cbn. destruct kind; by destruct (_ !! _). Qed.

Lemma remove_socket_safe k id : hoare (table_room k) (remove_socket id) (table_room k).
Proof.
  intros t [Hwf Hk]. destruct (st_table t !! id) as [s|] eqn:Hs.
  - rewrite (remove_socket_run t id s Hs). cbn. split; [|done].
    split; [by apply without_socket_wf|by rewrite without_socket_next].
  - by rewrite (remove_socket_none t id Hs).
Qed.

Lemma table_room_mono k k' t : k' <= k -> table_room k t -> table_room k' t.
Proof. intros Hk [H1 H2]. split; [done|lia]. Qed.

Lemma create_safe k kind :
  0 <= k -> hoare (table_room (k + 1)) (insert_new_socket kind (kind_protocol kind)) (table_room k).
Proof.
  intros Hk t [Hwf Hn]. pose proof (tw_next t Hwf).
  rewrite insert_new_socket_run by lia. cbn. split; [|done].
  split; [apply with_new_socket_wf; [done|lia|apply fresh_socket_ok]|cbn; lia].
Qed.

(** Binding an unbound socket. *)
Lemma bind_unbound_safe k id port :
  (forall q, port = Some q -> is_uint 16 q = true) ->
  hoare (fun t => table_room k t /\ forall s, st_table t !! id = Some s -> sk_port s = 0)
    (bind_port id port) (table_room k).
Proof.
  intros Hq t [[Hwf Hn] Hs]. rewrite bind_port_eq.
  pose proof (chosen_port_no_panic t port) as Hnp.
  destruct (chosen_port t port) as [p|e|] eqn:Hc; [|done..].
  destruct (chosen_port_ok t port p Hq Hc) as (C1 & C2 & C3).
  destruct (st_table t !! id) as [s|] eqn:E; [|done]. destruct (with_bound_table t id s p) as [_ Hnx].
  split; [|done]. split; [by apply with_bound_wf; auto|cbn; by rewrite Hnx].
Qed.

Lemma ref_tcp_safe k id :
  hoare (table_room k)
    (let! s := socket_by_id id in let! _ := slift (inner_tcp_mut s) in sret id) (table_room k).
Proof.
  apply (hoare_bind _ (table_room k)); [apply socket_by_id_safe| |done]. intros s.
  apply (hoare_bind _ (table_room k)); [apply hoare_lift| |done].
  - apply inner_tcp_no_panic.
  - intros _. apply hoare_ret.
Qed.

Lemma ref_udp_safe k id :
  hoare (table_room k)
    (let! s := socket_by_id id in let! _ := slift (inner_udp_mut s) in sret id) (table_room k).
Proof.
  apply (hoare_bind _ (table_room k)); [apply socket_by_id_safe| |done]. intros s.
  apply (hoare_bind _ (table_room k)); [apply hoare_lift| |done].
  - apply inner_udp_no_panic.
  - intros _. apply hoare_ret.
Qed.

(** A new socket, bound to a port. *)
Lemma insert_bind_safe {A} k kind port (rest : Z -> SR SocketTable A) :
  0 <= k -> is_uint 16 port = true -> (forall id, hoare (table_room k) (rest id) (table_room k)) ->
  hoare (table_room (k + 1))
    (let! id := insert_new_socket kind (kind_protocol kind) in
     do! bind_port id (Some port) in rest id) (table_room k).
Proof.
  intros Hk Hp Hrest t [Hwf Hn]. pose proof (tw_next t Hwf).
  rewrite (sbind_run _ _ t (st_next_id t) (with_new_socket t (fresh_socket kind)))
    by (apply insert_new_socket_run; lia).
  refine (hoare_bind (fun t' => table_room k t' /\ forall s, st_table t' !! st_next_id t = Some s -> sk_port s = 0)
    (table_room k) (table_room k) _ _ _ _ _ _ _).
  - apply bind_unbound_safe. by intros q [= <-].
  - intros _. apply Hrest.
  - done.
  - split.
    + split; [apply with_new_socket_wf; [done|lia|apply fresh_socket_ok]|cbn; lia].
    + cbn. intros s. rewrite lookup_insert_eq. by intros [= <-].
Qed.

Lemma tcp_by_port_safe k local_port remote_addr remote_port :
  0 <= k -> is_uint 16 local_port = true ->
  hoare (table_room (k + 1)) (tcp_socket_mut_by_port local_port remote_addr remote_port) (table_room k).
Proof.
  intros Hk Hp t Ht. unfold tcp_socket_mut_by_port.
  pose proof (table_room_mono (k + 1) k t ltac:(lia) Ht) as Ht'.
  destruct (find_tcp_socket_by_port_and_addr _ _ _ _) as [id|]; [by apply ref_tcp_safe|].
  pose proof (by_port_safe (k + 1) local_port Stream t Ht) as [H1 H2].
  destruct (socket_id_by_port_and_type local_port Stream t) as [[id|e|] t1]; cbn [fst snd] in *; [|clear H2|done].
  - apply ref_tcp_safe. apply (table_room_mono (k + 1)); [lia|done].
  - apply (insert_bind_safe k Stream local_port (fun id =>
      let! s := socket_by_id id in let! _ := slift (inner_tcp_mut s) in sret id)); [done..| |done].
    intros id. apply ref_tcp_safe.
Qed.

Lemma udp_by_port_safe k port :
  0 <= k -> is_uint 16 port = true ->
  hoare (table_room (k + 1)) (udp_socket_mut_by_port port) (table_room k).
Proof.
  intros Hk Hp t Ht. unfold udp_socket_mut_by_port.
  pose proof (by_port_safe (k + 1) port Dgram t Ht) as [H1 H2].
  destruct (socket_id_by_port_and_type port Dgram t) as [[id|e|] t1]; cbn [fst snd] in *; [|clear H2|done].
  - apply ref_udp_safe. apply (table_room_mono (k + 1)); [lia|done].
  - apply (insert_bind_safe k Dgram port (fun id =>
      let! s := socket_by_id id in let! _ := slift (inner_udp_mut s) in sret id)); [done..| |done].
    intros id. apply ref_udp_safe.
Qed.

(** A new socket that is set up before anything refers to it. *)
Lemma insert_setup_safe {A B} k kind (f : SR Socket A) (rest : A -> SR SocketTable B) :
  0 <= k -> hoare socket_ok f socket_ok -> (forall a, hoare (table_room k) (rest a) (table_room k)) ->
  hoare (table_room (k + 1))
    (let! id := insert_new_socket kind (kind_protocol kind) in
     let! a := socket_mut_by_id id f in rest a) (table_room k).
Proof.
  intros Hk Hf Hrest t [Hwf Hn]. pose proof (tw_next t Hwf).
  rewrite (sbind_run _ _ t (st_next_id t) (with_new_socket t (fresh_socket kind)))
    by (apply insert_new_socket_run; lia).
  destruct (Hf (fresh_socket kind) (fresh_socket_ok kind)) as [Hok Hnp].
  destruct (f (fresh_socket kind)) as [r s'] eqn:E. cbn [fst snd] in *.
  assert (socket_mut_by_id (st_next_id t) f (with_new_socket t (fresh_socket kind))
          = (r, with_new_socket t s')) as Hrun.
  { rewrite (socket_mut_by_id_run _ _ (fresh_socket kind) f r s'); [|cbn; apply lookup_insert_eq|done].
    f_equal. unfold with_new_socket, set_table. cbn. f_equal. apply insert_insert_eq. }
  assert (table_room k (with_new_socket t s')) as Hroom.
  { split; [by apply with_new_socket_wf; [|lia|]|cbn; lia]. }
  destruct r as [a|e|]; [|unfold sbind; by rewrite Hrun|done].
  rewrite (sbind_run _ _ _ _ _ Hrun). by apply Hrest.
Qed.

Lemma with_tcp_ok {A} (m : SR TcpSocket A) :
  hoare tcp_inv m tcp_inv -> hoare socket_ok (with_tcp m) socket_ok.
Proof.
  intros Hm s Hs. destruct (with_tcp_safe m (sk_kind s) (sk_port s) Hm s) as [[H _] Hp]; done.
Qed.

Lemma receive_on_listen_safe k packet remote_addr :
  0 <= k -> is_uint 16 (tcp_dst_port packet) = true -> addr_wf remote_addr ->
  hoare (table_room (k + 1)) (receive_on_listen packet remote_addr) (table_room k).
Proof.
  intros Hk Hp Ha. unfold receive_on_listen. destruct (flags_syn packet); cbn [negb].
  - apply (insert_setup_safe k Stream); [done| |].
    + apply (hoare_bind _ socket_ok); [| |done].
      * apply hoare_modify. intros s [_ Hs]. by split.
      * intros _. apply with_tcp_ok.
        hoare_go; apply hoare_modify; intros s Hs; eapply tcp_step_inv; [done| |done|]; by constructor.
    + intros [a b]. apply (hoare_bind _ (table_room k)); [apply hoare_lift| |done]; [|intros; apply hoare_ret].
      by destruct (tcp_new_with_ok (tcp_dst_port packet) (tcp_src_port packet) a b
        (Z.lor FLAGS_SYN FLAGS_ACK) 65535 0 mss_options [] ltac:(cbn; lia)) as (p & -> & _).
  - intros t Ht. split; [by apply (table_room_mono (k + 1)); [lia|]|done].
Qed.

(** The whole TCP input path. *)
Lemma receive_tcp_table_safe k packet remote_addr n :
  0 <= k -> is_uint 16 (tcp_dst_port packet) = true -> addr_wf remote_addr ->
  table_room (k + 2) (nm_socket_table n) ->
  table_room k (nm_socket_table (snd (receive_tcp_packet packet remote_addr n)))
  /\ fst (receive_tcp_packet packet remote_addr n) <> Panic.
Proof.
  intros Hk Hp Ha Ht. unfold receive_tcp_packet, on_table. set (t := nm_socket_table n) in *.
  destruct (tcp_by_port_safe (k + 1) (tcp_dst_port packet) remote_addr (tcp_src_port packet) ltac:(lia) Hp t)
    as [H1 H2]; [by replace (k + 1 + 1) with (k + 2) by lia|].
  destruct (tcp_socket_mut_by_port _ _ _ t) as [[id|e|] t1]; cbn [fst snd] in *; [|clear H2|done].
  2:{ split; [|done]. by apply (table_room_mono (k + 1)); [lia|]. }
  match goal with |- context [?m t1] => set (prog := m) end.
  assert (hoare (table_room (k + 1)) prog (table_room k)) as Hprog.
  { unfold prog. assert (forall s, table_room (k + 1) s -> table_room k s) as Hm
      by (intros s; apply table_room_mono; lia).
    apply (hoare_bind _ (table_room (k + 1))); [|intros st|done].
    { apply on_tcp_socket_safe. hoare_go. }
    destruct st; first [by apply receive_on_listen_safe
      | apply (hoare_conseq _ (table_room k) _ (table_room k)); [|done..];
        first [apply hoare_ret | apply on_tcp_socket_safe; eauto with kernel]]. }
  destruct (Hprog t1 H1) as [H3 H4]. by destruct (prog t1) as [r t2].
Qed.

(** *** The manager *)

(** A consistent manager: the table has room for [k] ids and no ARP entry is
    from the future. *)
Definition net_room (k : Z) (n : NetworkManager) : Prop :=
  table_room k (nm_socket_table n) /\ addr_wf (nm_my_ipv4_addr n)
  /\ 0 <= nm_uptime n < 2 ^ 63 * NANOS_PER_SEC
  /\ forall a m t, nm_arp_table n !! a = Some (m, t) -> 0 <= t <= nm_uptime n.

Lemma net_room_mono k k' n : k' <= k -> net_room k n -> net_room k' n.
Proof. intros Hk (H1 & H2). split; [by apply (table_room_mono k)|done]. Qed.

Lemma on_table_safe {A} k k' (m : SR SocketTable A) :
  hoare (table_room k) m (table_room k') -> hoare (net_room k) (on_table m) (net_room k').
Proof.
  intros Hm n (H1 & H2). destruct (Hm _ H1) as [H3 H4]. unfold on_table.
  destruct (m (nm_socket_table n)) as [r t]. by split.
Qed.

Lemma on_tcp_safe {A} k id (m : SR TcpSocket A) :
  hoare tcp_inv m tcp_inv -> hoare (net_room k) (on_tcp id m) (net_room k).
Proof. intros Hm. by apply on_table_safe, on_tcp_socket_safe. Qed.

Lemma my_mac_addr_safe k : hoare (net_room k) my_mac_addr (net_room k).
Proof. intros n Hn. unfold my_mac_addr, sbind, sget, slift. cbn. by destruct (nm_my_mac_addr n). Qed.

#[export] Hint Resolve on_table_safe on_tcp_safe my_mac_addr_safe socket_by_id_safe : kernel.

Lemma push_safe k f : hoare (net_room k) (push_eth_frame_to_tx_queue f) (net_room k).
Proof.
  intros n Hn. unfold push_eth_frame_to_tx_queue, sbind, sget. cbn. by destruct (nm_tx_locked n).
Qed.

#[export] Hint Resolve push_safe : kernel.

Lemma send_eth_payload_safe k p d t : hoare (net_room k) (send_eth_payload p d t) (net_room k).
Proof. unfold send_eth_payload. hoare_go. Qed.

#[export] Hint Resolve send_eth_payload_safe : kernel.

Lemma arp_insert_room k n a m :
  net_room k n -> net_room k (set_arp_table (<[a := (m, nm_uptime n)]> (nm_arp_table n)) n).
Proof.
  intros (H1 & H2 & H3 & H4). do 3 (split; [done|]). cbn. intros b x t.
  destruct (decide (b = a)) as [->|Hne].
  - rewrite lookup_insert_eq. intros [= <- <-]. lia.
  - rewrite lookup_insert_ne by done. apply H4.
Qed.

Lemma resolve_mac_addr_safe k a : hoare (net_room k) (resolve_mac_addr a) (net_room k).
Proof.
  unfold resolve_mac_addr, send_arp_packet. apply hoare_get_bind. intros n0 n [Hn ->].
  match goal with |- context [sbind my_mac_addr ?f] => set (request := sbind my_mac_addr f) end.
  assert (hoare (net_room k) request (net_room k)) as Hreq by (unfold request; hoare_go).
  destruct (nm_arp_table n0 !! a) as [[[mac|] last]|] eqn:E.
  - done.
  - pose proof Hn as (_ & _ & H3 & H4). pose proof (H4 _ _ _ E) as Hlast.
    unfold sbind at 1 3, slift. unfold duration_add.
    destruct (Z.ltb_spec (last + NANOS_PER_SEC) (2 ^ 64 * NANOS_PER_SEC)) as [_|Hbad];
      [|unfold NANOS_PER_SEC in *; lia].
    destruct (nm_uptime n0 <? last + NANOS_PER_SEC); [done|]. apply Hreq. by apply arp_insert_room.
  - apply Hreq. by apply arp_insert_room.
Qed.

#[export] Hint Resolve resolve_mac_addr_safe : kernel.

Lemma ok_or_no_panic {A} (e : Error_) (o : option A) : ok_or e o <> Panic.
Proof. by destruct o. Qed.

#[export] Hint Resolve ok_or_no_panic : kernel.

Lemma send_ipv4_safe k p a : hoare (net_room k) (send_ipv4 p a) (net_room k).
Proof. unfold send_ipv4. hoare_go. Qed.

#[export] Hint Resolve send_ipv4_safe : kernel.

(** Wrapping a segment or a datagram of at most 65000 bytes does not overflow
    a length field. *)
Lemma tcp_to_ipv4_ok my dst p :
  addr_wf my -> addr_wf dst -> (length (tcp_options p) <= 43)%nat ->
  Z.of_nat (length (tcp_data p)) <= 65000 -> tcp_to_ipv4 my dst p <> Panic.
Proof.
  intros Hm Hd Ho Hl. unfold tcp_to_ipv4, TcpPacket_calc_checksum_with_ipv4, Ipv4Packet_new_with.
  pose proof (length_tcp_vec p) as Hlen.
  destruct (pseudo_header_sum_run my dst 6 (length (TcpPacket_to_vec (tcp_set_checksum p 0)))) as [-> _];
    [done|done|lia|rewrite tcp_set_checksum_vec, Hlen; lia|].
  cbn [obind Ipv4Payload_to_vec]. rewrite !tcp_set_checksum_vec, Hlen.
  rewrite wrap_small by (apply is_uint_spec; lia). unfold uadd.
  destruct (Z.ltb_spec (20 + Z.of_nat (20 + length (tcp_options p) + length (tcp_data p))) (2 ^ 16)); [done|lia].
Qed.

Lemma length_udp_vec p : length (UdpPacket_to_vec p) = (8 + length (udp_data p))%nat.
Proof. unfold UdpPacket_to_vec. autorewrite with kernel_len. lia. Qed.

Lemma udp_to_ipv4_ok my dst p :
  addr_wf my -> addr_wf dst -> Z.of_nat (length (udp_data p)) <= 65000 -> udp_to_ipv4 my dst p <> Panic.
Proof.
  intros Hm Hd Hl. unfold udp_to_ipv4, UdpPacket_calc_checksum_with_ipv4, Ipv4Packet_new_with.
  destruct (pseudo_header_sum_run my dst 17 (length (UdpPacket_to_vec (udp_set_checksum p 0)))) as [-> _];
    [done|done|lia|rewrite length_udp_vec; cbn; lia|].
  cbn [obind Ipv4Payload_to_vec]. rewrite length_udp_vec. cbn [udp_set_checksum udp_data].
  rewrite wrap_small by (apply is_uint_spec; lia). unfold uadd.
  destruct (Z.ltb_spec (20 + Z.of_nat (8 + length (udp_data p))) (2 ^ 16)); [done|lia].
Qed.

(** Send a segment built from the fields of a TCP socket in the invariant. *)
Lemma send_segment_safe {A} k src dst seq ack flags data dst_addr (rest : SR NetworkManager A) :
  addr_wf dst_addr -> Z.of_nat (length data) <= 65000 -> hoare (net_room k) rest (net_room k) ->
  hoare (net_room k)
    (let! packet := slift (TcpPacket_new_with src dst seq ack flags 65535 0 [] data) in
     let! n := sget in
     let! ipv4_packet := slift (tcp_to_ipv4 (nm_my_ipv4_addr n) dst_addr packet) in
     do! send_ipv4 ipv4_packet dst_addr in rest) (net_room k).
Proof.
  intros Ha Hl Hrest. destruct (tcp_new_with_ok src dst seq ack flags 65535 0 [] data ltac:(cbn; lia))
    as (p & Hp & Ho & Hd). intros n Hn. rewrite Hp.
  rewrite (sbind_run _ _ n p n), (sbind_run sget _ n n n) by done.
  assert (tcp_to_ipv4 (nm_my_ipv4_addr n) dst_addr p <> Panic) as Hip.
  { apply tcp_to_ipv4_ok; [apply Hn|done|done|by rewrite Hd]. }
  revert n Hn Hip. intros n Hn Hip.
  assert (hoare (net_room k)
    (let! ipv4_packet := slift (tcp_to_ipv4 (nm_my_ipv4_addr n) dst_addr p) in
     do! send_ipv4 ipv4_packet dst_addr in rest) (net_room k)) as Hh; [|by apply Hh].
  hoare_go.
Qed.

(** *** The operations of the system calls *)

(** Reading a socket does not change the table. *)
Lemma on_table_read {A} (m : SR SocketTable A) n :
  snd (m (nm_socket_table n)) = nm_socket_table n -> on_table m n = (fst (m (nm_socket_table n)), n).
Proof.
  unfold on_table. destruct (m (nm_socket_table n)) as [r t]. cbn. intros ->. by destruct n.
Qed.

Lemma tcp_socket_of_run id n :
  net_room 0 n ->
  (exists e, tcp_socket_of id n = (Err e, n))
  \/ exists port t, tcp_socket_of id n = (Ok (port, t), n) /\ tcp_inv t.
Proof.
  intros [[Hwf _] _]. unfold tcp_socket_of. destruct (st_table (nm_socket_table n) !! id) as [s|] eqn:Hs.
  - pose proof (tw_sockets _ Hwf _ _ Hs) as [_ Hok].
    assert (forall t, nm_socket_table n = t -> (let! socket := socket_by_id id in
        let! tcp_socket := slift (inner_tcp_mut socket) in
        sret (sk_port socket, tcp_socket)) t
      = match inner_tcp_mut s with Ok x => (Ok (sk_port s, x), t) | Err e => (Err e, t) | Panic => (Panic, t) end) as Hrun.
    { intros t <-. rewrite (sbind_run _ _ _ _ _ (socket_by_id_run _ _ _ Hs)). unfold sbind, slift.
      by destruct (inner_tcp_mut s). }
    specialize (Hrun _ eq_refl). rewrite inner_tcp_mut_eq in Hrun.
    rewrite on_table_read; rewrite Hrun; [|by destruct (sk_kind s), (sk_inner s)].
    destruct (sk_kind s), (sk_inner s); cbn; eauto.
  - left. rewrite on_table_read; unfold sbind; rewrite (socket_by_id_none _ _ Hs); cbn; eauto.
Qed.

Lemma send_tcp_packet_safe k id data :
  0 <= k -> Z.of_nat (length data) <= 65000 -> hoare (net_room k) (send_tcp_packet id data) (net_room k).
Proof.
  intros Hk Hl n Hn. unfold send_tcp_packet.
  destruct (tcp_socket_of_run id n (net_room_mono k 0 n Hk Hn)) as [(e & E)|(port & t & E & Hinv)].
  { unfold sbind. by rewrite E. }
  rewrite (sbind_run _ _ _ _ _ E). cbv beta iota. destruct Hinv as (_ & _ & _ & _ & Haddr).
  destruct (negb _); [done|]. destruct (ts_dst_port t) as [dp|]; [|done].
  destruct (ts_dst_ipv4_addr t) as [da|]; [|done]. specialize (Haddr da eq_refl).
  unfold ok_or. rewrite (sbind_run _ _ n dp n), (sbind_run _ _ n da n) by done.
  revert n Hn E. intros n Hn _. revert n Hn.
  apply send_segment_safe; [done|done|]. destruct data; eauto with kernel.
Qed.

Lemma send_tcp_syn_safe k id : 0 <= k -> hoare (net_room k) (send_tcp_syn id) (net_room k).
Proof.
  intros Hk n Hn. unfold send_tcp_syn.
  destruct (tcp_socket_of_run id n (net_room_mono k 0 n Hk Hn)) as [(e & E)|(port & t & E & Hinv)].
  { unfold sbind. by rewrite E. }
  rewrite (sbind_run _ _ _ _ _ E). cbv beta iota. destruct Hinv as (_ & _ & _ & _ & Haddr).
  destruct (negb _); [done|]. destruct (ts_dst_port t) as [dp|]; [|done].
  destruct (ts_dst_ipv4_addr t) as [da|]; [|done]. specialize (Haddr da eq_refl).
  unfold ok_or. rewrite (sbind_run _ _ n dp n), (sbind_run _ _ n da n) by done.
  destruct (tcp_new_with_ok port dp (ts_seq_num t) 0 FLAGS_SYN 65535 0 [] [] ltac:(cbn; lia))
    as (p & Hp & Ho & Hd). rewrite Hp, (sbind_run _ _ n p n), (sbind_run sget _ n n n) by done.
  assert (tcp_to_ipv4 (nm_my_ipv4_addr n) da p <> Panic) as Hip.
  { apply tcp_to_ipv4_ok; [apply Hn|done|done|by rewrite Hd]. }
  destruct (tcp_to_ipv4 (nm_my_ipv4_addr n) da p) as [q|e|]; [|done..].
  rewrite (sbind_run _ _ n q n) by done. by apply send_ipv4_safe.
Qed.

Lemma send_tcp_fin_safe k id : 0 <= k -> hoare (net_room k) (send_tcp_fin id) (net_room k).
Proof.
  intros Hk n Hn. unfold send_tcp_fin. destruct (st_table (nm_socket_table n) !! id) as [s|] eqn:Hs.
  2:{ unfold sbind, on_table. rewrite (socket_by_id_none _ _ Hs). cbn. by destruct n. }
  rewrite (sbind_run _ _ n s n) by (rewrite on_table_read; rewrite (socket_by_id_run _ _ _ Hs); done).
  destruct Hn as [[Hwf Hr] Hn']. pose proof (tw_sockets _ Hwf _ _ Hs) as [_ Hok].
  assert (net_room k n) as Hn by (by split).
  rewrite inner_tcp_mut_eq. destruct (sk_kind s), (sk_inner s) as [t|u]; try done.
  destruct Hok as (_ & _ & _ & _ & Haddr).
  destruct (negb _); [done|]. destruct (ts_dst_port t) as [dp|]; [|done].
  destruct (ts_dst_ipv4_addr t) as [da|]; [|done]. specialize (Haddr da eq_refl).
  unfold ok_or. rewrite (sbind_run _ _ n dp n), (sbind_run _ _ n da n) by done.
  apply send_segment_safe; [done|cbn; lia| |done]. apply on_tcp_safe; eauto with kernel.
Qed.

Lemma send_udp_safe k src dst a data :
  addr_wf a -> Z.of_nat (length data) <= 65000 -> hoare (net_room k) (send_udp_packet src dst a data) (net_room k).
Proof.
  intros Ha Hl n Hn. unfold send_udp_packet, UdpPacket_new_with, uadd.
  rewrite wrap_small by (apply is_uint_spec; lia).
  destruct (Z.ltb_spec (8 + Z.of_nat (length data)) (2 ^ 16)); [|lia]. cbn [obind].
  rewrite (sbind_run sget _ n n n) by done.
  match goal with |- context [slift (Ok ?p)] => set (q := p) end.
  rewrite (sbind_run _ _ n q n) by done.
  assert (udp_to_ipv4 (nm_my_ipv4_addr n) a q <> Panic) as Hq by (by apply udp_to_ipv4_ok; [apply Hn| |]).
  destruct (udp_to_ipv4 _ a q) as [ip|e|]; [|done..].
  rewrite (sbind_run _ _ n ip n) by done. by apply send_ipv4_safe.
Qed.

Lemma bind_socket_safe k id addr port :
  0 <= k -> (forall q, port = Some q -> is_uint 16 q = true) ->
  hoare (net_room k) (bind_socket_v4 id addr port) (net_room k).
Proof.
  intros Hk Hq. apply on_table_safe. intros t Ht. destruct (st_table t !! id) as [s|] eqn:Hs.
  2:{ unfold sbind. by rewrite (socket_by_id_none _ _ Hs). }
  rewrite (sbind_run _ _ _ _ _ (socket_by_id_run _ _ _ Hs)).
  destruct (Z.eqb_spec (sk_port s) 0) as [H0|H0]; cbn [negb]; [|done].
  refine (hoare_bind (fun t => table_room k t /\ forall s, st_table t !! id = Some s -> sk_port s = 0)
    (table_room k) (table_room k) _ _ _ _ _ t _); [by apply bind_unbound_safe| |done|].
  - intros _. apply on_socket_safe. intros kind p. apply hoare_modify. intros x (H1 & H2 & H3). by split_and!.
  - split; [done|]. intros x Hx. congruence.
Qed.

Lemma connect_safe k id a port : addr_wf a -> hoare (net_room k) (connect_tcp_v4 id a port) (net_room k).
Proof.
  intros Ha. apply on_table_safe. intros t Ht. destruct (st_table t !! id) as [s|] eqn:Hs.
  2:{ unfold sbind. by rewrite (socket_by_id_none _ _ Hs). }
  rewrite (sbind_run _ _ _ _ _ (socket_by_id_run _ _ _ Hs)).
  refine (hoare_bind (fun t => table_room k t /\ st_table t !! id = Some s)
    (table_room k) (table_room k) _ _ _ _ _ t _); [| |done|done].
  - destruct (Z.eqb_spec (sk_port s) 0) as [H0|H0].
    + eapply hoare_conseq; [by apply (bind_unbound_safe k id None)| |done].
      intros x [H1 H2]. split; [done|]. intros y Hy. congruence.
    + by intros x [H1 H2].
  - intros _. apply on_tcp_socket_safe. by apply start_active_safe.
Qed.

Lemma listen_safe k id : hoare (net_room k) (listen_tcp_v4 id) (net_room k).
Proof.
  apply on_table_safe, on_socket_safe. intros kind port.
  apply hoare_get_bind. intros s0. cbv zeta. destruct (sk_port s0 =? 0).
  { intros s [H _]. split; [exact H|discriminate]. }
  eapply hoare_conseq; [apply (with_tcp_safe _ kind port), start_passive_safe|by intros s []|done].
Qed.

Lemma recv_tcp_safe k id buf : hoare (net_room k) (recv_tcp_packet id buf) (net_room k).
Proof. apply on_tcp_safe. unfold recv_buffered. hoare_go. Qed.

Lemma recvfrom_safe k id buf : hoare (net_room k) (recvfrom_udp_v4 id buf) (net_room k).
Proof.
  apply on_table_safe, on_socket_safe. intros kind port. apply with_udp_safe. intros u.
  unfold read_buf, sbind, sget. destruct (0 <? _)%nat; done.
Qed.

Lemma accept_safe k id : hoare (net_room k) (accept_tcp_v4 id) (net_room k).
Proof.
  apply on_table_safe. hoare_go.
Qed.

(** *** Received packets *)

(** A reply carries no data and at most the options of a SYN-ACK. *)
Definition small_reply (r : Result (option TcpPacket)) : Prop :=
  forall p, r = Ok (Some p) -> (length (tcp_options p) <= 43)%nat /\ tcp_data p = [].

Lemma small_new_with src dst seq ack flags options p :
  (length options <= 40)%nat -> TcpPacket_new_with src dst seq ack flags 65535 0 options [] = Ok p ->
  (length (tcp_options p) <= 43)%nat /\ tcp_data p = [].
Proof.
  intros Hl Hp. destruct (tcp_new_with_ok src dst seq ack flags 65535 0 options [] Hl) as (q & E & H1 & H2).
  rewrite Hp in E. by injection E as ->.
Qed.

Lemma on_socket_result {A} id (m : SR TcpSocket A) t a :
  fst (socket_mut_by_id id (with_tcp m) t) = Ok a -> exists s, fst (m s) = Ok a.
Proof.
  unfold socket_mut_by_id, with_tcp, socket_by_id, sbind, sget, slift.
  destruct (st_table t !! id) as [s|]; cbn; [|done]. rewrite inner_tcp_mut_eq.
  destruct (sk_kind s), (sk_inner s) as [x|x]; cbn; try done. exists x. by destruct (m x).
Qed.

Lemma receive_tcp_small packet remote_addr n : small_reply (fst (receive_tcp_packet packet remote_addr n)).
Proof.
  intros p. unfold receive_tcp_packet, on_table.
  destruct (tcp_socket_mut_by_port _ _ _ _) as [[id|e|] t1]; [|done..].
  match goal with |- context [?m t1] => destruct (m t1) as [r t2] eqn:E end. cbn. intros ->.
  apply sbind_ok in E as (st & t' & _ & E).
  assert (forall m : SR TcpSocket (option TcpPacket),
    (forall s, small_reply (fst (m s))) -> socket_mut_by_id id (with_tcp m) t' = (Ok (Some p), t2) ->
    (length (tcp_options p) <= 43)%nat /\ tcp_data p = []) as Hon.
  { intros m Hm Hr. destruct (on_socket_result id m t' (Some p)) as [s Hs]; [by rewrite Hr|]. by eapply Hm. }
  destruct st; try done.
  - unfold receive_on_listen in E. destruct (negb _); [done|].
    apply sbind_ok in E as (i & t3 & _ & E). apply sbind_ok in E as ([a b] & t4 & _ & E).
    apply sbind_ok in E as (q & t5 & Hq & E). injection E as -> _. apply slift_ok in Hq as [Hq _].
    by apply small_new_with in Hq; [|cbn; lia].
  - apply (Hon _) in E; [done|]. intros s q Hq. unfold receive_on_syn_received in Hq.
    destruct (negb _); [done|]. destruct (sbind _ _ s) as [r s'] eqn:Er. cbn in Hq. subst r.
    by apply sbind_ok in Er as (? & ? & _ & Er).
  - apply (Hon _) in E; [done|]. intros s q Hq. unfold receive_on_syn_sent in Hq.
    destruct (negb _ || _); [done|]. destruct (sbind _ _ s) as [r s'] eqn:Er. cbn in Hq. subst r.
    apply sbind_ok in Er as (? & ? & _ & Er). apply sbind_ok in Er as (? & ? & _ & Er).
    apply sbind_ok in Er as (? & ? & Hr & Er). injection Er as -> _. apply slift_ok in Hr as [Hr _].
    by apply small_new_with in Hr; [|cbn; lia].
  - apply (Hon _) in E; [done|]. intros s q Hq. unfold receive_on_established in Hq.
    destruct (sbind _ _ s) as [r s'] eqn:Er. cbn in Hq. subst r.
    do 3 apply sbind_ok in Er as (? & ? & _ & Er). destruct (_ || _); [|done].
    apply sbind_ok in Er as (? & ? & _ & Er).
    apply sbind_ok in Er as (? & ? & Hr & Er). injection Er as -> _. apply slift_ok in Hr as [Hr _].
    by apply small_new_with in Hr; [|cbn; lia].
Qed.

(** What the parser hands to the manager: bytes, of a size that fits a frame, and
    no UDP datagram with a wrong length field. *)
Definition payload_ok (p : EthernetPayload) : Prop :=
  match p with
  | IpPayload q =>
      addr_wf (ip_src_addr q) /\ bytes (ip_data q) /\ Z.of_nat (length (ip_data q)) <= 65000
      /\ (ip_protocol q = Udp -> (8 <= length (ip_data q))%nat ->
          8 <= udp_len_field (ip_data q) <= Z.of_nat (length (ip_data q)))
  | _ => True
  end.

Lemma receive_arp_safe k packet : hoare (net_room k) (receive_arp_packet packet) (net_room k).
Proof.
  unfold receive_arp_packet. apply (hoare_bind _ (net_room k)); [apply hoare_lift| |done].
  { unfold ArpPacket_op, ArpOperation_try_from. repeat case_match; done. }
  intros op. apply hoare_get_bind. intros n0.
  apply (hoare_bind _ (net_room k)); [|hoare_go|done].
  intros n [Hn ->]. split; [by apply arp_insert_room|done].
Qed.

Lemma ip_new_with_ok a b c d proto s t p :
  Z.of_nat (length (Ipv4Payload_to_vec p)) <= 65500 -> Ipv4Packet_new_with a b c d proto s t p <> Panic.
Proof.
  intros Hl. unfold Ipv4Packet_new_with, uadd. rewrite wrap_small by (apply is_uint_spec; lia).
  destruct (Z.ltb_spec (20 + Z.of_nat (length (Ipv4Payload_to_vec p))) (2 ^ 16)); [done|lia].
Qed.

Lemma receive_tcp_safe k packet remote_addr :
  0 <= k -> is_uint 16 (tcp_dst_port packet) = true -> addr_wf remote_addr ->
  hoare (net_room (k + 2)) (receive_tcp_packet packet remote_addr) (net_room k).
Proof.
  intros Hk Hp Ha n [Ht Hn]. destruct (receive_tcp_table_safe k packet remote_addr n Hk Hp Ha Ht) as [H1 H2].
  split; [|done]. revert H1. unfold receive_tcp_packet, on_table.
  match goal with |- context [let '(r, t) := ?x in _] => destruct x as [r t] end. intros H1. by split.
Qed.

Lemma receive_udp_safe k packet :
  0 <= k -> is_uint 16 (udp_dst_port packet) = true ->
  hoare (net_room (k + 2)) (receive_udp_packet packet) (net_room k).
Proof.
  intros Hk Hp. apply on_table_safe. apply (hoare_bind _ (table_room (k + 1))).
  - replace (k + 2) with (k + 1 + 1) by lia. apply udp_by_port_safe; [lia|done].
  - intros id. apply (hoare_bind _ (table_room k)); [|intros _; apply hoare_ret|done].
    eapply hoare_conseq; [|intros s; apply (table_room_mono (k + 1) k); lia|done].
    apply on_socket_safe. intros kind port. by apply with_udp_safe.
  - intros s. apply table_room_mono. lia.
Qed.

(** Printing a packet that was parsed gives at most what was received. *)
Lemma ip_payload_ok q p :
  payload_ok (IpPayload q) -> Ipv4Packet_payload q = Ok p ->
  match p with
  | TcpPayload t => tcp_wf t /\ tcp_sendable t
  | UdpPayload u => is_uint 16 (udp_dst_port u) = true
  | IcmpPayload i => icmp_wf i /\ Z.of_nat (length (IcmpPacket_to_vec i)) <= 65000
  end.
Proof.
  intros (Ha & Hb & Hl & Hudp) Hp. unfold Ipv4Packet_payload in Hp.
  destruct (ip_protocol q); [..|done]; apply obind_ok in Hp as (x & Hx & [= <-]).
  - destruct (icmp_print_parse _ _ Hb Hx) as [H1 H2]. split; [done|]. by rewrite H2.
  - destruct (tcp_print_parse _ _ Hb Hx) as [H1 H2]. split; [done|].
    split_and!; [apply H1|apply H1|rewrite H2; lia].
  - destruct (Nat.lt_ge_cases (length (ip_data q)) 8) as [Hs|Hs].
    { unfold UdpPacket_try_from in Hx. by destruct (Nat.ltb_spec (length (ip_data q)) 8); [|lia]. }
    rewrite (udp_parse_outcome _ Hb Hs) in Hx. destruct (_ && _); [|done]. injection Hx as <-.
    cbn [udp_dst_port]. destruct (ip_data q) as [|x0 [|x1 [|x2 [|x3 l]]]]; cbn in Hs; try lia.
    rewrite !Forall_cons in Hb. cbn. apply u16_uint; tauto.
Qed.

Lemma ip_payload_no_panic q : payload_ok (IpPayload q) -> Ipv4Packet_payload q <> Panic.
Proof.
  intros (Ha & Hb & Hl & Hudp). unfold Ipv4Packet_payload. destruct (ip_protocol q); [..|done].
  - pose proof (icmp_parse_no_panic _ Hb). by destruct (IcmpPacket_try_from _).
  - pose proof (tcp_parse_no_panic _ Hb). by destruct (TcpPacket_try_from _).
  - destruct (Nat.lt_ge_cases (length (ip_data q)) 8) as [Hs|Hs].
    { unfold UdpPacket_try_from. by destruct (Nat.ltb_spec (length (ip_data q)) 8); [|lia]. }
    specialize (Hudp eq_refl Hs). rewrite (udp_parse_outcome _ Hb Hs). by bool_cases; cbn; try lia.
Qed.

(** A TCP reply is checksummed without overflow and is small. *)
Lemma tcp_reply_ok my src p :
  addr_wf my -> addr_wf src -> (length (tcp_options p) <= 43)%nat -> tcp_data p = [] ->
  exists q, TcpPacket_calc_checksum_with_ipv4 p my src = Ok q
    /\ Z.of_nat (length (TcpPacket_to_vec q)) <= 65500.
Proof.
  intros Hm Hs Ho Hd. unfold TcpPacket_calc_checksum_with_ipv4.
  destruct (pseudo_header_sum_run my src 6 (length (TcpPacket_to_vec (tcp_set_checksum p 0)))) as [-> _];
    [done|done|lia| |]; rewrite ?tcp_set_checksum_vec, ?length_tcp_vec, ?Hd; cbn [length]; [lia|].
  eexists. split; [done|]. rewrite !tcp_set_checksum_vec, length_tcp_vec, Hd. cbn [length]. lia.
Qed.

Lemma receive_ipv4_safe k packet :
  0 <= k -> payload_ok (IpPayload packet) ->
  hoare (net_room (k + 2)) (receive_ipv4_packet packet) (net_room k).
Proof.
  intros Hk Hok n Hn. pose proof (net_room_mono (k + 2) k n ltac:(lia) Hn) as Hn'. unfold receive_ipv4_packet.
  assert (Ipv4Packet_validate packet <> Panic) as Hv by (unfold Ipv4Packet_validate; repeat case_match; done).
  destruct (Ipv4Packet_validate packet) as [[]|e|]; [|done..].
  rewrite (sbind_run _ _ n tt n), (sbind_run sget _ n n n) by done. case_bool_decide as Hdst; cbn [negb]; [|done].
  pose proof (ip_payload_no_panic packet Hok) as Hpp. pose proof (ip_payload_ok packet) as Hpo.
  destruct (Ipv4Packet_payload packet) as [p|e|]; [|done..]. specialize (Hpo p Hok eq_refl).
  rewrite (sbind_run _ _ n p n) by done. destruct Hok as (Ha & Hb & Hl & _). pose proof Hn as (_ & Hmy & _).
  assert (forall rp n1, net_room k n1 -> match rp with Some x => Z.of_nat (length (Ipv4Payload_to_vec x)) <= 65500 | None => True end ->
    let r := (match rp with
     | Some reply_payload =>
        let! ipv4_packet := slift (Ipv4Packet_new_with (ip_version_ihl packet) (ip_dscp_ecn packet)
          (ip_id packet) (ip_flags packet) (ip_protocol packet) (nm_my_ipv4_addr n)
          (ip_src_addr packet) reply_payload) in
        sret (Some (Ipv4Packet_calc_checksum ipv4_packet))
     | None => sret None
     end) n1 in net_room k (snd r) /\ fst r <> Panic) as Hend.
  { intros [x|] n1 Hn1 Hx; [|done]. unfold sbind, slift.
    pose proof (ip_new_with_ok (ip_version_ihl packet) (ip_dscp_ecn packet) (ip_id packet) (ip_flags packet)
      (ip_protocol packet) (nm_my_ipv4_addr n) (ip_src_addr packet) x Hx). by destruct (Ipv4Packet_new_with _ _ _ _ _ _ _ x). }
  destruct p as [i|t|u].
  - rewrite (sbind_run _ _ n (IcmpPayload <$> receive_icmp_packet i) n) by done. apply Hend; [done|].
    unfold receive_icmp_packet. destruct (icmp_ty i); cbn [fmap option_fmap option_map Ipv4Payload_to_vec]; try done.
    destruct Hpo as [_ Hi]. unfold IcmpPacket_to_vec in *. autorewrite with kernel_len in *. cbn in *. lia.
  - destruct Hpo as [Ht Hs].
    destruct (tcp_verify_iff t (ip_src_addr packet) (ip_dst_addr packet) Hs Ha) as (b & -> & _); [by rewrite Hdst|].
    assert (forall s : NetworkManager, slift (E := Error_) (Ok b) s = (Ok b, s)) as Hsl by done.
    destruct b; cbn [negb]; [|by rewrite (sbind_run _ _ n None n) by done].
    destruct (receive_tcp_safe k t (ip_src_addr packet) Hk (tcp_wf_dst t Ht) Ha n Hn) as [Hn1 Hp1].
    pose proof (receive_tcp_small t (ip_src_addr packet) n) as Hsm.
    destruct (receive_tcp_packet t (ip_src_addr packet) n) as [[[r|]|e|] n1] eqn:Er; cbn [fst snd] in *; [| | |done].
    + destruct (Hsm r eq_refl) as [H1 H2].
      destruct (tcp_reply_ok (nm_my_ipv4_addr n) (ip_src_addr packet) r Hmy Ha H1 H2) as (q & Hq & Hql).
      rewrite (sbind_run _ _ n (Some (TcpPayload q)) n1).
      * by apply (Hend (Some (TcpPayload q)) n1).
      * rewrite (sbind_run _ _ _ _ _ (Hsl n)). cbn [negb]. rewrite (sbind_run _ _ _ _ _ Er), Hq. done.
    + rewrite (sbind_run _ _ n None n1).
      * done.
      * rewrite (sbind_run _ _ _ _ _ (Hsl n)). cbn [negb]. by rewrite (sbind_run _ _ _ _ _ Er).
    + unfold sbind. rewrite Hsl. cbn [negb]. by rewrite Er.
  - destruct (receive_udp_safe k u Hk Hpo n Hn) as [Hn1 Hp1].
    destruct (receive_udp_packet u n) as [[x|e|] n1] eqn:Er; cbn [fst snd] in *; [|unfold sbind; by rewrite Er|done].
    rewrite (sbind_run _ _ n None n1) by (by rewrite (sbind_run _ _ _ _ _ Er)). done.
Qed.

Lemma receive_eth_safe k p :
  0 <= k -> payload_ok p -> hoare (net_room (k + 2)) (receive_eth_payload p) (net_room k).
Proof.
  intros Hk Hok. unfold receive_eth_payload. assert (forall n, net_room (k + 2) n -> net_room k n) as Hm
    by (intros n; apply net_room_mono; lia).
  destruct p as [q|q|].
  - apply (hoare_conseq _ (net_room k) _ (net_room k)); [|done..].
    apply (hoare_bind _ (net_room k)); [apply receive_arp_safe|intros; apply hoare_ret|done].
  - apply (hoare_bind _ (net_room k)); [by apply receive_ipv4_safe|intros; apply hoare_ret|done].
  - intros n Hn. split; [by apply Hm|done].
Qed.

(** *** Any sequence of operations *)

(** Everything that happens to the manager: system calls, received frames, the
    passing of time, the state of the card's lock. *)
Inductive net_op :=
| OpSetMac (mac : EthernetAddress)
| OpCreate (kind : SocketType)
| OpClose (id : Z)
| OpBind (id : Z) (addr : option Ipv4Addr) (port : option Z)
| OpListen (id : Z)
| OpAccept (id : Z)
| OpConnect (id : Z) (addr : Ipv4Addr) (port : Z)
| OpSendSyn (id : Z)
| OpSend (id : Z) (data : list Z)
| OpRecv (id : Z) (buf : list Z)
| OpSendTo (id : Z) (addr : Ipv4Addr) (port : Z) (data : list Z)
| OpRecvFrom (id : Z) (buf : list Z)
| OpResolve (addr : Ipv4Addr)
| OpReceive (payload : EthernetPayload)
| OpTick (now : Z)
| OpTxLock (locked : bool).

Definition set_surroundings (locked : bool) (now : Z) (n : NetworkManager) : NetworkManager :=
  {| nm_my_ipv4_addr := nm_my_ipv4_addr n; nm_my_mac_addr := nm_my_mac_addr n;
     nm_arp_table := nm_arp_table n; nm_socket_table := nm_socket_table n;
     nm_tx_queue := nm_tx_queue n; nm_tx_locked := locked; nm_uptime := now |}.

(** The result of an operation goes to its caller; only a panic stops the
    sequence. *)
Definition run_op (op : net_op) : SR NetworkManager unit :=
  match op with
  | OpSetMac mac => smodify (set_my_mac_addr mac)
  | OpCreate kind => signore (create_new_socket kind)
  | OpClose id => signore (close_socket id)
  | OpBind id addr port => signore (bind_socket_v4 id addr port)
  | OpListen id => signore (listen_tcp_v4 id)
  | OpAccept id => signore (accept_tcp_v4 id)
  | OpConnect id addr port => signore (connect_tcp_v4 id addr port)
  | OpSendSyn id => signore (send_tcp_syn id)
  | OpSend id data => signore (send_tcp_packet id data)
  | OpRecv id buf => signore (recv_tcp_packet id buf)
  | OpSendTo id addr port data => signore (sendto_udp_v4 id addr port data)
  | OpRecvFrom id buf => signore (recvfrom_udp_v4 id buf)
  | OpResolve addr => signore (resolve_mac_addr addr)
  | OpReceive payload => signore (receive_eth_payload payload)
  | OpTick now => smodify (fun n => set_surroundings (nm_tx_locked n) (Z.max (nm_uptime n) now) n)
  | OpTxLock locked => smodify (fun n => set_surroundings locked (nm_uptime n) n)
  end.

Definition op_ok (op : net_op) : Prop :=
  match op with
  | OpBind _ _ port => forall q, port = Some q -> is_uint 16 q = true
  | OpConnect _ addr _ => addr_wf addr
  | OpSend _ data => Z.of_nat (length data) <= 65000
  | OpSendTo _ addr _ data => addr_wf addr /\ Z.of_nat (length data) <= 65000
  | OpReceive payload => payload_ok payload
  | OpTick now => now < 2 ^ 63 * NANOS_PER_SEC
  | _ => True
  end.

Lemma close_socket_safe k id : 0 <= k -> hoare (net_room k) (close_socket id) (net_room k).
Proof.
  intros Hk. apply (hoare_bind _ (net_room k)); [by apply hoare_ignore, send_tcp_fin_safe| |done].
  intros _. apply on_table_safe, remove_socket_safe.
Qed.

Lemma sendto_safe k id addr port data :
  addr_wf addr -> Z.of_nat (length data) <= 65000 ->
  hoare (net_room k) (sendto_udp_v4 id addr port data) (net_room k).
Proof.
  intros Ha Hl. apply (hoare_bind _ (net_room k)); [apply on_table_safe, socket_by_id_safe| |done].
  intros s. by apply send_udp_safe.
Qed.

#[export] Hint Resolve close_socket_safe sendto_safe recvfrom_safe recv_tcp_safe send_tcp_packet_safe
  send_tcp_syn_safe connect_safe accept_safe listen_safe bind_socket_safe resolve_mac_addr_safe : kernel.

Lemma run_op_safe k op : 0 <= k -> op_ok op -> hoare (net_room (k + 2)) (run_op op) (net_room k).
Proof.
  intros Hk Hok. assert (forall n, net_room (k + 2) n -> net_room k n) as Hm
    by (intros n; apply net_room_mono; lia).
  destruct op; cbn [run_op op_ok] in *;
    try (apply hoare_ignore); try (by apply receive_eth_safe);
    try (apply (hoare_conseq _ (net_room k) _ (net_room k)); [|done..]; solve [eauto with kernel]).
  - apply hoare_modify. intros n Hn. exact (Hm n Hn).
  - apply (hoare_conseq _ (net_room (k + 1)) _ (net_room k)); [|intros n; apply net_room_mono; lia|done].
    apply on_table_safe, (create_safe k kind Hk).
  - apply (hoare_conseq _ (net_room k) _ (net_room k)); [|done..].
    destruct Hok. by apply sendto_safe.
  - apply hoare_modify. intros n Hn. apply Hm in Hn as (H1 & H2 & H3 & H4).
    split; [done|]. split; [done|]. cbn. split; [lia|]. intros a m t Ht. specialize (H4 a m t Ht). lia.
  - apply hoare_modify. intros n Hn. exact (Hm n Hn).
Qed.

Lemma run_ops_safe ops n :
  Forall op_ok ops -> net_room (2 * Z.of_nat (length ops)) n ->
  exists n', sfor ops run_op n = (Ok tt, n') /\ net_room 0 n'.
Proof.
  intros Hops. revert n. induction Hops as [|op ops Hop Hops IH]; intros n Hn.
  { exists n. by split. }
  destruct (run_op_safe (2 * Z.of_nat (length ops)) op ltac:(lia) Hop n) as [H1 H2].
  { apply (net_room_mono (2 * Z.of_nat (length (op :: ops)))); [cbn [length]; lia|done]. }
  cbn [sfor]. unfold sbind.
  assert (forall e, fst (run_op op n) <> Err e) as Hne.
  { intros e. destruct op; cbn; unfold signore; repeat case_match; done. }
  destruct (run_op op n) as [[[]|e|] n1]; cbn in *; [by apply IH|by destruct (Hne e)|done].
Qed.

(** ** Looking up a connection *)

(** The test of [find_tcp_socket_by_port_and_addr]. *)
Definition connection_of (local_port : Z) (remote_addr : Ipv4Addr) (remote_port : Z) (s : Socket) : bool :=
  bool_decide (sk_kind s = Stream) && (sk_port s =? local_port)
  && match sk_inner s with
     | SocketTcp t =>
         match ts_dst_ipv4_addr t, ts_dst_port t with
         | Some addr, Some port => bool_decide (addr = remote_addr) && (port =? remote_port)
         | _, _ => false
         end
     | _ => false
     end.

Lemma find_connection_spec t lp ra rp :
  match find_tcp_socket_by_port_and_addr t lp ra rp with
  | Some id => exists s, st_table t !! id = Some s /\ connection_of lp ra rp s = true
  | None => forall id s, st_table t !! id = Some s -> connection_of lp ra rp s = false
  end.
Proof.
  unfold find_tcp_socket_by_port_and_addr. destruct (List.find _ _) as [[id s]|] eqn:E; cbn.
  - apply List.find_some in E as [Hin Hf]. apply list_elem_of_In, elem_of_btree_iter in Hin.
    exists s. by split.
  - intros id s Hs. pose proof (List.find_none _ _ E (id, s)) as Hn. apply Hn.
    by apply list_elem_of_In, elem_of_btree_iter.
Qed.

(** The only connection of a table is found. *)
Lemma find_connection_unique t lp ra rp id s :
  st_table t !! id = Some s -> connection_of lp ra rp s = true ->
  (forall i x, i <> id -> st_table t !! i = Some x -> connection_of lp ra rp x = false) ->
  find_tcp_socket_by_port_and_addr t lp ra rp = Some id.
Proof.
  intros Hs Hc Hu. pose proof (find_connection_spec t lp ra rp) as Hf.
  destruct (find_tcp_socket_by_port_and_addr t lp ra rp) as [i|].
  - destruct Hf as (x & Hx & Hcx). destruct (decide (i = id)) as [->|Hne]; [done|].
    by rewrite (Hu i x Hne Hx) in Hcx.
  - by rewrite (Hf id s Hs) in Hc.
Qed.

(** A TCP socket of the table. *)
Definition tcp_at (t : SocketTable) (id : Z) (port : Z) (x : TcpSocket) : Prop :=
  exists addr, st_table t !! id
    = Some {| sk_port := port; sk_addr := addr; sk_inner := SocketTcp x; sk_kind := Stream |}.

Lemma on_socket_run {A} t id port x (m : SR TcpSocket A) r x' :
  tcp_at t id port x -> m x = (r, x') ->
  exists t', socket_mut_by_id id (with_tcp m) t = (r, t') /\ tcp_at t' id port x'
    /\ (forall i, i <> id -> st_table t' !! i = st_table t !! i)
    /\ st_tcp_port_map t' = st_tcp_port_map t /\ st_udp_port_map t' = st_udp_port_map t
    /\ st_next_id t' = st_next_id t.
Proof.
  intros [addr Hs] Hm. eexists. split.
  { apply (socket_mut_by_id_run t id _ (with_tcp m) r
      {| sk_port := port; sk_addr := addr; sk_inner := SocketTcp x'; sk_kind := Stream |} Hs).
    unfold with_tcp, sbind, sget, slift. rewrite inner_tcp_mut_eq. cbn. by rewrite Hm. }
  cbn. split_and!; [exists addr; cbn; apply lookup_insert_eq| |done..].
  intros i Hi. by apply lookup_insert_ne.
Qed.

(** The socket that [tcp_socket_mut_by_port] finds. *)
Lemma by_port_connection t id lp ra rp x :
  tcp_at t id lp x -> find_tcp_socket_by_port_and_addr t lp ra rp = Some id ->
  tcp_socket_mut_by_port lp ra rp t = (Ok id, t).
Proof.
  intros [addr Hs] Hf. unfold tcp_socket_mut_by_port. rewrite Hf.
  rewrite (sbind_run _ _ _ _ _ (socket_by_id_run _ _ _ Hs)). unfold sbind, slift.
  by rewrite inner_tcp_mut_eq.
Qed.

Lemma by_port_listener t id lp ra rp x :
  tcp_at t id lp x -> find_tcp_socket_by_port_and_addr t lp ra rp = None ->
  st_tcp_port_map t !! lp = Some id ->
  tcp_socket_mut_by_port lp ra rp t = (Ok id, t).
Proof.
  intros [addr Hs] Hf Hp. unfold tcp_socket_mut_by_port. rewrite Hf.
  unfold socket_id_by_port_and_type. unfold sbind at 1, sget, slift at 1. rewrite Hp. cbn [ok_or].
  rewrite (sbind_run _ _ _ _ _ (socket_by_id_run _ _ _ Hs)). unfold sbind, slift.
  by rewrite inner_tcp_mut_eq.
Qed.

(** One segment for a socket that is found. *)
Lemma receive_tcp_at n t1 id port x packet ra :
  tcp_socket_mut_by_port (tcp_dst_port packet) ra (tcp_src_port packet) (nm_socket_table n) = (Ok id, t1) ->
  tcp_at t1 id port x ->
  receive_tcp_packet packet ra n
  = let '(r, t2) :=
      match ts_state x with
      | Listen => receive_on_listen packet ra t1
      | SynSent => socket_mut_by_id id (with_tcp (receive_on_syn_sent packet)) t1
      | SynReceived => socket_mut_by_id id (with_tcp (receive_on_syn_received packet)) t1
      | Established => socket_mut_by_id id (with_tcp (receive_on_established packet)) t1
      | _ => (Ok None, t1)
      end in (r, set_socket_table t2 n).
Proof.
  intros Hm Hx. unfold receive_tcp_packet, on_table. rewrite Hm.
  assert (socket_mut_by_id id (with_tcp (let! s := sget in sret (ts_state s))) t1 = (Ok (ts_state x), t1)) as Hst.
  { destruct Hx as [addr Hs].
    rewrite (socket_mut_by_id_run t1 id _ _ (Ok (ts_state x))
      {| sk_port := port; sk_addr := addr; sk_inner := SocketTcp x; sk_kind := Stream |} Hs).
    - f_equal. unfold set_table. rewrite insert_id by done. by destruct t1.
    - unfold with_tcp, sbind, sget, slift. by rewrite inner_tcp_mut_eq. }
  rewrite (sbind_run _ _ _ _ _ Hst). by destruct (ts_state x).
Qed.

(** ** The three-way handshake *)

(** The socket a SYN creates, and the SYN-ACK that answers it. *)
Definition syn_received (packet : TcpPacket) (ra : Ipv4Addr) : TcpSocket :=
  {| ts_state := SynReceived; ts_src_port := Some (tcp_dst_port packet); ts_dst_ipv4_addr := Some ra;
     ts_dst_port := Some (tcp_src_port packet); ts_seq_num := 1;
     ts_next_recv_seq := wrapping_add 32 (tcp_seq_num packet) 1; ts_buf := [] |}.

Definition syn_ack_of (packet : TcpPacket) : TcpPacket :=
  {| tcp_src_port := tcp_dst_port packet; tcp_dst_port := tcp_src_port packet; tcp_seq_num := 0;
     tcp_ack_num := wrapping_add 32 (tcp_seq_num packet) 1; tcp_flags := 0x6012; tcp_window_size := 65535;
     tcp_checksum := 0; tcp_urgent_ptr := 0; tcp_options := [2; 4; 5; 180]; tcp_data := [] |}.

Lemma receive_on_listen_run t packet ra :
  4096 <= st_next_id t -> st_next_id t + 1 < 2 ^ 64 -> flags_syn packet = true ->
  receive_on_listen packet ra t
  = (Ok (Some (syn_ack_of packet)),
     with_new_socket t {| sk_port := tcp_dst_port packet; sk_addr := None;
                          sk_inner := SocketTcp (syn_received packet ra); sk_kind := Stream |}).
Proof.
  intros H1 H2 Hsyn. unfold receive_on_listen. rewrite Hsyn. cbn [negb].
  rewrite (sbind_run _ _ _ _ _ (insert_new_socket_run t Stream H1 H2)).
  match goal with |- context [socket_mut_by_id _ ?g] => set (f := g) end.
  assert (f (fresh_socket Stream) = (Ok (0, wrapping_add 32 (tcp_seq_num packet) 1),
    {| sk_port := tcp_dst_port packet; sk_addr := None;
       sk_inner := SocketTcp (syn_received packet ra); sk_kind := Stream |})) as Hf by (unfold f; reflexivity).
  rewrite (sbind_run _ _ _ _ _ (socket_mut_by_id_run _ _ _ f _ _ (lookup_insert_eq _ _ _) Hf)).
  cbn [with_new_socket st_table]. unfold sbind, slift. cbn. unfold set_table, with_new_socket. cbn.
  by rewrite insert_insert_eq.
Qed.

(** A connection of a table in the state [x], found by its peer. *)
Definition connected (n : NetworkManager) (id lp : Z) (ra : Ipv4Addr) (rp : Z) (x : TcpSocket) : Prop :=
  tcp_at (nm_socket_table n) id lp x
  /\ find_tcp_socket_by_port_and_addr (nm_socket_table n) lp ra rp = Some id.

Lemma connected_step n id lp ra rp x x' packet (m : SR TcpSocket (option TcpPacket)) r :
  tcp_dst_port packet = lp -> tcp_src_port packet = rp -> connected n id lp ra rp x ->
  match ts_state x with
  | SynSent => m = receive_on_syn_sent packet
  | SynReceived => m = receive_on_syn_received packet
  | Established => m = receive_on_established packet
  | _ => False
  end ->
  m x = (r, x') -> ts_dst_ipv4_addr x' = ts_dst_ipv4_addr x -> ts_dst_port x' = ts_dst_port x ->
  exists n', receive_tcp_packet packet ra n = (r, n') /\ tcp_at (nm_socket_table n') id lp x'
    /\ (forall i, i <> id -> st_table (nm_socket_table n') !! i = st_table (nm_socket_table n) !! i)
    /\ st_tcp_port_map (nm_socket_table n') = st_tcp_port_map (nm_socket_table n).
Proof.
  intros Hd Hs [Hx Hf] Hm Hrun E1 E2. subst lp rp.
  pose proof (by_port_connection _ _ _ _ _ _ Hx Hf) as Hby.
  rewrite (receive_tcp_at n _ id _ x packet ra Hby Hx).
  destruct (on_socket_run _ _ _ _ m r x' Hx Hrun) as (t' & Ht & H1 & H2 & H3 & _).
  exists (set_socket_table t' n). split; [|done].
  destruct (ts_state x); try done; subst m; by rewrite Ht.
Qed.

(** ** Properties *)

(** C1: the network stack is safe, except for the UDP datagrams whose length field does not
    match.  Start from a new manager and apply any
    sequence of system calls, received frames, clock ticks and lock changes, with
    arguments of the types the callers have (16-bit ports, at most 65000 bytes
    per call) and frames whose UDP datagrams have a truthful length field (a false
    one panics, [Packet.UdpPacket_length_field]): no operation
    panics, and at the end the socket table is consistent (every registered port
    leads to a live socket of that kind and port, no port is both TCP and UDP,
    every TCP socket is in its state machine's invariant).  The sequence is
    shorter than the [2^63] at which the socket id counter would wrap. *)
Theorem net_operations_safe my ops :
  addr_wf my -> Forall op_ok ops -> Z.of_nat (length ops) < 2 ^ 62 ->
  exists n, sfor ops run_op (NetworkManager_new my) = (Ok tt, n) /\ table_wf (nm_socket_table n).
Proof.
  intros Hm Hops Hl. destruct (run_ops_safe ops (NetworkManager_new my) Hops) as (n & H1 & [[H2 _] _]).
  - split; [split; [apply SocketTable_new_wf|cbn; lia]|]. split; [done|]. cbn.
    split; [unfold NANOS_PER_SEC; lia|]. intros a m t. by rewrite lookup_empty.
  - by exists n.
Qed.

(** C20: accepting a connection.  A SYN from a new peer for a port on which a
    socket listens is answered with a SYN-ACK that acknowledges the peer's
    sequence number plus one and offers the MSS option; the peer's ACK then
    establishes the connection: a new socket with the listener's port and the
    peer's address, expecting the peer's next byte, while the listener keeps
    listening. *)
Theorem tcp_passive_handshake n lid lport lsock packet ack ra :
  table_wf (nm_socket_table n) -> st_next_id (nm_socket_table n) + 1 < 2 ^ 64 ->
  tcp_at (nm_socket_table n) lid lport lsock -> ts_state lsock = Listen ->
  st_tcp_port_map (nm_socket_table n) !! lport = Some lid ->
  find_tcp_socket_by_port_and_addr (nm_socket_table n) lport ra (tcp_src_port packet) = None ->
  tcp_dst_port packet = lport -> flags_syn packet = true ->
  tcp_dst_port ack = lport -> tcp_src_port ack = tcp_src_port packet -> flags_ack ack = true ->
  let id := st_next_id (nm_socket_table n) in
  exists n1 n2 x,
    receive_tcp_packet packet ra n = (Ok (Some (syn_ack_of packet)), n1)
    /\ receive_tcp_packet ack ra n1 = (Ok None, n2)
    /\ tcp_at (nm_socket_table n2) id lport x
    /\ ts_state x = Established /\ ts_dst_ipv4_addr x = Some ra
    /\ ts_dst_port x = Some (tcp_src_port packet) /\ ts_seq_num x = 1
    /\ ts_next_recv_seq x = wrapping_add 32 (tcp_seq_num packet) 1
    /\ tcp_at (nm_socket_table n2) lid lport lsock.
Proof.
  intros Hwf Hroom Hl Hls Hmap Hnone Hd Hsyn Hd' Hs' Hack id. pose proof (tw_next _ Hwf) as Hnx.
  subst lport. pose proof (by_port_listener _ _ _ _ _ _ Hl Hnone Hmap) as Hby.
  pose proof (receive_tcp_at n _ lid _ lsock packet ra Hby Hl) as Hr1. rewrite Hls in Hr1.
  rewrite receive_on_listen_run in Hr1 by (done || lia). set (t1 := with_new_socket _ _) in Hr1.
  set (x := syn_received packet ra) in *. fold id in t1.
  assert (tcp_at t1 id (tcp_dst_port packet) x) as Hx by (exists None; apply lookup_insert_eq).
  assert (lid <> id) as Hne.
  { destruct Hl as [addr Hl]. pose proof (tw_ids _ Hwf _ _ Hl). unfold id. lia. }
  assert (forall i, i <> id -> st_table t1 !! i = st_table (nm_socket_table n) !! i) as Hoth
    by (intros i Hi; by apply lookup_insert_ne).
  assert (connected (set_socket_table t1 n) id (tcp_dst_port packet) ra (tcp_src_port packet) x) as Hconn.
  { split; [done|]. destruct Hx as [addr Hx]. apply (find_connection_unique _ _ _ _ id _ Hx).
    - unfold connection_of. cbn. by rewrite !Z.eqb_refl, !bool_decide_true.
    - intros i y Hi Hy. cbn in Hy. rewrite Hoth in Hy by done.
      pose proof (find_connection_spec (nm_socket_table n) (tcp_dst_port packet) ra (tcp_src_port packet)) as Hn0.
      rewrite Hnone in Hn0. by apply (Hn0 i). }
  destruct (connected_step _ _ _ _ _ _ (set_state Established x) ack (receive_on_syn_received ack) (Ok None) Hd' Hs' Hconn)
    as (n2 & Hr2 & Hx2 & Ho2 & _); [done| |done|done|].
  { unfold receive_on_syn_received. by rewrite Hack. }
  exists (set_socket_table t1 n), n2, (set_state Established x). split_and!; try done.
  destruct Hl as [addr Hl]. exists addr. rewrite Ho2 by done. cbn. by rewrite Hoth.
Qed.

(** A manager with a socket listening on port 80. *)
Definition demo_net : NetworkManager :=
  snd (sfor [OpSetMac (82, 84, 0, 18, 52, 86); OpCreate Stream; OpBind 4096 None (Some 80); OpListen 4096]
         run_op (NetworkManager_new LOCAL_ADDR)).

Definition demo_syn : TcpPacket :=
  {| tcp_src_port := 50000; tcp_dst_port := 80; tcp_seq_num := 4294967295; tcp_ack_num := 0;
     tcp_flags := 0x5002; tcp_window_size := 65535; tcp_checksum := 0; tcp_urgent_ptr := 0;
     tcp_options := []; tcp_data := [] |}.

Definition demo_ack : TcpPacket :=
  {| tcp_src_port := 50000; tcp_dst_port := 80; tcp_seq_num := 0; tcp_ack_num := 1;
     tcp_flags := 0x5010; tcp_window_size := 65535; tcp_checksum := 0; tcp_urgent_ptr := 0;
     tcp_options := []; tcp_data := [] |}.

Lemma demo_ops_ok :
  Forall op_ok [OpSetMac (82, 84, 0, 18, 52, 86); OpCreate Stream; OpBind 4096 None (Some 80); OpListen 4096].
Proof. repeat constructor. intros q [= <-]. done. Qed.

Lemma addr_wf_local : addr_wf LOCAL_ADDR.
Proof. repeat constructor. Qed.

Lemma demo_net_wf : table_wf (nm_socket_table demo_net).
Proof.
  destruct (run_ops_safe _ (NetworkManager_new LOCAL_ADDR) demo_ops_ok) as (n & H1 & [[H2 _] _]).
  - split; [split; [apply SocketTable_new_wf|cbn; lia]|]. split; [apply addr_wf_local|]. cbn.
    split; [unfold NANOS_PER_SEC; lia|]. intros a m t. by rewrite lookup_empty.
  - unfold demo_net. by rewrite H1.
Qed.

Lemma net_operations_safe_witness :
  exists n, sfor [OpSetMac (82, 84, 0, 18, 52, 86); OpCreate Stream; OpBind 4096 None (Some 80); OpListen 4096]
              run_op (NetworkManager_new LOCAL_ADDR) = (Ok tt, n) /\ table_wf (nm_socket_table n).
Proof.
  exact (net_operations_safe LOCAL_ADDR _ addr_wf_local demo_ops_ok ltac:(simpl; lia)).
Defined.

Lemma tcp_passive_handshake_witness :
  exists n1 n2, receive_tcp_packet demo_syn (10, 0, 2, 2) demo_net = (Ok (Some (syn_ack_of demo_syn)), n1)
    /\ receive_tcp_packet demo_ack (10, 0, 2, 2) n1 = (Ok None, n2).
Proof.
  destruct (tcp_passive_handshake demo_net 4096 80
    (snd (start_passive 80 TcpSocket_new)) demo_syn demo_ack (10, 0, 2, 2)) as (n1 & n2 & x & H1 & H2 & _).
  - exact demo_net_wf.
  - reflexivity.
  - exists None. reflexivity.
  - reflexivity.
  - reflexivity.
  - reflexivity.
  - reflexivity.
  - reflexivity.
  - reflexivity.
  - reflexivity.
  - reflexivity.
  - exists n1, n2. split; [exact H1|exact H2].
Defined.

(** answering ARP.  Any ARP packet with a known operation teaches the
    sender's address, so that resolving it afterwards gives the address at once
    and sends nothing; a request for our address is answered with our MAC
    address, directed to the sender, and a request for another is not. *)
Theorem arp_learn_and_reply packet op mac n :
  nm_my_mac_addr n = Some mac -> ArpPacket_op packet = Ok op ->
  exists n',
    receive_arp_packet packet n
    = (Ok (if bool_decide (op = ArpRequest /\ arp_target_ipv4_addr packet = nm_my_ipv4_addr n)
           then Some (ArpPacket_new_with ArpReply mac (nm_my_ipv4_addr n)
                        (arp_sender_eth_addr packet) (arp_sender_ipv4_addr packet))
           else None), n')
    /\ resolve_mac_addr (arp_sender_ipv4_addr packet) n' = (Ok (Some (arp_sender_eth_addr packet)), n')
    /\ forall a, a <> arp_sender_ipv4_addr packet -> nm_arp_table n' !! a = nm_arp_table n !! a.
Proof.
  intros Hmac Hop. unfold receive_arp_packet. rewrite Hop.
  rewrite (sbind_run _ _ n op n), (sbind_run sget _ n n n) by done.
  set (n' := set_arp_table _ n). rewrite (sbind_run _ _ n tt n') by done.
  exists n'. split_and!.
  - rewrite bool_decide_and. case_bool_decide; [|done]. case_bool_decide; [|done].
    cbn [andb negb]. unfold sbind, my_mac_addr, sbind, sget, slift. cbn. by rewrite Hmac.
  - unfold resolve_mac_addr, sbind, sget. cbn. by rewrite lookup_insert_eq.
  - intros a Ha. cbn. by rewrite lookup_insert_ne.
Qed.

Lemma arp_learn_and_reply_witness :
  exists n', receive_arp_packet
    (ArpPacket_new_with ArpRequest (82, 85, 10, 0, 2, 2) (10, 0, 2, 2) (0, 0, 0, 0, 0, 0) LOCAL_ADDR) demo_net
  = (Ok (Some (ArpPacket_new_with ArpReply (82, 84, 0, 18, 52, 86) LOCAL_ADDR
                 (82, 85, 10, 0, 2, 2) (10, 0, 2, 2))), n').
Proof.
  destruct (arp_learn_and_reply
    (ArpPacket_new_with ArpRequest (82, 85, 10, 0, 2, 2) (10, 0, 2, 2) (0, 0, 0, 0, 0, 0) LOCAL_ADDR)
    ArpRequest (82, 84, 0, 18, 52, 86) demo_net) as (n' & H & _).
  - reflexivity.
  - reflexivity.
  - exists n'. exact H.
Defined.

(** answering ping.  An ICMP echo request in a valid IPv4 packet for our
    address (plain header, of a size that fits a frame) is answered with a
    well-formed IPv4 packet to its sender whose header checksum verifies and
    whose payload parses as an echo reply with the request's identifier, sequence
    number and data and a correct ICMP checksum; the state does not change. *)
Theorem icmp_echo_reply n packet icmp :
  addr_wf (nm_my_ipv4_addr n) -> ip_wf packet -> Z.shiftr (ip_version_ihl packet) 4 = 4 -> ip_ttl packet <> 0 ->
  ip_dst_addr packet = nm_my_ipv4_addr n -> ip_protocol packet = Icmp ->
  Z.of_nat (length (ip_data packet)) <= 65000 ->
  IcmpPacket_try_from (ip_data packet) = Ok icmp -> icmp_ty icmp = EchoRequest ->
  exists reply icmp',
    receive_ipv4_packet packet n = (Ok (Some reply), n)
    /\ ip_wf reply /\ ip_src_addr reply = nm_my_ipv4_addr n /\ ip_dst_addr reply = ip_src_addr packet
    /\ fold_checksum (checksum_words (take 20 (Ipv4Packet_to_vec reply))) = 0
    /\ Ipv4Packet_payload reply = Ok (IcmpPayload icmp')
    /\ icmp_ty icmp' = EchoReply /\ icmp_id icmp' = icmp_id icmp /\ icmp_seq icmp' = icmp_seq icmp
    /\ icmp_data icmp' = icmp_data icmp
    /\ fold_checksum (checksum_words (IcmpPacket_to_vec icmp')) = 0.
Proof.
  intros Hmy Hip Hver Httl Hdst Hproto Hlen Hparse Hty.
  destruct (icmp_print_parse _ _ (ip_wf_data _ Hip) Hparse) as [Hi Hvec].
  assert (length (IcmpPacket_to_vec icmp) = 8 + length (icmp_data icmp))%nat as Hil
    by (unfold IcmpPacket_to_vec; autorewrite with kernel_len; cbn [length]; lia).
  set (req := icmp_set icmp EchoReply (icmp_checksum icmp)).
  assert (icmp_wf req) as Hreq by (destruct Hi; constructor; by cbn).
  destruct (icmp_calc_verifies req Hreq) as [Hw Hz]; [change (icmp_data req) with (icmp_data icmp); rewrite Hvec in Hil; lia|].
  set (r := IcmpPacket_calc_checksum req) in *.
  assert (length (IcmpPacket_to_vec r) = length (ip_data packet)) as Hrl.
  { rewrite <- Hvec, Hil. unfold IcmpPacket_to_vec. autorewrite with kernel_len.
    change (icmp_data r) with (icmp_data icmp). cbn [length]. lia. }
  set (ip0 := {| ip_version_ihl := ip_version_ihl packet; ip_dscp_ecn := ip_dscp_ecn packet;
    ip_len := 20 + Z.of_nat (length (IcmpPacket_to_vec r)); ip_id := ip_id packet; ip_flags := ip_flags packet;
    ip_ttl := 64; ip_protocol := Icmp; ip_checksum := 0; ip_src_addr := nm_my_ipv4_addr n;
    ip_dst_addr := ip_src_addr packet; ip_data := IcmpPacket_to_vec r |}).
  assert (bytes (IcmpPacket_to_vec r)) as Hrb.
  { unfold IcmpPacket_to_vec. rewrite !Forall_app. destruct Hw as [[Ht _] Hc _ _ _ Hd].
    split_and!; try apply to_be_bytes_bytes; [by repeat constructor|done]. }
  assert (ip_wf ip0) as Hip0.
  { destruct Hip. constructor; try done. change (ip_len ip0) with (20 + Z.of_nat (length (IcmpPacket_to_vec r))).
    apply is_uint_spec. lia. }
  destruct (ip_calc_verifies ip0 Hip0) as [Hipw Hipz].
  exists (Ipv4Packet_calc_checksum ip0), r. split_and!; try done.
  2:{ change (Ipv4Packet_payload (Ipv4Packet_calc_checksum ip0))
        with (let? q := IcmpPacket_try_from (IcmpPacket_to_vec r) in Ok (IcmpPayload q)).
      by rewrite icmp_parse_print. }
  unfold receive_ipv4_packet, Ipv4Packet_validate. rewrite Hver. cbn [Z.eqb negb Pos.eqb].
  destruct (Z.eqb_spec (ip_ttl packet) 0); [done|].
  rewrite (sbind_run _ _ n tt n), (sbind_run sget _ n n n) by done.
  rewrite bool_decide_true by done. cbn [negb]. unfold Ipv4Packet_payload. rewrite Hproto, Hparse. cbn [obind].
  rewrite (sbind_run _ _ n (IcmpPayload icmp) n) by done.
  rewrite (sbind_run _ _ n (Some (IcmpPayload r)) n)
    by (unfold receive_icmp_packet; rewrite Hty; done).
  unfold Ipv4Packet_new_with. cbn [Ipv4Payload_to_vec]. rewrite wrap_small by (apply is_uint_spec; lia).
  unfold uadd. destruct (Z.ltb_spec (20 + Z.of_nat (length (IcmpPacket_to_vec r))) (2 ^ 16)); [done|lia].
Qed.

Definition demo_icmp : IcmpPacket :=
  {| icmp_ty := EchoRequest; icmp_code := 0; icmp_checksum := 0; icmp_id := 7; icmp_seq := 1; icmp_data := [1; 2; 3] |}.

Definition demo_ping : Ipv4Packet :=
  {| ip_version_ihl := 0x45; ip_dscp_ecn := 0; ip_len := 31; ip_id := 1; ip_flags := 0; ip_ttl := 64;
     ip_protocol := Icmp; ip_checksum := 0; ip_src_addr := (10, 0, 2, 2); ip_dst_addr := LOCAL_ADDR;
     ip_data := IcmpPacket_to_vec demo_icmp |}.

Lemma icmp_echo_reply_witness :
  exists reply icmp', receive_ipv4_packet demo_ping demo_net = (Ok (Some reply), demo_net)
    /\ Ipv4Packet_payload reply = Ok (IcmpPayload icmp') /\ icmp_data icmp' = [1; 2; 3].
Proof.
  destruct (icmp_echo_reply demo_net demo_ping demo_icmp) as (reply & icmp' & H1 & _ & _ & _ & _ & H2 & _ & _ & _ & H3 & _).
  - exact addr_wf_local.
  - constructor; try reflexivity; try (split; reflexivity); repeat constructor.
  - reflexivity.
  - discriminate.
  - reflexivity.
  - reflexivity.
  - simpl. lia.
  - reflexivity.
  - reflexivity.
  - exists reply, icmp'. split; [exact H1|split; [exact H2|exact H3]].
Defined.

(** ** Datagrams end to end *)

(** The IPv4 packet of a datagram. *)
Lemma udp_to_ipv4_run my dst sp dp data :
  addr_wf my -> addr_wf dst -> is_uint 16 sp = true -> is_uint 16 dp = true -> bytes data ->
  Z.of_nat (length data) <= 65000 ->
  exists u ip, UdpPacket_new_with sp dp data = Ok u /\ udp_to_ipv4 my dst u = Ok ip /\ ip_wf ip
    /\ ip_dst_addr ip = dst /\ Z.shiftr (ip_version_ihl ip) 4 = 4 /\ ip_ttl ip = 64
    /\ exists c, Ipv4Packet_payload ip
       = Ok (UdpPayload {| udp_src_port := sp; udp_dst_port := dp; udp_len := 8 + Z.of_nat (length data);
                           udp_checksum := c; udp_data := data |}).
Proof.
  intros Hm Hd Hsp Hdp Hb Hl. unfold UdpPacket_new_with. rewrite wrap_small by (apply is_uint_spec; lia).
  unfold uadd at 1. destruct (Z.ltb_spec (8 + Z.of_nat (length data)) (2 ^ 16)) as [H16|]; [|lia]. cbn [obind].
  match goal with |- exists u ip, Ok ?x = _ /\ _ => set (u := x); exists u end.
  unfold udp_to_ipv4, UdpPacket_calc_checksum_with_ipv4.
  destruct (pseudo_header_sum_run my dst 17 (length (UdpPacket_to_vec (udp_set_checksum u 0)))) as [-> Hph];
    [done|done|lia|rewrite length_udp_vec; cbn; lia|]. cbn [obind].
  match goal with |- context [UdpPayload (udp_set_checksum _ ?x)] => set (c := x) end.
  assert (0 <= c < 65536) as Hc.
  { unfold c. destruct (fold_checksum_value (wrapping_add 32 (words_sum (octets my ++ octets dst) + 17
      + Z.of_nat (length (UdpPacket_to_vec (udp_set_checksum u 0)))) (checksum_words (UdpPacket_to_vec (udp_set_checksum u 0)))))
      as (r & -> & Hr & _); [|lia]. apply is_uint_spec, wrap_uint. lia. }
  set (u' := udp_set_checksum (udp_set_checksum u 0) c).
  assert (udp_wf u') as Hu.
  { constructor; cbn; try done; [|by apply is_uint_spec]. apply is_uint_spec. lia. }
  assert (bytes (UdpPacket_to_vec u')) as Hub.
  { unfold UdpPacket_to_vec. rewrite !Forall_app. split_and!; [apply to_be_bytes_bytes..|done]. }
  unfold Ipv4Packet_new_with. cbn [Ipv4Payload_to_vec]. rewrite length_udp_vec.
  change (udp_data u') with data. rewrite wrap_small by (apply is_uint_spec; lia).
  unfold uadd. destruct (Z.ltb_spec (20 + Z.of_nat (8 + length data)) (2 ^ 16)); [|lia]. cbn [obind].
  match goal with |- exists ip, _ /\ Ok (Ipv4Packet_calc_checksum ?x) = _ /\ _ => set (ip0 := x) end.
  assert (ip_wf ip0) as Hip.
  { constructor; try done.
    change (ip_len ip0) with (20 + Z.of_nat (8 + length data)). apply is_uint_spec. lia. }
  exists (Ipv4Packet_calc_checksum ip0). split; [done|]. split; [done|].
  split; [by apply ip_calc_verifies|]. split_and!; [done..|]. exists c.
  change (Ipv4Packet_payload (Ipv4Packet_calc_checksum ip0))
    with (let? q := UdpPacket_try_from (UdpPacket_to_vec u') in Ok (UdpPayload q)).
  pose proof (udp_parse_print u' [] Hu) as Hpp. rewrite app_nil_r in Hpp. by rewrite Hpp.
Qed.

(** A datagram for a bound socket is appended to its buffer. *)
Lemma receive_udp_run n id addr u packet :
  st_udp_port_map (nm_socket_table n) !! udp_dst_port packet = Some id ->
  st_table (nm_socket_table n) !! id
    = Some {| sk_port := udp_dst_port packet; sk_addr := addr; sk_inner := SocketUdp u; sk_kind := Dgram |} ->
  exists n', receive_udp_packet packet n = (Ok None, n')
    /\ st_table (nm_socket_table n') !! id
       = Some {| sk_port := udp_dst_port packet; sk_addr := addr;
                 sk_inner := SocketUdp {| us_buf := us_buf u ++ udp_data packet |}; sk_kind := Dgram |}.
Proof.
  intros Hm Hs. unfold receive_udp_packet, on_table. set (t := nm_socket_table n) in *.
  assert (udp_socket_mut_by_port (udp_dst_port packet) t = (Ok id, t)) as Hby.
  { unfold udp_socket_mut_by_port, socket_id_by_port_and_type.
    unfold sbind at 1, sget, slift at 1. rewrite Hm. cbn [ok_or].
    rewrite (sbind_run _ _ _ _ _ (socket_by_id_run _ _ _ Hs)). unfold sbind, slift. by rewrite inner_udp_mut_eq. }
  rewrite (sbind_run _ _ _ _ _ Hby).
  assert (with_udp (UdpSocket_receive (udp_data packet))
     {| sk_port := udp_dst_port packet; sk_addr := addr; sk_inner := SocketUdp u; sk_kind := Dgram |}
     = (Ok tt, {| sk_port := udp_dst_port packet; sk_addr := addr;
                  sk_inner := SocketUdp {| us_buf := us_buf u ++ udp_data packet |}; sk_kind := Dgram |})) as Hw.
  { unfold with_udp, sbind, sget, slift. by rewrite inner_udp_mut_eq. }
  rewrite (sbind_run _ _ _ _ _ (socket_mut_by_id_run _ _ _ _ _ _ Hs Hw)).
  eexists. split; [done|]. cbn. apply lookup_insert_eq.
Qed.

Lemma recvfrom_run n id port addr u buf :
  st_table (nm_socket_table n) !! id
    = Some {| sk_port := port; sk_addr := addr; sk_inner := SocketUdp u; sk_kind := Dgram |} ->
  let len := Nat.min (length buf) (length (us_buf u)) in
  exists n', recvfrom_udp_v4 id buf n = (Ok (take len (us_buf u) ++ drop len buf, Z.of_nat len), n')
    /\ st_table (nm_socket_table n') !! id
       = Some {| sk_port := port; sk_addr := addr;
                 sk_inner := SocketUdp {| us_buf := drop len (us_buf u) |}; sk_kind := Dgram |}.
Proof.
  intros Hs len. unfold recvfrom_udp_v4, on_table.
  assert (with_udp (read_buf buf) {| sk_port := port; sk_addr := addr; sk_inner := SocketUdp u; sk_kind := Dgram |}
    = (Ok (take len (us_buf u) ++ drop len buf, Z.of_nat len),
       {| sk_port := port; sk_addr := addr;
          sk_inner := SocketUdp {| us_buf := drop len (us_buf u) |}; sk_kind := Dgram |})) as Hw.
  { unfold with_udp, sbind, sget, slift. rewrite inner_udp_mut_eq. cbn [sk_kind sk_inner].
    unfold read_buf, sbind, sget. fold len. destruct (Nat.ltb_spec 0 len) as [|H0]; [done|].
    assert (len = 0)%nat as -> by lia. unfold sret, set_inner. cbn. by destruct u. }
  rewrite (socket_mut_by_id_run _ _ _ _ _ _ Hs Hw). eexists. split; [done|]. cbn. apply lookup_insert_eq.
Qed.

(** Sending with the next hop resolved. *)
Lemma send_ipv4_run n ip dst mac hop t :
  nm_my_mac_addr n = Some mac -> nm_tx_locked n = false ->
  nm_arp_table n !! target_ip (nm_my_ipv4_addr n) dst = Some (Some hop, t) ->
  send_ipv4 ip dst n
  = (Ok tt, set_tx_queue (nm_tx_queue n ++ [EthernetFrame_new_with hop mac EthIpv4 (Ipv4Packet_to_vec ip)]) n).
Proof.
  intros Hmac Hlock Harp. unfold send_ipv4, resolve_mac_addr, send_eth_payload, my_mac_addr,
    push_eth_frame_to_tx_queue, sbind, sget, slift. rewrite Harp. cbn. rewrite Hmac. cbn. by rewrite Hlock.
Qed.

(** C25: a datagram arrives.  [sendto_udp_v4] on a machine that knows the next
    hop queues one frame to that hop; the bytes the card sends for it, parsed by
    a machine with the destination address and a socket bound to the destination
    port, append the data to that socket's buffer; and [recvfrom_udp_v4] with a
    large enough buffer then returns what was buffered before followed by the
    data, and leaves the socket's buffer empty. *)
Theorem udp_end_to_end a b sid did ssock addr u dst dport data mac hop t :
  addr_wf (nm_my_ipv4_addr a) -> addr_wf dst -> is_uint 16 (sk_port ssock) = true -> is_uint 16 dport = true ->
  bytes data -> Z.of_nat (length data) <= 65000 ->
  st_table (nm_socket_table a) !! sid = Some ssock ->
  nm_my_mac_addr a = Some mac -> nm_tx_locked a = false ->
  nm_arp_table a !! target_ip (nm_my_ipv4_addr a) dst = Some (Some hop, t) ->
  nm_my_ipv4_addr b = dst ->
  st_udp_port_map (nm_socket_table b) !! dport = Some did ->
  st_table (nm_socket_table b) !! did
    = Some {| sk_port := dport; sk_addr := addr; sk_inner := SocketUdp u; sk_kind := Dgram |} ->
  exists a' b' frame v frame' p,
    sendto_udp_v4 sid dst dport data a = (Ok tt, a') /\ nm_tx_queue a' = nm_tx_queue a ++ [frame]
    /\ EthernetFrame_to_vec frame = Ok v
    /\ EthernetFrame_try_from v = Ok frame' /\ eth_dst_mac_addr frame' = hop
    /\ EthernetFrame_payload frame' = Ok p
    /\ receive_eth_payload p b = (Ok None, b')
    /\ forall buf, (length (us_buf u) + length data <= length buf)%nat ->
         exists b'', recvfrom_udp_v4 did buf b'
           = (Ok ((us_buf u ++ data) ++ drop (length (us_buf u) + length data) buf,
                  Z.of_nat (length (us_buf u) + length data)), b'')
           /\ st_table (nm_socket_table b'') !! did
              = Some {| sk_port := dport; sk_addr := addr; sk_inner := SocketUdp {| us_buf := [] |}; sk_kind := Dgram |}.
Proof.
  intros Hmy Hdst Hsp Hdp Hb Hl Hs Hmac Hlock Harp Hbmy Hbmap Hbs.
  destruct (udp_to_ipv4_run (nm_my_ipv4_addr a) dst (sk_port ssock) dport data Hmy Hdst Hsp Hdp Hb Hl)
    as (udp & ip & E1 & E2 & Hip & Hipd & Hver & Httl & c & Hpay).
  set (frame := EthernetFrame_new_with hop mac EthIpv4 (Ipv4Packet_to_vec ip)).
  destruct (eth_wire hop mac EthIpv4 (IpPayload ip)) as (v & frame' & V1 & _ & V2 & V3 & _ & _ & V4); [done|].
  set (packet := {| udp_src_port := sk_port ssock; udp_dst_port := dport; udp_len := 8 + Z.of_nat (length data);
                    udp_checksum := c; udp_data := data |}) in *.
  destruct (receive_udp_run b did addr u packet Hbmap Hbs) as (b' & Hr & Hbs').
  exists (set_tx_queue (nm_tx_queue a ++ [frame]) a), b', frame, v, frame', (IpPayload ip).
  split_and!; try done.
  - unfold sendto_udp_v4. rewrite (sbind_run _ _ a ssock a)
      by (rewrite on_table_read; rewrite (socket_by_id_run _ _ _ Hs); done).
    unfold send_udp_packet. rewrite (sbind_run sget _ a a a) by done.
    rewrite E1, (sbind_run _ _ a udp a), E2, (sbind_run _ _ a ip a) by done. by apply (send_ipv4_run a ip dst mac hop t).
  - cbn [receive_eth_payload]. rewrite (sbind_run _ _ b None b'); [done|].
    unfold receive_ipv4_packet, Ipv4Packet_validate. rewrite Hver, Httl. cbn [Z.eqb Pos.eqb negb].
    rewrite (sbind_run _ _ b tt b), (sbind_run sget _ b b b) by done.
    rewrite Hipd, bool_decide_true by done. cbn [negb]. rewrite Hpay, (sbind_run _ _ b (UdpPayload packet) b) by done.
    rewrite (sbind_run _ _ b None b') by (by rewrite (sbind_run _ _ _ _ _ Hr)). done.
  - intros buf Hbuf. destruct (recvfrom_run b' did _ _ _ buf Hbs') as (b'' & Hrr & Hbs''). exists b''.
    cbn [us_buf] in *. change (udp_data packet) with data in *. rewrite length_app in *.
    rewrite Nat.min_r in * by lia. rewrite take_ge in Hrr by (rewrite length_app; lia).
    rewrite drop_ge in Hbs'' by (rewrite length_app; lia). done.
Qed.

(** A sender with an unbound UDP socket that knows its gateway, and a receiver on
    the gateway's address with a socket bound to port 53. *)
Definition demo_sender : NetworkManager :=
  snd (sfor [OpSetMac (82, 84, 0, 18, 52, 86); OpCreate Dgram;
             OpReceive (ArpPayload (ArpPacket_new_with ArpReply (82, 85, 10, 0, 2, 2) GATEWAY_ADDR
                                      (82, 84, 0, 18, 52, 86) LOCAL_ADDR))]
         run_op (NetworkManager_new LOCAL_ADDR)).

Definition demo_receiver : NetworkManager :=
  snd (sfor [OpCreate Dgram; OpBind 4096 None (Some 53)] run_op (NetworkManager_new GATEWAY_ADDR)).

Lemma udp_end_to_end_witness :
  exists a' b' p, sendto_udp_v4 4096 GATEWAY_ADDR 53 [1; 2; 3] demo_sender = (Ok tt, a')
    /\ receive_eth_payload p demo_receiver = (Ok None, b').
Proof.
  destruct (udp_end_to_end demo_sender demo_receiver 4096 4096 (fresh_socket Dgram) None UdpSocket_new
              GATEWAY_ADDR 53 [1; 2; 3] (82, 84, 0, 18, 52, 86) (82, 85, 10, 0, 2, 2) 0)
    as (a' & b' & frame & v & frame' & p & H1 & _ & _ & _ & _ & _ & H2 & _);
    [exact addr_wf_local|repeat constructor|reflexivity|reflexivity|repeat constructor|simpl; lia|reflexivity..|].
  exists a', b', p. split; [exact H1|exact H2].
Defined.

(** Reading TCP data with a short buffer loses the rest.  When more data is
    buffered than the caller's buffer holds, [recv_tcp_packet] copies the first
    bytes and reports their number, and the socket's buffer is empty afterwards:
    the remaining bytes can never be read. *)
Theorem recv_tcp_short_buffer_loses_data n id port x buf :
  tcp_at (nm_socket_table n) id port x -> ts_state x = Established ->
  (0 < length buf < length (ts_buf x))%nat ->
  exists n', recv_tcp_packet id buf n
    = (Ok (take (length buf) (ts_buf x), Z.of_nat (length buf)), n')
    /\ tcp_at (nm_socket_table n') id port (set_buf [] x)
    /\ forall buf', exists n'', recv_tcp_packet id buf' n' = (Ok (buf', 0), n'').
Proof.
  intros Hx Hst Hlen. unfold recv_tcp_packet, on_tcp, on_table.
  assert (recv_buffered buf x = (Ok (take (length buf) (ts_buf x), Z.of_nat (length buf)), set_buf [] x)) as Hm.
  { unfold recv_buffered, reset_buf, sbind, sget, sput, sret. rewrite Hst. cbn [tcp_readable negb].
    destruct (ts_buf x) as [|y l]; [cbn in Hlen; lia|]. rewrite Nat.min_l by lia.
    by rewrite (drop_ge buf), app_nil_r by lia. }
  destruct (on_socket_run _ _ _ _ (recv_buffered buf) _ _ Hx Hm) as (t' & Ht & Hx' & _).
  exists (set_socket_table t' n). rewrite Ht. split; [done|]. split; [done|]. intros buf'.
  assert (recv_buffered buf' (set_buf [] x) = (Ok (buf', 0), set_buf [] x)) as Hm'.
  { unfold recv_buffered, reset_buf, sbind, sget, sput, sret. cbn. by rewrite Hst. }
  destruct (on_socket_run _ _ _ _ (recv_buffered buf') _ _ Hx' Hm') as (t'' & Ht' & _).
  exists (set_socket_table t'' n). cbn [nm_socket_table set_socket_table]. by rewrite Ht'.
Qed.

(** A table with one established connection that holds three bytes. *)
Definition demo_connection : NetworkManager :=
  set_socket_table
    (with_new_socket SocketTable_new
       {| sk_port := 80; sk_addr := None; sk_inner := SocketTcp (set_buf [1; 2; 3] demo_established); sk_kind := Stream |})
    (NetworkManager_new LOCAL_ADDR).

Lemma recv_tcp_short_buffer_loses_data_witness :
  exists n', recv_tcp_packet 4096 [0; 0] demo_connection = (Ok ([1; 2], 2), n')
    /\ exists n'', recv_tcp_packet 4096 [0; 0] n' = (Ok ([0; 0], 0), n'').
Proof.
  destruct (recv_tcp_short_buffer_loses_data demo_connection 4096 80 (set_buf [1; 2; 3] demo_established) [0; 0])
    as (n' & H1 & _ & H2).
  - exists None. reflexivity.
  - reflexivity.
  - simpl. lia.
  - exists n'. split; [exact H1|exact (H2 [0; 0])].
Defined.

(** a stray segment occupies a port.  A TCP segment to a port nobody uses
    creates a socket bound to that port, which is not connected to anything and
    belongs to no process: afterwards a program that asks for the port is refused,
    although it was free. *)
Theorem stray_segment_occupies_port n packet ra :
  table_wf (nm_socket_table n) -> st_next_id (nm_socket_table n) + 1 < 2 ^ 64 ->
  is_uint 16 (tcp_dst_port packet) = true -> tcp_dst_port packet <> 0 ->
  port_used (nm_socket_table n) (tcp_dst_port packet) = false ->
  find_tcp_socket_by_port_and_addr (nm_socket_table n) (tcp_dst_port packet) ra (tcp_src_port packet) = None ->
  exists n', receive_tcp_packet packet ra n = (Ok None, n')
    /\ st_next_id (nm_socket_table n') = st_next_id (nm_socket_table n) + 1
    /\ forall id s, st_table (nm_socket_table n') !! id = Some s ->
         bind_port id (Some (tcp_dst_port packet)) (nm_socket_table n')
         = (Err (with_context AlreadyExists "TCP port"), nm_socket_table n').
Proof.
  intros Hwf Hroom Hu H0 Hfree Hnone. pose proof (tw_next _ Hwf) as Hnx.
  set (t := nm_socket_table n) in *. set (p := tcp_dst_port packet) in *.
  set (t1 := with_new_socket t (fresh_socket Stream)). set (id := st_next_id t).
  assert (st_table t1 !! id = Some (fresh_socket Stream)) as Hid by apply lookup_insert_eq.
  assert (chosen_port t1 (Some p) = Ok p) as Hch.
  { unfold port_used in Hfree. apply orb_false_iff in Hfree as [F1 F2]. unfold chosen_port.
    change (default 0 (Some p)) with p. destruct (Z.eqb_spec p 0); [done|].
    change (st_tcp_port_map t1) with (st_tcp_port_map t). change (st_udp_port_map t1) with (st_udp_port_map t).
    by rewrite F1, F2. }
  set (t2 := with_bound t1 id (fresh_socket Stream) p).
  assert (tcp_at t2 id p TcpSocket_new) as Hat by (exists None; apply lookup_insert_eq).
  assert (tcp_socket_mut_by_port p ra (tcp_src_port packet) t = (Ok id, t2)) as Hby.
  { unfold tcp_socket_mut_by_port. rewrite Hnone. unfold port_used in Hfree.
    apply orb_false_iff in Hfree as [F1%bool_decide_eq_false _]. rewrite <- eq_None_not_Some in F1.
    unfold socket_id_by_port_and_type. unfold sbind at 1, sget, slift at 1. rewrite F1. cbn [ok_or].
    pose proof (insert_new_socket_run t Stream ltac:(lia) Hroom) as Hi. change (kind_protocol Stream) with Tcp in Hi.
    rewrite (sbind_run _ _ _ _ _ Hi). fold t1 id.
    pose proof (bind_port_run t1 id _ (Some p) Hid) as Hb. rewrite Hch in Hb. fold t2 in Hb.
    rewrite (sbind_run _ _ _ _ _ Hb). destruct Hat as [addr Hs].
    rewrite (sbind_run _ _ _ _ _ (socket_by_id_run _ _ _ Hs)). unfold sbind, slift. by rewrite inner_tcp_mut_eq. }
  rewrite (receive_tcp_at n t2 id p TcpSocket_new packet ra Hby Hat). cbn [ts_state TcpSocket_new].
  exists (set_socket_table t2 n). split; [done|]. split; [done|]. intros i s Hs.
  rewrite (bind_port_run _ i s (Some p) Hs). unfold chosen_port. change (default 0 (Some p)) with p.
  destruct (Z.eqb_spec p 0); [done|]. cbn [nm_socket_table set_socket_table].
  rewrite bool_decide_true; [done|]. exists id. apply lookup_insert_eq.
Qed.

Lemma stray_segment_occupies_port_witness :
  exists n', receive_tcp_packet demo_syn (10, 0, 2, 2) (NetworkManager_new LOCAL_ADDR) = (Ok None, n')
    /\ st_next_id (nm_socket_table n') = 4097.
Proof.
  destruct (stray_segment_occupies_port (NetworkManager_new LOCAL_ADDR) demo_syn (10, 0, 2, 2))
    as (n' & H1 & H2 & _);
    [exact SocketTable_new_wf|reflexivity|reflexivity|discriminate|reflexivity|reflexivity|].
  exists n'. split; [exact H1|exact H2].
Defined.
