(* ===== verification/Scheduler.v ===== *)
(** * The task scheduler ([kernel/src/task/scheduler.rs], [kernel/src/task/mod.rs])

    The run queue, the running task, the sleeping and the exited tasks, and the
    exit codes nobody has collected yet.  [TaskScheduler] is the struct behind
    the static [TASK_SCHED]; [World] adds the counter behind [TaskId::new].
    A pointer to a boxed task that an operation returns is the task it points
    to.  Debugging information ([Dwarf]) is only carried around, so its type is
    a parameter.  The loading of the program image by [Task::new] (memory,
    page table, arguments) is an input of [spawn_user_task]: an error, or the
    parts of the new task.  The switch of the machine context and the release
    of the resources of dropped tasks are outside this file; the operations
    return the tasks they switch between and the tasks they drop. *)
From Stdlib Require Import ZArith Lia.
From stdpp Require Import base gmap list strings.
From S2P Require Import Prelude KError Bitmap.

(** ** Data *)

Definition KERNEL : Z := 0.

Inductive TaskState :=
| Running
| Ready
| Sleeping
| Exited (code : Z).

(** [TaskState::default] *)
Definition TaskState_default : TaskState := Ready.

Record UserPageTable := MkUserPageTable {
  pml4_frame : option MemoryFrame;
  allocated_frames : list MemoryFrame
}.

Record TaskResource := MkTaskResource {
  page_table : UserPageTable;
  args_frame : option MemoryFrame;
  stack_frame : option MemoryFrame;
  program_frames : list MemoryFrame;
  alloc_frames : list MemoryFrame;
  created_layer_ids : list Z;
  fd_nums : list Z;
  pipe_fd : option Z * option Z * option Z
}.

(** [TaskResource::new] *)
Definition TaskResource_new (pt : UserPageTable) (args stack : option MemoryFrame)
    (program : list MemoryFrame) (pipe : option Z * option Z * option Z) : TaskResource :=
  {| page_table := pt; args_frame := args; stack_frame := stack; program_frames := program;
     alloc_frames := []; created_layer_ids := []; fd_nums := []; pipe_fd := pipe |}.

(** [Context]: the saved registers; [ctx_fpu] is the [fxsave64] area. *)
Record CpuContext := MkCpuContext {
  ctx_cr3 : Z; ctx_rip : Z; ctx_rflags : Z; ctx_reserved : Z;
  ctx_cs : Z; ctx_ss : Z; ctx_fs : Z; ctx_gs : Z;
  ctx_rax : Z; ctx_rbx : Z; ctx_rcx : Z; ctx_rdx : Z;
  ctx_rdi : Z; ctx_rsi : Z; ctx_rsp : Z; ctx_rbp : Z;
  ctx_r8 : Z; ctx_r9 : Z; ctx_r10 : Z; ctx_r11 : Z;
  ctx_r12 : Z; ctx_r13 : Z; ctx_r14 : Z; ctx_r15 : Z;
  ctx_fpu : list Z
}.

(** The registers the timer interrupt pushed. *)
Record InterruptedContext := MkInterruptedContext {
  ic_r15 : Z; ic_r14 : Z; ic_r13 : Z; ic_r12 : Z; ic_r11 : Z; ic_r10 : Z;
  ic_r9 : Z; ic_r8 : Z; ic_rbp : Z; ic_rdi : Z; ic_rsi : Z; ic_rdx : Z;
  ic_rcx : Z; ic_rbx : Z; ic_rax : Z; ic_rip : Z; ic_cs : Z; ic_rflags : Z;
  ic_rsp : Z; ic_ss : Z
}.

(** What [preempt_sched] reads from the processor itself: [cr3], the segment
    selectors and the [fxsave64] image. *)
Record CpuRegisters := MkCpuRegisters { hw_cr3 : Z; hw_fs : Z; hw_gs : Z; hw_fpu : list Z }.

(** The context of an interrupted task. *)
Definition save_interrupted (ic : InterruptedContext) (hw : CpuRegisters) (c : CpuContext)
    : CpuContext :=
  {| ctx_cr3 := hw_cr3 hw; ctx_rip := ic_rip ic; ctx_rflags := ic_rflags ic;
     ctx_reserved := ctx_reserved c;
     ctx_cs := ic_cs ic; ctx_ss := ic_ss ic; ctx_fs := hw_fs hw; ctx_gs := hw_gs hw;
     ctx_rax := ic_rax ic; ctx_rbx := ic_rbx ic; ctx_rcx := ic_rcx ic; ctx_rdx := ic_rdx ic;
     ctx_rdi := ic_rdi ic; ctx_rsi := ic_rsi ic; ctx_rsp := ic_rsp ic; ctx_rbp := ic_rbp ic;
     ctx_r8 := ic_r8 ic; ctx_r9 := ic_r9 ic; ctx_r10 := ic_r10 ic; ctx_r11 := ic_r11 ic;
     ctx_r12 := ic_r12 ic; ctx_r13 := ic_r13 ic; ctx_r14 := ic_r14 ic; ctx_r15 := ic_r15 ic;
     ctx_fpu := hw_fpu hw |}.

Section Scheduler.
Context {Dwarf : Type}.

Record Task := MkTask {
  task_id : Z;
  task_name : string;
  task_state : TaskState;
  task_context : CpuContext;
  task_resource : TaskResource;
  task_dwarf : option Dwarf;
  waiting_for : option Z;
  task_parent : option Z;
  children : list Z
}.

Implicit Types t u : Task.

Definition set_task_state (x : TaskState) t : Task :=
  MkTask (task_id t) (task_name t) x (task_context t) (task_resource t) (task_dwarf t)
    (waiting_for t) (task_parent t) (children t).
Definition set_context (x : CpuContext) t : Task :=
  MkTask (task_id t) (task_name t) (task_state t) x (task_resource t) (task_dwarf t)
    (waiting_for t) (task_parent t) (children t).
Definition set_resource (x : TaskResource) t : Task :=
  MkTask (task_id t) (task_name t) (task_state t) (task_context t) x (task_dwarf t)
    (waiting_for t) (task_parent t) (children t).
Definition set_waiting_for (x : option Z) t : Task :=
  MkTask (task_id t) (task_name t) (task_state t) (task_context t) (task_resource t)
    (task_dwarf t) x (task_parent t) (children t).
Definition set_parent (x : option Z) t : Task :=
  MkTask (task_id t) (task_name t) (task_state t) (task_context t) (task_resource t)
    (task_dwarf t) (waiting_for t) x (children t).
Definition set_children (x : list Z) t : Task :=
  MkTask (task_id t) (task_name t) (task_state t) (task_context t) (task_resource t)
    (task_dwarf t) (waiting_for t) (task_parent t) x.

Record TaskScheduler := MkTaskScheduler {
  ready_queue : list Task;
  current_task : option Task;
  exited_tasks : list Task;
  sleeping_tasks : list Task;
  exit_codes : gmap Z Z
}.

Implicit Types s : TaskScheduler.

Definition TaskScheduler_new : TaskScheduler :=
  {| ready_queue := []; current_task := None; exited_tasks := []; sleeping_tasks := [];
     exit_codes := ∅ |}.

Definition set_ready (x : list Task) s : TaskScheduler :=
  MkTaskScheduler x (current_task s) (exited_tasks s) (sleeping_tasks s) (exit_codes s).
Definition set_current (x : option Task) s : TaskScheduler :=
  MkTaskScheduler (ready_queue s) x (exited_tasks s) (sleeping_tasks s) (exit_codes s).
Definition set_exited (x : list Task) s : TaskScheduler :=
  MkTaskScheduler (ready_queue s) (current_task s) x (sleeping_tasks s) (exit_codes s).
Definition set_sleeping (x : list Task) s : TaskScheduler :=
  MkTaskScheduler (ready_queue s) (current_task s) (exited_tasks s) x (exit_codes s).
Definition set_exit_codes (x : gmap Z Z) s : TaskScheduler :=
  MkTaskScheduler (ready_queue s) (current_task s) (exited_tasks s) (sleeping_tasks s) x.

(** ** Operations of [TaskScheduler] *)

(** [current_task_mut]: a reference to the running task, as the function that
    writes through it. *)
Definition current_task_mut s : Result (Task * ((Task -> Task) -> TaskScheduler)) :=
  match current_task s with
  | Some t => Ok (t, fun f => set_current (Some (f t)) s)
  | None => Err (with_context NotInitialized "current task")
  end.

(** The running task, if it has the id. *)
Definition current_with_id s (id : Z) : option Task :=
  match current_task s with
  | Some t => if decide (task_id t = id) then Some t else None
  | None => None
  end.

Definition find_task s (id : Z) : option Task :=
  match current_with_id s id with
  | Some t => Some t
  | None =>
      match list_find (fun t => task_id t = id) (ready_queue s) with
      | Some (_, t) => Some t
      | None =>
          match list_find (fun t => task_id t = id) (sleeping_tasks s) with
          | Some (_, t) => Some t
          | None => None
          end
      end
  end.

(** [find_task_mut]: the first task with the id, as the function that writes
    through the reference. *)
Definition find_task_mut s (id : Z) : option ((Task -> Task) -> TaskScheduler) :=
  match current_with_id s id with
  | Some t => Some (fun f => set_current (Some (f t)) s)
  | None =>
      match list_find (fun t => task_id t = id) (ready_queue s) with
      | Some (i, _) => Some (fun f => set_ready (alter f i (ready_queue s)) s)
      | None =>
          match list_find (fun t => task_id t = id) (sleeping_tasks s) with
          | Some (i, _) => Some (fun f => set_sleeping (alter f i (sleeping_tasks s)) s)
          | None => None
          end
      end
  end.

(** [if let Some(task) = self.find_task_mut(id) { f(task) }] *)
Definition update_task s (id : Z) (f : Task -> Task) : TaskScheduler :=
  match find_task_mut s id with Some write => write f | None => s end.

Definition spawn (t : Task) s : TaskScheduler := set_ready (ready_queue s ++ [t]) s.

Definition pick_next_task s : option (Task * Task) * TaskScheduler :=
  match current_task s with
  | None => (None, s)
  | Some prev_task =>
      match ready_queue s with
      | next_task :: rest =>
          let prev_task := set_task_state Ready prev_task in
          let next_task := set_task_state Running next_task in
          (Some (prev_task, next_task),
           set_current (Some next_task) (set_ready (rest ++ [prev_task]) s))
      | [] => (None, s)
      end
  end.

(** One turn of the loop that hands the children of an exiting task over. *)
Definition reparent (new_parent_id : Z) s (child_id : Z) : TaskScheduler :=
  let s := update_task s child_id (set_parent (Some new_parent_id)) in
  update_task s new_parent_id (fun t => set_children (children t ++ [child_id]) t).

(** [children.retain(|id| *id != exiting_id)] *)
Definition drop_child (exiting_id : Z) t : Task :=
  set_children (filter (fun id => id <> exiting_id) (children t)) t.

(** The first sleeping task that waits for the exiting one becomes the first
    task of the ready queue. *)
Definition wake_waiter (exiting_id : Z) s : TaskScheduler :=
  match list_find (fun t => waiting_for t = Some exiting_id) (sleeping_tasks s) with
  | Some (i, waiter) =>
      let waiter := set_waiting_for None (set_task_state Ready waiter) in
      set_ready (waiter :: ready_queue s) (set_sleeping (delete i (sleeping_tasks s)) s)
  | None => s
  end.

Definition pick_next_task_on_exit (exit_code : Z) : SR TaskScheduler (Task * Task * list Task) :=
  fun s =>
  match current_task s with
  | None => (Panic, s)
  | Some current =>
      let s := set_current None s in
      let exiting_id := task_id current in
      let current := set_task_state (Exited exit_code) current in
      let s := match task_parent current with
               | Some parent_id => update_task s parent_id (drop_child exiting_id)
               | None => s
               end in
      let new_parent_id := default KERNEL (task_parent current) in
      let s := fold_left (reparent new_parent_id) (children current) s in
      let current := set_children [] current in
      let old := exited_tasks s in
      let s := set_exited [current] s in
      let s := set_exit_codes (<[exiting_id := exit_code]> (exit_codes s)) s in
      let s := wake_waiter exiting_id s in
      match ready_queue s with
      | [] => (Panic, s)
      | next_task :: rest =>
          let next_task := set_task_state Running next_task in
          (Ok (current, next_task, old), set_current (Some next_task) (set_ready rest s))
      end
  end.

Definition sleep_current_waiting_for (child_id : Z) : SR TaskScheduler (Task * Task) :=
  fun s =>
  match current_task s with
  | None => (Panic, s)
  | Some current =>
      let current := set_task_state Sleeping (set_waiting_for (Some child_id) current) in
      let s := set_sleeping (sleeping_tasks s ++ [current]) (set_current None s) in
      match ready_queue s with
      | [] => (Panic, s)
      | next_task :: rest =>
          let next_task := set_task_state Running next_task in
          (Ok (current, next_task), set_current (Some next_task) (set_ready rest s))
      end
  end.

Definition try_sleep_current_waiting_for (child_id : Z)
    : SR TaskScheduler (option (Task * Task)) :=
  let! s := sget in
  if decide (is_Some (exit_codes s !! child_id)) then sret None else
  let! switch_pair := sleep_current_waiting_for child_id in sret (Some switch_pair).

(** ** The functions of the module *)

(** The static [TASK_SCHED] and the counter of [TaskId::new]. *)
Record World := MkWorld { TASK_SCHED : TaskScheduler; NEXT : Z }.

Implicit Types w : World.

(** An operation of the scheduler under its lock. *)
Definition locked {A} (m : SR TaskScheduler A) : SR World A := fun w =>
  let '(r, s) := m (TASK_SCHED w) in (r, MkWorld s (NEXT w)).

(** [TaskId::new]; [fetch_add] wraps. *)
Definition TaskId_new : SR World Z := fun w =>
  (Ok (NEXT w), MkWorld (TASK_SCHED w) (wrap 64 (NEXT w + 1))).

(** The parts of a task that [Task::new] prepares before it creates it. *)
Record TaskImage := MkTaskImage {
  image_name : string;
  image_context : CpuContext;
  image_page_table : UserPageTable;
  image_args_frame : option MemoryFrame;
  image_stack_frame : option MemoryFrame;
  image_program_frames : list MemoryFrame
}.

(** [Task::new], from the prepared parts on. *)
Definition Task_new (parent : option Z) (image : Result TaskImage) (dwarf : option Dwarf)
    (pipe : option Z * option Z * option Z) : SR World Task :=
  let! im := slift image in
  let! id := TaskId_new in
  sret {| task_id := id; task_name := image_name im; task_state := TaskState_default;
          task_context := image_context im;
          task_resource := TaskResource_new (image_page_table im) (image_args_frame im)
            (image_stack_frame im) (image_program_frames im) pipe;
          task_dwarf := dwarf; waiting_for := None; task_parent := parent; children := [] |}.

(** [scheduler::init] *)
Definition scheduler_init (image : Result TaskImage) : SR World unit :=
  let! kernel_task := Task_new None image None (None, None, None) in
  do! sassert (task_id kernel_task =? KERNEL) in
  locked (smodify (set_current (Some (set_task_state Running kernel_task)))).

Definition current_task_id s : option Z := task_id <$> current_task s.

(** [s.current_task_mut()?] followed by a write through the reference. *)
Definition with_current (f : Task -> Task) : SR TaskScheduler unit := fun s =>
  match current_task_mut s with
  | Ok (_, write) => (Ok tt, write f)
  | Err e => (Err e, s)
  | Panic => (Panic, s)
  end.

Definition spawn_user_task (image : Result TaskImage) (dwarf : option Dwarf)
    (pipe : option Z * option Z * option Z) : SR World Z :=
  let! w := sget in
  let! parent_id := slift (ok_or (with_context NotFound "current task")
                             (current_task_id (TASK_SCHED w))) in
  let! task := Task_new (Some parent_id) image dwarf pipe in
  let id := task_id task in
  do! locked (smodify (spawn task)) in
  do! locked (with_current (fun t => set_children (children t ++ [id]) t)) in
  sret id.

(** The tasks to switch between, if any. *)
Definition sleep_waiting_for (child_id : Z) : SR World (option (Task * Task)) :=
  locked (try_sleep_current_waiting_for child_id).

(** The exited tasks are taken out of the scheduler and dropped. *)
Definition take_exited : SR TaskScheduler (list Task) := fun s =>
  (Ok (exited_tasks s), set_exited [] s).

(** [sched]: the tasks to switch between and the dropped ones. *)
Definition sched : SR World (Task * Task * list Task) := locked (fun s =>
  let '(switch_pair, s) := pick_next_task s in
  (let! stale := take_exited in
   match switch_pair with
   | Some (prev, next) => sret (prev, next, stale)
   | None => spanic
   end) s).

(** [preempt_sched]: the context to continue with, or the null pointer. *)
Definition preempt_sched (ic : InterruptedContext) (hw : CpuRegisters)
    : SR World (option CpuContext * list Task) := locked (fun s =>
  let s := match current_task s with
           | Some t => set_current (Some (set_context (save_interrupted ic hw (task_context t)) t)) s
           | None => s
           end in
  let '(switch_pair, s) := pick_next_task s in
  (let! stale := take_exited in
   sret (match switch_pair with Some (_, next) => Some (task_context next) | None => None end, stale)) s).

(** [exit_current]: the tasks to switch between and the dropped ones. *)
Definition exit_current (exit_code : Z) : SR World (Task * Task * list Task) :=
  locked (pick_next_task_on_exit exit_code).

Definition take_exit_code (id : Z) : SR World (option Z) := locked (fun s =>
  (Ok (exit_codes s !! id), set_exit_codes (delete id (exit_codes s)) s)).

(** The accessors of the running task's resources. *)
Definition map_resource (f : TaskResource -> TaskResource) t : Task :=
  set_resource (f (task_resource t)) t.

Definition with_layers (f : list Z -> list Z) (r : TaskResource) : TaskResource :=
  MkTaskResource (page_table r) (args_frame r) (stack_frame r) (program_frames r)
    (alloc_frames r) (f (created_layer_ids r)) (fd_nums r) (pipe_fd r).
Definition with_fds (f : list Z -> list Z) (r : TaskResource) : TaskResource :=
  MkTaskResource (page_table r) (args_frame r) (stack_frame r) (program_frames r)
    (alloc_frames r) (created_layer_ids r) (f (fd_nums r)) (pipe_fd r).
Definition with_alloc_frames (f : list MemoryFrame -> list MemoryFrame) (r : TaskResource)
    : TaskResource :=
  MkTaskResource (page_table r) (args_frame r) (stack_frame r) (program_frames r)
    (f (alloc_frames r)) (created_layer_ids r) (fd_nums r) (pipe_fd r).

Definition current_add_layer_id (layer_id : Z) : SR World unit :=
  locked (with_current (map_resource (with_layers (fun l => l ++ [layer_id])))).
Definition current_remove_layer_id (layer_id : Z) : SR World unit :=
  locked (with_current (map_resource (with_layers (filter (fun id => id <> layer_id))))).
Definition current_add_fd (fd_num : Z) : SR World unit :=
  locked (with_current (map_resource (with_fds (fun l => l ++ [fd_num])))).
Definition current_remove_fd (fd_num : Z) : SR World unit :=
  locked (with_current (map_resource (with_fds (filter (fun fd => fd <> fd_num))))).
Definition current_add_mem_frame (frame : MemoryFrame) : SR World unit :=
  locked (with_current (map_resource (with_alloc_frames (fun l => l ++ [frame])))).

(** A frame's virtual address is its physical one ([frame_start_virt_addr]). *)
Definition current_mem_frame_size (virt_addr : Z) : SR World (option Z) := locked (fun s =>
  (let? (t, _) := current_task_mut s in
   Ok ((frame_size ∘ snd) <$> list_find (fun f => frame_start_phys_addr f = virt_addr)
                                (alloc_frames (task_resource t))), s)).

Definition current_remove_mem_frame (virt_addr : Z) : SR World MemoryFrame := locked (fun s =>
  match current_task_mut s with
  | Ok (t, write) =>
      match list_find (fun f => frame_start_phys_addr f = virt_addr)
              (alloc_frames (task_resource t)) with
      | Some (index, f) => (Ok f, write (map_resource (with_alloc_frames (delete index))))
      | None => (Err (with_context InvalidData "virtual address"), s)
      end
  | Err e => (Err e, s)
  | Panic => (Panic, s)
  end).

Definition current_dwarf s : option Dwarf := current_task s ≫= task_dwarf.

Definition current_pipe_fd s : option (option Z * option Z * option Z) :=
  (pipe_fd ∘ task_resource) <$> current_task s.

Definition task_ids s : list Z :=
  (task_id <$> ready_queue s)
  ++ match current_task s with Some t => [task_id t] | None => [] end
  ++ (task_id <$> sleeping_tasks s).

Record TaskSnapshot := MkTaskSnapshot {
  snap_id : Z; snap_name : string; snap_state : TaskState; snap_parent : option Z
}.

Definition task_snapshot s (id : Z) : option TaskSnapshot :=
  (fun t => MkTaskSnapshot (task_id t) (task_name t) (task_state t) (task_parent t))
    <$> find_task s id.

(** [sys_wait]'s second half: what the waiting task does when it runs again. *)
Definition collect_exit_code (task_id : Z) : SR World Z :=
  let! code := take_exit_code task_id in
  slift (ok_or (with_context NotFound "exit code") code).

(** ** Specification: the task tree

    What the scheduler knows about the relations between the live tasks. *)

Record Family := MkFamily { fid : Z; fparent : option Z; fchildren : list Z }.

Implicit Types F : list Family.
Implicit Types a b e : Family.

Definition family t : Family := MkFamily (task_id t) (task_parent t) (children t).

(** The live tasks. *)
Definition tasks s : list Task :=
  option_list (current_task s) ++ ready_queue s ++ sleeping_tasks s.

(** Ids are unique; the children of a task are, without repetition, the live
    tasks that name it as their parent; parents are older than their children
    and live, except that the kernel task may be gone; only the kernel task
    has no parent. *)
Record tree_ok F : Prop := {
  tree_nodup : NoDup (fid <$> F);
  tree_children_nodup a : a ∈ F -> NoDup (fchildren a);
  tree_children a c : a ∈ F ->
    c ∈ fchildren a <-> exists b, b ∈ F /\ fid b = c /\ fparent b = Some (fid a);
  tree_parent a p : a ∈ F -> fparent a = Some p -> 0 <= p < fid a /\ (p = KERNEL \/ p ∈ fid <$> F);
  tree_root a : a ∈ F -> fparent a = None -> fid a = KERNEL
}.

(** Ids are below the counter, and collected exit codes belong to dead tasks. *)
Record tree_wf F (n : Z) (codes : gmap Z Z) : Prop := {
  wf_tree : tree_ok F;
  wf_bound a : a ∈ F -> 0 <= fid a < n;
  wf_codes id : is_Some (codes !! id) -> 0 <= id < n /\ id ∉ fid <$> F
}.

(** Every queue holds the tasks in its state. *)
Record queues_ok s : Prop := {
  q_current t : current_task s = Some t -> task_state t = Running /\ waiting_for t = None;
  q_ready t : t ∈ ready_queue s -> task_state t = Ready /\ waiting_for t = None;
  q_sleeping t : t ∈ sleeping_tasks s -> task_state t = Sleeping /\ is_Some (waiting_for t);
  q_exited t : t ∈ exited_tasks s -> exists code, task_state t = Exited code
}.

Definition sched_ok s (n : Z) : Prop :=
  tree_wf (family <$> tasks s) n (exit_codes s) /\ queues_ok s.

(** The invariant of the scheduler once [init] has run. *)
Definition sched_wf w : Prop :=
  sched_ok (TASK_SCHED w) (NEXT w) /\ is_Some (current_task (TASK_SCHED w)) /\ 0 < NEXT w < 2 ^ 64.

(** ** Transitions

    What the kernel may do: the public functions, called by the running task
    or an interrupt, in any order.  [OpAsync] is the creation of an
    asynchronous task, which takes an id from the same counter. *)
Inductive sched_op :=
| OpSpawn (image : Result TaskImage) (dwarf : option Dwarf) (pipe : option Z * option Z * option Z)
| OpSched
| OpPreempt (ic : InterruptedContext) (hw : CpuRegisters)
| OpExit (exit_code : Z)
| OpSleep (child_id : Z)
| OpTakeExitCode (id : Z)
| OpAsync
| OpAddLayer (id : Z)
| OpRemoveLayer (id : Z)
| OpAddFd (fd : Z)
| OpRemoveFd (fd : Z)
| OpAddMemFrame (f : MemoryFrame)
| OpRemoveMemFrame (virt_addr : Z).

(** The world after an operation, unless it panics. *)
Definition ran {A} (m : SR World A) w : option World :=
  match m w with
  | (Panic, _) => None
  | (_, w') => Some w'
  end.

Definition run_sched_op (op : sched_op) : World -> option World :=
  match op with
  | OpSpawn image dwarf pipe => ran (spawn_user_task image dwarf pipe)
  | OpSched => ran sched
  | OpPreempt ic hw => ran (preempt_sched ic hw)
  | OpExit code => ran (exit_current code)
  | OpSleep child => ran (sleep_waiting_for child)
  | OpTakeExitCode id => ran (take_exit_code id)
  | OpAsync => ran TaskId_new
  | OpAddLayer id => ran (current_add_layer_id id)
  | OpRemoveLayer id => ran (current_remove_layer_id id)
  | OpAddFd fd => ran (current_add_fd fd)
  | OpRemoveFd fd => ran (current_remove_fd fd)
  | OpAddMemFrame f => ran (current_add_mem_frame f)
  | OpRemoveMemFrame v => ran (current_remove_mem_frame v)
  end.

(** A step: fewer than 2^64 ids have been given out. *)
Definition sched_step w w' : Prop :=
  NEXT w < 2 ^ 64 - 1 /\ exists op, run_sched_op op w = Some w'.

(** ** The task tree under permutation, birth and death *)

Lemma tree_ok_perm F G : F ≡ₚ G -> tree_ok F -> tree_ok G.
Proof.
  intros HFG [H1 H2 H3 H4 H5]. split.
  - by rewrite <- HFG.
  - intros a. rewrite <- HFG. apply H2.
  - intros a c. rewrite <- HFG. intros Ha. rewrite (H3 a c Ha).
    by setoid_rewrite HFG.
  - intros a p. rewrite <- HFG. apply H4.
  - intros a. rewrite <- HFG. apply H5.
Qed.

#[local] Instance tree_ok_proper : Proper ((≡ₚ) ==> iff) tree_ok.
Proof. intros F G HFG. split; by apply tree_ok_perm. Qed.

Lemma tree_wf_perm F G n codes : F ≡ₚ G -> tree_wf F n codes -> tree_wf G n codes.
Proof.
  intros HFG [H1 H2 H3]. split.
  - by rewrite <- HFG.
  - intros a. rewrite <- HFG. apply H2.
  - intros id. rewrite <- HFG. apply H3.
Qed.

#[local] Instance tree_wf_proper : Proper ((≡ₚ) ==> (=) ==> (=) ==> iff) tree_wf.
Proof. intros F G HFG ? ? -> ? ? ->. split; by apply tree_wf_perm. Qed.

Lemma tree_id_inj F a b : tree_ok F -> a ∈ F -> b ∈ F -> fid a = fid b -> a = b.
Proof. intros HF. apply (NoDup_fmap_inj fid). apply HF. Qed.

(** A task is born as the last child of [p]. *)
Definition push_kid (p id : Z) a : Family :=
  MkFamily (fid a) (fparent a)
    (if decide (fid a = p) then fchildren a ++ [id] else fchildren a).

(** The task [e] dies: its parent forgets it and inherits its children. *)
Definition bereave e a : Family :=
  let np := default KERNEL (fparent e) in
  let kids := if decide (fparent e = Some (fid a))
              then filter (fun id => id <> fid e) (fchildren a) else fchildren a in
  MkFamily (fid a) (if decide (fid a ∈ fchildren e) then Some np else fparent a)
    (if decide (fid a = np) then kids ++ fchildren e else kids).

Lemma fid_push_kid p id F : fid <$> (push_kid p id <$> F) = fid <$> F.
Proof. rewrite <- list_fmap_compose. by apply list_fmap_ext. Qed.

Lemma fid_bereave e F : fid <$> (bereave e <$> F) = fid <$> F.
Proof. rewrite <- list_fmap_compose. by apply list_fmap_ext. Qed.

Lemma tree_spawn F p id :
  tree_ok F -> p ∈ fid <$> F -> 0 <= p -> (forall a, a ∈ F -> fid a < id) ->
  tree_ok ((push_kid p id <$> F) ++ [MkFamily id (Some p) []]).
Proof.
  intros HF Hp Hp0 Hid.
  assert (id ∉ fid <$> F) as Hfresh.
  { intros (a & -> & Ha)%list_elem_of_fmap. specialize (Hid a Ha). lia. }
  assert (p < id) as Hpid.
  { apply list_elem_of_fmap in Hp as (a & -> & Ha). by apply Hid. }
  split.
  - rewrite fmap_app, fid_push_kid. apply NoDup_app. split; [apply HF|].
    split; [|apply NoDup_singleton]. by intros x Hx ->%list_elem_of_singleton.
  - intros a [(a0 & -> & Ha)%list_elem_of_fmap| ->%list_elem_of_singleton]%elem_of_app; cbn;
      [|constructor]. pose proof (tree_children_nodup F HF a0 Ha). case_decide; [|done].
    apply NoDup_app. split; [done|]. split; [|apply NoDup_singleton].
    intros c Hc ->%list_elem_of_singleton. apply (tree_children F HF a0 id Ha) in Hc as (b & Hb & <- & _).
    by destruct Hfresh; apply list_elem_of_fmap_2.
  - intros a c Ha. setoid_rewrite elem_of_app. setoid_rewrite list_elem_of_singleton.
    apply elem_of_app in Ha as [(a0 & -> & Ha)%list_elem_of_fmap| ->%list_elem_of_singleton]; cbn.
    + assert (c ∈ (if decide (fid a0 = p) then fchildren a0 ++ [id] else fchildren a0)
              <-> c ∈ fchildren a0 \/ (fid a0 = p /\ c = id)) as ->.
      { case_decide; [rewrite elem_of_app, list_elem_of_singleton|]; intuition. }
      rewrite (tree_children F HF a0 c Ha). split.
      * intros [(b & Hb & <- & Hpar)|[<- ->]]; [|by exists (MkFamily id (Some (fid a0)) []); eauto].
        exists (push_kid p id b). split; [left; by apply list_elem_of_fmap_2|done].
      * intros (b & [(b0 & -> & Hb)%list_elem_of_fmap| ->] & <- & Hpar); cbn in *; [left; eauto|].
        right. by injection Hpar.
    + split; [by intros ?%not_elem_of_nil|].
      intros (b & [(b0 & -> & Hb)%list_elem_of_fmap| ->] & <- & Hpar); cbn in *.
      * apply (tree_parent F HF b0) in Hpar as [Hlt _]; [|done]. specialize (Hid b0 Hb). lia.
      * injection Hpar as ->. lia.
  - intros a q. rewrite fmap_app, fid_push_kid. setoid_rewrite elem_of_app.
    intros [(a0 & -> & Ha)%list_elem_of_fmap| ->%list_elem_of_singleton] Hpar; cbn in *.
    + destruct (tree_parent F HF a0 q Ha Hpar) as [? [?|?]]; auto.
    + injection Hpar as <-. auto with lia.
  - intros a [(a0 & -> & Ha)%list_elem_of_fmap| ->%list_elem_of_singleton]%elem_of_app; cbn; [|done].
    by apply HF.
Qed.

Section Bereave.
Context (e : Family) (F : list Family) (HF : tree_ok (e :: F)).

Lemma bereave_other a : a ∈ F -> fid a <> fid e.
Proof.
  intros Ha Heq. pose proof (tree_nodup _ HF) as Hnd. rewrite fmap_cons, NoDup_cons in Hnd.
  destruct Hnd as [He _]. apply He. rewrite <- Heq. by apply list_elem_of_fmap_2.
Qed.

(** The heir of the children, when it lives, is the parent. *)
Lemma bereave_heir a : a ∈ F -> fid a = default KERNEL (fparent e) <-> fparent e = Some (fid a).
Proof.
  intros Ha. destruct (fparent e) as [p|] eqn:Hp; cbn; [split; [by intros ->|by intros [= ->]]|].
  split; [|done]. intros Hk. destruct (bereave_other a Ha). rewrite Hk. symmetry.
  by apply (tree_root _ HF); [apply elem_of_cons; left|].
Qed.

Lemma bereave_child a : a ∈ F -> fid a ∈ fchildren e <-> fparent a = Some (fid e).
Proof.
  intros Ha. rewrite (tree_children _ HF e (fid a)) by (by apply elem_of_cons; left). split.
  - intros (b & Hb & Hid & Hp). apply (tree_id_inj _ b a HF) in Hid as ->; [done..|].
    by apply elem_of_cons; right.
  - intros Hp. exists a. split; [by apply elem_of_cons; right|done].
Qed.

(** The children of a survivor before the death, [e] itself aside. *)
Lemma bereave_old_child a c :
  a ∈ F -> c ∈ fchildren a <-> (c = fid e /\ fparent e = Some (fid a)) \/
                              exists b, b ∈ F /\ fid b = c /\ fparent b = Some (fid a).
Proof.
  intros Ha. rewrite (tree_children _ HF a c) by (by apply elem_of_cons; right).
  setoid_rewrite elem_of_cons. split.
  - intros (b & [->|Hb] & Hc & Hp); [by left|right; eauto].
  - intros [[-> Hp]|(b & Hb & Hc & Hp)]; eauto.
Qed.

Lemma bereave_children a c :
  a ∈ F -> c ∈ fchildren (bereave e a) <->
  exists b, b ∈ F /\ fid b = c /\ fparent (bereave e b) = Some (fid a).
Proof.
  intros Ha. pose proof (bereave_other a Ha) as Hne.
  pose proof (bereave_old_child a c Ha) as Hold. pose proof (bereave_heir a Ha) as Hheir.
  unfold bereave. cbn [fchildren fparent]. destruct (decide (fid a = default KERNEL (fparent e))) as [Hnp|Hnp].
  - rewrite decide_True by tauto. rewrite elem_of_app, list_elem_of_filter. split.
    + intros [[Hc Hin]|Hin].
      * apply Hold in Hin as [[-> _]|(b & Hb & <- & Hp)]; [done|]. exists b. do 2 (split; [done|]).
        case_decide; [by rewrite Hnp|done].
      * pose proof Hin as (b & [->|Hb]%elem_of_cons & <- & Hp)%(tree_children _ HF e c);
          [..|by apply elem_of_cons; left].
        -- apply (tree_parent _ HF e) in Hp as [? _]; [lia|by apply elem_of_cons; left].
        -- exists b. rewrite decide_True by done. by rewrite Hnp.
    + intros (b & Hb & <- & Hp). case_decide as Hin; [by right|left].
      split; [by apply bereave_other|]. apply Hold. right. eauto.
  - rewrite decide_False by tauto. rewrite Hold. split.
    + intros [[_ Hp]|(b & Hb & <- & Hp)]; [tauto|]. exists b. do 2 (split; [done|]).
      rewrite decide_False; [done|]. rewrite bereave_child by done. rewrite Hp. by intros [= ?].
    + intros (b & Hb & <- & Hp). right. exists b. do 2 (split; [done|]).
      case_decide; [injection Hp; intros; by destruct Hnp|done].
Qed.

Lemma bereave_children_nodup a : a ∈ F -> NoDup (fchildren (bereave e a)).
Proof.
  intros Ha. assert (a ∈ e :: F) as Ha' by (by apply elem_of_cons; right).
  assert (e ∈ e :: F) as He by (by apply elem_of_cons; left).
  pose proof (tree_children_nodup _ HF a Ha') as Hnd. unfold bereave. cbn [fchildren].
  assert (NoDup (if decide (fparent e = Some (fid a)) then
            filter (fun id => id <> fid e) (fchildren a) else fchildren a)) as Hk
    by (case_decide; [by apply NoDup_filter|done]).
  destruct (decide (fid a = default KERNEL (fparent e))) as [Hnp|Hnp]; [|done].
  apply NoDup_app. split; [done|].
  split; [|by apply (tree_children_nodup _ HF)].
  rewrite decide_True by (by apply bereave_heir). intros c [Hc Hin]%list_elem_of_filter Hin'.
  apply (bereave_old_child a c Ha) in Hin as [[-> _]|(b & Hb & <- & Hp)]; [done|].
  apply bereave_child in Hin'; [|done]. destruct (bereave_other a Ha). congruence.
Qed.

Lemma bereave_parent a p :
  a ∈ F -> fparent (bereave e a) = Some p ->
  0 <= p < fid a /\ (p = KERNEL \/ p ∈ fid <$> F).
Proof.
  intros Ha. assert (a ∈ e :: F) as Ha' by (by apply elem_of_cons; right).
  assert (e ∈ e :: F) as He by (by apply elem_of_cons; left).
  unfold bereave. cbn [fparent]. case_decide as Hin; intros Hp.
  - apply bereave_child in Hin; [|done]. apply (tree_parent _ HF a) in Hin as [Hlt _]; [|done].
    injection Hp as <-. destruct (fparent e) as [q|] eqn:Hq; cbn; [|unfold KERNEL; auto with lia].
    apply (tree_parent _ HF e) in Hq as [Hqlt Hq]; [|done]. split; [lia|].
    destruct Hq as [?|[->|?]%elem_of_cons]; [by left|lia|by right].
  - pose proof Hp as [Hlt Hq]%(tree_parent _ HF a); [|done]. split; [done|].
    destruct Hq as [?|[->|?]%elem_of_cons]; [by left| |by right].
    destruct Hin. by apply bereave_child.
Qed.

(** The tree survives the death of any task. *)
Lemma tree_exit : tree_ok (bereave e <$> F).
Proof.
  split.
  - rewrite fid_bereave. pose proof (tree_nodup _ HF) as Hnd.
    rewrite fmap_cons, NoDup_cons in Hnd. apply Hnd.
  - intros a (a0 & -> & Ha)%list_elem_of_fmap. by apply bereave_children_nodup.
  - intros a c (a0 & -> & Ha)%list_elem_of_fmap. rewrite bereave_children by done.
    cbn [fid bereave]. split.
    + intros (b & Hb & Hc & Hp). exists (bereave e b). split; [by apply list_elem_of_fmap_2|done].
    + intros (b & (b0 & -> & Hb)%list_elem_of_fmap & Hc & Hp). eauto.
  - intros a p (a0 & -> & Ha)%list_elem_of_fmap. rewrite fid_bereave. exact (bereave_parent a0 p Ha).
  - intros a (a0 & -> & Ha)%list_elem_of_fmap. unfold bereave. cbn [fparent fid].
    case_decide; [done|]. apply (tree_root _ HF). by apply elem_of_cons; right.
Qed.

End Bereave.

(** ** Writing through [find_task_mut]

    With unique ids, a write through the reference changes the task with that
    id and nothing else, whatever queue it is in. *)

Definition at_id (id : Z) (f : Task -> Task) t : Task :=
  if decide (task_id t = id) then f t else t.

Definition smap (f : Task -> Task) s : TaskScheduler :=
  MkTaskScheduler (f <$> ready_queue s) (f <$> current_task s) (exited_tasks s)
    (f <$> sleeping_tasks s) (exit_codes s).

Lemma at_id_absent id f (l : list Task) : id ∉ task_id <$> l -> at_id id f <$> l = l.
Proof.
  intros Hid. rewrite <- (list_fmap_id l) at 2. apply list_fmap_ext. intros i t Ht. unfold at_id.
  apply decide_False. intros <-. apply Hid, list_elem_of_fmap_2. by eapply list_elem_of_lookup_2.
Qed.

Lemma at_id_alter id f (l : list Task) i t :
  NoDup (task_id <$> l) -> list_find (fun t => task_id t = id) l = Some (i, t) ->
  alter f i l = at_id id f <$> l.
Proof.
  revert i. induction l as [|u l IH]; intros i Hnd; [done|]. rewrite fmap_cons, NoDup_cons in Hnd.
  destruct Hnd as [Hu Hnd]. cbn [list_find]. unfold at_id at 1. case_decide as Hid.
  - intros [= <- <-]. cbn. rewrite decide_True by done. f_equal. symmetry. apply at_id_absent. by rewrite <- Hid.
  - intros Hf. destruct (list_find _ l) as [[j v]|] eqn:Hl; [|done]. injection Hf as <- <-.
    cbn. rewrite decide_False by done. f_equal. by apply IH.
Qed.

Lemma list_find_id_absent id (l : list Task) :
  list_find (fun t => task_id t = id) l = None -> id ∉ task_id <$> l.
Proof.
  intros H (t & -> & Ht)%list_elem_of_fmap. apply list_find_None in H.
  rewrite Forall_forall in H. by apply (H t).
Qed.

Lemma list_find_id_present id (l : list Task) i t :
  list_find (fun t => task_id t = id) l = Some (i, t) -> id ∈ task_id <$> l.
Proof.
  intros (Hl & <- & _)%list_find_Some. by eapply list_elem_of_fmap_2, list_elem_of_lookup_2.
Qed.

Lemma update_task_smap s id f :
  NoDup (task_id <$> tasks s) -> update_task s id f = smap (at_id id f) s.
Proof.
  destruct s as [R cur X L codes]. unfold update_task, find_task_mut, smap, tasks. cbn.
  rewrite !fmap_app. intros (Hnc & Hdc & (Hnr & Hdr & Hns)%NoDup_app)%NoDup_app.
  destruct (current_with_id _ id) as [t|] eqn:Hcur; unfold current_with_id in Hcur; cbn in Hcur.
  - destruct cur as [u|]; [|done]. case_decide as Hid; [|done]. injection Hcur as ->.
    unfold set_current. cbn in *. assert (id ∉ (task_id <$> R) ++ (task_id <$> L)) as Habs.
    { rewrite <- Hid. apply Hdc. by apply elem_of_cons; left. }
    apply not_elem_of_app in Habs as [HR HL]. rewrite !at_id_absent by done.
    unfold at_id. by rewrite decide_True.
  - assert (at_id id f <$> cur = cur) as ->.
    { destruct cur as [u|]; [|done]. cbn. unfold at_id. by case_decide. }
    destruct (list_find _ R) as [[i u]|] eqn:HR.
    + unfold set_ready. cbn. erewrite at_id_alter by done. f_equal. symmetry. apply at_id_absent.
      apply Hdr. by eapply list_find_id_present.
    + rewrite (at_id_absent id f R) by (by apply list_find_id_absent).
      destruct (list_find _ L) as [[i u]|] eqn:HL.
      * unfold set_sleeping. cbn. by erewrite at_id_alter.
      * by rewrite at_id_absent by (by apply list_find_id_absent).
Qed.

Lemma smap_smap f g s : smap f (smap g s) = smap (f ∘ g) s.
Proof.
  unfold smap. cbn. rewrite <- !list_fmap_compose. f_equal. by destruct (current_task s).
Qed.

Lemma smap_ext f g s : (forall t, f t = g t) -> smap f s = smap g s.
Proof.
  intros H. unfold smap. f_equal; [by apply list_fmap_ext| |by apply list_fmap_ext].
  destruct (current_task s) as [t|]; [|done]. cbn. by rewrite H.
Qed.

Lemma smap_id s : smap id s = s.
Proof. unfold smap. rewrite !list_fmap_id. destruct s as [? [?|] ? ? ?]; done. Qed.

Lemma tasks_smap f s : tasks (smap f s) = f <$> tasks s.
Proof. unfold tasks, smap. cbn. rewrite !fmap_app. by destruct (current_task s). Qed.

Lemma task_ids_smap f s :
  (forall t, task_id (f t) = task_id t) -> task_id <$> tasks (smap f s) = task_id <$> tasks s.
Proof. intros H. rewrite tasks_smap, <- list_fmap_compose. apply list_fmap_ext. intros. apply H. Qed.

(** What the loop over the children of an exiting task does to each task. *)
Definition adopt (np : Z) (kids : list Z) t : Task :=
  set_parent (if decide (task_id t ∈ kids) then Some np else task_parent t)
    (set_children (if decide (task_id t = np) then children t ++ kids else children t) t).

Lemma reparent_adopt np s c :
  NoDup (task_id <$> tasks s) -> reparent np s c = smap (adopt np [c]) s.
Proof.
  intros Hnd. unfold reparent. rewrite (update_task_smap s) by done.
  rewrite update_task_smap.
  - rewrite smap_smap. apply smap_ext. intros t. unfold adopt, at_id, compose.
    destruct (decide (task_id t = c)) as [Hc|Hc].
    + rewrite (decide_True (P := task_id t ∈ [c])) by (by apply list_elem_of_singleton).
      cbn. by destruct (decide (task_id t = np)), t.
    + rewrite (decide_False (P := task_id t ∈ [c])) by (by rewrite list_elem_of_singleton).
      by destruct (decide (task_id t = np)), t.
  - rewrite task_ids_smap; [done|]. intros t. unfold at_id. by case_decide.
Qed.

Lemma fold_reparent np kids s :
  NoDup (task_id <$> tasks s) -> fold_left (reparent np) kids s = smap (adopt np kids) s.
Proof.
  revert s. induction kids as [|c kids IH]; intros s Hnd; cbn.
  - rewrite <- (smap_id s) at 1. apply smap_ext. intros t. unfold adopt.
    rewrite app_nil_r, decide_False by apply not_elem_of_nil. by case_decide; destruct t.
  - rewrite reparent_adopt, IH by (rewrite ?reparent_adopt, ?task_ids_smap; done).
    rewrite smap_smap. apply smap_ext. intros t. unfold adopt, compose.
    cbn [task_id task_parent children set_parent set_children].
    destruct (decide (task_id t = np)); destruct (decide (task_id t ∈ kids));
      repeat case_decide; rewrite ?elem_of_cons, ?elem_of_nil in *; try tauto;
      by rewrite <- ?(assoc_L (++)).
Qed.

(** The effect of the exit of [cur] on another task. *)
Definition bereave_task (cur : Task) t : Task :=
  adopt (default KERNEL (task_parent cur)) (children cur)
    (match task_parent cur with
     | Some p => at_id p (drop_child (task_id cur)) t
     | None => t
     end).

Lemma family_bereave_task cur t : family (bereave_task cur t) = bereave (family cur) (family t).
Proof.
  unfold bereave_task, bereave, adopt, at_id, family. cbn.
  destruct (task_parent cur) as [p|]; cbn.
  - destruct (decide (task_id t = p)) as [Hp|Hp]; cbn.
    + rewrite (decide_True (P := Some p = _)) by congruence. by rewrite !(decide_True (P := task_id t = p)).
    + rewrite (decide_False (P := Some p = _)) by congruence. by rewrite !(decide_False (P := task_id t = p)).
  - by rewrite (decide_False (P := None = _)).
Qed.

Lemma bereave_task_id cur t : task_id (bereave_task cur t) = task_id t.
Proof. exact (f_equal fid (family_bereave_task cur t)). Qed.

Lemma bereave_task_state cur t :
  task_state (bereave_task cur t) = task_state t /\ waiting_for (bereave_task cur t) = waiting_for t.
Proof.
  unfold bereave_task, adopt, at_id. destruct (task_parent cur) as [p|]; [|done].
  by destruct (decide (task_id t = p)).
Qed.

(** The scheduler when [cur] has exited and nobody has been woken yet. *)
Definition dead (code : Z) t : Task := set_children [] (set_task_state (Exited code) t).

Definition after_exit (code : Z) (cur : Task) s : TaskScheduler :=
  set_exit_codes (<[task_id cur := code]> (exit_codes s))
    (set_exited [dead code cur] (smap (bereave_task cur) (set_current None s))).

(** The first ready task runs. *)
Definition run_next {A} (k : Task -> A) : SR TaskScheduler A := fun s =>
  match ready_queue s with
  | [] => (Panic, s)
  | next_task :: rest =>
      (Ok (k (set_task_state Running next_task)),
       set_current (Some (set_task_state Running next_task)) (set_ready rest s))
  end.

Lemma exit_run code s cur :
  current_task s = Some cur -> NoDup (task_id <$> tasks s) ->
  pick_next_task_on_exit code s =
  run_next (fun t => (dead code cur, t, exited_tasks s))
    (wake_waiter (task_id cur) (after_exit code cur s)).
Proof.
  intros Hcur Hnd.
  assert (NoDup (task_id <$> tasks (set_current None s))) as Hnd'.
  { unfold tasks in *. rewrite Hcur in Hnd. cbn in Hnd. by apply NoDup_cons in Hnd as [_ ?]. }
  unfold pick_next_task_on_exit. rewrite Hcur.
  cbn [task_parent task_id children set_task_state].
  assert (fold_left (reparent (default KERNEL (task_parent cur))) (children cur)
      (match task_parent cur with
       | Some parent_id => update_task (set_current None s) parent_id (drop_child (task_id cur))
       | None => set_current None s end) = smap (bereave_task cur) (set_current None s)) as ->.
  { unfold bereave_task. destruct (task_parent cur) as [p|]; cbn.
    - rewrite update_task_smap, fold_reparent, smap_smap; [done| |done].
      rewrite task_ids_smap; [done|]. intros t. unfold at_id. by case_decide.
    - by rewrite fold_reparent. }
  unfold run_next, after_exit. cbn [exited_tasks smap set_current exit_codes set_exited].
  by destruct (ready_queue _).
Qed.

Lemma sleep_run child s cur :
  current_task s = Some cur ->
  sleep_current_waiting_for child s =
  run_next (fun t => (set_task_state Sleeping (set_waiting_for (Some child) cur), t))
    (set_sleeping (sleeping_tasks s ++ [set_task_state Sleeping (set_waiting_for (Some child) cur)])
       (set_current None s)).
Proof. intros Hcur. unfold sleep_current_waiting_for, run_next. by rewrite Hcur. Qed.

(** ** The invariant *)

Lemma family_ids (l : list Task) : fid <$> (family <$> l) = task_id <$> l.
Proof. rewrite <- list_fmap_compose. by apply list_fmap_ext. Qed.

Lemma sched_ok_nodup s n : sched_ok s n -> NoDup (task_id <$> tasks s).
Proof. intros [[Ht _ _] _]. rewrite <- family_ids. apply Ht. Qed.

(** Moving tasks between queues keeps the tree. *)
Lemma sched_ok_perm s s' n :
  family <$> tasks s' ≡ₚ family <$> tasks s -> exit_codes s' = exit_codes s ->
  queues_ok s' -> sched_ok s n -> sched_ok s' n.
Proof. intros HF Hc Hq [Ht _]. split; [|done]. rewrite Hc. by rewrite HF. Qed.

Lemma run_next_family s t rest :
  current_task s = None -> ready_queue s = t :: rest ->
  family <$> tasks (set_current (Some (set_task_state Running t)) (set_ready rest s)) = family <$> tasks s.
Proof. intros Hcur Hr. unfold tasks. cbn. by rewrite Hcur, Hr. Qed.

Lemma run_next_ok s n t rest :
  sched_ok s n -> current_task s = None -> ready_queue s = t :: rest ->
  sched_ok (set_current (Some (set_task_state Running t)) (set_ready rest s)) n.
Proof.
  intros Hok Hcur Hr. pose proof (proj2 Hok) as [H1 H2 H3 H4]. eapply sched_ok_perm; [..|exact Hok].
  - by rewrite run_next_family.
  - done.
  - rewrite Hr in H2. split; cbn; [|intros u Hu; apply H2; by right|done..].
    intros u [= <-]. cbn. split; [done|]. by apply (H2 t); left.
Qed.

Lemma wake_waiter_family id s : family <$> tasks (wake_waiter id s) ≡ₚ family <$> tasks s.
Proof.
  unfold wake_waiter. destruct (list_find _ _) as [[i wt]|] eqn:Hf; [|done].
  apply list_find_Some in Hf as (Hi & _ & _). pose proof (delete_Permutation _ _ _ Hi) as HL.
  unfold tasks. cbn. rewrite HL at 2. rewrite !fmap_app, !fmap_cons, !fmap_app.
  apply Permutation_app_head. exact (Permutation_middle _ _ (family wt)).
Qed.

Lemma wake_waiter_ok id s n : sched_ok s n -> sched_ok (wake_waiter id s) n.
Proof.
  intros Hok. pose proof (proj2 Hok) as [H1 H2 H3 H4].
  eapply sched_ok_perm; [apply wake_waiter_family|..|exact Hok];
    unfold wake_waiter; destruct (list_find _ _) as [[i wt]|] eqn:Hf; [done|done| |by split].
  apply list_find_Some in Hf as (Hi & _ & _). pose proof (delete_Permutation _ _ _ Hi) as HL.
  split; cbn; [done| | |done].
  - intros u [->|Hu]%elem_of_cons; [done|auto].
  - intros u Hu. apply H3. rewrite HL. by right.
Qed.

Lemma after_exit_ok code cur s n :
  sched_ok s n -> current_task s = Some cur -> sched_ok (after_exit code cur s) n.
Proof.
  intros [[Ht Hb Hc] [H1 H2 H3 H4]] Hcur.
  set (rest := ready_queue s ++ sleeping_tasks s).
  assert (tasks s = cur :: rest) as Htasks by (unfold tasks; by rewrite Hcur).
  assert (family <$> tasks (after_exit code cur s) = bereave (family cur) <$> (family <$> rest)) as HF.
  { unfold after_exit, tasks. cbn. rewrite <- fmap_app, <- !list_fmap_compose. apply list_fmap_ext.
    intros i t _. apply family_bereave_task. }
  rewrite Htasks, fmap_cons in Ht, Hb, Hc. split; [rewrite HF; split|].
  - by apply tree_exit.
  - intros a (b & -> & Hin)%list_elem_of_fmap. apply (Hb b). by right.
  - intros id. rewrite fid_bereave. cbn. pose proof (tree_nodup _ Ht) as Hnd.
    rewrite fmap_cons, NoDup_cons in Hnd. destruct Hnd as [Hfresh _].
    destruct (decide (id = task_id cur)) as [->|Hne].
    + intros _. split; [|done]. apply (Hb (family cur)). by left.
    + rewrite lookup_insert_ne by done. intros [? Hnin]%Hc. split; [done|].
      rewrite fmap_cons in Hnin. by apply not_elem_of_cons in Hnin as [_ ?].
  - split; cbn; [done| | |].
    + intros t (u & -> & Hu)%list_elem_of_fmap. destruct (bereave_task_state cur u) as [-> ->]. auto.
    + intros t (u & -> & Hu)%list_elem_of_fmap. destruct (bereave_task_state cur u) as [-> ->]. auto.
    + intros t ->%list_elem_of_singleton. by exists code.
Qed.

(** A change of the running task outside its family, state and wait target. *)
Definition inert (f : Task -> Task) : Prop := forall t,
  family (f t) = family t /\ task_state (f t) = task_state t /\ waiting_for (f t) = waiting_for t.

Lemma set_current_ok f s n t :
  inert f -> current_task s = Some t -> sched_ok s n -> sched_ok (set_current (Some (f t)) s) n.
Proof.
  intros Hf Hcur Hok. destruct (Hf t) as (Hf1 & Hf2 & Hf3). pose proof (proj2 Hok) as [H1 H2 H3 H4].
  eapply sched_ok_perm; [..|exact Hok].
  - unfold tasks. cbn. rewrite Hcur. cbn. by rewrite Hf1.
  - done.
  - split; cbn; [|done..]. intros u [= <-]. rewrite Hf2, Hf3. by apply H1.
Qed.

Lemma take_exited_ok s n : sched_ok s n -> sched_ok (set_exited [] s) n.
Proof. intros [Ht [H1 H2 H3 H4]]. split; [done|]. split; cbn; [done..|]. by intros t ?%not_elem_of_nil. Qed.

(** Parking the running task in a queue. *)
Lemma park_ready_family s t :
  current_task s = Some t ->
  family <$> tasks (set_ready (ready_queue s ++ [set_task_state Ready t]) (set_current None s))
  ≡ₚ family <$> tasks s.
Proof.
  intros Hcur. unfold tasks. cbn. rewrite Hcur. cbn. rewrite !fmap_app. cbn.
  rewrite <- (assoc_L (++)). symmetry. exact (Permutation_middle _ _ (family t)).
Qed.

Lemma park_sleeping_family s t child :
  current_task s = Some t ->
  family <$> tasks (set_sleeping (sleeping_tasks s
      ++ [set_task_state Sleeping (set_waiting_for (Some child) t)]) (set_current None s))
  ≡ₚ family <$> tasks s.
Proof.
  intros Hcur. unfold tasks. cbn. rewrite Hcur. cbn. rewrite !fmap_app. cbn. rewrite (assoc_L (++)).
  symmetry. exact (Permutation_cons_append _ (family t)).
Qed.

Lemma park_ready_ok s n t rest :
  sched_ok s n -> current_task s = Some t -> ready_queue s = rest ->
  sched_ok (set_ready (rest ++ [set_task_state Ready t]) (set_current None s)) n.
Proof.
  intros Hok Hcur <-. pose proof (proj2 Hok) as [H1 H2 H3 H4]. eapply sched_ok_perm; [..|exact Hok].
  - by apply park_ready_family.
  - done.
  - split; cbn; [done| |done..]. intros u [Hu| ->%list_elem_of_singleton]%elem_of_app; [auto|].
    split; [done|]. exact (proj2 (H1 t Hcur)).
Qed.

Lemma park_sleeping_ok s n t child :
  sched_ok s n -> current_task s = Some t ->
  sched_ok (set_sleeping (sleeping_tasks s ++ [set_task_state Sleeping (set_waiting_for (Some child) t)])
              (set_current None s)) n.
Proof.
  intros Hok Hcur. pose proof (proj2 Hok) as [H1 H2 H3 H4]. eapply sched_ok_perm; [..|exact Hok].
  - by apply park_sleeping_family.
  - done.
  - split; cbn; [done..| |done]. intros u [Hu| ->%list_elem_of_singleton]%elem_of_app; [auto|].
    split; [done|]. by eexists.
Qed.

Definition sched_live s (n : Z) : Prop := sched_ok s n /\ is_Some (current_task s).

Lemma pick_next_task_live s n : sched_live s n -> sched_live (snd (pick_next_task s)) n.
Proof.
  intros [Hok [t Hcur]]. unfold pick_next_task. rewrite Hcur.
  destruct (ready_queue s) as [|u rest] eqn:Hr; [by split; [|exists t]|]. split; [|by eexists].
  apply (run_next_ok (set_ready ((u :: rest) ++ [set_task_state Ready t]) (set_current None s)));
    [by apply park_ready_ok|done..].
Qed.

Lemma run_next_live {A} (k : Task -> A) s n x s' :
  sched_ok s n -> current_task s = None -> run_next k s = (Ok x, s') -> sched_live s' n.
Proof.
  intros Hok Hcur. unfold run_next. destruct (ready_queue s) as [|u rest] eqn:Hr; [done|].
  intros [= _ <-]. split; [by apply run_next_ok|by eexists].
Qed.

Lemma wake_waiter_current id s : current_task (wake_waiter id s) = current_task s.
Proof. unfold wake_waiter. by destruct (list_find _ _) as [[]|]. Qed.

Lemma exit_live code s n r s' :
  sched_live s n -> pick_next_task_on_exit code s = (r, s') -> r <> Panic -> sched_live s' n.
Proof.
  intros [Hok [t Hcur]] Hrun Hr. rewrite (exit_run code s t Hcur (sched_ok_nodup s n Hok)) in Hrun.
  destruct r as [r|e|]; [|unfold run_next in Hrun; by destruct (ready_queue _)|done].
  refine (run_next_live _ _ n _ _ _ _ Hrun); [by apply wake_waiter_ok, after_exit_ok|].
  by rewrite wake_waiter_current.
Qed.

Lemma try_sleep_live child s n r s' :
  sched_live s n -> try_sleep_current_waiting_for child s = (r, s') -> r <> Panic -> sched_live s' n.
Proof.
  intros Hlive. pose proof Hlive as [Hok [t Hcur]]. unfold try_sleep_current_waiting_for. cbn.
  case_decide; [by intros [= <- <-]|]. unfold sbind. rewrite (sleep_run child s t Hcur).
  destruct (run_next _ _) as [[a|e|] s1] eqn:Hrun; intros [= <- <-] Hr; [| |done].
  - refine (run_next_live _ _ n _ _ _ _ Hrun); [by apply park_sleeping_ok|done].
  - unfold run_next in Hrun. by destruct (ready_queue _).
Qed.

Lemma push_kid_absent p id F : p ∉ fid <$> F -> push_kid p id <$> F = F.
Proof.
  intros Hp. rewrite <- (list_fmap_id F) at 2. apply list_fmap_ext. intros i a Ha. unfold push_kid.
  rewrite decide_False; [by destruct a|]. intros <-. by eapply Hp, list_elem_of_fmap_2, list_elem_of_lookup_2.
Qed.

Lemma tree_wf_spawn F n codes p :
  tree_wf F n codes -> p ∈ fid <$> F -> 0 <= n ->
  tree_wf ((push_kid p n <$> F) ++ [MkFamily n (Some p) []]) (n + 1) codes.
Proof.
  intros [Ht Hb Hc] Hp Hn. split.
  - apply tree_spawn; [done..| |intros a Ha; by apply Hb].
    apply list_elem_of_fmap in Hp as (a & -> & Ha). by apply Hb.
  - intros a [(b & -> & Hin)%list_elem_of_fmap| ->%list_elem_of_singleton]%elem_of_app; cbn; [|lia].
    specialize (Hb b Hin). lia.
  - intros id [Hlt Hnin]%Hc. rewrite fmap_app, fid_push_kid. split; [lia|].
    apply not_elem_of_app. split; [done|]. intros ->%list_elem_of_singleton. cbn in Hlt. lia.
Qed.

Lemma tree_wf_mono F n m codes : tree_wf F n codes -> n <= m -> tree_wf F m codes.
Proof.
  intros [Ht Hb Hc] Hle. split; [done|intros a Ha; specialize (Hb a Ha); lia|].
  intros id [? ?]%Hc. split; [lia|done].
Qed.

(** The task that [spawn_user_task] creates. *)
Definition spawned (n p : Z) (im : TaskImage) (dwarf : option Dwarf)
    (pipe : option Z * option Z * option Z) : Task :=
  {| task_id := n; task_name := image_name im; task_state := Ready;
     task_context := image_context im;
     task_resource := TaskResource_new (image_page_table im) (image_args_frame im)
       (image_stack_frame im) (image_program_frames im) pipe;
     task_dwarf := dwarf; waiting_for := None; task_parent := Some p; children := [] |}.

Definition after_spawn (nt cur : Task) s : TaskScheduler :=
  set_current (Some (set_children (children cur ++ [task_id nt]) cur)) (spawn nt s).

Lemma after_spawn_ok s n cur im dwarf pipe :
  sched_ok s n -> current_task s = Some cur -> 0 <= n ->
  sched_ok (after_spawn (spawned n (task_id cur) im dwarf pipe) cur s) (n + 1).
Proof.
  intros [Hwf [H1 H2 H3 H4]] Hcur Hn. set (nt := spawned n (task_id cur) im dwarf pipe).
  set (rest := family <$> (ready_queue s ++ sleeping_tasks s)).
  assert (family <$> tasks s = family cur :: rest) as HF by (unfold tasks; by rewrite Hcur).
  pose proof (tree_nodup _ (wf_tree _ _ _ Hwf)) as Hnd. rewrite HF in Hwf, Hnd.
  apply NoDup_cons in Hnd as [Hnew _]. split.
  - apply (tree_wf_spawn _ _ _ (task_id cur)) in Hwf; [|by left|done].
    rewrite fmap_cons, (push_kid_absent _ _ rest) in Hwf by done.
    eapply tree_wf_perm; [|exact Hwf]. unfold tasks, rest. cbn. unfold push_kid. cbn.
    rewrite decide_True by done. apply perm_skip. rewrite !fmap_app, <- !(assoc_L (++)).
    apply Permutation_app_head, Permutation_app_comm.
  - split; cbn; [intros t [= <-]; by apply (H1 cur)| |done..].
    intros t [Ht| ->%list_elem_of_singleton]%elem_of_app; [auto|done].
Qed.

Lemma spawn_user_task_run w cur im dwarf pipe :
  current_task (TASK_SCHED w) = Some cur ->
  spawn_user_task (Ok im) dwarf pipe w =
  (Ok (NEXT w),
   MkWorld (after_spawn (spawned (NEXT w) (task_id cur) im dwarf pipe) cur (TASK_SCHED w))
     (wrap 64 (NEXT w + 1))).
Proof.
  intros Hcur. destruct w as [[R c X L codes] n]. cbn in Hcur. subst c. done.
Qed.

(** An operation on the scheduler keeps the invariant unless it panics. *)
Definition preserves {A} (m : SR TaskScheduler A) : Prop := forall s n r s',
  sched_live s n -> m s = (r, s') -> r <> Panic -> sched_live s' n.

Lemma preserves_with_current f : inert f -> preserves (with_current f).
Proof.
  intros Hf s n r s' [Hok [t Hcur]]. unfold with_current, current_task_mut. rewrite Hcur.
  intros [= <- <-] _. split; [by apply set_current_ok|by eexists].
Qed.

Lemma preserves_take_exit_code id :
  preserves (fun s => (Ok (exit_codes s !! id), set_exit_codes (delete id (exit_codes s)) s)).
Proof.
  intros s n r s' [[[Ht Hb Hc] Hq] Hcur] [= <- <-] _. split; [|done]. split.
  - split; [done..|]. intros x Hx. apply Hc. cbn in Hx. by apply lookup_delete_is_Some in Hx as [_ ?].
  - by destruct Hq.
Qed.

Lemma remove_mem_frame_wf v w r w' :
  sched_wf w -> current_remove_mem_frame v w = (r, w') -> sched_wf w'.
Proof.
  intros (Hok & [t Hcur] & Hn). unfold current_remove_mem_frame, locked, current_task_mut.
  rewrite Hcur. destruct (list_find _ _) as [[i f]|]; intros [= <- <-];
    (split; [|split; [by eexists|done]]); [|done].
  by apply (set_current_ok (map_resource (with_alloc_frames (delete i)))).
Qed.

Lemma preempt_wf ic hw w r w' : sched_wf w -> preempt_sched ic hw w = (r, w') -> sched_wf w'.
Proof.
  intros (Hok & [t Hcur] & Hn). unfold preempt_sched, locked. rewrite Hcur.
  set (s1 := set_current _ _). assert (sched_live s1 (NEXT w)) as Hs1.
  { split; [|by eexists]. by apply (set_current_ok (fun t =>
      set_context (save_interrupted ic hw (task_context t)) t)). }
  pose proof (pick_next_task_live _ _ Hs1) as [Hok2 Hc2].
  destruct (pick_next_task s1) as [sw s2]. cbn. intros [= <- <-].
  split; [by apply take_exited_ok|done].
Qed.

Lemma sched_run_wf w r w' : sched_wf w -> sched w = (r, w') -> sched_wf w'.
Proof.
  intros (Hok & Hcur & Hn). unfold sched, locked.
  pose proof (pick_next_task_live _ _ (conj Hok Hcur)) as [Hok2 Hc2].
  destruct (pick_next_task _) as [[[prev next]|] s2]; cbn; intros [= <- <-];
    (split; [by apply take_exited_ok|done]).
Qed.

Lemma ran_inv {A} (m : SR World A) w w' :
  ran m w = Some w' -> exists r, m w = (r, w') /\ r <> Panic.
Proof. unfold ran. destruct (m w) as [[x|x|] w1]; intros [= <-]; eauto. Qed.

Lemma locked_inv {A} (m : SR TaskScheduler A) w r w' :
  locked m w = (r, w') -> exists s', m (TASK_SCHED w) = (r, s') /\ w' = MkWorld s' (NEXT w).
Proof. unfold locked. destruct (m (TASK_SCHED w)) as [x s']. intros [= <- <-]. eauto. Qed.

Lemma ran_locked_live {A} (m : SR TaskScheduler A) w w' :
  preserves m -> sched_wf w -> ran (locked m) w = Some w' -> sched_wf w'.
Proof.
  intros Hm (Hok & Hcur & Hn) (r & (s' & Hrun & ->)%locked_inv & Hr)%ran_inv.
  destruct (Hm _ _ _ _ (conj Hok Hcur) Hrun Hr) as [Hok' Hcur']. done.
Qed.

Lemma TaskId_new_next n : 0 < n < 2 ^ 64 - 1 -> wrap 64 (n + 1) = n + 1.
Proof. intros Hn. apply wrap_small, is_uint_spec. lia. Qed.

Lemma spawn_wf image dwarf pipe w w' :
  sched_wf w -> NEXT w < 2 ^ 64 - 1 -> ran (spawn_user_task image dwarf pipe) w = Some w' -> sched_wf w'.
Proof.
  intros (Hok & [t Hcur] & Hn) Hlt. destruct image as [im|err|].
  - unfold ran. rewrite (spawn_user_task_run _ _ _ _ _ Hcur). intros [= <-].
    rewrite TaskId_new_next by lia. split; [|split; [by eexists|cbn; lia]].
    apply after_spawn_ok; [done..|lia].
  - unfold ran, spawn_user_task, sbind, current_task_id. cbn. rewrite Hcur. cbn.
    intros [= <-]. by split; [|split; [exists t|]].
  - unfold ran, spawn_user_task, sbind, current_task_id. cbn. by rewrite Hcur.
Qed.

Lemma async_wf w w' : sched_wf w -> NEXT w < 2 ^ 64 - 1 -> ran TaskId_new w = Some w' -> sched_wf w'.
Proof.
  intros ((Ht & Hq) & Hcur & Hn) Hlt [= <-]. unfold sched_wf. cbn.
  rewrite TaskId_new_next by lia. split; [|split; [done|lia]].
  split; [|done]. apply (tree_wf_mono _ (NEXT w)); [done|lia].
Qed.

Lemma sched_step_wf w w' : sched_wf w -> sched_step w w' -> sched_wf w'.
Proof.
  intros Hwf (Hlt & op & Hop). pose proof Hwf as (Hok & Hcur & Hn).
  destruct op; cbn [run_sched_op] in Hop;
    try (eapply ran_locked_live; [|exact Hwf|exact Hop]; apply preserves_with_current; by intros t).
  - by eapply spawn_wf.
  - apply ran_inv in Hop as (r & Hrun & Hr). by eapply sched_run_wf.
  - apply ran_inv in Hop as (r & Hrun & Hr). by eapply preempt_wf.
  - eapply ran_locked_live; [|exact Hwf|exact Hop]. intros s n. apply exit_live.
  - eapply ran_locked_live; [|exact Hwf|exact Hop]. intros s n. apply try_sleep_live.
  - eapply ran_locked_live; [|exact Hwf|exact Hop]. apply preserves_take_exit_code.
  - by apply async_wf in Hop.
  - apply ran_inv in Hop as (r & Hrun & Hr). by eapply remove_mem_frame_wf.
Qed.

(** The state after [init]. *)
Definition boot (im : TaskImage) : World :=
  MkWorld (MkTaskScheduler []
    (Some (set_task_state Running (MkTask 0 (image_name im) Ready (image_context im)
       (TaskResource_new (image_page_table im) (image_args_frame im) (image_stack_frame im)
          (image_program_frames im) (None, None, None)) None None None []))) [] [] ∅) 1.

Lemma scheduler_init_boot im :
  scheduler_init (Ok im) (MkWorld TaskScheduler_new 0) = (Ok tt, boot im).
Proof. reflexivity. Qed.

Lemma boot_wf im : sched_wf (boot im).
Proof.
  split; [|split; [by eexists|cbn; lia]]. split.
  - split; [|by intros a ->%list_elem_of_singleton|by intros id [? ?]]. split.
    + apply NoDup_singleton.
    + intros a ->%list_elem_of_singleton. constructor.
    + intros a c ->%list_elem_of_singleton. cbn. split; [by intros ?%not_elem_of_nil|].
      by intros (b & ->%list_elem_of_singleton & _ & ?).
    + by intros a p ->%list_elem_of_singleton.
    + by intros a ->%list_elem_of_singleton.
  - split; cbn; [by intros t [= <-]|by intros t ?%not_elem_of_nil..].
Qed.

(** ** Waiting for one's own children

    A task is expected to wait for its own children, and the kernel task to
    run forever. *)

Definition disciplined (op : sched_op) w : Prop :=
  match op with
  | OpExit _ => current_task_id (TASK_SCHED w) <> Some KERNEL
  | OpSleep c =>
      exists cur, current_task (TASK_SCHED w) = Some cur
                  /\ (c ∈ children cur \/ is_Some (exit_codes (TASK_SCHED w) !! c))
  | _ => True
  end.

Definition disciplined_step w w' : Prop :=
  NEXT w < 2 ^ 64 - 1 /\ exists op, disciplined op w /\ run_sched_op op w = Some w'.

(** Every sleeping task waits for a live child of its own. *)
Definition waits_for_child t : Prop := exists c, waiting_for t = Some c /\ c ∈ children t.

Definition waits_ok s : Prop :=
  (forall t, t ∈ sleeping_tasks s -> waits_for_child t) /\ KERNEL ∈ fid <$> (family <$> tasks s).

Lemma waits_ok_family s s' :
  sleeping_tasks s' = sleeping_tasks s -> family <$> tasks s' ≡ₚ family <$> tasks s ->
  waits_ok s -> waits_ok s'.
Proof. intros HL HF [Hw Hk]. split; [by rewrite HL|by rewrite HF]. Qed.

Lemma elem_of_tasks t s :
  t ∈ tasks s <-> current_task s = Some t \/ t ∈ ready_queue s \/ t ∈ sleeping_tasks s.
Proof.
  unfold tasks. rewrite !elem_of_app. destruct (current_task s) as [u|]; cbn.
  - rewrite list_elem_of_singleton. split; [intros [->|?]; auto|intros [[= ->]|?]; auto].
  - rewrite elem_of_nil. split; [intros [?|?]; [done|auto]|intros [?|?]; [done|auto]].
Qed.

(** The child a family names is a live task of a higher id. *)
Lemma child_live s n t c :
  sched_ok s n -> t ∈ tasks s -> c ∈ children t ->
  exists u, u ∈ tasks s /\ task_id u = c /\ task_parent u = Some (task_id t) /\ task_id t < c.
Proof.
  intros [[Ht _ _] _] Hin Hc.
  apply (tree_children _ Ht (family t)) in Hc as (b & Hb & Hid & Hp); [|by apply list_elem_of_fmap_2].
  pose proof (proj1 (tree_parent _ Ht b _ Hb Hp)) as Hlt.
  apply list_elem_of_fmap in Hb as (u & -> & Hu). exists u. cbn in *. repeat split; [done..|lia].
Qed.

Lemma max_id (l : list Task) :
  l <> [] -> exists m, m ∈ l /\ forall u, u ∈ l -> task_id u <= task_id m.
Proof.
  induction l as [|t l IH]; [done|]. intros _. destruct l as [|t' l'].
  - exists t. split; [by left|]. by intros u ->%list_elem_of_singleton.
  - destruct IH as (m & Hm & Hmax); [done|]. destruct (Z.le_gt_cases (task_id t) (task_id m)).
    + exists m. split; [by right|]. intros u [->|Hu]%elem_of_cons; [done|auto].
    + exists t. split; [by left|]. intros u [->|Hu]%elem_of_cons; [done|]. specialize (Hmax u Hu). lia.
Qed.

(** Some awaited child is ready: the youngest sleeping task waits for it. *)
Lemma sleepers_progress s n :
  sched_ok s n -> current_task s = None ->
  (forall t, t ∈ sleeping_tasks s -> waits_for_child t) -> sleeping_tasks s <> [] ->
  ready_queue s <> [].
Proof.
  intros Hok Hcur Hw HL. destruct (max_id _ HL) as (m & Hm & Hmax).
  destruct (Hw m Hm) as (c & _ & Hc). assert (m ∈ tasks s) as Hin by (apply elem_of_tasks; auto).
  destruct (child_live s n m c Hok Hin Hc) as (u & Hu & <- & _ & Hlt).
  apply elem_of_tasks in Hu as [Hu|[Hu|Hu]]; [congruence| |specialize (Hmax u Hu); lia].
  intros HR. rewrite HR in Hu. by apply not_elem_of_nil in Hu.
Qed.

(** Only the parent waits for a task, and the parent is one task. *)
Lemma waiter_parent s n t c :
  sched_ok s n -> t ∈ sleeping_tasks s -> waits_for_child t -> current_task s = Some c ->
  waiting_for t = Some (task_id c) -> task_parent c = Some (task_id t).
Proof.
  intros Hok Ht (x & Hx & Hc) Hcur Hwt. rewrite Hwt in Hx. injection Hx as <-.
  destruct (child_live s n t _ Hok (proj2 (elem_of_tasks t s) (or_intror (or_intror Ht))) Hc)
    as (u & Hu & Hid & Hp & _).
  enough (u = c) as <- by done. apply (NoDup_fmap_inj task_id (tasks s)); [by eapply sched_ok_nodup|done| |done].
  apply elem_of_tasks. by left.
Qed.

(** A child other than the exiting task stays a child. *)
Lemma bereave_task_child cur t c :
  c ∈ children t -> c <> task_id cur -> c ∈ children (bereave_task cur t).
Proof.
  intros Hc Hne. change (c ∈ fchildren (family (bereave_task cur t))). rewrite family_bereave_task.
  unfold bereave. cbn. assert (c ∈ (if decide (task_parent cur = Some (task_id t)) then
    filter (fun id => id <> task_id cur) (children t) else children t)) as Hk.
  { case_decide; [by apply list_elem_of_filter|done]. }
  destruct (decide (task_id t = _)); [|done]. apply elem_of_app. by left.
Qed.

Section Exit.
Context (s : TaskScheduler) (n code : Z) (cur : Task).
Context (Hok : sched_ok s n) (Hw : waits_ok s) (Hcur : current_task s = Some cur).

Let s1 : TaskScheduler := after_exit code cur s.
Let s2 : TaskScheduler := wake_waiter (task_id cur) s1.

Lemma exit_sleeper_unique t u :
  t ∈ sleeping_tasks s -> u ∈ sleeping_tasks s ->
  waiting_for t = Some (task_id cur) -> waiting_for u = Some (task_id cur) -> t = u.
Proof.
  intros Ht Hu Hwt Hwu. destruct Hw as [Hws _].
  pose proof (waiter_parent s n t cur Hok Ht (Hws t Ht) Hcur Hwt) as Hpt.
  pose proof (waiter_parent s n u cur Hok Hu (Hws u Hu) Hcur Hwu) as Hpu.
  apply (NoDup_fmap_inj task_id (tasks s)); [by eapply sched_ok_nodup|..|congruence];
    apply elem_of_tasks; auto.
Qed.

Lemma exit_sleeper t :
  t ∈ sleeping_tasks s2 ->
  exists t0, t0 ∈ sleeping_tasks s /\ t = bereave_task cur t0 /\ waiting_for t0 <> Some (task_id cur).
Proof.
  unfold s2, wake_waiter. destruct (list_find _ _) as [[i wt]|] eqn:Hf; cbn.
  - apply list_find_Some in Hf as (Hi & Hwt & _). pose proof (delete_Permutation _ _ _ Hi) as HL.
    intros Ht. assert (t ∈ sleeping_tasks s1) as Hin by (rewrite HL; by right).
    assert (wt ∈ sleeping_tasks s1) as Hiw by (rewrite HL; by left).
    apply list_elem_of_fmap in Hin as (t0 & -> & Ht0), Hiw as (w0 & -> & Hw0).
    exists t0. do 2 (split; [done|]). intros Hwt0. rewrite (proj2 (bereave_task_state cur w0)) in Hwt.
    rewrite (exit_sleeper_unique t0 w0 Ht0 Hw0 Hwt0 Hwt) in Ht.
    pose proof (sched_ok_nodup _ _ (after_exit_ok code cur s n Hok Hcur)) as Hnd.
    unfold tasks in Hnd. rewrite !fmap_app in Hnd. apply NoDup_app in Hnd as (_ & _ & Hnd).
    apply NoDup_app in Hnd as (_ & _ & Hnd). fold s1 in Hnd. rewrite HL in Hnd.
    rewrite fmap_cons, NoDup_cons in Hnd. apply (proj1 Hnd). by apply list_elem_of_fmap_2.
  - apply list_find_None in Hf. rewrite Forall_forall in Hf. intros Hin. specialize (Hf t Hin).
    apply list_elem_of_fmap in Hin as (t0 & -> & Ht0). exists t0. do 2 (split; [done|]).
    by rewrite (proj2 (bereave_task_state cur t0)) in Hf.
Qed.

Lemma exit_waits_sleepers t : t ∈ sleeping_tasks s2 -> waits_for_child t.
Proof.
  intros (t0 & Ht0 & -> & Hne)%exit_sleeper. destruct (proj1 Hw t0 Ht0) as (c & Hc & Hin).
  exists c. rewrite (proj2 (bereave_task_state cur t0)). split; [done|].
  apply bereave_task_child; [done|]. congruence.
Qed.

Lemma exit_kernel : task_id cur <> KERNEL -> KERNEL ∈ fid <$> (family <$> tasks s1).
Proof.
  intros Hne. pose proof (proj2 Hw) as Hk. rewrite family_ids in Hk |- *.
  unfold tasks in Hk |- *. rewrite Hcur in Hk. cbn in Hk |- *. rewrite <- fmap_app, <- list_fmap_compose.
  apply elem_of_cons in Hk as [Hk|Hk]; [done|]. erewrite list_fmap_ext; [exact Hk|].
  intros ? t _. apply bereave_task_id.
Qed.

Lemma exit_waits : task_id cur <> KERNEL -> waits_ok s2.
Proof.
  intros Hne. split; [apply exit_waits_sleepers|]. unfold s2. rewrite wake_waiter_family. by apply exit_kernel.
Qed.

(** Somebody can run after the exit. *)
Lemma exit_progress : task_id cur <> KERNEL -> ready_queue s2 <> [].
Proof.
  intros Hne. assert (sched_ok s2 n) as Hok2 by (by apply wake_waiter_ok, after_exit_ok).
  assert (current_task s2 = None) as Hcur2 by (unfold s2; by rewrite wake_waiter_current).
  destruct (sleeping_tasks s2) as [|t l] eqn:HL.
  - intros HR. destruct (exit_waits Hne) as [_ Hk]. unfold tasks in Hk. rewrite Hcur2, HR, HL in Hk.
    by apply not_elem_of_nil in Hk.
  - apply (sleepers_progress s2 n Hok2 Hcur2 exit_waits_sleepers). by rewrite HL.
Qed.

(** The waiting parent is the one that is woken. *)
Lemma exit_wakes p :
  p ∈ sleeping_tasks s -> waiting_for p = Some (task_id cur) ->
  exists L, s2 = set_ready (set_waiting_for None (set_task_state Ready (bereave_task cur p)) :: ready_queue s1)
                   (set_sleeping L s1).
Proof.
  intros Hp Hwp. unfold s2, wake_waiter. destruct (list_find _ _) as [[i wt]|] eqn:Hf.
  - apply list_find_Some in Hf as (Hi & Hwt & _). apply list_elem_of_lookup_2 in Hi.
    apply list_elem_of_fmap in Hi as (w0 & -> & Hw0). rewrite (proj2 (bereave_task_state cur w0)) in Hwt.
    rewrite (exit_sleeper_unique w0 p Hw0 Hp Hwt Hwp). by eexists.
  - apply list_find_None in Hf. rewrite Forall_forall in Hf.
    destruct (Hf (bereave_task cur p)); [by apply list_elem_of_fmap_2|].
    by rewrite (proj2 (bereave_task_state cur p)).
Qed.

(** The exited task is not live any more. *)
Lemma exit_gone : task_id cur ∉ fid <$> (family <$> tasks s2).
Proof.
  unfold s2. rewrite wake_waiter_family, family_ids. unfold tasks. cbn.
  pose proof (sched_ok_nodup _ _ Hok) as Hnd. unfold tasks in Hnd. rewrite Hcur in Hnd. cbn in Hnd.
  apply NoDup_cons in Hnd as [Hnd _]. rewrite <- fmap_app, <- list_fmap_compose.
  erewrite list_fmap_ext; [exact Hnd|]. intros ? t _. apply bereave_task_id.
Qed.

End Exit.

Section Sleep.
Context (s : TaskScheduler) (n child : Z) (cur : Task).
Context (Hok : sched_ok s n) (Hw : waits_ok s) (Hcur : current_task s = Some cur).
Context (Hchild : child ∈ children cur).

Let parked : TaskScheduler :=
  set_sleeping (sleeping_tasks s ++ [set_task_state Sleeping (set_waiting_for (Some child) cur)])
    (set_current None s).

Lemma sleep_waits : waits_ok parked.
Proof.
  split.
  - intros t [Ht| ->%list_elem_of_singleton]%elem_of_app; [by apply Hw|]. by exists child.
  - unfold parked. rewrite park_sleeping_family by done. apply Hw.
Qed.

(** Somebody can run after the running task went to sleep. *)
Lemma sleep_progress : ready_queue parked <> [].
Proof.
  apply (sleepers_progress parked n); [by apply park_sleeping_ok|done|apply sleep_waits|].
  cbn. by intros [_ ?]%app_eq_nil.
Qed.

End Sleep.

Lemma run_next_waits {A} (k : Task -> A) s x s' :
  current_task s = None -> waits_ok s -> run_next k s = (Ok x, s') -> waits_ok s'.
Proof.
  intros Hcur Hw. unfold run_next. destruct (ready_queue s) as [|t rest] eqn:Hr; [done|].
  intros [= _ <-]. eapply waits_ok_family; [..|exact Hw]; [done|]. by rewrite run_next_family.
Qed.

Lemma run_next_no_err {A} (k : Task -> A) s err s' : run_next k s <> (Err err, s').
Proof. unfold run_next. by destruct (ready_queue s). Qed.

Lemma pick_next_waits s : waits_ok s -> waits_ok (snd (pick_next_task s)).
Proof.
  intros Hw. unfold pick_next_task. destruct (current_task s) as [t|] eqn:Hcur; [|done].
  destruct (ready_queue s) as [|u rest] eqn:Hr; [done|]. eapply waits_ok_family; [..|exact Hw]; [done|].
  rewrite <- (park_ready_family s t Hcur). unfold tasks. cbn. by rewrite Hr.
Qed.

Lemma set_current_waits f s t :
  inert f -> current_task s = Some t -> waits_ok s -> waits_ok (set_current (Some (f t)) s).
Proof.
  intros Hf Hcur Hw. eapply waits_ok_family; [..|exact Hw]; [done|]. unfold tasks. rewrite Hcur. cbn.
  by rewrite (proj1 (Hf t)).
Qed.

Lemma with_current_waits f w w' :
  inert f -> waits_ok (TASK_SCHED w) -> ran (locked (with_current f)) w = Some w' -> waits_ok (TASK_SCHED w').
Proof.
  intros Hf Hw (r & (s' & Hrun & ->)%locked_inv & Hr)%ran_inv. unfold with_current, current_task_mut in Hrun.
  destruct (current_task _) as [t|] eqn:Hcur; injection Hrun as <- <-; [|done]. by apply set_current_waits.
Qed.

Lemma spawn_waits image dwarf pipe w w' :
  sched_wf w -> waits_ok (TASK_SCHED w) -> ran (spawn_user_task image dwarf pipe) w = Some w' ->
  waits_ok (TASK_SCHED w').
Proof.
  intros (Hok & [t Hcur] & Hn) Hw. destruct image as [im|err|].
  - unfold ran. rewrite (spawn_user_task_run _ _ _ _ _ Hcur). intros [= <-].
    split; [apply Hw|]. pose proof (proj2 Hw) as Hk. rewrite family_ids in Hk |- *.
    unfold tasks in *. cbn. rewrite Hcur in Hk. cbn in Hk. rewrite !fmap_app in *.
    rewrite elem_of_cons, ?elem_of_app in *. tauto.
  - unfold ran, spawn_user_task, sbind, current_task_id. cbn. rewrite Hcur. cbn. by intros [= <-].
  - unfold ran, spawn_user_task, sbind, current_task_id. cbn. by rewrite Hcur.
Qed.

Lemma exit_step_waits code w w' :
  sched_wf w -> waits_ok (TASK_SCHED w) -> current_task_id (TASK_SCHED w) <> Some KERNEL ->
  ran (exit_current code) w = Some w' -> waits_ok (TASK_SCHED w').
Proof.
  intros (Hok & [t Hcur] & Hn) Hw Hk (r & (s' & Hrun & ->)%locked_inv & Hr)%ran_inv.
  unfold current_task_id in Hk. rewrite Hcur in Hk.
  rewrite (exit_run code _ t Hcur (sched_ok_nodup _ _ Hok)) in Hrun.
  destruct r as [x|e|]; [|by apply run_next_no_err in Hrun|done].
  refine (run_next_waits _ _ _ _ _ _ Hrun); [by rewrite wake_waiter_current|].
  eapply exit_waits; [done..|]. intros Heq. apply Hk. cbn. by rewrite Heq.
Qed.

Lemma sleep_step_waits child w w' :
  sched_wf w -> waits_ok (TASK_SCHED w) -> disciplined (OpSleep child) w ->
  ran (sleep_waiting_for child) w = Some w' -> waits_ok (TASK_SCHED w').
Proof.
  intros (Hok & _ & _) Hw (t & Hcur & Hc) (r & (s' & Hrun & ->)%locked_inv & Hr)%ran_inv.
  unfold try_sleep_current_waiting_for in Hrun. cbn in Hrun.
  case_decide as Hcode; [by injection Hrun as <- <-|]. destruct Hc as [Hc|Hc]; [|done].
  unfold sbind in Hrun. rewrite (sleep_run child _ t Hcur) in Hrun.
  destruct (run_next _ _) as [[x|e|] s1] eqn:Hnext; injection Hrun as <- <-; [| |done].
  - refine (run_next_waits _ _ _ _ _ _ Hnext); [done|]. by eapply sleep_waits.
  - by apply run_next_no_err in Hnext.
Qed.

Lemma disciplined_step_wf w w' :
  sched_wf w /\ waits_ok (TASK_SCHED w) -> disciplined_step w w' ->
  sched_wf w' /\ waits_ok (TASK_SCHED w').
Proof.
  intros [Hwf Hw] (Hlt & op & Hd & Hop).
  split; [by apply (sched_step_wf w); [|split; [|exists op]]|].
  destruct op; cbn [run_sched_op] in Hop; try (eapply with_current_waits; [|exact Hw|exact Hop]; by intros t).
  - by eapply spawn_waits.
  - unfold sched in Hop. apply ran_inv in Hop as (r & (s' & Hrun & ->)%locked_inv & Hr). pose proof (pick_next_waits _ Hw) as Hp.
    destruct (pick_next_task _) as [[[]|] s2]; cbn in *; by injection Hrun as <- <-.
  - unfold preempt_sched in Hop. apply ran_inv in Hop as (r & (s' & Hrun & ->)%locked_inv & Hr).
    destruct Hwf as (_ & [t Hcur] & _). rewrite Hcur in Hrun.
    pose proof (pick_next_waits _ (set_current_waits (fun t =>
      set_context (save_interrupted ic hw (task_context t)) t) _ _ (fun _ => conj eq_refl
      (conj eq_refl eq_refl)) Hcur Hw)) as Hp.
    destruct (pick_next_task _) as [sw s2]; cbn in *; by injection Hrun as <- <-.
  - by eapply exit_step_waits.
  - by eapply sleep_step_waits.
  - by injection Hop as <-.
  - by injection Hop as <-.
  - unfold current_remove_mem_frame in Hop.
    apply ran_inv in Hop as (r & (s' & Hrun & ->)%locked_inv & Hr). unfold current_task_mut in Hrun.
    destruct (current_task _) as [t|] eqn:Hcur; [|by injection Hrun as <- <-].
    destruct (list_find _ _) as [[i f]|]; injection Hrun as <- <-; [|done].
    by apply (set_current_waits (map_resource (with_alloc_frames (delete i)))).
Qed.

Lemma boot_waits im : waits_ok (TASK_SCHED (boot im)).
Proof. split; [by intros t ?%not_elem_of_nil|by apply list_elem_of_singleton]. Qed.

(** ** Round robin *)

(** The scheduler whose running and ready tasks are the ring [q]. *)
Definition unring (q : list Task) s : TaskScheduler :=
  match q with
  | [] => s
  | t :: l => set_current (Some (set_task_state Running t)) (set_ready (set_task_state Ready <$> l) s)
  end.

(** The context holds every register the interrupt found. *)
Definition resumes (c : CpuContext) (x : InterruptedContext * CpuRegisters) : Prop :=
  let '(ic, hw) := x in
  [ctx_rip c; ctx_rflags c; ctx_cs c; ctx_ss c; ctx_rsp c; ctx_rbp c]
  = [ic_rip ic; ic_rflags ic; ic_cs ic; ic_ss ic; ic_rsp ic; ic_rbp ic]
  /\ [ctx_rax c; ctx_rbx c; ctx_rcx c; ctx_rdx c; ctx_rdi c; ctx_rsi c]
     = [ic_rax ic; ic_rbx ic; ic_rcx ic; ic_rdx ic; ic_rdi ic; ic_rsi ic]
  /\ [ctx_r8 c; ctx_r9 c; ctx_r10 c; ctx_r11 c; ctx_r12 c; ctx_r13 c; ctx_r14 c; ctx_r15 c]
     = [ic_r8 ic; ic_r9 ic; ic_r10 ic; ic_r11 ic; ic_r12 ic; ic_r13 ic; ic_r14 ic; ic_r15 ic]
  /\ [ctx_cr3 c; ctx_fs c; ctx_gs c] = [hw_cr3 hw; hw_fs hw; hw_gs hw] /\ ctx_fpu c = hw_fpu hw.

(** A sequence of timer interrupts, each with the registers it finds; the
    result is the context the last one continues with. *)
Definition preempts (xs : list (InterruptedContext * CpuRegisters)) w : option CpuContext * World :=
  foldl (fun '(_, w) x =>
           match preempt_sched (fst x) (snd x) w with
           | (Ok (c, _), w') => (c, w')
           | (_, w') => (None, w')
           end) (None, w) xs.

Definition saved t (x : InterruptedContext * CpuRegisters) : Task :=
  set_context (save_interrupted (fst x) (snd x) (task_context t)) t.

Lemma unring_self s t :
  queues_ok s -> current_task s = Some t -> unring (t :: ready_queue s) s = s.
Proof.
  intros [H1 H2 _ _] Hcur. destruct s as [R c X L codes]. cbn in *. subst c. unfold unring, set_current, set_ready. cbn.
  f_equal.
  - rewrite <- (list_fmap_id R) at 2. apply list_fmap_ext. intros i u Hu.
    apply list_elem_of_lookup_2 in Hu. destruct (H2 u Hu) as [Hs _]. destruct u; cbn in *. by subst.
  - f_equal. destruct (H1 t eq_refl) as [Hs _]. destruct t; cbn in *. by subst.
Qed.

Lemma pick_unring t l s : snd (pick_next_task (unring (t :: l) s)) = unring (l ++ [t]) s.
Proof.
  destruct l as [|u l]; [done|]. unfold pick_next_task. cbn. unfold set_current, set_ready. cbn.
  by rewrite fmap_app.
Qed.

Lemma preempt_unring x t u l s n :
  preempt_sched (fst x) (snd x) (MkWorld (unring (t :: u :: l) s) n) =
  (Ok (Some (task_context u), exited_tasks s),
   MkWorld (unring ((u :: l) ++ [saved t x]) (set_exited [] s)) n).
Proof.
  unfold preempt_sched, locked, take_exited, sbind, sret. cbn. unfold set_current, set_ready, set_exited. cbn.
  by rewrite fmap_app.
Qed.

(** After [k] interrupts the ring has turned by [k], and the tasks that ran
    have their registers saved. *)
Lemma preempts_ring xs q s n :
  (2 <= length q)%nat -> (0 < length xs <= length q)%nat ->
  let q' := drop (length xs) q ++ zip_with saved q xs in
  preempts xs (MkWorld (unring q s) n)
  = (task_context <$> head q', MkWorld (unring q' (set_exited [] s)) n).
Proof.
  intros Hq. induction xs as [|x xs IH] using rev_ind; [cbn; lia|]. rewrite length_app. cbn [length].
  intros Hk. destruct (lookup_lt_is_Some_2 q (length xs) ltac:(lia)) as [t Ht].
  assert (drop (length xs) q = t :: drop (S (length xs)) q) as Hd by (by apply drop_S).
  set (zs := zip_with saved q xs) in *.
  assert (zip_with saved q (xs ++ [x]) = zs ++ [saved t x]) as Hz.
  { rewrite <- (take_drop (length xs) q) at 1. rewrite zip_with_app by (rewrite length_take; lia).
    rewrite Hd, zip_with_take_l by lia. cbn. by rewrite zip_with_nil_r. }
  rewrite Hz. cbn zeta. replace (length xs + 1)%nat with (S (length xs)) by lia.
  unfold preempts. rewrite foldl_app. fold (preempts xs (MkWorld (unring q s) n)).
  assert (exists s0, preempts xs (MkWorld (unring q s) n)
      = (fst (preempts xs (MkWorld (unring q s) n)),
         MkWorld (unring (t :: drop (S (length xs)) q ++ zs) s0) n)
      /\ set_exited [] s0 = set_exited [] s) as (s0 & -> & Hs0).
  { destruct xs as [|y xs']; [|rewrite IH by (cbn in *; lia); rewrite Hd; by eexists].
    exists s. split; [|done]. cbn. unfold zs. rewrite zip_with_nil_r, app_nil_r.
    cbn in Hd. rewrite drop_0 in Hd. by rewrite Hd at 1. }
  destruct (drop (S (length xs)) q ++ zs) as [|u l] eqn:Hul.
  { apply (f_equal length) in Hul. rewrite length_app, length_drop in Hul. unfold zs in Hul.
    rewrite length_zip_with in Hul. cbn in Hul. lia. }
  cbn [foldl]. rewrite (assoc_L (++)), Hul, preempt_unring, Hs0. done.
Qed.

(** ** Sleeping forever *)

(** Sleeping tasks that wait for [c] keep doing so, and [c] stays dead. *)
Definition strands (c : Z) s s' : Prop :=
  (forall u, u ∈ sleeping_tasks s -> waiting_for u = Some c ->
     exists u', u' ∈ sleeping_tasks s' /\ task_id u' = task_id u /\ waiting_for u' = Some c)
  /\ (c ∉ fid <$> (family <$> tasks s) -> c ∉ fid <$> (family <$> tasks s')).

Lemma strands_same c s s' :
  sleeping_tasks s' = sleeping_tasks s -> family <$> tasks s' ≡ₚ family <$> tasks s -> strands c s s'.
Proof. intros HL HF. split; [rewrite HL; eauto|by rewrite HF]. Qed.

Lemma strands_trans c s1 s2 s3 : strands c s1 s2 -> strands c s2 s3 -> strands c s1 s3.
Proof.
  intros [Ha Hb] [Hc Hd]. split; [|auto]. intros u Hu Hwu. destruct (Ha u Hu Hwu) as (v & Hv & Hid & Hwv).
  destruct (Hc v Hv Hwv) as (x & Hx & Hid' & Hwx). exists x. by rewrite <- Hid.
Qed.

Lemma strands_run_next {A} (k : Task -> A) c s x s' :
  current_task s = None -> run_next k s = (Ok x, s') -> strands c s s'.
Proof.
  intros Hcur. unfold run_next. destruct (ready_queue s) as [|t rest] eqn:Hr; [done|].
  intros [= _ <-]. apply strands_same; [done|]. by rewrite run_next_family.
Qed.

Lemma strands_wake c id s : c <> id -> strands c s (wake_waiter id s).
Proof.
  intros Hne. split; [|by rewrite wake_waiter_family]. unfold wake_waiter.
  destruct (list_find _ _) as [[i wt]|] eqn:Hf; [|by eauto].
  apply list_find_Some in Hf as (Hi & Hwt & _). pose proof (delete_Permutation _ _ _ Hi) as HL.
  intros u Hu Hwu. rewrite HL in Hu. apply elem_of_cons in Hu as [->|Hu]; [congruence|]. cbn. eauto.
Qed.

Lemma strands_after_exit c code cur s :
  current_task s = Some cur -> strands c s (after_exit code cur s).
Proof.
  intros Hcur. split.
  - intros u Hu Hwu. exists (bereave_task cur u). split; [by apply list_elem_of_fmap_2|].
    by rewrite bereave_task_id, (proj2 (bereave_task_state cur u)).
  - rewrite !family_ids. unfold tasks. rewrite Hcur. cbn.
    rewrite <- fmap_app, <- list_fmap_compose. rewrite not_elem_of_cons. intros [_ Hc].
    erewrite list_fmap_ext; [exact Hc|]. intros ? t _. apply bereave_task_id.
Qed.

Lemma strands_with_current f c w w' :
  inert f -> ran (locked (with_current f)) w = Some w' -> strands c (TASK_SCHED w) (TASK_SCHED w').
Proof.
  intros Hf (r & (s' & Hrun & ->)%locked_inv & Hr)%ran_inv. unfold with_current, current_task_mut in Hrun.
  destruct (current_task _) as [t|] eqn:Hcur; injection Hrun as <- <-; [|by apply strands_same].
  apply strands_same; [done|]. unfold tasks. rewrite Hcur. cbn. by rewrite (proj1 (Hf t)).
Qed.

Lemma strands_pick c s : strands c s (snd (pick_next_task s)).
Proof.
  unfold pick_next_task. destruct (current_task s) as [t|] eqn:Hcur; [|by apply strands_same].
  destruct (ready_queue s) as [|u rest] eqn:Hr; [by apply strands_same|]. apply strands_same; [done|].
  rewrite <- (park_ready_family s t Hcur). unfold tasks. cbn. by rewrite Hr.
Qed.

Lemma strands_exit c code w w' :
  sched_wf w -> c ∉ fid <$> (family <$> tasks (TASK_SCHED w)) ->
  ran (exit_current code) w = Some w' -> strands c (TASK_SCHED w) (TASK_SCHED w').
Proof.
  intros (Hok & [t Hcur] & Hn) Hc (r & (s' & Hrun & ->)%locked_inv & Hr)%ran_inv.
  rewrite (exit_run code _ t Hcur (sched_ok_nodup _ _ Hok)) in Hrun.
  destruct r as [x|err|]; [|by apply run_next_no_err in Hrun|done].
  eapply strands_trans; [by apply (strands_after_exit c code)|].
  eapply strands_trans; [|eapply strands_run_next; [|exact Hrun]; by rewrite wake_waiter_current].
  apply strands_wake. intros ->. apply Hc. rewrite family_ids. apply list_elem_of_fmap_2, elem_of_tasks.
  by left.
Qed.

Lemma strands_sleep c child w w' :
  sched_wf w -> ran (sleep_waiting_for child) w = Some w' -> strands c (TASK_SCHED w) (TASK_SCHED w').
Proof.
  intros (Hok & [t Hcur] & _) (r & (s' & Hrun & ->)%locked_inv & Hr)%ran_inv.
  unfold try_sleep_current_waiting_for in Hrun. cbn in Hrun.
  case_decide; [injection Hrun as <- <-; by apply strands_same|].
  unfold sbind in Hrun. rewrite (sleep_run child _ t Hcur) in Hrun.
  destruct (run_next _ _) as [[x|err|] s1] eqn:Hnext; injection Hrun as <- <-; [| |done].
  - eapply strands_trans; [|by eapply strands_run_next; [|exact Hnext]].
    split; [|by rewrite park_sleeping_family]. intros u Hu Hwu. exists u. split; [|done].
    cbn. apply elem_of_app. by left.
  - by apply run_next_no_err in Hnext.
Qed.

Lemma strands_spawn c image dwarf pipe w w' :
  sched_wf w -> c <> NEXT w -> ran (spawn_user_task image dwarf pipe) w = Some w' ->
  strands c (TASK_SCHED w) (TASK_SCHED w').
Proof.
  intros (Hok & [t Hcur] & Hn) Hc. destruct image as [im|err|].
  - unfold ran. rewrite (spawn_user_task_run _ _ _ _ _ Hcur). intros [= <-].
    split; [by eauto|]. rewrite !family_ids. unfold tasks. cbn. rewrite Hcur. cbn. rewrite !fmap_app.
    cbn. rewrite !not_elem_of_cons, !not_elem_of_app, not_elem_of_cons.
    pose proof (not_elem_of_nil c). tauto.
  - unfold ran, spawn_user_task, sbind, current_task_id. cbn. rewrite Hcur. cbn.
    intros [= <-]. by apply strands_same.
  - unfold ran, spawn_user_task, sbind, current_task_id. cbn. by rewrite Hcur.
Qed.

Lemma strands_step c w w' :
  sched_wf w -> c < NEXT w -> c ∉ fid <$> (family <$> tasks (TASK_SCHED w)) -> sched_step w w' ->
  strands c (TASK_SCHED w) (TASK_SCHED w').
Proof.
  intros Hwf Hlt Hc (Hn & op & Hop).
  destruct op; cbn [run_sched_op] in Hop; try (eapply strands_with_current; [|exact Hop]; by intros t).
  - eapply strands_spawn; [done| |exact Hop]. lia.
  - unfold sched in Hop. apply ran_inv in Hop as (r & (s' & Hrun & ->)%locked_inv & Hr).
    pose proof (strands_pick c (TASK_SCHED w)) as Hp.
    destruct (pick_next_task _) as [[[]|] s2]; cbn in *; by injection Hrun as <- <-.
  - unfold preempt_sched in Hop. apply ran_inv in Hop as (r & (s' & Hrun & ->)%locked_inv & Hr).
    destruct Hwf as (_ & [t Hcur] & _). rewrite Hcur in Hrun. set (s1 := set_current _ _) in Hrun.
    pose proof (strands_pick c s1) as Hp. apply (strands_trans c _ s1).
    + apply strands_same; [done|]. unfold tasks. by rewrite Hcur.
    + destruct (pick_next_task _) as [sw s2]; cbn in *; by injection Hrun as <- <-.
  - by eapply strands_exit.
  - by eapply strands_sleep.
  - injection Hop as <-. by apply strands_same.
  - injection Hop as <-. by apply strands_same.
  - unfold current_remove_mem_frame in Hop.
    apply ran_inv in Hop as (r & (s' & Hrun & ->)%locked_inv & Hr). unfold current_task_mut in Hrun.
    destruct (current_task _) as [t|] eqn:Hcur; [|injection Hrun as <- <-; by apply strands_same].
    destruct (list_find _ _) as [[i f]|]; injection Hrun as <- <-; [|by apply strands_same].
    apply strands_same; [done|]. unfold tasks. by rewrite Hcur.
Qed.

Lemma sched_step_next w w' : sched_wf w -> sched_step w w' -> NEXT w <= NEXT w'.
Proof.
  intros (Hok & [t Hcur] & Hn0) (Hn & op & Hop).
  assert (Hl : forall A (m : SR TaskScheduler A), ran (locked m) w = Some w' -> NEXT w <= NEXT w').
  { intros A m (r & (s' & _ & ->)%locked_inv & _)%ran_inv. cbn. lia. }
  destruct op as [image dwarf pipe| | | | | | | | | | | |]; cbn [run_sched_op] in Hop;
    unfold sched, preempt_sched, take_exit_code, current_remove_mem_frame in Hop;
    try (by eapply Hl).
  - destruct image as [im|err|]; unfold ran in Hop.
    + rewrite (spawn_user_task_run _ _ _ _ _ Hcur) in Hop. injection Hop as <-. cbn.
      rewrite TaskId_new_next by lia. lia.
    + unfold spawn_user_task, sbind, current_task_id in Hop. cbn in Hop. rewrite Hcur in Hop. cbn in Hop.
      injection Hop as <-. cbn. lia.
    + unfold spawn_user_task, sbind, current_task_id in Hop. cbn in Hop. by rewrite Hcur in Hop.
  - injection Hop as <-. cbn. rewrite TaskId_new_next by lia. lia.
Qed.

(** A sleeping task whose target is dead never wakes up. *)
Definition stranded (i c : Z) w : Prop :=
  (exists u, u ∈ sleeping_tasks (TASK_SCHED w) /\ task_id u = i /\ waiting_for u = Some c)
  /\ (c ∉ fid <$> (family <$> tasks (TASK_SCHED w))) /\ c < NEXT w.

Lemma stranded_forever i c w w' :
  sched_wf w -> stranded i c w -> reach sched_step w w' -> stranded i c w'.
Proof.
  intros Hwf Hst Hr. enough (sched_wf w' /\ stranded i c w') by tauto.
  eapply (reach_invariant sched_step (fun w => sched_wf w /\ stranded i c w)); [done| |exact Hr].
  intros w1 w2 [Hwf1 ((u & Hu & Hid & Hwu) & Hdead & Hlt)] Hstep.
  split; [by eapply sched_step_wf|]. destruct (strands_step c w1 w2 Hwf1 Hlt Hdead Hstep) as [Ha Hb].
  pose proof (sched_step_next _ _ Hwf1 Hstep). split; [|split; [auto|lia]].
  destruct (Ha u Hu Hwu) as (v & Hv & Hidv & Hwv). exists v. by rewrite Hidv.
Qed.

(** Of two waiting tasks one is still asleep after the exit. *)
Lemma exit_leaves_waiter s n code cur t1 t2 :
  sched_ok s n -> current_task s = Some cur ->
  t1 ∈ sleeping_tasks s -> t2 ∈ sleeping_tasks s -> task_id t1 <> task_id t2 ->
  waiting_for t1 = Some (task_id cur) -> waiting_for t2 = Some (task_id cur) ->
  exists u, u ∈ sleeping_tasks (wake_waiter (task_id cur) (after_exit code cur s))
            /\ (task_id u = task_id t1 \/ task_id u = task_id t2)
            /\ waiting_for u = Some (task_id cur).
Proof.
  intros Hok Hcur H1 H2 Hne Hw1 Hw2. set (b := bereave_task cur).
  assert (b t1 ∈ b <$> sleeping_tasks s /\ b t2 ∈ b <$> sleeping_tasks s) as [Hb1 Hb2]
    by (by split; apply list_elem_of_fmap_2).
  destruct (bereave_task_state cur t1) as [_ Hs1], (bereave_task_state cur t2) as [_ Hs2].
  pose proof (bereave_task_id cur t1) as Hi1. pose proof (bereave_task_id cur t2) as Hi2.
  fold b in Hs1, Hs2, Hi1, Hi2. rewrite <- Hs1 in Hw1. rewrite <- Hs2 in Hw2.
  unfold wake_waiter. cbn [sleeping_tasks after_exit set_exit_codes set_exited smap set_current]. fold b.
  destruct (list_find _ _) as [[i wt]|] eqn:Hf; [|exists (b t1); rewrite Hi1; auto].
  apply list_find_Some in Hf as (Hi & _ & _). pose proof (delete_Permutation _ _ _ Hi) as HL.
  rewrite HL in Hb1, Hb2. cbn.
  apply elem_of_cons in Hb1 as [Hb1|Hb1]; [|exists (b t1); rewrite Hi1; auto].
  apply elem_of_cons in Hb2 as [Hb2|Hb2]; [congruence|exists (b t2); rewrite Hi2; auto].
Qed.

(** A concrete sequence of operations. *)
Fixpoint run_ops (ops : list sched_op) w : option World :=
  match ops with
  | [] => Some w
  | op :: ops =>
      if NEXT w <? 2 ^ 64 - 1
      then match run_sched_op op w with Some w' => run_ops ops w' | None => None end
      else None
  end.

Lemma run_ops_reach ops w0 w w' :
  reach sched_step w0 w -> run_ops ops w = Some w' -> reach sched_step w0 w'.
Proof.
  revert w. induction ops as [|op ops IH]; intros w Hr; cbn; [by intros [= <-]|].
  destruct (Z.ltb_spec (NEXT w) (2 ^ 64 - 1)); [|done].
  destruct (run_sched_op op w) as [w1|] eqn:Hop; [|done]. apply IH. eapply reach_step; [exact Hr|].
  split; [done|by exists op].
Qed.

(** ** Properties *)

(** C23: in every state the kernel can reach from [scheduler::init], whatever
    the tasks and interrupts do, every live task is in exactly one queue and in
    that queue's state, a task is running, ids are unique and below the
    counter, the [parent] and [children] fields describe the same tree of live
    tasks (children of an exited task belong to its parent), and the recorded
    exit codes are of dead tasks. *)
Theorem scheduler_invariant (im : TaskImage) w0 w :
  scheduler_init (Ok im) (MkWorld TaskScheduler_new 0) = (Ok tt, w0) ->
  reach sched_step w0 w -> sched_wf w.
Proof.
  rewrite scheduler_init_boot. intros [= <-]. apply (reach_invariant sched_step); [apply boot_wf|].
  apply sched_step_wf.
Qed.

(** C21: when tasks wait only for their own children and the kernel task does
    not exit, nobody waits in vain and the scheduler never runs dry: every
    sleeping task waits for a live child of its own, and neither going to
    sleep nor exiting panics for want of a task to run. *)
Theorem wait_exit_never_stuck (im : TaskImage) w0 w :
  scheduler_init (Ok im) (MkWorld TaskScheduler_new 0) = (Ok tt, w0) ->
  reach disciplined_step w0 w ->
  (forall t, t ∈ sleeping_tasks (TASK_SCHED w) ->
     exists u, u ∈ tasks (TASK_SCHED w) /\ waiting_for t = Some (task_id u)
               /\ task_parent u = Some (task_id t))
  /\ (forall code, current_task_id (TASK_SCHED w) <> Some KERNEL ->
        exists r w', exit_current code w = (Ok r, w'))
  /\ (forall c, disciplined (OpSleep c) w -> exists r w', sleep_waiting_for c w = (Ok r, w')).
Proof.
  rewrite scheduler_init_boot. intros [= <-] Hreach.
  apply (reach_invariant disciplined_step (fun w => sched_wf w /\ waits_ok (TASK_SCHED w))) in Hreach
    as [(Hok & [cur Hcur] & Hn) Hw]; [|by split; [apply boot_wf|apply boot_waits]|apply disciplined_step_wf].
  split; [|split].
  - intros t Ht. destruct (proj1 Hw t Ht) as (c & Hc & Hin).
    destruct (child_live _ _ t c Hok (proj2 (elem_of_tasks _ _) (or_intror (or_intror Ht))) Hin)
      as (u & Hu & <- & Hp & _). eauto.
  - intros code Hk. unfold current_task_id in Hk. rewrite Hcur in Hk.
    assert (task_id cur <> KERNEL) as Hne by (intros Heq; apply Hk; cbn; by rewrite Heq).
    pose proof (exit_progress _ _ code cur Hok Hw Hcur Hne) as Hr.
    unfold exit_current, locked. rewrite (exit_run code _ cur Hcur (sched_ok_nodup _ _ Hok)). unfold run_next.
    destruct (ready_queue _); [done|eauto].
  - intros c (cur' & Hcur' & Hc). rewrite Hcur in Hcur'. injection Hcur' as <-.
    unfold sleep_waiting_for, locked, try_sleep_current_waiting_for. cbn. case_decide; [eauto|].
    destruct Hc as [Hc|Hc]; [|done]. unfold sbind. rewrite (sleep_run c _ cur Hcur). unfold run_next.
    pose proof (sleep_progress _ _ c cur Hok Hw Hcur Hc). cbn in *. destruct (ready_queue _); [done|]. cbn. eauto.
Qed.

(** when a task exits while its parent waits for it, the parent is the next
    task to run, awake and rid of the child but in charge of its orphans, the
    dead task is gone from every queue, and the parent collects exactly its
    exit code, once. *)
Theorem exit_wakes_parent (im : TaskImage) w0 w cur p code :
  scheduler_init (Ok im) (MkWorld TaskScheduler_new 0) = (Ok tt, w0) ->
  reach disciplined_step w0 w ->
  current_task (TASK_SCHED w) = Some cur -> p ∈ sleeping_tasks (TASK_SCHED w) ->
  waiting_for p = Some (task_id cur) ->
  exists next stale w',
    exit_current code w = (Ok (dead code cur, next, stale), w')
    /\ current_task (TASK_SCHED w') = Some next
    /\ task_id next = task_id p /\ task_state next = Running /\ waiting_for next = None
    /\ (task_id cur ∉ children next) /\ (forall c, c ∈ children cur -> c ∈ children next)
    /\ (task_id cur ∉ task_ids (TASK_SCHED w'))
    /\ (let '(r, w'') := collect_exit_code (task_id cur) w' in
        r = Ok code /\ fst (collect_exit_code (task_id cur) w'')
                       = Err (with_context NotFound "exit code")).
Proof.
  rewrite scheduler_init_boot. intros [= <-] Hreach Hcur Hp Hwp.
  apply (reach_invariant disciplined_step (fun w => sched_wf w /\ waits_ok (TASK_SCHED w))) in Hreach
    as [(Hok & _ & Hn) Hw]; [|by split; [apply boot_wf|apply boot_waits]|apply disciplined_step_wf].
  set (s := TASK_SCHED w) in *. pose proof (exit_run code s cur Hcur (sched_ok_nodup _ _ Hok)) as Hrun.
  pose proof (exit_gone s _ code cur Hok Hcur) as Hgone.
  destruct (exit_wakes s _ code cur Hok Hw Hcur p Hp Hwp) as [L HL]. rewrite HL in Hrun, Hgone.
  unfold run_next in Hrun. cbn [ready_queue set_ready] in Hrun.
  set (next := set_task_state Running (set_waiting_for None (set_task_state Ready (bereave_task cur p)))).
  exists next, (exited_tasks s). eexists. unfold exit_current, locked. fold s. rewrite Hrun.
  split; [reflexivity|]. split; [reflexivity|].
  pose proof (waiter_parent s _ p cur Hok Hp (proj1 Hw p Hp) Hcur Hwp) as Hparent.
  assert (children next = filter (fun id => id <> task_id cur) (children p) ++ children cur) as Hkids.
  { change (children next) with (fchildren (family (bereave_task cur p))).
    rewrite family_bereave_task. unfold bereave. cbn. rewrite Hparent. cbn. by rewrite !decide_True. }
  split; [by apply bereave_task_id|]. split; [done|]. split; [done|].
  rewrite (family_ids (tasks _)) in Hgone.
  split; [|split; [|split]].
  - rewrite Hkids. intros [[? _]%list_elem_of_filter|Hin]%elem_of_app; [done|].
    apply (child_live s _ cur _ Hok) in Hin as (u & _ & _ & _ & Hlt); [lia|]. apply elem_of_tasks. by left.
  - intros c Hc. rewrite Hkids. apply elem_of_app. by right.
  - unfold task_ids. cbn. unfold tasks in Hgone. cbn in Hgone. rewrite fmap_app in Hgone.
    rewrite !not_elem_of_app, ?not_elem_of_cons, ?not_elem_of_app in *. pose proof (not_elem_of_nil (task_id cur)). tauto.
  - unfold collect_exit_code, take_exit_code, locked, sbind, slift. cbn.
    rewrite lookup_insert_eq. cbn. by rewrite lookup_delete_eq.
Qed.


(** C24: preemption is round robin and transparent: with [l] the ready queue,
    the [k]-th timer interrupt continues the [k]-th task of [l] with its saved
    registers, and the interrupt that completes the round continues the first
    task with exactly the registers its interrupt found, the queue in the old
    order. *)
Theorem preemption_round_robin w t x xs :
  sched_wf w -> current_task (TASK_SCHED w) = Some t ->
  ready_queue (TASK_SCHED w) <> [] -> length xs = length (ready_queue (TASK_SCHED w)) ->
  (forall k u, ready_queue (TASK_SCHED w) !! k = Some u ->
     let '(c, w') := preempts (take (S k) (x :: xs)) w in
     c = Some (task_context u) /\ current_task_id (TASK_SCHED w') = Some (task_id u))
  /\ (let '(c, w') := preempts (x :: xs) w in
      (exists ctx, c = Some ctx /\ resumes ctx x)
      /\ current_task_id (TASK_SCHED w') = Some (task_id t)
      /\ task_id <$> ready_queue (TASK_SCHED w') = task_id <$> ready_queue (TASK_SCHED w)).
Proof.
  intros ((_ & Hq) & _) Hcur Hne Hlen. destruct w as [s n]. cbn [TASK_SCHED NEXT] in *.
  set (l := ready_queue s) in *.
  assert (0 < length l)%nat as Hpos by (destruct l; [done|cbn; lia]).
  rewrite <- (unring_self s t Hq Hcur). fold l. split.
  - intros k u Hu. pose proof (lookup_lt_Some _ _ _ Hu). rewrite preempts_ring by
      (cbn; rewrite ?length_take; lia).
    cbn [take length drop]. rewrite length_take, (min_l k) by lia. rewrite (drop_S l u k Hu). done.
  - rewrite preempts_ring by (cbn; lia). cbn [length drop]. rewrite Hlen, drop_all. cbn [app zip_with head].
    split; [by eexists; split; [reflexivity|destruct x]|]. split; [done|]. cbn. rewrite <- list_fmap_compose.
    clear -Hlen. revert xs Hlen. induction l as [|u l IH]; intros [|y ys]; cbn; intros Hl; [done..|].
    f_equal. apply IH. lia.
Qed.

(** C40: an exiting task wakes one waiting task only: of two tasks that wait for
    it, one stays asleep in every state reachable afterwards. *)
Theorem second_waiter_sleeps_forever w cur t1 t2 code r w' :
  sched_wf w -> current_task (TASK_SCHED w) = Some cur ->
  t1 ∈ sleeping_tasks (TASK_SCHED w) -> t2 ∈ sleeping_tasks (TASK_SCHED w) ->
  task_id t1 <> task_id t2 ->
  waiting_for t1 = Some (task_id cur) -> waiting_for t2 = Some (task_id cur) ->
  exit_current code w = (Ok r, w') ->
  exists i, (i = task_id t1 \/ i = task_id t2) /\
  forall w'', reach sched_step w' w'' ->
    exists u, u ∈ sleeping_tasks (TASK_SCHED w'') /\ task_id u = i
              /\ waiting_for u = Some (task_id cur).
Proof.
  intros Hwf Hcur H1 H2 Hne Hw1 Hw2 Hexit. pose proof Hwf as (Hok & _ & Hn).
  destruct (exit_leaves_waiter (TASK_SCHED w) (NEXT w) code cur t1 t2) as (u & Hu & Hid & Hwu); [done..|].
  exists (task_id u). split; [done|]. intros w'' Hreach.
  enough (stranded (task_id u) (task_id cur) w') as Hst.
  { eapply stranded_forever in Hreach as [? _]; [done| |exact Hst]. eapply ran_locked_live; [|exact Hwf|].
    - intros s n. apply exit_live.
    - unfold exit_current in Hexit. unfold ran. by rewrite Hexit. }
  pose proof (exit_gone (TASK_SCHED w) _ code cur Hok Hcur) as Hgone.
  apply locked_inv in Hexit as (s' & Hrun & ->).
  rewrite (exit_run code _ cur Hcur (sched_ok_nodup _ _ Hok)) in Hrun.
  pose proof (wake_waiter_current (task_id cur) (after_exit code cur (TASK_SCHED w))) as Hc2.
  destruct (strands_run_next _ (task_id cur) _ _ _ Hc2 Hrun) as [Ha Hb].
  split; [|split; [by apply Hb|]].
  - destruct (Ha u Hu Hwu) as (v & ? & ? & ?). eauto.
  - cbn. apply (wf_bound _ _ _ (proj1 Hok) (family cur)). apply list_elem_of_fmap_2, elem_of_tasks. by left.
Qed.

End Scheduler.

(** ** Witnesses *)

Definition demo_context : CpuContext :=
  MkCpuContext 0 0 0 0 0 0 0 0 0 0 0 0 0 0 0 0 0 0 0 0 0 0 0 0 [].

Definition demo_image : TaskImage :=
  MkTaskImage "init" demo_context (MkUserPageTable None []) None None [].

Definition demo_boot : @World unit := boot demo_image.

Definition demo_task : @Task unit := spawned 0 0 demo_image None (None, None, None).

Definition demo_spawn : @sched_op unit := OpSpawn (Ok demo_image) None (None, None, None).

(** The kernel task starts two children and waits for the first. *)
Definition demo_ops : list (@sched_op unit) := [demo_spawn; demo_spawn; OpSleep 1].

Definition demo_waiting : @World unit := default demo_boot (run_ops demo_ops demo_boot).

Lemma demo_waiting_reach : reach disciplined_step demo_boot demo_waiting.
Proof.
  eapply (reach_step _ _ (default demo_boot (run_ops [demo_spawn; demo_spawn] demo_boot))).
  - eapply (reach_step _ _ (default demo_boot (run_ops [demo_spawn] demo_boot))).
    + eapply reach_step; [apply reach_refl|]. split; [done|]. exists demo_spawn. by split.
    + split; [done|]. exists demo_spawn. by split.
  - split; [done|]. exists (OpSleep 1). split; [|done]. eexists. split; [reflexivity|]. left. by left.
Qed.

(** The first child exits and its code is collected. *)
Definition demo_collected : @World unit :=
  default demo_boot (run_ops (demo_ops ++ [OpExit 7; OpTakeExitCode 1; OpSched]) demo_boot).

Lemma demo_collected_run :
  run_ops (demo_ops ++ [OpExit 7; OpTakeExitCode 1; OpSched]) demo_boot = Some demo_collected.
Proof. vm_compute. reflexivity. Qed.

Lemma scheduler_invariant_witness : sched_wf demo_collected.
Proof.
  apply (scheduler_invariant demo_image demo_boot); [reflexivity|].
  exact (run_ops_reach _ _ _ _ (reach_refl _ _) demo_collected_run).
Defined.

Lemma wait_exit_never_stuck_witness :
  exists r w', exit_current 7 demo_waiting = (Ok r, w').
Proof.
  apply (wait_exit_never_stuck demo_image demo_boot demo_waiting); [reflexivity|apply demo_waiting_reach|done].
Defined.

Lemma exit_wakes_parent_witness :
  exists next stale w', exit_current 7 demo_waiting
    = (Ok (dead 7 (default demo_task (current_task (TASK_SCHED demo_waiting))), next, stale), w')
    /\ task_id next = 0.
Proof.
  edestruct (exit_wakes_parent demo_image demo_boot demo_waiting) with (code := 7)
    as (next & stale & w' & Hrun & _ & Hid & _);
    [reflexivity|apply demo_waiting_reach|reflexivity|by left|reflexivity|].
  exists next, stale, w'. split; [exact Hrun|exact Hid].
Defined.

Definition demo_interrupt : InterruptedContext :=
  MkInterruptedContext 1 2 3 4 5 6 7 8 9 10 11 12 13 14 15 16 17 18 19 20.

Definition demo_registers : CpuRegisters := MkCpuRegisters 1 2 3 [].

(** Kernel task and two children; three interrupts are a round. *)
Lemma preemption_round_robin_witness :
  let w : @World unit := default demo_boot (run_ops [demo_spawn; demo_spawn] demo_boot) in
  let x := (demo_interrupt, demo_registers) in
  exists ctx, fst (preempts [x; x; x] w) = Some ctx /\ resumes ctx x.
Proof.
  cbn zeta. set (w := default demo_boot _). set (x := (demo_interrupt, demo_registers)).
  assert (sched_wf w) as Hwf.
  { eapply sched_step_wf; [eapply sched_step_wf; [apply (boot_wf demo_image)|]|].
    - split; [done|]. exists demo_spawn. reflexivity.
    - split; [done|]. exists demo_spawn. reflexivity. }
  destruct (preemption_round_robin w (default demo_task (current_task (TASK_SCHED w))) x [x; x] Hwf) as [_ Hround];
    [reflexivity|done|reflexivity|].
  destruct (preempts [x; x; x] w) as [c w'] eqn:Hp. exact (proj1 Hround).
Defined.

(** Tasks 1 and 2 both wait for task 3, which then exits. *)
Definition demo_two_waiters_ops : list (@sched_op unit) :=
  [demo_spawn; demo_spawn; demo_spawn; OpSched; OpSleep 3; OpSleep 3].

Definition demo_two_waiters : @World unit :=
  Eval vm_compute in default demo_boot (run_ops demo_two_waiters_ops demo_boot).

Lemma demo_two_waiters_run : run_ops demo_two_waiters_ops demo_boot = Some demo_two_waiters.
Proof. vm_compute. reflexivity. Qed.

Definition demo_exit_world : @World unit :=
  Eval vm_compute in snd (exit_current 7 demo_two_waiters).

Definition demo_exit_result : @Task unit * @Task unit * list (@Task unit) :=
  Eval vm_compute in match fst (exit_current 7 demo_two_waiters) with
                     | Ok r => r
                     | _ => (dead 0 demo_task, demo_task, [])
                     end.

Lemma second_waiter_sleeps_forever_witness :
  exists i r w', exit_current 7 demo_two_waiters = (Ok r, w') /\
    forall w'', reach sched_step w' w'' ->
      exists u, u ∈ sleeping_tasks (TASK_SCHED w'') /\ task_id u = i /\ waiting_for u = Some 3.
Proof.
  assert (sched_wf demo_two_waiters) as Hwf.
  { eapply (reach_invariant sched_step); [apply (boot_wf demo_image)|apply sched_step_wf|].
    exact (run_ops_reach _ _ _ _ (reach_refl _ _) demo_two_waiters_run). }
  assert (exit_current 7 demo_two_waiters = (Ok (demo_exit_result), demo_exit_world)) as Hexit
    by (vm_compute; reflexivity).
  edestruct (second_waiter_sleeps_forever demo_two_waiters) as (i & _ & Hi);
    [exact Hwf|reflexivity|by left|by right; left|done|reflexivity|reflexivity|exact Hexit|].
  exists i, demo_exit_result, demo_exit_world. split; [exact Hexit|exact Hi].
Defined.
