(* ===== verification/Executor.v ===== *)
(** * The executor of asynchronous tasks ([kernel/src/task/async_task.rs])

    Device polling and drawing run as futures in three queues.  A call of [poll]
    polls every task of the high queue once, one task of the normal queue on
    every second call and one of the low queue on every fourth.  A future is any
    type with a [poll] that acts on the rest of the kernel, the world [W]; it has no
    access to the executor, whose lock is taken while it runs. *)
From Stdlib Require Import ZArith Lia.
From stdpp Require Import base gmap list.
From S2P Require Import Prelude KError Net.

#[local] Open Scope Z_scope.

(** ** Futures *)

Inductive Poll := PollReady | PollPending.

(** [Future<Output = ()>]; the context holds a waker that does nothing. *)
Class Future (W F : Type) := fut_poll : F -> W -> Poll * F * W.

Record Yield := MkYield { yield_polled : bool }.

Definition Yield_default : Yield := {| yield_polled := false |}.

#[export] Instance Yield_poll {W} : Future W Yield := fun y w =>
  (if yield_polled y then PollReady else PollPending, {| yield_polled := true |}, w).

(** [Yield::default().await] *)
Definition exec_yield : Yield := Yield_default.

Record TimeoutFuture := MkTimeoutFuture { timeout : Z }.

(** [util::time::global_uptime] of a world. *)
Class Clock (W : Type) := global_uptime : W -> Z.

Definition TimeoutFuture_new {W} `{Clock W} (duration : Z) (w : W) : Result TimeoutFuture :=
  let? t := duration_add (global_uptime w) duration in Ok {| timeout := t |}.

#[export] Instance TimeoutFuture_poll {W} `{Clock W} : Future W TimeoutFuture := fun f w =>
  (if timeout f <=? global_uptime w then PollReady else PollPending, f, w).

(** ** The executor *)

Inductive Priority := High | Normal | Low.

#[export] Instance Priority_eq_dec : EqDecision Priority.
Proof. solve_decision. Defined.

#[export] Instance Priority_countable : Countable Priority.
Proof.
  apply (inj_countable' (fun p => match p with High => 0%nat | Normal => 1%nat | Low => 2%nat end)
           (fun n => match n with 0%nat => High | 1%nat => Normal | _ => Low end)).
  by intros [].
Defined.

Section Executor.
Context {W F : Type} `{Future W F}.

Record AsyncTask := MkAsyncTask {
  at_id : Z;
  at_future : F;
  at_priority : Priority
}.

Record Executor := MkExecutor {
  task_queues : gmap Priority (list AsyncTask);
  is_ready : bool;
  poll_count : Z
}.

Implicit Types (e : Executor) (q : list AsyncTask) (w : W) (t : AsyncTask).

Definition Executor_new : Executor :=
  {| task_queues := ∅; is_ready := false; poll_count := 0 |}.

(** [task.poll(&mut context)]: the task keeps the state its future reached. *)
Definition AsyncTask_poll t w : Poll * AsyncTask * W :=
  let '(r, f, w) := fut_poll (at_future t) w in
  (r, {| at_id := at_id t; at_future := f; at_priority := at_priority t |}, w).

(** One round of the loop over a queue: take the first task, poll it, put it back. *)
Definition poll_front (q : list AsyncTask) (w : W) : list AsyncTask * W :=
  match q with
  | [] => ([], w)
  | t :: rest =>
      let '(r, t, w) := AsyncTask_poll t w in
      match r with
      | PollReady => (rest, w)
      | PollPending => (rest ++ [t], w)
      end
  end.

Fixpoint poll_times (count : nat) (q : list AsyncTask) (w : W) : list AsyncTask * W :=
  match count with
  | O => (q, w)
  | S n => let '(q, w) := poll_front q w in poll_times n q w
  end.

Definition do_skip (p : Priority) (poll_count : Z) : bool :=
  match p with
  | High => false
  | Normal => negb (poll_count mod 2 =? 0)
  | Low => negb (poll_count mod 4 =? 0)
  end.

(** The body of the loop over the priorities. *)
Definition poll_priority (st : Executor * W) (p : Priority) : Executor * W :=
  let '(e, w) := st in
  if do_skip p (poll_count e) then (e, w)
  else
    match task_queues e !! p with
    | None => (e, w)
    | Some queue =>
        let count := if decide (p = High) then length queue else 1%nat in
        let '(queue, w) := poll_times count queue w in
        ({| task_queues := <[p := queue]> (task_queues e); is_ready := is_ready e;
            poll_count := poll_count e |}, w)
    end.

Definition Executor_poll e w : Executor * W :=
  if negb (is_ready e) then (e, w)
  else
    let e := {| task_queues := task_queues e; is_ready := is_ready e;
                poll_count := wrapping_add 64 (poll_count e) 1 |} in
    fold_left poll_priority [High; Normal; Low] (e, w).

Definition Executor_ready e : Executor :=
  {| task_queues := task_queues e; is_ready := true; poll_count := 0 |}.

Definition Executor_spawn (task : AsyncTask) e : Executor :=
  let priority := at_priority task in
  {| task_queues := <[priority := default [] (task_queues e !! priority) ++ [task]]> (task_queues e);
     is_ready := is_ready e; poll_count := poll_count e |}.

(** ** The public functions

    The static executor with its lock, the counter of [TaskId::new] and the rest
    of the kernel. *)

Record Async := MkAsync {
  as_executor : Executor;
  as_locked : bool;
  as_next : Z;
  as_world : W
}.

Implicit Types s : Async.

(** [ASYNC_TASK_EXECUTOR.try_lock()?] and an operation under the lock. *)
Definition try_lock (f : Executor -> W -> Executor * W) : SR Async unit := fun s =>
  if as_locked s then (Err (error_into Locked), s)
  else let '(e, w) := f (as_executor s) (as_world s) in
       (Ok tt, {| as_executor := e; as_locked := false; as_next := as_next s; as_world := w |}).

(** [AsyncTask::new]; the number is taken before the lock. *)
Definition AsyncTask_new (future : F) (priority : Priority) : SR Async AsyncTask := fun s =>
  (Ok {| at_id := as_next s; at_future := future; at_priority := priority |},
   {| as_executor := as_executor s; as_locked := as_locked s;
      as_next := wrapping_add 64 (as_next s) 1; as_world := as_world s |}).

Definition async_poll : SR Async unit := try_lock Executor_poll.
Definition async_ready : SR Async unit := try_lock (fun e w => (Executor_ready e, w)).

Definition spawn_with_priority (future : F) (priority : Priority) : SR Async unit :=
  let! task := AsyncTask_new future priority in
  try_lock (fun e w => (Executor_spawn task e, w)).

Definition async_spawn (future : F) : SR Async unit := spawn_with_priority future Normal.

End Executor.

Arguments AsyncTask F : clear implicits.
Arguments Executor F : clear implicits.
Arguments Async W F : clear implicits.

(** ** Queues *)

Section Turns.
Context {W F : Type} `{Future W F}.
Implicit Types (e : Executor F) (q : list (AsyncTask F)) (w : W) (t : AsyncTask F) (s : Async W F).

Definition queue e (p : Priority) : list (AsyncTask F) := default [] (task_queues e !! p).
Definition queue_ids q : list Z := at_id <$> q.
Definition ids e : list Z := queue_ids (queue e High) ++ queue_ids (queue e Normal) ++ queue_ids (queue e Low).

(** Each task polled once, in order; the pending ones stay. *)
Fixpoint poll_each q w : list (AsyncTask F) * W :=
  match q with
  | [] => ([], w)
  | t :: q =>
      let '(r, t, w) := AsyncTask_poll t w in
      let '(q, w) := poll_each q w in
      (match r with PollReady => q | PollPending => t :: q end, w)
  end.

(** Taking from the front and putting back at the end, once per task, is that. *)
Lemma poll_times_each q acc w :
  poll_times (length q) (q ++ acc) w = let '(q', w') := poll_each q w in (acc ++ q', w').
Proof.
  revert acc w. induction q as [|t q IH]; intros acc w; cbn; [by rewrite app_nil_r|].
  destruct (AsyncTask_poll t w) as [[[] t'] w1]; [rewrite IH; by destruct (poll_each q w1)|].
  rewrite <- app_assoc, IH. destruct (poll_each q w1) as [q' w2]. by rewrite <- app_assoc.
Qed.

Definition turns (p : Priority) (count : Z) q : nat :=
  if do_skip p count then 0 else if decide (p = High) then length q else 1.

Lemma poll_times_nil n w : poll_times n ([] : list (AsyncTask F)) w = ([], w).
Proof. by induction n. Qed.

Lemma poll_priority_spec e w p :
  let '(q, w') := poll_times (turns p (poll_count e) (queue e p)) (queue e p) w in
  exists e', poll_priority (e, w) p = (e', w') /\ poll_count e' = poll_count e /\ is_ready e' = is_ready e
    /\ forall p', queue e' p' = if decide (p' = p) then q else queue e p'.
Proof.
  unfold turns, poll_priority, queue. destruct (do_skip p (poll_count e)).
  { cbn. exists e. split_and!; try done. intros p'. by destruct (decide _) as [->|]. }
  destruct (task_queues e !! p) as [l|] eqn:Hl; cbn [from_option id].
  - destruct (poll_times (if decide (p = High) then length l else 1%nat) l w) as [q w'] eqn:Hp.
    eexists. split; [reflexivity|]. cbn [poll_count is_ready task_queues]. split_and!; try done.
    intros p'. destruct (decide (p' = p)) as [->|]; [by rewrite lookup_insert_eq|by rewrite lookup_insert_ne].
  - rewrite poll_times_nil. exists e. split_and!; try done. intros p'. destruct (decide (p' = p)) as [->|]; [by rewrite Hl|done].
Qed.

Lemma poll_front_ids q w : queue_ids (fst (poll_front q w)) ⊆+ queue_ids q.
Proof.
  destruct q as [|t q]; [done|]. cbn. unfold AsyncTask_poll. destruct (fut_poll (at_future t) w) as [[[] f] w']; cbn.
  - by apply submseteq_cons.
  - unfold queue_ids. rewrite fmap_app. cbn. by rewrite <- Permutation_cons_append.
Qed.

Lemma poll_front_length q w : (length (fst (poll_front q w)) <= length q)%nat.
Proof. pose proof (submseteq_length _ _ (poll_front_ids q w)) as Hl. unfold queue_ids in Hl. by rewrite !length_fmap in Hl. Qed.

Lemma poll_times_ids n q w : queue_ids (fst (poll_times n q w)) ⊆+ queue_ids q.
Proof.
  revert q w. induction n as [|n IH]; intros q w; [done|]. cbn. pose proof (poll_front_ids q w) as Hf.
  destruct (poll_front q w) as [q' w']. etrans; [apply IH|exact Hf].
Qed.

(** What one call does, queue by queue. *)
Lemma Executor_poll_run e w :
  is_ready e = true ->
  let c := wrapping_add 64 (poll_count e) 1 in
  let turn p := poll_times (turns p c (queue e p)) (queue e p) in
  exists e' w1 w2 w3, Executor_poll e w = (e', w3) /\ poll_count e' = c /\ is_ready e' = true
    /\ turn High w = (queue e' High, w1) /\ turn Normal w1 = (queue e' Normal, w2) /\ turn Low w2 = (queue e' Low, w3).
Proof.
  intros Hr c turn. subst turn. unfold Executor_poll. rewrite Hr. cbn [negb fold_left]. fold c.
  set (e0 := {| task_queues := task_queues e; is_ready := true; poll_count := c |}).
  assert (forall p, queue e0 p = queue e p) as Hq0 by done. assert (poll_count e0 = c) as Hc0 by done.
  pose proof (poll_priority_spec e0 w High) as H1. rewrite Hc0, !Hq0 in H1. cbv beta.
  destruct (poll_times _ _ w) as [qh w1]. destruct H1 as (e1 & -> & Hc1 & Hr1 & Hq1).
  pose proof (poll_priority_spec e1 w1 Normal) as H2. rewrite Hc1, !(Hq1 Normal), decide_False, Hq0 in H2 by done.
  destruct (poll_times _ _ w1) as [qn w2] eqn:En. destruct H2 as (e2 & -> & Hc2 & Hr2 & Hq2).
  pose proof (poll_priority_spec e2 w2 Low) as H3.
  rewrite Hc2, !(Hq2 Low), !decide_False, !(Hq1 Low), !decide_False, Hq0 in H3 by done.
  destruct (poll_times _ _ w2) as [ql w3] eqn:El. destruct H3 as (e3 & -> & Hc3 & Hr3 & Hq3).
  exists e3, w1, w2, w3. rewrite !Hq3, decide_False, decide_False, decide_True by done.
  rewrite !Hq2, decide_False, decide_True by done. rewrite Hq1, decide_True by done.
  split_and!; try done. by rewrite Hr3, Hr2, Hr1.
Qed.

(** The same for one queue, whatever the world is when its turn comes. *)
Lemma Executor_poll_queue e w p :
  is_ready e = true ->
  let e' := fst (Executor_poll e w) in
  let c := wrapping_add 64 (poll_count e) 1 in
  poll_count e' = c /\ is_ready e' = true
  /\ exists w', queue e' p = fst (poll_times (turns p c (queue e p)) (queue e p) w').
Proof.
  intros Hr. destruct (Executor_poll_run e w Hr) as (e' & w1 & w2 & w3 & -> & Hc & Hr' & Hh & Hn & Hl). cbn [fst].
  split_and!; [done|done|]. destruct p; [exists w; by rewrite Hh|exists w1; by rewrite Hn|exists w2; by rewrite Hl].
Qed.

Lemma Executor_poll_ids e w : is_ready e = true -> ids (fst (Executor_poll e w)) ⊆+ ids e.
Proof.
  intros Hr. unfold ids.
  repeat apply submseteq_app; edestruct (Executor_poll_queue e w) as (_ & _ & w' & ->); (done || apply poll_times_ids).
Qed.

(** ** Operations in sequence *)

Inductive async_op :=
| OpPoll
| OpSpawn (future : F) (p : Priority)
| OpTakeId
| OpWorld (f : W -> W).

(** [OpTakeId] is the start of a user task, which takes its number from the same
    counter; [OpWorld] is what the rest of the kernel does. *)
Definition async_exec (op : async_op) s : Async W F :=
  match op with
  | OpPoll => snd (async_poll s)
  | OpSpawn f p => snd (spawn_with_priority f p s)
  | OpTakeId => {| as_executor := as_executor s; as_locked := as_locked s;
                   as_next := wrapping_add 64 (as_next s) 1; as_world := as_world s |}
  | OpWorld f => {| as_executor := as_executor s; as_locked := as_locked s;
                    as_next := as_next s; as_world := f (as_world s) |}
  end.

Definition async_run (ops : list async_op) s : Async W F := fold_left (fun s op => async_exec op s) ops s.

Definition is_poll (op : async_op) : bool := match op with OpPoll => true | _ => false end.
Definition is_spawn (op : async_op) : bool := match op with OpSpawn _ _ => true | _ => false end.
Definition polls (ops : list async_op) : nat := length (List.filter is_poll ops).
Definition spawns (ops : list async_op) : nat := length (List.filter is_spawn ops).

(** The lock is free, numbers are distinct and below the counter, and a task is
    in the queue of its priority. *)
Record async_wf s : Prop := {
  wf_lock : as_locked s = false;
  wf_nodup : NoDup (ids (as_executor s));
  wf_ids : Forall (fun i => 0 <= i < as_next s) (ids (as_executor s));
  wf_priority p : Forall (fun t => at_priority t = p) (queue (as_executor s) p);
  wf_next : 0 <= as_next s;
  wf_count : 0 <= poll_count (as_executor s) < 2 ^ 64
}.

Lemma queue_in_ids e p i : i ∈ queue_ids (queue e p) -> i ∈ ids e.
Proof. unfold ids. rewrite !elem_of_app. destruct p; auto. Qed.

Lemma in_ids_queue e i : i ∈ ids e -> exists p, i ∈ queue_ids (queue e p).
Proof. unfold ids. rewrite !elem_of_app. intros [?|[?|?]]; eauto. Qed.

Lemma poll_front_priority p q w :
  Forall (fun t => at_priority t = p) q -> Forall (fun t => at_priority t = p) (fst (poll_front q w)).
Proof.
  intros Hq. destruct Hq as [|t q Ht Hq]; [constructor|]. cbn. unfold AsyncTask_poll.
  destruct (fut_poll (at_future t) w) as [[[] f] w']; cbn; [done|]. apply Forall_app. split; [done|]. by apply Forall_singleton.
Qed.

Lemma poll_times_priority n p q w :
  Forall (fun t => at_priority t = p) q -> Forall (fun t => at_priority t = p) (fst (poll_times n q w)).
Proof.
  revert q w. induction n as [|n IH]; intros q w Hq; [done|]. cbn. pose proof (poll_front_priority p q w Hq) as Hf.
  destruct (poll_front q w) as [q' w']. by apply IH.
Qed.

Lemma queue_spawn t e p :
  queue (Executor_spawn t e) p = queue e p ++ if decide (p = at_priority t) then [t] else [].
Proof.
  unfold queue, Executor_spawn. cbn. destruct (decide (p = at_priority t)) as [->|Hne].
  - by rewrite lookup_insert_eq.
  - by rewrite lookup_insert_ne, app_nil_r.
Qed.

Lemma ids_spawn t e : ids (Executor_spawn t e) ≡ₚ at_id t :: ids e.
Proof.
  unfold ids. rewrite !queue_spawn. destruct (at_priority t); cbn; unfold queue_ids; rewrite ?app_nil_r, fmap_app; cbn; solve_Permutation.
Qed.

Lemma wrapping_next n : 0 <= n < 2 ^ 64 - 1 -> wrapping_add 64 n 1 = n + 1.
Proof. intros Hn. apply wrap_small, is_uint_spec. lia. Qed.

Lemma wrapping_count c : 0 <= wrapping_add 64 c 1 < 2 ^ 64.
Proof. apply Z.mod_pos_bound. lia. Qed.

Lemma below_mono l n m : Forall (fun i => 0 <= i < n) l -> n <= m -> Forall (fun i => 0 <= i < m) l.
Proof. intros Hl Hm. eapply Forall_impl; [exact Hl|]. cbn. lia. Qed.

Lemma NoDup_below (l k : list Z) : l ⊆+ k -> NoDup k -> NoDup l.
Proof. intros [k' ->]%submseteq_Permutation Hk. by apply NoDup_app in Hk as [? _]. Qed.

Lemma Forall_below (P : Z -> Prop) (l k : list Z) : l ⊆+ k -> Forall P k -> Forall P l.
Proof. intros [k' ->]%submseteq_Permutation Hk. by apply Forall_app in Hk as [? _]. Qed.

Lemma async_exec_wf op s : async_wf s -> as_next s < 2 ^ 64 - 1 -> async_wf (async_exec op s).
Proof.
  intros [Hl Hnd Hids Hp Hn Hc] Hlt. destruct op as [|f p| |g]; cbn.
  - unfold async_poll, try_lock. rewrite Hl. destruct (Executor_poll _ _) as [e' w'] eqn:He.
    assert (e' = fst (Executor_poll (as_executor s) (as_world s))) as -> by (by rewrite He). clear He.
    destruct (is_ready (as_executor s)) eqn:Hr; [|unfold Executor_poll; rewrite Hr; by split].
    pose proof (Executor_poll_ids (as_executor s) (as_world s) Hr) as Hsub.
    split; cbn; [done|by eapply NoDup_below|by eapply Forall_below| |done|].
    + intros p. destruct (Executor_poll_queue (as_executor s) (as_world s) p Hr) as (_ & _ & w1 & ->). by apply poll_times_priority.
    + destruct (Executor_poll_queue (as_executor s) (as_world s) High Hr) as (-> & _). apply wrapping_count.
  - unfold spawn_with_priority, sbind, AsyncTask_new, try_lock. cbn. rewrite Hl. cbn. rewrite wrapping_next by lia.
    split; cbn; [done| | | |lia|done].
    + rewrite ids_spawn. apply NoDup_cons. split; [|done]. cbn. intros Hin. rewrite Forall_forall in Hids. apply Hids in Hin. lia.
    + rewrite ids_spawn. constructor; [cbn; lia|]. eapply below_mono; [done|lia].
    + intros p'. rewrite queue_spawn. apply Forall_app. split; [apply Hp|]. destruct (decide _) as [->|]; [by apply Forall_singleton|constructor].
  - rewrite wrapping_next by lia. split; cbn; [done|done|eapply below_mono; [done|lia]|done|lia|done].
  - by split.
Qed.

(** ** Progress *)

(** A future that is ready after at most [n] polls, whatever the kernel does. *)
Fixpoint finishes (n : nat) (f : F) : Prop :=
  match n with
  | O => False
  | S n => forall w, let '(r, f', _) := fut_poll f w in r = PollReady \/ finishes n f'
  end.

(** Task [i] of a queue of at most [L] tasks is done after fewer than [k] turns
    of its queue. *)
Definition due (i : Z) (L k : nat) q : Prop :=
  i ∉ queue_ids q
  \/ exists pre t post m, q = pre ++ t :: post /\ at_id t = i /\ (i ∉ queue_ids pre) /\ (i ∉ queue_ids post)
       /\ finishes (S m) (at_future t) /\ (L * m + length pre < k)%nat.

Lemma due_mono i L k k' q : due i L k q -> (k <= k')%nat -> due i L k' q.
Proof. intros [?|(pre & t & post & m & ? & ? & ? & ? & ? & ?)] Hk; [by left|]. right. exists pre, t, post, m. split_and!; try done. lia. Qed.

Lemma due_zero i L q : due i L 0 q -> i ∉ queue_ids q.
Proof. intros [?|(pre & t & post & m & ? & ? & ? & ? & ? & ?)]; [done|lia]. Qed.

Lemma poll_front_due i L k q w :
  (length q <= L)%nat -> due i L k q -> due i L (k - 1) (fst (poll_front q w)).
Proof.
  intros HL [Hgone|(pre & t & post & m & -> & Hi & Hpre & Hpost & Hf & Hk)].
  { left. intros Hin. apply Hgone. eapply elem_of_submseteq; [exact Hin|apply poll_front_ids]. }
  destruct pre as [|x pre]; cbn; unfold AsyncTask_poll.
  - cbn in Hf. specialize (Hf w). destruct (fut_poll (at_future t) w) as [[[] f] w'] eqn:Hpoll; cbn; [by left|].
    destruct Hf as [?|Hf]; [done|]. destruct m as [|m]; [done|]. right.
    exists post, (MkAsyncTask (at_id t) f (at_priority t)), [], m. cbn in HL. split_and!; try done. nia.
  - cbn in Hpre. apply not_elem_of_cons in Hpre as [Hx Hpre]. cbn in HL, Hk. rewrite length_app in HL. cbn in HL.
    destruct (fut_poll (at_future x) w) as [[[] f] w'] eqn:Hpoll; cbn; right.
    + exists pre, t, post, m. split_and!; try done. lia.
    + exists pre, t, (post ++ [MkAsyncTask (at_id x) f (at_priority x)]), m. rewrite <- app_assoc. split_and!; try done; [|lia].
      unfold queue_ids. rewrite fmap_app, elem_of_app. cbn. rewrite list_elem_of_singleton. tauto.
Qed.

Lemma poll_times_due i L k q w n :
  (length q <= L)%nat -> due i L k q ->
  (length (fst (poll_times n q w)) <= length q)%nat /\ due i L (k - n) (fst (poll_times n q w)).
Proof.
  revert k q w. induction n as [|n IH]; intros k q w HL Hd; cbn; [by rewrite Nat.sub_0_r|].
  pose proof (poll_front_due i L k q w HL Hd) as Hf. pose proof (poll_front_length q w) as Hlen.
  destruct (poll_front q w) as [q' w']. cbn [fst] in *. destruct (IH (k - 1)%nat q' w' ltac:(lia) Hf) as [Hl Hd'].
  split; [lia|]. replace (k - S n)%nat with (k - 1 - n)%nat by lia. done.
Qed.

(** Every fourth call is a turn of every queue with a task. *)
Lemma turns_fourth p c q : c mod 4 = 0 -> q <> [] -> (1 <= turns p c q)%nat.
Proof.
  intros Hc Hq. unfold turns, do_skip.
  assert (c mod 2 = 0) as Hc2. { apply Z.mod_divide in Hc as [k ->]; [|done]. apply Z.mod_divide; [done|]. exists (k * 2). lia. }
  rewrite Hc, Hc2. assert ((if decide (p = High) then length q else 1) >= 1)%nat by (destruct q; [done|]; case_decide; cbn; lia).
  by destruct p.
Qed.

Lemma wrapping_mod4 c : wrapping_add 64 c 1 mod 4 = (c + 1) mod 4.
Proof. unfold wrapping_add, wrap. change (2 ^ 64) with (4 * 2 ^ 62). rewrite Z.rem_mul_r, Z.mul_comm, Z_mod_plus_full by lia. by apply Z.mod_mod. Qed.

Lemma wrapping_mod2 c : wrapping_add 64 c 1 mod 2 = (c + 1) mod 2.
Proof. unfold wrapping_add, wrap. change (2 ^ 64) with (2 * 2 ^ 63). rewrite Z.rem_mul_r, Z.mul_comm, Z_mod_plus_full by lia. by apply Z.mod_mod. Qed.

Lemma Executor_poll_due i L k e w p :
  is_ready e = true -> (length (queue e p) <= L)%nat -> due i L k (queue e p) ->
  let e' := fst (Executor_poll e w) in
  (length (queue e' p) <= length (queue e p))%nat
  /\ due i L (k - if (poll_count e + 1) mod 4 =? 0 then 1 else 0) (queue e' p).
Proof.
  intros Hr HL Hd. cbv zeta. destruct (Executor_poll_queue e w p Hr) as (_ & _ & w' & ->).
  set (n := turns p (wrapping_add 64 (poll_count e) 1) (queue e p)).
  destruct (poll_times_due i L k (queue e p) w' n HL Hd) as [Hl Hd']. split; [done|].
  destruct (Z.eqb_spec ((poll_count e + 1) mod 4) 0) as [H0|]; [|eapply due_mono; [exact Hd'|lia]].
  destruct (queue e p) as [|t q] eqn:Hq.
  - left. rewrite poll_times_nil. cbn. apply not_elem_of_nil.
  - eapply due_mono; [exact Hd'|].
    assert (1 <= n)%nat; [|lia]. apply turns_fourth; [by rewrite wrapping_mod4|done].
Qed.

(** The number of turns that [n] calls bring, the counter being at [c]. *)
Definition served (c : Z) (n : nat) : nat := Z.to_nat ((c mod 4 + Z.of_nat n) / 4).

Lemma served_step c n : served c (S n) = ((if Z.eqb ((c + 1) mod 4) 0 then 1 else 0) + served (wrapping_add 64 c 1) n)%nat.
Proof.
  unfold served. rewrite wrapping_mod4. pose proof (Z.div_mod c 4 ltac:(lia)). pose proof (Z.div_mod (c + 1) 4 ltac:(lia)).
  pose proof (Z.mod_pos_bound c 4 ltac:(lia)). pose proof (Z.mod_pos_bound (c + 1) 4 ltac:(lia)).
  destruct (Z.eqb_spec ((c + 1) mod 4) 0) as [E|E].
  - rewrite E. assert (c mod 4 = 3) as -> by lia. replace (3 + Z.of_nat (S n)) with (Z.of_nat n + 1 * 4) by lia.
    rewrite Z.div_add, Z.add_0_l by lia. pose proof (Z.div_pos (Z.of_nat n) 4 ltac:(lia) ltac:(lia)). lia.
  - rewrite Nat.add_0_l. replace (c mod 4 + Z.of_nat (S n)) with ((c + 1) mod 4 + Z.of_nat n) by lia. done.
Qed.

Lemma served_enough c n k : (4 * k <= n)%nat -> (k <= served c n)%nat.
Proof.
  intros Hk. unfold served. pose proof (Z.mod_pos_bound c 4 ltac:(lia)).
  assert (Z.of_nat k <= (c mod 4 + Z.of_nat n) / 4) by (apply Z.div_le_lower_bound; lia). lia.
Qed.

Lemma async_exec_poll s :
  as_locked s = false ->
  as_executor (async_exec OpPoll s) = fst (Executor_poll (as_executor s) (as_world s)) /\ as_next (async_exec OpPoll s) = as_next s.
Proof. intros Hl. cbn. unfold async_poll, try_lock. rewrite Hl. by destruct (Executor_poll _ _). Qed.

Lemma async_exec_spawn f p s :
  as_locked s = false ->
  as_executor (async_exec (OpSpawn f p) s) = Executor_spawn (MkAsyncTask (as_next s) f p) (as_executor s)
  /\ as_next (async_exec (OpSpawn f p) s) = wrapping_add 64 (as_next s) 1.
Proof. intros Hl. cbn. unfold spawn_with_priority, sbind, AsyncTask_new, try_lock. cbn. by rewrite Hl. Qed.

Lemma due_snoc i L k q t : due i L k q -> at_id t <> i -> due i L k (q ++ [t]).
Proof.
  intros Hd Ht. assert (forall l, i ∉ queue_ids l -> i ∉ queue_ids (l ++ [t])) as Hs.
  { intros l Hl. unfold queue_ids. rewrite fmap_app, elem_of_app. cbn. rewrite list_elem_of_singleton. by intros [?|?]. }
  destruct Hd as [?|(pre & x & post & m & -> & ? & ? & ? & ? & ?)]; [by left; apply Hs|]. right.
  exists pre, x, (post ++ [t]), m. rewrite <- app_assoc. split_and!; try done. by apply Hs.
Qed.

Lemma async_run_due i L k p ops s :
  async_wf s -> is_ready (as_executor s) = true -> as_next s + Z.of_nat (length ops) < 2 ^ 64 -> 0 <= i < as_next s ->
  (length (queue (as_executor s) p) + spawns ops <= L)%nat ->
  due i L k (queue (as_executor s) p) -> (forall p', p' <> p -> i ∉ queue_ids (queue (as_executor s) p')) ->
  let e' := as_executor (async_run ops s) in
  due i L (k - served (poll_count (as_executor s)) (polls ops)) (queue e' p)
  /\ forall p', p' <> p -> i ∉ queue_ids (queue e' p').
Proof.
  revert k s. induction ops as [|op ops IH]; intros k s Hwf Hr Hn Hi HL Hd Ho; cbn [async_run fold_left].
  { split; [|done]. eapply due_mono; [exact Hd|]. cbn. unfold served. rewrite Z.add_0_r.
    rewrite Z.div_small by (apply Z.mod_pos_bound; lia). cbn. lia. }
  pose proof (async_exec_wf op s Hwf) as Hwf'. cbn [length] in Hn. specialize (Hwf' ltac:(lia)). pose proof (wf_lock s Hwf) as Hl.
  destruct op as [|f q| |g].
  - destruct (async_exec_poll s Hl) as [He Hn']. cbn [polls is_poll List.filter length]. rewrite served_step, Nat.sub_add_distr.
    destruct (Executor_poll_due i L k (as_executor s) (as_world s) p Hr ltac:(lia) Hd) as [Hlen Hd'].
    destruct (Executor_poll_queue (as_executor s) (as_world s) p Hr) as (Hc & Hr' & _). rewrite <- Hc, <- He.
    apply IH; [done|by rewrite He|rewrite Hn'; lia|by rewrite Hn'|rewrite He; change (spawns (OpPoll :: ops)) with (spawns ops) in HL; lia|by rewrite He|].
    intros p' Hp'. rewrite He. destruct (Executor_poll_queue (as_executor s) (as_world s) p' Hr) as (_ & _ & w' & ->).
    intros Hin. apply (Ho p' Hp'). eapply elem_of_submseteq; [exact Hin|apply poll_times_ids].
  - destruct (async_exec_spawn f q s Hl) as [He Hn']. rewrite wrapping_next in Hn' by (pose proof (wf_next s Hwf); lia).
    change (polls (OpSpawn f q :: ops)) with (polls ops). change (spawns (OpSpawn f q :: ops)) with (S (spawns ops)) in HL.
    change (poll_count (as_executor s)) with (poll_count (Executor_spawn (MkAsyncTask (as_next s) f q) (as_executor s))).
    rewrite <- He. apply IH; [done|by rewrite He|lia|lia| | |]; rewrite He.
    + rewrite queue_spawn, length_app. destruct (decide _); cbn; lia.
    + rewrite queue_spawn. destruct (decide _); [|by rewrite app_nil_r]. apply due_snoc; [done|cbn; lia].
    + intros p' Hp'. rewrite queue_spawn. destruct (decide _); [|rewrite app_nil_r; by apply Ho].
      unfold queue_ids. rewrite fmap_app, elem_of_app. cbn. rewrite list_elem_of_singleton.
      intros [Hin|Hin]; [by apply (Ho p' Hp')|lia].
  - pose proof (wf_next s Hwf). apply (IH k (async_exec OpTakeId s) Hwf'); cbn; rewrite ?wrapping_next by lia; done || lia.
  - apply (IH k (async_exec (OpWorld g) s) Hwf'); cbn; done || lia.
Qed.

(** ** Properties *)

(** C22: A ready executor brings every task that becomes ready after a bounded
    number of polls to its end: whatever else is spawned, and whatever
    the kernel does in between, after four calls for each of its polls and each
    task that may share its queue the task is in no queue any more. *)
Theorem async_task_completes s ops t n :
  async_wf s -> is_ready (as_executor s) = true -> as_next s + Z.of_nat (length ops) < 2 ^ 64 ->
  t ∈ queue (as_executor s) (at_priority t) -> finishes n (at_future t) ->
  (4 * (n * (length (queue (as_executor s) (at_priority t)) + spawns ops)) <= polls ops)%nat ->
  at_id t ∉ ids (as_executor (async_run ops s)).
Proof.
  intros Hwf Hr Hn Ht Hf Hp. destruct n as [|m]; [done|].
  apply list_elem_of_split in Ht as (pre & post & Hq).
  set (L := (length (queue (as_executor s) (at_priority t)) + spawns ops)%nat) in *.
  assert (NoDup (queue_ids (queue (as_executor s) (at_priority t)))) as Hnd.
  { pose proof (wf_nodup s Hwf) as Hnd. unfold ids in Hnd. apply NoDup_app in Hnd as (H1 & _ & Hnd).
    apply NoDup_app in Hnd as (H2 & _ & H3). by destruct (at_priority t). }
  assert ((at_id t ∉ queue_ids pre) /\ (at_id t ∉ queue_ids post)) as [Hpre Hpost].
  { rewrite Hq in Hnd. unfold queue_ids in Hnd. rewrite fmap_app, NoDup_app in Hnd. destruct Hnd as (_ & Hd & Hnd).
    apply NoDup_cons in Hnd as [? _]. split; [|done]. intros Hin. apply (Hd _ Hin). cbn. by left. }
  assert (forall p', p' <> at_priority t -> at_id t ∉ queue_ids (queue (as_executor s) p')) as Hother.
  { intros p' Hp' Hin. pose proof (wf_nodup s Hwf) as Hall. unfold ids in Hall.
    apply NoDup_app in Hall as (_ & H1 & Hall). apply NoDup_app in Hall as (_ & H2 & _).
    assert (at_id t ∈ queue_ids (queue (as_executor s) (at_priority t))) as Hself.
    { unfold queue_ids. rewrite Hq, fmap_app. apply elem_of_app. right. by left. }
    destruct (at_priority t), p'; try done;
      first [by apply (H2 _ Hself)|by apply (H2 _ Hin)|apply (H1 _ Hself), elem_of_app; tauto|apply (H1 _ Hin), elem_of_app; tauto]. }
  assert (0 <= at_id t < as_next s) as Hid.
  { pose proof (wf_ids s Hwf) as Hids. rewrite Forall_forall in Hids. apply Hids. eapply queue_in_ids.
    unfold queue_ids. rewrite Hq, fmap_app. apply elem_of_app. right. by left. }
  assert (due (at_id t) L (S m * L) (queue (as_executor s) (at_priority t))) as Hdue.
  { right. exists pre, t, post, m. split_and!; try done. subst L. rewrite Hq, length_app. cbn. nia. }
  destruct (async_run_due (at_id t) L (S m * L) (at_priority t) ops s Hwf Hr Hn Hid ltac:(subst L; lia) Hdue Hother) as [Hd Ho].
  intros [p' Hin]%in_ids_queue. destruct (decide (p' = at_priority t)) as [->|Hne]; [|by apply (Ho p' Hne)].
  eapply due_zero; [|exact Hin]. eapply due_mono; [exact Hd|].
  pose proof (served_enough (poll_count (as_executor s)) (polls ops) (S m * L) Hp). lia.
Qed.


(** A call on a ready executor polls every high task once and keeps the
    pending ones in order; on even calls it polls the first normal task, on every
    fourth the first low one, and puts it at the end of its queue if it is
    pending; the counter may wrap around without disturbing this.  The numbers
    and queues stay consistent. *)
Theorem async_poll_turns s :
  async_wf s -> is_ready (as_executor s) = true -> as_next s < 2 ^ 64 - 1 ->
  let e := as_executor s in
  let n := poll_count e + 1 in
  exists s' w1 w2, async_poll s = (Ok tt, s') /\ async_wf s'
    /\ poll_each (queue e High) (as_world s) = (queue (as_executor s') High, w1)
    /\ (if n mod 2 =? 0 then poll_front (queue e Normal) w1 else (queue e Normal, w1))
       = (queue (as_executor s') Normal, w2)
    /\ (if n mod 4 =? 0 then poll_front (queue e Low) w2 else (queue e Low, w2))
       = (queue (as_executor s') Low, as_world s').
Proof.
  intros Hwf Hr Hlt e n. pose proof (async_exec_wf OpPoll s Hwf Hlt) as Hwf'. cbn in Hwf'. revert Hwf'.
  unfold async_poll, try_lock. rewrite (wf_lock s Hwf). fold e.
  destruct (Executor_poll_run e (as_world s) Hr) as (e' & w1 & w2 & w3 & -> & Hc & Hr' & Hh & Hn & Hl).
  cbn [snd]. intros Hwf'. eexists _, w1, w2. split; [reflexivity|]. cbn [as_executor as_world]. split; [done|].
  assert (forall q w, poll_times 1 q w = poll_front q w) as H1 by (intros q w; cbn; by destruct (poll_front q w)).
  split_and!.
  - rewrite <- Hh. cbn [turns do_skip]. unfold turns. rewrite decide_True by done. cbn [do_skip].
    pose proof (poll_times_each (queue e High) [] (as_world s)) as He. rewrite app_nil_r in He. rewrite He.
    by destruct (poll_each (queue e High) (as_world s)).
  - rewrite <- Hn. unfold turns, do_skip. rewrite wrapping_mod2. fold n. destruct (n mod 2 =? 0); cbn [negb]; [by rewrite H1|done].
  - rewrite <- Hl. unfold turns, do_skip. rewrite wrapping_mod4. fold n. destruct (n mod 4 =? 0); cbn [negb]; [by rewrite H1|done].
Qed.

Lemma async_ready_wf s : async_wf s -> async_wf (snd (async_ready s)).
Proof. intros [Hl Hnd Hids Hp Hn Hc]. unfold async_ready, try_lock. rewrite Hl. cbn. by split. Qed.

Definition async_init w : Async W F := MkAsync Executor_new false 0 w.

Lemma async_init_wf w : async_wf (async_init w).
Proof. split; cbn; try done. constructor. Qed.

Lemma async_run_wf ops s : async_wf s -> as_next s + Z.of_nat (length ops) < 2 ^ 64 -> async_wf (async_run ops s).
Proof.
  revert s. induction ops as [|op ops IH]; intros s Hwf Hn; [done|]. cbn [length] in Hn.
  pose proof (async_exec_wf op s Hwf ltac:(lia)) as Hwf'. apply (IH _ Hwf').
  pose proof (wf_next s Hwf). pose proof (wf_lock s Hwf) as Hl. destruct op as [|f p| |g].
  - rewrite (proj2 (async_exec_poll s Hl)). lia.
  - rewrite (proj2 (async_exec_spawn f p s Hl)), wrapping_next; lia.
  - cbn. rewrite wrapping_next; lia.
  - cbn. lia.
Qed.

End Turns.

(** ** Witnesses *)

(** A yielding task in the low queue behind another one, one in the normal queue
    and one in the high queue, before the executor is started. *)
Definition demo_async : Async unit Yield :=
  snd (async_ready (async_run [OpSpawn exec_yield Low; OpSpawn exec_yield Low; OpSpawn exec_yield Normal;
                               OpTakeId; OpSpawn exec_yield High] (async_init tt))).

Definition demo_task : AsyncTask Yield := MkAsyncTask 1 exec_yield Low.

Lemma demo_async_wf : async_wf demo_async.
Proof. apply async_ready_wf, async_run_wf; [apply async_init_wf|done]. Qed.

Lemma exec_yield_finishes : finishes (W := unit) 2 exec_yield.
Proof. cbn. auto. Qed.

Lemma async_task_completes_witness :
  at_id demo_task ∉ ids (as_executor (async_run (OpSpawn exec_yield Low :: replicate 24 OpPoll) demo_async)).
Proof.
  apply (async_task_completes demo_async (OpSpawn exec_yield Low :: replicate 24 OpPoll) demo_task 2 demo_async_wf).
  - reflexivity.
  - vm_compute. reflexivity.
  - right. left.
  - exact exec_yield_finishes.
  - vm_compute. lia.
Defined.

Lemma async_poll_turns_witness :
  exists s', async_poll demo_async = (Ok tt, s') /\ queue_ids (queue (as_executor s') High) = [4].
Proof.
  destruct (async_poll_turns demo_async demo_async_wf eq_refl eq_refl) as (s' & w1 & w2 & Hs & _ & Hh & _).
  exists s'. split; [exact Hs|]. injection Hh as <- _. reflexivity.
Defined.
