(* ===== verification/Vfs.v ===== *)
(** * The virtual file system ([kernel/src/fs/vfs.rs])

    The tree of files kept in memory, the mounted file systems, the table of
    open files, pipes and device files.  What the virtual file system asks of
    a mounted file system is the class [FileSystem] (the trait of that name);
    the device drivers behind device files are functions on a state [Dev].
    [Vfs] is the struct [VirtualFileSystem] with the two id counters,
    [VfsWorld] adds the devices. *)
From Stdlib Require Import ZArith Lia.
From stdpp Require Import base gmap list strings pretty.
From S2P Require Import Prelude Path KError.

#[local] Open Scope string_scope.
#[local] Open Scope list_scope.
#[local] Open Scope Z_scope.

(** ** Data *)

#[export] Instance FileDescriptorNumber_eq_dec : EqDecision FileDescriptorNumber.
Proof. solve_decision. Defined.

Definition FD_STDIN : FileDescriptorNumber := MkFd 0.
Definition FD_STDOUT : FileDescriptorNumber := MkFd 1.
Definition FD_STDERR : FileDescriptorNumber := MkFd 2.

(** [FileDescriptorNumber::try_new] *)
Definition fd_try_new (value : Z) : Result FileDescriptorNumber :=
  if value <? 0 then Err (error_into (EVirtualFileSystem InvalidFileDescriptorNumber))
  else Ok (MkFd value).

Inductive FsFileType := FsFile | FsDirectory.

Record FsMetaData := MkFsMetaData { meta_file_type : FsFileType; meta_size : Z }.

(** The trait [FileSystem].  [write_file] takes [&self] and may change the
    file system behind it, which the model returns. *)
Class FileSystem (FS : Type) := {
  fs_read_entry_names : FS -> Path -> Result (list string);
  fs_read_file : FS -> Path -> Z -> Z -> Result (list Z);
  fs_write_file : FS -> Path -> Z -> list Z -> Result unit * FS;
  fs_metadata : FS -> Path -> Result FsMetaData
}.

(** A file system that does not panic. *)
Class FileSystemSafe (FS : Type) `{FileSystem FS} : Prop := {
  fs_read_file_safe fs path offset len :
    0 <= offset < 2 ^ 64 -> 0 <= len < 2 ^ 64 -> fs_read_file fs path offset len <> Panic;
  fs_write_file_safe fs path offset data : fst (fs_write_file fs path offset data) <> Panic;
  fs_metadata_safe fs path : fs_metadata fs path <> Panic
}.

Record PipeBuffer := MkPipeBuffer { pipe_bytes : list Z; write_closed : bool }.

Definition PipeBuffer_default : PipeBuffer := {| pipe_bytes := []; write_closed := false |}.

Inductive PipeEnd := PipeRead | PipeWrite.

#[export] Instance PipeEnd_eq_dec : EqDecision PipeEnd.
Proof. solve_decision. Defined.

Inductive FileBacking :=
| BackVfs (id : Z)
| BackFs (mount_id : Z) (rel_path : Path).

#[export] Instance FileBacking_eq_dec : EqDecision FileBacking.
Proof. solve_decision. Defined.

Inductive SeekFrom :=
| SeekStart (offset : Z)
| SeekCurrent (offset : Z)
| SeekEnd (offset : Z).

Record FileDescriptor := MkFileDescriptor {
  fd_num : FileDescriptorNumber;
  fd_backing : FileBacking;
  fd_offset : Z;
  fd_pipe_end : option PipeEnd;
  fs_content_cache : option (list Z)
}.

Definition set_offset (x : Z) (fd : FileDescriptor) : FileDescriptor :=
  MkFileDescriptor (fd_num fd) (fd_backing fd) x (fd_pipe_end fd) (fs_content_cache fd).
Definition set_cache (x : option (list Z)) (fd : FileDescriptor) : FileDescriptor :=
  MkFileDescriptor (fd_num fd) (fd_backing fd) (fd_offset fd) (fd_pipe_end fd) x.

Section Vfs.
Context {FS Dev : Type} `{FileSystem FS}.

(** The driver functions behind a device file. *)
Record DeviceFileDescriptor := MkDeviceFileDescriptor {
  dev_open : SR Dev unit;
  dev_close : SR Dev unit;
  dev_read : Z -> Z -> SR Dev (list Z);
  dev_write : list Z -> SR Dev unit
}.

Inductive VfsFileType :=
| VirtualFile
| DeviceFile (desc : DeviceFileDescriptor)
| Pipe
| Directory.

Definition is_directory (ty : VfsFileType) : bool :=
  match ty with Directory => true | _ => false end.

Record FileInfo := MkFileInfo {
  file_ty : VfsFileType;
  file_name : string;
  file_fs : option FS;
  file_parent : Z;
  file_children : list Z;
  file_buf : option (list Z);
  file_pipe_buf : option PipeBuffer
}.

Implicit Types f : FileInfo.

Definition FileInfo_new (ty : VfsFileType) (name : string) (parent : Z) : FileInfo :=
  {| file_ty := ty; file_name := name; file_fs := None; file_parent := parent;
     file_children := []; file_buf := None; file_pipe_buf := None |}.

Definition set_file_fs (x : option FS) f : FileInfo :=
  MkFileInfo (file_ty f) (file_name f) x (file_parent f) (file_children f) (file_buf f)
    (file_pipe_buf f).
Definition set_file_children (x : list Z) f : FileInfo :=
  MkFileInfo (file_ty f) (file_name f) (file_fs f) (file_parent f) x (file_buf f) (file_pipe_buf f).
Definition set_file_buf (x : option (list Z)) f : FileInfo :=
  MkFileInfo (file_ty f) (file_name f) (file_fs f) (file_parent f) (file_children f) x
    (file_pipe_buf f).
Definition set_pipe_buf (x : option PipeBuffer) f : FileInfo :=
  MkFileInfo (file_ty f) (file_name f) (file_fs f) (file_parent f) (file_children f) (file_buf f) x.

Definition vfs_err (e : VirtualFileSystemError) : Error_ := error_into (EVirtualFileSystem e).

Definition check_integrity f : Result unit :=
  if negb (is_directory (file_ty f))
     && (negb (match file_children f with [] => true | _ => false end)
         || match file_fs f with Some _ => true | None => false end)
  then Err (vfs_err (NotDirectory None))
  else if str_is_empty (file_name f) || String.eqb (file_name f) Path_CURRENT_DIR
          || String.eqb (file_name f) Path_PARENT_DIR
  then Err (vfs_err InvalidFileName)
  else Ok tt.

Inductive Resolved :=
| ResVfs (id : Z) (file_ref : FileInfo)
| ResFs (mount_id : Z) (fs : FS) (rel_path : Path) (metadata : FsMetaData).

Definition fs_file_type_as_vfs (ty : FsFileType) : VfsFileType :=
  match ty with FsDirectory => Directory | FsFile => VirtualFile end.

Definition Resolved_vfs_type (r : Resolved) : VfsFileType :=
  match r with
  | ResVfs _ file_ref => file_ty file_ref
  | ResFs _ _ _ metadata => fs_file_type_as_vfs (meta_file_type metadata)
  end.

Definition Resolved_backing (r : Resolved) : FileBacking :=
  match r with
  | ResVfs id _ => BackVfs id
  | ResFs mount_id _ rel_path _ => BackFs mount_id rel_path
  end.

(** [fs.metadata(&rel_path).ok()?]; the file systems of the theorems do not
    panic ([fs_metadata_safe]). *)
Definition resolve_mount (mount_id : Z) (fs : FS) (rel_path : Path) : option Resolved :=
  if String.eqb (path_str rel_path) Path_ROOT
  then Some (ResFs mount_id fs rel_path (MkFsMetaData FsDirectory 0))
  else match fs_metadata fs rel_path with
       | Ok metadata => Some (ResFs mount_id fs rel_path metadata)
       | _ => None
       end.

(** [VirtualFileSystem], with the counters of [VfsFileId::new] and
    [FileDescriptorNumber::new]. *)
Record Vfs := MkVfs {
  cwd_path : option Path;
  root_id : option Z;
  files : gmap Z FileInfo;
  fds : list FileDescriptor;
  next_file_id : Z;
  next_fd_num : Z
}.

Implicit Types v : Vfs.

Definition Vfs_new : Vfs :=
  {| cwd_path := None; root_id := None; files := ∅; fds := []; next_file_id := 0; next_fd_num := 3 |}.

Definition set_cwd (x : option Path) v : Vfs :=
  MkVfs x (root_id v) (files v) (fds v) (next_file_id v) (next_fd_num v).
Definition set_root (x : option Z) v : Vfs :=
  MkVfs (cwd_path v) x (files v) (fds v) (next_file_id v) (next_fd_num v).
Definition set_files (x : gmap Z FileInfo) v : Vfs :=
  MkVfs (cwd_path v) (root_id v) x (fds v) (next_file_id v) (next_fd_num v).
Definition set_fds (x : list FileDescriptor) v : Vfs :=
  MkVfs (cwd_path v) (root_id v) (files v) x (next_file_id v) (next_fd_num v).

(** [VfsFileId::new] and [FileDescriptorNumber::new]; [fetch_add] wraps. *)
Definition VfsFileId_new : SR Vfs Z := fun v =>
  (Ok (next_file_id v),
   MkVfs (cwd_path v) (root_id v) (files v) (fds v) (wrap 64 (next_file_id v + 1)) (next_fd_num v)).
Definition FileDescriptorNumber_new : SR Vfs FileDescriptorNumber := fun v =>
  (Ok (MkFd (next_fd_num v)),
   MkVfs (cwd_path v) (root_id v) (files v) (fds v) (next_file_id v) (wrap 64 (next_fd_num v + 1))).

(** ** Files and paths *)

Definition insert_file (id : Z) f : SR Vfs unit :=
  do! slift (check_integrity f) in
  do! (if id =? file_parent f
       then smodify (fun v => set_cwd (Some Path_root) (set_root (Some id) v))
       else sret tt) in
  smodify (fun v => set_files (<[id := f]> (files v)) v).

Definition find_file v (id : Z) : option FileInfo := files v !! id.

Definition absolutize v (path : Path) : option Path :=
  if Path_is_abs path then Some (Path_normalize path)
  else match cwd_path v with
       | Some cwd => Some (Path_join cwd (path_str path))
       | None => None
       end.

(** The search through the children of a directory; a dangling child ends it. *)
Fixpoint find_child v (children : list Z) (name : string) : option (Z * FileInfo) :=
  match children with
  | [] => None
  | child_id :: rest =>
      match find_file v child_id with
      | None => None
      | Some child_ref =>
          if String.eqb (file_name child_ref) name then Some (child_id, child_ref)
          else find_child v rest name
      end
  end.

(** The loop over the names of a path. *)
Fixpoint resolve_names v (file_id : Z) f (names : list string) : option Resolved :=
  match names with
  | [] =>
      match file_fs f with
      | Some fs => resolve_mount file_id fs Path_root
      | None => Some (ResVfs file_id f)
      end
  | name :: rest =>
      match file_fs f with
      | Some fs =>
          resolve_mount file_id fs
            (Path_new (Path_ROOT +:+ str_join (String Path_SEPARATOR "") names))
      | None =>
          match find_child v (file_children f) name with
          | Some (child_id, child_ref) => resolve_names v child_id child_ref rest
          | None => None
          end
      end
  end.

Definition find_file_by_path v (path : Path) : option Resolved :=
  match absolutize v path with
  | None => None
  | Some abs_path =>
      match root_id v with
      | None => None
      | Some file_id =>
          match find_file v file_id with
          | None => None
          | Some file_ref => resolve_names v file_id file_ref (Path_names abs_path)
          end
      end
  end.

(** The id and the file, for a write through [files]. *)
Definition find_file_by_path_mut v (path : Path) : option (Z * FileInfo) :=
  match find_file_by_path v path with
  | Some (ResVfs file_id _) =>
      match find_file v file_id with Some f => Some (file_id, f) | None => None end
  | _ => None
  end.

Definition no_such (path : option Path) : Error_ := vfs_err (NoSuchFileOrDirectory path).

Definition entry_names v (path : Path) : Result (list string) :=
  let? resolved := ok_or (no_such (Some path)) (find_file_by_path v path) in
  if negb (is_directory (Resolved_vfs_type resolved))
  then Err (vfs_err (NotDirectory (Some path)))
  else
    let? names := match resolved with
                  | ResVfs _ f => Ok (file_name <$> omap (find_file v) (file_children f))
                  | ResFs _ fs rel_path _ => fs_read_entry_names fs rel_path
                  end in
    Ok (List.filter (fun n => negb (String.eqb n Path_CURRENT_DIR)
                              && negb (String.eqb n Path_PARENT_DIR)) names).

Definition chdir (path : Path) : SR Vfs unit :=
  let! v := sget in
  let! abs_path := slift (ok_or (error_into NotInitialized) (absolutize v path)) in
  let! resolved := slift (ok_or (no_such (Some path)) (find_file_by_path v abs_path)) in
  if negb (is_directory (Resolved_vfs_type resolved))
  then serr (vfs_err (NotDirectory (Some path)))
  else smodify (set_cwd (Some abs_path)).

(** [self.find_file_by_path_mut(..)] followed by a write to the file. *)
Definition update_file (id : Z) (g : FileInfo -> FileInfo) : SR Vfs unit :=
  smodify (fun v => set_files (alter g id (files v)) v).

Definition add_file (path : Path) (ty : VfsFileType) : SR Vfs unit :=
  let! v := sget in
  match root_id v with
  | None => serr (error_into NotInitialized)
  | Some _ =>
      let! (parent_id, parent_ref) :=
        slift (ok_or (no_such (Some path)) (find_file_by_path_mut v (Path_parent path))) in
      if negb (is_directory (file_ty parent_ref)) then serr (vfs_err (NotDirectory (Some path)))
      else
        let name := Path_name path in
        if existsb (fun id => match find_file v id with
                              | Some f => String.eqb (file_name f) name
                              | None => false
                              end) (file_children parent_ref)
        then serr (vfs_err (FileOrDirectoryAlreadyExists path))
        else
          let! file_id := VfsFileId_new in
          do! insert_file file_id (FileInfo_new ty name parent_id) in
          (* reacquire parent_ref *)
          let! v := sget in
          let! (parent_id, parent_ref) := slift (unwrap (find_file_by_path_mut v (Path_parent path))) in
          update_file parent_id (fun f => set_file_children (file_children f ++ [file_id]) f)
  end.

Definition mkdir (path : Path) : SR Vfs unit := add_file path Directory.

Definition vfs_init : SR Vfs unit :=
  let root_dir_path := Path_root in
  let mnt_dir_path := Path_join root_dir_path "mnt" in
  let initramfs_dir_path := Path_join mnt_dir_path "initramfs" in
  let dev_dir_path := Path_join root_dir_path "dev" in
  let proc_dir_path := Path_join root_dir_path "proc" in
  let! root_id := VfsFileId_new in
  do! insert_file root_id (FileInfo_new Directory (Path_name root_dir_path) root_id) in
  do! mkdir mnt_dir_path in
  do! mkdir initramfs_dir_path in
  do! mkdir dev_dir_path in
  mkdir proc_dir_path.

Definition add_dev_file (desc : DeviceFileDescriptor) (name : string) : SR Vfs unit :=
  add_file (Path_join (Path_join Path_root "dev") name) (DeviceFile desc).

Definition mount_fs (path : Path) (fs : FS) : SR Vfs unit :=
  let! v := sget in
  let! (id, f) := slift (ok_or (no_such (Some path)) (find_file_by_path_mut v path)) in
  if negb (is_directory (file_ty f)) then serr (vfs_err (NotDirectory (Some path)))
  else update_file id (set_file_fs (Some fs)).

(** The loop of [abs_path_by_file]: the names up to the root, joined.  The
    fuel is the number of files, which [abs_path_total] shows to be enough. *)
Fixpoint abs_path_loop (fuel : nat) v (parent_id : Z) (s : string) : option string :=
  match fuel with
  | O => None
  | S fuel =>
      match root_id v with
      | None => None
      | Some root =>
          if parent_id =? root then Some s
          else match find_file v parent_id with
               | None => None
               | Some parent_ref =>
                   abs_path_loop fuel v (file_parent parent_ref)
                     (file_name parent_ref +:+ String Path_SEPARATOR s)
               end
      end
  end.

Definition abs_path_by_file v f : option Path :=
  match abs_path_loop (S (size (files v))) v (file_parent f) (file_name f) with
  | Some s => Some (Path_normalize (Path_new (Path_ROOT +:+ s)))
  | None => None
  end.

(** ** Open files *)

Definition file_ref v (file_id : Z) : Result FileInfo :=
  ok_or (no_such None) (find_file v file_id).

Definition mount_fs_ref v (mount_id : Z) : Result FS :=
  let? f := file_ref v mount_id in
  ok_or (no_such None) (file_fs f).

(** [fds.iter().find(|f| f.num == fd_num)], with the position. *)
Definition fd_find v (n : FileDescriptorNumber) : option (nat * FileDescriptor) :=
  list_find (fun fd => fd_num fd = n) (fds v).

Definition file_desc v (n : FileDescriptorNumber) : Result FileDescriptor :=
  ok_or (vfs_err (ReleasedFileResource n)) (snd <$> fd_find v n).

(** [self.file_desc_mut(fd_num)?] followed by a write to the descriptor. *)
Definition update_desc (n : FileDescriptorNumber) (g : FileDescriptor -> FileDescriptor)
    : SR Vfs unit :=
  let! v := sget in
  let! (i, _) := slift (ok_or (vfs_err (ReleasedFileResource n)) (fd_find v n)) in
  smodify (fun v => set_fds (alter g i (fds v)) v).

Definition open_file (path : Path) (create : bool)
    : SR Vfs (FileDescriptorNumber * option (SR Dev unit)) :=
  let! v := sget in
  let! (backing, dev) :=
    match find_file_by_path v path with
    | Some (ResVfs file_id f) =>
        match file_ty f with
        | Pipe | Directory => serr (vfs_err (NotFile (Some path)))
        | ty =>
            match list_find (fun fd => fd_backing fd = BackVfs file_id) (fds v) with
            | Some (_, fd) => serr (vfs_err (BlockingFileResource (fd_num fd)))
            | None =>
                sret (BackVfs file_id,
                      match ty with DeviceFile desc => Some (dev_open desc) | _ => None end)
            end
        end
    | Some (ResFs mount_id fs rel_path metadata as resolved) =>
        match Resolved_vfs_type resolved with
        | VirtualFile => sret (Resolved_backing resolved, None)
        | _ => serr (vfs_err (NotFile (Some path)))
        end
    | None =>
        if create then
          do! add_file path VirtualFile in
          let! v := sget in
          match find_file_by_path v path with
          | Some (ResVfs file_id _) => sret (BackVfs file_id, None)
          | _ => serr (no_such (Some path))
          end
        else serr (no_such (Some path))
    end in
  let! n := FileDescriptorNumber_new in
  do! smodify (fun v => set_fds (fds v ++ [MkFileDescriptor n backing 0 None None]) v) in
  sret (n, dev).

(** The descriptors that refer to a file, and the write ends among them. *)
Definition fds_of v (file_id : Z) : list FileDescriptor :=
  filter (fun fd => fd_backing fd = BackVfs file_id) (fds v).

Definition is_writer (fd : FileDescriptor) : bool :=
  match fd_pipe_end fd with Some PipeWrite => true | _ => false end.

Definition release_pipe_end (file_id : Z) (pipe_end : option PipeEnd) : SR Vfs unit :=
  let! v := sget in
  match file_ty <$> find_file v file_id with
  | Some Pipe =>
      let remaining := length (fds_of v file_id) in
      let remaining_writers := length (List.filter is_writer (fds_of v file_id)) in
      if (remaining =? 0)%nat then smodify (fun v => set_files (delete file_id (files v)) v)
      else if match pipe_end with Some PipeWrite => (remaining_writers =? 0)%nat | _ => false end
      then update_file file_id (fun f =>
             set_pipe_buf (match file_pipe_buf f with
                           | Some pipe => Some (MkPipeBuffer (pipe_bytes pipe) true)
                           | None => None
                           end) f)
      else sret tt
  | _ => sret tt
  end.

Definition close_file (n : FileDescriptorNumber) : SR Vfs (option (SR Dev unit)) :=
  let! v := sget in
  let! (index, fd) := slift (ok_or (vfs_err (ReleasedFileResource n)) (fd_find v n)) in
  do! smodify (fun v => set_fds (delete index (fds v)) v) in
  match fd_backing fd with
  | BackVfs file_id =>
      let! v := sget in
      let dev := match file_ty <$> find_file v file_id with
                 | Some (DeviceFile desc) => Some (dev_close desc)
                 | _ => None
                 end in
      do! release_pipe_end file_id (fd_pipe_end fd) in
      sret dev
  | BackFs _ _ => sret None
  end.

Inductive ReadOutcome :=
| ReadData (bytes : list Z)
| ReadDevice (read : Z -> Z -> SR Dev (list Z)) (offset : Z).

Inductive WriteOutcome :=
| WriteDone
| WriteDevice (write : list Z -> SR Dev unit).

(** [content[start..end]] with [start = min(offset, len)] and
    [end = min(start.saturating_add(max_len), len)]; also the new offset. *)
Definition read_window (content : list Z) (offset max_len : Z) : Result (list Z * Z) :=
  let len := Z.of_nat (length content) in
  let start := Z.min offset len in
  let stop := Z.min (saturating_add start max_len) len in
  let? bytes := slice content (Z.to_nat start) (Z.to_nat stop) in
  Ok (bytes, stop).

Definition vfs_read_file (n : FileDescriptorNumber) (max_len : Z) : SR Vfs ReadOutcome :=
  let! v := sget in
  let! desc := slift (file_desc v n) in
  let offset := fd_offset desc in
  match fd_backing desc with
  | BackFs mount_id rel_path =>
      do! match fs_content_cache desc with
          | Some _ => sret tt
          | None =>
              let! fs := slift (mount_fs_ref v mount_id) in
              let! content := slift (fs_read_file fs rel_path 0 (2 ^ 64 - 1)) in
              update_desc n (set_cache (Some content))
          end in
      let! v := sget in
      let! desc := slift (file_desc v n) in
      let! content := slift (unwrap (fs_content_cache desc)) in
      let! (bytes, stop) := slift (read_window content offset max_len) in
      do! update_desc n (set_offset stop) in
      sret (ReadData bytes)
  | BackVfs file_id =>
      let! f := slift (file_ref v file_id) in
      match file_ty f with
      | Pipe =>
          let! pipe := slift (ok_or (no_such None) (file_pipe_buf f)) in
          match pipe_bytes pipe with
          | [] => if write_closed pipe then sret (ReadData []) else serr (error_into BufferEmpty)
          | _ =>
              let len := Nat.min (Z.to_nat max_len) (length (pipe_bytes pipe)) in
              do! update_file file_id (set_pipe_buf
                    (Some (MkPipeBuffer (drop len (pipe_bytes pipe)) (write_closed pipe)))) in
              sret (ReadData (take len (pipe_bytes pipe)))
          end
      | DeviceFile d => sret (ReadDevice (dev_read d) offset)
      | VirtualFile =>
          let! (bytes, stop) := slift (read_window (default [] (file_buf f)) offset max_len) in
          do! update_desc n (set_offset stop) in
          sret (ReadData bytes)
      | Directory => serr (vfs_err (NotFile (abs_path_by_file v f)))
      end
  end.

(** [buf_mut.resize(end, 0)] when the buffer is too short, then
    [buf_mut[offset..end].copy_from_slice(data)].  A vector holds at most
    [isize::MAX] bytes. *)
Definition write_window (buf : list Z) (offset stop : Z) (data : list Z) : Result (list Z) :=
  let? buf :=
    if Z.of_nat (length buf) <? stop then
      if stop <=? 2 ^ 63 - 1 then Ok (vec_resize buf (Z.to_nat stop) 0) else Panic
    else Ok buf in
  let? _ := slice buf (Z.to_nat offset) (Z.to_nat stop) in
  Ok (take (Z.to_nat offset) buf ++ data ++ drop (Z.to_nat stop) buf).

(** The descriptors of the same mounted file forget its content. *)
Definition drop_caches (backing : FileBacking) : SR Vfs unit :=
  smodify (fun v => set_fds ((fun fd => if decide (fd_backing fd = backing)
                                        then set_cache None fd else fd) <$> fds v) v).

Definition vfs_write_file (n : FileDescriptorNumber) (data : list Z) : SR Vfs WriteOutcome :=
  let! v := sget in
  let! desc := slift (file_desc v n) in
  let offset := fd_offset desc in
  match fd_backing desc with
  | BackFs mount_id rel_path =>
      let! fs := slift (mount_fs_ref v mount_id) in
      let '(r, fs') := fs_write_file fs rel_path offset data in
      do! update_file mount_id (set_file_fs (Some fs')) in
      do! slift r in
      do! drop_caches (fd_backing desc) in
      let! stop := slift (uadd 64 offset (Z.of_nat (length data))) in
      do! update_desc n (set_offset stop) in
      sret WriteDone
  | BackVfs file_id =>
      let! f := slift (file_ref v file_id) in
      match file_ty f with
      | VirtualFile =>
          let! stop := slift (uadd 64 offset (Z.of_nat (length data))) in
          let! buf := slift (write_window (default [] (file_buf f)) offset stop data) in
          do! update_file file_id (set_file_buf (Some buf)) in
          do! update_desc n (set_offset stop) in
          sret WriteDone
      | DeviceFile d => sret (WriteDevice (dev_write d))
      | Pipe =>
          let! pipe := slift (ok_or (no_such None) (file_pipe_buf f)) in
          do! update_file file_id (set_pipe_buf
                (Some (MkPipeBuffer (pipe_bytes pipe ++ data) (write_closed pipe)))) in
          sret WriteDone
      | Directory => serr (vfs_err (NotFile (abs_path_by_file v f)))
      end
  end.

Definition vfs_file_size v (n : FileDescriptorNumber) : Result Z :=
  let? desc := file_desc v n in
  match fd_backing desc with
  | BackFs mount_id rel_path =>
      let? fs := mount_fs_ref v mount_id in
      let? metadata := fs_metadata fs rel_path in
      Ok (meta_size metadata)
  | BackVfs file_id =>
      let? f := file_ref v file_id in
      match file_ty f with
      | VirtualFile => Ok (match file_buf f with Some b => Z.of_nat (length b) | None => 0 end)
      | DeviceFile _ => Ok 0
      | _ => Err (vfs_err (InvalidFileType (abs_path_by_file v f)))
      end
  end.

(** [x as i64] and [i64::saturating_add] *)
Definition as_i64 (x : Z) : Z := if x <? 2 ^ 63 then x else x - 2 ^ 64.
Definition i64_saturating_add (a b : Z) : Z := Z.max (- 2 ^ 63) (Z.min (2 ^ 63 - 1) (a + b)).

Definition vfs_seek (n : FileDescriptorNumber) (pos : SeekFrom) : SR Vfs Z :=
  let! v := sget in
  let! desc := slift (file_desc v n) in
  let cur := as_i64 (fd_offset desc) in
  let! target := match pos with
                 | SeekStart offset => sret offset
                 | SeekCurrent offset => sret (i64_saturating_add cur offset)
                 | SeekEnd offset =>
                     let! size := slift (vfs_file_size v n) in
                     sret (i64_saturating_add (as_i64 size) offset)
                 end in
  if target <? 0 then serr (with_context InvalidData "seek target")
  else
    do! update_desc n (set_offset target) in
    sret target.

(** [format!("pipe:{}", file_id.0)] *)
Definition pipe_name (file_id : Z) : string := "pipe:" +:+ pretty file_id.

Definition create_pipe : SR Vfs (FileDescriptorNumber * FileDescriptorNumber) :=
  let! v := sget in
  let! root := slift (ok_or (error_into NotInitialized) (root_id v)) in
  let! file_id := VfsFileId_new in
  let info := set_pipe_buf (Some PipeBuffer_default) (FileInfo_new Pipe (pipe_name file_id) root) in
  do! smodify (fun v => set_files (<[file_id := info]> (files v)) v) in
  let! read_fd_num := FileDescriptorNumber_new in
  let! write_fd_num := FileDescriptorNumber_new in
  do! smodify (fun v => set_fds (fds v ++
        [MkFileDescriptor read_fd_num (BackVfs file_id) 0 (Some PipeRead) None]) v) in
  do! smodify (fun v => set_fds (fds v ++
        [MkFileDescriptor write_fd_num (BackVfs file_id) 0 (Some PipeWrite) None]) v) in
  sret (read_fd_num, write_fd_num).

(** ** The functions of the module: the file system and the devices *)

Record VfsWorld := MkVfsWorld { VFS : Vfs; devices : Dev }.

Definition on_vfs {A} (m : SR Vfs A) : SR VfsWorld A := fun w =>
  let '(r, v) := m (VFS w) in (r, MkVfsWorld v (devices w)).
Definition on_devices {A} (m : SR Dev A) : SR VfsWorld A := fun w =>
  let '(r, d) := m (devices w) in (r, MkVfsWorld (VFS w) d).

(** [if let Err(err) = open() { close; return Err(err) }] *)
Definition sys_open_file (path : Path) (create : bool) : SR VfsWorld FileDescriptorNumber :=
  let! (n, dev) := on_vfs (open_file path create) in
  match dev with
  | Some open => fun w =>
      match on_devices open w with
      | (Ok tt, w) => (Ok n, w)
      | (Err e, w) => (do! on_vfs (close_file n) in serr e) w
      | (Panic, w) => (Panic, w)
      end
  | None => sret n
  end.

Definition sys_close_file (n : FileDescriptorNumber) : SR VfsWorld unit :=
  let! dev := on_vfs (close_file n) in
  match dev with Some close => on_devices close | None => sret tt end.

Definition sys_read_file (n : FileDescriptorNumber) (buf_len : Z) : SR VfsWorld (list Z) :=
  let! outcome := on_vfs (vfs_read_file n buf_len) in
  match outcome with
  | ReadData bytes => sret bytes
  | ReadDevice read offset =>
      let! bytes := on_devices (read offset buf_len) in
      do! signore (on_vfs (update_desc n
            (set_offset (Z.min (offset + Z.of_nat (length bytes)) (2 ^ 64 - 1))))) in
      sret bytes
  end.

Definition sys_write_file (n : FileDescriptorNumber) (data : list Z) : SR VfsWorld unit :=
  let! outcome := on_vfs (vfs_write_file n data) in
  match outcome with
  | WriteDone => sret tt
  | WriteDevice write => on_devices (write data)
  end.

Definition cwd v : Result Path := ok_or (error_into NotInitialized) (cwd_path v).

(** ** The invariant *)

(** Children and mounts belong to directories, pipes have a buffer. *)
Definition shape_ok f : Prop :=
  (file_ty f <> Directory -> file_children f = [] /\ file_fs f = None)
  /\ (file_ty f = Pipe -> is_Some (file_pipe_buf f))
  /\ NoDup (file_children f).

Definition backing_ok (m : gmap Z FileInfo) (b : FileBacking) : Prop :=
  match b with
  | BackVfs id => exists f, m !! id = Some f /\ file_ty f <> Directory
  | BackFs mount_id _ => exists f, m !! mount_id = Some f /\ is_Some (file_fs f)
  end.

(** The tree of files: a root directory, ids below the counter, every other
    file under an older directory, the children of a directory existing, naming
    it as their parent and with distinct names. *)
Record tree_files (m : gmap Z FileInfo) (root next : Z) : Prop := {
  tf_root : exists f, m !! root = Some f /\ file_ty f = Directory /\ file_parent f = root;
  tf_ids id f : m !! id = Some f -> 0 <= id < next /\ shape_ok f;
  tf_parent id f : m !! id = Some f -> id <> root ->
    file_parent f < id /\ exists g, m !! file_parent f = Some g /\ file_ty g = Directory;
  tf_children id f c : m !! id = Some f -> c ∈ file_children f ->
    c <> root /\ exists g, m !! c = Some g /\ file_parent g = id /\ file_ty g <> Pipe;
  tf_names id f c d g h : m !! id = Some f -> c ∈ file_children f -> d ∈ file_children f ->
    m !! c = Some g -> m !! d = Some h -> file_name g = file_name h -> c = d;
  tf_slash f : m !! root = Some f -> file_name f = Path_ROOT
}.

Record fds_ok (m : gmap Z FileInfo) (l : list FileDescriptor) (next : Z) : Prop := {
  fo_nodup : NoDup (fd_num <$> l);
  fo_fd fd : fd ∈ l -> fd_get (fd_num fd) < next /\ backing_ok m (fd_backing fd)
}.

Definition cwd_ok (p : option Path) : Prop :=
  exists c, p = Some c /\ Path_is_abs c = true /\ Path_normalize c = c.

Definition offset_ok (fd : FileDescriptor) : Prop := 0 <= fd_offset fd < 2 ^ 64.

Record vfs_wf v : Prop := {
  vw_tree : exists root, root_id v = Some root /\ tree_files (files v) root (next_file_id v);
  vw_cwd : cwd_ok (cwd_path v);
  vw_fds : fds_ok (files v) (fds v) (next_fd_num v);
  vw_offsets : Forall offset_ok (fds v);
  vw_next : 0 <= next_file_id v < 2 ^ 64 /\ 0 <= next_fd_num v < 2 ^ 64
}.

(** Room for the ids of one operation. *)
Definition room v : Prop := next_file_id v < 2 ^ 64 - 1 /\ next_fd_num v < 2 ^ 64 - 2.

(** ** Path resolution *)

Lemma find_child_Some v children name id f :
  find_child v children name = Some (id, f) ->
  id ∈ children /\ find_file v id = Some f /\ file_name f = name.
Proof.
  induction children as [|c cs IH]; cbn; [done|]. destruct (find_file v c) as [g|] eqn:Hg; [|done].
  destruct (String.eqb_spec (file_name g) name).
  - intros [= <- <-]. split; [by left|done].
  - intros (Hin & ? & ?)%IH. split; [by right|done].
Qed.

Lemma resolve_names_found v id f names id' f' :
  find_file v id = Some f -> resolve_names v id f names = Some (ResVfs id' f') ->
  find_file v id' = Some f'.
Proof.
  revert id f. induction names as [|x names IH]; intros id f Hf; cbn.
  - destruct (file_fs f); [|by intros [= <- <-]].
    unfold resolve_mount. cbn. done.
  - destruct (file_fs f) as [fs|].
    + unfold resolve_mount. destruct (String.eqb _ _); [done|]. by destruct (fs_metadata _ _).
    + destruct (find_child _ _ _) as [[c g]|] eqn:Hc; [|done].
      apply find_child_Some in Hc as (_ & Hc & _). by apply IH.
Qed.

Lemma find_file_by_path_found v path id f :
  find_file_by_path v path = Some (ResVfs id f) -> find_file v id = Some f.
Proof.
  unfold find_file_by_path. destruct (absolutize v path); [|done]. destruct (root_id v) as [r|]; [|done].
  destruct (find_file v r) eqn:Hr; [|done]. by apply resolve_names_found.
Qed.

Lemma find_file_by_path_mut_found v path id f :
  find_file_by_path_mut v path = Some (id, f) <-> find_file_by_path v path = Some (ResVfs id f).
Proof.
  unfold find_file_by_path_mut. split.
  - destruct (find_file_by_path v path) as [[id' f'|]|] eqn:Hp; [|done..].
    pose proof (find_file_by_path_found _ _ _ _ Hp) as ->. by intros [= <- <-].
  - intros Hp. by rewrite Hp, (find_file_by_path_found _ _ _ _ Hp).
Qed.

(** New files that no directory lists do not change the resolution. *)
Lemma find_child_mono v v' children name :
  (forall c, c ∈ children -> is_Some (find_file v c)) -> files v ⊆ files v' ->
  find_child v' children name = find_child v children name.
Proof.
  intros Hc Hsub. induction children as [|c cs IH]; [done|]. cbn.
  destruct (Hc c (list_elem_of_here _ _)) as [g Hg]. rewrite Hg.
  unfold find_file in *. rewrite (lookup_weaken _ _ _ _ Hg Hsub).
  destruct (String.eqb _ _); [done|]. apply IH. intros d Hd. apply Hc. by right.
Qed.

Lemma resolve_names_mono v v' root id f names :
  tree_files (files v) root (next_file_id v) -> find_file v id = Some f -> files v ⊆ files v' ->
  resolve_names v' id f names = resolve_names v id f names.
Proof.
  intros Ht. revert id f. induction names as [|x names IH]; intros id f Hf Hsub; cbn; [done|].
  destruct (file_fs f); [done|]. rewrite (find_child_mono v v'); [|intros c Hc|done].
  - destruct (find_child v _ _) as [[c g]|] eqn:Hc; [|done].
    apply find_child_Some in Hc as (_ & Hc & _). by apply IH.
  - destruct (tf_children _ _ _ Ht id f c Hf Hc) as (_ & g & Hg & _). by exists g.
Qed.

Lemma find_file_by_path_mono v v' root path :
  tree_files (files v) root (next_file_id v) -> root_id v = Some root ->
  files v ⊆ files v' -> root_id v' = root_id v -> cwd_path v' = cwd_path v ->
  find_file_by_path v' path = find_file_by_path v path.
Proof.
  intros Ht Hr Hsub Hr' Hc'. unfold find_file_by_path, absolutize. rewrite Hr', Hc', Hr.
  destruct (if Path_is_abs path then _ else _) as [p|]; [|done].
  destruct (tf_root _ _ _ Ht) as (f & Hf & _). unfold find_file.
  rewrite Hf, (lookup_weaken _ _ _ _ Hf Hsub). by apply (resolve_names_mono v v' root).
Qed.

(** ** Creating files *)

Definition bump_file v : Vfs :=
  MkVfs (cwd_path v) (root_id v) (files v) (fds v) (next_file_id v + 1) (next_fd_num v).

(** A new file under the directory [pf] with id [pid]. *)
Definition added v (pid : Z) (pf f : FileInfo) : Vfs :=
  let nid := next_file_id v in
  set_files (<[pid := set_file_children (file_children pf ++ [nid]) pf]> (<[nid := f]> (files v)))
    (bump_file v).

(** [FileInfo::check_integrity] of a new file looks at its name only. *)
Definition name_ok (name : string) : bool :=
  negb (str_is_empty name || String.eqb name Path_CURRENT_DIR || String.eqb name Path_PARENT_DIR).

Definition has_child v f (name : string) : bool :=
  existsb (fun id => match find_file v id with
                     | Some g => String.eqb (file_name g) name
                     | None => false
                     end) (file_children f).

Lemma check_integrity_new ty name parent :
  check_integrity (FileInfo_new ty name parent)
  = if name_ok name then Ok tt else Err (vfs_err InvalidFileName).
Proof.
  unfold check_integrity, name_ok. cbn. rewrite andb_false_r. by destruct (_ || _ || _)%bool.
Qed.

Inductive add_file_case v (path : Path) (ty : VfsFileType) : Result unit * Vfs -> Prop :=
| AddNoParent :
    (forall id f, find_file_by_path v (Path_parent path) <> Some (ResVfs id f)) ->
    add_file_case v path ty (Err (no_such (Some path)), v)
| AddNotDirectory pid pf :
    find_file_by_path v (Path_parent path) = Some (ResVfs pid pf) -> file_ty pf <> Directory ->
    add_file_case v path ty (Err (vfs_err (NotDirectory (Some path))), v)
| AddExists pid pf :
    find_file_by_path v (Path_parent path) = Some (ResVfs pid pf) -> file_ty pf = Directory ->
    has_child v pf (Path_name path) = true ->
    add_file_case v path ty (Err (vfs_err (FileOrDirectoryAlreadyExists path)), v)
| AddBadName pid pf :
    find_file_by_path v (Path_parent path) = Some (ResVfs pid pf) -> file_ty pf = Directory ->
    has_child v pf (Path_name path) = false -> name_ok (Path_name path) = false ->
    add_file_case v path ty (Err (vfs_err InvalidFileName), bump_file v)
| AddOk pid pf :
    find_file_by_path v (Path_parent path) = Some (ResVfs pid pf) -> file_ty pf = Directory ->
    has_child v pf (Path_name path) = false -> name_ok (Path_name path) = true ->
    add_file_case v path ty
      (Ok tt, added v pid pf (FileInfo_new ty (Path_name path) pid)).

Lemma fresh_file v root : tree_files (files v) root (next_file_id v) -> files v !! next_file_id v = None.
Proof.
  intros Ht. destruct (files v !! next_file_id v) as [f|] eqn:Hf; [|done].
  apply (tf_ids _ _ _ Ht) in Hf as [? _]. lia.
Qed.

Lemma add_file_spec v path ty : vfs_wf v -> room v -> add_file_case v path ty (add_file path ty v).
Proof.
  intros [[root [Hr Ht]] _ _ _ Hn] [Hroom _]. unfold add_file. cbn [sbind sget]. unfold sbind at 1.
  unfold sget. cbn. rewrite Hr.
  destruct (find_file_by_path_mut v (Path_parent path)) as [[pid pf]|] eqn:Hp; cycle 1.
  { unfold sbind. cbn. apply AddNoParent. intros id f Hf. apply find_file_by_path_mut_found in Hf. congruence. }
  pose proof Hp as Hp'. apply find_file_by_path_mut_found in Hp'.
  cbn. destruct (file_ty pf) eqn:Hty; try (cbn; eapply AddNotDirectory; [exact Hp'|]; by rewrite Hty). cbn.
  destruct (existsb _ _) eqn:Hex; [by eapply AddExists|].
  unfold insert_file, sbind at 1, VfsFileId_new. rewrite check_integrity_new.
  assert (wrap 64 (next_file_id v + 1) = next_file_id v + 1) as Hw by (apply wrap_small, is_uint_spec; lia).
  destruct (name_ok (Path_name path)) eqn:Hname; cycle 1.
  { unfold sbind. cbn. rewrite Hw. by eapply AddBadName. }
  pose proof (find_file_by_path_found _ _ _ _ Hp') as Hpid. pose proof (tf_ids _ _ _ Ht _ _ Hpid) as [Hlt _].
  set (v1 := MkVfs (cwd_path v) (root_id v) (files v) (fds v) (wrap 64 (next_file_id v + 1)) (next_fd_num v)).
  set (v2 := set_files (<[next_file_id v := FileInfo_new ty (Path_name path) pid]> (files v)) v1).
  assert (find_file_by_path_mut v2 (Path_parent path) = Some (pid, pf)) as Hp2.
  { apply find_file_by_path_mut_found. rewrite <- Hp'. apply (find_file_by_path_mono v v2 root); [done..| |done|done].
    apply insert_subseteq. by eapply fresh_file. }
  unfold sbind, slift, smodify, sret, update_file, smodify. cbn.
  destruct (Z.eqb_spec (next_file_id v) pid); [lia|].
  match goal with |- context [find_file_by_path_mut ?x _] => change x with v2 end. rewrite Hp2. cbn.
  match goal with |- add_file_case _ _ _ (Ok tt, ?x) =>
    replace x with (added v pid pf (FileInfo_new ty (Path_name path) pid)) end; [by apply AddOk|].
  unfold added, bump_file, set_files. cbn. rewrite Hw. f_equal.
  apply map_eq. intros j. destruct (decide (j = pid)) as [->|Hj].
  - rewrite lookup_insert_eq, lookup_alter_eq, lookup_insert_ne by lia. unfold find_file in Hpid. by rewrite Hpid.
  - by rewrite lookup_insert_ne, lookup_alter_ne by done.
Qed.

(** ** Changes of the tree *)

Implicit Types m : gmap Z FileInfo.

(** A file changes its contents. *)
Lemma tree_files_update m root n id f f' :
  tree_files m root n -> m !! id = Some f ->
  file_ty f' = file_ty f -> file_name f' = file_name f -> file_parent f' = file_parent f ->
  file_children f' = file_children f -> shape_ok f' ->
  tree_files (<[id := f']> m) root n.
Proof.
  intros [Hr Hi Hp Hc Hn Hsl] Hf Hty Hname Hpar Hch Hs.
  assert (Hl : forall j g, <[id := f']> m !! j = Some g ->
     exists g0, m !! j = Some g0 /\ file_ty g = file_ty g0 /\ file_name g = file_name g0
                /\ file_parent g = file_parent g0 /\ file_children g = file_children g0).
  { intros j g. destruct (decide (j = id)) as [->|Hj]; [rewrite lookup_insert_eq; intros [= <-]; by exists f|].
    rewrite lookup_insert_ne by done. by exists g. }
  assert (Hl' : forall j g0, m !! j = Some g0 ->
     exists g, <[id := f']> m !! j = Some g /\ file_ty g = file_ty g0 /\ file_parent g = file_parent g0).
  { intros j g0 Hg. destruct (decide (j = id)) as [->|Hj].
    - exists f'. rewrite lookup_insert_eq. split; [done|]. rewrite Hf in Hg. injection Hg as <-. done.
    - exists g0. by rewrite lookup_insert_ne. }
  split.
  - destruct Hr as (f0 & H0 & Hd). destruct (Hl' _ _ H0) as (g & Hg & Ht & Hp'). exists g. by rewrite Ht, Hp'.
  - intros j g. destruct (decide (j = id)) as [->|Hj].
    + rewrite lookup_insert_eq. intros [= <-]. split; [by apply (Hi id f)|done].
    + rewrite lookup_insert_ne by done. apply Hi.
  - intros j g (g0 & Hg0 & _ & _ & -> & _)%Hl Hj. destruct (Hp j g0 Hg0 Hj) as (Hlt & h & Hh & Hd).
    split; [done|]. destruct (Hl' _ _ Hh) as (h' & Hh' & Ht & _). exists h'. by rewrite Ht.
  - intros j g c (g0 & Hg0 & _ & _ & _ & ->)%Hl Hin. destruct (Hc j g0 c Hg0 Hin) as (Hne & h & Hh & Hpar' & Hpipe).
    split; [done|]. destruct (Hl' _ _ Hh) as (h' & Hh' & Ht & Hp'). exists h'. by rewrite Ht, Hp'.
  - intros j g c d h k (g0 & Hg0 & _ & _ & _ & ->)%Hl Hic Hid (h0 & Hh0 & _ & -> & _)%Hl (k0 & Hk0 & _ & -> & _)%Hl.
    by apply (Hn j g0).
  - intros g (g0 & Hg0 & _ & -> & _)%Hl. by apply Hsl.
Qed.

(** A new file that no directory lists yet. *)
Lemma tree_files_insert m root n g pf :
  tree_files m root n -> 0 <= n -> m !! file_parent g = Some pf -> file_ty pf = Directory ->
  file_children g = [] -> shape_ok g -> tree_files (<[n := g]> m) root (n + 1).
Proof.
  intros [Hr Hi Hp Hc Hn Hsl] Hn0 Hpf Hd Hch Hs.
  assert (Hfresh : forall j h, m !! j = Some h -> <[n := g]> m !! j = Some h).
  { intros j h Hj. rewrite lookup_insert_ne; [done|]. intros <-. apply Hi in Hj as [? _]. lia. }
  assert (Hl : forall j h, <[n := g]> m !! j = Some h -> (j = n /\ h = g) \/ (m !! j = Some h)).
  { intros j h [[-> ->]|[_ ?]]%lookup_insert_Some; auto. }
  assert (Hlist : forall j h c, <[n := g]> m !! j = Some h -> c ∈ file_children h -> m !! j = Some h).
  { intros j h c [[_ ->]|?]%Hl; [|done]. rewrite Hch. by intros ?%not_elem_of_nil. }
  split.
  - destruct Hr as (f & Hf & Hdir). exists f. auto.
  - intros j h [[-> ->]|Hj]%Hl; [auto with lia|]. apply Hi in Hj as [? ?]. auto with lia.
  - intros j h [[-> ->]|Hj]%Hl Hne.
    + split; [by apply Hi in Hpf as [? _]; lia|]. exists pf. auto.
    + destruct (Hp j h Hj Hne) as (Hlt & k & Hk & Hdir). split; [done|]. exists k. auto.
  - intros j h c Hj Hin. destruct (Hc j h c (Hlist _ _ _ Hj Hin) Hin) as (Hne & k & Hk & Hpar & Hpipe).
    split; [done|]. exists k. auto.
  - intros j h c d k l Hj Hic Hid Hk Hl'. pose proof (Hlist _ _ _ Hj Hic) as Hj'.
    assert (forall x y, x ∈ file_children h -> <[n := g]> m !! x = Some y -> m !! x = Some y) as Hold.
    { intros x y Hx Hy. destruct (Hc j h x Hj' Hx) as (_ & z & Hz & _). rewrite (Hfresh _ _ Hz) in Hy. congruence. }
    apply (Hn j h); auto.
  - intros h [[-> ->]|Hj]%Hl; [|auto]. destruct Hr as (f & Hf & _). apply Hi in Hf as [? _]. lia.
Qed.

(** The directory [pid] lists one of its files. *)
Lemma tree_files_list m root n pid pf c g :
  tree_files m root n -> m !! pid = Some pf -> file_ty pf = Directory -> m !! c = Some g ->
  file_parent g = pid -> c <> root -> c <> pid -> file_ty g <> Pipe -> c ∉ file_children pf ->
  (forall d h, d ∈ file_children pf -> m !! d = Some h -> file_name h <> file_name g) ->
  tree_files (<[pid := set_file_children (file_children pf ++ [c]) pf]> m) root n.
Proof.
  intros [Hr Hi Hp Hc Hn Hsl] Hpf Hd Hg Hpar Hroot Hne Hpipe Hnin Hnames.
  set (pf' := set_file_children (file_children pf ++ [c]) pf).
  assert (Hl : forall j h, <[pid := pf']> m !! j = Some h ->
     exists h0, m !! j = Some h0 /\ file_ty h = file_ty h0 /\ file_name h = file_name h0
       /\ file_parent h = file_parent h0
       /\ forall x, x ∈ file_children h <-> x ∈ file_children h0 \/ (j = pid /\ x = c)).
  { intros j h [[<- <-]|[Hj Hm]]%lookup_insert_Some.
    - exists pf. repeat (split; [done|]). intros x. cbn. rewrite elem_of_app, list_elem_of_singleton. tauto.
    - exists h. repeat (split; [done|]). intros x. split; [auto|]. intros [?|[-> _]]; [done|congruence]. }
  assert (Hl' : forall j h0, m !! j = Some h0 ->
     exists h, <[pid := pf']> m !! j = Some h /\ file_ty h = file_ty h0 /\ file_parent h = file_parent h0).
  { intros j h0 Hh. destruct (decide (j = pid)) as [->|Hj].
    - exists pf'. rewrite lookup_insert_eq. rewrite Hpf in Hh. by injection Hh as <-.
    - exists h0. by rewrite lookup_insert_ne. }
  split.
  - destruct Hr as (f & Hf & Hdir). destruct (Hl' _ _ Hf) as (h & Hh & Ht & Hp'). exists h. by rewrite Ht, Hp'.
  - intros j h [[<- <-]|[Hj Hm]]%lookup_insert_Some; [|by apply Hi].
    destruct (Hi pid pf Hpf) as (Hlt & Hs1 & Hs2 & Hs3). split; [done|]. split; [|split].
    + intros Hty. by destruct Hty.
    + cbn. intros Hty. by apply Hs2.
    + cbn. apply NoDup_app. split; [done|]. split; [|apply NoDup_singleton]. by intros x Hx ->%list_elem_of_singleton.
  - intros j h (h0 & Hh0 & _ & _ & -> & _)%Hl Hj. destruct (Hp j h0 Hh0 Hj) as (Hlt & k & Hk & Hdir).
    split; [done|]. destruct (Hl' _ _ Hk) as (k' & Hk' & Ht & _). exists k'. by rewrite Ht.
  - intros j h x (h0 & Hh0 & _ & _ & _ & Hch)%Hl Hx. apply Hch in Hx as [Hx|[-> ->]].
    + destruct (Hc j h0 x Hh0 Hx) as (Hne' & k & Hk & Hpar' & Hpipe').
      split; [done|]. destruct (Hl' _ _ Hk) as (k' & Hk' & Ht & Hp'). exists k'. by rewrite Ht, Hp'.
    + split; [done|]. destruct (Hl' _ _ Hg) as (k' & Hk' & Ht & Hp'). exists k'. by rewrite Ht, Hp'.
  - intros j h x y k l (h0 & Hh0 & _ & _ & _ & Hch)%Hl Hx Hy (k0 & Hk0 & _ & -> & _)%Hl (l0 & Hl0 & _ & -> & _)%Hl.
    intros Heq. apply Hch in Hx, Hy. destruct Hx as [Hx|[-> ->]], Hy as [Hy|[Hjy ->]].
    + by apply (Hn j h0 x y k0 l0).
    + subst j. assert (h0 = pf) as -> by congruence. assert (l0 = g) as -> by congruence. by destruct (Hnames x k0).
    + assert (h0 = pf) as -> by congruence. assert (k0 = g) as -> by congruence. by destruct (Hnames y l0).
    + done.
  - intros h (h0 & Hh0 & _ & -> & _)%Hl. by apply Hsl.
Qed.

(** A pipe disappears. *)
Lemma tree_files_delete m root n id f :
  tree_files m root n -> m !! id = Some f -> file_ty f = Pipe -> tree_files (delete id m) root n.
Proof.
  intros [Hr Hi Hp Hc Hn Hsl] Hf Hty.
  assert (Hkeep : forall j h, m !! j = Some h -> file_ty h <> Pipe -> delete id m !! j = Some h).
  { intros j h Hj Hne. rewrite lookup_delete_ne; [done|]. intros <-. congruence. }
  split.
  - destruct Hr as (g & Hg & Hd & Hpar). exists g. split; [|done]. apply Hkeep; [done|]. by rewrite Hd.
  - intros j h [_ Hj]%lookup_delete_Some. by apply Hi.
  - intros j h [_ Hj]%lookup_delete_Some Hne. destruct (Hp j h Hj Hne) as (Hlt & k & Hk & Hd).
    split; [done|]. exists k. split; [|done]. apply Hkeep; [done|]. by rewrite Hd.
  - intros j h c [_ Hj]%lookup_delete_Some Hin. destruct (Hc j h c Hj Hin) as (Hne & k & Hk & Hpar & Hpipe).
    split; [done|]. exists k. auto.
  - intros j h c d k l [_ Hj]%lookup_delete_Some Hic Hid [_ Hk]%lookup_delete_Some [_ Hl]%lookup_delete_Some.
    by apply (Hn j h).
  - intros h [_ Hj]%lookup_delete_Some. by apply Hsl.
Qed.

(** ** Changes of the open files *)

Definition fd_key (fd : FileDescriptor) : FileDescriptorNumber * FileBacking :=
  (fd_num fd, fd_backing fd).

Lemma fd_key_alter g i (l : list FileDescriptor) :
  (forall fd, fd_key (g fd) = fd_key fd) -> fd_key <$> alter g i l = fd_key <$> l.
Proof.
  intros Hg. revert i. induction l as [|fd l IH]; intros [|i]; cbn; [done..| |].
  - by rewrite Hg.
  - f_equal. apply IH.
Qed.

(** Only the numbers and what they refer to matter. *)
Lemma fds_ok_ext m l l' n : fd_key <$> l' = fd_key <$> l -> fds_ok m l n -> fds_ok m l' n.
Proof.
  intros Hk [Hnd Hfd]. split.
  - assert (forall x : list FileDescriptor, fd_num <$> x = fst <$> (fd_key <$> x)) as Hf
      by (intros x; rewrite <- list_fmap_compose; by apply list_fmap_ext).
    rewrite Hf, Hk, <- Hf. done.
  - intros fd Hin. assert (fd_key fd ∈ fd_key <$> l) as (fd0 & Heq & Hin0)%list_elem_of_fmap
      by (rewrite <- Hk; by apply list_elem_of_fmap_2).
    injection Heq as -> ->. by apply Hfd.
Qed.

Lemma fds_ok_mono m m' l n n' :
  (forall b, b ∈ fd_backing <$> l -> backing_ok m b -> backing_ok m' b) -> n <= n' ->
  fds_ok m l n -> fds_ok m' l n'.
Proof.
  intros Hb Hle [Hnd Hfd]. split; [done|]. intros fd Hin. destruct (Hfd fd Hin) as [? ?].
  split; [lia|]. apply Hb; [by apply list_elem_of_fmap_2|done].
Qed.

Lemma fds_ok_open m l n b e c :
  fds_ok m l n -> backing_ok m b -> fds_ok m (l ++ [MkFileDescriptor (MkFd n) b 0 e c]) (n + 1).
Proof.
  intros [Hnd Hfd] Hb. split.
  - rewrite fmap_app. apply NoDup_app. split; [done|]. split; [|apply NoDup_singleton].
    intros x (fd & -> & Hin)%list_elem_of_fmap Heq%list_elem_of_singleton. apply Hfd in Hin as [Hlt _].
    rewrite Heq in Hlt. cbn in Hlt. lia.
  - intros fd [Hin| ->%list_elem_of_singleton]%elem_of_app; cbn; [|split; [lia|done]].
    destruct (Hfd fd Hin). split; [lia|done].
Qed.

Lemma backing_ok_update m id f f' b :
  m !! id = Some f -> file_ty f' = file_ty f -> (is_Some (file_fs f) -> is_Some (file_fs f')) ->
  backing_ok m b -> backing_ok (<[id := f']> m) b.
Proof.
  intros Hf Hty Hfs. destruct b as [j|j rel]; cbn; intros (g & Hg & Hp).
  - destruct (decide (j = id)) as [->|Hj]; [|exists g; by rewrite lookup_insert_ne].
    exists f'. rewrite lookup_insert_eq, Hty. split; [done|]. congruence.
  - destruct (decide (j = id)) as [->|Hj]; [|exists g; by rewrite lookup_insert_ne].
    exists f'. rewrite lookup_insert_eq. split; [done|]. apply Hfs. congruence.
Qed.

Lemma backing_ok_insert m n g b : m !! n = None -> backing_ok m b -> backing_ok (<[n := g]> m) b.
Proof.
  intros Hn. destruct b as [j|j rel]; cbn; intros (h & Hh & Hp); exists h;
    (rewrite lookup_insert_ne; [done|congruence]).
Qed.

(** ** The operations keep the invariant *)

Definition vfs_inv v : Prop := vfs_wf v /\ room v.

(** A file changes its contents, in place. *)
Lemma wf_update v id f f' :
  vfs_wf v -> files v !! id = Some f ->
  file_ty f' = file_ty f -> file_name f' = file_name f -> file_parent f' = file_parent f ->
  file_children f' = file_children f -> (is_Some (file_fs f) -> is_Some (file_fs f')) -> shape_ok f' ->
  vfs_wf (set_files (<[id := f']> (files v)) v).
Proof.
  intros [[root [Hr Ht]] Hc Hfds Ho Hn] Hf Hty Hname Hpar Hch Hfs Hs. split; cbn; [|done| |done..].
  - exists root. split; [done|]. by apply (tree_files_update _ _ _ _ f).
  - eapply fds_ok_mono; [|done|exact Hfds]. intros b _. by apply (backing_ok_update _ _ f).
Qed.

Lemma alter_insert_files v id f g :
  files v !! id = Some f -> alter g id (files v) = <[id := g f]> (files v).
Proof.
  intros Hf. apply map_eq. intros j. destruct (decide (j = id)) as [->|Hj].
  - by rewrite lookup_alter_eq, lookup_insert_eq, Hf.
  - by rewrite lookup_alter_ne, lookup_insert_ne.
Qed.

Lemma wf_shape v id f : vfs_wf v -> files v !! id = Some f -> shape_ok f.
Proof. intros [[root [_ Ht]] _ _ _ _] Hf. by apply (tf_ids _ _ _ Ht) in Hf as [_ ?]. Qed.

(** A change of the descriptors that keeps what they refer to. *)
Lemma wf_set_fds v l :
  vfs_wf v -> fd_key <$> l = fd_key <$> fds v -> Forall offset_ok l -> vfs_wf (set_fds l v).
Proof. intros [Ht Hc Hfds Ho Hn] Hk Hl. split; cbn; [done|done| |done|done]. by apply (fds_ok_ext _ (fds v)). Qed.

Lemma update_desc_run v n g i fd :
  fd_find v n = Some (i, fd) -> update_desc n g v = (Ok tt, set_fds (alter g i (fds v)) v).
Proof. intros Hf. unfold update_desc. unfold sbind. cbn. by rewrite Hf. Qed.

Lemma hoare_update_desc n g :
  (forall fd, fd_key (g fd) = fd_key fd) -> (forall fd, offset_ok fd -> offset_ok (g fd)) ->
  hoare vfs_wf (update_desc n g) vfs_wf.
Proof.
  intros Hk Ho v Hv. unfold update_desc, sbind. cbn. destruct (fd_find v n) as [[i fd]|]; cbn; [|done].
  split; [|done]. apply wf_set_fds; [done|by apply fd_key_alter|]. apply Forall_alter; [apply Hv|].
  intros x _. apply Ho.
Qed.

Lemma bump_file_wf v : vfs_wf v -> next_file_id v < 2 ^ 64 - 1 -> vfs_wf (bump_file v).
Proof.
  intros [[root [Hr Ht]] Hc Hfds Ho Hn] Hlt. split; cbn; [|done|done|done|lia].
  exists root. split; [done|]. destruct Ht as [H1 H2 H3 H4 H5 H6]. split; [done| |done..].
  intros id f [? ?]%H2. auto with lia.
Qed.

Lemma added_wf v pid pf ty name :
  vfs_wf v -> next_file_id v < 2 ^ 64 - 1 -> find_file v pid = Some pf -> file_ty pf = Directory ->
  has_child v pf name = false -> ty <> Pipe -> vfs_wf (added v pid pf (FileInfo_new ty name pid)).
Proof.
  intros [[root [Hr Ht]] Hc Hfds Ho Hn] Hlt Hpf Hd Hhas Hty. set (g := FileInfo_new ty name pid).
  pose proof (fresh_file v root Ht) as Hfresh. pose proof (tf_ids _ _ _ Ht _ _ Hpf) as [Hpid _].
  assert (shape_ok g) as Hs by (split; [done|split; [done|constructor]]).
  assert (<[next_file_id v := g]> (files v) !! pid = Some pf) as Hpf' by (rewrite lookup_insert_ne; [done|lia]).
  assert (Hold : forall c, c ∈ file_children pf -> c <> next_file_id v).
  { intros c Hin ->. destruct (tf_children _ _ _ Ht pid pf _ Hpf Hin) as (_ & h & Hh & _). congruence. }
  split; cbn; [|done| |done|lia].
  - exists root. split; [done|]. apply (tree_files_list _ _ _ _ _ _ g).
    + apply (tree_files_insert _ _ _ _ pf); [done|lia|done..].
    + done.
    + done.
    + apply lookup_insert_eq.
    + done.
    + destruct (tf_root _ _ _ Ht) as (r & Hroot & _). intros Heq. congruence.
    + lia.
    + done.
    + intros Hin. by apply (Hold _ Hin).
    + intros d h Hin Hh. rewrite lookup_insert_ne in Hh by (symmetry; by apply Hold). intros Heq.
      unfold has_child in Hhas. apply not_true_iff_false in Hhas. apply Hhas, existsb_exists.
      exists d. split; [by apply list_elem_of_In|]. unfold find_file. rewrite Hh. by apply String.eqb_eq.
  - eapply fds_ok_mono; [|done|exact Hfds]. intros b _ Hb.
    apply (backing_ok_update _ _ pf); [done..|]. by apply backing_ok_insert.
Qed.

Lemma add_file_safe path ty : ty <> Pipe -> hoare vfs_inv (add_file path ty) vfs_wf.
Proof.
  intros Hty v [Hwf Hroom]. pose proof (proj1 Hroom) as Hlt.
  destruct (add_file_spec v path ty Hwf Hroom); cbn; (split; [|done]); [done|done|done|by apply bump_file_wf|].
  apply added_wf; [done|done|by eapply find_file_by_path_found|done..].
Qed.

Lemma absolutize_ok v path p : cwd_ok (cwd_path v) -> absolutize v path = Some p -> cwd_ok (Some p).
Proof.
  intros (c & Hc & Habs & Hnorm). unfold absolutize. rewrite Hc. destruct (Path_is_abs path) eqn:Ha.
  - intros [= <-]. eexists. split; [done|]. by rewrite is_abs_normalize, normalize_idem.
  - intros [= <-]. eexists. split; [done|]. split; [|unfold Path_join; apply normalize_idem].
    rewrite is_abs_join; [done|]. intros He. unfold Path_is_abs in Habs. by rewrite He in Habs.
Qed.

Lemma chdir_safe path : hoare vfs_wf (chdir path) vfs_wf.
Proof.
  intros v Hv. unfold chdir, sbind. cbn. destruct (absolutize v path) as [p|] eqn:Hp; cbn; [|done].
  destruct (find_file_by_path v p) as [r|]; cbn; [|done]. destruct (negb _); cbn; [done|].
  split; [|done]. pose proof Hv as [Ht Hc Hfds Ho Hn]. split; cbn; [done| |done..]. by eapply absolutize_ok.
Qed.

Lemma mount_fs_safe path fs : hoare vfs_wf (mount_fs path fs) vfs_wf.
Proof.
  intros v Hv. unfold mount_fs, sbind. cbn. destruct (find_file_by_path_mut v path) as [[id f]|] eqn:Hp; cbn; [|done].
  apply find_file_by_path_mut_found, find_file_by_path_found in Hp.
  destruct (file_ty f) eqn:Hty; cbn; [done..|]. split; [|done]. rewrite (alter_insert_files v id f) by done.
  apply (wf_update v id f); [done..|]. destruct (wf_shape v id f Hv Hp) as (_ & _ & Hnd).
  split; [|by split; [cbn; rewrite Hty|]]. intros Hd. by destruct Hd.
Qed.

(** ** What a path leads to

    [at_path v root ns id]: the names [ns] lead from the root to the file [id],
    through directories without a mounted file system. *)
Inductive at_path v (root : Z) : list string -> Z -> Prop :=
| at_root : at_path v root [] root
| at_child ns id f c g :
    at_path v root ns id -> find_file v id = Some f -> file_fs f = None ->
    c ∈ file_children f -> find_file v c = Some g ->
    at_path v root (ns ++ [file_name g]) c.

Definition cwd_names v : list string :=
  match cwd_path v with Some c => Path_names c | None => [] end.

Lemma absolutize_names v path :
  cwd_ok (cwd_path v) ->
  exists p, absolutize v path = Some p /\ Path_names p = denote (cwd_names v) path.
Proof.
  intros (c & Hc & Habs & Hnorm). unfold absolutize, cwd_names. rewrite Hc.
  assert (path_str c <> "") as Hne by (intros He; unfold Path_is_abs in Habs; by rewrite He in Habs).
  destruct (Path_is_abs path) eqn:Ha; eexists; (split; [done|]).
  - by apply names_abs_denote.
  - assert (Path_names (Path_join c (path_str path)) = denote [] (Path_join c (path_str path))) as ->.
    { rewrite <- names_abs_denote by (by rewrite is_abs_join). f_equal. unfold Path_join. by rewrite normalize_idem. }
    rewrite join_denote by done. rewrite <- (names_abs_denote c []) by done. rewrite Hnorm. unfold denote. rewrite Ha.
    by destruct path.
Qed.

Lemma find_file_by_path_denote v path root rf :
  cwd_ok (cwd_path v) -> root_id v = Some root -> find_file v root = Some rf ->
  find_file_by_path v path = resolve_names v root rf (denote (cwd_names v) path).
Proof.
  intros Hc Hr Hf. unfold find_file_by_path. destruct (absolutize_names v path Hc) as (p & -> & ->).
  by rewrite Hr, Hf.
Qed.

Section AtPath.
Context (v : Vfs) (root : Z) (Ht : tree_files (files v) root (next_file_id v)).

Lemma resolve_at_path pre id f ns id' f' :
  at_path v root pre id -> find_file v id = Some f ->
  resolve_names v id f ns = Some (ResVfs id' f') ->
  at_path v root (pre ++ ns) id' /\ find_file v id' = Some f' /\ file_fs f' = None.
Proof.
  revert pre id f. induction ns as [|x ns IH]; intros pre id f Hat Hf; cbn.
  - destruct (file_fs f) eqn:Hfs; [by unfold resolve_mount|]. intros [= <- <-]. by rewrite app_nil_r.
  - destruct (file_fs f) as [fs|] eqn:Hfs.
    + unfold resolve_mount. destruct (String.eqb _ _); [done|]. by destruct (fs_metadata _ _).
    + destruct (find_child _ _ _) as [[c g]|] eqn:Hc; [|done].
      apply find_child_Some in Hc as (Hin & Hg & <-). intros Hres.
      replace (pre ++ file_name g :: ns) with ((pre ++ [file_name g]) ++ ns) by (by rewrite <- app_assoc).
      apply (IH (pre ++ [file_name g]) c g); [by eapply at_child|done|done].
Qed.

Lemma find_child_names cs c g :
  (forall d, d ∈ cs -> is_Some (find_file v d)) ->
  (forall d h, d ∈ cs -> find_file v d = Some h -> file_name h = file_name g -> d = c) ->
  c ∈ cs -> find_file v c = Some g -> find_child v cs (file_name g) = Some (c, g).
Proof.
  intros Hex Huniq Hin Hg. induction cs as [|d cs IH]; [by apply not_elem_of_nil in Hin|]. cbn.
  destruct (Hex d (list_elem_of_here _ _)) as [h Hh]. rewrite Hh.
  destruct (String.eqb_spec (file_name h) (file_name g)) as [Heq|Hne].
  - assert (d = c) as -> by (apply (Huniq d h); [by left|done..]). congruence.
  - apply elem_of_cons in Hin as [->|Hin]; [congruence|]. apply IH; [..|done].
    + intros x Hx. apply Hex. by right.
    + intros x y Hx. apply Huniq. by right.
Qed.

(** A directory finds the child with a name. *)
Lemma find_child_of id f c g :
  find_file v id = Some f -> c ∈ file_children f -> find_file v c = Some g ->
  find_child v (file_children f) (file_name g) = Some (c, g).
Proof.
  intros Hf Hin Hg. apply find_child_names; [| |done..].
  - intros d Hd. destruct (tf_children _ _ _ Ht id f d Hf Hd) as (_ & h & Hh & _). by exists h.
  - intros d h Hd Hh Hname. by apply (tf_names _ _ _ Ht id f d c h g).
Qed.

Lemma at_path_resolve rf ns id f rest :
  find_file v root = Some rf -> at_path v root ns id -> find_file v id = Some f ->
  resolve_names v root rf (ns ++ rest) = resolve_names v id f rest.
Proof.
  intros Hrf Hat. revert f rest. induction Hat as [|ns id f0 c g Hat IH Hf0 Hfs Hin Hg]; intros f rest Hf; [cbn [app]; congruence|].
  rewrite <- app_assoc. rewrite (IH f0) by done. cbn. rewrite Hfs.
  rewrite (find_child_of id f0 c g) by done. congruence.
Qed.

Lemma at_path_parent ns id :
  at_path v root ns id -> id <> root ->
  exists ns' g, ns = ns' ++ [file_name g] /\ find_file v id = Some g /\ at_path v root ns' (file_parent g).
Proof.
  intros Hat Hne. destruct Hat as [|ns id f c g Hat Hf Hfs Hin Hg]; [done|].
  destruct (tf_children _ _ _ Ht id f c Hf Hin) as (_ & h & Hh & Hp & _).
  unfold find_file in Hg. rewrite Hg in Hh. injection Hh as <-. exists ns, g. by rewrite Hp.
Qed.

(** A file has one path. *)
Lemma at_path_unique ns ns' id : at_path v root ns id -> at_path v root ns' id -> ns = ns'.
Proof.
  intros Hat. revert ns'. induction Hat as [|ns id f c g Hat IH Hf Hfs Hin Hg]; intros ns' Hat'.
  - inversion Hat' as [|ns0 id f c g Hat0 Hf Hfs Hin Hg]; [done|]. subst c.
    by destruct (tf_children _ _ _ Ht id f root Hf Hin) as [? _].
  - destruct (tf_children _ _ _ Ht id f c Hf Hin) as (Hne & h & Hh & Hp & _).
    destruct (at_path_parent ns' c Hat' Hne) as (ns0 & g' & -> & Hg' & Hat0).
    unfold find_file in *. assert (g' = g) as -> by congruence. assert (h = g) as -> by congruence.
    rewrite Hp in Hat0. by rewrite (IH _ Hat0).
Qed.

End AtPath.

Lemma at_path_exists v root ns id :
  tree_files (files v) root (next_file_id v) -> at_path v root ns id -> exists f, find_file v id = Some f.
Proof. intros Ht [|]; [|by eexists]. destruct (tf_root _ _ _ Ht) as (f & Hf & _). by exists f. Qed.

Section Added.
Context (v : Vfs) (root pid : Z) (pf : FileInfo) (ty : VfsFileType) (name : string).
Context (Ht : tree_files (files v) root (next_file_id v)).
Context (Hpf : find_file v pid = Some pf) (Hd : file_ty pf = Directory).

Let nid : Z := next_file_id v.
Let nf : FileInfo := FileInfo_new ty name pid.
Let v' : Vfs := added v pid pf nf.

Lemma added_pid_nid : pid <> nid.
Proof. apply (tf_ids _ _ _ Ht) in Hpf as [? _]. unfold nid. lia. Qed.

Lemma added_pid : find_file v' pid = Some (set_file_children (file_children pf ++ [nid]) pf).
Proof. apply lookup_insert_eq. Qed.

Lemma added_nid : find_file v' nid = Some nf.
Proof.
  unfold find_file, v', added. cbn. rewrite lookup_insert_ne by apply added_pid_nid. apply lookup_insert_eq.
Qed.

Lemma added_other id : id <> pid -> id <> nid -> find_file v' id = find_file v id.
Proof. intros ? ?. unfold find_file, v', added. cbn. by rewrite !lookup_insert_ne. Qed.

Lemma added_old id f :
  find_file v id = Some f ->
  exists f', find_file v' id = Some f' /\ file_name f' = file_name f /\ file_fs f' = file_fs f
    /\ (forall c, c ∈ file_children f' <-> c ∈ file_children f \/ (id = pid /\ c = nid)).
Proof.
  intros Hf. assert (id <> nid) as Hn.
  { intros ->. pose proof (fresh_file v root Ht) as Hno. unfold find_file, nid in Hf. congruence. }
  destruct (decide (id = pid)) as [->|Hne].
  - eexists. rewrite added_pid. split; [done|]. rewrite Hpf in Hf. injection Hf as <-. do 2 (split; [done|]).
    intros c. cbn. rewrite elem_of_app, list_elem_of_singleton. tauto.
  - exists f. rewrite added_other by done. do 3 (split; [done|]). intros c. tauto.
Qed.

Lemma at_path_added_mono ns id : at_path v root ns id -> at_path v' root ns id.
Proof.
  induction 1 as [|ns id f c g Hat IH Hf Hfs Hin Hg]; [constructor|].
  destruct (added_old id f Hf) as (f' & Hf' & _ & Hfs' & Hch). destruct (added_old c g Hg) as (g' & Hg' & <- & _).
  eapply at_child; [done|exact Hf'|congruence| |done]. apply Hch. by left.
Qed.

Lemma at_path_added ns id :
  at_path v' root ns id <->
  at_path v root ns id
  \/ (id = nid /\ file_fs pf = None /\ exists ns', at_path v root ns' pid /\ ns = ns' ++ [name]).
Proof.
  split.
  - induction 1 as [|ns id f' c g' Hat IH Hf' Hfs Hin Hg']; [left; constructor|]. destruct IH as [IH|(-> & _)].
    + destruct (at_path_exists v root ns id Ht IH) as [f Hf].
      destruct (added_old id f Hf) as (f0 & Hf0 & _ & Hfs' & Hch). rewrite Hf' in Hf0. injection Hf0 as <-.
      apply Hch in Hin as [Hin|[-> ->]].
      * left. destruct (tf_children _ _ _ Ht id f c Hf Hin) as (_ & g & Hg & _).
        destruct (added_old c g Hg) as (g0 & Hg0 & Hname & _). rewrite Hg' in Hg0. injection Hg0 as <-.
        rewrite Hname. eapply at_child; [exact IH|exact Hf|congruence|done|done].
      * right. rewrite added_nid in Hg'. injection Hg' as <-. split; [done|]. rewrite Hpf in Hf. injection Hf as <-.
        split; [congruence|]. by exists ns.
    + rewrite added_nid in Hf'. injection Hf' as <-. by apply not_elem_of_nil in Hin.
  - intros [Hat|(-> & Hfs & ns' & Hat & ->)]; [by apply at_path_added_mono|].
    change name with (file_name nf). eapply at_child; [by apply at_path_added_mono|apply added_pid|done| |apply added_nid].
    cbn. apply elem_of_app. right. by left.
Qed.

End Added.

(** A file that a path resolves to. *)
Definition resolves v (path : Path) (id : Z) : Prop :=
  exists f, find_file_by_path v path = Some (ResVfs id f).

Lemma resolves_at v root path id :
  vfs_wf v -> root_id v = Some root ->
  resolves v path id <-> at_path v root (denote (cwd_names v) path) id
                         /\ exists f, find_file v id = Some f /\ file_fs f = None.
Proof.
  intros [[root' [Hr Ht]] Hc _ _ _] Hr'. rewrite Hr in Hr'. injection Hr' as ->.
  destruct (tf_root _ _ _ Ht) as (rf & Hrf & _). unfold resolves.
  rewrite (find_file_by_path_denote v path root rf Hc Hr Hrf). split.
  - intros (f & Hf). apply (resolve_at_path v root []) in Hf as (Hat & Hid & Hfs); [|constructor|done].
    split; [done|]. by exists f.
  - intros (Hat & f & Hf & Hfs). exists f.
    rewrite <- (app_nil_r (denote _ _)), (at_path_resolve v root Ht rf _ id f []) by done. cbn. by rewrite Hfs.
Qed.

Lemma name_ok_plain name : name_ok name = plain_name name.
Proof. unfold name_ok, plain_name. by destruct (str_is_empty _), (String.eqb _ _), (String.eqb _ _). Qed.

Lemma wf_root v : vfs_wf v -> exists root rf, root_id v = Some root /\ find_file v root = Some rf
  /\ tree_files (files v) root (next_file_id v).
Proof.
  intros [[root [Hr Ht]] _ _ _ _]. destruct (tf_root _ _ _ Ht) as (rf & Hrf & _). by exists root, rf.
Qed.

Lemma find_file_by_path_same v p q :
  vfs_wf v -> denote (cwd_names v) p = denote (cwd_names v) q ->
  find_file_by_path v p = find_file_by_path v q.
Proof.
  intros Hwf Heq. destruct (wf_root v Hwf) as (root & rf & Hr & Hrf & _). destruct Hwf as [_ Hc _ _ _].
  by rewrite !(find_file_by_path_denote v _ root rf), Heq.
Qed.

(** Creating a file: the outcome of a successful [add_file] in terms of paths. *)
Section Created.
Context (v : Vfs) (path : Path) (ty : VfsFileType) (pid : Z) (pf : FileInfo).
Context (Hwf : vfs_wf v) (Hlt : next_file_id v < 2 ^ 64 - 1) (Hty : ty <> Pipe).
Context (Hp : find_file_by_path v (Path_parent path) = Some (ResVfs pid pf)).
Context (Hd : file_ty pf = Directory) (Hc : has_child v pf (Path_name path) = false).
Context (Hname : name_ok (Path_name path) = true) (Hns : Path_names path <> []).

Let nid : Z := next_file_id v.
Let v' : Vfs := added v pid pf (FileInfo_new ty (Path_name path) pid).

Lemma created_wf : vfs_wf v'.
Proof. apply added_wf; [done|done|by eapply find_file_by_path_found|done..]. Qed.

Lemma created_at root q id :
  root_id v = Some root ->
  at_path v' root (denote (cwd_names v) q) id <->
  at_path v root (denote (cwd_names v) q) id
  \/ (id = nid /\ denote (cwd_names v) q = denote (cwd_names v) path).
Proof.
  intros Hr. destruct (wf_root v Hwf) as (root' & rf & Hr' & Hrf & Ht). rewrite Hr in Hr'. injection Hr' as <-.
  pose proof (find_file_by_path_found _ _ _ _ Hp) as Hpf.
  assert (resolves v (Path_parent path) pid) as Hres by (by exists pf).
  apply (resolves_at v root _ _ Hwf Hr) in Hres as (Hat & f & Hf & Hfs). rewrite Hpf in Hf. injection Hf as <-.
  unfold v'. rewrite (at_path_added v root pid pf ty (Path_name path) Ht Hpf).
  rewrite (parent_name_denote (cwd_names v) path Hns) by (by rewrite <- name_ok_plain).
  split; (intros [?|(-> & Hrest)]; [by left|right]; split; [done|]).
  - destruct Hrest as (_ & ns' & Hat' & ->). by rewrite (at_path_unique v root Ht _ _ _ Hat Hat').
  - split; [done|]. by eexists.
Qed.

Lemma created_resolves q id :
  resolves v' q id <->
  resolves v q id \/ (id = nid /\ denote (cwd_names v) q = denote (cwd_names v) path).
Proof.
  destruct (wf_root v Hwf) as (root & rf & Hr & Hrf & Ht). pose proof created_wf as Hwf'.
  rewrite (resolves_at v' root q id Hwf' Hr), (resolves_at v root q id Hwf Hr).
  change (cwd_names v') with (cwd_names v). rewrite (created_at root q id Hr).
  pose proof (find_file_by_path_found _ _ _ _ Hp) as Hpf. split.
  - intros ([Hat|?] & f' & Hf' & Hfs'); [left|by right]. split; [done|].
    destruct (at_path_exists v root _ _ Ht Hat) as [f Hf]. exists f. split; [done|].
    destruct (added_old v root pid pf ty (Path_name path) Ht Hpf id f Hf) as (f0 & Hf0 & _ & Hfs & _).
    fold v' in Hf0. congruence.
  - intros [(Hat & f & Hf & Hfs)|(-> & Heq)].
    + split; [by left|].
      destruct (added_old v root pid pf ty (Path_name path) Ht Hpf id f Hf) as (f0 & Hf0 & _ & Hfs' & _).
      exists f0. split; [done|congruence].
    + split; [by right|]. eexists. split; [by eapply added_nid|done].
Qed.

End Created.

Lemma resolve_names_mount v id f ns mid fs rel md :
  find_file v id = Some f -> resolve_names v id f ns = Some (ResFs mid fs rel md) ->
  exists g, find_file v mid = Some g /\ file_fs g = Some fs.
Proof.
  revert id f. induction ns as [|x ns IH]; intros id f Hf; cbn.
  - destruct (file_fs f) as [fs'|] eqn:Hfs; [|done]. unfold resolve_mount. cbn. intros [= <- <- _ _]. by exists f.
  - destruct (file_fs f) as [fs'|] eqn:Hfs.
    + unfold resolve_mount. destruct (String.eqb _ _); [by intros [= <- <- _ _]; exists f|].
      destruct (fs_metadata _ _); [|done..]. intros [= <- <- _ _]. by exists f.
    + destruct (find_child _ _ _) as [[c g]|] eqn:Hc; [|done].
      apply find_child_Some in Hc as (_ & Hc & _). by apply IH.
Qed.

Lemma find_file_by_path_mount v path mid fs rel md :
  find_file_by_path v path = Some (ResFs mid fs rel md) ->
  exists g, find_file v mid = Some g /\ file_fs g = Some fs.
Proof.
  unfold find_file_by_path. destruct (absolutize v path); [|done]. destruct (root_id v) as [r|]; [|done].
  destruct (find_file v r) eqn:Hr; [|done]. by apply resolve_names_mount.
Qed.

(** A new descriptor. *)
Lemma open_fd_wf v b e :
  vfs_wf v -> next_fd_num v < 2 ^ 64 - 1 -> backing_ok (files v) b ->
  vfs_wf (MkVfs (cwd_path v) (root_id v) (files v)
            (fds v ++ [MkFileDescriptor (MkFd (next_fd_num v)) b 0 e None])
            (next_file_id v) (next_fd_num v + 1)).
Proof.
  intros [Ht Hc Hfds Ho Hn] Hlt Hb. split; cbn; [done|done|by apply fds_ok_open| |lia].
  apply Forall_app. split; [done|]. constructor; [|constructor]. unfold offset_ok. cbn. lia.
Qed.

(** The end of [open_file]: the descriptor for a backing. *)
Definition open_tail (b : FileBacking) (dev : option (SR Dev unit))
    : SR Vfs (FileDescriptorNumber * option (SR Dev unit)) :=
  let! n := FileDescriptorNumber_new in
  do! smodify (fun v => set_fds (fds v ++ [MkFileDescriptor n b 0 None None]) v) in
  sret (n, dev).

Lemma open_tail_safe v b dev :
  vfs_wf v -> next_fd_num v < 2 ^ 64 - 1 -> backing_ok (files v) b ->
  vfs_wf (snd (open_tail b dev v)) /\ fst (open_tail b dev v) <> Panic.
Proof.
  intros Hwf Hlt Hb. unfold open_tail, sbind. cbn. split; [|done]. pose proof (vw_next _ Hwf) as Hn.
  assert (wrap 64 (next_fd_num v + 1) = next_fd_num v + 1) as -> by (apply wrap_small, is_uint_spec; lia).
  exact (open_fd_wf v b None Hwf Hlt Hb).
Qed.

Lemma create_resolves v path v' :
  vfs_wf v -> room v -> find_file_by_path v path = None -> add_file path VirtualFile v = (Ok tt, v') ->
  vfs_wf v' /\ next_fd_num v' = next_fd_num v
  /\ find_file_by_path v' path
     = Some (ResVfs (next_file_id v) (FileInfo_new VirtualFile (Path_name path)
               (match find_file_by_path v (Path_parent path) with Some (ResVfs pid _) => pid | _ => 0 end))).
Proof.
  intros Hwf Hroom Hnone Hadd. pose proof (add_file_spec v path VirtualFile Hwf Hroom) as Hcase.
  rewrite Hadd in Hcase. inversion Hcase as [| | | |pid pf Hp Hd Hhas Hname Hv']. subst v'. rewrite Hp.
  assert (Path_names path <> []) as Hns.
  { intros Hns. rewrite <- (find_file_by_path_same v (Path_parent path) path) in Hnone;
      [congruence|done|by apply parent_root_denote]. }
  pose proof (created_wf v path VirtualFile pid pf Hwf (proj1 Hroom) ltac:(done) Hp Hd Hhas) as Hwf'.
  split; [done|]. split; [done|].
  destruct (proj2 (created_resolves v path VirtualFile pid pf Hwf (proj1 Hroom) ltac:(done) Hp Hd Hhas Hname Hns
    path (next_file_id v)) (or_intror (conj eq_refl eq_refl))) as [f Hf].
  rewrite Hf. apply find_file_by_path_found in Hf.
  destruct (wf_root v Hwf) as (root & _ & _ & _ & Ht).
  rewrite (added_nid v root pid pf VirtualFile (Path_name path) Ht) in Hf
    by (by eapply find_file_by_path_found). by injection Hf as <-.
Qed.

Lemma open_file_safe path create : hoare vfs_inv (open_file path create) vfs_wf.
Proof.
  intros v [Hwf Hroom]. destruct Hroom as [Hr1 Hr2] eqn:HroomE. unfold open_file. cbn [sbind sget].
  assert (next_fd_num v < 2 ^ 64 - 1) as Hlt by lia. unfold sbind at 1 2. unfold sget.
  destruct (find_file_by_path v path) as [[id f|mid fs rel md]|] eqn:Hp.
  - pose proof (find_file_by_path_found _ _ _ _ Hp) as Hf.
    assert (file_ty f <> Directory -> backing_ok (files v) (BackVfs id)) as Hb by (intros ?; by exists f).
    destruct (file_ty f) eqn:Hty; cbn; try done.
    + destruct (list_find _ _) as [[i fd]|]; cbn; [done|]. apply (open_tail_safe v (BackVfs id) None); [done..|by apply Hb].
    + destruct (list_find _ _) as [[i fd]|]; cbn; [done|].
      apply (open_tail_safe v (BackVfs id) (Some (dev_open desc))); [done..|by apply Hb].
  - destruct (find_file_by_path_mount _ _ _ _ _ _ Hp) as (g & Hg & Hgf).
    destruct (Resolved_vfs_type _); cbn; try done.
    apply (open_tail_safe v (BackFs mid rel) None); [done..|]. exists g. split; [done|]. by rewrite Hgf.
  - destruct create; [|by cbn]. unfold sbind.
    pose proof (add_file_safe path VirtualFile ltac:(done) v (conj Hwf Hroom)) as [Hwf1 Hnp].
    destruct (add_file path VirtualFile v) as [[[]|e|] v1] eqn:Hadd; cbn -[add_file] in *; [|done|done].
    destruct (create_resolves v path v1 Hwf Hroom Hp Hadd) as (_ & Hfd & ->). cbn.
    destruct (create_resolves v path v1 Hwf Hroom Hp Hadd) as (_ & _ & Hres).
    apply find_file_by_path_found in Hres.
    apply (open_tail_safe v1 (BackVfs (next_file_id v)) None); [done|lia|]. by eexists.
Qed.

Lemma fds_ok_delete m l n i x : l !! i = Some x -> fds_ok m l n -> fds_ok m (delete i l) n.
Proof.
  intros Hx [Hnd Hfd]. pose proof (delete_Permutation _ _ _ Hx) as HP. split.
  - rewrite HP in Hnd. by apply NoDup_cons in Hnd as [_ ?].
  - intros fd Hin. apply Hfd. rewrite HP. by right.
Qed.

Lemma wf_delete_fd v n i fd :
  vfs_wf v -> fd_find v n = Some (i, fd) -> vfs_wf (set_fds (delete i (fds v)) v).
Proof.
  intros [Ht Hc Hfds Ho Hn] (Hi & _ & _)%list_find_Some.
  split; cbn; [done|done|by eapply fds_ok_delete| |done]. by apply Forall_delete.
Qed.

Lemma release_pipe_end_safe id e : hoare vfs_wf (release_pipe_end id e) vfs_wf.
Proof.
  intros v Hwf. unfold release_pipe_end, sbind. cbn. destruct (find_file v id) as [f|] eqn:Hf; cbn; [|done].
  destruct (file_ty f) eqn:Hty; [done|done| |done]. destruct (Nat.eqb_spec (length (fds_of v id)) 0) as [H0|Hne]; cbn.
  - split; [|done]. pose proof Hwf as [[root [Hr Ht]] Hc Hfds Ho Hn]. split; cbn; [|done| |done|done].
    + exists root. split; [done|]. by apply (tree_files_delete _ _ _ _ f).
    + eapply fds_ok_mono; [|reflexivity|exact Hfds]. intros b (fd & -> & Hin)%list_elem_of_fmap.
      destruct (fd_backing fd) as [j|j rel] eqn:Hb; cbn; intros (g & Hg & Hp); exists g; (split; [|done]);
        (rewrite lookup_delete_ne; [done|]); intros <-.
      * apply length_zero_iff_nil in H0. assert (fd ∈ fds_of v id) as Hx
          by (apply list_elem_of_filter; split; done). rewrite H0 in Hx. by apply not_elem_of_nil in Hx.
      * unfold find_file in Hf. rewrite Hf in Hg. injection Hg as <-.
        destruct (wf_shape v id f Hwf Hf) as (Hs & _). destruct Hs as [_ Hs]; [by rewrite Hty|].
        rewrite Hs in Hp. by destruct Hp.
  - destruct (match e with Some PipeWrite => _ | _ => false end); cbn; [|done]. split; [|done].
    rewrite (alter_insert_files v id f) by done. apply (wf_update v id f); [done..|].
    destruct (wf_shape v id f Hwf Hf) as (Hs & Hpipe & Hnd). split; [done|]. split; [|done].
    cbn. intros Ht. destruct (Hpipe Ht) as [pb ->]. by eexists.
Qed.

Lemma close_file_safe n : hoare vfs_wf (close_file n) vfs_wf.
Proof.
  intros v Hwf. unfold close_file, sbind. cbn -[release_pipe_end]. destruct (fd_find v n) as [[i fd]|] eqn:Hf; cbn -[release_pipe_end]; [|done].
  pose proof (wf_delete_fd v n i fd Hwf Hf) as Hwf1. destruct (fd_backing fd) as [id|mid rel]; cbn -[release_pipe_end]; [|done].
  destruct (release_pipe_end_safe id (fd_pipe_end fd) _ Hwf1) as [H1 H2].
  destruct (release_pipe_end id (fd_pipe_end fd) _) as [[[]|err|] v2]; cbn -[release_pipe_end] in *; done.
Qed.

Lemma fd_find_alter v n i fd g :
  fd_find v n = Some (i, fd) -> (forall x, fd_num (g x) = fd_num x) ->
  fd_find (set_fds (alter g i (fds v)) v) n = Some (i, g fd).
Proof.
  intros (Hi & Hn & Hbefore)%list_find_Some Hg. apply list_find_Some. cbn. split; [|split].
  - by rewrite list_lookup_alter_eq, Hi.
  - by rewrite Hg.
  - intros j x Hj Hlt. rewrite list_lookup_alter_ne in Hj by lia. by eapply Hbefore.
Qed.

Lemma fd_find_in v n i fd : fd_find v n = Some (i, fd) -> fd ∈ fds v /\ fd_num fd = n.
Proof. intros (Hi & Hn & _)%list_find_Some. split; [by eapply list_elem_of_lookup_2|done]. Qed.

(** A read never leaves the content. *)
Lemma read_window_ok content offset max_len :
  0 <= offset < 2 ^ 64 -> 0 <= max_len ->
  exists bytes stop, read_window content offset max_len = Ok (bytes, stop) /\ 0 <= stop < 2 ^ 64.
Proof.
  intros Ho Hm. unfold read_window, saturating_add, slice. set (start := Z.min offset _). set (stop := Z.min _ _).
  destruct (Nat.leb_spec (Z.to_nat start) (Z.to_nat stop)); [|lia].
  destruct (Nat.leb_spec (Z.to_nat stop) (length content)); [|lia]. cbn. eexists _, _. split; [done|lia].
Qed.

Lemma read_window_spec content offset max_len :
  0 <= offset < 2 ^ 64 -> 0 <= max_len -> Z.of_nat (length content) < 2 ^ 64 ->
  read_window content offset max_len
  = Ok (take (Z.to_nat max_len) (drop (Z.to_nat offset) content),
        Z.min (Z.min offset (Z.of_nat (length content)) + max_len) (Z.of_nat (length content))).
Proof.
  intros Ho Hm Hlen. unfold read_window, saturating_add, slice.
  set (len := Z.of_nat (length content)). set (start := Z.min offset len). set (stop := Z.min _ len).
  destruct (Nat.leb_spec (Z.to_nat start) (Z.to_nat stop)); [|lia].
  destruct (Nat.leb_spec (Z.to_nat stop) (length content)); [|lia]. cbn. f_equal. f_equal; [|lia].
  destruct (Z.le_gt_cases offset len).
  - replace (Z.to_nat start) with (Z.to_nat offset) by lia. destruct (Z.le_gt_cases (start + max_len) len).
    + f_equal. lia.
    + rewrite (take_ge (drop _ _) (Z.to_nat max_len)) by (rewrite length_drop; lia).
      apply take_ge. rewrite length_drop. lia.
  - rewrite !drop_ge by lia. by rewrite !take_nil.
Qed.

(** The running state after [update_desc], for a descriptor that exists. *)
Lemma wf_set_offset v n i fd x :
  vfs_wf v -> fd_find v n = Some (i, fd) -> 0 <= x < 2 ^ 64 ->
  vfs_wf (set_fds (alter (set_offset x) i (fds v)) v).
Proof.
  intros Hwf Hf Hx. apply wf_set_fds; [done|by apply fd_key_alter|]. apply Forall_alter; [apply Hwf|].
  intros fd' _ _. exact Hx.
Qed.

Lemma wf_set_cache v i c : vfs_wf v -> vfs_wf (set_fds (alter (set_cache c) i (fds v)) v).
Proof.
  intros Hwf. apply wf_set_fds; [done|by apply fd_key_alter|]. apply Forall_alter; [apply Hwf|]. by intros fd' _ ?.
Qed.

Lemma wf_offset v n i fd : vfs_wf v -> fd_find v n = Some (i, fd) -> 0 <= fd_offset fd < 2 ^ 64.
Proof.
  intros Hwf [Hin _]%fd_find_in. pose proof (vw_offsets _ Hwf) as Ho. rewrite Forall_forall in Ho. by apply Ho.
Qed.

(** A pipe's buffer changes. *)
Lemma wf_set_pipe v id f pb :
  vfs_wf v -> find_file v id = Some f ->
  vfs_wf (set_files (alter (set_pipe_buf (Some pb)) id (files v)) v).
Proof.
  intros Hwf Hf. rewrite (alter_insert_files v id f) by done. apply (wf_update v id f); [done..|].
  destruct (wf_shape v id f Hwf Hf) as (Hs & _ & Hnd). split; [done|]. split; [|done]. intros _. by eexists.
Qed.

Lemma wf_set_buf v id f b :
  vfs_wf v -> find_file v id = Some f -> vfs_wf (set_files (alter (set_file_buf b) id (files v)) v).
Proof.
  intros Hwf Hf. rewrite (alter_insert_files v id f) by done. apply (wf_update v id f); [done..|].
  exact (wf_shape v id f Hwf Hf).
Qed.

(** The content after a write at an offset: a gap is filled with zeros. *)
Definition overwrite (content : list Z) (offset : nat) (data : list Z) : list Z :=
  take offset content ++ replicate (offset - length content) 0 ++ data
  ++ drop (offset + length data) content.

Lemma write_window_spec buf offset data :
  0 <= offset -> offset + Z.of_nat (length data) <= 2 ^ 63 - 1 ->
  write_window buf offset (offset + Z.of_nat (length data)) data
  = Ok (overwrite buf (Z.to_nat offset) data).
Proof.
  intros Ho Hs. unfold write_window, overwrite, slice. set (o := Z.to_nat offset).
  assert (Z.to_nat (offset + Z.of_nat (length data)) = (o + length data)%nat) as -> by lia.
  destruct (Z.ltb_spec (Z.of_nat (length buf)) (offset + Z.of_nat (length data))) as [Hlt|Hge].
  - destruct (Z.leb_spec (offset + Z.of_nat (length data)) (2 ^ 63 - 1)); [|lia]. cbn [obind].
    unfold vec_resize. rewrite take_ge by lia. rewrite length_app, length_replicate.
    destruct (Nat.leb_spec o (o + length data)); [|lia].
    destruct (Nat.leb_spec (o + length data) (length buf + (o + length data - length buf))); [|lia]. cbn.
    f_equal. rewrite take_app, take_replicate, drop_ge by (rewrite length_app, length_replicate; lia).
    rewrite (drop_ge buf) by lia. rewrite <- !app_assoc. do 3 f_equal. lia.
  - cbn [obind]. destruct (Nat.leb_spec o (o + length data)); [|lia].
    destruct (Nat.leb_spec (o + length data) (length buf)); [|lia]. cbn.
    f_equal. replace (o - length buf)%nat with 0%nat by lia. done.
Qed.

Lemma wf_set_fs v id f fs :
  vfs_wf v -> find_file v id = Some f -> is_Some (file_fs f) ->
  vfs_wf (set_files (alter (set_file_fs (Some fs)) id (files v)) v).
Proof.
  intros Hwf Hf Hfs. rewrite (alter_insert_files v id f) by done. apply (wf_update v id f); [done..|].
  destruct (wf_shape v id f Hwf Hf) as (Hs & Hp & Hnd). split; [|done].
  intros Hd. destruct (Hs Hd) as [_ Hn]. rewrite Hn in Hfs. by destruct Hfs.
Qed.

Lemma wf_drop_caches b : hoare vfs_wf (drop_caches b) vfs_wf.
Proof.
  apply hoare_modify. intros v Hwf. apply wf_set_fds; [done| |].
  - rewrite <- list_fmap_compose. apply list_fmap_ext. intros i fd _. cbn. by case_decide.
  - apply Forall_fmap. eapply Forall_impl; [apply Hwf|]. intros fd Hfd. cbn. by case_decide.
Qed.

(** The write ends below the size limit of a vector. *)
Definition write_fits v (n : FileDescriptorNumber) (data : list Z) : Prop :=
  match fd_find v n with
  | Some (_, fd) => fd_offset fd + Z.of_nat (length data) <= 2 ^ 63 - 1
  | None => True
  end.

Section Safety.
Context `{!FileSystemSafe FS}.

Lemma read_tail_safe v n i fd content max_len :
  vfs_wf v -> fd_find v n = Some (i, fd) -> 0 <= max_len ->
  runs (let! (bytes, stop) := slift (read_window content (fd_offset fd) max_len) in
        do! update_desc n (set_offset stop) in
        sret (ReadData bytes)) v vfs_wf.
Proof.
  intros Hwf Hf Hm. destruct (read_window_ok content (fd_offset fd) max_len) as (b & stop & Hr & Hs);
    [by eapply wf_offset|done|]. unfold runs, sbind, slift. rewrite Hr, (update_desc_run v n _ i fd Hf). cbn.
  split; [|done]. by eapply wf_set_offset.
Qed.

Lemma read_file_safe n max_len : 0 <= max_len -> hoare vfs_wf (vfs_read_file n max_len) vfs_wf.
Proof.
  intros Hm. apply hoare_runs. intros v Hwf. unfold runs, vfs_read_file, file_desc.
  rewrite (sbind_run sget _ v v v) by done.
  destruct (fd_find v n) as [[i fd]|] eqn:Hf; cbn -[read_window update_desc]; [|done].
  destruct (fd_backing fd) as [id|mid rel] eqn:Hb.
  - unfold file_ref. destruct (find_file v id) as [f|] eqn:Hid; cbn -[read_window update_desc]; [|done].
    destruct (file_ty f) eqn:Hty; [|done| |done].
    + exact (read_tail_safe v n i fd (default [] (file_buf f)) max_len Hwf Hf Hm).
    + destruct (file_pipe_buf f) as [pb|]; cbn; [|done]. destruct (pipe_bytes pb) eqn:Hpb.
      * by destruct (write_closed pb).
      * split; [|done]. by eapply wf_set_pipe.
  - destruct (fs_content_cache fd) as [c|] eqn:Hc.
    + cbn -[read_window update_desc]. rewrite Hf. cbn -[read_window update_desc]. rewrite Hc.
      exact (read_tail_safe v n i fd c max_len Hwf Hf Hm).
    + unfold mount_fs_ref, file_ref, sbind, slift, sget.
      destruct (find_file v mid) as [f|]; cbn -[read_window update_desc]; [|done].
      destruct (file_fs f) as [fs|]; cbn -[read_window update_desc]; [|done].
      pose proof (fs_read_file_safe fs rel 0 (2 ^ 64 - 1) ltac:(lia) ltac:(lia)) as Hsafe.
      destruct (fs_read_file fs rel 0 _) as [content|err|]; [|done|done].
      rewrite (update_desc_run v n _ i fd Hf).
      set (v1 := set_fds _ v). assert (fd_find v1 n = Some (i, set_cache (Some content) fd)) as Hf1
        by (by apply fd_find_alter).
      rewrite Hf1. cbn -[read_window update_desc].
      exact (read_tail_safe v1 n i (set_cache (Some content) fd) content max_len
               (wf_set_cache v i _ Hwf) Hf1 Hm).
Qed.

Lemma write_file_safe n data :
  hoare (fun v => vfs_wf v /\ write_fits v n data) (vfs_write_file n data) vfs_wf.
Proof.
  apply hoare_runs. intros v [Hwf Hfits]. unfold runs, vfs_write_file, file_desc, write_fits in *.
  rewrite (sbind_run sget _ v v v) by done.
  destruct (fd_find v n) as [[i fd]|] eqn:Hf; cbn -[write_window update_desc drop_caches]; [|done].
  pose proof (wf_offset v n i fd Hwf Hf) as Ho.
  assert (uadd (E := Error_) 64 (fd_offset fd) (Z.of_nat (length data))
          = Ok (fd_offset fd + Z.of_nat (length data))) as Hadd
    by (unfold uadd; destruct (Z.ltb_spec (fd_offset fd + Z.of_nat (length data)) (2 ^ 64)); [done|lia]).
  destruct (fd_backing fd) as [id|mid rel] eqn:Hb.
  - unfold file_ref. destruct (find_file v id) as [f|] eqn:Hid; cbn -[write_window update_desc]; [|done].
    destruct (file_ty f) eqn:Hty; [|done| |done].
    + unfold sbind, slift. rewrite Hadd, write_window_spec by lia. cbn -[update_desc].
      rewrite (update_desc_run _ n _ i fd) by done. split; [|done].
      eapply wf_set_offset; [by eapply wf_set_buf|done|lia].
    + destruct (file_pipe_buf f) as [pb|]; cbn; [|done]. split; [|done]. by eapply wf_set_pipe.
  - unfold mount_fs_ref, file_ref. destruct (find_file v mid) as [f|] eqn:Hmid; cbn -[update_desc drop_caches]; [|done].
    destruct (file_fs f) as [fs|] eqn:Hfs; cbn -[update_desc drop_caches]; [|done].
    pose proof (fs_write_file_safe fs rel (fd_offset fd) data) as Hsafe.
    destruct (fs_write_file fs rel (fd_offset fd) data) as [r fs'].
    assert (is_Some (file_fs f)) as Hsome by (by rewrite Hfs).
    pose proof (wf_set_fs v mid f fs' Hwf Hmid Hsome) as Hwf1.
    unfold sbind at 1. cbn -[update_desc drop_caches]. unfold sbind, slift.
    destruct r as [[]|err|]; cbn -[update_desc drop_caches] in *; [|done|done].
    rewrite Hadd. apply (runs_hoare vfs_wf (let! _ := update_desc n (set_offset (fd_offset fd + Z.of_nat (length data))) in
      sret WriteDone) vfs_wf).
    + eapply hoare_bind; [apply hoare_update_desc|intros; apply hoare_ret|done]; [done|]. intros x _.
      unfold offset_ok. cbn. lia.
    + exact (proj1 (wf_drop_caches (BackFs mid rel) _ Hwf1)).
Qed.

Lemma file_size_safe v n : vfs_file_size v n <> Panic.
Proof.
  unfold vfs_file_size, file_desc. destruct (fd_find v n) as [[i fd]|]; cbn; [|done].
  destruct (fd_backing fd) as [id|mid rel]; unfold mount_fs_ref, file_ref.
  - destruct (find_file v id) as [f|]; cbn; [|done]. by destruct (file_ty f).
  - destruct (find_file v mid) as [f|]; cbn; [|done]. destruct (file_fs f) as [fs|]; cbn; [|done].
    pose proof (fs_metadata_safe fs rel). by destruct (fs_metadata fs rel).
Qed.

(** The offset arguments are 64-bit signed. *)
Definition seek_arg_ok (pos : SeekFrom) : Prop :=
  match pos with SeekStart o | SeekCurrent o | SeekEnd o => - 2 ^ 63 <= o < 2 ^ 63 end.

Lemma seek_safe n pos : seek_arg_ok pos -> hoare vfs_wf (vfs_seek n pos) vfs_wf.
Proof.
  intros Hpos. apply hoare_runs. intros v Hwf. unfold runs, vfs_seek, file_desc. rewrite (sbind_run sget _ v v v) by done.
  destruct (fd_find v n) as [[i fd]|] eqn:Hf; cbn -[update_desc vfs_file_size]; [|done].
  assert (forall t, t < 2 ^ 63 -> runs (if t <? 0 then serr (with_context InvalidData "seek target")
     else do! update_desc n (set_offset t) in sret t) v vfs_wf) as Htail.
  { intros t Ht. unfold runs. destruct (Z.ltb_spec t 0); [done|]. unfold sbind.
    rewrite (update_desc_run v n _ i fd Hf). cbn. split; [|done]. eapply wf_set_offset; [done|done|lia]. }
  destruct pos as [o|o|o]; cbn -[update_desc vfs_file_size] in *.
  - apply Htail. lia.
  - apply Htail. unfold i64_saturating_add. lia.
  - pose proof (file_size_safe v n) as Hs. unfold sbind, slift.
    destruct (vfs_file_size v n) as [size|e|]; [|done|done]. apply Htail. unfold i64_saturating_add. lia.
Qed.

Lemma create_pipe_safe : hoare vfs_inv create_pipe vfs_wf.
Proof.
  apply hoare_runs. intros v [Hwf [Hr1 Hr2]]. destruct (wf_root v Hwf) as (root & rf & Hr & Hrf & Ht).
  pose proof (vw_next _ Hwf) as Hn. unfold runs, create_pipe, sbind. cbn. rewrite Hr. cbn. split; [|done].
  assert (wrap 64 (next_file_id v + 1) = next_file_id v + 1) as -> by (apply wrap_small, is_uint_spec; lia).
  assert (wrap 64 (next_fd_num v + 1) = next_fd_num v + 1) as -> by (apply wrap_small, is_uint_spec; lia).
  assert (wrap 64 (next_fd_num v + 1 + 1) = next_fd_num v + 1 + 1) as -> by (apply wrap_small, is_uint_spec; lia).
  set (pf := set_pipe_buf _ _). set (v1 := set_files (<[next_file_id v := pf]> (files v)) (bump_file v)).
  assert (vfs_wf v1) as Hwf1.
  { destruct Hwf as [_ Hc Hfds Ho _]. split; cbn; [|done| |done|lia].
    - exists root. split; [done|]. destruct (tf_root _ _ _ Ht) as (rf' & Hrf' & Hd & _).
      apply (tree_files_insert _ _ _ _ rf'); [done|lia|done|done|done|].
      split; [done|]. split; [by eexists|constructor].
    - eapply fds_ok_mono; [|reflexivity|exact Hfds]. intros b _. apply backing_ok_insert. by eapply fresh_file. }
  assert (backing_ok (files v1) (BackVfs (next_file_id v))) as Hb by (exists pf; split; [apply lookup_insert_eq|done]).
  pose proof (open_fd_wf v1 _ (Some PipeRead) Hwf1 ltac:(cbn; lia) Hb) as Hwf2.
  rewrite <- Hr. exact (open_fd_wf _ (BackVfs (next_file_id v)) (Some PipeWrite) Hwf2 ltac:(cbn; lia) Hb).
Qed.

(** ** Transitions: what the kernel asks of the file system *)

Inductive vfs_op :=
| OpMkdir (path : Path)
| OpCreate (path : Path)
| OpAddDev (desc : DeviceFileDescriptor) (name : string)
| OpMount (path : Path) (fs : FS)
| OpChdir (path : Path)
| OpOpen (path : Path) (create : bool)
| OpClose (n : FileDescriptorNumber)
| OpRead (n : FileDescriptorNumber) (max_len : Z)
| OpWrite (n : FileDescriptorNumber) (data : list Z)
| OpSeek (n : FileDescriptorNumber) (pos : SeekFrom)
| OpPipe.

Definition run_vfs_op (op : vfs_op) : SR Vfs unit :=
  match op with
  | OpMkdir path => mkdir path
  | OpCreate path => add_file path VirtualFile
  | OpAddDev desc name => add_dev_file desc name
  | OpMount path fs => mount_fs path fs
  | OpChdir path => chdir path
  | OpOpen path create => do! open_file path create in sret tt
  | OpClose n => do! close_file n in sret tt
  | OpRead n max_len => do! vfs_read_file n max_len in sret tt
  | OpWrite n data => do! vfs_write_file n data in sret tt
  | OpSeek n pos => do! vfs_seek n pos in sret tt
  | OpPipe => do! create_pipe in sret tt
  end.

(** Arguments of the callers' types, and writes below the size limit. *)
Definition vfs_op_ok (op : vfs_op) v : Prop :=
  match op with
  | OpRead _ max_len => 0 <= max_len
  | OpWrite n data => write_fits v n data
  | OpSeek _ pos => seek_arg_ok pos
  | _ => True
  end.

Definition vfs_step v v' : Prop :=
  room v /\ exists op, vfs_op_ok op v /\ snd (run_vfs_op op v) = v'.

Lemma run_vfs_op_safe op :
  hoare (fun v => vfs_inv v /\ vfs_op_ok op v) (run_vfs_op op) vfs_wf.
Proof.
  assert (forall A (m : SR Vfs A) P, hoare P m vfs_wf -> hoare P (do! m in sret tt) vfs_wf) as Hunit.
  { intros A m P Hm. eapply hoare_bind; [exact Hm|intros; apply hoare_ret|done]. }
  destruct op; cbn [run_vfs_op vfs_op_ok].
  - eapply hoare_conseq; [by apply (add_file_safe path Directory)|by intros v [? _]|done].
  - eapply hoare_conseq; [by apply (add_file_safe path VirtualFile)|by intros v [? _]|done].
  - eapply hoare_conseq; [by apply (add_file_safe _ (DeviceFile desc))|by intros v [? _]|done].
  - eapply hoare_conseq; [apply mount_fs_safe|by intros v [[? _] _]|done].
  - eapply hoare_conseq; [apply chdir_safe|by intros v [[? _] _]|done].
  - apply Hunit. eapply hoare_conseq; [apply open_file_safe|by intros v [? _]|done].
  - apply Hunit. eapply hoare_conseq; [apply close_file_safe|by intros v [[? _] _]|done].
  - apply Hunit. apply hoare_runs. intros v [[Hwf _] Hm]. by apply (runs_hoare vfs_wf); [apply read_file_safe|].
  - apply Hunit. eapply hoare_conseq; [apply (write_file_safe n data)|by intros v [[? _] ?]|done].
  - apply Hunit. apply hoare_runs. intros v [[Hwf _] Hm]. by apply (runs_hoare vfs_wf); [apply seek_safe|].
  - apply Hunit. eapply hoare_conseq; [apply create_pipe_safe|by intros v [? _]|done].
Qed.

End Safety.

(** ** The state after [init] *)

Definition vfs_root : Vfs :=
  MkVfs (Some Path_root) (Some 0) {[ 0 := FileInfo_new Directory "/" 0 ]} [] 1 3.

Lemma vfs_root_wf : vfs_wf vfs_root.
Proof.
  split; cbn; [|by exists Path_root| |constructor|lia].
  - exists 0. split; [done|]. assert (Hl : forall id f, ({[ 0 := FileInfo_new Directory "/" 0 ]} : gmap Z FileInfo) !! id = Some f ->
      id = 0 /\ f = FileInfo_new Directory "/" 0) by (by intros id f [<- <-]%lookup_singleton_Some).
    split.
    + eexists. split; [apply lookup_singleton_eq|done].
    + intros id f [-> ->]%Hl. split; [lia|]. split; [done|]. split; [done|constructor].
    + by intros id f [-> ->]%Hl.
    + by intros id f c [-> ->]%Hl ?%not_elem_of_nil.
    + by intros id f c d g h [-> ->]%Hl ?%not_elem_of_nil.
    + by intros f [_ ->]%Hl.
  - split; [constructor|]. by intros fd ?%not_elem_of_nil.
Qed.

(** Creating a file takes at most one id. *)
Lemma add_file_next v path ty :
  vfs_wf v -> room v ->
  next_file_id (snd (add_file path ty v)) <= next_file_id v + 1
  /\ next_fd_num (snd (add_file path ty v)) = next_fd_num v.
Proof. intros Hwf Hroom. destruct (add_file_spec v path ty Hwf Hroom); cbn; lia. Qed.

Definition vfs_small (k : Z) v : Prop := vfs_wf v /\ next_file_id v <= k /\ next_fd_num v = 3.

Lemma mkdir_small k path : k < 2 ^ 64 - 1 -> hoare (vfs_small k) (mkdir path) (vfs_small (k + 1)).
Proof.
  intros Hk v (Hwf & Hn & Hfd). assert (room v) as Hroom by (split; lia).
  destruct (add_file_safe path Directory ltac:(done) v (conj Hwf Hroom)) as [Hwf' Hp].
  destruct (add_file_next v path Directory Hwf Hroom). split; [|done]. split; [done|]. unfold mkdir. lia.
Qed.

Lemma vfs_init_wf v : vfs_init Vfs_new = (Ok tt, v) -> vfs_wf v.
Proof.
  intros Hinit. assert (hoare (vfs_small 1) (do! mkdir (Path_join Path_root "mnt") in
    do! mkdir (Path_join (Path_join Path_root "mnt") "initramfs") in
    do! mkdir (Path_join Path_root "dev") in mkdir (Path_join Path_root "proc")) vfs_wf) as Hh.
  { assert (Hw : forall k v, vfs_small k v -> vfs_wf v) by (by intros k v0 [? _]).
    eapply hoare_bind; [apply mkdir_small; lia|intros _|apply Hw].
    eapply hoare_bind; [apply mkdir_small; lia|intros _|apply Hw].
    eapply hoare_bind; [apply mkdir_small; lia|intros _|apply Hw].
    apply (hoare_conseq _ (vfs_small 4) _ (vfs_small (4 + 1))); [apply mkdir_small; lia|done|apply Hw]. }
  destruct (Hh vfs_root) as [Hv _]; [split; [apply vfs_root_wf|done]|].
  change (vfs_init Vfs_new) with ((do! mkdir (Path_join Path_root "mnt") in
    do! mkdir (Path_join (Path_join Path_root "mnt") "initramfs") in
    do! mkdir (Path_join Path_root "dev") in mkdir (Path_join Path_root "proc")) vfs_root) in Hinit.
  by rewrite Hinit in Hv.
Qed.

Lemma vfs_init_ok : exists v, vfs_init Vfs_new = (Ok tt, v).
Proof. eexists. vm_compute. reflexivity. Qed.

End Vfs.
