(* ===== verification/VfsFiles.v ===== *)
(** * What the virtual file system promises ([kernel/src/fs/vfs.rs])

    Contracts of open files on top of [Vfs]: a descriptor of a regular file is a
    byte array with a position, a pipe is a byte stream with an end, the path of a
    file leads back to it; the properties of the component and their witnesses. *)
From Stdlib Require Import ZArith Lia.
From stdpp Require Import base gmap list strings pretty.
From S2P Require Import Prelude Path KError Vfs.

#[local] Open Scope string_scope.
#[local] Open Scope list_scope.
#[local] Open Scope Z_scope.

Section VfsFiles.
Context {FS Dev : Type} `{FileSystem FS}.

#[local] Notation Vfs := (@Vfs FS Dev).
#[local] Notation FileInfo := (@FileInfo FS Dev).

Implicit Types v : Vfs.
Implicit Types f : FileInfo.

(** ** Regular files: what a descriptor promises

    A descriptor of a regular file is a content and an offset. *)

Inductive file_op :=
| FRead (max_len : Z)
| FWrite (data : list Z)
| FSeek (pos : SeekFrom).

Inductive file_out :=
| OutBytes (bytes : list Z)
| OutDone
| OutPos (offset : Z).

Definition spec_target (c : list Z) (o : Z) (pos : SeekFrom) : Z :=
  match pos with
  | SeekStart d => d
  | SeekCurrent d => Z.min (o + d) (2 ^ 63 - 1)
  | SeekEnd d => Z.min (Z.of_nat (length c) + d) (2 ^ 63 - 1)
  end.

Definition spec_file (op : file_op) (st : list Z * Z) : Result file_out * (list Z * Z) :=
  let '(c, o) := st in
  match op with
  | FRead max_len =>
      let len := Z.of_nat (length c) in
      (Ok (OutBytes (take (Z.to_nat max_len) (drop (Z.to_nat o) c))), (c, Z.min (Z.min o len + max_len) len))
  | FWrite data => (Ok OutDone, (overwrite c (Z.to_nat o) data, o + Z.of_nat (length data)))
  | FSeek pos =>
      let t := spec_target c o pos in
      if t <? 0 then (Err (with_context InvalidData "seek target"), (c, o)) else (Ok (OutPos t), (c, t))
  end.

Definition run_file_op (n : FileDescriptorNumber) (op : file_op) : SR Vfs file_out :=
  match op with
  | FRead max_len =>
      let! r := vfs_read_file n max_len in
      match r with ReadData bytes => sret (OutBytes bytes) | ReadDevice _ _ => spanic end
  | FWrite data =>
      let! r := vfs_write_file n data in
      match r with WriteDone => sret OutDone | WriteDevice _ => spanic end
  | FSeek pos => let! t := vfs_seek n pos in sret (OutPos t)
  end.

Definition file_op_ok (op : file_op) (st : list Z * Z) : Prop :=
  match op with
  | FRead max_len => 0 <= max_len
  | FWrite data => snd st + Z.of_nat (length data) <= 2 ^ 63 - 1
  | FSeek pos => seek_arg_ok pos
  end.

Definition file_st_ok (st : list Z * Z) : Prop :=
  0 <= snd st < 2 ^ 63 /\ Z.of_nat (length (fst st)) < 2 ^ 63.

Definition file_view v (n : FileDescriptorNumber) (id : Z) (st : list Z * Z) : Prop :=
  exists i fd f, fd_find v n = Some (i, fd) /\ fd_backing fd = BackVfs id /\ fd_offset fd = snd st
    /\ find_file v id = Some f /\ file_ty f = VirtualFile /\ default [] (file_buf f) = fst st.

(** Nothing but the descriptor [n] and the file [id] changed. *)
Definition others_same v v' (n : FileDescriptorNumber) (id : Z) : Prop :=
  (forall n', n' <> n -> file_desc v' n' = file_desc v n')
  /\ (forall id', id' <> id -> find_file v' id' = find_file v id').

Lemma list_find_alter_ne g i (l : list FileDescriptor) n n' fd :
  list_find (fun fd => fd_num fd = n) l = Some (i, fd) -> (forall x, fd_num (g x) = fd_num x) -> n' <> n ->
  snd <$> list_find (fun fd => fd_num fd = n') (alter g i l)
  = snd <$> list_find (fun fd => fd_num fd = n') l.
Proof.
  intros Hf Hg Hne. revert i Hf. induction l as [|x l IH]; intros i; cbn; [done|].
  destruct (decide (fd_num x = n)) as [Hx|Hx].
  - intros [= <- <-]. cbn. rewrite Hg, !decide_False by congruence. done.
  - destruct (list_find _ l) as [[j y]|] eqn:Hl; [|done]. intros [= <- <-]. cbn.
    destruct (decide (fd_num x = n')); [done|]. specialize (IH j eq_refl). cbn in IH.
    destruct (list_find (fun fd => fd_num fd = n') (alter g j l)) as [[a1 b1]|],
      (list_find (fun fd => fd_num fd = n') l) as [[a2 b2]|]; cbn in *; congruence.
Qed.

Lemma others_same_refl v n id : others_same v v n id.
Proof. by split. Qed.

Lemma others_same_trans v1 v2 v3 n id :
  others_same v1 v2 n id -> others_same v2 v3 n id -> others_same v1 v3 n id.
Proof.
  intros [Ha Hb] [Hc Hd]. split.
  - intros n' Hn. by rewrite Hc, Ha.
  - intros id' Hid. by rewrite Hd, Hb.
Qed.

Lemma others_same_desc v n id i fd g :
  fd_find v n = Some (i, fd) -> (forall x, fd_num (g x) = fd_num x) ->
  others_same v (set_fds (alter g i (fds v)) v) n id.
Proof.
  intros Hf Hg. split; [|done]. intros n' Hne. unfold file_desc, fd_find in *. cbn.
  by rewrite (list_find_alter_ne g i (fds v) n n' fd).
Qed.

Lemma others_same_file v n id g : others_same v (set_files (alter g id (files v)) v) n id.
Proof. split; [done|]. intros id' Hne. unfold find_file. cbn. by rewrite lookup_alter_ne. Qed.

Lemma length_overwrite c o data :
  length (overwrite c o data) = Nat.max (length c) (o + length data).
Proof. unfold overwrite. rewrite !length_app, length_take, length_replicate, length_drop. lia. Qed.

Lemma spec_file_ok op st : file_st_ok st -> file_op_ok op st -> file_st_ok (snd (spec_file op st)).
Proof.
  destruct st as [c o]. unfold file_st_ok. cbn. intros [Ho Hc]. destruct op as [m|data|pos]; cbn.
  - lia.
  - intros Hw. rewrite length_overwrite. lia.
  - intros Hp. destruct (Z.ltb_spec (spec_target c o pos) 0); cbn; [lia|].
    split; [|done]. split; [done|]. destruct pos; cbn in *; lia.
Qed.

Definition simulates v n id (op : file_op) (st : list Z * Z) (run : Result file_out * Vfs) : Prop :=
  fst run = fst (spec_file op st) /\ file_view (snd run) n id (snd (spec_file op st))
  /\ others_same v (snd run) n id.

Section Simulation.
Context (v : Vfs) (n : FileDescriptorNumber) (id : Z) (c : list Z) (o : Z).
Context (Hv : file_view v n id (c, o)) (Hst : file_st_ok (c, o)).

Lemma read_sim max_len :
  0 <= max_len -> simulates v n id (FRead max_len) (c, o) (run_file_op n (FRead max_len) v).
Proof.
  intros Hm. destruct Hv as (i & fd & f & Hf & Hb & Ho & Hid & Hty & Hc). destruct Hst as [Hso Hsc]. cbn in *. subst c o.
  unfold simulates, run_file_op, vfs_read_file, file_desc, sbind, slift, sget. rewrite Hf. cbn -[read_window update_desc].
  rewrite Hb. unfold file_ref. rewrite Hid. cbn -[read_window update_desc]. rewrite Hty.
  rewrite (read_window_spec (default [] (file_buf f)) (fd_offset fd) max_len) by lia.
  rewrite (update_desc_run v n _ i fd Hf). cbn. split; [done|]. split; [|by eapply others_same_desc].
  exists i, (set_offset (Z.min (Z.min (fd_offset fd) (Z.of_nat (length (default [] (file_buf f)))) + max_len)
    (Z.of_nat (length (default [] (file_buf f))))) fd), f.
  split; [by apply fd_find_alter|done].
Qed.

Lemma write_sim data :
  o + Z.of_nat (length data) <= 2 ^ 63 - 1 ->
  simulates v n id (FWrite data) (c, o) (run_file_op n (FWrite data) v).
Proof.
  intros Hm. destruct Hv as (i & fd & f & Hf & Hb & Ho & Hid & Hty & Hc). destruct Hst as [Hso Hsc]. cbn in *. subst c o.
  assert (uadd (E := Error_) 64 (fd_offset fd) (Z.of_nat (length data))
          = Ok (fd_offset fd + Z.of_nat (length data))) as Hadd
    by (unfold uadd; destruct (Z.ltb_spec (fd_offset fd + Z.of_nat (length data)) (2 ^ 64)); [done|lia]).
  unfold simulates, run_file_op, vfs_write_file, file_desc, sbind, slift, sget. rewrite Hf. cbn -[write_window update_desc].
  rewrite Hb. unfold file_ref. rewrite Hid. cbn -[write_window update_desc]. rewrite Hty. cbn -[write_window update_desc].
  rewrite Hadd, write_window_spec by lia. cbn -[update_desc].
  set (v1 := set_files _ v). rewrite (update_desc_run v1 n _ i fd) by done. cbn. split; [done|]. split.
  - exists i, (set_offset (fd_offset fd + Z.of_nat (length data)) fd),
      (set_file_buf (Some (overwrite (default [] (file_buf f)) (Z.to_nat (fd_offset fd)) data)) f).
    split; [by apply (fd_find_alter v1)|]. do 2 (split; [done|]). split; [|done].
    unfold find_file, v1. cbn. rewrite lookup_alter_eq. unfold find_file in Hid. by rewrite Hid.
  - eapply others_same_trans; [apply others_same_file|]. by apply (others_same_desc v1 n id i fd).
Qed.

Lemma seek_sim pos :
  seek_arg_ok pos -> simulates v n id (FSeek pos) (c, o) (run_file_op n (FSeek pos) v).
Proof.
  intros Hpos. pose proof Hv as (i & fd & f & Hf & Hb & Ho & Hid & Hty & Hc). destruct Hst as [Hso Hsc]. cbn in Ho, Hc, Hso, Hsc.
  assert (vfs_file_size v n = Ok (Z.of_nat (length c))) as Hsize.
  { unfold vfs_file_size, file_desc. rewrite Hf. cbn. rewrite Hb. unfold file_ref. rewrite Hid. cbn. rewrite Hty.
    rewrite <- Hc. by destruct (file_buf f). }
  assert (forall x, 0 <= x < 2 ^ 63 -> as_i64 x = x) as Hi64
    by (intros x Hx; unfold as_i64; destruct (Z.ltb_spec x (2 ^ 63)); [done|lia]).
  assert (run_file_op n (FSeek pos) v
    = (if spec_target c o pos <? 0 then (Err (with_context InvalidData "seek target"), v)
       else (Ok (OutPos (spec_target c o pos)), set_fds (alter (set_offset (spec_target c o pos)) i (fds v)) v))) as ->.
  { assert (forall t, (let! x := (if t <? 0 then serr (with_context InvalidData "seek target")
       else do! update_desc n (set_offset t) in sret t) in sret (OutPos x)) v
       = (if t <? 0 then (Err (with_context InvalidData "seek target"), v)
          else (Ok (OutPos t), set_fds (alter (set_offset t) i (fds v)) v))) as Htail.
    { intros t. unfold sbind. destruct (t <? 0); [done|]. by rewrite (update_desc_run v n _ i fd Hf). }
    unfold run_file_op, vfs_seek. rewrite <- Htail. unfold sbind at 1 2. unfold sget.
    unfold file_desc. rewrite Hf. cbn -[update_desc vfs_file_size]. rewrite Ho, (Hi64 o) by done.
    destruct pos as [d|d|d]; cbn -[update_desc vfs_file_size] in *; [done|..].
    - unfold i64_saturating_add. replace (Z.max _ _) with (Z.min (o + d) (2 ^ 63 - 1)) by lia. done.
    - unfold sbind at 2 3. rewrite Hsize. cbn -[update_desc]. rewrite Hi64 by lia.
      unfold i64_saturating_add. replace (Z.max _ _) with (Z.min (Z.of_nat (length c) + d) (2 ^ 63 - 1)) by lia. done. }
  unfold simulates. cbn [spec_file]. destruct (spec_target c o pos <? 0); cbn.
  - split; [done|]. split; [done|apply others_same_refl].
  - split; [done|]. split; [|by eapply others_same_desc].
    exists i, (set_offset (spec_target c o pos) fd), f. split; [by apply fd_find_alter|done].
Qed.

End Simulation.

(** A sequence of operations, errors included. *)
Fixpoint run_file_ops (n : FileDescriptorNumber) (ops : list file_op) v : list (Result file_out) * Vfs :=
  match ops with
  | [] => ([], v)
  | op :: ops =>
      let '(r, v) := run_file_op n op v in
      let '(rs, v) := run_file_ops n ops v in (r :: rs, v)
  end.

Fixpoint spec_file_ops (ops : list file_op) (st : list Z * Z) : list (Result file_out) * (list Z * Z) :=
  match ops with
  | [] => ([], st)
  | op :: ops =>
      let '(r, st) := spec_file op st in
      let '(rs, st) := spec_file_ops ops st in (r :: rs, st)
  end.

Fixpoint file_ops_ok (ops : list file_op) (st : list Z * Z) : Prop :=
  match ops with
  | [] => True
  | op :: ops => file_op_ok op st /\ file_ops_ok ops (snd (spec_file op st))
  end.

Lemma run_file_op_sim v n id op st :
  file_view v n id st -> file_st_ok st -> file_op_ok op st -> simulates v n id op st (run_file_op n op v).
Proof.
  destruct st as [c o]. intros Hv Hst Hop. destruct op; [by apply read_sim|by apply write_sim|by apply seek_sim].
Qed.

Lemma run_file_ops_sim v n id ops st :
  file_view v n id st -> file_st_ok st -> file_ops_ok ops st ->
  fst (run_file_ops n ops v) = fst (spec_file_ops ops st)
  /\ file_view (snd (run_file_ops n ops v)) n id (snd (spec_file_ops ops st))
  /\ others_same v (snd (run_file_ops n ops v)) n id.
Proof.
  revert v st. induction ops as [|op ops IH]; intros v st Hv Hst; cbn; [by intros _; split; [|split]|].
  intros [Hop Hops]. destruct (run_file_op_sim v n id op st Hv Hst Hop) as (Hr & Hv1 & Ho1).
  destruct (IH _ _ Hv1 (spec_file_ok op st Hst Hop) Hops) as (Hr2 & Hv2 & Ho2).
  destruct (run_file_op n op v) as [r v1], (spec_file op st) as [r' st1]. cbn in *.
  destruct (run_file_ops n ops v1) as [rs v2], (spec_file_ops ops st1) as [rs' st2]. cbn in *.
  split; [congruence|]. split; [done|]. by eapply others_same_trans.
Qed.

(** ** Pipes: a byte stream with an end *)

Inductive pipe_op :=
| PWrite (data : list Z)
| PRead (max_len : Z)
| PClose.

Definition run_pipe_op (rd wr : FileDescriptorNumber) (op : pipe_op) : SR Vfs (list Z) :=
  match op with
  | PWrite data => do! vfs_write_file wr data in sret []
  | PRead max_len =>
      let! r := vfs_read_file rd max_len in
      match r with ReadData bytes => sret bytes | ReadDevice _ _ => spanic end
  | PClose => do! close_file wr in sret []
  end.

(** The bytes under way, and whether the write end is closed. *)
Definition spec_pipe (wr : FileDescriptorNumber) (op : pipe_op) (st : list Z * bool)
    : Result (list Z) * (list Z * bool) :=
  let '(buf, closed) := st in
  match op with
  | PWrite data =>
      if closed then (Err (vfs_err (ReleasedFileResource wr)), st) else (Ok [], (buf ++ data, false))
  | PRead max_len =>
      match buf with
      | [] => if closed then (Ok [], st) else (Err (error_into BufferEmpty), st)
      | _ => (Ok (take (Z.to_nat max_len) buf), (drop (Z.to_nat max_len) buf, closed))
      end
  | PClose => if closed then (Err (vfs_err (ReleasedFileResource wr)), st) else (Ok [], (buf, true))
  end.

Definition pipe_end_at v (n : FileDescriptorNumber) (id : Z) (e : PipeEnd) : Prop :=
  exists fd, fd ∈ fds v /\ fd_num fd = n /\ fd_backing fd = BackVfs id /\ fd_pipe_end fd = Some e.

Record pipe_view v (rd wr : FileDescriptorNumber) (id : Z) (st : list Z * bool) : Prop := {
  pv_nodup : NoDup (fd_num <$> fds v);
  pv_ne : rd <> wr;
  pv_file : exists f, find_file v id = Some f /\ file_ty f = Pipe
                      /\ file_pipe_buf f = Some (MkPipeBuffer (fst st) (snd st));
  pv_read : pipe_end_at v rd id PipeRead;
  pv_write : if snd st then wr ∉ fd_num <$> fds v else pipe_end_at v wr id PipeWrite;
  pv_only fd : fd ∈ fds v -> fd_backing fd = BackVfs id -> fd_num fd = rd \/ fd_num fd = wr
}.

Lemma fd_find_elem v fd :
  NoDup (fd_num <$> fds v) -> fd ∈ fds v -> exists i, fd_find v (fd_num fd) = Some (i, fd).
Proof.
  intros Hnd Hin. unfold fd_find. destruct (list_find_elem_of (fun x => fd_num x = fd_num fd) (fds v) fd Hin eq_refl)
    as [[i x] Hx]. rewrite Hx. apply list_find_Some in Hx as (Hi & Hn & _). exists i. do 2 f_equal.
  apply (NoDup_fmap_inj fd_num (fds v)); [done|by eapply list_elem_of_lookup_2|done|done].
Qed.

Lemma fd_find_absent v n : n ∉ fd_num <$> fds v -> fd_find v n = None.
Proof.
  intros Hn. apply list_find_None, Forall_forall. intros fd Hin <-. by apply Hn, list_elem_of_fmap_2.
Qed.

(** The pipe's buffer changes, the descriptors do not. *)
Lemma pipe_view_set v rd wr id st buf :
  pipe_view v rd wr id st ->
  pipe_view (set_files (alter (set_pipe_buf (Some (MkPipeBuffer buf (snd st)))) id (files v)) v) rd wr id (buf, snd st).
Proof.
  intros [H1 H2 (f & Hf & Hty & _) H4 H5 H6]. split; [done|done| |done|done|done].
  exists (set_pipe_buf (Some (MkPipeBuffer buf (snd st))) f). split; [|done].
  unfold find_file in *. cbn. by rewrite lookup_alter_eq, Hf.
Qed.

Lemma list_find_delete_ne i (l : list FileDescriptor) n n' fd :
  l !! i = Some fd -> fd_num fd = n -> n' <> n ->
  snd <$> list_find (fun fd => fd_num fd = n') (delete i l) = snd <$> list_find (fun fd => fd_num fd = n') l.
Proof.
  revert i. induction l as [|x l IH]; intros i; [done|]. destruct i as [|i]; cbn.
  - intros [= ->] Hn Hne. rewrite decide_False by congruence. by destruct (list_find _ l) as [[??]|].
  - intros Hi Hn Hne. destruct (decide (fd_num x = n')); [done|]. specialize (IH i Hi Hn Hne).
    destruct (list_find _ (delete i l)) as [[??]|], (list_find _ l) as [[??]|]; cbn in *; congruence.
Qed.

Lemma others_same_delete v n id i fd :
  fds v !! i = Some fd -> fd_num fd = n -> others_same v (set_fds (delete i (fds v)) v) n id.
Proof.
  intros Hi Hn. split; [|done]. intros n' Hne. unfold file_desc, fd_find. cbn.
  by rewrite (list_find_delete_ne i (fds v) n n' fd).
Qed.

Lemma pipe_close_sim v rd wr id buf :
  pipe_view v rd wr id (buf, false) ->
  exists v', close_file wr v = (Ok None, v') /\ pipe_view v' rd wr id (buf, true) /\ others_same v v' wr id.
Proof.
  intros [Hnd Hne (f & Hf & Hty & Hpb) (rfd & Hrin & Hrn & Hrb & Hre) (wfd & Hwin & Hwn & Hwb & Hwe) Honly]. cbn in *.
  destruct (fd_find_elem v wfd Hnd Hwin) as [i Hfind]. rewrite Hwn in Hfind.
  pose proof Hfind as (Hi & _ & _)%list_find_Some. pose proof (delete_Permutation _ _ _ Hi) as HP.
  set (v1 := set_fds (delete i (fds v)) v).
  assert (rfd ∈ fds v1) as Hr1.
  { rewrite HP in Hrin. apply elem_of_cons in Hrin as [->|?]; [congruence|done]. }
  assert (wr ∉ fd_num <$> fds v1) as Hw1.
  { rewrite HP, fmap_cons, NoDup_cons in Hnd. destruct Hnd as [Hnd _]. by rewrite Hwn in Hnd. }
  assert (Hin1 : forall fd, fd ∈ fds v1 -> fd ∈ fds v) by (intros fd Hin; rewrite HP; by right).
  assert (fds_of v1 id <> []) as Hne0.
  { intros Hnil. assert (rfd ∈ fds_of v1 id) as Hx by (by apply list_elem_of_filter). rewrite Hnil in Hx.
    by apply not_elem_of_nil in Hx. }
  assert (List.filter is_writer (fds_of v1 id) = []) as Hnw.
  { destruct (List.filter is_writer (fds_of v1 id)) as [|x l] eqn:Hl; [done|].
    assert (x ∈ List.filter is_writer (fds_of v1 id)) as Hx by (rewrite Hl; by left).
    apply list_elem_of_In, List.filter_In in Hx as [Hx Hwx]. apply list_elem_of_In, list_elem_of_filter in Hx as [Hxb Hxin].
    destruct (Honly x (Hin1 x Hxin) Hxb) as [Hxn|Hxn].
    - assert (x = rfd) as -> by (apply (NoDup_fmap_inj fd_num (fds v)); [done|auto|done|congruence]).
      unfold is_writer in Hwx. by rewrite Hre in Hwx.
    - exfalso. apply Hw1. rewrite <- Hxn. by apply list_elem_of_fmap_2. }
  eexists. split.
  - unfold close_file, sbind, slift, sget, smodify. rewrite Hfind. cbn -[release_pipe_end]. rewrite Hwb. fold v1.
    unfold release_pipe_end, sbind, sget. change (find_file v1 id) with (find_file v id). rewrite Hf. cbn -[fds_of List.filter].
    rewrite Hty, Hwe. cbn -[fds_of List.filter]. rewrite Hnw. destruct (Nat.eqb_spec (length (fds_of v1 id)) 0) as [H0|_];
      [by exfalso; apply Hne0, length_zero_iff_nil|]. cbn. reflexivity.
  - split; [|by apply (others_same_trans v v1); [apply (others_same_delete v wr id i wfd)|apply (others_same_file v1)]].
    split; cbn; [|done| |by exists rfd|done|].
    + rewrite HP in Hnd. by apply NoDup_cons in Hnd as [_ ?].
    + exists (set_pipe_buf (Some (MkPipeBuffer buf true)) f). split; [|done]. unfold find_file in *. cbn.
      rewrite lookup_alter_eq, Hf. cbn. by rewrite Hpb.
    + intros fd Hin Hb. by apply Honly; [apply Hin1|].
Qed.

Lemma run_pipe_op_sim v rd wr id op st :
  pipe_view v rd wr id st -> (match op with PRead m => 0 <= m | _ => True end) ->
  let '(r, v') := run_pipe_op rd wr op v in
  r = fst (spec_pipe wr op st) /\ pipe_view v' rd wr id (snd (spec_pipe wr op st)) /\ others_same v v' wr id.
Proof.
  destruct st as [buf closed]. intros Hv Hop. pose proof Hv as [Hnd Hne (f & Hf & Hty & Hpb) Hrd Hwr Honly]. cbn in Hpb, Hwr.
  destruct op as [data|max_len|]; cbn -[vfs_write_file vfs_read_file close_file]; unfold sbind.
  - unfold vfs_write_file, sbind, slift, sget, file_desc. destruct closed.
    + by rewrite (fd_find_absent v wr Hwr).
    + destruct Hwr as (wfd & Hwin & Hwn & Hwb & Hwe). destruct (fd_find_elem v wfd Hnd Hwin) as [i Hfind].
      rewrite Hwn in Hfind. rewrite Hfind. cbn. rewrite Hwb. unfold file_ref. rewrite Hf. cbn. rewrite Hty, Hpb. cbn.
      split; [done|]. split; [by apply (pipe_view_set v rd wr id (buf, false))|apply others_same_file].
  - destruct Hrd as (rfd & Hrin & Hrn & Hrb & Hre). destruct (fd_find_elem v rfd Hnd Hrin) as [i Hfind].
    rewrite Hrn in Hfind. unfold vfs_read_file, sbind, slift, sget, file_desc. rewrite Hfind. cbn. rewrite Hrb.
    unfold file_ref. rewrite Hf. cbn. rewrite Hty, Hpb. cbn. destruct buf as [|b buf]; [by destruct closed|].
    cbn [fst snd]. assert (forall l : list Z, take (Z.to_nat max_len `min` length l) l = take (Z.to_nat max_len) l
      /\ drop (Z.to_nat max_len `min` length l) l = drop (Z.to_nat max_len) l) as Hmin.
    { intros l. destruct (Nat.min_spec (Z.to_nat max_len) (length l)) as [[_ ->]|[? ->]]; [done|].
      by rewrite !take_ge, !drop_ge by lia. }
    destruct (Hmin (b :: buf)) as [Ht Hdr]. split; [by rewrite <- Ht|]. rewrite <- Hdr.
    split; [by apply (pipe_view_set v rd wr id (b :: buf, closed))|apply others_same_file].
  - destruct closed.
    + unfold close_file, sbind, slift, sget. by rewrite (fd_find_absent v wr Hwr).
    + destruct (pipe_close_sim v rd wr id buf Hv) as (v' & -> & Hv'). done.
Qed.

(** A sequence of operations on the two ends, errors included. *)
Fixpoint run_pipe_ops (rd wr : FileDescriptorNumber) (ops : list pipe_op) v : list (Result (list Z)) * Vfs :=
  match ops with
  | [] => ([], v)
  | op :: ops =>
      let '(r, v) := run_pipe_op rd wr op v in
      let '(rs, v) := run_pipe_ops rd wr ops v in (r :: rs, v)
  end.

Fixpoint spec_pipe_ops (wr : FileDescriptorNumber) (ops : list pipe_op) (st : list Z * bool)
    : list (Result (list Z)) * (list Z * bool) :=
  match ops with
  | [] => ([], st)
  | op :: ops =>
      let '(r, st) := spec_pipe wr op st in
      let '(rs, st) := spec_pipe_ops wr ops st in (r :: rs, st)
  end.

Definition pipe_op_ok (op : pipe_op) : Prop := match op with PRead m => 0 <= m | _ => True end.

Lemma run_pipe_ops_sim v rd wr id ops st :
  pipe_view v rd wr id st -> Forall pipe_op_ok ops ->
  fst (run_pipe_ops rd wr ops v) = fst (spec_pipe_ops wr ops st)
  /\ pipe_view (snd (run_pipe_ops rd wr ops v)) rd wr id (snd (spec_pipe_ops wr ops st))
  /\ others_same v (snd (run_pipe_ops rd wr ops v)) wr id.
Proof.
  revert v st. induction ops as [|op ops IH]; intros v st Hv; cbn; [by intros _; split; [|split]|].
  intros [Hop Hops]%Forall_cons. pose proof (run_pipe_op_sim v rd wr id op st Hv Hop) as Hsim.
  destruct (run_pipe_op rd wr op v) as [r v1], (spec_pipe wr op st) as [r' st1]. destruct Hsim as (Hr & Hv1 & Ho1).
  destruct (IH v1 st1 Hv1 Hops) as (Hr2 & Hv2 & Ho2).
  destruct (run_pipe_ops rd wr ops v1) as [rs v2], (spec_pipe_ops wr ops st1) as [rs' st2]. cbn in *.
  split; [congruence|]. split; [done|]. by eapply others_same_trans.
Qed.

(** The bytes that went in and the bytes that came out. *)
Fixpoint pipe_in (ops : list pipe_op) (rs : list (Result (list Z))) : list Z :=
  match ops, rs with
  | PWrite data :: ops, Ok _ :: rs => data ++ pipe_in ops rs
  | _ :: ops, _ :: rs => pipe_in ops rs
  | _, _ => []
  end.

Fixpoint pipe_out (ops : list pipe_op) (rs : list (Result (list Z))) : list Z :=
  match ops, rs with
  | PRead _ :: ops, Ok bytes :: rs => bytes ++ pipe_out ops rs
  | _ :: ops, _ :: rs => pipe_out ops rs
  | _, _ => []
  end.

Lemma spec_pipe_stream wr ops st :
  pipe_out ops (fst (spec_pipe_ops wr ops st)) ++ fst (snd (spec_pipe_ops wr ops st))
  = fst st ++ pipe_in ops (fst (spec_pipe_ops wr ops st)).
Proof.
  revert st. induction ops as [|op ops IH]; intros [buf closed]; cbn -[spec_pipe]; [by rewrite app_nil_r|].
  destruct (spec_pipe wr op (buf, closed)) as [r st1] eqn:Hop. specialize (IH st1).
  destruct (spec_pipe_ops wr ops st1) as [rs st2]. cbn [fst snd] in *.
  destruct op as [data|m|]; cbn in Hop.
  - destruct closed; injection Hop as <- <-; cbn in *; [exact IH|]. by rewrite IH, app_assoc.
  - destruct buf as [|b buf]; [by destruct closed; injection Hop as <- <-; cbn in *|]. injection Hop as <- <-. cbn [fst] in IH.
    by rewrite <- app_assoc, IH, app_assoc, take_drop.
  - by destruct closed; injection Hop as <- <-; cbn in *.
Qed.

(** Files and open descriptors of [v] are the same in [v']. *)
Definition kept v v' : Prop :=
  (forall id, is_Some (find_file v id) -> find_file v' id = find_file v id)
  /\ (forall n, is_Some (fd_find v n) -> file_desc v' n = file_desc v n).

Lemma kept_others v v1 v2 n id :
  kept v v1 -> others_same v1 v2 n id -> find_file v id = None -> n ∉ fd_num <$> fds v -> kept v v2.
Proof.
  intros [Ha Hb] [Hc Hd] Hid Hn. split.
  - intros id' Hs. rewrite Hd, Ha; [done|done|]. intros ->. rewrite Hid in Hs. by destruct Hs.
  - intros n' Hs. rewrite Hc, Hb; [done|done|]. intros ->. rewrite (fd_find_absent v n Hn) in Hs. by destruct Hs.
Qed.

Lemma kept_app v v' l :
  fds v' = fds v ++ l -> (forall id, is_Some (find_file v id) -> find_file v' id = find_file v id) -> kept v v'.
Proof.
  intros Hl Hf. split; [done|]. intros n [[i fd] Hfd]. unfold file_desc, fd_find in *.
  by rewrite Hl, (list_find_app_l _ _ _ _ _ Hfd), Hfd.
Qed.

Lemma fd_fresh v k : vfs_wf v -> next_fd_num v <= k -> MkFd k ∉ fd_num <$> fds v.
Proof.
  intros Hwf Hk (fd & Hn & Hin)%list_elem_of_fmap. destruct (fo_fd _ _ _ (vw_fds _ Hwf) fd Hin) as [Hlt _].
  rewrite <- Hn in Hlt. cbn in Hlt. lia.
Qed.

Lemma create_pipe_view v :
  vfs_wf v -> room v ->
  exists rd wr v', create_pipe v = (Ok (rd, wr), v') /\ pipe_view v' rd wr (next_file_id v) ([], false)
    /\ find_file v (next_file_id v) = None /\ (wr ∉ fd_num <$> fds v) /\ kept v v'.
Proof.
  intros Hwf Hroom. destruct (wf_root v Hwf) as (root & rf & Hr & Hrf & Ht). destruct Hroom as [Hr1 Hr2].
  pose proof (vw_next _ Hwf) as Hn. pose proof (fresh_file v root Ht) as Hfresh.
  destruct (create_pipe_safe v (conj Hwf (conj Hr1 Hr2))) as [Hwf' _]. pose proof (fo_nodup _ _ _ (vw_fds _ Hwf')) as Hnd.
  unfold create_pipe, sbind in Hnd |- *. cbn in Hnd |- *. rewrite Hr in Hnd |- *. cbn in Hnd |- *.
  assert (wrap 64 (next_fd_num v + 1) = next_fd_num v + 1) as Hw by (apply wrap_small, is_uint_spec; lia).
  rewrite Hw in Hnd |- *.
  do 3 eexists. split; [reflexivity|]. split; [|split; [done|split; [apply fd_fresh; [done|lia]|]]].
  - split; cbn; [done| | | | |].
    + intros [=]. lia.
    + eexists. split; [apply lookup_insert_eq|done].
    + eexists. split; [apply elem_of_app; left; apply elem_of_app; right; by left|done].
    + eexists. split; [apply elem_of_app; right; by left|done].
    + intros fd Hin Hb. rewrite !elem_of_app, !list_elem_of_singleton in Hin.
      destruct Hin as [[Hin| ->]| ->]; [exfalso|by left|by right].
      destruct (fo_fd _ _ _ (vw_fds _ Hwf) fd Hin) as [_ Hbk]. rewrite Hb in Hbk. destruct Hbk as (g & Hg & _). congruence.
  - eapply kept_app; [cbn; by rewrite <- app_assoc|]. intros id [g Hg]. unfold find_file in *. cbn.
    rewrite lookup_insert_ne; [done|]. intros <-. congruence.
Qed.

(** ** The path of a file *)

(** The files with an id up to [id]: what is left of the walk to the root. *)
Definition older v (id : Z) : gset Z := filter (fun k => k <= id) (dom (files v)).

Lemma older_step v id id' : is_Some (find_file v id) -> id' < id -> (size (older v id') < size (older v id))%nat.
Proof.
  intros Hid Hlt. apply subset_size. split.
  - intros k. unfold older. rewrite !elem_of_filter. intros [? ?]. split; [lia|done].
  - intros Hsub. assert (id ∈ older v id') as Hin by (apply Hsub, elem_of_filter; split; [lia|by apply elem_of_dom]).
    apply elem_of_filter in Hin as [? _]. lia.
Qed.

Lemma abs_path_total v root id s fuel :
  root_id v = Some root -> tree_files (files v) root (next_file_id v) -> is_Some (find_file v id) ->
  (size (older v id) < fuel)%nat -> is_Some (abs_path_loop fuel v id s).
Proof.
  intros Hr Ht. revert id s. induction fuel as [|fuel IH]; intros id s [f Hf] Hfuel; [lia|]. cbn. rewrite Hr.
  destruct (Z.eqb_spec id root) as [->|Hne]; [by eexists|]. rewrite Hf.
  destruct (tf_parent _ _ _ Ht id f Hf Hne) as (Hlt & g & Hg & _). apply IH; [by exists g|].
  pose proof (older_step v id (file_parent f) (ex_intro _ f Hf) Hlt). lia.
Qed.

Lemma older_size v id : (size (older v id) < S (size (files v)))%nat.
Proof.
  rewrite <- (size_dom (D := gset Z) (files v)). apply Nat.lt_succ_r, subseteq_size. intros k. unfold older. rewrite elem_of_filter. by intros [_ ?].
Qed.

Lemma concat_snoc2 sep l a b :
  String.concat sep (l ++ [a +:+ sep +:+ b]) = String.concat sep ((l ++ [a]) ++ [b]).
Proof.
  induction l as [|x l IH]; [done|]. cbn [app String.concat]. rewrite IH.
  destruct l; cbn; [done|]. done.
Qed.

Lemma abs_path_loop_at v root ns id s fuel r :
  root_id v = Some root -> tree_files (files v) root (next_file_id v) -> at_path v root ns id ->
  abs_path_loop fuel v id s = Some r -> r = str_join (String Path_SEPARATOR "") (ns ++ [s]).
Proof.
  intros Hr Ht Hat. revert s fuel. induction Hat as [|ns id f c g Hat IH Hf Hfs Hin Hg]; intros s fuel.
  - destruct fuel as [|fuel]; [done|]. cbn. rewrite Hr, Z.eqb_refl. by intros [= <-].
  - destruct (tf_children _ _ _ Ht id f c Hf Hin) as (Hne & h & Hh & Hp & _).
    unfold find_file in Hg. rewrite Hg in Hh. injection Hh as <-.
    destruct fuel as [|fuel]; [done|]. cbn. rewrite Hr. destruct (Z.eqb_spec c root); [done|].
    unfold find_file. rewrite Hg, Hp. intros Hrun. apply IH in Hrun as ->. unfold str_join.
    by rewrite <- concat_snoc2.
Qed.

Lemma denote_plain v path :
  cwd_ok (cwd_path v) ->
  Forall (fun s => plain_name s = true) (denote (cwd_names v) path)
  /\ Forall (fun s => no_sep s = true) (denote (cwd_names v) path).
Proof.
  intros Hc. destruct (absolutize_names v path Hc) as (p & Hp & <-).
  destruct (absolutize_ok v path p Hc Hp) as (q & [= <-] & Habs & <-). rewrite names_normalize. split.
  - apply canonical_abs. rewrite <- Habs at 1. apply normalize_parts_canonical.
  - apply normalize_parts_no_sep.
Qed.

Lemma names_of_join ns :
  Forall (fun s => plain_name s = true) ns -> Forall (fun s => no_sep s = true) ns ->
  Path_names (Path_normalize (Path_new (Path_ROOT +:+ str_join (String Path_SEPARATOR "") ns))) = ns.
Proof.
  intros Hpl Hns. rewrite (names_abs_denote _ []) by apply is_abs_root_app. unfold denote. rewrite is_abs_root_app.
  unfold Path_names. rewrite (names_join_parts _ ns); [|done|done|].
  - by rewrite walk_plain_names.
  - eapply Forall_impl; [exact Hpl|]. intros s (Hs & _)%plain_name_facts. by rewrite Hs.
Qed.

Lemma abs_path_resolves v path id f :
  vfs_wf v -> find_file_by_path v path = Some (ResVfs id f) ->
  exists p, abs_path_by_file v f = Some p /\ Path_is_abs p = true /\ Path_normalize p = p
    /\ find_file_by_path v p = Some (ResVfs id f).
Proof.
  intros Hwf Hres. destruct (wf_root v Hwf) as (root & rf & Hr & Hrf & Ht).
  assert (resolves v path id) as Hat by (by exists f). apply (resolves_at v root path id Hwf Hr) in Hat as (Hat & _).
  pose proof (find_file_by_path_found _ _ _ _ Hres) as Hf.
  set (ns := denote (cwd_names v) path) in *.
  destruct (denote_plain v path (vw_cwd _ Hwf)) as [Hpl Hsep]. fold ns in Hpl, Hsep.
  assert (exists s, abs_path_loop (S (size (files v))) v (file_parent f) (file_name f) = Some s
    /\ Path_normalize (Path_new (Path_ROOT +:+ s)) = Path_normalize (Path_new (Path_ROOT +:+ str_join (String Path_SEPARATOR "") ns)))
    as (s & Hs & Heq).
  { destruct (tf_root _ _ _ Ht) as (rf' & Hrf' & _ & Hrp). unfold find_file in Hrf. rewrite Hrf in Hrf'. injection Hrf' as <-.
    assert (is_Some (abs_path_loop (S (size (files v))) v (file_parent f) (file_name f))) as [s Hs].
    { apply (abs_path_total v root); [done|done| |apply older_size]. destruct (decide (id = root)) as [->|Hne].
      - assert (f = rf) as -> by (unfold find_file in Hf; congruence). rewrite Hrp. by exists rf.
      - destruct (tf_parent _ _ _ Ht id f Hf Hne) as (_ & g & Hg & _). by exists g. }
    exists s. split; [done|]. destruct (decide (id = root)) as [->|Hne].
    - assert (f = rf) as -> by (unfold find_file in Hf; congruence). rewrite Hrp in Hs.
      apply (abs_path_loop_at v root []) in Hs as ->; [|done|done|constructor].
      rewrite (at_path_unique v root Ht ns [] root Hat) by constructor. by rewrite (tf_slash _ _ _ Ht rf Hrf).
    - destruct (at_path_parent v root Ht ns id Hat Hne) as (ns' & g & Hns & Hg & Hat').
      assert (g = f) as -> by congruence. apply (abs_path_loop_at v root ns') in Hs as ->; [|done..]. by rewrite Hns. }
  assert (Hnames := names_of_join ns Hpl Hsep). rewrite <- Heq in Hnames.
  exists (Path_normalize (Path_new (Path_ROOT +:+ s))). unfold abs_path_by_file. rewrite Hs. split; [done|].
  assert (Path_is_abs (Path_normalize (Path_new (Path_ROOT +:+ s))) = true) as Habs
    by (rewrite is_abs_normalize; apply is_abs_root_app).
  split; [done|]. split; [apply normalize_idem|]. rewrite <- Hres. apply find_file_by_path_same; [done|].
  rewrite <- (names_abs_denote _ (cwd_names v)) by done. rewrite normalize_idem, Hnames. done.
Qed.

(** Opening a path that leads nowhere creates the file. *)
Lemma open_create_spec v path n dev v' :
  vfs_wf v -> room v -> find_file_by_path v path = None -> open_file path true v = (Ok (n, dev), v') ->
  dev = None /\ file_view v' n (next_file_id v) ([], 0)
  /\ forall q id, resolves v' q id <->
       resolves v q id \/ (id = next_file_id v /\ denote (cwd_names v) q = denote (cwd_names v) path).
Proof.
  intros Hwf Hroom Hp. unfold open_file, sbind at 1 2, sget. rewrite Hp. unfold sbind at 1.
  destruct (add_file path VirtualFile v) as [[[]|e|] v1] eqn:Hadd; [|done|done].
  destruct (create_resolves v path v1 Hwf Hroom Hp Hadd) as (Hwf1 & Hfd & Hres). cbn. rewrite Hres. cbn.
  unfold sbind. cbn. intros [= <- <- <-]. split; [done|]. apply find_file_by_path_found in Hres. split.
  - pose proof (fd_fresh v1 (next_fd_num v1) Hwf1 ltac:(lia)) as Hfresh%(fd_find_absent v1).
    eexists _, _, _. split; [|split; [|split; [|split; [exact Hres|done]]]].
    + unfold fd_find in *. cbn. rewrite list_find_app_r by done. cbn. rewrite decide_True by done. done.
    + done.
    + done.
  - intros q id. pose proof (add_file_spec v path VirtualFile Hwf Hroom) as Hcase. rewrite Hadd in Hcase.
    inversion Hcase as [| | | |pid pf Hpp Hd Hhas Hname Hv']. subst v1.
    assert (Path_names path <> []) as Hns.
    { intros Hns. rewrite <- (find_file_by_path_same v (Path_parent path) path) in Hp;
        [congruence|done|by apply parent_root_denote]. }
    rewrite <- (created_resolves v path VirtualFile pid pf Hwf (proj1 Hroom) ltac:(done) Hpp Hd Hhas Hname Hns q id).
    destruct (wf_root _ Hwf1) as (root & _ & Hr & _ & Ht). unfold resolves.
    set (v1 := added v _ _ _) in *. by rewrite (find_file_by_path_mono v1 _ root).
Qed.

(** ** Properties *)


(** opening a path that leads nowhere with the create flag makes a new
    empty file, open at offset 0 under the returned descriptor; afterwards exactly
    the paths with the same meaning as the given one lead to it, and every other
    path leads where it led before. *)
Theorem open_creates_file v path n dev v' :
  vfs_wf v -> room v -> find_file_by_path v path = None -> open_file path true v = (Ok (n, dev), v') ->
  dev = None /\ file_view v' n (next_file_id v) ([], 0)
  /\ forall q id, resolves v' q id <->
       resolves v q id \/ (id = next_file_id v /\ denote (cwd_names v) q = denote (cwd_names v) path).
Proof. apply open_create_spec. Qed.

(** C15: a descriptor of a regular file is a byte array with a position: any
    sequence of reads, writes and seeks whose writes end below 2^63 bytes ([file_ops_ok];
    one beyond panics, [seek_write_panics]) returns what the abstract file returns,
    errors included, ends with the abstract contents and position, and leaves every
    other file and descriptor as they were. *)
Theorem file_descriptor_refines v n id ops st :
  file_view v n id st -> file_st_ok st -> file_ops_ok ops st ->
  fst (run_file_ops n ops v) = fst (spec_file_ops ops st)
  /\ file_view (snd (run_file_ops n ops v)) n id (snd (spec_file_ops ops st))
  /\ others_same v (snd (run_file_ops n ops v)) n id.
Proof. apply run_file_ops_sim. Qed.

(** C16: a new pipe is a byte stream.  Under any sequence of writes, reads and
    closings of the write end, the results are those of the abstract pipe (a read
    of an empty pipe is told to retry while the write end is open and gets the end
    of the stream afterwards, a write after closing fails), the bytes read followed
    by the bytes still buffered are the bytes written, in order, and the files and
    descriptors that existed before are untouched. *)
Theorem pipe_is_stream v ops :
  vfs_wf v -> room v -> Forall pipe_op_ok ops ->
  exists rd wr v1, create_pipe v = (Ok (rd, wr), v1)
  /\ let '(rs, v2) := run_pipe_ops rd wr ops v1 in
     let '(rs', st) := spec_pipe_ops wr ops ([], false) in
     rs = rs' /\ pipe_view v2 rd wr (next_file_id v) st /\ pipe_out ops rs ++ fst st = pipe_in ops rs /\ kept v v2.
Proof.
  intros Hwf Hroom Hops. destruct (create_pipe_view v Hwf Hroom) as (rd & wr & v1 & Hrun & Hview & Hfile & Hnum & Hkept).
  exists rd, wr, v1. split; [done|]. pose proof (spec_pipe_stream wr ops ([], false)) as Hstream.
  destruct (run_pipe_ops_sim v1 rd wr _ ops _ Hview Hops) as (Hr & Hv & Ho).
  destruct (run_pipe_ops rd wr ops v1) as [rs v2], (spec_pipe_ops wr ops ([], false)) as [rs' st]. cbn in *. subst rs'.
  split; [done|]. split; [done|]. split; [done|]. by eapply kept_others.
Qed.

(** C17: the path that error messages give for a file exists for every file a
    path leads to (the walk to the root ends), is absolute and normalised, and
    leads back to that file. *)
Theorem abs_path_roundtrip v path id f :
  vfs_wf v -> find_file_by_path v path = Some (ResVfs id f) ->
  exists p, abs_path_by_file v f = Some p /\ Path_is_abs p = true /\ Path_normalize p = p
    /\ find_file_by_path v p = Some (ResVfs id f).
Proof. apply abs_path_resolves. Qed.

(** seeking is not bounded by the size of the file, and a write there
    resizes the buffer up to the offset: seeking a regular file to the largest
    offset and writing one byte panics. *)
Theorem seek_write_panics v n id c o b :
  file_view v n id (c, o) -> file_st_ok (c, o) ->
  fst (run_file_ops n [FSeek (SeekStart (2 ^ 63 - 1)); FWrite [b]] v) = [Ok (OutPos (2 ^ 63 - 1)); Panic].
Proof.
  intros Hv Hst. destruct (run_file_op_sim v n id (FSeek (SeekStart (2 ^ 63 - 1))) (c, o) Hv Hst ltac:(cbn; lia))
    as (Hr & (i & fd & f & Hf & Hb & Ho & Hid & Hty & Hc) & _).
  cbn [run_file_ops]. destruct (run_file_op n (FSeek (SeekStart (2 ^ 63 - 1))) v) as [r v1].
  cbn in Hr, Ho, Hc, Hf, Hid. change (2 ^ 63 - 1 <? 0) with false in Hr, Ho, Hc. cbn in Hr, Ho, Hc. subst r.
  assert (fst (run_file_op n (FWrite [b]) v1) = Panic) as Hw.
  { unfold run_file_op, vfs_write_file, file_desc, sbind, slift, sget. rewrite Hf. cbn -[write_window].
    rewrite Hb. unfold file_ref. rewrite Hid. cbn -[write_window]. rewrite Hty, Ho.
    change (uadd 64 (2 ^ 63 - 1) (Z.of_nat 1)) with (Ok (E := Error_) (2 ^ 63)). cbn -[write_window].
    unfold write_window. rewrite Hc. destruct Hst as [_ Hsc]. cbn [fst] in Hsc.
    match goal with |- context [Z.of_nat (length c) <? ?k] => destruct (Z.ltb_spec (Z.of_nat (length c)) k) end;
      [done|lia]. }
  destruct (run_file_op n (FWrite [b]) v1) as [r2 v2]. cbn in Hw. by subst r2.
Qed.

End VfsFiles.

(** ** Examples: a file system in memory without directories *)

Definition RamFs : Type := gmap string (list Z).

#[export] Instance RamFs_FileSystem : FileSystem RamFs := {
  fs_read_entry_names fs path := Ok ((fun p => p.1) <$> map_to_list fs);
  fs_read_file fs path offset max_len :=
    match fs !! path_str path with
    | Some c => Ok (take (Z.to_nat (Z.min max_len (Z.of_nat (length c)))) (drop (Z.to_nat offset) c))
    | None => Err (no_such (Some path))
    end;
  fs_write_file fs path offset data :=
    match fs !! path_str path with
    | Some c => (Ok tt, <[path_str path := overwrite c (Z.to_nat offset) data]> fs)
    | None => (Err (no_such (Some path)), fs)
    end;
  fs_metadata fs path :=
    match fs !! path_str path with
    | Some c => Ok (MkFsMetaData FsFile (Z.of_nat (length c)))
    | None => Err (no_such (Some path))
    end
}.

#[export] Instance RamFs_safe : FileSystemSafe RamFs.
Proof. split; intros fs path; intros; cbn; by destruct (fs !! path_str path). Qed.

Definition demo_fs : RamFs := {[ "/init" := [1; 2; 3] ]}.

Definition demo_init : @Vfs RamFs unit := Eval vm_compute in snd (vfs_init Vfs_new).
Definition demo_mounted : @Vfs RamFs unit :=
  Eval vm_compute in snd (run_vfs_op (OpMount (Path_new "/mnt/initramfs") demo_fs) demo_init).
Definition demo_open : @Vfs RamFs unit :=
  Eval vm_compute in snd (open_file (Path_new "/dev/../log") true demo_mounted).

Example demo_mounted_read :
  fst ((let! (n, _) := open_file (Path_new "/mnt/initramfs/init") false in
        vfs_read_file n 2) demo_mounted) = Ok (ReadData [1; 2]).
Proof. vm_compute. reflexivity. Qed.


Lemma vfs_demo_wf : vfs_wf demo_init /\ vfs_wf demo_mounted /\ vfs_wf demo_open.
Proof.
  assert (vfs_wf demo_init) as H0 by (apply vfs_init_wf; by vm_compute).
  destruct (mount_fs_safe (Path_new "/mnt/initramfs") demo_fs demo_init H0) as [H1 _].
  change (snd (mount_fs (Path_new "/mnt/initramfs") demo_fs demo_init)) with demo_mounted in H1.
  destruct (open_file_safe (Path_new "/dev/../log") true demo_mounted (conj H1 (conj eq_refl eq_refl))) as [H2 _].
  by change (snd (open_file (Path_new "/dev/../log") true demo_mounted)) with demo_open in H2.
Qed.


Lemma open_creates_file_witness : resolves demo_open (Path_new "/proc/../log") (next_file_id demo_mounted).
Proof.
  refine (proj2 (proj2 (proj2 (open_creates_file demo_mounted (Path_new "/dev/../log") (MkFd 3) None demo_open
    (proj1 (proj2 vfs_demo_wf)) (conj eq_refl eq_refl) _ _)) (Path_new "/proc/../log") (next_file_id demo_mounted)) _).
  - vm_compute. reflexivity.
  - vm_compute. reflexivity.
  - right. split; [reflexivity|]. vm_compute. reflexivity.
Defined.

Lemma demo_view : file_view demo_open (MkFd 3) 5 ([], 0).
Proof. eexists _, _, _. repeat split; vm_compute; reflexivity. Qed.

Lemma file_descriptor_refines_witness :
  fst (run_file_ops (MkFd 3) [FWrite [1; 2; 3; 4]; FSeek (SeekEnd (-3)); FRead 2; FSeek (SeekCurrent (-9))] demo_open)
  = [Ok OutDone; Ok (OutPos 1); Ok (OutBytes [2; 3]); Err (with_context InvalidData "seek target")].
Proof.
  refine (eq_trans (proj1 (file_descriptor_refines demo_open (MkFd 3) 5
    [FWrite [1; 2; 3; 4]; FSeek (SeekEnd (-3)); FRead 2; FSeek (SeekCurrent (-9))] ([], 0) demo_view _ _)) _).
  - split; cbn; lia.
  - cbn. unfold seek_arg_ok. repeat split; cbn; lia.
  - vm_compute. reflexivity.
Defined.

Lemma pipe_is_stream_witness :
  exists rd wr v1, create_pipe demo_mounted = (Ok (rd, wr), v1)
  /\ fst (run_pipe_ops rd wr [PRead 2; PWrite [7; 8; 9]; PRead 2; PClose; PRead 2; PRead 2] v1)
     = [Err (error_into BufferEmpty); Ok []; Ok [7; 8]; Ok []; Ok [9]; Ok []].
Proof.
  destruct (pipe_is_stream demo_mounted [PRead 2; PWrite [7; 8; 9]; PRead 2; PClose; PRead 2; PRead 2]
    (proj1 (proj2 vfs_demo_wf)) (conj eq_refl eq_refl)) as (rd & wr & v1 & Hc & Hrun).
  - repeat constructor; cbn; lia.
  - exists rd, wr, v1. split; [exact Hc|]. destruct (run_pipe_ops rd wr _ v1) as [rs v2]. exact (proj1 Hrun).
Defined.

Lemma abs_path_roundtrip_witness :
  exists f p, find_file_by_path demo_mounted (Path_new "/dev/../mnt/./x/..") = Some (ResVfs 1 f)
  /\ abs_path_by_file demo_mounted f = Some p /\ find_file_by_path demo_mounted p = Some (ResVfs 1 f).
Proof.
  assert (exists f, find_file_by_path demo_mounted (Path_new "/dev/../mnt/./x/..") = Some (ResVfs 1 f)) as [f Hf]
    by (eexists; vm_compute; reflexivity).
  destruct (abs_path_roundtrip demo_mounted (Path_new "/dev/../mnt/./x/..") 1 f (proj1 (proj2 vfs_demo_wf)) Hf)
    as (p & Hp & _ & _ & Hres).
  exists f, p. exact (conj Hf (conj Hp Hres)).
Defined.

Lemma seek_write_panics_witness :
  fst (run_file_ops (MkFd 3) [FSeek (SeekStart (2 ^ 63 - 1)); FWrite [65]] demo_open) = [Ok (OutPos (2 ^ 63 - 1)); Panic].
Proof.
  apply (seek_write_panics demo_open (MkFd 3) 5 [] 0 65 demo_view). split; cbn; lia.
Defined.
