(* ===== verification/Heap.v ===== *)
(** * The kernel heap ([kernel/src/mem/allocator.rs])

    The first-fit allocator over a linked list of holes.  The nodes of the list
    lie in the free memory itself: [nodes] maps an address to the [Hole] stored
    there, a write to an address destroys the nodes it overlaps, and a read where
    no node lies is undefined behaviour, modelled as a panic.  [HeapWorld] is the
    [Heap] with that memory.  Against it stands an abstract heap, a row of free
    and used segments that fills the heap area. *)
From Stdlib Require Import ZArith Lia.
From stdpp Require Import base gmap list.
From S2P Require Import Prelude KError.

#[local] Open Scope list_scope.
#[local] Open Scope Z_scope.

(** ** Data *)

Definition HEAP_SIZE : Z := 1024 * 1024 * 32.

(** [core::alloc::Layout] *)
Record Layout := MkLayout { layout_size : Z; layout_align : Z }.

Definition is_power_of_two (x : Z) : bool := (0 <? x) && (2 ^ Z.log2 x =? x).

(** [Layout::from_size_align]: the size, rounded up to the alignment, is at most
    [isize::MAX]. *)
Definition Layout_from_size_align (size align : Z) : option Layout :=
  if is_power_of_two align && (size <=? 2 ^ 63 - align) then Some (MkLayout size align) else None.

Record HoleInfo := MkHoleInfo { info_addr : Z; info_size : Z }.

Record Hole := MkHole { hole_size : Z; hole_next : option Z }.

(** [size_of::<Hole>()] and [align_of::<Hole>()] *)
Definition Hole_layout : Layout := MkLayout 16 8.

Record HoleList := MkHoleList { first : Hole; bottom : Z; top : Z }.

(** A pointer to a node: the one inside [HoleList] or one in the heap area. *)
Inductive HolePtr := PFirst | PNode (addr : Z).

Record Cursor := MkCursor { cur_prev : HolePtr; cur_hole : Z; cur_top : Z }.

Record Heap := MkHeap { used : Z; holes : HoleList }.

Record HeapWorld := MkHeapWorld { heap : Heap; nodes : gmap Z Hole }.

Implicit Types w : HeapWorld.

Definition alloc_err (e : AllocationError) : Error_ := error_into (EAllocation e).

Definition set_nodes (x : gmap Z Hole) w : HeapWorld := MkHeapWorld (heap w) x.
Definition set_first (x : Hole) w : HeapWorld :=
  MkHeapWorld (MkHeap (used (heap w)) (MkHoleList x (bottom (holes (heap w))) (top (holes (heap w))))) (nodes w).
Definition set_used (x : Z) w : HeapWorld := MkHeapWorld (MkHeap x (holes (heap w))) (nodes w).

(** ** Memory *)

Definition read_hole (p : HolePtr) : SR HeapWorld Hole := fun w =>
  match p with
  | PFirst => (Ok (first (holes (heap w))), w)
  | PNode a => match nodes w !! a with Some h => (Ok h, w) | None => (Panic, w) end
  end.

(** [ptr.write(hole)]: the nodes that overlap the 16 bytes are gone. *)
Definition write_hole (a : Z) (h : Hole) : SR HeapWorld unit :=
  smodify (fun w => set_nodes
    (<[a := h]> (filter (fun kv : Z * Hole => kv.1 + 16 <= a \/ a + 16 <= kv.1) (nodes w))) w).

(** A write to a field behind a pointer to a node. *)
Definition update_hole (p : HolePtr) (g : Hole -> Hole) : SR HeapWorld unit :=
  let! h := read_hole p in
  match p with
  | PFirst => smodify (set_first (g h))
  | PNode a => smodify (fun w => set_nodes (<[a := g h]> (nodes w)) w)
  end.

Definition with_next (n : option Z) (h : Hole) : Hole := MkHole (hole_size h) n.
Definition with_size (s : Z) (h : Hole) : Hole := MkHole s (hole_next h).

(** ** Alignment *)

(** [addr.align_offset(align)] panics unless the alignment is a power of two. *)
Definition align_up (addr align : Z) : Result Z :=
  if is_power_of_two align then Ok (wrapping_add 64 addr ((- addr) mod align)) else Panic.

Definition align_down_size (size align : Z) : Result Z :=
  if is_power_of_two align then Ok (Z.land size (unot 64 (align - 1)))
  else if align =? 0 then Ok size
  else Panic.

Definition align_up_size (size align : Z) : Result Z :=
  let? s := uadd 64 size align in
  let? s := usub 64 s 1 in
  align_down_size s align.

Definition min_size : Z := 8 * 2.

Definition align_layout (layout : Layout) : Result Layout :=
  let size := layout_size layout in
  let size := if size <? min_size then min_size else size in
  let? size := align_up_size size (layout_align Hole_layout) in
  ok_or (alloc_err (InvalidLayout (layout_size layout) (layout_align layout)))
        (Layout_from_size_align size (layout_align layout)).

(** ** The cursor *)

Definition HoleList_empty : HoleList := MkHoleList (MkHole 0 None) 0 0.

Definition HoleList_new (hole_addr hole_size : Z) : SR HeapWorld HoleList :=
  do! sassert (layout_size Hole_layout =? min_size) in
  do! sassert (layout_size Hole_layout <=? hole_size) in
  let! aligned_hole_addr := slift (align_up hole_addr (layout_align Hole_layout)) in
  let! offset := slift (usub 64 aligned_hole_addr hole_addr) in
  let! requested_hole_size := slift (usub 64 hole_size offset) in
  let! aligned_hole_size := slift (align_down_size requested_hole_size (layout_align Hole_layout)) in
  do! sassert (layout_size Hole_layout <=? aligned_hole_size) in
  do! write_hole aligned_hole_addr (MkHole aligned_hole_size None) in
  do! sassert (wrapping_add 64 hole_addr hole_size
               =? wrapping_add 64 aligned_hole_addr requested_hole_size) in
  sret (MkHoleList (MkHole 0 (Some aligned_hole_addr)) aligned_hole_addr
          (wrapping_add 64 aligned_hole_addr aligned_hole_size)).

Definition HoleList_cursor (l : HoleList) : option Cursor :=
  match hole_next (first l) with
  | Some hole => Some (MkCursor PFirst hole (top l))
  | None => None
  end.

Definition Cursor_next (c : Cursor) : SR HeapWorld (option Cursor) :=
  let! h := read_hole (PNode (cur_hole c)) in
  sret (match hole_next h with
        | Some hole => Some (MkCursor (PNode (cur_hole c)) hole (cur_top c))
        | None => None
        end).

(** The first part of [split_current]: where the block would lie in the hole,
    with the holes before and behind it. *)
Definition split_plan (hole_addr hole_size : Z) (layout : Layout)
    : Result (option (Z * Z * option HoleInfo * option HoleInfo)) :=
  let required_size := layout_size layout in
  let required_align := layout_align layout in
  if hole_size <? required_size then Ok None
  else
    let? up := align_up hole_addr required_align in
    let? (aligned_addr, front_padding) :=
      if hole_addr =? up then Ok (hole_addr, None)
      else
        let new_start := wrapping_add 64 hole_addr min_size in
        let? aligned_addr := align_up new_start required_align in
        let? size := usub 64 aligned_addr hole_addr in
        Ok (aligned_addr, Some (MkHoleInfo hole_addr size)) in
    let alloc_end := wrapping_add 64 aligned_addr required_size in
    let hole_end := wrapping_add 64 hole_addr hole_size in
    if hole_end <? alloc_end then Ok None
    else
      let? back_padding_size := usub 64 hole_end alloc_end in
      if back_padding_size =? 0 then Ok (Some (aligned_addr, required_size, front_padding, None))
      else
        let? back_padding_start := align_up alloc_end (layout_align Hole_layout) in
        let back_padding_end := wrapping_add 64 back_padding_start (layout_size Hole_layout) in
        if back_padding_end <=? hole_end
        then Ok (Some (aligned_addr, required_size, front_padding,
                       Some (MkHoleInfo back_padding_start back_padding_size)))
        else Ok None.

Definition split_current (c : Cursor) (layout : Layout) : SR HeapWorld (option (Z * Z)) :=
  let! current := read_hole (PNode (cur_hole c)) in
  let! plan := slift (split_plan (cur_hole c) (hole_size current) layout) in
  match plan with
  | None => sret None
  | Some (alloc_ptr, alloc_size, front_padding, back_padding) =>
      do! update_hole (cur_prev c) (with_next None) in
      let! h := read_hole (PNode (cur_hole c)) in
      let maybe_next_addr := hole_next h in
      do! update_hole (PNode (cur_hole c)) (with_next None) in
      do! match front_padding, back_padding with
          | None, None => update_hole (cur_prev c) (with_next maybe_next_addr)
          | None, Some singlepad | Some singlepad, None =>
              do! write_hole (info_addr singlepad) (MkHole (info_size singlepad) maybe_next_addr) in
              update_hole (cur_prev c) (with_next (Some (info_addr singlepad)))
          | Some frontpad, Some backpad =>
              do! write_hole (info_addr backpad) (MkHole (info_size backpad) maybe_next_addr) in
              do! write_hole (info_addr frontpad)
                    (MkHole (info_size frontpad) (Some (info_addr backpad))) in
              update_hole (cur_prev c) (with_next (Some (info_addr frontpad)))
          end in
      sret (Some (alloc_ptr, alloc_size))
  end.

(** The loop of [HoleList::alloc_first_fit] over the cursors; the fuel bounds the
    number of holes. *)
Fixpoint alloc_loop (fuel : nat) (c : Cursor) (layout : Layout) : SR HeapWorld Z :=
  match fuel with
  | O => spanic
  | S fuel =>
      let! r := split_current c layout in
      match r with
      | Some (ptr, _) => if ptr =? 0 then serr (alloc_err NullCursor) else sret ptr
      | None =>
          let! next := Cursor_next c in
          match next with
          | Some c => alloc_loop fuel c layout
          | None => serr (alloc_err NoNextCursor)
          end
      end
  end.

Definition HoleList_alloc_first_fit (layout : Layout) : SR HeapWorld (Z * Layout) :=
  let! aligned_layout := slift (align_layout layout) in
  let! w := sget in
  let! cursor := slift (ok_or (alloc_err NoCursor) (HoleList_cursor (holes (heap w)))) in
  let! ptr := alloc_loop (S (size (nodes w))) cursor aligned_layout in
  sret (ptr, aligned_layout).

(** ** Giving memory back *)

Definition make_hole (addr size : Z) : SR HeapWorld Z :=
  do! write_hole addr (MkHole size None) in
  sret addr.

Definition check_merge_top (node top : Z) : SR HeapWorld unit :=
  let! h := read_hole (PNode node) in
  let stop := wrapping_add 64 node (hole_size h) in
  if stop <? top then
    let! up := slift (align_up stop (layout_align Hole_layout)) in
    if top <? wrapping_add 64 up (layout_size Hole_layout) then
      let! offset := slift (usub 64 top stop) in
      let! s := slift (uadd 64 (hole_size h) offset) in
      update_hole (PNode node) (with_size s)
    else sret tt
  else sret tt.

Definition check_merge_bottom (node bottom : Z) : SR HeapWorld Z :=
  if node <? wrapping_add 64 bottom (layout_size Hole_layout) then
    let! offset := slift (usub 64 node bottom) in
    let! h := read_hole (PNode node) in
    let! size := slift (uadd 64 (hole_size h) offset) in
    make_hole bottom size
  else sret node.

(** [Ok] with the new cursor, or the cursor itself. *)
Definition try_insert_back (c : Cursor) (node bottom : Z) : SR HeapWorld (Cursor + Cursor) :=
  if node <? cur_hole c then
    let! h := read_hole (PNode node) in
    do! sassert (wrapping_add 64 node (hole_size h) <=? cur_hole c) in
    let! p := read_hole (cur_prev c) in
    do! sassert (hole_size p =? 0) in
    let! node := check_merge_bottom node bottom in
    do! update_hole (cur_prev c) (with_next (Some node)) in
    do! update_hole (PNode node) (with_next (Some (cur_hole c))) in
    sret (inl (MkCursor (cur_prev c) node (cur_top c)))
  else sret (inr c).

Definition try_insert_after (c : Cursor) (node : Z) : SR HeapWorld unit :=
  let! n := read_hole (PNode node) in
  let! current := read_hole (PNode (cur_hole c)) in
  do! match hole_next current with
      | Some next =>
          if node <? next then sassert (wrapping_add 64 node (hole_size n) <=? next)
          else serr (alloc_err InvalidNode)
      | None => sret tt
      end in
  do! sassert (cur_hole c <? node) in
  do! sassert (wrapping_add 64 (cur_hole c) (hole_size current) <=? node) in
  do! update_hole (PNode (cur_hole c)) (with_next (Some node)) in
  update_hole (PNode node) (with_next (hole_next current)).

Fixpoint merge_loop (max : nat) (hole top : Z) : SR HeapWorld unit :=
  match max with
  | O => sret tt
  | S max =>
      let! h := read_hole (PNode hole) in
      match hole_next h with
      | None => check_merge_top hole top
      | Some next =>
          if wrapping_add 64 hole (hole_size h) =? next then
            let! n := read_hole (PNode next) in
            do! update_hole (PNode next) (with_next None) in
            do! update_hole (PNode hole) (with_next (hole_next n)) in
            let! h := read_hole (PNode hole) in
            let! s := slift (uadd 64 (hole_size h) (hole_size n)) in
            do! update_hole (PNode hole) (with_size s) in
            merge_loop max hole top
          else merge_loop max next top
      end
  end.

Definition try_merge_next_n (c : Cursor) (max : nat) : SR HeapWorld unit :=
  merge_loop max (cur_hole c) (cur_top c).

(** [while let Err(_) = cursor.try_insert_after(hole)]; a panic is no [Err]. *)
Fixpoint insert_loop (fuel : nat) (c : Cursor) (node : Z) : SR HeapWorld Cursor :=
  match fuel with
  | O => spanic
  | S fuel => fun w =>
      match try_insert_after c node w with
      | (Ok _, w) => (Ok c, w)
      | (Panic, w) => (Panic, w)
      | (Err _, w) =>
          (let! next := Cursor_next c in
           match next with
           | Some c => insert_loop fuel c node
           | None => serr (alloc_err NoNextCursor)
           end) w
      end
  end.

(** The function [dealloc]. *)
Definition list_dealloc (addr size : Z) : SR HeapWorld unit :=
  let! hole := make_hole addr size in
  let! w := sget in
  let list := holes (heap w) in
  match HoleList_cursor list with
  | None =>
      let! hole := check_merge_bottom hole (bottom list) in
      do! check_merge_top hole (top list) in
      update_hole PFirst (with_next (Some hole))
  | Some cursor =>
      let! r := try_insert_back cursor hole (bottom list) in
      let! (cursor, n) :=
        match r with
        | inl cursor => sret (cursor, 1%nat)
        | inr cursor =>
            let! cursor := insert_loop (S (base.size (nodes w))) cursor hole in
            sret (cursor, 2%nat)
        end in
      try_merge_next_n cursor n
  end.

Definition HoleList_dealloc (ptr : Z) (layout : Layout) : SR HeapWorld Layout :=
  let! aligned_layout := slift (align_layout layout) in
  do! list_dealloc ptr (layout_size aligned_layout) in
  sret aligned_layout.

(** ** The heap and the global allocator *)

Definition Heap_empty : Heap := MkHeap 0 HoleList_empty.

Definition Heap_init (heap_bottom heap_size : Z) : SR HeapWorld unit :=
  let! l := HoleList_new heap_bottom heap_size in
  smodify (fun w => MkHeapWorld (MkHeap 0 l) (nodes w)).

Definition Heap_alloc_first_fit (layout : Layout) : SR HeapWorld Z :=
  let! (ptr, aligned_layout) := HoleList_alloc_first_fit layout in
  let! w := sget in
  let! u := slift (uadd 64 (used (heap w)) (layout_size aligned_layout)) in
  do! smodify (set_used u) in
  sret ptr.

Definition Heap_dealloc (ptr : Z) (layout : Layout) : SR HeapWorld unit :=
  let! aligned_layout := HoleList_dealloc ptr layout in
  let! w := sget in
  let! u := slift (usub 64 (used (heap w)) (layout_size aligned_layout)) in
  smodify (set_used u).

(** [.unwrap()] of a result. *)
Definition sunwrap {A} (m : SR HeapWorld A) : SR HeapWorld A := fun w =>
  match m w with (Err _, w) => (Panic, w) | r => r end.

Definition global_alloc (layout : Layout) : SR HeapWorld Z := sunwrap (Heap_alloc_first_fit layout).
Definition global_dealloc (ptr : Z) (layout : Layout) : SR HeapWorld unit :=
  sunwrap (Heap_dealloc ptr layout).

Definition heap_size w : Z * Z := (used (heap w), HEAP_SIZE).
