(* ===== verification/HeapSegs.v ===== *)
(** * The abstract kernel heap

    The contract of [kernel/src/mem/allocator.rs]: the heap area is a row of free
    and used segments; allocation takes the first free segment with room,
    deallocation frees a segment and joins it with its free neighbours.  Lemmas on
    rows of segments and on alignment. *)
From Stdlib Require Import ZArith Lia.
From stdpp Require Import base gmap list.
From S2P Require Import Prelude KError Heap.

#[local] Open Scope list_scope.
#[local] Open Scope Z_scope.

(** ** The abstract heap: a row of segments *)

Inductive seg := Free (s : Z) | Used (s : Z).

Definition seg_size (x : seg) : Z := match x with Free s | Used s => s end.

Fixpoint total (l : list seg) : Z :=
  match l with [] => 0 | x :: l => seg_size x + total l end.

Fixpoint used_total (l : list seg) : Z :=
  match l with
  | [] => 0
  | Used s :: l => s + used_total l
  | Free _ :: l => used_total l
  end.

(** The free and the used segments with their addresses. *)
Fixpoint free_holes (pos : Z) (l : list seg) : list (Z * Z) :=
  match l with
  | [] => []
  | Free s :: l => (pos, s) :: free_holes (pos + s) l
  | Used s :: l => free_holes (pos + s) l
  end.

Fixpoint used_blocks (pos : Z) (l : list seg) : list (Z * Z) :=
  match l with
  | [] => []
  | Free s :: l => used_blocks (pos + s) l
  | Used s :: l => (pos, s) :: used_blocks (pos + s) l
  end.

Definition seg_ok (x : seg) : Prop := 16 <= seg_size x /\ seg_size x mod 8 = 0.

(** No two free segments touch. *)
Fixpoint coalesced (l : list seg) : Prop :=
  match l with
  | Free _ :: ((Free _ :: _) as r) => False
  | _ :: r => coalesced r
  | [] => True
  end.

Fixpoint coalesce (l : list seg) : list seg :=
  match l with
  | [] => []
  | Used s :: r => Used s :: coalesce r
  | Free s :: r => match coalesce r with
                   | Free t :: r' => Free (s + t) :: r'
                   | r' => Free s :: r'
                   end
  end.

(** Where a block of [n] bytes lies in a free segment: the sizes of what is left
    before and behind it.  Less than a node cannot be left over. *)
Definition round_up (x al : Z) : Z := x + (- x) mod al.

Definition seg_plan (pos s : Z) (layout : Layout) : option (Z * Z) :=
  let n := layout_size layout in
  let al := layout_align layout in
  let p := if pos mod al =? 0 then pos else round_up (pos + 16) al in
  let back := pos + s - (p + n) in
  if (back =? 0) || (16 <=? back) then Some (p - pos, back) else None.

Definition pieces (f n b : Z) : list seg :=
  (if f =? 0 then [] else [Free f]) ++ [Used n] ++ (if b =? 0 then [] else [Free b]).

(** The first free segment with room. *)
Fixpoint spec_alloc (pos : Z) (l : list seg) (layout : Layout) : option (Z * list seg) :=
  match l with
  | [] => None
  | x :: r =>
      match match x with Free s => seg_plan pos s layout | Used _ => None end with
      | Some (f, b) => Some (pos + f, pieces f (layout_size layout) b ++ r)
      | None => match spec_alloc (pos + seg_size x) r layout with
                | Some (p, r') => Some (p, x :: r')
                | None => None
                end
      end
  end.

Fixpoint mark_free (pos p : Z) (l : list seg) : list seg :=
  match l with
  | [] => []
  | x :: r => if pos =? p then Free (seg_size x) :: r else x :: mark_free (pos + seg_size x) p r
  end.

Definition spec_dealloc (pos p : Z) (l : list seg) : list seg := coalesce (mark_free pos p l).

(** ** Lemmas on segments *)

Lemma total_app l1 l2 : total (l1 ++ l2) = total l1 + total l2.
Proof. induction l1 as [|x l1 IH]; cbn; [done|]. lia. Qed.

Lemma used_total_app l1 l2 : used_total (l1 ++ l2) = used_total l1 + used_total l2.
Proof. induction l1 as [|[s|s] l1 IH]; cbn; lia. Qed.

Lemma free_holes_app pos l1 l2 :
  free_holes pos (l1 ++ l2) = free_holes pos l1 ++ free_holes (pos + total l1) l2.
Proof.
  revert pos. induction l1 as [|[s|s] l1 IH]; intros pos; cbn; [f_equal; lia| |]; rewrite IH, Z.add_assoc; done.
Qed.

Lemma total_nonneg l : Forall seg_ok l -> 0 <= total l.
Proof. induction 1 as [|x l [Hx _] Hl IH]; cbn; lia. Qed.

Lemma total_mod l : Forall seg_ok l -> total l mod 8 = 0.
Proof.
  induction 1 as [|x l [_ Hx] Hl IH]; cbn; [done|]. by rewrite Z.add_mod, Hx, IH by lia.
Qed.

(** Holes in address order, each with room for a node. *)
Fixpoint sorted_holes (lo hi : Z) (l : list (Z * Z)) : Prop :=
  match l with
  | [] => lo <= hi
  | (a, s) :: l => lo <= a /\ 16 <= s /\ sorted_holes (a + s) hi l
  end.

Lemma sorted_holes_weaken lo lo' hi l : lo' <= lo -> sorted_holes lo hi l -> sorted_holes lo' hi l.
Proof. destruct l as [|[a s] l]; cbn; [lia|]. intros ? (? & ? & ?). split; [lia|done]. Qed.

Lemma sorted_holes_le lo hi l : sorted_holes lo hi l -> lo <= hi.
Proof. revert lo. induction l as [|[a s] l IH]; intros lo; cbn; [done|]. intros (? & ? & H%IH). lia. Qed.

Lemma sorted_holes_elem lo hi l a s : sorted_holes lo hi l -> (a, s) ∈ l -> lo <= a /\ a + 16 <= hi.
Proof.
  revert lo. induction l as [|[b t] l IH]; intros lo; [by intros _ ?%not_elem_of_nil|].
  cbn. intros (Hb & Ht & Hl) [[= -> ->]|Hin]%elem_of_cons.
  - apply sorted_holes_le in Hl. lia.
  - apply (IH _ Hl) in Hin. lia.
Qed.

Lemma free_holes_sorted pos l : Forall seg_ok l -> sorted_holes pos (pos + total l) (free_holes pos l).
Proof.
  intros Hl. revert pos. induction Hl as [|[s|s] l [Hx _] Hl IH]; intros pos; cbn in *; [lia| |].
  - split; [lia|]. split; [done|]. rewrite Z.add_assoc. apply IH.
  - rewrite Z.add_assoc. eapply sorted_holes_weaken; [|apply IH]. lia.
Qed.

Lemma sorted_NoDup lo hi l : sorted_holes lo hi l -> NoDup (fst <$> l).
Proof.
  revert lo. induction l as [|[a s] l IH]; intros lo; cbn; [constructor|]. intros (? & ? & Hl).
  constructor; [|by eapply IH]. intros ((b & t) & -> & Hin)%list_elem_of_fmap.
  apply (sorted_holes_elem _ _ _ _ _ Hl) in Hin. cbn in *. lia.
Qed.

Definition ends_used (l : list seg) : Prop :=
  match last l with Some (Free _) => False | _ => True end.

Definition starts_used (l : list seg) : Prop :=
  match l with Free _ :: _ => False | _ => True end.

Lemma coalesce_id l : coalesced l -> coalesce l = l.
Proof.
  induction l as [|[s|s] l IH]; [done| |].
  - intros Hc. assert (coalesce l = l) as Hl.
    { apply IH. cbn in Hc. by destruct l as [|[t|t] l]. }
    cbn. rewrite Hl. by destruct l as [|[t|t] l].
  - cbn. intros Hc. by rewrite IH.
Qed.

Lemma coalesce_app_used l X : ends_used l -> coalesced l -> coalesce (l ++ X) = l ++ coalesce X.
Proof.
  induction l as [|x l IH]; [done|]. intros He Hc.
  assert (coalesced l) as Hc' by (destruct x; [destruct l as [|[t|t] l]; cbn in *; done|done]).
  destruct (decide (l = [])) as [->|Hne]; [destruct x as [s|s]; [by destruct He|done]|].
  assert (ends_used l) as He' by (unfold ends_used in *; destruct l; [done|]; exact He).
  specialize (IH He' Hc'). destruct x as [s|s]; cbn; rewrite IH; [|done].
  destruct l as [|[t|t] l]; [done|destruct Hc|done].
Qed.

Lemma coalesced_app_inv l1 l2 : coalesced (l1 ++ l2) -> coalesced l1 /\ coalesced l2.
Proof.
  induction l1 as [|x l1 IH]; [done|]. cbn [app]. intros Hc.
  assert (coalesced (l1 ++ l2)) as Hc'. { destruct x; [|done]. by destruct (l1 ++ l2) as [|[t|t] r]; cbn in *. }
  destruct (IH Hc') as [H1 H2]. split; [|done]. destruct x as [s|s]; [|done].
  destruct l1 as [|[t|t] l1]; [done| |done]. destruct Hc.
Qed.

Lemma coalesced_join l1 l2 : coalesced l1 -> coalesced l2 -> ends_used l1 \/ starts_used l2 -> coalesced (l1 ++ l2).
Proof.
  induction l1 as [|x l1 IH]; [done|]. intros Hc1 Hc2 He.
  assert (coalesced l1) as Hc' by (destruct x; [destruct l1 as [|[t|t] l]; cbn in *; done|done]).
  assert (ends_used l1 \/ starts_used l2) as He'.
  { destruct He as [He|?]; [left|by right]. unfold ends_used in *. by destruct l1. }
  specialize (IH Hc' Hc2 He'). destruct x as [s|s]; [|done]. cbn [app].
  destruct l1 as [|[t|t] l1]; [|destruct Hc1|exact IH].
  destruct l2 as [|[t|t] l2]; [done| |exact IH]. by destruct He as [He|He].
Qed.

(** The free neighbours of a used segment. *)
Lemma split_tail l : coalesced l -> exists a t, ends_used a /\ coalesced a
  /\ ((l = a /\ t = 0) \/ l = a ++ [Free t]).
Proof.
  intros Hc. destruct l as [|x l _] using rev_ind; [exists [], 0; auto|].
  destruct (coalesced_app_inv _ _ Hc) as [Hc1 _]. destruct x as [s|s].
  - exists l, s. split; [|auto]. unfold ends_used. destruct l as [|y l _] using rev_ind; [done|].
    rewrite last_snoc. destruct y as [t|]; [|done]. rewrite <- app_assoc in Hc.
    by apply coalesced_app_inv in Hc as [_ []].
  - exists (l ++ [Used s]), 0. unfold ends_used. rewrite last_snoc. auto.
Qed.

Lemma split_head l : coalesced l -> exists u b, starts_used b /\ coalesced b
  /\ ((l = b /\ u = 0) \/ l = Free u :: b).
Proof.
  intros Hc. destruct l as [|[s|s] l]; [exists 0, []; auto| |exists 0, (Used s :: l); split; [done|]; auto].
  exists s, l. destruct l as [|[t|t] l]; [by auto|destruct Hc|]. split; [done|]. split; [done|by right].
Qed.
