(* ===== verification/HeapList.v ===== *)
(** * The list of holes of the kernel heap ([kernel/src/mem/allocator.rs])

    The nodes in memory form the list of the free segments; splitting a hole,
    the search, inserting a node and merging it with its neighbours are the
    operations of the abstract heap ([HeapSegs]) on that list. *)
From Stdlib Require Import ZArith Lia.
From stdpp Require Import base gmap list.
From S2P Require Import Prelude KError Heap HeapSegs.

#[local] Open Scope list_scope.
#[local] Open Scope Z_scope.

Implicit Types w : HeapWorld.

(** ** The list of holes in memory *)

(** From [n], the nodes of [l] follow each other and end at [e]. *)
Fixpoint lseg (m : gmap Z Hole) (n : option Z) (l : list (Z * Z)) (e : option Z) : Prop :=
  match l with
  | [] => n = e
  | (a, s) :: l => n = Some a /\ exists nx, m !! a = Some (MkHole s nx) /\ lseg m nx l e
  end.

Lemma lseg_app m n l1 l2 e : lseg m n (l1 ++ l2) e <-> exists x, lseg m n l1 x /\ lseg m x l2 e.
Proof.
  revert n. induction l1 as [|[a s] l1 IH]; intros n; cbn.
  - split; [by intros ?; exists n|by intros (x & -> & ?)].
  - setoid_rewrite IH. split.
    + intros (-> & nx & Ha & x & H1 & H2). exists x. eauto.
    + intros (x & (-> & nx & Ha & H1) & H2). eauto 6.
Qed.

Lemma lseg_frame m m' n l e :
  (forall a s, (a, s) ∈ l -> m' !! a = m !! a) -> lseg m n l e -> lseg m' n l e.
Proof.
  revert n. induction l as [|[a s] l IH]; intros n Hm; cbn; [done|]. intros (-> & nx & Ha & Hl). split; [done|].
  exists nx. rewrite (Hm a s) by (by left). split; [done|]. apply IH; [|done]. intros b t Hin. apply (Hm b t). by right.
Qed.

Definition list_at w (l : list (Z * Z)) (e : option Z) : Prop :=
  lseg (nodes w) (hole_next (first (holes (heap w)))) l e.

Definition last_ptr (l : list (Z * Z)) : HolePtr :=
  match last l with Some (a, _) => PNode a | None => PFirst end.

(** The state after [p.next = n]. *)
Definition upd_next w (p : HolePtr) (n : option Z) : HeapWorld :=
  match p with
  | PFirst => set_first (with_next n (first (holes (heap w)))) w
  | PNode a => set_nodes (alter (with_next n) a (nodes w)) w
  end.

Definition readable w (p : HolePtr) : Prop :=
  match p with PFirst => True | PNode a => is_Some (nodes w !! a) end.

Lemma update_next_run w p n : readable w p -> update_hole p (with_next n) w = (Ok tt, upd_next w p n).
Proof.
  destruct p as [|a]; cbn; [done|]. intros [h Hh]. unfold update_hole, sbind, read_hole. rewrite Hh. cbn.
  unfold smodify, set_nodes. do 2 f_equal. apply map_eq. intros b. destruct (decide (b = a)) as [->|Hne].
  - by rewrite lookup_insert_eq, lookup_alter_eq, Hh.
  - by rewrite lookup_insert_ne, lookup_alter_ne.
Qed.

Lemma upd_next_nodes w p n a : p <> PNode a -> nodes (upd_next w p n) !! a = nodes w !! a.
Proof. destruct p as [|b]; cbn; [done|]. intros Hne. rewrite lookup_alter_ne; [done|]. congruence. Qed.

Lemma upd_next_fixed w p n :
  bottom (holes (heap (upd_next w p n))) = bottom (holes (heap w))
  /\ top (holes (heap (upd_next w p n))) = top (holes (heap w))
  /\ used (heap (upd_next w p n)) = used (heap w)
  /\ hole_size (first (holes (heap (upd_next w p n)))) = hole_size (first (holes (heap w))).
Proof. by destruct p. Qed.

Lemma last_ptr_readable w l e : list_at w l e -> readable w (last_ptr l).
Proof.
  unfold last_ptr. destruct l as [|[a s] l _] using rev_ind; [done|]. rewrite last_snoc.
  intros (x & _ & _ & nx & Ha & _)%lseg_app. cbn. by rewrite Ha.
Qed.

Lemma last_ptr_elem l a : last_ptr l = PNode a -> a ∈ fst <$> l.
Proof.
  unfold last_ptr. destruct l as [|[b s] l _] using rev_ind; [done|]. rewrite last_snoc. intros [= ->].
  rewrite fmap_app. apply elem_of_app. right. by left.
Qed.

(** Redirecting the end of the list. *)
Lemma list_at_upd w l e e' : NoDup (fst <$> l) -> list_at w l e -> list_at (upd_next w (last_ptr l) e') l e'.
Proof.
  unfold last_ptr. destruct l as [|[a s] l _] using rev_ind; [done|]. rewrite last_snoc.
  rewrite fmap_app, NoDup_app. intros (_ & Hnin & _) (x & Hl & -> & nx & Ha & ->)%lseg_app. apply lseg_app.
  exists (Some a). split.
  - eapply lseg_frame; [|exact Hl]. intros b t Hin. apply (upd_next_nodes w (PNode a)). intros [= <-].
    apply (Hnin a); [|by left]. by apply (list_elem_of_fmap_2 fst _ (a, t)).
  - split; [done|]. exists e'. cbn. by rewrite lookup_alter_eq, Ha.
Qed.

(** The state after a write of a node. *)
Definition written w (a : Z) (h : Hole) : HeapWorld :=
  set_nodes (<[a := h]> (filter (fun kv : Z * Hole => kv.1 + 16 <= a \/ a + 16 <= kv.1) (nodes w))) w.

Lemma written_other w a h b : b + 16 <= a \/ a + 16 <= b -> nodes (written w a h) !! b = nodes w !! b.
Proof.
  intros Hd. cbn. rewrite lookup_insert_ne by lia. destruct (nodes w !! b) as [x|] eqn:Hb.
  - by apply map_lookup_filter_Some.
  - apply map_lookup_filter_None. by left.
Qed.

Lemma written_self w a h : nodes (written w a h) !! a = Some h.
Proof. apply lookup_insert_eq. Qed.

Lemma lseg_bounds m n l e lo hi a h w :
  nodes w = m -> sorted_holes lo hi l -> a + 16 <= lo \/ hi <= a -> lseg m n l e -> lseg (nodes (written w a h)) n l e.
Proof.
  intros <- Hs Hd. apply lseg_frame. intros b t Hin. apply written_other.
  apply (sorted_holes_elem _ _ _ _ _ Hs) in Hin. lia.
Qed.

(** ** Alignment *)

Lemma wadd_run a b : 0 <= a + b < 2 ^ 64 -> wrapping_add 64 a b = a + b.
Proof. intros H. by apply wrap_small, is_uint_spec. Qed.

Lemma power_of_two_spec x : is_power_of_two x = true -> exists k, 0 <= k /\ x = 2 ^ k.
Proof.
  unfold is_power_of_two. rewrite andb_true_iff, Z.eqb_eq. intros [_ <-]. exists (Z.log2 x).
  split; [apply Z.log2_nonneg|done].
Qed.

Lemma round_up_bound x al : 0 < al -> x <= round_up x al < x + al.
Proof. intros H. unfold round_up. pose proof (Z.mod_pos_bound (- x) al H). lia. Qed.

Lemma round_up_mod x al : 0 < al -> round_up x al mod al = 0.
Proof.
  intros H. unfold round_up. rewrite Z.add_mod_idemp_r by lia. by rewrite Z.add_opp_diag_r, Z.mod_0_l by lia.
Qed.

Lemma round_up_id x al : 0 < al -> round_up x al = x <-> x mod al = 0.
Proof.
  intros H. split.
  - intros <-. by apply round_up_mod.
  - intros Hx. unfold round_up. rewrite Z.mod_opp_l_z by lia. lia.
Qed.

Lemma align_up_run x al :
  is_power_of_two al = true -> 0 <= x <= 2 ^ 63 -> al <= 2 ^ 63 -> align_up x al = Ok (round_up x al).
Proof.
  intros Hp Hx Hal. unfold align_up. rewrite Hp. f_equal. unfold round_up, wrapping_add. apply wrap_small, is_uint_spec.
  assert (0 < al) as H0 by (unfold is_power_of_two in Hp; apply andb_true_iff in Hp as [?%Z.ltb_lt _]; lia).
  pose proof (Z.mod_pos_bound (- x) al H0). lia.
Qed.

(** Multiples of a smaller power of two. *)
Lemma power_divides a b x : 0 <= a <= b -> x mod 2 ^ b = 0 -> x mod 2 ^ a = 0.
Proof.
  intros Hab Hx. apply Z.mod_divide in Hx as [q ->]; [|lia]. replace b with (a + (b - a)) by lia.
  rewrite Z.pow_add_r by lia. replace (q * (2 ^ a * 2 ^ (b - a))) with (q * 2 ^ (b - a) * 2 ^ a) by ring.
  apply Z.mod_mul. lia.
Qed.

Lemma round_up_le x k hi : 0 <= k <= hi -> 0 <= x <= 2 ^ hi -> round_up x (2 ^ k) <= 2 ^ hi.
Proof.
  intros Hk Hx. assert (0 < 2 ^ k) as H0 by lia. pose proof (round_up_bound x _ H0) as [_ Hlt].
  pose proof (round_up_mod x _ H0) as Hr. assert (2 ^ hi mod 2 ^ k = 0) as Hh.
  { apply (power_divides k hi); [done|]. apply Z.mod_same. lia. }
  apply Z.mod_divide in Hr as [q Hq]; [|lia]. apply Z.mod_divide in Hh as [p Hp]; [|lia].
  rewrite Hq, Hp in *. assert (q < p + 1) by nia. nia.
Qed.

(** A layout as [align_layout] returns it. *)
Record layout_ok (l : Layout) : Prop := {
  lo_align : is_power_of_two (layout_align l) = true;
  lo_size : 16 <= layout_size l /\ layout_size l mod 8 = 0;
  lo_fits : layout_size l <= 2 ^ 63 - layout_align l
}.

Lemma align_down_8 x : 0 <= x < 2 ^ 64 -> align_down_size x 8 = Ok (x - x mod 8).
Proof.
  intros Hx. unfold align_down_size. change (is_power_of_two 8) with true. cbn -[Z.land unot]. f_equal.
  change (unot 64 (8 - 1)) with (Z.shiftl (Z.ones 61) 3).
  replace (x - x mod 8) with (Z.ldiff x (Z.ones 3)).
  2: { rewrite Z.ldiff_ones_r, Z.shiftl_mul_pow2, Z.shiftr_div_pow2 by lia. change (2 ^ 3) with 8.
       Z.div_mod_to_equations. lia. }
  rewrite Z.ldiff_land. apply Z.bits_inj'. intros n Hn.
  rewrite !Z.land_spec, Z.lnot_spec, Z.shiftl_spec by lia. rewrite (Z.testbit_ones_nonneg 3 n) by lia.
  destruct (Z.ltb_spec n 3) as [Hn3|Hn3].
  - by rewrite (Z.testbit_neg_r (Z.ones 61) (n - 3)) by lia.
  - rewrite (Z.testbit_ones_nonneg 61 (n - 3)) by lia. destruct (Z.ltb_spec (n - 3) 61); [done|].
    rewrite (Z.bits_above_log2 x n); [done|lia|]. destruct (decide (x = 0)) as [->|]; [cbn; lia|].
    apply Z.log2_lt_pow2; [lia|]. eapply Z.lt_le_trans; [apply Hx|]. apply Z.pow_le_mono_r; lia.
Qed.

Lemma align_up_8 x : 0 <= x <= 2 ^ 63 -> align_up_size x 8 = Ok (round_up x 8).
Proof.
  intros Hx. unfold align_up_size. rewrite uadd_run by lia. cbn -[align_down_size]. rewrite usub_run by lia.
  cbn -[align_down_size]. rewrite align_down_8 by lia. f_equal. unfold round_up. Z.div_mod_to_equations. lia.
Qed.

(** [align_layout] fails, or rounds the size up to at least a node. *)
Definition aligned_size (layout : Layout) : Z := round_up (Z.max 16 (layout_size layout)) 8.

Lemma align_layout_run layout :
  0 <= layout_size layout <= 2 ^ 63 ->
  align_layout layout
  = if is_power_of_two (layout_align layout) && (aligned_size layout <=? 2 ^ 63 - layout_align layout)
    then Ok (MkLayout (aligned_size layout) (layout_align layout))
    else Err (alloc_err (InvalidLayout (layout_size layout) (layout_align layout))).
Proof.
  intros Hs. unfold align_layout. cbn [layout_align Hole_layout].
  replace (if layout_size layout <? min_size then min_size else layout_size layout) with (Z.max 16 (layout_size layout))
    by (unfold min_size; destruct (Z.ltb_spec (layout_size layout) (8 * 2)); lia).
  rewrite align_up_8 by lia. cbn -[Layout_from_size_align]. unfold Layout_from_size_align, aligned_size.
  by destruct (_ && _).
Qed.

Lemma aligned_layout_ok layout :
  is_power_of_two (layout_align layout) = true -> aligned_size layout <= 2 ^ 63 - layout_align layout ->
  layout_ok (MkLayout (aligned_size layout) (layout_align layout)).
Proof.
  intros Hp Hs. split; cbn; [done| |done]. unfold aligned_size. split; [|by apply round_up_mod].
  pose proof (round_up_bound (Z.max 16 (layout_size layout)) 8 ltac:(lia)). lia.
Qed.

(** ** Splitting a hole *)

(** A hole of the heap area. *)
Definition hole_ok (pos s : Z) : Prop := 0 < pos /\ pos mod 8 = 0 /\ 16 <= s /\ s mod 8 = 0 /\ pos + s <= 2 ^ 63.

(** Where the block starts. *)
Definition block_start (pos al : Z) : Z := if pos mod al =? 0 then pos else round_up (pos + 16) al.

Lemma block_start_spec pos s layout :
  hole_ok pos s -> layout_ok layout ->
  block_start pos (layout_align layout) mod layout_align layout = 0
  /\ block_start pos (layout_align layout) mod 8 = 0
  /\ pos <= block_start pos (layout_align layout) <= 2 ^ 63
  /\ (block_start pos (layout_align layout) = pos \/ pos + 16 <= block_start pos (layout_align layout)).
Proof.
  intros (H0 & Hp8 & Hs & Hs8 & Htop) [Hal Hn Hf]. destruct layout as [n al]. cbn in *.
  destruct (power_of_two_spec al Hal) as (k & Hk & ->). unfold block_start.
  assert (k < 63) as Hk63. { apply (Z.pow_lt_mono_r_iff 2); lia. }
  destruct (Z.eqb_spec (pos mod 2 ^ k) 0) as [Hm|Hm]; [split; [done|]; split; [done|]; split; [lia|by left]|].
  assert (3 <= k) as Hk3.
  { destruct (Z.le_gt_cases 3 k) as [|Hlt]; [done|]. destruct Hm. apply (power_divides k 3); [lia|done]. }
  assert (0 < 2 ^ k) as Hpos by lia. pose proof (round_up_bound (pos + 16) _ Hpos).
  pose proof (round_up_mod (pos + 16) _ Hpos) as Hrm. split; [done|]. split; [by apply (power_divides 3 k)|].
  pose proof (round_up_le (pos + 16) k 63 ltac:(lia) ltac:(lia)). split; [lia|]. right. lia.
Qed.

Lemma split_plan_run pos s layout :
  hole_ok pos s -> layout_ok layout ->
  split_plan pos s layout
  = Ok (match seg_plan pos s layout with
        | Some (f, b) =>
            Some (pos + f, layout_size layout,
                  if f =? 0 then None else Some (MkHoleInfo pos f),
                  if b =? 0 then None else Some (MkHoleInfo (pos + f + layout_size layout) b))
        | None => None
        end).
Proof.
  intros Hh Hl. destruct (block_start_spec pos s layout Hh Hl) as (Hal & H8 & Hb & Hf).
  pose proof (lo_align _ Hl) as Hp. pose proof (lo_size _ Hl) as [Hn Hn8]. pose proof (lo_fits _ Hl) as Hfit.
  destruct Hh as (H0 & Hp8 & Hs & Hs8 & Htop). destruct layout as [n al]. cbn [layout_size layout_align] in *.
  assert (0 < al) as Hal0 by (unfold is_power_of_two in Hp; apply andb_true_iff in Hp as [?%Z.ltb_lt _]; lia).
  unfold split_plan, seg_plan. cbn [layout_size layout_align]. fold (block_start pos al). set (p := block_start pos al) in *.
  destruct (Z.ltb_spec s n) as [Hlt|Hge].
  { destruct (Z.eqb_spec (pos + s - (p + n)) 0); [lia|]. destruct (Z.leb_spec 16 (pos + s - (p + n))); [lia|done]. }
  rewrite (align_up_run pos al) by (done || lia). cbn [obind].
  assert ((if pos =? round_up pos al then Ok (pos, None) else
      let? aligned_addr := align_up (wrapping_add 64 pos min_size) al in
      let? size := usub 64 aligned_addr pos in
      Ok (aligned_addr, Some (MkHoleInfo pos size)))
    = Ok (E := Error_) (p, if p - pos =? 0 then None else Some (MkHoleInfo pos (p - pos)))) as ->.
  { destruct (Z.eqb_spec pos (round_up pos al)) as [He|He].
    - symmetry in He. apply round_up_id in He; [|done]. unfold p, block_start. rewrite He. cbn -[Z.sub].
      by rewrite Z.sub_diag.
    - assert (pos mod al <> 0) as Hm by (intros Hm; apply He; symmetry; by apply round_up_id).
      unfold min_size. rewrite wadd_run by lia. rewrite align_up_run by (done || lia). cbn [obind].
      unfold p, block_start in *. destruct (Z.eqb_spec (pos mod al) 0); [done|].
      change (8 * 2) with 16. pose proof (round_up_bound (pos + 16) al Hal0).
      rewrite usub_run by lia. cbn [obind]. destruct (Z.eqb_spec (round_up (pos + 16) al - pos) 0); [lia|done]. }
  cbn [obind]. rewrite !wadd_run by lia. destruct (Z.ltb_spec (pos + s) (p + n)) as [Hlt|Hle].
  { destruct (Z.eqb_spec (pos + s - (p + n)) 0); [lia|]. destruct (Z.leb_spec 16 (pos + s - (p + n))); [lia|done]. }
  rewrite usub_run by lia. cbn [obind]. assert (pos + (p - pos) = p) as Hpp by lia.
  destruct (Z.eqb_spec (pos + s - (p + n)) 0) as [Hz|Hz]; cbn [orb]; [by rewrite Hz, Hpp|].
  cbn [Hole_layout layout_align layout_size]. rewrite (align_up_run (p + n) 8) by (done || lia). cbn [obind].
  assert (round_up (p + n) 8 = p + n) as -> by (apply round_up_id; [lia|]; by rewrite Z.add_mod, H8, Hn8 by lia).
  rewrite wadd_run by lia.
  destruct (Z.leb_spec (p + n + 16) (pos + s)), (Z.leb_spec 16 (pos + s - (p + n))); try lia; [|done].
  rewrite Hpp. destruct (Z.eqb_spec (pos + s - (p + n)) 0); done.
Qed.

(** ** The heap in memory represents a row of segments *)

Record list_rep w (l : list seg) : Prop := {
  lr_bottom : 0 < bottom (holes (heap w)) /\ bottom (holes (heap w)) mod 8 = 0;
  lr_top : top (holes (heap w)) = bottom (holes (heap w)) + total l /\ top (holes (heap w)) <= 2 ^ 63;
  lr_segs : Forall seg_ok l;
  lr_coalesced : coalesced l;
  lr_first : hole_size (first (holes (heap w))) = 0;
  lr_list : list_at w (free_holes (bottom (holes (heap w))) l) None
}.

(** Only the list changed. *)
Definition same_heap w w' : Prop :=
  bottom (holes (heap w')) = bottom (holes (heap w)) /\ top (holes (heap w')) = top (holes (heap w))
  /\ used (heap w') = used (heap w)
  /\ hole_size (first (holes (heap w'))) = hole_size (first (holes (heap w))).

Lemma same_heap_refl w : same_heap w w.
Proof. by repeat split. Qed.

Lemma same_heap_trans w1 w2 w3 : same_heap w1 w2 -> same_heap w2 w3 -> same_heap w1 w3.
Proof. intros (A & B & C & D) (A' & B' & C' & D'). repeat split; congruence. Qed.

Lemma same_heap_upd w p n : same_heap w (upd_next w p n).
Proof. apply upd_next_fixed. Qed.

Lemma same_heap_written w a h : same_heap w (written w a h).
Proof. by repeat split. Qed.

#[export] Hint Resolve same_heap_refl same_heap_trans same_heap_upd same_heap_written : kernel.

(** Putting the chain [M] behind [L]. *)
Lemma splice w L M e n lo hi hi' :
  sorted_holes lo hi L -> sorted_holes hi hi' M -> list_at w L e -> lseg (nodes w) n M None ->
  update_hole (last_ptr L) (with_next n) w = (Ok tt, upd_next w (last_ptr L) n)
  /\ list_at (upd_next w (last_ptr L) n) (L ++ M) None.
Proof.
  intros HL HM Hl Hm. split; [by eapply update_next_run, last_ptr_readable|].
  apply lseg_app. exists n. split; [by eapply list_at_upd; [eapply sorted_NoDup|]|].
  eapply lseg_frame; [|exact Hm]. intros a s Hin. apply upd_next_nodes. intros Hp.
  apply last_ptr_elem, list_elem_of_fmap in Hp as ((b & t) & -> & Hb).
  apply (sorted_holes_elem _ _ _ _ _ HL) in Hb. apply (sorted_holes_elem _ _ _ _ _ HM) in Hin. cbn in *. lia.
Qed.

(** Writing a node in front of the chain [M], behind [L]. *)
Lemma write_pad w L M e n lo hi lo' hi' a sz :
  sorted_holes lo hi L -> sorted_holes lo' hi' M -> hi <= a -> 16 <= sz -> a + sz <= lo' ->
  list_at w L e -> lseg (nodes w) n M None ->
  sorted_holes hi hi' ((a, sz) :: M) /\ list_at (written w a (MkHole sz n)) L e
  /\ lseg (nodes (written w a (MkHole sz n))) (Some a) ((a, sz) :: M) None.
Proof.
  intros HL HM Ha Hsz Hlo Hl Hm. split; [|split].
  - split; [done|]. split; [done|]. by eapply sorted_holes_weaken.
  - eapply lseg_bounds; [reflexivity|exact HL|by right|exact Hl].
  - split; [done|]. exists n. split; [apply written_self|]. eapply lseg_bounds; [reflexivity|exact HM|left; lia|done].
Qed.

Section Split.
Context (w : HeapWorld) (sa sb : list seg) (s : Z).
Context (Hrep : list_rep w (sa ++ Free s :: sb)).

Let bot : Z := bottom (holes (heap w)).
Let pos : Z := bot + total sa.
Let L1 : list (Z * Z) := free_holes bot sa.
Let L2 : list (Z * Z) := free_holes (pos + s) sb.

Lemma split_ok_segs : Forall seg_ok sa /\ seg_ok (Free s) /\ Forall seg_ok sb.
Proof.
  pose proof (lr_segs _ _ Hrep) as Hs. apply Forall_app in Hs as [H1 [H2 H3]%Forall_cons]. done.
Qed.

Lemma split_sorted : sorted_holes bot pos L1 /\ sorted_holes (pos + s) (pos + s + total sb) L2.
Proof. destruct split_ok_segs as (H1 & _ & H3). split; by apply free_holes_sorted. Qed.

Lemma split_hole_ok : hole_ok pos s.
Proof.
  destruct split_ok_segs as (H1 & [H2 H2'] & H3). cbn in H2, H2'. destruct (lr_bottom _ _ Hrep) as [Hb Hb8].
  destruct (lr_top _ _ Hrep) as [Ht Htop]. rewrite total_app in Ht. cbn in Ht.
  pose proof (total_nonneg sa H1). pose proof (total_nonneg sb H3). pose proof (total_mod sa H1) as Hm.
  unfold hole_ok, pos, bot. split; [lia|]. split; [by rewrite Z.add_mod, Hb8, Hm by lia|]. split; [done|]. split; [done|lia].
Qed.

Lemma split_chain :
  list_at w L1 (Some pos) /\ exists nx, nodes w !! pos = Some (MkHole s nx) /\ lseg (nodes w) nx L2 None.
Proof.
  pose proof (lr_list _ _ Hrep) as Hl. rewrite free_holes_app in Hl. cbn in Hl. fold bot pos L1 L2 in Hl.
  apply lseg_app in Hl as (x & Hl1 & -> & nx & Hx & Hl2). split; [done|]. by exists nx.
Qed.

(** The hole is taken out of the list. *)
Lemma unlink_run nx :
  nodes w !! pos = Some (MkHole s nx) -> lseg (nodes w) nx L2 None ->
  let w2 := upd_next (upd_next w (last_ptr L1) None) (PNode pos) None in
  update_hole (last_ptr L1) (with_next None) w = (Ok tt, upd_next w (last_ptr L1) None)
  /\ read_hole (PNode pos) (upd_next w (last_ptr L1) None) = (Ok (MkHole s nx), upd_next w (last_ptr L1) None)
  /\ update_hole (PNode pos) (with_next None) (upd_next w (last_ptr L1) None) = (Ok tt, w2)
  /\ list_at w2 L1 None /\ lseg (nodes w2) nx L2 None.
Proof.
  intros Hx Hl2. destruct split_chain as [Hl1 _]. destruct split_sorted as [Hs1 Hs2]. destruct split_hole_ok as (_ & _ & Hs & _).
  assert (forall a t, (a, t) ∈ L1 -> a + 16 <= pos) as Ha1 by (intros a t Hin; apply (sorted_holes_elem _ _ _ _ _ Hs1) in Hin; lia).
  assert (forall a t, (a, t) ∈ L2 -> pos + s <= a) as Ha2 by (intros a t Hin; apply (sorted_holes_elem _ _ _ _ _ Hs2) in Hin; lia).
  assert (forall a, pos <= a -> last_ptr L1 <> PNode a) as Hp.
  { intros a Ha Hp. apply last_ptr_elem, list_elem_of_fmap in Hp as ((b & t) & -> & Hb). apply Ha1 in Hb. cbn in *. lia. }
  assert (nodes (upd_next w (last_ptr L1) None) !! pos = Some (MkHole s nx)) as Hx1 by (rewrite upd_next_nodes; [done|apply Hp; lia]).
  split; [by eapply update_next_run, last_ptr_readable|]. split; [unfold read_hole; by rewrite Hx1|].
  split; [apply update_next_run; by exists (MkHole s nx)|]. split.
  - eapply lseg_frame; [|by eapply (list_at_upd w L1 (Some pos) None); [eapply sorted_NoDup|]].
    intros a t Hin. apply upd_next_nodes. intros [= <-]. apply Ha1 in Hin. lia.
  - eapply lseg_frame; [|exact Hl2]. intros a t Hin. pose proof (Ha2 _ _ Hin).
    rewrite upd_next_nodes by (intros [= <-]; lia). apply upd_next_nodes, Hp. lia.
Qed.

(** The sizes of a plan. *)
Lemma seg_plan_spec layout f b :
  layout_ok layout -> seg_plan pos s layout = Some (f, b) ->
  f + layout_size layout + b = s /\ (f = 0 \/ 16 <= f) /\ (b = 0 \/ 16 <= b) /\ f mod 8 = 0 /\ b mod 8 = 0
  /\ (pos + f) mod layout_align layout = 0.
Proof.
  intros Hl. destruct (block_start_spec pos s layout split_hole_ok Hl) as (Ha & H8 & Hb & Hf).
  destruct split_hole_ok as (H0 & Hp8 & Hs & Hs8 & Htop). pose proof (lo_size _ Hl) as [Hn Hn8].
  unfold seg_plan. fold (block_start pos (layout_align layout)). set (p := block_start pos (layout_align layout)) in *.
  destruct (_ || _) eqn:Hc; [|done]. intros [= <- <-]. apply orb_true_iff in Hc. rewrite Z.eqb_eq, Z.leb_le in Hc.
  split; [lia|]. split; [lia|]. split; [lia|]. replace (pos + (p - pos)) with p by lia.
  split; [|split; [|done]]; Z.div_mod_to_equations; lia.
Qed.

(** The hole is replaced by what is left of it. *)
Lemma split_current_ok layout f b :
  layout_ok layout -> seg_plan pos s layout = Some (f, b) ->
  exists w', split_current (MkCursor (last_ptr L1) pos (top (holes (heap w)))) layout w
             = (Ok (Some (pos + f, layout_size layout)), w')
    /\ same_heap w w' /\ list_at w' (free_holes bot (sa ++ pieces f (layout_size layout) b ++ sb)) None.
Proof.
  intros Hl Hplan. destruct (seg_plan_spec layout f b Hl Hplan) as (Hsum & Hf & Hb & _).
  destruct split_chain as (Hl1 & nx & Hx & Hl2). destruct (unlink_run nx Hx Hl2) as (R1 & R2 & R3 & Hl1' & Hl2').
  destruct split_sorted as [Hs1 Hs2]. pose proof (lo_size _ Hl) as [Hn _]. set (n := layout_size layout) in *.
  set (w1 := upd_next w (last_ptr L1) None) in *. set (w2 := upd_next w1 (PNode pos) None) in *.
  assert (same_heap w w2) as Hsame by (unfold w2, w1; eauto with kernel).
  unfold split_current. unfold sbind at 1. cbn [cur_hole cur_prev]. unfold read_hole at 1. rewrite Hx.
  cbn [hole_size]. rewrite (split_plan_run pos s layout split_hole_ok Hl), Hplan. fold n.
  unfold sbind at 1, slift. unfold sbind at 1. rewrite R1. unfold sbind at 1. rewrite R2. unfold sbind at 1.
  cbn [hole_next]. rewrite R3. rewrite !free_holes_app. unfold pieces. rewrite !free_holes_app, !total_app. fold L1 pos.
  assert (sorted_holes pos (pos + s + total sb) L2) as Hs2' by (eapply sorted_holes_weaken; [|exact Hs2]; lia).
  destruct (Z.eqb_spec f 0) as [Hf0|Hf0], (Z.eqb_spec b 0) as [Hb0|Hb0]; cbn [free_holes app total seg_size];
    match goal with |- context [free_holes ?x sb] => replace x with (pos + s) by lia end.
  - destruct (splice w2 L1 L2 None nx bot pos (pos + s + total sb)) as [R4 Hl4]; [done..|].
    unfold sbind. rewrite R4. eexists. split; [reflexivity|]. split; [eauto with kernel|done].
  - destruct (write_pad w2 L1 L2 None nx bot pos (pos + s) _ (pos + f + n) b Hs1 Hs2) as (S3 & A3 & C3); [lia|lia|lia|done..|].
    destruct (splice _ L1 _ None _ bot pos _ Hs1 S3 A3 C3) as [R4 Hl4].
    unfold sbind. cbn [info_addr info_size]. unfold write_hole, smodify at 1. unfold written in R4. rewrite R4.
    eexists. split; [reflexivity|]. split; [eauto with kernel|].
    replace (pos + 0 + (n + 0)) with (pos + f + n) by lia. done.
  - destruct (write_pad w2 L1 L2 None nx bot pos (pos + s) _ pos f Hs1 Hs2) as (S3 & A3 & C3); [lia|lia|lia|done..|].
    destruct (splice _ L1 _ None _ bot pos _ Hs1 S3 A3 C3) as [R4 Hl4].
    unfold sbind. cbn [info_addr info_size]. unfold write_hole, smodify at 1. unfold written in R4. rewrite R4.
    eexists. split; [reflexivity|]. split; [eauto with kernel|done].
  - destruct (write_pad w2 L1 L2 None nx bot pos (pos + s) _ (pos + f + n) b Hs1 Hs2) as (S3 & A3 & C3); [lia|lia|lia|done..|].
    assert (sorted_holes (pos + f) (pos + s + total sb) ((pos + f + n, b) :: L2)) as S3'.
    { destruct S3 as (_ & S3b & S3c). split; [lia|]. by split. }
    destruct (write_pad _ L1 _ None _ bot pos _ _ pos f Hs1 S3' ltac:(lia) ltac:(lia) ltac:(lia) A3 C3) as (S4 & A4 & C4).
    destruct (splice _ L1 _ None _ bot pos _ Hs1 S4 A4 C4) as [R4 Hl4].
    unfold sbind. cbn [info_addr info_size]. unfold write_hole, smodify at 1 2. unfold written in R4. rewrite R4.
    eexists. split; [reflexivity|]. split; [eauto 6 with kernel|].
    replace (pos + (f + 0) + (n + 0)) with (pos + f + n) by lia. done.
Qed.

Lemma split_current_none layout :
  layout_ok layout -> seg_plan pos s layout = None ->
  split_current (MkCursor (last_ptr L1) pos (top (holes (heap w)))) layout w = (Ok None, w).
Proof.
  intros Hl Hplan. destruct split_chain as (_ & nx & Hx & _). unfold split_current, sbind. cbn [cur_hole].
  unfold read_hole at 1. rewrite Hx. cbn [hole_size]. by rewrite (split_plan_run pos s layout split_hole_ok Hl), Hplan.
Qed.

Lemma Cursor_next_run :
  Cursor_next (MkCursor (last_ptr L1) pos (top (holes (heap w)))) w
  = (Ok (match L2 with (a, _) :: _ => Some (MkCursor (PNode pos) a (top (holes (heap w)))) | [] => None end), w).
Proof.
  destruct split_chain as (_ & nx & Hx & Hl2). unfold Cursor_next, sbind. cbn [cur_hole]. unfold read_hole. rewrite Hx. cbn.
  destruct L2 as [|[a t] l]; [by rewrite Hl2|]. by destruct Hl2 as [-> _].
Qed.

End Split.

Lemma coalesced_around sa s sb : coalesced (sa ++ Free s :: sb) -> ends_used sa /\ starts_used sb.
Proof.
  intros Hc. split.
  - unfold ends_used. destruct sa as [|x sa _] using rev_ind; [done|]. rewrite last_snoc. destruct x as [t|]; [|done].
    rewrite <- app_assoc in Hc. by apply coalesced_app_inv in Hc as [_ []].
  - apply coalesced_app_inv in Hc as [_ Hc]. by destruct sb as [|[t|t] sb].
Qed.

(** The segments of a plan are well formed. *)
Lemma pieces_wf sa s sb f n b :
  Forall seg_ok (sa ++ Free s :: sb) -> coalesced (sa ++ Free s :: sb) ->
  16 <= n -> n mod 8 = 0 -> f = 0 \/ 16 <= f -> b = 0 \/ 16 <= b -> f mod 8 = 0 -> b mod 8 = 0 ->
  Forall seg_ok (sa ++ pieces f n b ++ sb) /\ coalesced (sa ++ pieces f n b ++ sb)
  /\ total (pieces f n b) = f + n + b.
Proof.
  intros Hs Hc Hn Hn8 Hf Hb Hf8 Hb8. apply Forall_app in Hs as [Hsa [_ Hsb]%Forall_cons].
  destruct (coalesced_around _ _ _ Hc) as [He Hst]. apply coalesced_app_inv in Hc as [Hca Hcb].
  assert (coalesced sb) as Hcb' by (by destruct sb as [|[t|t] sb]).
  unfold pieces. split; [|split].
  - rewrite !Forall_app. split_and!; [done| |by repeat constructor| |done].
    + destruct (Z.eqb_spec f 0); repeat constructor; cbn; lia.
    + destruct (Z.eqb_spec b 0); repeat constructor; cbn; lia.
  - apply coalesced_join; [done| |by left]. by destruct (f =? 0), (b =? 0), sb as [|[t|t] sb].
  - rewrite !total_app. destruct (Z.eqb_spec f 0), (Z.eqb_spec b 0); cbn; lia.
Qed.

Lemma same_heap_rep w w' l l' :
  list_rep w l -> same_heap w w' -> Forall seg_ok l' -> coalesced l' -> total l' = total l ->
  list_at w' (free_holes (bottom (holes (heap w))) l') None -> list_rep w' l'.
Proof.
  intros [H1 H2 H3 H4 H5 H6] (E1 & E2 & _ & E4) Hs Hc Ht Hl. split; rewrite ?E1, ?E2, ?E4; try done. by rewrite Ht.
Qed.

Lemma spec_alloc_no_hole pos l layout : free_holes pos l = [] -> spec_alloc pos l layout = None.
Proof.
  revert pos. induction l as [|[s|s] l IH]; intros pos; cbn; [done|done|]. intros Hl. by rewrite IH.
Qed.

(** The loop finds the first segment with room. *)
Lemma alloc_loop_sim layout sb sa fuel w a t rest :
  list_rep w (sa ++ sb) -> layout_ok layout ->
  let pos := bottom (holes (heap w)) + total sa in
  free_holes pos sb = (a, t) :: rest -> (length (free_holes pos sb) <= fuel)%nat ->
  exists w', same_heap w w' /\
    match spec_alloc pos sb layout with
    | Some (p, sb') =>
        alloc_loop fuel (MkCursor (last_ptr (free_holes (bottom (holes (heap w))) sa)) a (top (holes (heap w)))) layout w = (Ok p, w')
        /\ list_rep w' (sa ++ sb') /\ p mod layout_align layout = 0
    | None =>
        alloc_loop fuel (MkCursor (last_ptr (free_holes (bottom (holes (heap w))) sa)) a (top (holes (heap w)))) layout w
        = (Err (alloc_err NoNextCursor), w') /\ w' = w
    end.
Proof.
  revert sa fuel a t rest. induction sb as [|[s|s] sb IH]; intros sa fuel a t rest Hrep Hl pos Hfree Hfuel; [done| |].
  - cbn in Hfree. injection Hfree as <- <- <-. destruct fuel as [|fuel]; [cbn in Hfuel; lia|]. cbn [spec_alloc alloc_loop].
    destruct (seg_plan pos s layout) as [[f b]|] eqn:Hplan.
    + destruct (split_current_ok w sa sb s Hrep layout f b Hl Hplan) as (w' & Hrun & Hsame & Hlist).
      destruct (seg_plan_spec w sa sb s Hrep layout f b Hl Hplan) as (Hsum & Hf & Hb & Hf8 & Hb8 & Hal).
      destruct (lo_size _ Hl) as [Hn Hn8].
      destruct (pieces_wf sa s sb f (layout_size layout) b (lr_segs _ _ Hrep) (lr_coalesced _ _ Hrep)) as (S1 & S2 & S3); [done..|].
      exists w'. split; [done|]. unfold sbind. fold pos in Hrun. rewrite Hrun.
      destruct (split_hole_ok w sa sb s Hrep) as (Hpos & _). fold pos in Hpos.
      destruct (Z.eqb_spec (pos + f) 0); [lia|]. split; [done|]. split; [|done].
      apply (same_heap_rep w w' (sa ++ Free s :: sb)); [done..| |done]. rewrite !total_app, S3. cbn. lia.
    + pose proof (split_current_none w sa sb s Hrep layout Hl Hplan) as R1. pose proof (Cursor_next_run w sa sb s Hrep) as R2.
      fold pos in R1, R2. unfold sbind at 1 3. rewrite R1. unfold sbind. rewrite R2. cbn [seg_size].
      assert (list_rep w ((sa ++ [Free s]) ++ sb)) as Hrep' by (by rewrite <- app_assoc).
      assert (bottom (holes (heap w)) + total (sa ++ [Free s]) = pos + s) as Hpos
        by (rewrite total_app; cbn; unfold pos; lia).
      destruct (free_holes (pos + s) sb) as [|[a' t'] rest'] eqn:Hrest.
      * rewrite spec_alloc_no_hole by done. exists w. auto with kernel.
      * destruct (IH (sa ++ [Free s]) fuel a' t' rest' Hrep' Hl) as (w' & Hsame & Hw').
        { by rewrite Hpos. }
        { rewrite Hpos, Hrest. cbn in *. rewrite Hrest in Hfuel. cbn in Hfuel. lia. }
        exists w'. split; [done|]. rewrite Hpos, free_holes_app in Hw'. cbn in Hw'. fold pos in Hw'.
        unfold last_ptr in Hw' at 1 2. rewrite last_snoc in Hw'.
        destruct (spec_alloc (pos + s) sb layout) as [[p sb']|]; [|done]. by rewrite <- app_assoc in Hw'.
  - cbn [spec_alloc seg_size]. cbn in Hfree, Hfuel.
    assert (list_rep w ((sa ++ [Used s]) ++ sb)) as Hrep' by (by rewrite <- app_assoc).
    assert (bottom (holes (heap w)) + total (sa ++ [Used s]) = pos + s) as Hpos by (rewrite total_app; cbn; unfold pos; lia).
    destruct (IH (sa ++ [Used s]) fuel a t rest Hrep' Hl) as (w' & Hsame & Hw'); [by rewrite Hpos..|].
    exists w'. split; [done|]. rewrite Hpos, free_holes_app in Hw'. cbn in Hw'. rewrite app_nil_r in Hw'.
    destruct (spec_alloc (pos + s) sb layout) as [[p sb']|]; [|done]. by rewrite <- app_assoc in Hw'.
Qed.

(** ** Allocation *)

Definition heap_rep w (l : list seg) : Prop := list_rep w l /\ used (heap w) = used_total l.

Lemma lseg_length m n l e : lseg m n l e -> NoDup (fst <$> l) -> (length l <= size m)%nat.
Proof.
  intros Hl Hnd. rewrite <- (size_dom (D := gset Z) m), <- (length_fmap fst), <- (size_list_to_set (C := gset Z)) by done.
  apply subseteq_size. intros a Ha. apply elem_of_list_to_set in Ha. clear Hnd. revert n Hl.
  induction l as [|[b s] l IH]; intros n Hl; [by apply not_elem_of_nil in Ha|]. destruct Hl as (_ & nx & Hb & Hl).
  apply elem_of_cons in Ha as [->|Ha]; [|by eapply IH]. apply elem_of_dom. by exists (MkHole s nx).
Qed.

Lemma rep_length w l : list_rep w l -> (length (free_holes (bottom (holes (heap w))) l) <= size (nodes w))%nat.
Proof.
  intros Hrep. eapply lseg_length; [apply (lr_list _ _ Hrep)|]. eapply sorted_NoDup, free_holes_sorted, lr_segs, Hrep.
Qed.

Lemma used_total_bound l : Forall seg_ok l -> 0 <= used_total l <= total l.
Proof. induction 1 as [|[s|s] l [Hs _] Hl IH]; cbn in *; lia. Qed.

Lemma spec_alloc_used pos l layout p l' :
  spec_alloc pos l layout = Some (p, l') -> used_total l' = used_total l + layout_size layout.
Proof.
  revert pos p l'. induction l as [|x l IH]; intros pos p l'; cbn; [done|].
  destruct (match x with Free s => _ | Used _ => None end) as [[f b]|] eqn:Hp.
  - destruct x as [s|s]; [|done]. intros [= _ <-]. rewrite used_total_app. unfold pieces. rewrite !used_total_app.
    destruct (f =? 0), (b =? 0); cbn; lia.
  - destruct (spec_alloc _ l layout) as [[q r]|] eqn:Hr; [|done]. intros [= _ <-]. apply IH in Hr.
    destruct x; cbn; lia.
Qed.

(** A layout of a type of the client. *)
Definition valid_layout (layout : Layout) : Prop :=
  0 <= layout_size layout <= 2 ^ 63 /\ is_power_of_two (layout_align layout) = true.

Definition aligned_layout (layout : Layout) : Layout := MkLayout (aligned_size layout) (layout_align layout).

(** The abstract allocation: an error, or the block and the new segments. *)
Definition spec_heap_alloc (bot : Z) (l : list seg) (layout : Layout) : Result (Z * list seg) :=
  if 2 ^ 63 - layout_align layout <? aligned_size layout
  then Err (alloc_err (InvalidLayout (layout_size layout) (layout_align layout)))
  else match free_holes bot l with
       | [] => Err (alloc_err NoCursor)
       | _ => match spec_alloc bot l (aligned_layout layout) with
              | Some r => Ok r
              | None => Err (alloc_err NoNextCursor)
              end
       end.

Lemma heap_alloc_sim w l layout :
  heap_rep w l -> valid_layout layout ->
  exists w', bottom (holes (heap w')) = bottom (holes (heap w)) /\ top (holes (heap w')) = top (holes (heap w))
  /\ match spec_heap_alloc (bottom (holes (heap w))) l layout with
     | Ok (p, l') => Heap_alloc_first_fit layout w = (Ok p, w') /\ heap_rep w' l' /\ p mod layout_align layout = 0
     | Err e => Heap_alloc_first_fit layout w = (Err e, w') /\ w' = w
     | Panic => False
     end.
Proof.
  intros [Hrep Hused] [Hsize Hpow]. unfold spec_heap_alloc, Heap_alloc_first_fit, HoleList_alloc_first_fit.
  unfold sbind, slift, sget. rewrite align_layout_run, Hpow by done.
  destruct (Z.ltb_spec (2 ^ 63 - layout_align layout) (aligned_size layout)) as [Hbig|Hfit];
    destruct (Z.leb_spec (aligned_size layout) (2 ^ 63 - layout_align layout)) as [Hle|Hgt]; try lia; cbn [andb]; [by exists w|].
  pose proof (aligned_layout_ok layout Hpow Hle) as Hl. fold (aligned_layout layout) in *.
  pose proof (lr_list _ _ Hrep) as Hlist. unfold HoleList_cursor.
  destruct (free_holes (bottom (holes (heap w))) l) as [|[a t] rest] eqn:Hfree.
  { cbn in Hlist. rewrite Hlist. by exists w. }
  destruct Hlist as [-> _]. cbn [ok_or].
  destruct (alloc_loop_sim (aligned_layout layout) l [] (S (size (nodes w))) w a t rest) as (w' & Hsame & Hw');
    [done|done|cbn; by rewrite Z.add_0_r|..].
  { cbn. rewrite Z.add_0_r. pose proof (rep_length w l Hrep). lia. }
  cbn -[alloc_loop] in Hw'. rewrite Z.add_0_r in Hw'. destruct Hsame as (Eb & Et & Eu & _).
  destruct (spec_alloc (bottom (holes (heap w))) l (aligned_layout layout)) as [[p l']|] eqn:Hspec.
  - destruct Hw' as (Hrun & Hrep' & Hmod). unfold last_ptr in Hrun. cbn -[alloc_loop] in Hrun. rewrite Hrun. cbn. pose proof (spec_alloc_used _ _ _ _ _ Hspec) as Hu.
    cbn in Hu. pose proof (used_total_bound _ (lr_segs _ _ Hrep')) as Hb. destruct (lr_top _ _ Hrep') as [Ht Htop].
    destruct (lr_bottom _ _ Hrep') as [Hbot _].
    rewrite uadd_run by lia. eexists. split; [|split; [|split; [reflexivity|split; [|exact Hmod]]]]; [exact Eb|exact Et|].
    split; [|cbn; lia]. by destruct Hrep'.
  - destruct Hw' as [Hrun ->]. unfold last_ptr in Hrun. cbn -[alloc_loop] in Hrun. rewrite Hrun. by exists w.
Qed.

(** ** Merging neighbours *)

Lemma list_at_node w P a s Q e :
  list_at w (P ++ (a, s) :: Q) e ->
  list_at w P (Some a) /\ exists nx, nodes w !! a = Some (MkHole s nx) /\ lseg (nodes w) nx Q e.
Proof. intros (x & Hp & -> & nx & Ha & Hq)%lseg_app. split; [done|]. by exists nx. Qed.

Lemma read_node_run w a h : nodes w !! a = Some h -> read_hole (PNode a) w = (Ok h, w).
Proof. intros Ha. unfold read_hole. by rewrite Ha. Qed.

(** The end of the list reaches the top, or leaves room for a node. *)
Lemma check_merge_top_run w a s nx tp :
  nodes w !! a = Some (MkHole s nx) -> 0 <= a + s -> (a + s) mod 8 = 0 -> a + s = tp \/ a + s + 16 <= tp -> tp <= 2 ^ 63 ->
  check_merge_top a tp w = (Ok tt, w).
Proof.
  intros Ha H0 H8 Ht Htp. unfold check_merge_top, sbind. rewrite (read_node_run _ _ _ Ha). cbn [hole_size].
  rewrite wadd_run by lia. destruct (Z.ltb_spec (a + s) tp); [|done]. cbn [Hole_layout layout_align layout_size].
  unfold slift. rewrite align_up_run by (done || lia). assert (round_up (a + s) 8 = a + s) as -> by (by apply round_up_id).
  rewrite wadd_run by lia. by destruct (Z.ltb_spec tp (a + s + 16)); [lia|].
Qed.

Section Merge.
Context (w : HeapWorld) (P Q : list (Z * Z)) (a s b t lo hi : Z) (k : nat) (tp : Z).
Context (Hs : sorted_holes lo hi (P ++ (a, s) :: (b, t) :: Q)) (Hlo : 0 <= lo) (Hhi : hi <= 2 ^ 63).
Context (Hl : list_at w (P ++ (a, s) :: (b, t) :: Q) None).

Lemma sorted_app lo' hi' L M :
  sorted_holes lo' hi' (L ++ M) -> exists mid, sorted_holes lo' mid L /\ sorted_holes mid hi' M.
Proof.
  revert lo'. induction L as [|[x y] L IH]; intros lo'; cbn; [by intros ?; exists lo'|].
  intros (? & ? & (mid & ? & ?)%IH). by exists mid.
Qed.

Lemma merge_bounds : lo <= a /\ 16 <= s /\ a + s <= b /\ 16 <= t /\ b + t <= hi
  /\ (forall x y, (x, y) ∈ P -> x + 16 <= a) /\ (forall x y, (x, y) ∈ Q -> b + t <= x).
Proof.
  destruct (sorted_app _ _ _ _ Hs) as (mid & HP & HM). cbn in HM. destruct HM as (? & ? & ? & ? & HQ).
  pose proof (sorted_holes_le _ _ _ HP). pose proof (sorted_holes_le _ _ _ HQ). split_and!; [lia..| |].
  - intros x y Hin. apply (sorted_holes_elem _ _ _ _ _ HP) in Hin. lia.
  - intros x y Hin. apply (sorted_holes_elem _ _ _ _ _ HQ) in Hin. lia.
Qed.

Lemma merge_apart : a + s <> b -> merge_loop (S k) a tp w = merge_loop k b tp w.
Proof.
  intros Hne. destruct merge_bounds as (? & ? & ? & ? & ? & _). destruct (list_at_node _ _ _ _ _ _ Hl) as (_ & nx & Ha & -> & _).
  cbn [merge_loop]. unfold sbind at 1. rewrite (read_node_run _ _ _ Ha). cbn [hole_next hole_size]. rewrite wadd_run by lia.
  by destruct (Z.eqb_spec (a + s) b).
Qed.

Lemma merge_touch : a + s = b ->
  exists w', merge_loop (S k) a tp w = merge_loop k a tp w' /\ same_heap w w' /\ list_at w' (P ++ (a, s + t) :: Q) None.
Proof.
  intros Heq. destruct merge_bounds as (? & ? & ? & ? & ? & HP & HQ).
  destruct (list_at_node _ _ _ _ _ _ Hl) as (Hp & nx & Ha & -> & nx' & Hb & Hq).
  set (w1 := upd_next w (PNode b) None). set (w2 := upd_next w1 (PNode a) nx').
  assert (nodes w1 !! a = Some (MkHole s (Some b))) as Ha1 by (unfold w1; rewrite upd_next_nodes; [done|intros [= ?]; lia]).
  assert (nodes w2 !! a = Some (MkHole s nx')) as Ha2 by (unfold w2; cbn; rewrite lookup_alter_eq; unfold w1 in Ha1; cbn in Ha1; by rewrite Ha1).
  exists (set_nodes (<[a := MkHole (s + t) nx']> (nodes w2)) w2). split; [|split; [by repeat split|]].
  - cbn [merge_loop]. unfold sbind at 1. rewrite (read_node_run _ _ _ Ha). cbn [hole_next hole_size]. rewrite wadd_run by lia.
    destruct (Z.eqb_spec (a + s) b); [|done]. unfold sbind at 1. rewrite (read_node_run _ _ _ Hb).
    unfold sbind at 1. rewrite update_next_run by (by eexists). fold w1. unfold sbind at 1. cbn [hole_next hole_size].
    rewrite update_next_run by (by eexists). fold w2. unfold sbind at 1. rewrite (read_node_run _ _ _ Ha2). unfold sbind at 1, slift.
    cbn [hole_size]. rewrite uadd_run by lia. unfold sbind at 1, update_hole, sbind at 1. by rewrite (read_node_run _ _ _ Ha2).
  - assert (forall x, x <> a -> x <> b -> (<[a := MkHole (s + t) nx']> (nodes w2)) !! x = nodes w !! x) as Hx.
    { intros x Hxa Hxb. rewrite lookup_insert_ne by done. unfold w2. rewrite upd_next_nodes by congruence.
      unfold w1. by rewrite upd_next_nodes by congruence. }
    apply lseg_app. exists (Some a). split; [|split; [done|]].
    + eapply lseg_frame; [|exact Hp]. intros x y Hin. apply Hx; apply HP in Hin; lia.
    + exists nx'. split; [apply lookup_insert_eq|]. eapply lseg_frame; [|exact Hq]. intros x y Hin. apply Hx; apply HQ in Hin; lia.
Qed.

End Merge.

(** The holes behind a used segment lie apart. *)
Lemma starts_used_apart pos b y u rest :
  Forall seg_ok b -> starts_used b -> free_holes pos b = (y, u) :: rest -> pos + 16 <= y.
Proof.
  destruct b as [|[m|m] b]; [done|done|]. intros [[Hm _] Hb]%Forall_cons _ Hf. cbn in *.
  pose proof (free_holes_sorted (pos + m) b Hb) as Hs. rewrite Hf in Hs. destruct Hs as [? _]. lia.
Qed.

Lemma ends_used_apart pos a P x s :
  Forall seg_ok a -> ends_used a -> free_holes pos a = P ++ [(x, s)] -> x + s + 16 <= pos + total a.
Proof.
  destruct a as [|y a _] using rev_ind; [by destruct P|]. unfold ends_used. rewrite last_snoc, Forall_app, total_app, free_holes_app.
  destruct y as [m|m]; [done|]. intros [Ha [[Hm _] _]%Forall_cons] _ Hf. cbn in *. rewrite app_nil_r in Hf.
  pose proof (free_holes_sorted pos a Ha) as Hs. rewrite Hf in Hs. destruct (sorted_app _ _ _ _ Hs) as (mid & _ & HM).
  cbn in HM. lia.
Qed.

(** One more merge to the right. *)
Lemma merge_right w P pos n l2 u b lo :
  let hi := pos + n + total l2 in
  sorted_holes lo pos P -> 0 <= lo -> hi <= 2 ^ 63 -> 16 <= n -> (pos + n) mod 8 = 0 ->
  Forall seg_ok l2 -> starts_used b -> (l2 = b /\ u = 0) \/ l2 = Free u :: b ->
  list_at w (P ++ (pos, n) :: free_holes (pos + n) l2) None ->
  exists w', merge_loop 1 pos hi w = (Ok tt, w') /\ same_heap w w'
    /\ list_at w' (P ++ (pos, n + u) :: free_holes (pos + n + u) b) None.
Proof.
  intros hi HP Hlo Hhi Hn H8 Hl2 Hst Hcase Hl. pose proof (free_holes_sorted (pos + n) l2 Hl2) as Hs2.
  assert (sorted_holes lo hi (P ++ (pos, n) :: free_holes (pos + n) l2)) as Hs.
  { assert (forall lo, sorted_holes lo pos P -> sorted_holes lo hi (P ++ (pos, n) :: free_holes (pos + n) l2)) as H; [|by apply H].
    clear HP Hlo Hl. induction P as [|[x y] P IH]; intros lo'; cbn; [done|]. intros (? & ? & ?). auto. }
  pose proof (sorted_holes_le _ _ _ HP) as Hpos. pose proof (total_nonneg l2 Hl2) as Ht2.
  destruct Hcase as [[-> ->]| ->].
  - rewrite !Z.add_0_r. exists w. split; [|split; [apply same_heap_refl|done]].
    destruct (free_holes (pos + n) b) as [|[y t] rest] eqn:Hf.
    + destruct (list_at_node _ _ _ _ _ _ Hl) as (_ & nx & Ha & ->). cbn [merge_loop]. unfold sbind. rewrite (read_node_run _ _ _ Ha).
      cbn [hole_next]. apply (check_merge_top_run w pos n None); [done|lia|done| |done]. unfold hi.
      destruct b as [|[m|m] b]; cbn; [left; lia|done|]. apply Forall_cons in Hl2 as [[? _] Hb]. pose proof (total_nonneg b Hb). cbn in *. lia.
    + pose proof (starts_used_apart _ _ _ _ _ Hl2 Hst Hf). rewrite (merge_apart w P rest pos n y t lo hi 0 hi Hs Hlo Hhi Hl) by lia. done.
  - cbn in Hl, Hs. destruct (merge_touch w P _ pos n (pos + n) u lo hi 0 hi Hs Hlo Hhi Hl eq_refl) as (w' & Hrun & Hsame & Hl').
    exists w'. split; [by rewrite Hrun|]. split; [done|]. done.
Qed.

(** ** Deallocation *)

Section Dealloc.
Context (w : HeapWorld) (l1 l2 : list seg) (n : Z).
Context (Hrep : list_rep w (l1 ++ Used n :: l2)).

Let bot : Z := bottom (holes (heap w)).
Let A : Z := bot + total l1.
Let H1 : list (Z * Z) := free_holes bot l1.
Let H2 : list (Z * Z) := free_holes (A + n) l2.

Lemma dealloc_segs : Forall seg_ok l1 /\ 16 <= n /\ n mod 8 = 0 /\ Forall seg_ok l2.
Proof.
  pose proof (lr_segs _ _ Hrep) as Hs. apply Forall_app in Hs as [? [[? ?] ?]%Forall_cons]. done.
Qed.

Lemma dealloc_bounds :
  0 < bot <= A /\ A mod 8 = 0 /\ top (holes (heap w)) = A + n + total l2 /\ A + n + total l2 <= 2 ^ 63
  /\ 0 <= total l2 /\ (l1 = [] \/ bot + 16 <= A).
Proof.
  destruct dealloc_segs as (Ha & Hn & _ & Hb). destruct (lr_bottom _ _ Hrep) as [Hbot Hb8].
  destruct (lr_top _ _ Hrep) as [Ht Htop]. rewrite total_app in Ht. cbn in Ht. fold bot in Hbot, Hb8, Ht.
  pose proof (total_nonneg _ Ha). pose proof (total_nonneg _ Hb). pose proof (total_mod _ Ha) as Hm.
  unfold A. split_and!; [lia|lia|by rewrite Z.add_mod, Hb8, Hm by lia|lia|lia|lia|].
  destruct l1 as [|x l]; [by left|right]. apply Forall_cons in Ha as [[? _] Hl]. pose proof (total_nonneg _ Hl). cbn. lia.
Qed.

Lemma dealloc_sorted : sorted_holes bot A H1 /\ sorted_holes (A + n) (A + n + total l2) H2.
Proof. destruct dealloc_segs as (Ha & _ & _ & Hb). split; by apply free_holes_sorted. Qed.

(** The freed block holds a node, the list is as before. *)
Record ready w' : Prop := {
  rd_same : same_heap w w';
  rd_list : list_at w' (H1 ++ H2) None;
  rd_node : nodes w' !! A = Some (MkHole n None)
}.

Lemma ready_write w0 : same_heap w w0 -> list_at w0 (H1 ++ H2) None -> ready (written w0 A (MkHole n None)).
Proof.
  intros Hsame (x & Ha & Hb)%lseg_app. destruct dealloc_sorted as [Hs1 Hs2]. destruct dealloc_segs as (_ & Hn & _).
  split; [eauto with kernel| |apply written_self]. apply lseg_app. exists x. split.
  - eapply lseg_bounds; [reflexivity|exact Hs1|by right|exact Ha].
  - eapply lseg_bounds; [reflexivity|exact Hs2|left; lia|exact Hb].
Qed.

Lemma ready_make : ready (written w A (MkHole n None)).
Proof.
  apply ready_write; [apply same_heap_refl|]. pose proof (lr_list _ _ Hrep) as Hl. rewrite free_holes_app in Hl. exact Hl.
Qed.

Lemma check_merge_bottom_run w' : ready w' -> exists w'', check_merge_bottom A bot w' = (Ok A, w'') /\ ready w''.
Proof.
  intros Hr. pose proof Hr as [Hsame Hl Hnode]. destruct dealloc_bounds as (Hb & _ & _ & Ht & ? & Hl1). destruct dealloc_segs as (_ & Hn & _).
  unfold check_merge_bottom. cbn [Hole_layout layout_size]. rewrite wadd_run by lia.
  destruct (Z.ltb_spec A (bot + 16)) as [Hlt|_]; [|by exists w'].
  destruct Hl1 as [Hnil|?]; [|lia]. assert (A = bot) as HA by (unfold A; rewrite Hnil; cbn; lia).
  unfold sbind, slift. rewrite usub_run by lia. rewrite (read_node_run _ _ _ Hnode). cbn [hole_size]. rewrite uadd_run by lia.
  replace (n + (A - bot)) with n by lia. rewrite <- HA. unfold make_hole, sbind, write_hole, smodify.
  eexists. split; [reflexivity|]. by apply (ready_write w').
Qed.

(** The node is in the list. *)
Definition inserted w' : Prop := same_heap w w' /\ list_at w' (H1 ++ (A, n) :: H2) None.

(** [before.next = A], [A.next] = what followed. *)
Lemma link_node w' x :
  ready w' -> list_at w' H1 x -> lseg (nodes w') x H2 None ->
  let w1 := upd_next w' (last_ptr H1) (Some A) in
  update_hole (last_ptr H1) (with_next (Some A)) w' = (Ok tt, w1)
  /\ update_hole (PNode A) (with_next x) w1 = (Ok tt, upd_next w1 (PNode A) x)
  /\ inserted (upd_next w1 (PNode A) x).
Proof.
  intros [Hsame _ Hnode] Ha Hb w1. destruct dealloc_sorted as [Hs1 Hs2]. destruct dealloc_segs as (_ & Hn & _).
  assert (forall a, A <= a -> last_ptr H1 <> PNode a) as Hp.
  { intros a Hle Hp. apply last_ptr_elem, list_elem_of_fmap in Hp as ((b & t) & -> & Hin).
    apply (sorted_holes_elem _ _ _ _ _ Hs1) in Hin. cbn in *. lia. }
  assert (nodes w1 !! A = Some (MkHole n None)) as HA by (unfold w1; rewrite upd_next_nodes; [done|apply Hp; lia]).
  split; [by eapply update_next_run, last_ptr_readable|]. split; [apply update_next_run; by eexists|].
  split; [unfold w1; eauto with kernel|]. apply lseg_app. exists (Some A). split; [|split; [done|]].
  - eapply lseg_frame; [|by eapply (list_at_upd w' H1 x (Some A)); [eapply sorted_NoDup|]].
    intros a t Hin. apply upd_next_nodes. intros [= <-]. apply (sorted_holes_elem _ _ _ _ _ Hs1) in Hin. lia.
  - exists x. split; [cbn; by rewrite lookup_alter_eq, HA|]. eapply lseg_frame; [|exact Hb]. intros a t Hin.
    apply (sorted_holes_elem _ _ _ _ _ Hs2) in Hin. rewrite upd_next_nodes by (intros [= <-]; lia).
    apply upd_next_nodes, Hp. lia.
Qed.

Lemma ready_split w' : ready w' -> exists x, list_at w' H1 x /\ lseg (nodes w') x H2 None
  /\ x = match H2 with (y, _) :: _ => Some y | [] => None end.
Proof.
  intros Hr. pose proof (rd_list _ Hr) as (x & Ha & Hb)%lseg_app. exists x. split; [done|]. split; [done|].
  destruct H2 as [|[y t] r]; [done|]. by destruct Hb as [-> _].
Qed.

(** In front of all holes. *)
Lemma try_insert_back_run w' y t rest :
  ready w' -> H1 = [] -> H2 = (y, t) :: rest ->
  exists w'', try_insert_back (MkCursor PFirst y (top (holes (heap w)))) A bot w'
    = (Ok (inl (MkCursor PFirst A (top (holes (heap w))))), w'') /\ inserted w''.
Proof.
  intros Hr Hnil Hcons. destruct dealloc_bounds as (Hb & _ & _ & Ht & Ht2 & _). destruct dealloc_sorted as [_ Hs2].
  destruct dealloc_segs as (_ & Hn & _). rewrite Hcons in Hs2. destruct Hs2 as [Hy _].
  unfold try_insert_back. cbn [cur_hole cur_prev cur_top]. destruct (Z.ltb_spec A y); [|lia].
  destruct (check_merge_bottom_run w' Hr) as (w1 & R1 & Hr1).
  destruct (ready_split w1 Hr1) as (x & Ha & Hc & Hx). rewrite Hcons in Hx.
  destruct (link_node w1 x Hr1 Ha Hc) as (R2 & R3 & Hi). rewrite Hnil in R2, R3, Hi. cbn [last_ptr last] in R2, R3, Hi.
  unfold sbind. rewrite (read_node_run _ _ _ (rd_node _ Hr)). cbn [hole_size]. rewrite wadd_run by lia.
  destruct (Z.leb_spec (A + n) y); [|lia]. unfold sassert, sret, read_hole at 1. destruct (rd_same _ Hr) as (_ & _ & _ & ->).
  rewrite (lr_first _ _ Hrep). cbn [Z.eqb]. rewrite R1, R2, <- Hx, R3. by eexists.
Qed.

(** Behind the last hole of a lower address. *)
Lemma insert_loop_run Q w' P x t fuel prv :
  ready w' -> H1 = P ++ (x, t) :: Q -> (length Q < fuel)%nat ->
  exists c w'', insert_loop fuel (MkCursor prv x (top (holes (heap w)))) A w' = (Ok c, w'')
    /\ PNode (cur_hole c) = last_ptr H1 /\ cur_top c = top (holes (heap w)) /\ inserted w''.
Proof.
  revert P x t fuel prv. induction Q as [|[x' t'] Q IH]; intros P x t fuel prv Hr HH Hfuel;
    (destruct fuel as [|fuel]; [lia|]); cbn [insert_loop].
  - destruct dealloc_bounds as (Hb & _ & _ & Ht & Ht2 & _). destruct dealloc_sorted as [Hs1 Hs2]. destruct dealloc_segs as (_ & Hn & _).
    destruct (ready_split w' Hr) as (nx & Ha & Hc & Hx). pose proof Ha as Ha'. rewrite HH in Ha'.
    destruct (list_at_node _ _ _ _ _ _ Ha') as (_ & nx' & Hnode & Hnx'). cbn in Hnx'. subst nx'.
    rewrite HH in Hs1. destruct (sorted_app _ _ _ _ Hs1) as (mid & HP & Hxm). cbn in Hxm. pose proof (sorted_holes_le _ _ _ HP).
    assert (last_ptr H1 = PNode x) as Hlast by (rewrite HH; unfold last_ptr; by rewrite last_snoc).
    destruct (link_node w' nx Hr Ha Hc) as (R2 & R3 & Hi). rewrite Hlast in R2, R3, Hi.
    assert (try_insert_after (MkCursor prv x (top (holes (heap w)))) A w' = (Ok tt, upd_next (upd_next w' (PNode x) (Some A)) (PNode A) nx)) as Hrun.
    { unfold try_insert_after. unfold sbind at 1. rewrite (read_node_run _ _ _ (rd_node _ Hr)). unfold sbind at 1. cbn [cur_hole].
      rewrite (read_node_run _ _ _ Hnode). cbn [hole_next hole_size].
      assert (match nx with
              | Some next => if A <? next then sassert (wrapping_add 64 A n <=? next) else serr (alloc_err InvalidNode)
              | None => sret tt end = sret (S := HeapWorld) tt) as ->.
      { rewrite wadd_run by lia. subst nx. destruct H2 as [|[y u] r]; [done|]. destruct Hs2 as [Hy _].
        destruct (Z.ltb_spec A y), (Z.leb_spec (A + n) y); try lia. done. }
      unfold sbind at 1. cbn [sret]. destruct (Z.ltb_spec x A); [|lia]. rewrite wadd_run by lia.
      destruct (Z.leb_spec (x + t) A); [|lia]. unfold sassert, sbind, sret. by rewrite R2, R3. }
    rewrite Hrun. eexists _, _. split; [reflexivity|]. cbn. by rewrite Hlast.
  - pose proof (rd_list _ Hr) as Hl. rewrite HH, <- app_assoc in Hl. cbn in Hl.
    destruct (list_at_node _ _ _ _ _ _ Hl) as (_ & nx & Hnode & -> & _).
    destruct dealloc_sorted as [Hs1 _]. assert (x' + 16 <= A) as Hx'.
    { apply (sorted_holes_elem bot A H1 x' t'); [done|]. rewrite HH. apply elem_of_app. right. right. by left. }
    assert (try_insert_after (MkCursor prv x (top (holes (heap w)))) A w' = (Err (alloc_err InvalidNode), w')) as ->.
    { unfold try_insert_after, sbind. rewrite (read_node_run _ _ _ (rd_node _ Hr)). cbn [cur_hole].
      rewrite (read_node_run _ _ _ Hnode). cbn [hole_next]. destruct (Z.ltb_spec A x'); [lia|done]. }
    unfold Cursor_next, sbind. cbn [cur_hole cur_top]. rewrite (read_node_run _ _ _ Hnode). cbn [hole_next sret].
    apply (IH (P ++ [(x, t)]) x' t'); [done|by rewrite <- app_assoc|cbn in Hfuel; lia].
Qed.

Lemma HoleList_cursor_run w' : ready w' ->
  HoleList_cursor (holes (heap w'))
  = match H1 ++ H2 with (y, _) :: _ => Some (MkCursor PFirst y (top (holes (heap w)))) | [] => None end.
Proof.
  intros [(_ & Et & _) Hl _]. unfold HoleList_cursor. rewrite Et. unfold list_at in Hl.
  destruct (H1 ++ H2) as [|[y t] r]; cbn in Hl; [by rewrite Hl|]. by destruct Hl as [-> _].
Qed.

(** Inserting the node: what is left to merge is the count of [try_merge_next_n]. *)
Lemma dealloc_insert :
  H1 ++ H2 <> [] ->
  exists w' c k, list_dealloc A n w = try_merge_next_n c k w' /\ inserted w' /\ cur_top c = top (holes (heap w))
    /\ ((H1 = [] /\ cur_hole c = A /\ k = 1%nat) \/ (PNode (cur_hole c) = last_ptr H1 /\ k = 2%nat)).
Proof.
  intros Hne. pose proof ready_make as Hr. set (w1 := written w A (MkHole n None)) in *.
  pose proof (HoleList_cursor_run w1 Hr) as Hcur. destruct (rd_same _ Hr) as (Eb & _).
  unfold list_dealloc. unfold sbind at 1, make_hole, sbind at 1, write_hole, smodify, sret at 1. fold (written w A (MkHole n None)). fold w1.
  unfold sbind at 1, sget. rewrite Hcur, Eb. fold bot. destruct (decide (H1 = [])) as [Hnil|Hcons].
  - rewrite Hnil in Hne, Hcur |- *. cbn [app] in Hne, Hcur |- *. destruct H2 as [|[y t] rest] eqn:HH2; [done|].
    destruct (try_insert_back_run w1 y t rest Hr Hnil HH2) as (w2 & Hrun & Hi).
    exists w2, (MkCursor PFirst A (top (holes (heap w)))), 1%nat. split; [|split; [done|split; [done|by left]]].
    unfold sbind at 1. rewrite Hrun. done.
  - destruct H1 as [|[y t] Q] eqn:HH1; [done|]. cbn [app].
    destruct dealloc_sorted as [Hs1 _]. fold H1 in Hs1. rewrite HH1 in Hs1. pose proof (sorted_holes_elem _ _ _ y t Hs1 ltac:(by left)) as [_ Hy].
    destruct (insert_loop_run Q w1 [] y t (S (size (nodes w1))) PFirst Hr HH1) as (c & w2 & Hrun & Hlast & Htop & Hi).
    { pose proof (rd_list _ Hr) as (x & Ha & _)%lseg_app. fold H1 in Ha. rewrite HH1 in Ha. apply lseg_length in Ha; [cbn [length] in Ha; lia|].
      by eapply sorted_NoDup. }
    exists w2, c, 2%nat. split; [|split; [done|split; [done|right; split; [|done]; by rewrite Hlast, <- HH1]]]. unfold sbind at 1, try_insert_back. cbn [cur_hole].
    destruct (Z.ltb_spec A y); [lia|]. unfold sret at 1, sbind. rewrite Hrun. done.
Qed.

(** A full heap. *)
Lemma dealloc_full : H1 ++ H2 = [] -> exists w', list_dealloc A n w = (Ok tt, w') /\ inserted w'.
Proof.
  intros Hnil. pose proof ready_make as Hr. set (w1 := written w A (MkHole n None)) in *.
  pose proof (HoleList_cursor_run w1 Hr) as Hcur. rewrite Hnil in Hcur. destruct (rd_same _ Hr) as (Eb & Et & _).
  destruct (check_merge_bottom_run w1 Hr) as (w2 & R2 & Hr2). pose proof Hr2 as [Hsame _ Hnode].
  destruct dealloc_bounds as (Hb & H8 & Ht & Hhi & Ht2 & _). destruct dealloc_segs as (_ & Hn & Hn8 & Hl2).
  assert (total l2 = 0 \/ 16 <= total l2) as Htop.
  { clear -Hl2. destruct Hl2 as [|x l [? _] Hl]; [by left|right]. cbn. pose proof (total_nonneg l Hl). lia. }
  unfold list_dealloc. unfold sbind at 1, make_hole, sbind at 1, write_hole, smodify, sret at 1. fold (written w A (MkHole n None)). fold w1.
  unfold sbind at 1, sget. rewrite Hcur, Eb, Et. fold bot. unfold sbind at 1. rewrite R2. unfold sbind at 1.
  rewrite (check_merge_top_run w2 A n None (top (holes (heap w)))); [|done|lia| |lia|lia].
  - rewrite update_next_run by done. eexists. split; [reflexivity|].
    split; [eauto with kernel|]. apply app_nil in Hnil as [-> ->]. split; [done|]. by exists None.
  - by rewrite Z.add_mod, H8, Hn8 by lia.
Qed.

End Dealloc.

Lemma coalesce_mid l1 l2 a t n u b :
  ends_used a -> coalesced a -> coalesced l1 -> starts_used b -> coalesced b ->
  (l1 = a /\ t = 0) \/ l1 = a ++ [Free t] -> (l2 = b /\ u = 0) \/ l2 = Free u :: b ->
  coalesce (l1 ++ Free n :: l2) = a ++ Free (t + n + u) :: b.
Proof.
  intros He Ha Hl1 Hs Hb H1 H2. assert (coalesce (Free n :: l2) = Free (n + u) :: b) as Hright.
  { pose proof (coalesce_id b Hb) as Hid. destruct H2 as [[-> ->]| ->]; cbn; rewrite Hid.
    - rewrite Z.add_0_r. by destruct b as [|[m|m] b].
    - by destruct b as [|[m|m] b]. }
  destruct H1 as [[-> ->]| ->].
  - by rewrite coalesce_app_used, Hright by done.
  - rewrite <- app_assoc. rewrite coalesce_app_used by done. cbn [app coalesce] in *. rewrite Hright. do 3 f_equal. lia.
Qed.

Lemma merged_wf l1 l2 a t n u b :
  Forall seg_ok (l1 ++ Used n :: l2) -> ends_used a -> coalesced a -> starts_used b -> coalesced b ->
  (l1 = a /\ t = 0) \/ l1 = a ++ [Free t] -> (l2 = b /\ u = 0) \/ l2 = Free u :: b ->
  Forall seg_ok (a ++ Free (t + n + u) :: b) /\ coalesced (a ++ Free (t + n + u) :: b)
  /\ total (a ++ Free (t + n + u) :: b) = total (l1 ++ Used n :: l2).
Proof.
  intros Hs He Ha Hst Hb H1 H2. apply Forall_app in Hs as [Hs1 [[Hn Hn8] Hs2]%Forall_cons]. cbn in Hn, Hn8.
  assert (Forall seg_ok a /\ (t = 0 \/ 16 <= t) /\ t mod 8 = 0 /\ total l1 = total a + t) as (Hsa & Ht & Ht8 & Hta).
  { destruct H1 as [[-> ->]| ->]; [split_and!; [done|lia|done|lia]|]. apply Forall_app in Hs1 as [? [[? ?] _]%Forall_cons].
    rewrite total_app. cbn in *. split_and!; [done|lia|done|lia]. }
  assert (Forall seg_ok b /\ (u = 0 \/ 16 <= u) /\ u mod 8 = 0 /\ total l2 = u + total b) as (Hsb & Hu & Hu8 & Htb).
  { destruct H2 as [[-> ->]| ->]; [split_and!; [done|lia|done|lia]|]. apply Forall_cons in Hs2 as [[? ?] ?].
    cbn in *. split_and!; [done|lia|done|lia]. }
  split_and!.
  - apply Forall_app. split; [done|]. constructor; [|done]. split; cbn; [lia|]. Z.div_mod_to_equations. lia.
  - apply coalesced_join; [done| |by left]. by destruct b as [|[m|m] b].
  - rewrite !total_app. cbn. lia.
Qed.

Lemma last_ptr_node l x : last_ptr l = PNode x -> exists P s, l = P ++ [(x, s)].
Proof.
  unfold last_ptr. destruct l as [|[y s] P _] using rev_ind; [done|]. rewrite last_snoc. intros [= ->]. by exists P, s.
Qed.

Lemma sorted_join lo mid hi L M : sorted_holes lo mid L -> sorted_holes mid hi M -> sorted_holes lo hi (L ++ M).
Proof.
  revert lo. induction L as [|[x y] L IH]; intros lo; cbn.
  - intros. by eapply sorted_holes_weaken.
  - intros (? & ? & ?) ?. auto.
Qed.

Section Rejoin.
Context (w : HeapWorld) (l1 l2 : list seg) (n : Z) (a b : list seg) (t u : Z).
Context (Hrep : list_rep w (l1 ++ Used n :: l2)).
Context (Hst : starts_used b) (He : ends_used a).
Context (H1 : (l1 = a /\ t = 0) \/ l1 = a ++ [Free t]) (H2 : (l2 = b /\ u = 0) \/ l2 = Free u :: b).

Let bot : Z := bottom (holes (heap w)).
Let A : Z := bot + total l1.

(** The merges that [try_merge_next_n] still has to make lead to the final list. *)
Lemma merge_inserted w1 c k :
  inserted w l1 l2 n w1 -> cur_top c = top (holes (heap w)) ->
  (free_holes bot l1 = [] /\ cur_hole c = A /\ k = 1%nat) \/ (PNode (cur_hole c) = last_ptr (free_holes bot l1) /\ k = 2%nat) ->
  exists w', try_merge_next_n c k w1 = (Ok tt, w') /\ same_heap w w'
    /\ list_at w' (free_holes bot a ++ (A - t, t + n + u) :: free_holes (A + n + u) b) None.
Proof.
  intros [Hsame Hl] Htop Hcase. destruct (dealloc_bounds w l1 l2 n Hrep) as (Hb & H8 & Ht & Hhi & Ht2 & _).
  destruct (dealloc_segs w l1 l2 n Hrep) as (Hs1 & Hn & Hn8 & Hs2). fold bot A in Hb, H8, Ht, Hhi, Hl.
  destruct (dealloc_sorted w l1 l2 n Hrep) as [So1 So2]. fold bot A in So1, So2.
  assert ((A + n) mod 8 = 0) as HAn by (by rewrite Z.add_mod, H8, Hn8 by lia).
  unfold try_merge_next_n. rewrite Htop, Ht. destruct H1 as [[-> ->]| ->].
  - rewrite Z.sub_0_r, Z.add_0_l. destruct Hcase as [(Hnil & -> & ->)|[Hlast ->]].
    + destruct (merge_right w1 (free_holes bot a) A n l2 u b bot) as (w' & Hrun & Hsame' & Hl'); [done|lia|done..|].
      exists w'. split; [done|]. split; [eauto with kernel|done].
    + symmetry in Hlast. destruct (last_ptr_node _ _ Hlast) as (P & s & HP). pose proof (ends_used_apart _ _ _ _ _ Hs1 He HP) as Hap.
      rewrite HP, <- app_assoc in Hl. cbn in Hl. rewrite (merge_apart w1 P (free_holes (A + n) l2) (cur_hole c) s A n bot (A + n + total l2));
        [|rewrite HP in So1; destruct (sorted_app _ _ _ _ So1) as (mid & ? & ?)| | |done|lia].
      * destruct (merge_right w1 (free_holes bot a) A n l2 u b bot) as (w' & Hrun & Hsame' & Hl'); [done|lia|done..| |].
        { rewrite HP, <- app_assoc. exact Hl. }
        exists w'. split; [done|]. split; [eauto with kernel|done].
      * eapply sorted_join; [done|]. cbn in *. split_and!; [lia|lia|lia|lia|done].
      * lia.
      * lia.
  - apply Forall_app in Hs1 as [Hsa [[Ht16 Ht8] _]%Forall_cons]. cbn in Ht16, Ht8.
    assert (A = bot + total a + t) as HA by (unfold A; rewrite total_app; cbn; lia).
    assert (bot + total a = A - t) as HA' by lia. rewrite free_holes_app in Hcase, Hl, So1. cbn in Hcase, Hl, So1.
    rewrite HA' in Hcase, Hl, So1. destruct (sorted_app _ _ _ _ So1) as (mid & Sa & Sb).
    assert (sorted_holes bot (A - t) (free_holes bot a)) as Sa' by (rewrite <- HA'; by apply free_holes_sorted).
    destruct Hcase as [(Hnil & _)|[Hlast ->]]; [by destruct (free_holes bot a)|].
    unfold last_ptr in Hlast. rewrite last_snoc in Hlast. injection Hlast as ->. rewrite <- app_assoc in Hl. cbn in Hl.
    destruct (merge_touch w1 (free_holes bot a) (free_holes (A + n) l2) (A - t) t A n bot (A + n + total l2) 1 (A + n + total l2))
      as (w2 & Hrun & Hsame2 & Hl2); [|lia|lia|done|lia|].
    { eapply sorted_join; [exact Sa'|]. cbn. split_and!; [lia|lia|lia|lia|done]. }
    rewrite Hrun. destruct (merge_right w2 (free_holes bot a) (A - t) (t + n) l2 u b bot) as (w' & Hrun' & Hsame' & Hl');
      [done|lia|lia|lia| |done|done|done| |].
    { by replace (A - t + (t + n)) with (A + n) by lia. }
    { by replace (A - t + (t + n)) with (A + n) by lia. }
    replace (A - t + (t + n)) with (A + n) in Hrun', Hl' by lia. exists w'. split; [done|]. split; [eauto with kernel|done].
Qed.

End Rejoin.

(** Freeing a used segment: it becomes free and joins its free neighbours. *)
Lemma list_dealloc_sim w l1 l2 n :
  list_rep w (l1 ++ Used n :: l2) ->
  exists w', list_dealloc (bottom (holes (heap w)) + total l1) n w = (Ok tt, w') /\ same_heap w w'
    /\ list_rep w' (coalesce (l1 ++ Free n :: l2)).
Proof.
  intros Hrep. destruct (coalesced_app_inv _ _ (lr_coalesced _ _ Hrep)) as [Hc1 Hc2]. cbn in Hc2.
  destruct (split_tail l1 Hc1) as (a & t & He & Ha & H1). destruct (split_head l2 Hc2) as (u & b & Hst & Hb & H2).
  rewrite (coalesce_mid l1 l2 a t n u b) by done.
  destruct (merged_wf l1 l2 a t n u b (lr_segs _ _ Hrep) He Ha Hst Hb H1 H2) as (W1 & W2 & W3).
  set (bot := bottom (holes (heap w))). set (A := bot + total l1).
  assert (exists w', list_dealloc A n w = (Ok tt, w') /\ same_heap w w'
    /\ list_at w' (free_holes bot a ++ (A - t, t + n + u) :: free_holes (A + n + u) b) None) as (w' & Hrun & Hsame & Hl).
  { destruct (decide (free_holes bot l1 ++ free_holes (A + n) l2 = [])) as [Hnil|Hne].
    - destruct (dealloc_full w l1 l2 n Hrep Hnil) as (w' & Hrun & Hsame & Hl). exists w'. split; [done|]. split; [done|].
      fold bot A in Hl. apply app_nil in Hnil as [N1 N2].
      destruct H1 as [[-> ->]| ->]; [|rewrite free_holes_app in N1; by destruct (free_holes bot a)].
      destruct H2 as [[-> ->]| ->]; [|done]. by rewrite Z.sub_0_r, !Z.add_0_r.
    - destruct (dealloc_insert w l1 l2 n Hrep Hne) as (w1 & c & k & Hrun & Hi & Htop & Hcase).
      destruct (merge_inserted w l1 l2 n a b t u Hrep Hst He H1 H2 w1 c k Hi Htop Hcase) as (w' & Hrun' & Hrest).
      exists w'. fold bot A in Hrun. by rewrite Hrun. }
  exists w'. split; [done|]. split; [done|]. apply (same_heap_rep w w' (l1 ++ Used n :: l2)); [done..|].
  assert (total l1 = total a + t) as Hta by (destruct H1 as [[-> ->]| ->]; rewrite ?total_app; cbn; lia).
  fold bot. rewrite free_holes_app. cbn. replace (bot + total a) with (A - t) by (unfold A; lia).
  by replace (A - t + (t + n + u)) with (A + n + u) by lia.
Qed.
