(* ===== verification/HeapRefine.v ===== *)
(** * The kernel heap against its contract ([kernel/src/mem/allocator.rs])

    [Heap] refines the abstract heap of [HeapSegs] under every sequence of
    allocations, deallocations and writes to the allocated blocks; the properties
    of the component and their witnesses. *)
From Stdlib Require Import ZArith Lia.
From stdpp Require Import base gmap list.
From S2P Require Import Prelude KError Bitmap Heap HeapSegs HeapList.

#[local] Open Scope list_scope.
#[local] Open Scope Z_scope.

Implicit Types w : HeapWorld.

(** ** Used blocks *)

Lemma used_blocks_app pos l1 l2 :
  used_blocks pos (l1 ++ l2) = used_blocks pos l1 ++ used_blocks (pos + total l1) l2.
Proof.
  revert pos. induction l1 as [|[s|s] l1 IH]; intros pos; cbn; [f_equal; lia| |]; rewrite IH, Z.add_assoc; done.
Qed.

Lemma used_blocks_elem pos l p n :
  (p, n) ∈ used_blocks pos l <-> exists l1 l2, l = l1 ++ Used n :: l2 /\ p = pos + total l1.
Proof.
  split.
  - revert pos. induction l as [|[s|s] l IH]; intros pos; cbn; [by intros ?%not_elem_of_nil| |].
    + intros (l1 & l2 & -> & ->)%IH. exists (Free s :: l1), l2. cbn. split; [done|lia].
    + intros [[= -> ->]|(l1 & l2 & -> & ->)%IH]%elem_of_cons; [exists [], l; cbn; split; [done|lia]|].
      exists (Used s :: l1), l2. cbn. split; [done|lia].
  - intros (l1 & l2 & -> & ->). rewrite used_blocks_app. apply elem_of_app. right. by left.
Qed.

Lemma used_blocks_sorted pos l : Forall seg_ok l -> sorted_holes pos (pos + total l) (used_blocks pos l).
Proof.
  intros Hl. revert pos. induction Hl as [|[s|s] l [Hx _] Hl IH]; intros pos; cbn in *; [lia| |].
  - rewrite Z.add_assoc. eapply sorted_holes_weaken; [|apply IH]. lia.
  - split; [lia|]. split; [done|]. rewrite Z.add_assoc. apply IH.
Qed.

Lemma coalesce_total l : total (coalesce l) = total l.
Proof.
  induction l as [|[s|s] l IH]; cbn; [done| |lia]. destruct (coalesce l) as [|[t|t] r]; cbn in *; lia.
Qed.

Lemma coalesce_used_blocks pos l : used_blocks pos (coalesce l) = used_blocks pos l.
Proof.
  revert pos. induction l as [|[s|s] l IH]; intros pos; cbn; [done| |by rewrite IH].
  rewrite <- IH. destruct (coalesce l) as [|[t|t] r]; cbn; [done| |done]. by rewrite Z.add_assoc.
Qed.

Lemma used_total_blocks pos l : used_total l = foldr (fun b acc => b.2 + acc) 0 (used_blocks pos l).
Proof. revert pos. induction l as [|[s|s] l IH]; intros pos; cbn; [done|apply IH|]. by rewrite (IH (pos + s)). Qed.

Lemma used_total_coalesce l : used_total (coalesce l) = used_total l.
Proof. by rewrite !(used_total_blocks 0), coalesce_used_blocks. Qed.

Lemma mark_free_at pos l1 n l2 :
  Forall seg_ok l1 -> mark_free pos (pos + total l1) (l1 ++ Used n :: l2) = l1 ++ Free n :: l2.
Proof.
  intros Hl. revert pos. induction Hl as [|x l1 [Hx _] Hl IH]; intros pos; cbn.
  - by rewrite Z.add_0_r, Z.eqb_refl.
  - pose proof (total_nonneg l1 Hl). destruct (Z.eqb_spec pos (pos + (seg_size x + total l1))); [lia|].
    f_equal. rewrite Z.add_assoc. apply IH.
Qed.

(** The first fit: where the block lies and what is left. *)
Lemma spec_alloc_spec pos l layout p l' :
  spec_alloc pos l layout = Some (p, l') ->
  exists a s b f k, l = a ++ Free s :: b /\ seg_plan (pos + total a) s layout = Some (f, k)
    /\ p = pos + total a + f /\ l' = a ++ pieces f (layout_size layout) k ++ b
    /\ forall q t, (q, t) ∈ free_holes pos a -> seg_plan q t layout = None.
Proof.
  revert pos p l'. induction l as [|x l IH]; intros pos p l'; cbn; [done|].
  destruct (match x with Free s => _ | Used _ => None end) as [[f k]|] eqn:Hp.
  - destruct x as [s|s]; [|done]. intros [= <- <-]. exists [], s, l, f, k. cbn. rewrite Z.add_0_r.
    split_and!; [done..|]. by intros q t ?%not_elem_of_nil.
  - destruct (spec_alloc _ l layout) as [[q r]|] eqn:Hr; [|done]. intros [= <- <-].
    destruct (IH _ _ _ Hr) as (a & s & b & f & k & -> & Hplan & -> & -> & Hfirst). exists (x :: a), s, b, f, k. cbn.
    rewrite Z.add_assoc. split_and!; [done..|]. intros q t Hin. destruct x as [m|m]; cbn in Hin.
    + apply elem_of_cons in Hin as [[= -> ->]|Hin]; [done|by apply Hfirst].
    + by apply Hfirst.
Qed.

Lemma spec_alloc_None pos l layout :
  spec_alloc pos l layout = None <-> forall q t, (q, t) ∈ free_holes pos l -> seg_plan q t layout = None.
Proof.
  revert pos. induction l as [|[s|s] l IH]; intros pos; cbn.
  - split; [|done]. by intros _ q t ?%not_elem_of_nil.
  - destruct (seg_plan pos s layout) as [[f k]|] eqn:Hp.
    + split; [done|]. intros Hall. rewrite Hall in Hp by (by left). done.
    + specialize (IH (pos + s)). destruct (spec_alloc (pos + s) l layout) as [[q r]|].
      * split; [done|]. intros Hall. exfalso. assert (Some (q, r) = None) as [=]. apply IH. intros q' t Hin. apply Hall. by right.
      * split; [|done]. intros _ q t [[= -> ->]|Hin]%elem_of_cons; [done|]. by apply IH.
  - rewrite <- IH. by destruct (spec_alloc (pos + s) l layout) as [[q r]|].
Qed.

Lemma pieces_blocks pos f n k : used_blocks pos (pieces f n k) = [(pos + f, n)].
Proof.
  unfold pieces. rewrite !used_blocks_app.
  destruct (Z.eqb_spec f 0) as [->|], (Z.eqb_spec k 0) as [->|]; cbn; do 2 f_equal; lia.
Qed.

Lemma spec_alloc_blocks w l layout p l' :
  list_rep w l -> layout_ok layout -> spec_alloc (bottom (holes (heap w))) l layout = Some (p, l') ->
  exists u1 u2, used_blocks (bottom (holes (heap w))) l = u1 ++ u2
    /\ used_blocks (bottom (holes (heap w))) l' = u1 ++ (p, layout_size layout) :: u2.
Proof.
  intros Hrep Hl Hspec. destruct (spec_alloc_spec _ _ _ _ _ Hspec) as (a & s & b & f & k & -> & Hplan & -> & -> & _).
  destruct (seg_plan_spec w a b s Hrep layout f k Hl Hplan) as (Hsum & _).
  rewrite !used_blocks_app, pieces_blocks. cbn. eexists _, _. split; [reflexivity|]. do 3 f_equal.
  unfold pieces. rewrite !total_app. destruct (Z.eqb_spec f 0), (Z.eqb_spec k 0); cbn; lia.
Qed.

(** Freeing the block just allocated gives the old segments back. *)
Lemma spec_roundtrip w l layout p l' :
  list_rep w l -> layout_ok layout -> spec_alloc (bottom (holes (heap w))) l layout = Some (p, l') ->
  spec_dealloc (bottom (holes (heap w))) p l' = l.
Proof.
  intros Hrep Hl Hspec. destruct (spec_alloc_spec _ _ _ _ _ Hspec) as (a & s & b & f & k & -> & Hplan & -> & -> & _).
  destruct (seg_plan_spec w a b s Hrep layout f k Hl Hplan) as (Hsum & Hf & Hk & Hf8 & Hk8 & _).
  destruct (coalesced_around _ _ _ (lr_coalesced _ _ Hrep)) as [He Hst].
  destruct (coalesced_app_inv _ _ (lr_coalesced _ _ Hrep)) as [Hca Hcb].
  assert (coalesced b) as Hcb' by (by destruct b as [|[m|m] b]).
  destruct (proj1 (Forall_app _ _ _) (lr_segs _ _ Hrep)) as [Hsa _].
  unfold spec_dealloc, pieces. set (l1 := a ++ if f =? 0 then [] else [Free f]). set (l2 := (if k =? 0 then [] else [Free k]) ++ b).
  assert (total l1 = total a + f) as Ht1 by (unfold l1; rewrite total_app; destruct (Z.eqb_spec f 0); cbn; lia).
  replace (bottom (holes (heap w)) + total a + f) with (bottom (holes (heap w)) + total l1) by lia.
  rewrite <- !app_assoc, app_assoc. fold l1. cbn [app]. fold l2. rewrite mark_free_at.
  - rewrite (coalesce_mid l1 l2 a f (layout_size layout) k b); [by rewrite Hsum|done|done| |done|done| |].
    + unfold l1. apply coalesced_join; [done| |by left]. by destruct (f =? 0).
    + unfold l1. destruct (Z.eqb_spec f 0) as [->|]; [left; by rewrite app_nil_r|by right].
    + unfold l2. destruct (Z.eqb_spec k 0) as [->|]; [by left|by right].
  - unfold l1. apply Forall_app. split; [done|]. destruct (Z.eqb_spec f 0); repeat constructor; cbn; lia.
Qed.

(** ** The heap against the abstract heap *)

Lemma heap_dealloc_sim w l1 l2 layout :
  heap_rep w (l1 ++ Used (aligned_size layout) :: l2) -> valid_layout layout ->
  aligned_size layout <= 2 ^ 63 - layout_align layout ->
  exists w', Heap_dealloc (bottom (holes (heap w)) + total l1) layout w = (Ok tt, w')
    /\ bottom (holes (heap w')) = bottom (holes (heap w)) /\ heap_rep w' (coalesce (l1 ++ Free (aligned_size layout) :: l2)).
Proof.
  intros [Hrep Hused] [Hs Hp] Hfit. destruct (list_dealloc_sim _ _ _ _ Hrep) as (w1 & Hrun & (Eb & Et & Eu & _) & Hrep1).
  unfold Heap_dealloc, HoleList_dealloc, sbind, slift, sget. rewrite align_layout_run, Hp by done.
  destruct (Z.leb_spec (aligned_size layout) (2 ^ 63 - layout_align layout)); [|lia]. cbn [andb layout_size].
  rewrite Hrun. cbn [sret layout_size]. rewrite used_total_app in Hused. cbn in Hused.
  pose proof (used_total_bound _ (lr_segs _ _ Hrep)) as Hb. rewrite used_total_app in Hb. cbn in Hb.
  destruct (dealloc_segs w l1 l2 _ Hrep) as (Ha & Hn & _ & Hc).
  pose proof (used_total_bound _ Ha). pose proof (used_total_bound _ Hc).
  unfold sret. rewrite Eu, usub_run by lia. eexists. split; [reflexivity|]. split; [exact Eb|]. split; [by destruct Hrep1|].
  cbn. rewrite used_total_coalesce, used_total_app. cbn. lia.
Qed.

Lemma heap_init_sim w addr size :
  0 < addr -> 16 <= size -> addr + size <= 2 ^ 63 ->
  let bot := round_up addr 8 in
  let len := size - (bot - addr) - (size - (bot - addr)) mod 8 in
  16 <= len ->
  exists w', Heap_init addr size w = (Ok tt, w') /\ bottom (holes (heap w')) = bot /\ heap_rep w' [Free len].
Proof.
  intros Ha Hs Htop bot len Hlen. pose proof (round_up_bound addr 8 ltac:(lia)) as Hb. fold bot in Hb.
  pose proof (round_up_mod addr 8 ltac:(lia)) as Hb8. fold bot in Hb8.
  unfold Heap_init, HoleList_new. cbn [Hole_layout layout_size layout_align]. unfold sbind, slift, sassert, sret.
  change (16 =? min_size) with true. cbn iota. destruct (Z.leb_spec 16 size); [|lia].
  rewrite (align_up_run addr 8) by (done || lia). fold bot. rewrite usub_run, usub_run, align_down_8 by lia. fold len.
  destruct (Z.leb_spec 16 len); [|lia]. unfold write_hole, smodify at 1.
  pose proof (Z.mod_pos_bound (size - (bot - addr)) 8 ltac:(lia)).
  rewrite !wadd_run by lia. destruct (Z.eqb_spec (addr + size) (bot + (size - (bot - addr)))); [|lia].
  eexists. split; [reflexivity|]. split; [done|]. split; [|done].
  assert (len mod 8 = 0) as Hl8 by (unfold len; Z.div_mod_to_equations; lia).
  split; cbn; [split; [lia|done]|split; lia|by repeat constructor|done|done|]. split; [done|]. exists None. split; [apply lookup_insert_eq|done].
Qed.

(** ** Sequences of operations *)

(** What the kernel does with its heap: allocate, free, and write to the blocks it
    holds, which destroys the nodes that lie there. *)
Inductive heap_op :=
| HAlloc (layout : Layout)
| HFree (ptr : Z) (layout : Layout)
| HScribble (addrs : list Z).

Definition run_heap_op (op : heap_op) : SR HeapWorld (option Z) :=
  match op with
  | HAlloc layout => let! p := Heap_alloc_first_fit layout in sret (Some p)
  | HFree ptr layout => do! Heap_dealloc ptr layout in sret None
  | HScribble addrs => do! smodify (fun w => set_nodes (foldr delete (nodes w) addrs) w) in sret None
  end.

Definition spec_heap_op (bot : Z) (op : heap_op) (l : list seg) : Result (option Z) * list seg :=
  match op with
  | HAlloc layout =>
      match spec_heap_alloc bot l layout with
      | Ok (p, l') => (Ok (Some p), l')
      | Err e => (Err e, l)
      | Panic => (Panic, l)
      end
  | HFree ptr _ => (Ok None, spec_dealloc bot ptr l)
  | HScribble _ => (Ok None, l)
  end.

(** A block is freed with the layout it was allocated with; writes stay in the
    blocks in use. *)
Definition heap_op_ok (bot : Z) (op : heap_op) (l : list seg) : Prop :=
  match op with
  | HAlloc layout => valid_layout layout
  | HFree ptr layout =>
      valid_layout layout /\ aligned_size layout <= 2 ^ 63 - layout_align layout
      /\ (ptr, aligned_size layout) ∈ used_blocks bot l
  | HScribble addrs => Forall (fun k => exists p n, (p, n) ∈ used_blocks bot l /\ p - 16 < k < p + n) addrs
  end.

Fixpoint run_heap_ops (ops : list heap_op) w : list (Result (option Z)) * HeapWorld :=
  match ops with
  | [] => ([], w)
  | op :: ops => let '(r, w) := run_heap_op op w in let '(rs, w) := run_heap_ops ops w in (r :: rs, w)
  end.

Fixpoint spec_heap_ops (bot : Z) (ops : list heap_op) (l : list seg) : list (Result (option Z)) * list seg :=
  match ops with
  | [] => ([], l)
  | op :: ops => let '(r, l) := spec_heap_op bot op l in let '(rs, l) := spec_heap_ops bot ops l in (r :: rs, l)
  end.

Fixpoint heap_ops_ok (bot : Z) (ops : list heap_op) (l : list seg) : Prop :=
  match ops with
  | [] => True
  | op :: ops => heap_op_ok bot op l /\ heap_ops_ok bot ops (snd (spec_heap_op bot op l))
  end.

Lemma free_used_apart pos l x s p n :
  Forall seg_ok l -> (x, s) ∈ free_holes pos l -> (p, n) ∈ used_blocks pos l -> x + 16 <= p \/ p + n <= x.
Proof.
  intros Hl. revert pos. induction Hl as [|y l [Hy _] Hl IH]; intros pos; [by intros ?%not_elem_of_nil|].
  pose proof (free_holes_sorted (pos + seg_size y) l Hl) as Hf. pose proof (used_blocks_sorted (pos + seg_size y) l Hl) as Hu.
  destruct y as [m|m]; cbn in *.
  - intros [[= -> ->]|Hx]%elem_of_cons Hp; [|by eapply IH]. apply (sorted_holes_elem _ _ _ _ _ Hu) in Hp. lia.
  - intros Hx [[= -> ->]|Hp]%elem_of_cons; [|by eapply IH]. apply (sorted_holes_elem _ _ _ _ _ Hf) in Hx. lia.
Qed.

Lemma lookup_foldr_delete_ne (m : gmap Z Hole) ks k : k ∉ ks -> foldr delete m ks !! k = m !! k.
Proof.
  induction ks as [|x ks IH]; [done|]. intros [Hne Hk]%not_elem_of_cons. cbn. rewrite lookup_delete_ne by done. by apply IH.
Qed.

Lemma run_heap_op_sim w l op bot :
  bottom (holes (heap w)) = bot -> heap_rep w l -> heap_op_ok bot op l ->
  exists w', run_heap_op op w = (fst (spec_heap_op bot op l), w')
    /\ bottom (holes (heap w')) = bot /\ heap_rep w' (snd (spec_heap_op bot op l)).
Proof.
  intros <- Hrep Hok. destruct op as [layout|ptr layout|addrs]; cbn in Hok |- *; unfold sbind.
  - destruct (heap_alloc_sim w l layout Hrep Hok) as (w' & Eb & _ & Hw').
    destruct (spec_heap_alloc _ l layout) as [[p l']|e|]; [|by destruct Hw' as [-> ->]; exists w|done].
    destruct Hw' as (-> & Hrep' & _). by exists w'.
  - destruct Hok as (Hv & Hfit & (l1 & l2 & -> & ->)%used_blocks_elem).
    destruct (heap_dealloc_sim w l1 l2 layout Hrep Hv Hfit) as (w' & Hrun & Eb & Hrep'). rewrite Hrun. exists w'. split; [done|].
    split; [done|]. unfold spec_dealloc. rewrite mark_free_at; [done|].
    by destruct (proj1 (Forall_app _ _ _) (lr_segs _ _ (proj1 Hrep))).
  - eexists. split; [reflexivity|]. split; [done|]. destruct Hrep as [[R1 R2 R3 R4 R5 R6] Hu]. split; [|done].
    split; [done..|]. eapply lseg_frame; [|exact R6]. intros a s Hin. cbn. apply lookup_foldr_delete_ne. intros Ha.
    rewrite Forall_forall in Hok. destruct (Hok a Ha) as (p & n & Hp & Hk). destruct (free_used_apart _ _ _ _ _ _ R3 Hin Hp); lia.
Qed.

Lemma run_heap_ops_sim ops w l bot :
  bottom (holes (heap w)) = bot -> heap_rep w l -> heap_ops_ok bot ops l ->
  fst (run_heap_ops ops w) = fst (spec_heap_ops bot ops l)
  /\ bottom (holes (heap (snd (run_heap_ops ops w)))) = bot /\ heap_rep (snd (run_heap_ops ops w)) (snd (spec_heap_ops bot ops l)).
Proof.
  revert w l. induction ops as [|op ops IH]; intros w l Hb Hrep; cbn; [done|]. intros [Hop Hops].
  destruct (run_heap_op_sim w l op bot Hb Hrep Hop) as (w1 & -> & Hb1 & Hrep1).
  destruct (spec_heap_op bot op l) as [r l1]. cbn in *. destruct (IH w1 l1 Hb1 Hrep1 Hops) as (Hr & Hb2 & Hrep2).
  destruct (run_heap_ops ops w1) as [rs w2], (spec_heap_ops bot ops l1) as [rs' l2]. cbn in *. by subst rs'.
Qed.

(** ** Starting the heap on frames of the physical memory

    [init_heap]: physical memory is mapped at its own address. *)

Definition on_machine {A} (m : SR Machine A) : SR (Machine * HeapWorld) A := fun s =>
  let '(r, x) := m (fst s) in (r, (x, snd s)).
Definition on_heap {A} (m : SR HeapWorld A) : SR (Machine * HeapWorld) A := fun s =>
  let '(r, x) := m (snd s) in (r, (fst s, x)).

Definition init_heap : SR (Machine * HeapWorld) unit :=
  let! mem_frame := on_machine (alloc_multi_mem_frame ((HEAP_SIZE + PAGE_SIZE - 1) / PAGE_SIZE)) in
  do! on_machine (MemoryFrame_zero_out mem_frame) in
  let mem_frame := MemoryFrame_leak mem_frame in
  on_heap (Heap_init (frame_start_phys_addr mem_frame) (frame_size mem_frame)).

(** When the frames are found the heap is one hole of 32 MiB on them. *)
Lemma init_heap_ready m w frame m' :
  bmm_wf m -> total_frame_len (bmm m) <= 2 ^ 51 -> alloc_multi_mem_frame 8192 m = (Ok frame, m') ->
  exists start s', free_run m start 8192 /\ init_heap (m, w) = (Ok tt, s')
    /\ bottom (holes (heap (snd s'))) = start * PAGE_SIZE /\ heap_rep (snd s') [Free HEAP_SIZE].
Proof.
  intros Hwf Htot Halloc. pose proof (alloc_multi_promise m 8192 Hwf ltac:(lia)) as Hp. rewrite Halloc in Hp.
  destruct Hp as (start & _ & (Hs & Hle & Hfree) & -> & _). exists start.
  assert (round_up (start * 4096) 8 = start * 4096) as Hr.
  { apply round_up_id; [lia|]. replace (start * 4096) with (start * 512 * 8) by ring. apply Z.mod_mul. lia. }
  destruct (heap_init_sim w (start * 4096) (4096 * 8192)) as (w' & Hinit & Hb & Hrep); [lia|lia|lia|by rewrite Hr, Z.sub_diag|].
  rewrite Hr in Hb. rewrite Hr, Z.sub_diag, Z.sub_0_r in Hrep.
  unfold init_heap, sbind, on_machine. change ((HEAP_SIZE + PAGE_SIZE - 1) / PAGE_SIZE) with 8192. cbn [fst snd]. rewrite Halloc.
  cbn -[Heap_init]. unfold PAGE_SIZE, on_heap. cbn [fst snd]. rewrite Hinit. eexists. split; [done|]. by split.
Qed.

(** ** Properties *)

(** C2: the heap refines the abstract row of segments.  After [init] on a memory
    area, under any sequence of allocations, deallocations of live blocks with their
    layout and writes of the kernel to its own blocks, the allocator returns exactly
    what the abstract heap returns (out-of-memory errors included), never panics, and
    ends with its list of holes in memory, sorted, fully merged and with the right
    [used] counter. *)
Theorem heap_refines_segments w addr size ops :
  let bot := round_up addr 8 in
  let len := size - (bot - addr) - (size - (bot - addr)) mod 8 in
  0 < addr -> 16 <= size -> addr + size <= 2 ^ 63 -> 16 <= len -> heap_ops_ok bot ops [Free len] ->
  exists w0, Heap_init addr size w = (Ok tt, w0)
  /\ fst (run_heap_ops ops w0) = fst (spec_heap_ops bot ops [Free len])
  /\ heap_rep (snd (run_heap_ops ops w0)) (snd (spec_heap_ops bot ops [Free len])).
Proof.
  intros bot len Ha Hs Htop Hlen Hops. destruct (heap_init_sim w addr size Ha Hs Htop Hlen) as (w0 & Hinit & Hb & Hrep).
  exists w0. split; [done|]. by destruct (run_heap_ops_sim ops w0 [Free len] bot Hb Hrep Hops) as (? & _ & ?).
Qed.

(** C14: an allocation returns an aligned block of at least the requested size
    inside the heap area that overlaps no block in use, keeps all other blocks, and
    charges [used] with its size; when it fails for lack of room, nothing changes and
    no hole has room for the block. *)
Theorem heap_alloc_correct w l layout :
  heap_rep w l -> valid_layout layout -> aligned_size layout <= 2 ^ 63 - layout_align layout ->
  let bot := bottom (holes (heap w)) in
  (exists p w' l' u1 u2, Heap_alloc_first_fit layout w = (Ok p, w') /\ heap_rep w' l' /\ bottom (holes (heap w')) = bot
     /\ p mod layout_align layout = 0 /\ layout_size layout <= aligned_size layout
     /\ used_blocks bot l = u1 ++ u2 /\ used_blocks bot l' = u1 ++ (p, aligned_size layout) :: u2
     /\ sorted_holes bot (top (holes (heap w))) (u1 ++ (p, aligned_size layout) :: u2)
     /\ used (heap w') = used (heap w) + aligned_size layout)
  \/ (exists e, Heap_alloc_first_fit layout w = (Err (alloc_err e), w)
     /\ forall a s, (a, s) ∈ free_holes bot l -> seg_plan a s (aligned_layout layout) = None).
Proof.
  intros Hrep Hv Hfit bot. destruct (heap_alloc_sim w l layout Hrep Hv) as (w' & Eb & Et & Hw').
  pose proof (aligned_layout_ok layout (proj2 Hv) Hfit) as Hl. fold (aligned_layout layout) in Hl.
  unfold spec_heap_alloc in Hw'. fold bot in Hw', Eb. destruct (Z.ltb_spec (2 ^ 63 - layout_align layout) (aligned_size layout)); [lia|].
  pose proof (proj2 (spec_alloc_None bot l (aligned_layout layout))) as Hnone. pose proof Hrep as [Hlr Hu].
  destruct (free_holes bot l) as [|h hs] eqn:Hf.
  { right. destruct Hw' as [-> ->]. eexists. split; [reflexivity|]. by intros a s ?%not_elem_of_nil. }
  rewrite <- Hf in *. clear h hs Hf. destruct (spec_alloc bot l (aligned_layout layout)) as [[p l']|] eqn:Hspec.
  - left. destruct Hw' as (Hrun & [Hlr' Hu'] & Hmod). destruct (spec_alloc_blocks w l _ p l' Hlr Hl Hspec) as (u1 & u2 & U1 & U2).
    fold bot in U1, U2. cbn [layout_size aligned_layout] in U2. exists p, w', l', u1, u2.
    split_and!; [done|done|done|done| |done|done| |].
    + unfold aligned_size. pose proof (round_up_bound (Z.max 16 (layout_size layout)) 8 ltac:(lia)). lia.
    + pose proof (used_blocks_sorted bot l' (lr_segs _ _ Hlr')) as Hs. rewrite U2 in Hs.
      destruct (lr_top _ _ Hlr') as [Ht' _]. by rewrite <- Et, Ht', Eb.
    + rewrite Hu', Hu. apply (spec_alloc_used _ _ _ _ _ Hspec).
  - right. destruct Hw' as [-> ->]. eexists. split; [reflexivity|]. by apply spec_alloc_None.
Qed.

(** freeing the block that was just allocated restores the heap: the same
    segments, so the same holes and the same counter. *)
Theorem heap_alloc_dealloc_roundtrip w l layout p w1 :
  heap_rep w l -> valid_layout layout -> Heap_alloc_first_fit layout w = (Ok p, w1) ->
  exists w2, Heap_dealloc p layout w1 = (Ok tt, w2) /\ heap_rep w2 l
  /\ bottom (holes (heap w2)) = bottom (holes (heap w)) /\ used (heap w2) = used (heap w).
Proof.
  intros Hrep Hv Hrun. destruct (heap_alloc_sim w l layout Hrep Hv) as (w' & Eb & _ & Hw').
  unfold spec_heap_alloc in Hw'. set (bot := bottom (holes (heap w))) in *.
  destruct (Z.ltb_spec (2 ^ 63 - layout_align layout) (aligned_size layout)) as [|Hfit]; [destruct Hw'; congruence|].
  destruct (free_holes bot l) as [|h hs]; [destruct Hw'; congruence|].
  destruct (spec_alloc bot l (aligned_layout layout)) as [[q l']|] eqn:Hspec; [|destruct Hw'; congruence].
  destruct Hw' as (Hrun' & Hrep' & _). rewrite Hrun' in Hrun. injection Hrun as -> ->.
  pose proof (aligned_layout_ok layout (proj2 Hv) Hfit) as Hl. fold (aligned_layout layout) in Hl.
  destruct (spec_alloc_blocks w l _ p l' (proj1 Hrep) Hl Hspec) as (u1 & u2 & _ & U2). fold bot in U2.
  assert ((p, aligned_size layout) ∈ used_blocks bot l') as (l1 & l2 & -> & ->)%used_blocks_elem
    by (rewrite U2; apply elem_of_app; right; by left).
  destruct (heap_dealloc_sim w1 l1 l2 layout Hrep' Hv Hfit) as (w2 & R2 & Eb2 & Hrep2). rewrite Eb in R2, Eb2.
  exists w2. split; [done|].
  pose proof (spec_roundtrip w l _ _ _ (proj1 Hrep) Hl Hspec) as Hback. fold bot in Hback. unfold spec_dealloc in Hback.
  rewrite mark_free_at in Hback by (by destruct (proj1 (Forall_app _ _ _) (lr_segs _ _ (proj1 Hrep')))).
  rewrite Hback in Hrep2. split; [done|]. split; [done|]. destruct Hrep as [_ ->], Hrep2 as [_ ->]. done.
Qed.

(** nothing is lost to fragmentation: when every block has been freed, the
    heap is one hole from bottom to top and [used] is zero. *)
Theorem heap_all_freed w l :
  heap_rep w l -> used_blocks (bottom (holes (heap w))) l = [] ->
  let size := top (holes (heap w)) - bottom (holes (heap w)) in
  l = (if size =? 0 then [] else [Free size]) /\ used (heap w) = 0
  /\ list_at w (if size =? 0 then [] else [(bottom (holes (heap w)), size)]) None.
Proof.
  intros [Hrep Hu] Hub size. destruct (lr_top _ _ Hrep) as [Ht _]. assert (size = total l) as -> by (unfold size; lia).
  assert (l = if total l =? 0 then [] else [Free (total l)]) as Hl.
  { pose proof (lr_coalesced _ _ Hrep) as Hc. pose proof (lr_segs _ _ Hrep) as Hs. clear -Hub Hc Hs.
    destruct l as [|[s|s] l]; [done| |done]. apply Forall_cons in Hs as [[Hs _] _]. cbn in *.
    destruct l as [|[t|t] l]; [|done|done]. cbn. destruct (Z.eqb_spec (s + 0) 0); [lia|]. by rewrite Z.add_0_r. }
  split; [done|]. split; [by rewrite Hu, (used_total_blocks (bottom (holes (heap w)))), Hub|].
  pose proof (lr_list _ _ Hrep) as Hlist. rewrite Hl in Hlist. by destruct (total l =? 0).
Qed.

(** The global allocator panics when the heap has no room. *)
Lemma heap_exhausted_panics w l layout e :
  heap_rep w l -> valid_layout layout -> spec_heap_alloc (bottom (holes (heap w))) l layout = Err e ->
  global_alloc layout w = (Panic, w).
Proof.
  intros Hrep Hv He. destruct (heap_alloc_sim w l layout Hrep Hv) as (w' & _ & _ & Hw'). rewrite He in Hw'.
  destruct Hw' as [Hrun ->]. unfold global_alloc, sunwrap. by rewrite Hrun.
Qed.

(** ** Examples *)

Definition demo_heap : HeapWorld := MkHeapWorld Heap_empty ∅.
Definition demo_ops : list heap_op :=
  [HAlloc (MkLayout 40 8); HAlloc (MkLayout 100 64); HScribble [4096; 4104]; HFree 4096 (MkLayout 40 8);
   HAlloc (MkLayout 5000 8); HAlloc (MkLayout 8 16)].

(** One operation of a concrete sequence: its condition, then the rest from the
    evaluated segments. *)
Ltac heap_step :=
  split; [|match goal with |- heap_ops_ok ?b ?ops (snd ?r) =>
             let l := eval vm_compute in (snd r) in change (heap_ops_ok b ops l) end].

Lemma heap_demo_ops_ok : heap_ops_ok 4096 demo_ops [Free 1016].
Proof.
  assert (forall n a, 0 <= n <= 2 ^ 63 -> is_power_of_two a = true -> valid_layout (MkLayout n a)) as Hv by (by split).
  heap_step; [apply Hv; [lia|done]|]. heap_step; [apply Hv; [lia|done]|]. heap_step.
  { repeat constructor; exists 4096, 40; (split; [left|lia]). }
  heap_step; [split; [apply Hv; [lia|done]|split; [by vm_compute|left]]|].
  heap_step; [apply Hv; [lia|done]|]. heap_step; [apply Hv; [lia|done]|]. done.
Qed.

Lemma heap_refines_segments_witness :
  exists w0, Heap_init 4090 1024 demo_heap = (Ok tt, w0)
  /\ fst (run_heap_ops demo_ops w0)
     = [Ok (Some 4096); Ok (Some 4160); Ok None; Ok None; Err (alloc_err NoNextCursor); Ok (Some 4096)].
Proof.
  destruct (heap_refines_segments demo_heap 4090 1024 demo_ops ltac:(lia) ltac:(lia) ltac:(lia) ltac:(by vm_compute) heap_demo_ops_ok)
    as (w0 & Hinit & Hrun & _).
  exists w0. split; [exact Hinit|]. rewrite Hrun. vm_compute. reflexivity.
Defined.

Definition demo_started : HeapWorld := Eval vm_compute in snd (Heap_init 4096 1024 demo_heap).

Lemma demo_started_rep : heap_rep demo_started [Free 1024].
Proof.
  destruct (heap_init_sim demo_heap 4096 1024) as (w' & Hinit & _ & Hrep); [lia|lia|lia|by vm_compute|].
  change demo_started with (snd (Heap_init 4096 1024 demo_heap)). by rewrite Hinit.
Qed.

Lemma heap_alloc_correct_witness :
  (exists p w', Heap_alloc_first_fit (MkLayout 100 256) demo_started = (Ok p, w') /\ p mod 256 = 0)
  \/ (exists e, Heap_alloc_first_fit (MkLayout 100 256) demo_started = (Err (alloc_err e), demo_started)).
Proof.
  destruct (heap_alloc_correct demo_started [Free 1024] (MkLayout 100 256) demo_started_rep) as [H|H].
  - split; [cbn; lia|reflexivity].
  - vm_compute. discriminate.
  - left. destruct H as (p & w' & _ & _ & _ & Hrun & _ & _ & Hmod & _). exists p, w'. split; [exact Hrun|exact Hmod].
  - right. destruct H as (e & He & _). exists e. exact He.
Defined.

Definition demo_after : HeapWorld := Eval vm_compute in snd (Heap_alloc_first_fit (MkLayout 100 256) demo_started).

Lemma heap_alloc_dealloc_roundtrip_witness :
  exists w2, Heap_dealloc 4096 (MkLayout 100 256) demo_after = (Ok tt, w2) /\ heap_rep w2 [Free 1024].
Proof.
  destruct (heap_alloc_dealloc_roundtrip demo_started [Free 1024] (MkLayout 100 256) 4096 demo_after demo_started_rep)
    as (w2 & Hrun & Hrep & _).
  - split; [cbn; lia|reflexivity].
  - vm_compute. reflexivity.
  - exists w2. split; [exact Hrun|exact Hrep].
Defined.

Lemma heap_all_freed_witness : used (heap demo_started) = 0 /\ list_at demo_started [(4096, 1024)] None.
Proof.
  destruct (heap_all_freed demo_started [Free 1024] demo_started_rep eq_refl) as (_ & Hu & Hl).
  split; [exact Hu|exact Hl].
Defined.
