(* ===== verification/Paging.v ===== *)
(** * Page tables ([kernel/src/arch/x86_64/paging.rs], [kernel/src/arch/mod.rs])

    The entries of the page tables as 64-bit words with their bit fields, the
    mapping of ranges, the tables of user tasks that share the kernel's
    tables and copy them when they write, and the translation of addresses.
    The code runs in a physical memory with a frame allocator, the interface
    [PhysMem]; [PagingBitmap] instantiates it with the bitmap manager. *)
From Stdlib Require Import ZArith Lia.
From stdpp Require Import base list.
From S2P Require Import Prelude KError Bitmap.

#[local] Open Scope list_scope.
#[local] Open Scope Z_scope.

(** ** Virtual addresses *)

Definition VirtualAddress : Type := Z.

(** [offset]: the addition is checked. *)
Definition VirtualAddress_offset (self : VirtualAddress) (offset : Z) : Result VirtualAddress :=
  uadd 64 self offset.

Definition pml4_entry_index (self : VirtualAddress) : Z := Z.land (Z.shiftr self 39) 0x1ff.
Definition pml3_entry_index (self : VirtualAddress) : Z := Z.land (Z.shiftr self 30) 0x1ff.
Definition pml2_entry_index (self : VirtualAddress) : Z := Z.land (Z.shiftr self 21) 0x1ff.
Definition pml1_entry_index (self : VirtualAddress) : Z := Z.land (Z.shiftr self 12) 0x1ff.
Definition page_offset (self : VirtualAddress) : Z := Z.land self 0xfff.

(** ** Entries *)

Definition PAGE_TABLE_ENTRY_LEN : Z := 512.

Inductive ReadWrite := Read | Write.
Inductive EntryMode := Supervisor | User.
Inductive PageWriteThroughLevel := WriteBack | WriteThrough.

(** The [repr(u8)] discriminants, by which the derived order compares. *)
Definition rw_u64 (rw : ReadWrite) : Z := match rw with Read => 0 | Write => 1 end.
Definition us_u64 (us : EntryMode) : Z := match us with Supervisor => 0 | User => 1 end.
Definition pwt_u64 (pwt : PageWriteThroughLevel) : Z :=
  match pwt with WriteBack => 0 | WriteThrough => 1 end.

(** [PageTableEntry(u64)] *)
Definition PageTableEntry : Type := Z.

Definition ADDR_MASK : Z := 0x0000007ffffff000.

Definition set_p (e : PageTableEntry) (value : bool) : PageTableEntry :=
  Z.lor (Z.land e (unot 64 0x1)) (Z.b2z value).
Definition entry_p (e : PageTableEntry) : bool := negb (Z.land e 0x1 =? 0).

Definition set_rw (e : PageTableEntry) (rw : ReadWrite) : PageTableEntry :=
  Z.lor (Z.land e (unot 64 0x2)) (Z.shiftl (rw_u64 rw) 1).
Definition entry_rw (e : PageTableEntry) : ReadWrite :=
  if negb (Z.land e 0x2 =? 0) then Write else Read.

Definition set_us (e : PageTableEntry) (us : EntryMode) : PageTableEntry :=
  Z.lor (Z.land e (unot 64 0x4)) (Z.shiftl (us_u64 us) 2).
Definition entry_us (e : PageTableEntry) : EntryMode :=
  if negb (Z.land e 0x4 =? 0) then User else Supervisor.

Definition set_pwt (e : PageTableEntry) (pwt : PageWriteThroughLevel) : PageTableEntry :=
  Z.lor (Z.land e (unot 64 0x8)) (Z.shiftl (pwt_u64 pwt) 3).
Definition entry_pwt (e : PageTableEntry) : PageWriteThroughLevel :=
  if negb (Z.land e 0x8 =? 0) then WriteThrough else WriteBack.

Definition set_pcd (e : PageTableEntry) (pcd : bool) : PageTableEntry :=
  Z.lor (Z.land e (unot 64 0x10)) (Z.shiftl (Z.b2z pcd) 4).
Definition entry_pcd (e : PageTableEntry) : bool := negb (Z.land e 0x10 =? 0).

Definition accessed (e : PageTableEntry) : bool := negb (Z.land e 0x20 =? 0).
Definition dirty (e : PageTableEntry) : bool := negb (Z.land e 0x40 =? 0).
Definition page_size (e : PageTableEntry) : bool := negb (Z.land e 0x80 =? 0).
Definition exec_disable (e : PageTableEntry) : bool := negb (Z.land e (Z.shiftl 1 63) =? 0).

Definition set_addr (e : PageTableEntry) (addr : Z) : PageTableEntry :=
  Z.lor (Z.land e (unot 64 ADDR_MASK)) (Z.land addr ADDR_MASK).
Definition entry_addr (e : PageTableEntry) : Z := Z.land e ADDR_MASK.

(** [page_table], [page_table_mut]: the address of the next table, unless the entry
    maps a large page. *)
Definition page_table (e : PageTableEntry) : option Z :=
  if page_size e then None else Some (entry_addr e).

Definition set_entry (e : PageTableEntry) (addr : Z) (rw : ReadWrite) (us : EntryMode)
    (pwt : PageWriteThroughLevel) (pcd : bool) : PageTableEntry :=
  let e := set_p e true in
  let e := set_rw e rw in
  let e := set_us e us in
  let e := set_pwt e pwt in
  let e := set_pcd e pcd in
  set_addr e addr.

(** ** The memory

    [load] and [store] access a [u64] of physical memory, which is mapped at its own
    address; [alloc_page] is [bitmap::alloc_mem_frame(1)], [dealloc_page] is
    [bitmap::dealloc_mem_frame], [zero_page] is [MemoryFrame::zero_out]. *)

Class PhysMem (M : Type) := {
  load : M -> Z -> Z;
  store : Z -> Z -> M -> M;
  alloc_page : SR M MemoryFrame;
  dealloc_page : MemoryFrame -> SR M unit;
  zero_page : MemoryFrame -> SR M unit
}.

Section Paging.
Context {M : Type} `{PhysMem M}.

(** [&mut table.entries\[index\]]: the address of the entry. *)
Definition entry_at (table index : Z) : Z := table + 8 * index.

(** Writing through a [&mut PageTableEntry]. *)
Definition update_entry (pte : Z) (f : PageTableEntry -> PageTableEntry) : SR M unit :=
  smodify (fun m => store pte (f (load m pte)) m).

(** [if pte.rw() < rw \{ pte.set_rw(rw) \}], and the same for [us]. *)
Definition raise_rw (pte : Z) (rw : ReadWrite) : SR M unit :=
  let! m := sget in
  if rw_u64 (entry_rw (load m pte)) <? rw_u64 rw then update_entry pte (fun e => set_rw e rw) else sret tt.
Definition raise_us (pte : Z) (us : EntryMode) : SR M unit :=
  let! m := sget in
  if us_u64 (entry_us (load m pte)) <? us_u64 us then update_entry pte (fun e => set_us e us) else sret tt.

(** ** Mapping *)

Definition ensure_pte (table index : Z) (rw : ReadWrite) (us : EntryMode) (pwt : PageWriteThroughLevel)
    (pcd : bool) (alloc_frame : SR M MemoryFrame) : SR M (option MemoryFrame * Z) :=
  let entry := entry_at table index in
  let! m := sget in
  let! frame :=
    (if negb (entry_p (load m entry)) then
       let! mem_frame := alloc_frame in
       do! zero_page mem_frame in
       do! update_entry entry (fun e => set_entry e (frame_start_phys_addr mem_frame) rw us pwt pcd) in
       sret (Some mem_frame)
     else sret None) in
  do! raise_rw entry rw in
  do! raise_us entry us in
  sret (frame, entry).

(** [(start..end).step_by(PAGE_SIZE)] *)
Definition step_by_page (start end_ : Z) : list Z :=
  (fun k => start + k * PAGE_SIZE) <$> seqZ 0 ((end_ - start + PAGE_SIZE - 1) / PAGE_SIZE).

(** The loop over the indices of the three upper levels. *)
Fixpoint map_tables (table : Z) (indicies : list Z) (rw : ReadWrite) (us : EntryMode)
    (pwt : PageWriteThroughLevel) (pcd : bool) (alloc_frame : SR M MemoryFrame)
    (allocated_frame : MemoryFrame -> SR M unit) : SR M Z :=
  match indicies with
  | [] => sret table
  | index :: rest =>
      let! (frame, pte) := ensure_pte table index rw us pwt pcd alloc_frame in
      do! (match frame with Some f => allocated_frame f | None => sret tt end) in
      let! m := sget in
      let! table := slift (unwrap (page_table (load m pte))) in
      map_tables table rest rw us pwt pcd alloc_frame allocated_frame
  end.

Definition not_aligned (addr : Z) : Error_ := error_into (EPage (AddressNotAlignedByPageSize addr)).

Definition paging_map (pml4_table : Z) (start end_ : VirtualAddress) (phys_addr : Z) (rw : ReadWrite)
    (us : EntryMode) (pwt : PageWriteThroughLevel) (pcd : bool) (alloc_frame : SR M MemoryFrame)
    (allocated_frame : MemoryFrame -> SR M unit) : SR M unit :=
  if negb (start mod PAGE_SIZE =? 0) then serr (not_aligned start)
  else if negb (end_ mod PAGE_SIZE =? 0) then serr (not_aligned end_)
  else if negb (phys_addr mod PAGE_SIZE =? 0) then serr (not_aligned phys_addr)
  else
    sfor (step_by_page start end_) (fun i =>
      let indicies := [pml4_entry_index i; pml3_entry_index i; pml2_entry_index i] in
      let! pml1_table := map_tables pml4_table indicies rw us pwt pcd alloc_frame allocated_frame in
      let pte := entry_at pml1_table (pml1_entry_index i) in
      let! page := slift (uadd 64 phys_addr (i - start)) in
      update_entry pte (fun e => set_entry e page rw us pwt pcd)).

(** ** The tables of a task *)

(** The assignment of the entries of one table to another. *)
Definition copy_entries (src dst : Z) : SR M unit :=
  sfor (seqZ 0 PAGE_TABLE_ENTRY_LEN) (fun i =>
    smodify (fun m => store (entry_at dst i) (load m (entry_at src i)) m)).

Definition clone_table_entries (src : Z) : SR M MemoryFrame :=
  let! frame := alloc_page in
  do! copy_entries src (frame_start_phys_addr frame) in
  sret frame.

(** The frames a task owns, and the memory. *)
Abbreviation owner := (list MemoryFrame * M)%type.
Definition on_mem {A} (c : SR M A) : SR owner A :=
  fun s => let '(r, m) := c (snd s) in (r, (fst s, m)).
Definition push_frame (f : MemoryFrame) : SR owner unit := smodify (fun s => (fst s ++ [f], snd s)).

Definition ensure_task_table (pte : Z) (rw : ReadWrite) (pwt : PageWriteThroughLevel) (pcd : bool) :
    SR owner unit :=
  let! s := sget in
  if negb (entry_p (load (snd s) pte)) then
    let! frame := on_mem alloc_page in
    do! on_mem (zero_page frame) in
    do! on_mem (update_entry pte (fun e => set_entry e (frame_start_phys_addr frame) rw User pwt pcd)) in
    push_frame frame
  else
    let phys := entry_addr (load (snd s) pte) in
    let is_owned := existsb (fun f => frame_start_phys_addr f =? phys) (fst s) in
    do! (if negb is_owned then
           let! frame := on_mem (clone_table_entries phys) in
           do! on_mem (update_entry pte (fun e => set_addr e (frame_start_phys_addr frame))) in
           push_frame frame
         else sret tt) in
    do! on_mem (raise_rw pte rw) in
    on_mem (raise_us pte User).

Record UserPageTable := MkUserPageTable {
  pml4_frame : option MemoryFrame;
  allocated_frames : list MemoryFrame
}.

Definition UserPageTable_new : SR M UserPageTable :=
  let! pml4_frame := alloc_page in
  do! zero_page pml4_frame in
  sret {| pml4_frame := Some pml4_frame; allocated_frames := [] |}.

Definition pml4_phys_addr (self : UserPageTable) : Result Z :=
  let? f := unwrap (pml4_frame self) in Ok (frame_start_phys_addr f).

(** One page of [UserPageTable::map]. *)
Definition user_map_page (pml4_ptr i page_phys : Z) (rw : ReadWrite) (pwt : PageWriteThroughLevel)
    (pcd : bool) : SR owner unit :=
  let pml4e := entry_at pml4_ptr (pml4_entry_index i) in
  do! ensure_task_table pml4e rw pwt pcd in
  let! s := sget in
  let pml3e := entry_at (entry_addr (load (snd s) pml4e)) (pml3_entry_index i) in
  do! ensure_task_table pml3e rw pwt pcd in
  let! s := sget in
  let pml2e := entry_at (entry_addr (load (snd s) pml3e)) (pml2_entry_index i) in
  do! ensure_task_table pml2e rw pwt pcd in
  let! s := sget in
  let pml1_ptr := entry_addr (load (snd s) pml2e) in
  on_mem (update_entry (entry_at pml1_ptr (pml1_entry_index i))
            (fun e => set_entry e page_phys rw User pwt pcd)).

(** [&mut self] and the memory: the methods of a task's table. *)
Definition on_owner {A} (c : SR owner A) : SR (UserPageTable * M) A :=
  fun s => let '(r, (frames, m)) := c (allocated_frames (fst s), snd s) in
           (r, ({| pml4_frame := pml4_frame (fst s); allocated_frames := frames |}, m)).

Definition UserPageTable_map (start end_ : VirtualAddress) (phys_addr : Z) (rw : ReadWrite)
    (pwt : PageWriteThroughLevel) (pcd : bool) : SR (UserPageTable * M) unit :=
  let! s := sget in
  let! pml4_ptr := slift (pml4_phys_addr (fst s)) in
  sfor (step_by_page start end_) (fun i =>
    let! page_phys := slift (uadd 64 phys_addr (i - start)) in
    on_owner (user_map_page pml4_ptr i page_phys rw pwt pcd)).

(** [invlpg] is an instruction on the processor's cache of translations. *)
Definition UserPageTable_unmap (start end_ : VirtualAddress) : SR (UserPageTable * M) unit :=
  let! s := sget in
  let! pml4 := slift (pml4_phys_addr (fst s)) in
  sfor (step_by_page start end_) (fun virt =>
    let! s := sget in
    let m := snd s in
    let pml4e := load m (entry_at pml4 (pml4_entry_index virt)) in
    if negb (entry_p pml4e) then sret tt
    else
      let pml3e := load m (entry_at (entry_addr pml4e) (pml3_entry_index virt)) in
      if negb (entry_p pml3e) then sret tt
      else
        let pml2e := load m (entry_at (entry_addr pml3e) (pml2_entry_index virt)) in
        if negb (entry_p pml2e) then sret tt
        else
          let pml1 := entry_addr pml2e in
          smodify (fun s => (fst s, store (entry_at pml1 (pml1_entry_index virt)) 0 (snd s)))).

(** [dealloc_mem_frame(frame).unwrap()] *)
Definition dealloc_unwrap (frame : MemoryFrame) : SR M unit :=
  fun m => match dealloc_page frame m with
           | (Ok _, m') => (Ok tt, m')
           | (_, m') => (Panic, m')
           end.

(** [Drop for UserPageTable] *)
Definition UserPageTable_drop (self : UserPageTable) : SR M unit :=
  do! sfor (allocated_frames self) dealloc_unwrap in
  match pml4_frame self with Some frame => dealloc_unwrap frame | None => sret tt end.

(** ** The kernel's table *)

Record PagingState := MkPaging {
  machine : M;
  KERNEL_PML4_PHYS : Z;
  cr3 : Z
}.

Definition on_kernel {A} (c : SR M A) : SR PagingState A :=
  fun s => let '(r, m) := c (machine s) in
           (r, {| machine := m; KERNEL_PML4_PHYS := KERNEL_PML4_PHYS s; cr3 := cr3 s |}).

(** [|mut frame| frame.leak()]: the frame is dropped at the end of the closure. *)
Definition leak_frame (frame : MemoryFrame) : SR M unit := slift (MemoryFrame_drop (MemoryFrame_leak frame)).

(** A frame that is still owned when [?] returns is dropped, which panics. *)
Definition owning {A} (frame : MemoryFrame) (c : SR M A) : SR M A :=
  fun m => match c m with
           | (Err e, m') => (let? _ := MemoryFrame_drop frame in Err e, m')
           | r => r
           end.

Definition kernel_init (start end_ : VirtualAddress) : SR PagingState unit :=
  let! pml4_frame := on_kernel (let! pml4_frame := alloc_page in
                                do! owning pml4_frame (zero_page pml4_frame) in
                                sret pml4_frame) in
  let pml4_phys := frame_start_phys_addr pml4_frame in
  do! on_kernel (owning pml4_frame (paging_map pml4_phys start end_ start Write Supervisor WriteBack false
                                      alloc_page leak_frame)) in
  do! smodify (fun s => {| machine := machine s; KERNEL_PML4_PHYS := pml4_phys; cr3 := pml4_phys |}) in
  on_kernel (leak_frame pml4_frame).

Definition kernel_map (start end_ : VirtualAddress) (rw : ReadWrite) (pwt : PageWriteThroughLevel)
    (pcd : bool) : SR PagingState unit :=
  let! s := sget in
  on_kernel (paging_map (KERNEL_PML4_PHYS s) start end_ start rw Supervisor pwt pcd alloc_page leak_frame).

Definition new_cloned_from_kernel : SR PagingState UserPageTable :=
  let! this := on_kernel UserPageTable_new in
  let! s := sget in
  let! user_pml4 := slift (pml4_phys_addr this) in
  do! on_kernel (copy_entries (KERNEL_PML4_PHYS s) user_pml4) in
  sret this.

(** ** Translation *)

Definition lookup_pte (m : M) (pml4_table : Z) (virt_addr : VirtualAddress) : option PageTableEntry :=
  let pte := load m (entry_at pml4_table (pml4_entry_index virt_addr)) in
  if negb (entry_p pte) then None else
  t ← page_table pte;
  let pte := load m (entry_at t (pml3_entry_index virt_addr)) in
  if negb (entry_p pte) then None else
  t ← page_table pte;
  let pte := load m (entry_at t (pml2_entry_index virt_addr)) in
  if negb (entry_p pte) then None else
  t ← page_table pte;
  let pte := load m (entry_at t (pml1_entry_index virt_addr)) in
  if negb (entry_p pte) then None else
  Some pte.

Definition calc_phys_addr (m : M) (pml4_table : Z) (virt_addr : VirtualAddress) : option Z :=
  pte ← lookup_pte m pml4_table virt_addr;
  Some (Z.lor (entry_addr pte) (Z.land virt_addr 0xfff)).

(** [VirtualAddress::phys_addr] *)
Definition phys_addr (s : PagingState) (self : VirtualAddress) : Result Z :=
  ok_or (error_into (EPage (AddressNotMapped self))) (calc_phys_addr (machine s) (KERNEL_PML4_PHYS s) self).

End Paging.

(** ** Bit fields *)

Lemma unot_testbit w x i :
  0 <= x < 2 ^ w -> 0 <= i -> Z.testbit (unot w x) i = (i <? w) && negb (Z.testbit x i).
Proof.
  intros Hx Hi. assert (0 <= w) by (destruct (Z.neg_nonneg_cases w); [rewrite Z.pow_neg_r in Hx; lia|done]).
  assert (Z.ldiff x (Z.ones w) = 0) as Hd.
  { apply Z.bits_inj'. intros j Hj. rewrite Z.ldiff_spec, Z.bits_0, Z.testbit_ones_nonneg by lia.
    destruct (Z.ltb_spec j w); [by rewrite andb_false_r|]. rewrite andb_true_r, <- (Z.mod_small x (2 ^ w)) by lia.
    by apply Z.mod_pow2_bits_high. }
  unfold unot. replace (2 ^ w - 1 - x) with (Z.ones w - x) by (rewrite Z.ones_equiv; lia).
  by rewrite Z.sub_nocarry_ldiff, Z.ldiff_spec, Z.testbit_ones_nonneg by (done || lia).
Qed.

Lemma land_bit e k : 0 <= k -> negb (Z.land e (2 ^ k) =? 0) = Z.testbit e k.
Proof.
  intros Hk. destruct (Z.testbit e k) eqn:Hb.
  - destruct (Z.eqb_spec (Z.land e (2 ^ k)) 0) as [H0|]; [|done].
    assert (Z.testbit (Z.land e (2 ^ k)) k = false) as H1 by (by rewrite H0, Z.bits_0).
    by rewrite Z.land_spec, Hb, Z.pow2_bits_true in H1 by lia.
  - replace (Z.land e (2 ^ k)) with 0; [done|]. symmetry. apply Z.bits_inj'. intros i Hi.
    rewrite Z.land_spec, Z.bits_0, Z.pow2_bits_eqb by lia. destruct (Z.eqb_spec k i) as [<-|]; [by rewrite Hb|].
    by rewrite andb_false_r.
Qed.

Lemma entry_p_bit e : entry_p e = Z.testbit e 0.
Proof. by apply (land_bit e 0). Qed.
Lemma entry_rw_bit e : entry_rw e = if Z.testbit e 1 then Write else Read.
Proof. unfold entry_rw. by rewrite <- (land_bit e 1). Qed.
Lemma entry_us_bit e : entry_us e = if Z.testbit e 2 then User else Supervisor.
Proof. unfold entry_us. by rewrite <- (land_bit e 2). Qed.
Lemma entry_pwt_bit e : entry_pwt e = if Z.testbit e 3 then WriteThrough else WriteBack.
Proof. unfold entry_pwt. by rewrite <- (land_bit e 3). Qed.
Lemma entry_pcd_bit e : entry_pcd e = Z.testbit e 4.
Proof. by apply (land_bit e 4). Qed.
Lemma page_size_bit e : page_size e = Z.testbit e 7.
Proof. by apply (land_bit e 7). Qed.

(** Replacing one bit, and what each setter does to the bits of a 64-bit entry. *)
Lemma set_bit_spec e k b i :
  0 <= k < 64 -> 0 <= i < 64 ->
  Z.testbit (Z.lor (Z.land e (unot 64 (2 ^ k))) (Z.shiftl (Z.b2z b) k)) i
  = if i =? k then b else Z.testbit e i.
Proof.
  intros Hk Hi. pose proof (Z.pow_lt_mono_r 2 k 64 ltac:(lia) ltac:(lia) ltac:(lia)).
  pose proof (Z.pow_pos_nonneg 2 k ltac:(lia) ltac:(lia)).
  rewrite Z.lor_spec, Z.land_spec, unot_testbit, Z.shiftl_spec, Z.pow2_bits_eqb by lia.
  destruct (Z.ltb_spec i 64); [|lia]. rewrite (Z.eqb_sym k i). destruct (Z.eqb_spec i k) as [->|].
  - rewrite Z.sub_diag, andb_false_r. by destruct b.
  - rewrite andb_true_r. replace (Z.testbit (Z.b2z b) (i - k)) with false; [by rewrite orb_false_r|].
    destruct b; [|by rewrite Z.bits_0]. cbn [Z.b2z]. symmetry. change 1 with (2 ^ 0).
    rewrite Z.pow2_bits_false; [done|lia].
Qed.

Lemma mask_bit i : 0 <= i -> Z.testbit ADDR_MASK i = (12 <=? i) && (i <? 39).
Proof.
  intros Hi. change ADDR_MASK with (Z.shiftl (Z.ones 27) 12).
  rewrite Z.shiftl_spec by lia. destruct (Z.leb_spec 12 i); cbn.
  - rewrite Z.testbit_ones_nonneg by lia. bool_cases; lia || done.
  - by rewrite Z.testbit_neg_r by lia.
Qed.

Lemma set_addr_spec e a i :
  0 <= i < 64 ->
  Z.testbit (set_addr e a) i = if (12 <=? i) && (i <? 39) then Z.testbit a i else Z.testbit e i.
Proof.
  intros Hi. unfold set_addr. rewrite Z.lor_spec, !Z.land_spec, unot_testbit, mask_bit by (done || lia).
  destruct (Z.ltb_spec i 64); [|lia]. destruct ((12 <=? i) && (i <? 39)); cbn.
  - by rewrite andb_false_r, andb_true_r.
  - by rewrite andb_true_r, andb_false_r, orb_false_r.
Qed.

(** Bits above the width. *)
Lemma high_bits x i : 0 <= x < 2 ^ 64 -> 64 <= i -> Z.testbit x i = false.
Proof. intros Hx Hi. rewrite <- (Z.mod_small x (2 ^ 64)) by lia. by apply Z.mod_pow2_bits_high. Qed.

Lemma word_bits x : 0 <= x -> (forall i, 64 <= i -> Z.testbit x i = false) -> 0 <= x < 2 ^ 64.
Proof.
  intros Hx Hb. replace x with (x mod 2 ^ 64); [apply Z.mod_pos_bound; lia|].
  apply Z.bits_inj'. intros i Hi. destruct (Z.lt_ge_cases i 64).
  - by rewrite Z.mod_pow2_bits_low by lia.
  - rewrite Z.mod_pow2_bits_high, Hb by lia. done.
Qed.

Lemma lor_land_word e m v : 0 <= e < 2 ^ 64 -> 0 <= v < 2 ^ 64 -> 0 <= Z.lor (Z.land e m) v < 2 ^ 64.
Proof.
  intros He Hv. apply word_bits; [apply Z.lor_nonneg; split; [apply Z.land_nonneg; left|]; lia|].
  intros i Hi. by rewrite Z.lor_spec, Z.land_spec, (high_bits e), (high_bits v) by (done || lia).
Qed.

Lemma land_bound a m : 0 <= m -> 0 <= Z.land a m <= m.
Proof.
  intros Hm. split; [apply Z.land_nonneg; lia|].
  assert (Z.land a m + Z.land (Z.lnot a) m = m) as Hs.
  { rewrite Z.add_nocarry_lxor.
    - apply Z.bits_inj'. intros i Hi. rewrite Z.lxor_spec, !Z.land_spec, Z.lnot_spec by done.
      by destruct (Z.testbit a i), (Z.testbit m i).
    - apply Z.bits_inj'. intros i Hi. rewrite !Z.land_spec, Z.lnot_spec, Z.bits_0 by done.
      by destruct (Z.testbit a i), (Z.testbit m i). }
  assert (0 <= Z.land (Z.lnot a) m) by (apply Z.land_nonneg; lia). lia.
Qed.

Lemma set_rw_bit e rw : set_rw e rw = Z.lor (Z.land e (unot 64 (2 ^ 1))) (Z.shiftl (Z.b2z (rw_u64 rw =? 1)) 1).
Proof. by destruct rw. Qed.
Lemma set_us_bit e us : set_us e us = Z.lor (Z.land e (unot 64 (2 ^ 2))) (Z.shiftl (Z.b2z (us_u64 us =? 1)) 2).
Proof. by destruct us. Qed.
Lemma set_pwt_bit e pwt : set_pwt e pwt = Z.lor (Z.land e (unot 64 (2 ^ 3))) (Z.shiftl (Z.b2z (pwt_u64 pwt =? 1)) 3).
Proof. by destruct pwt. Qed.
Lemma set_p_bit e b : set_p e b = Z.lor (Z.land e (unot 64 (2 ^ 0))) (Z.shiftl (Z.b2z b) 0).
Proof. by destruct b. Qed.

Lemma set_entry_spec e a rw us pwt pcd i :
  0 <= i < 64 ->
  Z.testbit (set_entry e a rw us pwt pcd) i
  = if (12 <=? i) && (i <? 39) then Z.testbit a i
    else if i =? 4 then pcd else if i =? 3 then (pwt_u64 pwt =? 1) else if i =? 2 then (us_u64 us =? 1)
    else if i =? 1 then (rw_u64 rw =? 1) else if i =? 0 then true else Z.testbit e i.
Proof.
  intros Hi. unfold set_entry. rewrite set_addr_spec by done. destruct ((12 <=? i) && (i <? 39)); [done|].
  unfold set_pcd. change 0x10 with (2 ^ 4).
  by rewrite (set_bit_spec _ 4), set_pwt_bit, (set_bit_spec _ 3), set_us_bit, (set_bit_spec _ 2), set_rw_bit,
    (set_bit_spec _ 1), set_p_bit, (set_bit_spec _ 0) by lia.
Qed.

Lemma set_entry_word e a rw us pwt pcd : 0 <= e < 2 ^ 64 -> 0 <= set_entry e a rw us pwt pcd < 2 ^ 64.
Proof.
  intros He. unfold set_entry, set_addr, set_pcd, set_pwt, set_us, set_rw, set_p.
  repeat apply lor_land_word; try done; [by destruct rw|by destruct us|by destruct pwt|by destruct pcd|].
  pose proof (land_bound a ADDR_MASK ltac:(done)). unfold ADDR_MASK in *. lia.
Qed.

(** Everything a walk looks at: the present bit, the large page bit and the address. *)
Definition same_link (e e' : PageTableEntry) : Prop :=
  entry_p e = entry_p e' /\ page_size e = page_size e' /\ entry_addr e = entry_addr e'.

Lemma entry_addr_ext e e' :
  (forall i, 12 <= i < 39 -> Z.testbit e i = Z.testbit e' i) -> entry_addr e = entry_addr e'.
Proof.
  intros Hb. apply Z.bits_inj'. intros i Hi. unfold entry_addr. rewrite !Z.land_spec, mask_bit by done.
  destruct (Z.leb_spec 12 i), (Z.ltb_spec i 39); cbn; rewrite ?andb_false_r; try done. by rewrite Hb by lia.
Qed.

Lemma entry_addr_bound e : 0 <= entry_addr e < 2 ^ 39 /\ entry_addr e mod PAGE_SIZE = 0.
Proof.
  pose proof (land_bound e ADDR_MASK ltac:(done)) as Hb. fold (entry_addr e) in Hb.
  split; [unfold ADDR_MASK in Hb; lia|]. change PAGE_SIZE with (2 ^ 12). apply Z.bits_inj'. intros i Hi.
  rewrite Z.bits_0. destruct (Z.lt_ge_cases i 12); [|by rewrite Z.mod_pow2_bits_high by lia].
  rewrite Z.mod_pow2_bits_low by lia. unfold entry_addr. rewrite Z.land_spec, mask_bit by lia.
  destruct (Z.leb_spec 12 i); [lia|]. by rewrite andb_false_r.
Qed.

(** Page-aligned addresses below 512 GiB survive the mask. *)
Lemma entry_addr_aligned a : 0 <= a < 2 ^ 39 -> a mod PAGE_SIZE = 0 -> entry_addr a = a.
Proof.
  intros Ha Hm. change PAGE_SIZE with (2 ^ 12) in Hm. apply Z.bits_inj'. intros i Hi.
  unfold entry_addr. rewrite Z.land_spec, mask_bit by lia.
  destruct (Z.leb_spec 12 i), (Z.ltb_spec i 39); cbn; rewrite ?andb_true_r, ?andb_false_r; try done; try lia.
  - rewrite <- (Z.mod_small a (2 ^ 39)) by lia. by rewrite Z.mod_pow2_bits_high by lia.
  - rewrite <- (Z.mod_pow2_bits_low a 12), Hm, Z.bits_0 by lia. done.
Qed.

Lemma set_entry_fields e a rw us pwt pcd :
  let e' := set_entry e a rw us pwt pcd in
  entry_p e' = true /\ entry_rw e' = rw /\ entry_us e' = us /\ entry_pwt e' = pwt /\ entry_pcd e' = pcd
  /\ page_size e' = page_size e /\ entry_addr e' = entry_addr a.
Proof.
  cbv zeta. rewrite entry_p_bit, entry_rw_bit, entry_us_bit, entry_pwt_bit, entry_pcd_bit, !page_size_bit.
  rewrite !set_entry_spec by lia. split_and!; try done; [by destruct rw|by destruct us|by destruct pwt|].
  apply entry_addr_ext. intros i Hi. rewrite set_entry_spec by lia.
  destruct (Z.leb_spec 12 i), (Z.ltb_spec i 39); cbn; done || lia.
Qed.

Lemma set_rw_link e rw : same_link (set_rw e rw) e.
Proof.
  rewrite set_rw_bit. split_and!; rewrite ?entry_p_bit, ?page_size_bit, ?(set_bit_spec _ 1) by lia; [done..|].
  apply entry_addr_ext. intros i Hi. rewrite (set_bit_spec _ 1) by lia. bool_cases; done || lia.
Qed.

Lemma set_us_link e us : same_link (set_us e us) e.
Proof.
  rewrite set_us_bit. split_and!; rewrite ?entry_p_bit, ?page_size_bit, ?(set_bit_spec _ 2) by lia; [done..|].
  apply entry_addr_ext. intros i Hi. rewrite (set_bit_spec _ 2) by lia. bool_cases; done || lia.
Qed.

Lemma set_addr_fields e a :
  entry_p (set_addr e a) = entry_p e /\ page_size (set_addr e a) = page_size e
  /\ entry_addr (set_addr e a) = entry_addr a.
Proof.
  rewrite !entry_p_bit, !page_size_bit, !set_addr_spec by lia. split_and!; [done..|].
  apply entry_addr_ext. intros i Hi. rewrite set_addr_spec by lia.
  destruct (Z.leb_spec 12 i), (Z.ltb_spec i 39); cbn; done || lia.
Qed.

Lemma set_rw_word e rw : 0 <= e < 2 ^ 64 -> 0 <= set_rw e rw < 2 ^ 64.
Proof. intros He. apply lor_land_word; [done|by destruct rw]. Qed.
Lemma set_us_word e us : 0 <= e < 2 ^ 64 -> 0 <= set_us e us < 2 ^ 64.
Proof. intros He. apply lor_land_word; [done|by destruct us]. Qed.
Lemma set_addr_word e a : 0 <= e < 2 ^ 64 -> 0 <= set_addr e a < 2 ^ 64.
Proof.
  intros He. apply lor_land_word; [done|]. pose proof (land_bound a ADDR_MASK ltac:(done)).
  unfold ADDR_MASK in *. lia.
Qed.

#[export] Hint Resolve set_entry_word set_rw_word set_us_word set_addr_word : kernel.

(** ** Indices *)

Definition valid_index (i : Z) : Prop := 0 <= i < PAGE_TABLE_ENTRY_LEN.

(** The indices of the three upper tables, and of all four. *)
Definition table_path (va : VirtualAddress) : list Z :=
  [pml4_entry_index va; pml3_entry_index va; pml2_entry_index va].

Lemma index_div va k : 0 <= k -> Z.land (Z.shiftr va k) 0x1ff = va / 2 ^ k mod 512.
Proof.
  intros Hk. rewrite Z.shiftr_div_pow2 by done. change 0x1ff with (Z.ones 9). by rewrite Z.land_ones by lia.
Qed.

Lemma index_valid va k : 0 <= k -> valid_index (Z.land (Z.shiftr va k) 0x1ff).
Proof. intros Hk. rewrite index_div by done. apply Z.mod_pos_bound. done. Qed.

Lemma table_path_valid va : Forall valid_index (table_path va).
Proof. repeat apply Forall_cons_2; [by apply index_valid..|constructor]. Qed.

Lemma digits_inj x y :
  0 <= x < 2 ^ 36 -> 0 <= y < 2 ^ 36 -> x mod 512 = y mod 512 -> x / 2 ^ 9 mod 512 = y / 2 ^ 9 mod 512 ->
  x / 2 ^ 18 mod 512 = y / 2 ^ 18 mod 512 -> x / 2 ^ 27 mod 512 = y / 2 ^ 27 mod 512 -> x = y.
Proof.
  intros Hx Hy H1 H2 H3 H4. assert (forall z, 0 <= z < 2 ^ 36 ->
    z = z mod 512 + 512 * (z / 2 ^ 9 mod 512) + 512 * 512 * (z / 2 ^ 18 mod 512)
        + 512 * 512 * 512 * (z / 2 ^ 27 mod 512)) as Hz.
  { intros z Hz. Z.div_mod_to_equations. lia. }
  rewrite (Hz x Hx), (Hz y Hy). by rewrite H1, H2, H3, H4.
Qed.

(** The four indices determine the low 48 bits of the page's address. *)
Lemma indices_page va vb :
  table_path va = table_path vb -> pml1_entry_index va = pml1_entry_index vb ->
  va / PAGE_SIZE mod 2 ^ 36 = vb / PAGE_SIZE mod 2 ^ 36.
Proof.
  assert (forall z k, 0 <= k <= 27 -> z / 2 ^ (12 + k) mod 512 = (z / PAGE_SIZE mod 2 ^ 36) / 2 ^ k mod 512) as Hd.
  { intros z k Hk. rewrite Z.pow_add_r by lia. rewrite <- Z.div_div by lia. change (2 ^ 12) with PAGE_SIZE.
    set (y := z / PAGE_SIZE). change 512 with (2 ^ 9). rewrite <- !Z.land_ones, <- !Z.shiftr_div_pow2 by lia.
    apply Z.bits_inj'. intros j Hj. rewrite !Z.land_spec, !Z.shiftr_spec, Z.land_spec, !Z.testbit_ones_nonneg by lia.
    destruct (Z.ltb_spec j 9); [|by rewrite !andb_false_r]. destruct (Z.ltb_spec (j + k) 36); [|lia]. by rewrite !andb_true_r. }
  intros [= H4 H3 H2] H1.
  unfold pml4_entry_index, pml3_entry_index, pml2_entry_index, pml1_entry_index in *.
  rewrite !index_div in * by lia.
  pose proof (Hd va 27 ltac:(lia)) as A4. pose proof (Hd va 18 ltac:(lia)) as A3. pose proof (Hd va 9 ltac:(lia)) as A2.
  pose proof (Hd vb 27 ltac:(lia)) as B4. pose proof (Hd vb 18 ltac:(lia)) as B3. pose proof (Hd vb 9 ltac:(lia)) as B2.
  pose proof (Hd va 0 ltac:(lia)) as A1. pose proof (Hd vb 0 ltac:(lia)) as B1.
  change (2 ^ (12 + 0)) with (2 ^ 12) in *. change (2 ^ (12 + 9)) with (2 ^ 21) in *.
  change (2 ^ (12 + 18)) with (2 ^ 30) in *. change (2 ^ (12 + 27)) with (2 ^ 39) in *.
  rewrite Z.pow_0_r, Z.div_1_r in A1, B1.
  apply digits_inj; [by apply Z.mod_pos_bound|by apply Z.mod_pos_bound|congruence..].
Qed.
