(* ===== verification/PagingTree.v ===== *)
(** * Page tables as trees

    What the page table code may assume about the memory and the frame allocator
    ([PhysMemLaws]), the tables reached from a root table as a tree without
    sharing ([tree]), and the effect of the three changes the code makes to such
    a tree: it links a new or a copied table, changes the attributes of a link, and
    writes an entry of a lowest table. *)
From Stdlib Require Import ZArith Lia.
From stdpp Require Import base gmap sets list.
From S2P Require Import Prelude KError Bitmap Paging.

#[local] Open Scope list_scope.
#[local] Open Scope Z_scope.

(** ** The contract of the memory

    [owns m X]: the frames [X] have been handed out and not been given back.
    Physical memory lies below 512 GiB, the addresses an entry can hold. *)

Definition page_of (a : Z) : Z := a / PAGE_SIZE.
Definition is_word (v : Z) : Prop := 0 <= v < 2 ^ 64.
Definition word_at (a : Z) : Prop := a mod 8 = 0.

Class PhysMemLaws (M : Type) `{PhysMem M} := {
  owns : M -> gset Z -> Prop;
  free_set : M -> gset Z;
  owns_not_free : forall m X, owns m X -> X ## free_set m;
  load_word : forall m X a, owns m X -> is_word (load m a);
  store_ok : forall m X a v, owns m X -> word_at a -> page_of a ∈ X -> is_word v ->
    owns (store a v m) X /\ free_set (store a v m) = free_set m
    /\ load (store a v m) a = v
    /\ forall b, word_at b -> b <> a -> load (store a v m) b = load m b;
  alloc_page_ok : forall m X, owns m X ->
    match alloc_page m with
    | (Ok f, m') => exists k, ~ (k ∈ X) /\ 1 <= k < 2 ^ 27 /\ f = frame_at k 1 /\ owns m' ({[k]} ∪ X)
        /\ (k ∈ free_set m /\ free_set m' = free_set m ∖ {[k]})
        /\ forall b, word_at b -> page_of b ∈ X -> load m' b = load m b
    | (Err e, m') => m' = m /\ e = not_found /\ Z.of_nat (size (free_set m)) = 0
    | (Panic, _) => False
    end;
  zero_page_ok : forall m X k, owns m X -> k ∈ X -> exists m', zero_page (frame_at k 1) m = (Ok tt, m')
    /\ owns m' X /\ free_set m' = free_set m
    /\ forall b, word_at b -> load m' b = if page_of b =? k then 0 else load m b;
  dealloc_page_ok : forall m X k, owns m X -> k ∈ X -> exists m', dealloc_page (frame_at k 1) m = (Ok tt, m')
    /\ owns m' (X ∖ {[k]}) /\ free_set m' = {[k]} ∪ free_set m
    /\ forall b, word_at b -> page_of b ∈ X -> page_of b <> k -> load m' b = load m b
}.

(** The number of frames that can be handed out. *)
Definition available {M} `{PhysMemLaws M} (m : M) : Z := Z.of_nat (size (free_set m)).

Lemma available_nonneg {M} `{PhysMemLaws M} (m : M) : 0 <= available m.
Proof. unfold available. lia. Qed.

(** Sizes of a set from which frames were taken. *)
Lemma size_taken (A N : gset Z) : N ⊆ A -> Z.of_nat (size (A ∖ N)) = Z.of_nat (size A) - Z.of_nat (size N).
Proof. intros HN. rewrite size_difference by done. pose proof (subseteq_size _ _ HN). lia. Qed.

Lemma available_take {M} `{PhysMemLaws M} (m m' : M) k :
  k ∈ free_set m /\ free_set m' = free_set m ∖ {[k]} -> available m' = available m - 1.
Proof. intros [Hk E]. unfold available. rewrite E, size_taken, size_singleton; [done|]. by apply singleton_subseteq_l. Qed.

(** ** Locations *)

Definition table_at (t : Z) : Prop := t mod PAGE_SIZE = 0.

Lemma entry_at_loc t i :
  table_at t -> valid_index i -> word_at (entry_at t i) /\ page_of (entry_at t i) = page_of t.
Proof.
  unfold table_at, valid_index, word_at, page_of, entry_at, PAGE_SIZE, PAGE_TABLE_ENTRY_LEN. intros Ht Hi.
  Z.div_mod_to_equations. lia.
Qed.

Lemma entry_at_inj t t' i i' :
  table_at t -> table_at t' -> valid_index i -> valid_index i' ->
  entry_at t i = entry_at t' i' -> t = t' /\ i = i'.
Proof.
  unfold table_at, valid_index, entry_at, PAGE_SIZE, PAGE_TABLE_ENTRY_LEN. intros H1 H2 H3 H4 He.
  Z.div_mod_to_equations. lia.
Qed.

Lemma page_of_inj t t' : table_at t -> table_at t' -> page_of t = page_of t' -> t = t'.
Proof. unfold table_at, page_of, PAGE_SIZE. intros H1 H2 H3. Z.div_mod_to_equations. lia. Qed.

Lemma table_at_frame k : table_at (k * PAGE_SIZE) /\ page_of (k * PAGE_SIZE) = k.
Proof. unfold table_at, page_of. split; [apply Z.mod_mul|apply Z.div_mul]; done. Qed.

Section Tree.
Context {M : Type} `{PhysMemLaws M}.
Implicit Types m : M.

(** ** Walks *)

(** The table reached from [t] along the indices [l]. *)
Fixpoint walk m (t : Z) (l : list Z) : option Z :=
  match l with
  | [] => Some t
  | i :: l => let e := load m (entry_at t i) in
              if entry_p e then walk m (entry_addr e) l else None
  end.

(** The present entry with index [i] of the table reached along [l]. *)
Definition leaf m (root : Z) (l : list Z) (i : Z) : option PageTableEntry :=
  t ← walk m root l;
  let e := load m (entry_at t i) in
  if entry_p e then Some e else None.

Definition path (l : list Z) : Prop := Forall valid_index l /\ (length l <= 3)%nat.

(** The tables under [root] lie in the frames [X]; no table is reached along two
    paths; entries of the upper tables are not large pages. *)
Record tree m (root : Z) (X : gset Z) : Prop := {
  tree_frames : forall l t, path l -> walk m root l = Some t -> table_at t /\ page_of t ∈ X;
  tree_links : forall l t i, path l -> (length l <= 2)%nat -> valid_index i -> walk m root l = Some t ->
    page_size (load m (entry_at t i)) = false;
  tree_inj : forall l l' t, path l -> path l' -> walk m root l = Some t -> walk m root l' = Some t -> l = l'
}.

Lemma table_walk_app m t l l' : walk m t (l ++ l') = t' ← walk m t l; walk m t' l'.
Proof.
  revert t. induction l as [|i l IH]; intros t; cbn; [done|]. destruct (entry_p _); [apply IH|done].
Qed.

Lemma walk_snoc m t l i :
  walk m t (l ++ [i]) = t' ← walk m t l; if entry_p (load m (entry_at t' i))
                                        then Some (entry_addr (load m (entry_at t' i))) else None.
Proof. by rewrite table_walk_app. Qed.

Lemma path_nil : path [].
Proof. split; [apply Forall_nil_2|cbn; lia]. Qed.

Lemma path_app l r : path (l ++ r) -> path l.
Proof. intros [Hf Hl]. apply Forall_app in Hf as [Hf _]. rewrite length_app in Hl. split; [done|lia]. Qed.

Lemma path_snoc l i : path l -> (length l <= 2)%nat -> valid_index i -> path (l ++ [i]).
Proof.
  intros [Hf Hl] Hl2 Hi. split; [apply Forall_app; split; [done|by repeat constructor; apply Hi]|].
  rewrite length_app. cbn. lia.
Qed.

(** A walk reads one entry of each table it passes. *)
Lemma walk_frame m m' t l :
  (forall l1 j r t1, l = l1 ++ j :: r -> walk m t l1 = Some t1 ->
     load m' (entry_at t1 j) = load m (entry_at t1 j)) ->
  walk m' t l = walk m t l.
Proof.
  revert t. induction l as [|i l IH]; intros t Hs; cbn; [done|].
  rewrite (Hs [] i l t) by done. destruct (entry_p _) eqn:Hp; [|done].
  apply IH. intros l1 j r t1 -> Hw. apply (Hs (i :: l1) j r t1); [done|]. cbn. by rewrite Hp.
Qed.

Lemma table_path_path va : path (table_path va).
Proof. split; [apply table_path_valid|cbn; lia]. Qed.

(** What the translation of the code finds is the leaf. *)
Lemma lookup_pte_leaf m root X va :
  tree m root X -> lookup_pte m root va = leaf m root (table_path va) (pml1_entry_index va).
Proof.
  intros Ht. pose proof (tree_links m root X Ht) as Hl. pose proof (table_path_path va) as Hp.
  pose proof (path_app [] _ Hp) as Q0. pose proof (path_app [_] [_; _] Hp) as Q1.
  pose proof (path_app [_; _] [_] Hp) as Q2.
  destruct Hp as [[V4 [V3 [V2 _]%Forall_cons]%Forall_cons]%Forall_cons _].
  unfold lookup_pte, leaf, table_path. cbn [walk]. unfold page_table.
  destruct (entry_p (load m (entry_at root (pml4_entry_index va)))) eqn:P4; [|done]. cbn [negb].
  rewrite (Hl [] root) by (done || (cbn; lia)). cbn [mbind option_bind].
  set (t3 := entry_addr _). destruct (entry_p (load m (entry_at t3 _))) eqn:P3; [|done]. cbn [negb].
  assert (walk m root [pml4_entry_index va] = Some t3) as W3 by (cbn; by rewrite P4).
  rewrite (Hl _ t3 _ Q1) by (done || (cbn; lia)).
  cbn [mbind option_bind]. set (t2 := entry_addr (load m (entry_at t3 _))).
  destruct (entry_p (load m (entry_at t2 _))) eqn:P2; [|done]. cbn [negb].
  assert (walk m root [pml4_entry_index va; pml3_entry_index va] = Some t2) as W2 by (cbn; rewrite P4; fold t3; by rewrite P3).
  rewrite (Hl _ t2 _ Q2) by (done || (cbn; lia)).
  cbn. set (e := load m _). by destruct (entry_p e).
Qed.

(** ** Unchanged tables *)

Lemma tree_loc m root X l t i :
  tree m root X -> path l -> walk m root l = Some t -> valid_index i ->
  word_at (entry_at t i) /\ page_of (entry_at t i) ∈ X.
Proof.
  intros Ht Hl Hw Hi. destruct (tree_frames m root X Ht l t Hl Hw) as [Ha Hx].
  destruct (entry_at_loc t i Ha Hi) as [? ->]. done.
Qed.

Lemma path_mid l1 j r : path (l1 ++ j :: r) -> path l1 /\ valid_index j /\ (length l1 <= 2)%nat.
Proof.
  intros Hp. split; [by apply path_app in Hp|]. destruct Hp as [[_ [Hj _]%Forall_cons]%Forall_app Hl].
  rewrite length_app in Hl. cbn in Hl. split; [done|lia].
Qed.

(** Memory that keeps the frames of a tree keeps its walks. *)
Definition same_on (X : gset Z) m m' : Prop :=
  forall b, word_at b -> page_of b ∈ X -> load m' b = load m b.

Lemma same_on_walk m m' root X l :
  tree m root X -> same_on X m m' -> path l -> walk m' root l = walk m root l.
Proof.
  intros Ht Hs Hl. apply walk_frame. intros l1 j r t1 -> Hw. apply path_mid in Hl as (Hl1 & Hj & _).
  destruct (tree_loc m root X l1 t1 j Ht Hl1 Hw Hj). by apply Hs.
Qed.

Lemma same_on_leaf m m' root X l i :
  tree m root X -> same_on X m m' -> path l -> valid_index i -> leaf m' root l i = leaf m root l i.
Proof.
  intros Ht Hs Hl Hi. unfold leaf. rewrite (same_on_walk m m' root X) by done.
  destruct (walk m root l) as [t|] eqn:Hw; [|done]. cbn.
  destruct (tree_loc m root X l t i Ht Hl Hw Hi). by rewrite Hs.
Qed.

Lemma same_on_tree m m' root X X' :
  tree m root X -> same_on X m m' -> X ⊆ X' -> tree m' root X'.
Proof.
  intros Ht Hs HX. split.
  - intros l t Hl. rewrite (same_on_walk m m' root X) by done. intros Hw.
    destruct (tree_frames m root X Ht l t Hl Hw). split; [done|]. set_solver.
  - intros l t i Hl Hl2 Hi. rewrite (same_on_walk m m' root X) by done. intros Hw.
    destruct (tree_loc m root X l t i Ht Hl Hw Hi). rewrite Hs by done. by apply (tree_links m root X Ht l t i).
  - intros l l' t Hl Hl'. rewrite !(same_on_walk m m' root X) by done. by apply (tree_inj m root X Ht).
Qed.

Lemma same_on_trans X m1 m2 m3 : same_on X m1 m2 -> same_on X m2 m3 -> same_on X m1 m3.
Proof. intros H1 H2 b Hb Hx. by rewrite H2, H1. Qed.

Lemma same_on_sub X X' m m' : same_on X' m m' -> X ⊆ X' -> same_on X m m'.
Proof. intros Hs HX b Hb Hx. apply Hs; [done|set_solver]. Qed.

(** ** A change of one entry

    [m'] is [m] up to the entry [i] of the table [t] and the frame [k]. *)

Definition edited (X : gset Z) (loc k : Z) m m' : Prop :=
  forall b, word_at b -> page_of b ∈ X -> b <> loc -> page_of b <> k -> load m' b = load m b.

Section Edit.
Context (m m' : M) (root : Z) (X : gset Z) (l : list Z) (t i k : Z).
Hypothesis Htree : tree m root X.
Hypothesis Hl : path l.
Hypothesis Ht : walk m root l = Some t.
Hypothesis Hi : valid_index i.
Hypothesis Hk : ~ (k ∈ X).
Hypothesis Hed : edited X (entry_at t i) k m m'.

(** Reads at other places of the tree. *)
Lemma edit_other l1 t1 j :
  path l1 -> walk m root l1 = Some t1 -> valid_index j -> l1 ++ [j] <> l ++ [i] ->
  load m' (entry_at t1 j) = load m (entry_at t1 j).
Proof.
  intros Hl1 Hw Hj Hne. destruct (tree_loc m root X l1 t1 j Htree Hl1 Hw Hj) as [Ha Hx].
  apply Hed; [done|done| |by intros <-]. intros He. apply Hne.
  destruct (tree_frames _ _ _ Htree l1 t1 Hl1 Hw) as [Hat1 _].
  destruct (tree_frames _ _ _ Htree l t Hl Ht) as [Hat _].
  apply entry_at_inj in He as [-> ->]; [|done..]. by rewrite (tree_inj _ _ _ Htree l1 l t).
Qed.

(** Walks that do not pass the changed entry. *)
Lemma edit_apart l' : path l' -> (forall r, l' <> l ++ i :: r) -> walk m' root l' = walk m root l'.
Proof.
  intros Hl' Hne. apply walk_frame. intros l1 j r t1 -> Hw. apply path_mid in Hl' as (Hl1 & Hj & _).
  apply (edit_other l1); [done..|]. intros [-> ->]%app_inj_tail. by apply (Hne r).
Qed.

Lemma edit_above : walk m' root l = Some t.
Proof.
  rewrite edit_apart; [done|done|]. intros r Hr. apply (f_equal length) in Hr. rewrite length_app in Hr. cbn in Hr. lia.
Qed.

(** Walks below the changed entry, from a table that was there before. *)
Lemma edit_below r1 r2 t1 :
  path (l ++ i :: r1 ++ r2) -> walk m root (l ++ i :: r1) = Some t1 -> walk m' t1 r2 = walk m t1 r2.
Proof.
  intros Hp Hw. apply walk_frame. intros l1 j r t2 -> Hw2.
  assert (walk m root (l ++ i :: r1 ++ l1) = Some t2) as Hw'.
  { change (l ++ i :: r1 ++ l1) with (l ++ (i :: r1) ++ l1). rewrite app_assoc, table_walk_app.
    change (l ++ i :: r1) with (l ++ (i :: r1)) in Hw. by rewrite Hw. }
  replace (l ++ i :: r1 ++ l1 ++ j :: r) with ((l ++ i :: r1 ++ l1) ++ j :: r) in Hp
    by (rewrite <- app_assoc; cbn; by rewrite <- app_assoc).
  apply path_mid in Hp as (Hp & Hj & _). apply (edit_other (l ++ i :: r1 ++ l1)); [done..|].
  intros He. apply app_inj_tail in He as [He _]. apply (f_equal length) in He.
  rewrite length_app in He. cbn in He. lia.
Qed.

Lemma path_cases l' : {r | l' = l ++ i :: r} + {forall r, l' <> l ++ i :: r}.
Proof.
  destruct (decide (l ++ [i] `prefix_of` l')) as [Hp|Hn].
  - left. exists (drop (length (l ++ [i])) l'). destruct Hp as [r ->].
    rewrite drop_app_length. by rewrite <- app_assoc.
  - right. intros r ->. apply Hn. exists r. by rewrite <- app_assoc.
Qed.

(** *** A table in a fresh frame is linked

    It is empty if the entry was not present, and a copy of the old table otherwise. *)
Section Link.
Hypothesis Hl2 : (length l <= 2)%nat.
Let t' := k * PAGE_SIZE.
Hypothesis Hp : entry_p (load m' (entry_at t i)) = true.
Hypothesis Hps : page_size (load m' (entry_at t i)) = false.
Hypothesis Haddr : entry_addr (load m' (entry_at t i)) = t'.
Hypothesis Hcontent : forall j, valid_index j ->
  load m' (entry_at t' j) = match walk m root (l ++ [i]) with Some t0 => load m (entry_at t0 j) | None => 0 end.

Lemma link_walk l' :
  path l' -> walk m' root l' = if decide (l' = l ++ [i]) then Some t' else walk m root l'.
Proof using All.
  intros Hl'. destruct (path_cases l') as [[r ->]|Hn].
  2: { rewrite decide_False by apply Hn. by apply edit_apart. }
  rewrite table_walk_app, edit_above. cbn [mbind option_bind]. change (walk m' t (i :: r))
    with (if entry_p (load m' (entry_at t i)) then walk m' (entry_addr (load m' (entry_at t i))) r else None).
  rewrite Hp, Haddr. destruct r as [|j r]; [by rewrite decide_True|].
  rewrite decide_False by (intros He; apply (f_equal length) in He; rewrite !length_app in He; cbn in He; lia).
  assert (valid_index j) as Hj.
  { destruct Hl' as [[_ [_ [Hj _]%Forall_cons]%Forall_cons]%Forall_app _]. done. }
  cbn [walk]. rewrite Hcontent by done.
  replace (l ++ i :: j :: r) with ((l ++ [i]) ++ j :: r) by (by rewrite <- app_assoc).
  rewrite (table_walk_app m root (l ++ [i])). destruct (walk m root (l ++ [i])) as [t0|] eqn:Hw0; [|done]. cbn [mbind option_bind walk].
  destruct (entry_p (load m (entry_at t0 j))) eqn:Hpj; [|done].
  apply (edit_below [j] r); [done|]. replace (l ++ [i; j]) with ((l ++ [i]) ++ [j]) by (by rewrite <- app_assoc).
  rewrite walk_snoc, Hw0. cbn [mbind option_bind]. by rewrite Hpj.
Qed.

(** The entries of the tables are where they were, except the changed one. *)
Lemma link_entry l' t1 j :
  path l' -> walk m' root l' = Some t1 -> valid_index j -> l' ++ [j] <> l ++ [i] ->
  match walk m root l' with
  | Some t2 => load m' (entry_at t1 j) = load m (entry_at t2 j)
  | None => load m' (entry_at t1 j) = 0
  end.
Proof using All.
  intros Hl' Hw Hj Hne. rewrite link_walk in Hw by done. destruct (decide (l' = l ++ [i])) as [->|].
  - injection Hw as <-. rewrite Hcontent by done. by destruct (walk m root (l ++ [i])).
  - rewrite Hw. by apply (edit_other l').
Qed.

Lemma link_tree : tree m' root ({[k]} ∪ X).
Proof using All.
  assert (forall l' t1, path l' -> walk m' root l' = Some t1 -> table_at t1 /\ page_of t1 ∈ {[k]} ∪ X) as Hfr.
  { intros l' t1 Hl' Hw. rewrite link_walk in Hw by done. destruct (decide _).
    - injection Hw as <-. destruct (table_at_frame k) as [? Hpg]. split; [done|]. unfold t'. rewrite Hpg. set_solver.
    - destruct (tree_frames _ _ _ Htree l' t1 Hl' Hw). set_solver. }
  assert (forall l' t1, path l' -> walk m root l' = Some t1 -> t1 <> t') as Hfresh.
  { intros l' t1 Hl' Hw ->. destruct (tree_frames _ _ _ Htree l' t' Hl' Hw) as [_ Hx].
    apply Hk. unfold t' in Hx. by rewrite (proj2 (table_at_frame k)) in Hx. }
  split; [done| |].
  - intros l' t1 j Hl' Hl2' Hj Hw. destruct (decide (l' ++ [j] = l ++ [i])) as [[-> ->]%app_inj_tail|Hne].
    { rewrite edit_above in Hw. injection Hw as <-. done. }
    pose proof (link_entry l' t1 j Hl' Hw Hj Hne) as He.
    destruct (walk m root l') as [t2|] eqn:H2; rewrite He; [|done]. by apply (tree_links _ _ _ Htree l').
  - intros l1 l2 t1 Hl1 Hl2' W1 W2. rewrite link_walk in W1, W2 by done.
    destruct (decide (l1 = _)) as [->|], (decide (l2 = _)) as [->|]; [done|..].
    + injection W1 as <-. by apply Hfresh in W2.
    + injection W2 as <-. by apply Hfresh in W1.
    + by apply (tree_inj _ _ _ Htree l1 l2 t1).
Qed.

Lemma link_leaf l' j : path l' -> length l' = 3%nat -> valid_index j -> leaf m' root l' j = leaf m root l' j.
Proof using All.
  intros Hl' H3 Hj. unfold leaf. destruct (walk m' root l') as [t1|] eqn:Hw.
  - pose proof (link_entry l' t1 j Hl' Hw Hj) as He. cbn.
    destruct (walk m root l') as [t2|] eqn:H2; rewrite He; try done;
      intros [-> _]%app_inj_tail; lia.
  - rewrite link_walk in Hw by done. destruct (decide _); [done|]. by rewrite Hw.
Qed.

End Link.

(** *** The attributes of a link change *)
Section Relink.
Hypothesis Hl2 : (length l <= 2)%nat.
Hypothesis Hsame : same_link (load m' (entry_at t i)) (load m (entry_at t i)).

Lemma relink_walk l' : path l' -> walk m' root l' = walk m root l'.
Proof using All.
  intros Hl'. destruct (path_cases l') as [[r ->]|Hn]; [|by apply edit_apart].
  rewrite !table_walk_app, edit_above, Ht. cbn [mbind option_bind].
  destruct Hsame as (Hp & _ & Ha). change (walk m' t (i :: r))
    with (if entry_p (load m' (entry_at t i)) then walk m' (entry_addr (load m' (entry_at t i))) r else None).
  cbn [walk]. rewrite Hp, Ha. destruct (entry_p (load m (entry_at t i))) eqn:Hp'; [|done].
  apply (edit_below [] r); [done|]. rewrite walk_snoc, Ht. cbn [mbind option_bind]. by rewrite Hp'.
Qed.

Lemma relink_entry l' t1 j :
  path l' -> walk m root l' = Some t1 -> valid_index j ->
  same_link (load m' (entry_at t1 j)) (load m (entry_at t1 j))
  /\ ((3 <= length l')%nat -> load m' (entry_at t1 j) = load m (entry_at t1 j)).
Proof using All.
  intros Hl' Hw Hj. destruct (decide (l' ++ [j] = l ++ [i])) as [[-> ->]%app_inj_tail|Hne].
  - rewrite Ht in Hw. injection Hw as <-. split; [done|lia].
  - by rewrite (edit_other l').
Qed.

Lemma relink_tree : tree m' root X.
Proof using All.
  split.
  - intros l' t1 Hl'. rewrite relink_walk by done. by apply (tree_frames _ _ _ Htree).
  - intros l' t1 j Hl' Hl2' Hj. rewrite relink_walk by done. intros Hw.
    destruct (relink_entry l' t1 j Hl' Hw Hj) as [(Hp & Hs & _) _]. rewrite Hs.
    by apply (tree_links _ _ _ Htree l').
  - intros l1 l2 t1 H1 H2. rewrite !relink_walk by done. by apply (tree_inj _ _ _ Htree).
Qed.

Lemma relink_leaf l' j : path l' -> length l' = 3%nat -> valid_index j -> leaf m' root l' j = leaf m root l' j.
Proof using All.
  intros Hl' H3 Hj. unfold leaf. rewrite relink_walk by done.
  destruct (walk m root l') as [t1|] eqn:Hw; [|done]. cbn.
  destruct (relink_entry l' t1 j Hl' Hw Hj) as [_ He]. by rewrite He by lia.
Qed.

End Relink.

(** *** An entry of a lowest table is written *)
Section Leaf.
Hypothesis Hl3 : length l = 3%nat.

Lemma leaf_walk l' : path l' -> walk m' root l' = walk m root l'.
Proof using All.
  intros Hl'. apply edit_apart; [done|]. intros r ->. destruct Hl' as [_ Hlen].
  rewrite length_app in Hlen. cbn in Hlen. lia.
Qed.

Lemma leaf_tree : tree m' root X.
Proof using All.
  split.
  - intros l' t1 Hl'. rewrite leaf_walk by done. by apply (tree_frames _ _ _ Htree).
  - intros l' t1 j Hl' Hl2' Hj. rewrite leaf_walk by done. intros Hw.
    rewrite (edit_other l'); [by apply (tree_links _ _ _ Htree l')|done..|]. intros [-> _]%app_inj_tail. lia.
  - intros l1 l2 t1 H1 H2. rewrite !leaf_walk by done. by apply (tree_inj _ _ _ Htree).
Qed.

Lemma leaf_other l' j : path l' -> valid_index j -> l' ++ [j] <> l ++ [i] -> leaf m' root l' j = leaf m root l' j.
Proof using All.
  intros Hl' Hj Hne. unfold leaf. rewrite leaf_walk by done.
  destruct (walk m root l') as [t1|] eqn:Hw; [|done]. cbn. by rewrite (edit_other l').
Qed.

Lemma leaf_written : leaf m' root l i = if entry_p (load m' (entry_at t i)) then Some (load m' (entry_at t i)) else None.
Proof using All. unfold leaf. rewrite leaf_walk, Ht by done. done. Qed.

End Leaf.

End Edit.

End Tree.
