(* ===== verification/PagingMap.v ===== *)
(** * Mapping ranges of pages

    The page table code on the trees of [PagingTree]: [grown] is the progress a
    run makes on the tables under one root, and every operation, for the kernel's
    table and for a task's copy-on-write tables, is shown to make it. *)
From Stdlib Require Import ZArith Lia.
From stdpp Require Import base gmap sets list.
From S2P Require Import Prelude KError Bitmap Paging PagingTree.

#[local] Open Scope list_scope.
#[local] Open Scope Z_scope.

(** Permissions of an entry, compared as the code compares them. *)
Definition allows (e : PageTableEntry) (rw : ReadWrite) (us : EntryMode) : Prop :=
  rw_u64 rw <= rw_u64 (entry_rw e) /\ us_u64 us <= us_u64 (entry_us e).

Definition perm_le (e e' : PageTableEntry) : Prop := allows e' (entry_rw e) (entry_us e).

Lemma perm_le_refl e : perm_le e e.
Proof. split; lia. Qed.

Lemma allows_le e e' rw us : allows e rw us -> perm_le e e' -> allows e' rw us.
Proof. intros [? ?] [? ?]. split; lia. Qed.

Lemma perm_le_trans e1 e2 e3 : perm_le e1 e2 -> perm_le e2 e3 -> perm_le e1 e3.
Proof. intros H1 H2. by apply (allows_le e2). Qed.

#[export] Hint Resolve perm_le_refl : kernel.

(** ** How many tables a range needs

    A page needs the tables of its path that are not on the path of the page before. *)

Fixpoint common_len (l l' : list Z) : Z :=
  match l, l' with
  | i :: l, j :: l' => if i =? j then 1 + common_len l l' else 0
  | _, _ => 0
  end.

Fixpoint tables_needed (prev : list Z) (pages : list Z) : Z :=
  match pages with
  | [] => 0
  | va :: pages => 3 - common_len prev (table_path va) + tables_needed (table_path va) pages
  end.

Section Map.
Context {M : Type} `{PhysMemLaws M}.
Implicit Types m : M.

(** ** Progress

    The run has taken the frames [N] and linked them as tables; [X] are the frames
    in use, [Y] those of the tables under [root] and [U] those that may be
    written.  Links only gain permissions, tables in [U] stay where they are, and
    nothing else that is in use is changed. *)
Record grown (root : Z) (X Y U : gset Z) m (N : gset Z) m' : Prop := {
  gr_owns : owns m' (N ∪ X);
  gr_tree : tree m' root (N ∪ Y);
  gr_fresh : N ## X;
  gr_free : N ⊆ free_set m /\ free_set m' = free_set m ∖ N;
  gr_links : forall l i e, path l -> (length l <= 2)%nat -> valid_index i -> leaf m root l i = Some e ->
    exists e', leaf m' root l i = Some e' /\ perm_le e e';
  gr_kept : forall l t, path l -> walk m root l = Some t -> page_of t ∈ U -> walk m' root l = Some t;
  gr_frame : same_on (X ∖ U) m m'
}.

Definition same_leaves (root : Z) m m' : Prop :=
  forall l i, path l -> length l = 3%nat -> valid_index i -> leaf m' root l i = leaf m root l i.

(** The table along [l] is there and may be written; so are all tables on the way. *)
Definition mine m (root : Z) (U : gset Z) (l : list Z) : Prop :=
  exists t, walk m root l = Some t /\ page_of t ∈ U.
Definition mine_path m (root : Z) (U : gset Z) (l : list Z) : Prop :=
  forall l1 l2, l = l1 ++ l2 -> mine m root U l1.

Lemma gr_avail root X Y U m N m' :
  grown root X Y U m N m' -> available m' = available m - Z.of_nat (size N).
Proof. intros G. destruct (gr_free _ _ _ _ _ _ _ G) as [HN E]. unfold available. rewrite E. by apply size_taken. Qed.

Lemma grown_refl root X Y U m : owns m X -> tree m root Y -> grown root X Y U m ∅ m.
Proof.
  intros Ho Ht. split; rewrite ?(left_id_L ∅ (∪)); try done; [by rewrite difference_empty_L; split; [apply empty_subseteq|]|].
  intros l i e _ _ _ He. eauto with kernel.
Qed.

Lemma grown_trans root X Y U m N m' N' m'' :
  grown root X Y U m N m' -> grown root (N ∪ X) (N ∪ Y) (N ∪ U) m' N' m'' ->
  grown root X Y U m (N' ∪ N) m''.
Proof.
  intros G1 G2. pose proof (gr_fresh _ _ _ _ _ _ _ G1) as F1. pose proof (gr_fresh _ _ _ _ _ _ _ G2) as F2. split.
  - rewrite <- (assoc_L (∪)). apply G2.
  - rewrite <- (assoc_L (∪)). apply G2.
  - set_solver.
  - destruct (gr_free _ _ _ _ _ _ _ G1) as [S1 E1], (gr_free _ _ _ _ _ _ _ G2) as [S2 E2].
    rewrite E2, E1 in *. split; [set_solver|]. apply set_eq. set_solver.
  - intros l i e Hl Hl2 Hi He. destruct (gr_links _ _ _ _ _ _ _ G1 l i e Hl Hl2 Hi He) as (e1 & He1 & Hle1).
    destruct (gr_links _ _ _ _ _ _ _ G2 l i e1 Hl Hl2 Hi He1) as (e2 & He2 & Hle2).
    exists e2. split; [done|]. by eapply perm_le_trans.
  - intros l t Hl Hw Hu. apply (gr_kept _ _ _ _ _ _ _ G2); [done| |set_solver]. by apply (gr_kept _ _ _ _ _ _ _ G1).
  - eapply same_on_trans; [apply G1|]. eapply same_on_sub; [apply G2|]. set_solver.
Qed.

Lemma mine_grown root X Y U m N m' l :
  grown root X Y U m N m' -> path l -> mine m root U l -> mine m' root (N ∪ U) l.
Proof. intros G Hl (t & Hw & Hu). exists t. split; [by apply (gr_kept _ _ _ _ _ _ _ G)|set_solver]. Qed.

Lemma mine_path_grown root X Y U m N m' l :
  grown root X Y U m N m' -> path l -> mine_path m root U l -> mine_path m' root (N ∪ U) l.
Proof. intros G Hl Hm l1 l2 ->. eapply mine_grown; [done|by apply path_app in Hl|by apply (Hm l1 l2)]. Qed.

(** ** Single writes *)

Lemma update_entry_run m X loc f :
  owns m X -> word_at loc -> page_of loc ∈ X -> is_word (f (load m loc)) ->
  exists m', update_entry loc f m = (Ok tt, m') /\ owns m' X /\ free_set m' = free_set m
    /\ load m' loc = f (load m loc) /\ forall b, word_at b -> b <> loc -> load m' b = load m b.
Proof.
  intros Ho Hw Hx Hf. destruct (store_ok m X loc (f (load m loc)) Ho Hw Hx Hf) as (H1 & H2 & H3 & H4).
  eexists. split; [done|]. done.
Qed.

Lemma set_rw_perm e rw : entry_rw (set_rw e rw) = rw /\ entry_us (set_rw e rw) = entry_us e.
Proof.
  rewrite !entry_rw_bit, !entry_us_bit, set_rw_bit, !(set_bit_spec _ 1) by lia. split; [by destruct rw|done].
Qed.

Lemma set_us_perm e us : entry_us (set_us e us) = us /\ entry_rw (set_us e us) = entry_rw e.
Proof.
  rewrite !entry_rw_bit, !entry_us_bit, set_us_bit, !(set_bit_spec _ 2) by lia. split; [by destruct us|done].
Qed.

Lemma set_addr_perm e a : entry_rw (set_addr e a) = entry_rw e /\ entry_us (set_addr e a) = entry_us e.
Proof. by rewrite !entry_rw_bit, !entry_us_bit, !set_addr_spec by lia. Qed.

(** A write that changes attributes only. *)
Definition reattributed (X : gset Z) (loc : Z) (P : PageTableEntry -> Prop) (r : Result unit * M) m : Prop :=
  exists m', r = (Ok tt, m') /\ owns m' X /\ free_set m' = free_set m
    /\ same_link (load m' loc) (load m loc) /\ perm_le (load m loc) (load m' loc) /\ P (load m' loc)
    /\ forall b, word_at b -> b <> loc -> load m' b = load m b.

Lemma cond_update m X loc (c : bool) f (P : PageTableEntry -> Prop) :
  owns m X -> word_at loc -> page_of loc ∈ X ->
  (c = true -> is_word (f (load m loc)) /\ same_link (f (load m loc)) (load m loc)
               /\ perm_le (load m loc) (f (load m loc)) /\ P (f (load m loc))) ->
  (c = false -> P (load m loc)) ->
  reattributed X loc P ((if c then update_entry loc f else sret tt) m) m.
Proof.
  intros Ho Hw Hx Hc Hn. destruct c.
  - destruct (Hc eq_refl) as (H1 & H2 & H3 & H4).
    destruct (update_entry_run m X loc f Ho Hw Hx H1) as (m' & Hr & Ho' & Ha & He & Hb).
    exists m'. rewrite He. done.
  - exists m. split_and!; eauto with kernel; done.
Qed.

Lemma raise_rw_run m X loc rw :
  owns m X -> word_at loc -> page_of loc ∈ X ->
  reattributed X loc (fun e => rw_u64 rw <= rw_u64 (entry_rw e)) (raise_rw loc rw m) m.
Proof.
  intros Ho Hw Hx. apply cond_update; [done..| |]; intros Hc.
  - destruct (set_rw_perm (load m loc) rw) as [E1 E2]. apply Z.ltb_lt in Hc. split_and!.
    + apply set_rw_word, (load_word m X); done.
    + apply set_rw_link.
    + split; rewrite ?E1, ?E2; lia.
    + rewrite E1. lia.
  - apply Z.ltb_ge in Hc. lia.
Qed.

Lemma raise_us_run m X loc us :
  owns m X -> word_at loc -> page_of loc ∈ X ->
  reattributed X loc (fun e => us_u64 us <= us_u64 (entry_us e)) (raise_us loc us m) m.
Proof.
  intros Ho Hw Hx. apply cond_update; [done..| |]; intros Hc.
  - destruct (set_us_perm (load m loc) us) as [E1 E2]. apply Z.ltb_lt in Hc. split_and!.
    + apply set_us_word, (load_word m X); done.
    + apply set_us_link.
    + split; rewrite ?E1, ?E2; lia.
    + rewrite E1. lia.
  - apply Z.ltb_ge in Hc. lia.
Qed.

Lemma same_link_trans e1 e2 e3 : same_link e1 e2 -> same_link e2 e3 -> same_link e1 e3.
Proof. intros (A1 & A2 & A3) (B1 & B2 & B3). split_and!; congruence. Qed.

(** The attributes after [raise_rw] and [raise_us]. *)
Lemma raise_run m X loc rw us :
  owns m X -> word_at loc -> page_of loc ∈ X ->
  reattributed X loc (fun e => allows e rw us) ((do! raise_rw loc rw in raise_us loc us) m) m.
Proof.
  intros Ho Hw Hx. destruct (raise_rw_run m X loc rw Ho Hw Hx) as (m1 & R1 & O1 & A1 & L1 & P1 & Q1 & F1).
  destruct (raise_us_run m1 X loc us O1 Hw Hx) as (m2 & R2 & O2 & A2 & L2 & P2 & Q2 & F2).
  exists m2. split_and!.
  - unfold sbind. by rewrite R1.
  - done.
  - congruence.
  - by eapply same_link_trans.
  - by eapply perm_le_trans.
  - split; [|done]. destruct P2 as [P2 _]. lia.
  - intros b Hb Hne. by rewrite F2, F1.
Qed.

(** ** Copies of tables *)

Lemma copy_loop X src dst (n : nat) : forall m a,
  owns m X -> table_at src -> table_at dst -> page_of src <> page_of dst -> page_of dst ∈ X ->
  0 <= a -> a + Z.of_nat n <= PAGE_TABLE_ENTRY_LEN ->
  exists m', sfor (seqZ a (Z.of_nat n)) (fun i =>
      smodify (fun m => store (entry_at dst i) (load m (entry_at src i)) m) : SR M unit) m = (Ok tt, m')
    /\ owns m' X /\ free_set m' = free_set m
    /\ (forall j, a <= j < a + Z.of_nat n -> load m' (entry_at dst j) = load m (entry_at src j))
    /\ (forall b, word_at b -> (forall j, a <= j < a + Z.of_nat n -> b <> entry_at dst j) -> load m' b = load m b).
Proof.
  induction n as [|n IH]; intros m a Ho Hs Hd Hne Hx Ha Hn.
  { exists m. split_and!; [done..| |done]. intros j Hj. lia. }
  rewrite seqZ_cons by lia. replace (Z.pred (Z.of_nat (S n))) with (Z.of_nat n) by lia.
  replace (Z.succ a) with (a + 1) by lia.
  assert (forall j, a <= j < a + Z.of_nat (S n) -> valid_index j) as Hv
    by (intros j Hj; unfold valid_index; lia).
  destruct (entry_at_loc dst a Hd (Hv a ltac:(lia))) as [Hw Hpg].
  destruct (store_ok m X (entry_at dst a) (load m (entry_at src a))) as (O1 & A1 & E1 & F1);
    [done|done|by rewrite Hpg|by eapply load_word|].
  destruct (IH (store (entry_at dst a) (load m (entry_at src a)) m) (a + 1)) as (m' & Hr & O2 & A2 & C2 & F2);
    [done..|lia|lia|].
  exists m'. split_and!; [exact Hr|done|congruence| |].
  - intros j Hj. destruct (decide (j = a)) as [->|].
    + rewrite F2; [done|done|]. intros j' Hj' He. apply entry_at_inj in He; [lia|done|done|apply Hv; lia..].
    + rewrite C2 by lia. destruct (entry_at_loc src j Hs (Hv j Hj)) as [Hws Hps].
      apply F1; [done|]. intros He. apply Hne. rewrite <- Hps, <- Hpg. by rewrite He.
  - intros b Hb Hout. rewrite F2; [|done|intros j Hj; apply Hout; lia]. apply F1; [done|]. apply Hout. lia.
Qed.

Lemma copy_entries_run X src k m :
  owns m X -> table_at src -> page_of src <> k -> k ∈ X ->
  exists m', copy_entries src (k * PAGE_SIZE) m = (Ok tt, m') /\ owns m' X /\ free_set m' = free_set m
    /\ (forall j, valid_index j -> load m' (entry_at (k * PAGE_SIZE) j) = load m (entry_at src j))
    /\ (forall b, word_at b -> page_of b <> k -> load m' b = load m b).
Proof.
  intros Ho Hs Hne Hk. destruct (table_at_frame k) as [Hd Hpg].
  destruct (copy_loop X src (k * PAGE_SIZE) 512 m 0) as (m' & Hr & O & A & C & F);
    [done|done|done|by rewrite Hpg|by rewrite Hpg|lia|done|].
  exists m'. split_and!; [exact Hr|done|done|exact C|].
  intros b Hb Hnk. apply F; [done|]. intros j Hj ->. apply Hnk. rewrite <- Hpg at 2. by apply entry_at_loc.
Qed.

(** ** The changes as progress *)

Lemma leaf_Some m root l i e :
  leaf m root l i = Some e <-> exists t, walk m root l = Some t /\ e = load m (entry_at t i) /\ entry_p e = true.
Proof.
  unfold leaf. destruct (walk m root l) as [t|]; cbn.
  - destruct (entry_p (load m (entry_at t i))) eqn:Hp; split.
    + intros [= <-]. eauto.
    + by intros (t1 & [= <-] & -> & _).
    + done.
    + intros (t1 & [= <-] & -> & ?). congruence.
  - split; [done|]. by intros (? & ? & _).
Qed.

Section Progress.
Context (root : Z) (X Y U : gset Z) (m : M) (l : list Z) (t i : Z).
Hypothesis Hown : owns m X.
Hypothesis HYX : Y ⊆ X.
Hypothesis Htree : tree m root Y.
Hypothesis Hl : path l.
Hypothesis Ht : walk m root l = Some t.
Hypothesis Hi : valid_index i.
Hypothesis Hmine : page_of t ∈ U.
Let loc := entry_at t i.

Lemma loc_facts : word_at loc /\ page_of loc ∈ X /\ page_of loc ∈ U.
Proof using All.
  destruct (tree_frames _ _ _ Htree l t Hl Ht) as [Ha Hy]. destruct (entry_at_loc t i Ha Hi) as [Hw Hpg].
  unfold loc. rewrite Hpg. split_and!; [done|set_solver|done].
Qed.

Lemma link_grown m' k :
  (length l <= 2)%nat -> ~ (k ∈ X) -> ~ mine m root U (l ++ [i]) ->
  owns m' ({[k]} ∪ X) -> (k ∈ free_set m /\ free_set m' = free_set m ∖ {[k]}) ->
  (forall b, word_at b -> page_of b ∈ X -> b <> loc -> load m' b = load m b) ->
  entry_p (load m' loc) = true -> page_size (load m' loc) = false ->
  entry_addr (load m' loc) = k * PAGE_SIZE ->
  (entry_p (load m loc) = true -> perm_le (load m loc) (load m' loc)) ->
  (forall j, valid_index j -> load m' (entry_at (k * PAGE_SIZE) j)
     = match walk m root (l ++ [i]) with Some t0 => load m (entry_at t0 j) | None => 0 end) ->
  grown root X Y U m {[k]} m' /\ same_leaves root m m'.
Proof using All.
  intros Hl2 Hk Hnm Ho Hav Hed Hp Hps Ha Hle Hc.
  assert (~ (k ∈ Y)) as HkY by set_solver.
  assert (edited Y loc k m m') as Hed' by (intros b Hb Hy Hne _; apply Hed; [done|set_solver|done]).
  assert (forall l', path l' -> walk m' root l' = if decide (l' = l ++ [i]) then Some (k * PAGE_SIZE) else walk m root l')
    as Hwalk by (intros l' Hl'; by apply (link_walk m m' root Y l t i k)).
  split; [split|].
  - done.
  - by apply (link_tree m m' root Y l t i k).
  - set_solver.
  - destruct Hav. split; [set_solver|done].
  - intros l' j e Hl' Hl2' Hj (t2 & Hw2 & -> & Hpe)%leaf_Some.
    destruct (decide (l' ++ [j] = l ++ [i])) as [[-> ->]%app_inj_tail|Hne].
    { rewrite Ht in Hw2. injection Hw2 as <-. exists (load m' loc). split; [|by apply Hle].
      apply leaf_Some. exists t. split_and!; [|done|done]. by apply (edit_above m m' root Y l t i k). }
    assert (exists t1, walk m' root l' = Some t1) as [t1 Hw1].
    { rewrite Hwalk by done. destruct (decide _); eauto. }
    pose proof (link_entry m m' root Y l t i k Htree Hl Ht Hi HkY Hed' Hl2 Hp Hps Ha Hc l' t1 j Hl' Hw1 Hj Hne) as He.
    rewrite Hw2 in He. exists (load m (entry_at t2 j)). split; [|apply perm_le_refl].
    apply leaf_Some. exists t1. done.
  - intros l' t1 Hl' Hw1 Hu. rewrite Hwalk by done. destruct (decide _) as [->|]; [|done].
    exfalso. apply Hnm. by exists t1.
  - intros b Hb Hx. apply Hed; [done|set_solver|]. intros ->.
    destruct loc_facts as (_ & _ & ?). set_solver.
  - intros l' j Hl' H3 Hj. by apply (link_leaf m m' root Y l t i k).
Qed.

Lemma relink_grown P r :
  (length l <= 2)%nat -> reattributed X loc P r m ->
  exists m1, r = (Ok tt, m1) /\ grown root X Y U m ∅ m1 /\ same_leaves root m m1
    /\ P (load m1 loc) /\ same_link (load m1 loc) (load m loc).
Proof using All.
  intros Hl2 (m1 & -> & Ho & Hav & Hsl & Hle & HP & Hed). exists m1. split; [done|].
  assert (exists k, ~ (k ∈ Y)) as [k Hk] by (exists (fresh Y); apply is_fresh).
  assert (edited Y loc k m m1) as Hed' by (intros b Hb _ Hne _; by apply Hed).
  assert (forall l', path l' -> walk m1 root l' = walk m root l') as Hwalk
    by (intros l' Hl'; by apply (relink_walk m m1 root Y l t i k)).
  split_and!; try done; [split|].
  - by rewrite (left_id_L ∅ (∪)).
  - rewrite (left_id_L ∅ (∪)). by apply (relink_tree m m1 root Y l t i k).
  - set_solver.
  - rewrite Hav, difference_empty_L. split; [apply empty_subseteq|done].
  - intros l' j e Hl' Hl2' Hj (t2 & Hw2 & -> & Hpe)%leaf_Some. exists (load m1 (entry_at t2 j)).
    destruct (relink_entry m m1 root Y l t i k Htree Hl Ht Hi Hk Hed' Hl2 Hsl l' t2 j Hl' Hw2 Hj) as [(Hp' & _) _].
    split; [apply leaf_Some; exists t2; rewrite Hwalk by done; split_and!; [done|done|congruence]|].
    destruct (decide (entry_at t2 j = loc)) as [->|Hne]; [done|].
    destruct (tree_loc m root Y l' t2 j Htree Hl' Hw2 Hj). rewrite Hed by done. apply perm_le_refl.
  - intros l' t1 Hl' Hw1 _. by rewrite Hwalk.
  - intros b Hb Hx. apply Hed; [done|]. intros ->. destruct loc_facts as (_ & _ & ?). set_solver.
  - intros l' j Hl' H3 Hj. by apply (relink_leaf m m1 root Y l t i k).
Qed.

(** Writing an entry of a lowest table. *)
Lemma write_leaf_grown f :
  length l = 3%nat -> is_word (f (load m loc)) ->
  exists m1, update_entry loc f m = (Ok tt, m1) /\ grown root X Y U m ∅ m1
    /\ (forall l' j, path l' -> length l' = 3%nat -> valid_index j -> l' ++ [j] <> l ++ [i] ->
          leaf m1 root l' j = leaf m root l' j)
    /\ leaf m1 root l i = if entry_p (f (load m loc)) then Some (f (load m loc)) else None.
Proof using All.
  intros H3 Hf. destruct loc_facts as (Hw & Hx & Hu).
  destruct (update_entry_run m X loc f Hown Hw Hx Hf) as (m1 & Hr & Ho & Hav & He & Hed).
  assert (exists k, ~ (k ∈ Y)) as [k Hk] by (exists (fresh Y); apply is_fresh).
  assert (edited Y loc k m m1) as Hed' by (intros b Hb _ Hne _; by apply Hed).
  assert (forall l', path l' -> walk m1 root l' = walk m root l') as Hwalk
    by (intros l' Hl'; by apply (leaf_walk m m1 root Y l t i k)).
  exists m1. split_and!; [done|split|..].
  - by rewrite (left_id_L ∅ (∪)).
  - rewrite (left_id_L ∅ (∪)). by apply (leaf_tree m m1 root Y l t i k).
  - set_solver.
  - rewrite Hav, difference_empty_L. split; [apply empty_subseteq|done].
  - intros l' j e Hl' Hl2' Hj Hle. exists e. split; [|apply perm_le_refl].
    rewrite (leaf_other m m1 root Y l t i k); [done..|]. intros [-> _]%app_inj_tail. lia.
  - intros l' t1 Hl' Hw1 _. by rewrite Hwalk.
  - intros b Hb Hxb. apply Hed; [done|]. intros ->. set_solver.
  - intros l' j Hl' _ Hj Hne. by apply (leaf_other m m1 root Y l t i k).
  - rewrite (leaf_written m m1 root Y l t i k); [|done..]. by rewrite <- He.
Qed.

(** *** A new table *)
Lemma new_table_run rw us pwt pcd :
  (length l <= 2)%nat -> entry_p (load m loc) = false ->
  match (let! f := alloc_page in
         do! zero_page f in
         do! update_entry loc (fun e => set_entry e (frame_start_phys_addr f) rw us pwt pcd) in
         sret f) m with
  | (Ok f, m1) => exists k, f = frame_at k 1 /\ ~ (k ∈ X) /\ grown root X Y U m {[k]} m1 /\ same_leaves root m m1
      /\ mine m1 root ({[k]} ∪ U) (l ++ [i]) /\ exists e, leaf m1 root l i = Some e /\ allows e rw us
  | (Err e, m1) => m1 = m /\ e = not_found /\ available m = 0
  | (Panic, _) => False
  end.
Proof using All.
  intros Hl2 Hp. destruct loc_facts as (Hw & Hx & Hu). pose proof (alloc_page_ok m X Hown) as Hal.
  unfold sbind at 1. destruct (alloc_page m) as [[f|e|] m0]; [|done|done].
  destruct Hal as (k & Hk & Hkb & -> & O0 & A0 & F0). destruct (table_at_frame k) as [Hta Hpg].
  destruct (zero_page_ok m0 ({[k]} ∪ X) k O0 ltac:(set_solver)) as (m1 & R1 & O1 & A1 & F1).
  unfold sbind at 1. rewrite R1.
  set (f := fun e => _). assert (load m1 loc = load m loc) as Eloc.
  { rewrite F1 by done. destruct (Z.eqb_spec (page_of loc) k) as [<-|_]; [by apply Hk in Hx|]. by apply F0. }
  destruct (update_entry_run m1 ({[k]} ∪ X) loc f) as (m2 & R2 & O2 & A2 & E2 & F2);
    [done|done|set_solver|apply set_entry_word; by apply (load_word m1 _ loc O1)|].
  unfold sbind. rewrite R2. exists k. split; [done|]. split; [done|].
  destruct (set_entry_fields (load m1 loc) (frame_start_phys_addr (frame_at k 1)) rw us pwt pcd)
    as (P1 & P2 & P3 & _ & _ & P6 & P7).
  fold (f (load m1 loc)) in P1, P2, P3, P6, P7. rewrite <- E2 in P1, P2, P3, P6, P7.
  rewrite (entry_addr_aligned (frame_start_phys_addr _)) in P7; [|cbn [frame_at frame_start_phys_addr]; unfold PAGE_SIZE; lia|done].
  cbn [frame_at frame_start_phys_addr] in P7.
  assert (walk m root (l ++ [i]) = None) as Hnone by (rewrite walk_snoc, Ht; cbn -[entry_at]; fold loc; by rewrite Hp).
  assert (forall b, word_at b -> b <> loc -> page_of b <> k -> load m2 b = load m0 b) as Hother.
  { intros b Hb Hne Hnk. rewrite F2, F1 by done. by destruct (Z.eqb_spec (page_of b) k). }
  destruct (link_grown m2 k) as [G L]; try done.
  - intros (t0 & Hw0 & _). congruence.
  - rewrite A2, A1. done.
  - intros b Hb Hxb Hne. rewrite Hother, F0; [done|done|done|done|done|]. by intros <-.
  - rewrite P6, Eloc. by apply (tree_links _ _ _ Htree l).
  - congruence.
  - intros j Hj. rewrite Hnone. destruct (entry_at_loc (k * PAGE_SIZE) j Hta Hj) as [Hwj Hpj].
    rewrite F2, F1 by (done || (intros He; apply Hk; rewrite <- Hpg, <- Hpj, He; done)).
    rewrite Hpj, Hpg. by rewrite Z.eqb_refl.
  - pose proof (gr_kept _ _ _ _ _ _ _ G l t Hl Ht Hmine) as Ht2. split_and!; [done|done| |].
    + exists (k * PAGE_SIZE). rewrite Hpg. split; [|set_solver].
      rewrite walk_snoc, Ht2. cbn -[entry_at]. fold loc. by rewrite P1, P7.
    + exists (load m2 loc). split; [apply leaf_Some; by exists t|]. split; rewrite ?P2, ?P3; lia.
Qed.

(** *** A copied table *)
Lemma clone_table_run :
  (length l <= 2)%nat -> entry_p (load m loc) = true -> ~ mine m root U (l ++ [i]) ->
  match (let! f := clone_table_entries (entry_addr (load m loc)) in
         do! update_entry loc (fun e => set_addr e (frame_start_phys_addr f)) in
         sret f) m with
  | (Ok f, m1) => exists k, f = frame_at k 1 /\ ~ (k ∈ X) /\ grown root X Y U m {[k]} m1 /\ same_leaves root m m1
      /\ mine m1 root ({[k]} ∪ U) (l ++ [i])
  | (Err e, m1) => m1 = m /\ e = not_found /\ available m = 0
  | (Panic, _) => False
  end.
Proof using All.
  intros Hl2 Hp Hnm. destruct loc_facts as (Hw & Hx & Hu). pose proof (alloc_page_ok m X Hown) as Hal.
  remember (entry_addr (load m loc)) as src eqn:Esrc.
  assert (walk m root (l ++ [i]) = Some src) as Hsrc.
  { rewrite walk_snoc, Ht. cbn -[entry_at]. fold loc. by rewrite Hp, Esrc. }
  clear Esrc.
  destruct (tree_frames _ _ _ Htree (l ++ [i]) src (path_snoc l i Hl Hl2 Hi) Hsrc) as [Hst Hsx].
  unfold sbind, clone_table_entries, sbind. destruct (alloc_page m) as [[f|e|] m0]; [|done|done].
  destruct Hal as (k & Hk & Hkb & -> & O0 & A0 & F0). destruct (table_at_frame k) as [Hta Hpg].
  change (frame_start_phys_addr (frame_at k 1)) with (k * PAGE_SIZE).
  destruct (copy_entries_run ({[k]} ∪ X) src k m0) as (m1 & R1 & O1 & A1 & C1 & F1);
    [done|done|set_solver|set_solver|]. rewrite R1. clear R1. unfold sret. cbn beta iota.
  change (frame_start_phys_addr (frame_at k 1)) with (k * PAGE_SIZE).
  assert (page_of loc <> k) as Hlk by (by intros <-).
  assert (load m1 loc = load m loc) as Eloc by (rewrite F1, F0; done).
  destruct (update_entry_run m1 ({[k]} ∪ X) loc (fun e : PageTableEntry => set_addr e (k * PAGE_SIZE))) as (m2 & R2 & O2 & A2 & E2 & F2);
    [done|done|set_solver|apply set_addr_word; by apply (load_word m1 _ loc O1)|].
  rewrite R2. exists k. split; [done|]. split; [done|].
  rewrite Eloc in E2. destruct (set_addr_fields (load m loc) (k * PAGE_SIZE)) as (P1 & P6 & P7).
  rewrite <- E2 in P1, P6, P7. rewrite (entry_addr_aligned (k * PAGE_SIZE)) in P7;
    [|unfold PAGE_SIZE; lia|done].
  destruct (link_grown m2 k) as [G L]; try done.
  - rewrite A2, A1. done.
  - intros b Hb Hxb Hne. assert (page_of b <> k) by (by intros <-). by rewrite F2, F1, F0.
  - congruence.
  - rewrite P6. by apply (tree_links _ _ _ Htree l).
  - intros _. destruct (set_addr_perm (load m loc) (k * PAGE_SIZE)) as [Q1 Q2].
    rewrite E2. split; rewrite ?Q1, ?Q2; lia.
  - intros j Hj. rewrite Hsrc. destruct (entry_at_loc (k * PAGE_SIZE) j Hta Hj) as [Hwj Hpj].
    destruct (entry_at_loc src j Hst Hj) as [Hws Hps].
    rewrite F2, C1, F0; [done|done|rewrite Hps; set_solver|done|done|]. intros He. apply Hlk. by rewrite <- He, Hpj.
  - split_and!; [done..|]. exists (k * PAGE_SIZE). rewrite Hpg. split; [|set_solver].
    rewrite walk_snoc, (gr_kept _ _ _ _ _ _ _ G l t Hl Ht Hmine). cbn -[entry_at]. fold loc. by rewrite P1, Hp, P7.
Qed.

(** The table along [l ++ \[i\]] is there, may be written and is linked with the
    wanted permissions; at most one frame was taken, none if it was there before. *)
Definition ensured (rw : ReadWrite) (us : EntryMode) (N : gset Z) (m1 : M) : Prop :=
  grown root X Y U m N m1 /\ same_leaves root m m1 /\ (size N <= 1)%nat
  /\ (mine m root U (l ++ [i]) -> N = ∅) /\ mine m1 root (N ∪ U) (l ++ [i])
  /\ exists e, leaf m1 root l i = Some e /\ allows e rw us.

End Progress.

Lemma raise_ensured root X Y U m l t i rw us N m1 :
  tree m root Y -> path l -> walk m root l = Some t -> valid_index i -> page_of t ∈ U ->
  (length l <= 2)%nat -> N ∪ Y ⊆ N ∪ X ->
  grown root X Y U m N m1 -> same_leaves root m m1 -> (size N <= 1)%nat ->
  (mine m root U (l ++ [i]) -> N = ∅) -> mine m1 root (N ∪ U) (l ++ [i]) ->
  exists m2, (do! raise_rw (entry_at t i) rw in raise_us (entry_at t i) us) m1 = (Ok tt, m2)
    /\ ensured root X Y U m l i rw us N m2.
Proof.
  intros Htree Hl Ht Hi Hu Hl2 HYX G L Hs Hn Hm.
  pose proof (gr_kept _ _ _ _ _ _ _ G l t Hl Ht Hu) as Ht1.
  destruct (loc_facts root (N ∪ X) (N ∪ Y) (N ∪ U) m1 l t i) as (F1 & F2 & F3);
    [apply G|done|apply G|done|done|done|by apply elem_of_union_r|].
  pose proof (raise_run m1 (N ∪ X) (entry_at t i) rw us (gr_owns _ _ _ _ _ _ _ G) F1 F2) as Hr.
  destruct (relink_grown root (N ∪ X) (N ∪ Y) (N ∪ U) m1 l t i) with (P := fun e => allows e rw us)
    (r := (do! raise_rw (entry_at t i) rw in raise_us (entry_at t i) us) m1) as (m2 & R2 & G2 & L2 & P2 & S2);
    [apply G|done|apply G|done|done|done|by apply elem_of_union_r|done|done|].
  exists m2. split; [done|]. pose proof (grown_trans _ _ _ _ _ _ _ _ _ G G2) as G'.
  rewrite (left_id_L ∅ (∪)) in G'. split_and!; [done| |done|done| |].
  - intros l' j Hl' H3 Hj. by rewrite L2, L.
  - destruct Hm as (t1 & Hw1 & Hu1). exists t1. split; [|done]. apply (gr_kept _ _ _ _ _ _ _ G2); [by apply path_snoc|done|done].
  - exists (load m2 (entry_at t i)). split; [|done]. apply leaf_Some. exists t. split_and!; [|done|].
    + apply (gr_kept _ _ _ _ _ _ _ G2); [done|done|by apply elem_of_union_r].
    + destruct Hm as (t1 & Hw1 & _). rewrite walk_snoc, Ht1 in Hw1. cbn -[entry_at] in Hw1.
      destruct S2 as (-> & _). by destruct (entry_p (load m1 (entry_at t i))).
Qed.


Lemma sbind_then {S E A} (a b : ST S E unit) (k : ST S E A) s s' :
  (do! a in b) s = (Ok tt, s') -> (do! a in do! b in k) s = k s'.
Proof.
  unfold sbind. destruct (a s) as [[[]|e|] s1]; [|done|done]. destruct (b s1) as [[[]|e|] s2]; [|done|done].
  by intros [= ->].
Qed.

Lemma sbind_owned {S E A B} (a : ST S E A) (b c : A -> ST S E unit) (k : A -> ST S E B) s :
  (let! x := a in do! b x in do! c x in k x) s
  = (let! x := (let! x := a in do! b x in do! c x in sret x) in k x) s.
Proof.
  unfold sbind. destruct (a s) as [[x|e|] s1]; [|done|done]. destruct (b x s1) as [[[]|e|] s2]; [|done|done].
  by destruct (c x s2) as [[[]|e|] s3].
Qed.

(** The tables of a task: those it owns may be written, the others are copied. *)
Definition frames_of (ks : list Z) : list MemoryFrame := (fun k => frame_at k 1) <$> ks.
Definition own_set (root : Z) (ks : list Z) : gset Z := list_to_set (page_of root :: ks).

Lemma own_set_app root ks ks' : own_set root (ks ++ ks') = list_to_set ks' ∪ own_set root ks.
Proof. unfold own_set. cbn [list_to_set]. rewrite list_to_set_app_L. set_solver. Qed.

Lemma on_mem_bind {A B} (a : SR M A) (k : A -> SR M B) (F : list MemoryFrame) m0 :
  sbind (on_mem a) (fun x => on_mem (k x)) (F, m0) = on_mem (sbind a k) (F, m0).
Proof. unfold sbind, on_mem. cbn. destruct (a m0) as [[x|e|] m1]; [|done|done]. done. Qed.

(** The two ways in which [ensure_task_table] takes a frame. *)
Lemma sbind_new (a : SR M MemoryFrame) (b c : MemoryFrame -> SR M unit) (F : list MemoryFrame) m0 :
  (let! f := on_mem a in do! on_mem (b f) in do! on_mem (c f) in push_frame f) (F, m0)
  = match (let! f := a in do! b f in do! c f in sret f) m0 with
    | (Ok f, m1) => (Ok tt, (F ++ [f], m1))
    | (Err e, m1) => (Err e, (F, m1))
    | (Panic, m1) => (Panic, (F, m1))
    end.
Proof.
  unfold sbind, on_mem. cbn. destruct (a m0) as [[f|e|] m1]; [|done|done]. cbn.
  destruct (b f m1) as [[[]|e|] m2]; [|done|done]. cbn. by destruct (c f m2) as [[[]|e|] m3].
Qed.

Lemma sbind_clone {A} (a : SR M MemoryFrame) (c : MemoryFrame -> SR M unit) (k : SR (list MemoryFrame * M) A)
    (F : list MemoryFrame) m0 :
  (do! (let! f := on_mem a in do! on_mem (c f) in push_frame f) in k) (F, m0)
  = match (let! f := a in do! c f in sret f) m0 with
    | (Ok f, m1) => k (F ++ [f], m1)
    | (Err e, m1) => (Err e, (F, m1))
    | (Panic, m1) => (Panic, (F, m1))
    end.
Proof.
  unfold sbind, on_mem. cbn. destruct (a m0) as [[f|e|] m1]; [|done|done]. cbn.
  by destruct (c f m1) as [[[]|e|] m2].
Qed.

(** ** One level *)

Section Level.
Context (root : Z) (X Y U : gset Z) (m : M) (l : list Z) (t i : Z).
Hypothesis Hown : owns m X.
Hypothesis HYX : Y ⊆ X.
Hypothesis Htree : tree m root Y.
Hypothesis Hl : path l.
Hypothesis Hl2 : (length l <= 2)%nat.
Hypothesis Ht : walk m root l = Some t.
Hypothesis Hi : valid_index i.
Hypothesis Hmine : page_of t ∈ U.
Let loc := entry_at t i.

Lemma union_mono (N : gset Z) : N ∪ Y ⊆ N ∪ X.
Proof using All. by apply union_mono_l. Qed.

(** The kernel's tables, all of which may be written. *)
Lemma ensure_pte_run rw us pwt pcd :
  Y ⊆ U ->
  match ensure_pte t i rw us pwt pcd alloc_page m with
  | (Ok (frame, pte), m1) => pte = loc
      /\ (frame = None \/ exists k, frame = Some (frame_at k 1))
      /\ exists N, ensured root X Y U m l i rw us N m1
  | (Err e, m1) => m1 = m /\ e = not_found /\ available m = 0 /\ ~ mine m root U (l ++ [i])
  | (Panic, _) => False
  end.
Proof using All.
  intros HYU. unfold ensure_pte. fold loc. unfold sbind at 1, sget. unfold sbind at 1.
  destruct (entry_p (load m loc)) eqn:Hp; cbn [negb].
  - unfold sret at 1.
    assert (mine m root U (l ++ [i])) as Hm.
    { assert (walk m root (l ++ [i]) = Some (entry_addr (load m loc))) as Hw
        by (rewrite walk_snoc, Ht; cbn -[entry_at]; fold loc; by rewrite Hp).
      exists (entry_addr (load m loc)). split; [done|]. apply HYU.
      by apply (tree_frames _ _ _ Htree (l ++ [i])); [apply path_snoc|]. }
    destruct (raise_ensured root X Y U m l t i rw us ∅ m) as (m2 & R2 & E2); try done.
    { apply union_mono. }
    { by apply grown_refl. }
    { by rewrite size_empty; lia. }
    { by rewrite (left_id_L ∅ (∪)). }
    rewrite (sbind_then _ _ _ _ _ R2). cbn. split_and!; [done|by left|by exists ∅].
  - pose proof (new_table_run root X Y U m l t i Hown HYX Htree Hl Ht Hi Hmine rw us pwt pcd Hl2 Hp) as Hr.
    assert (~ mine m root U (l ++ [i])) as Hnm.
    { intros (t1 & Hw1 & _). rewrite walk_snoc, Ht in Hw1. cbn -[entry_at] in Hw1. fold loc in Hw1. by rewrite Hp in Hw1. }
    rewrite sbind_owned. revert Hr. fold loc. unfold sbind at 4.
    destruct (sbind alloc_page _ m) as [[f|e|] m2]; [|by intros (-> & ? & ?)|done].
    intros (k & -> & Hk & G & L & Hm2 & _). cbn [sret].
    destruct (raise_ensured root X Y U m l t i rw us {[k]} m2) as (m3 & R3 & E3); try done.
    { apply union_mono. }
    { rewrite size_singleton. lia. }
    rewrite (sbind_then _ _ _ _ _ R3). cbn. split_and!; [done|right; by exists k|by exists {[k]}].
Qed.

Lemma is_owned_mine ks :
  U = own_set root ks -> entry_p (load m loc) = true ->
  existsb (fun f => frame_start_phys_addr f =? entry_addr (load m loc)) (frames_of ks) = true
  <-> mine m root U (l ++ [i]).
Proof using All.
  intros HU Hp. set (t0 := entry_addr (load m loc)).
  assert (walk m root (l ++ [i]) = Some t0) as Hw
    by (rewrite walk_snoc, Ht; cbn -[entry_at]; fold loc; by rewrite Hp).
  pose proof (path_snoc l i Hl Hl2 Hi) as Hpl.
  destruct (tree_frames _ _ _ Htree _ _ Hpl Hw) as [Hta _].
  rewrite existsb_exists. split.
  - intros (f & (k & -> & Hk)%list_elem_of_In%list_elem_of_fmap & He%Z.eqb_eq).
    exists t0. split; [done|]. rewrite <- He. cbn [frame_at frame_start_phys_addr].
    rewrite (proj2 (table_at_frame k)), HU. unfold own_set. set_solver.
  - intros (t1 & Hw1 & Hu). rewrite Hw in Hw1. injection Hw1 as <-. rewrite HU in Hu.
    unfold own_set in Hu. cbn in Hu. apply elem_of_union in Hu as [Hr%elem_of_singleton|Hk%elem_of_list_to_set].
    + exfalso. destruct (tree_frames _ _ _ Htree [] root) as [Hra _]; [apply path_nil|done|].
      assert (t0 = root) as He by (by apply page_of_inj).
      assert (l ++ [i] = []) as Hbad; [|by apply app_eq_nil in Hbad as [_ ?]].
      apply (tree_inj _ _ _ Htree (l ++ [i]) [] root); [done|apply path_nil|by rewrite Hw, He|done].
    + exists (frame_at (page_of t0) 1). split; [apply list_elem_of_In; apply list_elem_of_fmap; by exists (page_of t0)|].
      apply Z.eqb_eq. cbn [frame_at frame_start_phys_addr]. unfold page_of. unfold table_at in Hta.
      pose proof (Z.div_mod t0 PAGE_SIZE ltac:(done)). lia.
Qed.

Lemma on_mem_raise_run ks rw m1 ks' :
  grown root X Y U m (list_to_set ks') m1 -> same_leaves root m m1 -> (length ks' <= 1)%nat ->
  (mine m root U (l ++ [i]) -> ks' = []) -> mine m1 root (list_to_set ks' ∪ U) (l ++ [i]) ->
  exists m2, (do! on_mem (raise_rw loc rw) in on_mem (raise_us loc User)) (frames_of (ks ++ ks'), m1)
             = (Ok tt, (frames_of (ks ++ ks'), m2))
    /\ ensured root X Y U m l i rw User (list_to_set ks') m2.
Proof using All.
  intros G L Hs Hn Hm. destruct (raise_ensured root X Y U m l t i rw User (list_to_set ks') m1) as (m2 & R2 & E2);
    try done.
  - apply union_mono.
  - destruct ks' as [|k [|k' ks']]; cbn in *; [rewrite size_empty; lia| |lia].
    rewrite (right_id_L ∅ (∪)), size_singleton. lia.
  - intros Hmi. by rewrite (Hn Hmi).
  - exists m2. split; [|done]. rewrite (on_mem_bind (raise_rw loc rw) (fun _ => raise_us loc User)). unfold on_mem. cbn [fst snd]. fold loc in R2; by rewrite R2.
Qed.

Lemma ensure_task_table_run ks rw pwt pcd :
  U = own_set root ks ->
  match ensure_task_table loc rw pwt pcd (frames_of ks, m) with
  | (Ok _, s) => exists ks' m1, s = (frames_of (ks ++ ks'), m1) /\ NoDup ks'
      /\ ensured root X Y U m l i rw User (list_to_set ks') m1
  | (Err e, s) => s = (frames_of ks, m) /\ e = not_found /\ available m = 0 /\ ~ mine m root U (l ++ [i])
  | (Panic, _) => False
  end.
Proof using All.
  intros HU. unfold ensure_task_table. unfold sbind at 1, sget. cbn [fst snd].
  destruct (entry_p (load m loc)) eqn:Hp; cbn [negb].
  - pose proof (is_owned_mine ks HU Hp) as Hiff. destruct (existsb _ _); cbn [negb].
    + rewrite (sbind_run (sret tt) _ _ tt (frames_of ks, m)) by done.
      destruct (on_mem_raise_run ks rw m []) as (m2 & R2 & E2); cbn [list_to_set];
        [by apply grown_refl|done|cbn; lia|done|rewrite (left_id_L ∅ (∪)); by apply Hiff|].
      rewrite app_nil_r in R2. rewrite R2. exists [], m2. rewrite app_nil_r. split_and!; [done|apply NoDup_nil_2|done].
    + assert (~ mine m root U (l ++ [i])) as Hnm by (intros Hm; by apply Hiff in Hm).
      pose proof (clone_table_run root X Y U m l t i Hown HYX Htree Hl Ht Hi Hmine Hl2 Hp Hnm) as Hr.
      rewrite sbind_clone. revert Hr. fold loc. destruct (sbind (clone_table_entries _) _ m) as [[f|e|] m1]; [| |done].
      2: { intros (-> & ? & ?). done. }
      intros (k & -> & Hk & G & L & Hm1).
      destruct (on_mem_raise_run ks rw m1 [k]) as (m2 & R2 & E2); cbn [list_to_set];
        rewrite ?(right_id_L ∅ (∪)); try done.
      unfold frames_of in R2. rewrite fmap_app in R2. cbn [fmap list_fmap] in R2.
      fold (frames_of ks) in R2. rewrite R2. exists [k], m2.
      unfold frames_of at 2. rewrite fmap_app. split_and!; [done|apply NoDup_singleton|done].
  - pose proof (new_table_run root X Y U m l t i Hown HYX Htree Hl Ht Hi Hmine rw User pwt pcd Hl2 Hp) as Hr.
    assert (~ mine m root U (l ++ [i])) as Hnm.
    { intros (t1 & Hw1 & _). rewrite walk_snoc, Ht in Hw1. cbn -[entry_at] in Hw1. fold loc in Hw1. by rewrite Hp in Hw1. }
    rewrite sbind_new. revert Hr. fold loc. destruct (sbind alloc_page _ m) as [[f|e|] m1]; [| |done].
    2: { intros (-> & ? & ?). done. }
    intros (k & -> & Hk & G & L & Hm1 & He). exists [k], m1. unfold frames_of at 2. rewrite fmap_app. cbn [list_to_set].
    rewrite (right_id_L ∅ (∪)). split_and!; [done|apply NoDup_singleton|].
    split_and!; [done|done|rewrite size_singleton; lia|done|done|done].
Qed.

End Level.

(** ** All levels of a page *)

(** Every link on the way along [L] allows the access. *)
Definition allowed_on m (root : Z) (L : list Z) (rw : ReadWrite) (us : EntryMode) : Prop :=
  forall l1 j l2, L = l1 ++ j :: l2 -> exists e, leaf m root l1 j = Some e /\ allows e rw us.

Lemma allowed_on_grown root X Y U m N m1 L rw us :
  grown root X Y U m N m1 -> path L -> allowed_on m root L rw us -> allowed_on m1 root L rw us.
Proof.
  intros G HL Ha l1 j l2 ->. apply path_mid in HL as (Hl1 & Hj & Hl2).
  destruct (Ha l1 j l2 eq_refl) as (e & He & Hal).
  destruct (gr_links _ _ _ _ _ _ _ G l1 j e Hl1 Hl2 Hj He) as (e' & He' & Hle). exists e'. split; [done|].
  by eapply allows_le.
Qed.

(** The tables along [L] are there for writing, at the cost of at most [n] frames. *)
Definition descended root X Y U m L (n : Z) rw us (N : gset Z) m1 : Prop :=
  grown root X Y U m N m1 /\ same_leaves root m m1 /\ Z.of_nat (size N) <= n
  /\ mine_path m1 root (N ∪ U) L /\ allowed_on m1 root L rw us.

(** The frames ran out on the way. *)
Definition exhausted root X Y U m (n : Z) (N : gset Z) m1 : Prop :=
  grown root X Y U m N m1 /\ same_leaves root m m1 /\ available m1 = 0 /\ Z.of_nat (size N) < n.

Lemma mine_path_snoc m root U l i : mine_path m root U l -> mine m root U (l ++ [i]) -> mine_path m root U (l ++ [i]).
Proof.
  intros Hp Hm l1 l2 He. destruct l2 as [|j l2 _] using rev_ind.
  - rewrite app_nil_r in He. by rewrite <- He.
  - rewrite app_assoc in He. apply app_inj_tail in He as [-> _]. by apply (Hp l1 l2).
Qed.

Lemma allowed_on_snoc m root l i rw us e :
  allowed_on m root l rw us -> leaf m root l i = Some e -> allows e rw us -> allowed_on m root (l ++ [i]) rw us.
Proof.
  intros Hp He Ha l1 j l2 Heq. destruct l2 as [|j' l2 _] using rev_ind.
  - apply app_inj_tail in Heq as [-> ->]. eauto.
  - replace (l1 ++ j :: l2 ++ [j']) with ((l1 ++ j :: l2) ++ [j']) in Heq by (by rewrite <- app_assoc).
    apply app_inj_tail in Heq as [-> _]. by apply (Hp l1 j l2).
Qed.

Lemma mine_path_nil m root U : page_of root ∈ U -> mine_path m root U [].
Proof. intros Hu l1 l2 He. symmetry in He. apply app_eq_nil in He as [-> _]. by exists root. Qed.

Lemma allowed_on_nil m root rw us : allowed_on m root [] rw us.
Proof. intros l1 j l2 He. symmetry in He. by apply app_eq_nil in He as [_ ?]. Qed.

(** The first [k] of the tables still to come are there already. *)
Lemma ensured_descended root X Y U m l i rest (k : nat) rw us N m1 :
  path (l ++ i :: rest) -> (k <= S (length rest))%nat ->
  mine_path m root U (l ++ take k (i :: rest)) -> allowed_on m root l rw us ->
  ensured root X Y U m l i rw us N m1 ->
  descended root X Y U m (l ++ [i]) (if decide (k = 0%nat) then 1 else 0) rw us N m1
  /\ mine_path m1 root (N ∪ U) ((l ++ [i]) ++ take (pred k) rest).
Proof.
  intros Hp Hk Hm Ha (G & L & Hs & Hn & Hmi & e & He & Hal).
  assert (path l) as Hl by (by apply path_app in Hp).
  assert (path (l ++ [i])) as Hli.
  { replace (l ++ i :: rest) with ((l ++ [i]) ++ rest) in Hp by (by rewrite <- app_assoc). by apply path_app in Hp. }
  assert (mine_path m1 root (N ∪ U) (l ++ [i])) as Hmp.
  { apply mine_path_snoc; [|done]. apply (mine_path_grown _ _ _ _ _ _ _ _ G Hl).
    intros l1 l2 ->. apply (Hm l1 (l2 ++ take k (i :: rest))). by rewrite app_assoc. }
  split; [split_and!; [done|done| |done|]|].
  - destruct (decide (k = 0%nat)) as [|Hk0]; [lia|]. rewrite Hn; [by rewrite size_empty|].
    destruct k as [|k]; [done|]. apply (Hm (l ++ [i]) (take k rest)). by rewrite <- app_assoc.
  - apply (allowed_on_snoc _ _ _ _ _ _ e); [|done|done]. by apply (allowed_on_grown _ _ _ _ _ _ _ _ _ _ G).
  - destruct k as [|k]; [by rewrite app_nil_r|]. cbn [pred]. apply (mine_path_grown _ _ _ _ _ _ _ _ G).
    + replace (l ++ i :: rest) with (((l ++ [i]) ++ take k rest) ++ drop k rest) in Hp
        by (rewrite <- !app_assoc; cbn; by rewrite take_drop). by apply path_app in Hp.
    + intros l1 l2 He'. apply (Hm l1 l2). rewrite <- He', <- app_assoc. done.
Qed.

Lemma descended_trans root X Y U m l n rw us N m1 L n' N' m2 :
  descended root X Y U m l n rw us N m1 ->
  descended root (N ∪ X) (N ∪ Y) (N ∪ U) m1 L n' rw us N' m2 ->
  descended root X Y U m L (n + n') rw us (N' ∪ N) m2.
Proof.
  intros (G1 & L1 & S1 & _) (G2 & L2 & S2 & M2 & A2). pose proof (grown_trans _ _ _ _ _ _ _ _ _ G1 G2) as G.
  split_and!; [done| | | |done].
  - intros l' j Hl' H3 Hj. by rewrite L2, L1.
  - pose proof (gr_avail _ _ _ _ _ _ _ G). pose proof (gr_avail _ _ _ _ _ _ _ G1).
    pose proof (gr_avail _ _ _ _ _ _ _ G2). lia.
  - by rewrite <- (assoc_L (∪)).
Qed.

Lemma exhausted_trans root X Y U m l n rw us N m1 n' N' m2 :
  descended root X Y U m l n rw us N m1 ->
  exhausted root (N ∪ X) (N ∪ Y) (N ∪ U) m1 n' N' m2 ->
  exhausted root X Y U m (n + n') (N' ∪ N) m2.
Proof.
  intros (G1 & L1 & S1 & _) (G2 & L2 & A2 & S2). pose proof (grown_trans _ _ _ _ _ _ _ _ _ G1 G2) as G.
  split_and!; [done| |done|].
  - intros l' j Hl' H3 Hj. by rewrite L2, L1.
  - pose proof (gr_avail _ _ _ _ _ _ _ G). pose proof (gr_avail _ _ _ _ _ _ _ G1).
    pose proof (gr_avail _ _ _ _ _ _ _ G2). lia.
Qed.

Lemma walk_link m root X l t i e :
  tree m root X -> path l -> (length l <= 2)%nat -> valid_index i ->
  walk m root l = Some t -> leaf m root l i = Some e ->
  load m (entry_at t i) = e /\ entry_p e = true /\ page_table e = Some (entry_addr e)
  /\ walk m root (l ++ [i]) = Some (entry_addr e).
Proof.
  intros Ht Hl Hl2 Hi Hw (t1 & Hw1 & -> & Hp)%leaf_Some. rewrite Hw in Hw1. injection Hw1 as <-.
  split_and!; [done|done| |].
  - unfold page_table. by rewrite (tree_links _ _ _ Ht l t i).
  - rewrite walk_snoc, Hw. cbn -[entry_at]. by rewrite Hp.
Qed.

(** What a descent promises: [k] of the tables are there for writing before. *)
Definition descent_spec (root : Z) (X Y U : gset Z) m L (n : Z) rw us (N : gset Z) (r : Result Z) m1 : Prop :=
  match r with
  | Ok t => descended root X Y U m L n rw us N m1 /\ walk m1 root L = Some t
  | Err e => e = not_found /\ exhausted root X Y U m n N m1
  | Panic => False
  end.

Lemma leak_frame_run k m : leak_frame (frame_at k 1) m = (Ok tt, m).
Proof. done. Qed.

Lemma exhausted_here root X Y U m n :
  owns m X -> tree m root Y -> available m = 0 -> 0 < n -> exhausted root X Y U m n ∅ m.
Proof. intros Ho Ht Ha Hn. split_and!; [by apply grown_refl|done|done|by rewrite size_empty]. Qed.

Lemma map_tables_run rw us pwt pcd root rest : forall X Y U m l t (k : nat),
  owns m X -> Y ⊆ X -> Y ⊆ U -> tree m root Y -> path (l ++ rest) -> (k <= length rest)%nat ->
  walk m root l = Some t -> mine_path m root U (l ++ take k rest) -> allowed_on m root l rw us ->
  let '(r, m1) := map_tables t rest rw us pwt pcd alloc_page leak_frame m in
  exists N, descent_spec root X Y U m (l ++ rest) (Z.of_nat (length rest - k)) rw us N r m1.
Proof.
  induction rest as [|i rest IH]; intros X Y U m l t k Ho HYX HYU Ht Hp Hk Hw Hm Ha.
  { cbn. exists ∅. rewrite app_nil_r. rewrite take_nil, app_nil_r in Hm. split; [|done].
    split_and!; [by apply grown_refl|done|rewrite size_empty; lia|by rewrite (left_id_L ∅ (∪))|done]. }
  destruct (path_mid _ _ _ Hp) as (Hl & Hi & Hl2).
  assert (page_of t ∈ U) as Hu.
  { destruct (Hm l (take k (i :: rest)) eq_refl) as (t1 & Hw1 & Hu). congruence. }
  pose proof (ensure_pte_run root X Y U m l t i Ho HYX Ht Hl Hl2 Hw Hi Hu rw us pwt pcd HYU) as He.
  cbn [map_tables]. unfold sbind at 1.
  destruct (ensure_pte _ _ _ _ _ _ _ m) as [[[frame pte]|e|] m1]; [| |done].
  2: { destruct He as (-> & -> & Hav & Hnm). exists ∅. split; [done|]. apply exhausted_here; [done|done|done|].
       destruct k as [|k]; [cbn; lia|]. exfalso. apply Hnm.
       apply (Hm (l ++ [i]) (take k rest)). by rewrite <- app_assoc. }
  destruct He as (-> & Hfr & N & He).
  destruct (ensured_descended root X Y U m l i rest k rw us N m1 Hp ltac:(cbn in Hk; lia) Hm Ha He) as [Hd Hm1].
  destruct He as (G & _ & _ & _ & _ & e & Hle & _).
  pose proof (gr_kept _ _ _ _ _ _ _ G l t Hl Hw Hu) as Hw1.
  destruct (walk_link m1 root (N ∪ Y) l t i e (gr_tree _ _ _ _ _ _ _ G) Hl Hl2 Hi Hw1 Hle) as (E1 & E2 & E3 & E4).
  rewrite (sbind_run _ _ m1 tt m1); [|destruct Hfr as [->|[q ->]]; [done|apply leak_frame_run]].
  unfold sbind at 1, sget. unfold sbind at 1, slift. rewrite E1, E3. cbn [unwrap].
  destruct (map_tables (entry_addr e) _ _ _ _ _ _ _ m1) as [r m2] eqn:Hrun.
  specialize (IH (N ∪ X) (N ∪ Y) (N ∪ U) m1 (l ++ [i]) (entry_addr e) (pred k)). rewrite Hrun in IH.
  destruct IH as (N' & Hspec).
  - apply G.
  - by apply union_mono_l.
  - by apply union_mono_l.
  - apply G.
  - by rewrite <- app_assoc.
  - cbn in Hk. lia.
  - done.
  - done.
  - apply Hd.
  - exists (N' ∪ N). rewrite <- app_assoc in Hspec. cbn [app] in Hspec.
    replace (Z.of_nat (length (i :: rest) - k)) with ((if decide (k = 0%nat) then 1 else 0) + Z.of_nat (length rest - pred k))
      by (destruct (decide (k = 0%nat)); cbn in *; lia).
    destruct r as [t2|e2|]; [| |done].
    + destruct Hspec as [Hd2 Hw2]. split; [|done]. by eapply descended_trans.
    + destruct Hspec as [-> Hx]. split; [done|]. by eapply exhausted_trans.
Qed.

(** The three levels that [UserPageTable::map] spells out, as a loop. *)
Fixpoint task_tables (table : Z) (indicies : list Z) (rw : ReadWrite) (pwt : PageWriteThroughLevel) (pcd : bool) :
    SR (list MemoryFrame * M) Z :=
  match indicies with
  | [] => sret table
  | index :: rest =>
      do! ensure_task_table (entry_at table index) rw pwt pcd in
      let! s := sget in
      task_tables (entry_addr (load (snd s) (entry_at table index))) rest rw pwt pcd
  end.

Lemma user_map_page_tables pml4 i page rw pwt pcd s :
  user_map_page pml4 i page rw pwt pcd s
  = (let! pml1 := task_tables pml4 (table_path i) rw pwt pcd in
     on_mem (update_entry (entry_at pml1 (pml1_entry_index i)) (fun e => set_entry e page rw User pwt pcd))) s.
Proof.
  unfold user_map_page, table_path. cbn [task_tables]. unfold sbind, sget.
  destruct (ensure_task_table (entry_at pml4 _) rw pwt pcd s) as [[[]|e|] s1]; [|done|done].
  destruct (ensure_task_table _ rw pwt pcd s1) as [[[]|e|] s2]; [|done|done].
  by destruct (ensure_task_table _ rw pwt pcd s2) as [[[]|e|] s3].
Qed.

Lemma task_tables_run rw pwt pcd root rest : forall X Y m l t (k : nat) ks,
  owns m X -> Y ⊆ X -> tree m root Y -> path (l ++ rest) -> (k <= length rest)%nat ->
  walk m root l = Some t -> mine_path m root (own_set root ks) (l ++ take k rest) ->
  allowed_on m root l rw User ->
  let '(r, s) := task_tables t rest rw pwt pcd (frames_of ks, m) in
  exists ks' m1, s = (frames_of (ks ++ ks'), m1) /\ NoDup ks'
    /\ descent_spec root X Y (own_set root ks) m (l ++ rest) (Z.of_nat (length rest - k)) rw User
         (list_to_set ks') r m1.
Proof.
  induction rest as [|i rest IH]; intros X Y m l t k ks Ho HYX Ht Hp Hk Hw Hm Ha.
  { cbn. exists [], m. rewrite !app_nil_r. rewrite take_nil, app_nil_r in Hm. split; [done|]. split; [apply NoDup_nil_2|].
    split; [|done]. cbn [list_to_set].
    split; [by apply grown_refl|]. split_and!; [done|rewrite size_empty; lia|by rewrite (left_id_L ∅ (∪))|done]. }
  destruct (path_mid _ _ _ Hp) as (Hl & Hi & Hl2). set (U := own_set root ks) in *.
  assert (page_of t ∈ U) as Hu.
  { destruct (Hm l (take k (i :: rest)) eq_refl) as (t1 & Hw1 & Hu). congruence. }
  pose proof (ensure_task_table_run root X Y U m l t i Ho HYX Ht Hl Hl2 Hw Hi Hu ks rw pwt pcd eq_refl) as He.
  cbn [task_tables]. unfold sbind at 1.
  destruct (ensure_task_table _ _ _ _ (frames_of ks, m)) as [[[]|e|] s1]; [| |done].
  2: { destruct He as (-> & -> & Hav & Hnm). exists [], m. rewrite app_nil_r. split; [done|]. split; [apply NoDup_nil_2|].
       split; [done|]. apply exhausted_here; [done|done|done|].
       destruct k as [|k]; [cbn; lia|]. exfalso. apply Hnm.
       apply (Hm (l ++ [i]) (take k rest)). by rewrite <- app_assoc. }
  destruct He as (ks1 & m1 & -> & Hnd & He).
  destruct (ensured_descended root X Y U m l i rest k rw User _ m1 Hp ltac:(cbn in Hk; lia) Hm Ha He) as [Hd Hm1].
  destruct He as (G & _ & _ & _ & _ & e & Hle & _).
  pose proof (gr_kept _ _ _ _ _ _ _ G l t Hl Hw Hu) as Hw1.
  destruct (walk_link m1 root _ l t i e (gr_tree _ _ _ _ _ _ _ G) Hl Hl2 Hi Hw1 Hle) as (E1 & E2 & E3 & E4).
  unfold sbind at 1, sget. cbn [snd]. rewrite E1.
  destruct (task_tables (entry_addr e) rest rw pwt pcd (frames_of (ks ++ ks1), m1)) as [r s2] eqn:Hrun.
  specialize (IH (list_to_set ks1 ∪ X) (list_to_set ks1 ∪ Y) m1 (l ++ [i]) (entry_addr e) (pred k) (ks ++ ks1)).
  rewrite Hrun, own_set_app in IH. fold U in IH. destruct IH as (ks2 & m2 & -> & Hnd2 & Hspec).
  - apply G.
  - by apply union_mono_l.
  - apply G.
  - by rewrite <- app_assoc.
  - cbn in Hk. lia.
  - done.
  - done.
  - apply Hd.
  - exists (ks1 ++ ks2), m2. rewrite <- app_assoc in Hspec |- *. cbn [app] in Hspec.
    replace (Z.of_nat (length (i :: rest) - k)) with ((if decide (k = 0%nat) then 1 else 0) + Z.of_nat (length rest - pred k))
      by (destruct (decide (k = 0%nat)); cbn in *; lia).
    rewrite list_to_set_app_L, (comm_L (∪)).
    assert (forall G2, grown root (list_to_set ks1 ∪ X) G2 (list_to_set ks1 ∪ U) m1 (list_to_set ks2) m2 ->
              NoDup (ks1 ++ ks2)) as Hnd'.
    { intros G2 HG. apply NoDup_app. split_and!; [done| |done]. intros q Hq Hq2.
      apply (gr_fresh _ _ _ _ _ _ _ HG q); [by apply elem_of_list_to_set|].
      apply elem_of_union_l. by apply elem_of_list_to_set. }
    destruct r as [t2|e2|]; [| |done].
    + destruct Hspec as [Hd2 Hw2]. split_and!; [done|eapply Hnd'; apply Hd2|]. split; [|done]. by eapply descended_trans.
    + destruct Hspec as [-> Hx]. split_and!; [done|eapply Hnd'; apply Hx|]. split; [done|]. by eapply exhausted_trans.
Qed.

End Map.
