(* ===== verification/PagingRange.v ===== *)
(** * Ranges of addresses

    The loops of [map] and [UserPageTable::map] over the pages of a range: which
    translations they establish, that all others stay, and how many frames
    they take at most. *)
From Stdlib Require Import ZArith Lia.
From stdpp Require Import base gmap sets list.
From S2P Require Import Prelude KError Bitmap Paging PagingTree PagingMap.

#[local] Open Scope list_scope.
#[local] Open Scope Z_scope.

(** ** Pages *)

(** The addresses the processor accepts, in two halves. *)
Definition canonical (va : VirtualAddress) : Prop := 0 <= va < 2 ^ 47 \/ 2 ^ 64 - 2 ^ 47 <= va < 2 ^ 64.
Definition canonical_range (start end_ : VirtualAddress) : Prop :=
  0 <= start /\ end_ <= 2 ^ 47 \/ 2 ^ 64 - 2 ^ 47 <= start /\ end_ <= 2 ^ 64.
Definition page_base (va : VirtualAddress) : Z := page_of va * PAGE_SIZE.
Definition page_aligned (va : VirtualAddress) : Prop := va mod PAGE_SIZE = 0.

Lemma page_base_aligned va : page_aligned va -> page_base va = va.
Proof.
  unfold page_aligned, page_base, page_of. intros Ha. pose proof (Z.div_mod va PAGE_SIZE ltac:(done)). lia.
Qed.

Lemma page_of_base va : page_of (page_base va) = page_of va.
Proof. apply table_at_frame. Qed.

Lemma page_base_eq va i : page_aligned i -> page_base va = i <-> page_of va = page_of i.
Proof.
  intros Ha. split; [intros <-; by rewrite page_of_base|].
  intros He. unfold page_base. rewrite He. by apply page_base_aligned.
Qed.

(** The indices are those of the page. *)
Lemma page_indices va vb :
  page_of va = page_of vb -> table_path va = table_path vb /\ pml1_entry_index va = pml1_entry_index vb.
Proof.
  intros He. assert (forall k, 0 <= k -> va / 2 ^ (12 + k) = vb / 2 ^ (12 + k)) as Hd.
  { intros k Hk. rewrite Z.pow_add_r by lia. rewrite <- !Z.div_div by lia. unfold page_of, PAGE_SIZE in He.
    change (2 ^ 12) with 4096. by rewrite He. }
  unfold table_path, pml4_entry_index, pml3_entry_index, pml2_entry_index, pml1_entry_index.
  assert (va / 2 ^ 39 = vb / 2 ^ 39) as E4 by exact (Hd 27 ltac:(lia)).
  assert (va / 2 ^ 30 = vb / 2 ^ 30) as E3 by exact (Hd 18 ltac:(lia)).
  assert (va / 2 ^ 21 = vb / 2 ^ 21) as E2 by exact (Hd 9 ltac:(lia)).
  assert (va / 2 ^ 12 = vb / 2 ^ 12) as E1 by exact (Hd 0 ltac:(lia)).
  by rewrite !index_div, E4, E3, E2, E1 by lia.
Qed.

Lemma page_indices_inj va vb :
  canonical va -> canonical vb -> table_path va ++ [pml1_entry_index va] = table_path vb ++ [pml1_entry_index vb] ->
  page_of va = page_of vb.
Proof.
  intros Ha Hb [H1 H2]%app_inj_tail. pose proof (indices_page va vb H1 H2) as He.
  unfold page_of, PAGE_SIZE, canonical in *. Z.div_mod_to_equations. lia.
Qed.

(** The pages of a range. *)
Lemma elem_of_step_by_page start end_ i :
  page_aligned start -> page_aligned end_ ->
  i ∈ step_by_page start end_ <-> start <= i < end_ /\ page_aligned i.
Proof.
  unfold page_aligned, step_by_page, PAGE_SIZE. intros Hs He. rewrite list_elem_of_fmap. split.
  - intros (k & -> & Hk%elem_of_seqZ). Z.div_mod_to_equations. lia.
  - intros [Hr Ha]. exists ((i - start) / 4096). rewrite elem_of_seqZ. Z.div_mod_to_equations. lia.
Qed.

Section Range.
Context {M : Type} `{PhysMemLaws M}.
Implicit Types m : M.

(** ** Translations *)

(** The entry found for an address. *)
Definition leaf_at m (root : Z) (va : VirtualAddress) : option PageTableEntry :=
  leaf m root (table_path va) (pml1_entry_index va).

(** The address is mapped to the frame at [page] with these attributes, and the
    links on the way allow the access. *)
Record maps m (root : Z) (va : VirtualAddress) (page : Z) (rw : ReadWrite) (us : EntryMode)
    (pwt : PageWriteThroughLevel) (pcd : bool) : Prop := {
  maps_leaf : exists e, leaf_at m root va = Some e /\ entry_addr e = page /\ entry_rw e = rw /\ entry_us e = us
                /\ entry_pwt e = pwt /\ entry_pcd e = pcd;
  maps_allowed : allowed_on m root (table_path va) rw us
}.

Lemma maps_grown root X Y U m N m1 va page rw us pwt pcd :
  grown root X Y U m N m1 -> leaf_at m1 root va = leaf_at m root va ->
  maps m root va page rw us pwt pcd -> maps m1 root va page rw us pwt pcd.
Proof.
  intros G He [H1 H2]. split; [by rewrite He|]. eapply allowed_on_grown; [done|apply table_path_path|done].
Qed.

Lemma same_leaves_at root m m1 va : same_leaves root m m1 -> leaf_at m1 root va = leaf_at m root va.
Proof. intros L. apply L; [apply table_path_path|done|by apply index_valid]. Qed.

Section Loop.
Context (root : Z) (X Y U : gset Z) (m0 : M).
Context (f : Z -> Z) (rw : ReadWrite) (us : EntryMode) (pwt : PageWriteThroughLevel) (pcd : bool).

(** The pages [dn] are mapped as [f] says, everything else is as in [m0]. *)
Definition mapped (dn : list Z) m : Prop := forall va, canonical va ->
  if decide (page_base va ∈ dn) then maps m root va (f (page_base va)) rw us pwt pcd
  else leaf_at m root va = leaf_at m0 root va.

(** One page. *)
Definition page_spec (X Y U : gset Z) m (i n : Z) (N : gset Z) m1 : Prop :=
  grown root X Y U m N m1 /\ Z.of_nat (size N) <= n /\ mine_path m1 root (N ∪ U) (table_path i)
  /\ (forall va, canonical va -> page_of va = page_of i -> maps m1 root va (f i) rw us pwt pcd)
  /\ (forall va, canonical va -> page_of va <> page_of i -> leaf_at m1 root va = leaf_at m root va).

Lemma mapped_page X' Y' U' dn m i n N m1 :
  page_aligned i -> mapped dn m -> page_spec X' Y' U' m i n N m1 -> mapped (dn ++ [i]) m1.
Proof.
  intros Ha Hd (G & _ & _ & Hin & Hout) va Hva. specialize (Hd va Hva).
  destruct (decide (page_base va = i)) as [He|Hne].
  - rewrite decide_True by (rewrite He; set_solver). rewrite He. apply Hin; [done|]. by apply page_base_eq.
  - assert (page_of va <> page_of i) as Hnp by (intros He; apply Hne; by apply page_base_eq).
    destruct (decide (page_base va ∈ dn)) as [Hin'|Hn].
    + rewrite decide_True by set_solver. eapply maps_grown; [done|by apply Hout|done].
    + rewrite decide_False by set_solver. by rewrite Hout.
Qed.

Lemma mapped_same dn m m1 X' Y' U' N :
  mapped dn m -> grown root X' Y' U' m N m1 -> same_leaves root m m1 -> mapped dn m1.
Proof.
  intros Hd G L va Hva. specialize (Hd va Hva). destruct (decide _).
  - eapply maps_grown; [done|by apply same_leaves_at|done].
  - rewrite (same_leaves_at root m m1 va L). done.
Qed.

(** The tables of the pages [dn] may be written. *)
Definition settled (dn : list Z) (N : gset Z) m : Prop :=
  mapped dn m /\ Forall (fun i => mine_path m root (N ∪ U) (table_path i)) dn.

Lemma settled_page dn m i n N N1 m1 :
  page_aligned i -> settled dn N m -> page_spec (N ∪ X) (N ∪ Y) (N ∪ U) m i n N1 m1 ->
  settled (dn ++ [i]) (N1 ∪ N) m1.
Proof.
  intros Ha [Hd Hm] Hp. split; [by apply (mapped_page _ _ _ _ _ _ _ _ _ Ha Hd Hp)|].
  destruct Hp as (G & _ & Hmi & _). rewrite <- (assoc_L (∪)). apply Forall_app. split; [|by repeat constructor].
  eapply Forall_impl; [exact Hm|]. intros j Hj. eapply mine_path_grown; [exact G|apply table_path_path|exact Hj].
Qed.

Lemma settled_same dn m N N1 m1 :
  settled dn N m -> grown root (N ∪ X) (N ∪ Y) (N ∪ U) m N1 m1 -> same_leaves root m m1 -> settled dn (N1 ∪ N) m1.
Proof.
  intros [Hd Hm] G L. split; [by apply (mapped_same _ _ _ _ _ _ _ Hd G)|]. rewrite <- (assoc_L (∪)).
  eapply Forall_impl; [exact Hm|]. intros j Hj. eapply mine_path_grown; [exact G|apply table_path_path|exact Hj].
Qed.

(** The state of the loop holds the memory and the frames taken so far. *)
Context {St : Type} (rel : gset Z -> M -> St -> Prop) (body : Z -> SR St unit).

Definition body_ok (i : Z) : Prop := forall N m s prev,
  grown root X Y U m0 N m -> rel N m s -> mine_path m root (N ∪ U) prev -> (length prev <= 3)%nat ->
  let n := 3 - common_len prev (table_path i) in
  let '(r, s') := body i s in
  exists N' m', rel (N' ∪ N) m' s'
    /\ match r with
       | Ok _ => page_spec (N ∪ X) (N ∪ Y) (N ∪ U) m i n N' m'
       | Err e => e = not_found /\ exhausted root (N ∪ X) (N ∪ Y) (N ∪ U) m n N' m'
       | Panic => False
       end.

(** What the loop over [ps] leaves behind: all pages mapped, or the frames ran out and
    the pages of a prefix are mapped. *)
Definition loop_spec (n : Z) (ps : list Z) (r : Result unit) (N : gset Z) m : Prop :=
  grown root X Y U m0 N m
  /\ match r with
     | Ok _ => Z.of_nat (size N) <= n /\ settled ps N m
     | Err e => e = not_found /\ available m = 0 /\ Z.of_nat (size N) < n
         /\ exists ps1 ps2, ps = ps1 ++ ps2 /\ settled ps1 N m
     | Panic => False
     end.

Lemma common_len_bound l l' : 0 <= common_len l l' <= Z.of_nat (length l').
Proof using.
  revert l'. induction l as [|i l IH]; intros [|j l']; cbn; try lia. destruct (i =? j); [|lia].
  specialize (IH l'). lia.
Qed.

Lemma tables_needed_nonneg prev ps : 0 <= tables_needed prev ps.
Proof using.
  revert prev. induction ps as [|i ps IH]; intros prev; cbn [tables_needed]; [lia|].
  pose proof (common_len_bound prev (table_path i)). specialize (IH (table_path i)). cbn [length table_path] in *. lia.
Qed.

Lemma loop_run ps : forall dn c N m s prev,
  Forall page_aligned ps -> Forall body_ok ps ->
  grown root X Y U m0 N m -> rel N m s -> settled dn N m -> Z.of_nat (size N) <= c ->
  mine_path m root (N ∪ U) prev -> (length prev <= 3)%nat ->
  let '(r, s') := sfor ps body s in
  exists N' m', rel N' m' s' /\ loop_spec (c + tables_needed prev ps) (dn ++ ps) r N' m'.
Proof using.
  induction ps as [|i ps IH]; intros dn c N m s prev Hps Hb G Hr Hd Hc Hm Hprev.
  { cbn. exists N, m. rewrite app_nil_r. split; [done|]. split; [done|]. split; [lia|done]. }
  apply Forall_cons in Hps as [Hi Hps]. apply Forall_cons in Hb as [Hbi Hb].
  specialize (Hbi N m s prev G Hr Hm Hprev). cbn [sfor tables_needed]. unfold sbind.
  pose proof (tables_needed_nonneg (table_path i) ps).
  destruct (body i s) as [[[]|e|] s1]; destruct Hbi as (N1 & m1 & Hr1 & Hspec); [| |done].
  - pose proof Hspec as (G1 & S1 & Hm1 & _). pose proof (grown_trans _ _ _ _ _ _ _ _ _ G G1) as G'.
    specialize (IH (dn ++ [i]) (c + (3 - common_len prev (table_path i))) (N1 ∪ N) m1 s1 (table_path i)).
    destruct (sfor ps body s1) as [r s2]. destruct IH as (N2 & m2 & Hr2 & Hl); try done.
    + by apply (settled_page _ _ _ _ _ _ _ Hi Hd Hspec).
    + pose proof (gr_avail _ _ _ _ _ _ _ G). pose proof (gr_avail _ _ _ _ _ _ _ G').
      pose proof (gr_avail _ _ _ _ _ _ _ G1). lia.
    + by rewrite <- (assoc_L (∪)).
    + exists N2, m2. split; [done|]. rewrite <- app_assoc in Hl. cbn [app] in Hl.
      by rewrite <- Z.add_assoc in Hl.
  - destruct Hspec as (-> & G1 & L1 & A1 & S1). pose proof (grown_trans _ _ _ _ _ _ _ _ _ G G1) as G'.
    exists (N1 ∪ N), m1. split; [done|]. split; [done|]. split_and!; [done|done| |].
    + pose proof (gr_avail _ _ _ _ _ _ _ G). pose proof (gr_avail _ _ _ _ _ _ _ G').
      pose proof (gr_avail _ _ _ _ _ _ _ G1). lia.
    + exists dn, (i :: ps). split; [done|]. by apply (settled_same dn m N N1 m1 Hd G1).
Qed.

End Loop.

(** ** The bodies of the loops *)

Lemma common_prefix l l' : take (Z.to_nat (common_len l l')) l' `prefix_of` l.
Proof.
  revert l'. induction l as [|i l IH]; intros [|j l']; cbn [common_len]; try apply prefix_nil.
  destruct (Z.eqb_spec i j) as [->|]; [|apply prefix_nil].
  pose proof (common_len_bound l l'). rewrite Z2Nat.inj_add by lia. cbn. by apply prefix_cons.
Qed.

Lemma mine_path_prefix m root U l l' : mine_path m root U l -> l' `prefix_of` l -> mine_path m root U l'.
Proof. intros Hm [r ->] l1 l2 ->. apply (Hm l1 (l2 ++ r)). by rewrite app_assoc. Qed.

(** The last step of a page: the entry of the lowest table. *)
Lemma write_page root X Y U m i n rw us pwt pcd page N m1 t :
  Y ⊆ X -> canonical i -> descended root X Y U m (table_path i) n rw us N m1 ->
  walk m1 root (table_path i) = Some t ->
  exists m2, update_entry (entry_at t (pml1_entry_index i)) (fun e => set_entry e page rw us pwt pcd) m1 = (Ok tt, m2)
    /\ forall f, f i = entry_addr page -> page_spec root f rw us pwt pcd X Y U m i n N m2.
Proof.
  intros HYX Hi (G & L & Hs & Hm & Ha) Hw.
  pose proof (table_path_path i) as Hp. assert (valid_index (pml1_entry_index i)) as Hv by (by apply index_valid).
  assert (page_of t ∈ N ∪ U) as Hu.
  { destruct (Hm (table_path i) [] ltac:(by rewrite app_nil_r)) as (t1 & Hw1 & ?). congruence. }
  destruct (write_leaf_grown root (N ∪ X) (N ∪ Y) (N ∪ U) m1 (table_path i) t (pml1_entry_index i))
    with (f := fun e => set_entry e page rw us pwt pcd) as (m2 & R2 & G2 & Hother & Hleaf);
    [apply G|by apply union_mono_l|apply G|done|done|done|done|done| |].
  { apply set_entry_word, (load_word m1 (N ∪ X)), G. }
  pose proof (grown_trans _ _ _ _ _ _ _ _ _ G G2) as G'. rewrite (left_id_L ∅ (∪)) in G'.
  destruct (set_entry_fields (load m1 (entry_at t (pml1_entry_index i))) page rw us pwt pcd)
    as (P1 & P2 & P3 & P4 & P5 & _ & P7). rewrite P1 in Hleaf.
  exists m2. split; [done|]. intros f Hf. split_and!; [done|done| | |].
  - pose proof (mine_path_grown _ _ _ _ _ _ _ _ G2 Hp Hm) as Hm2. by rewrite (left_id_L ∅ (∪)) in Hm2.
  - intros va Hva He. destruct (page_indices va i He) as [E1 E2]. split.
    + unfold leaf_at. rewrite E1, E2, Hf. eauto 10.
    + rewrite E1. by apply (allowed_on_grown _ _ _ _ _ _ _ _ _ _ G2).
  - intros va Hva Hne. rewrite <- (same_leaves_at root m m1 va L). apply Hother; [apply table_path_path|done|by apply index_valid|].
    intros He. apply Hne. by apply page_indices_inj.
Qed.

(** *** The kernel's table *)
Section Kernel.
Context (root : Z) (X Y : gset Z) (m0 : M) (start phys : Z).
Context (rw : ReadWrite) (us : EntryMode) (pwt : PageWriteThroughLevel) (pcd : bool).
Hypothesis HYX : Y ⊆ X.

Lemma kernel_body_ok i :
  canonical i -> start <= i -> phys + (i - start) < 2 ^ 64 ->
  body_ok root X Y Y m0 (fun i => entry_addr (phys + (i - start))) rw us pwt pcd (fun _ m s => s = m)
    (fun i => let indicies := [pml4_entry_index i; pml3_entry_index i; pml2_entry_index i] in
              let! pml1_table := map_tables root indicies rw us pwt pcd alloc_page leak_frame in
              let pte := entry_at pml1_table (pml1_entry_index i) in
              let! page := slift (uadd 64 phys (i - start)) in
              update_entry pte (fun e => set_entry e page rw us pwt pcd)) i.
Proof using HYX.
  intros Hi Hs Hb N m s prev G -> Hm Hprev. cbv zeta.
  pose proof (common_len_bound prev (table_path i)) as Hcb. cbn [length table_path] in Hcb.
  set (k := Z.to_nat (common_len prev (table_path i))).
  pose proof (map_tables_run rw us pwt pcd root (table_path i) (N ∪ X) (N ∪ Y) (N ∪ Y) m [] root k) as Hrun.
  change [pml4_entry_index i; pml3_entry_index i; pml2_entry_index i] with (table_path i).
  unfold sbind at 1. destruct (map_tables root (table_path i) rw us pwt pcd alloc_page leak_frame m) as [r m1].
  destruct Hrun as (N' & Hspec).
  - apply G.
  - by apply union_mono_l.
  - done.
  - apply G.
  - apply table_path_path.
  - cbn. lia.
  - done.
  - cbn [app]. eapply mine_path_prefix; [exact Hm|apply common_prefix].
  - apply allowed_on_nil.
  - cbn [app] in Hspec. replace (Z.of_nat (length (table_path i) - k)) with (3 - common_len prev (table_path i)) in Hspec
      by (cbn [length table_path]; lia).
    destruct r as [t|e|]; [| |done].
    + destruct Hspec as [Hd Hw]. unfold sbind, slift, uadd. destruct (Z.ltb_spec (phys + (i - start)) (2 ^ 64)); [|lia].
      edestruct (write_page root (N ∪ X) (N ∪ Y) (N ∪ Y) m i) as (m2 & R2 & Hps); [by apply union_mono_l|done|exact Hd|exact Hw|].
      rewrite R2. exists N', m2. split; [done|]. by apply Hps.
    + destruct Hspec as [-> Hx]. exists N', m1. done.
Qed.

Lemma Forall_pages end_ (P : Z -> Prop) :
  page_aligned start -> page_aligned end_ ->
  (forall i, start <= i < end_ -> page_aligned i -> P i) -> Forall P (step_by_page start end_).
Proof using. intros Hs He HP. apply Forall_forall. intros i [? ?]%elem_of_step_by_page; auto. Qed.

(** [map] establishes the translation of its range, at the cost of the tables the
    range needs, or the frames run out. *)
Lemma paging_map_run end_ :
  owns m0 X -> tree m0 root Y -> page_aligned start -> page_aligned end_ -> page_aligned phys ->
  canonical_range start end_ -> phys + (end_ - start) <= 2 ^ 64 ->
  let '(r, m) := paging_map root start end_ phys rw us pwt pcd alloc_page leak_frame m0 in
  exists N, loop_spec root X Y Y m0 (fun i => entry_addr (phys + (i - start))) rw us pwt pcd
    (tables_needed [] (step_by_page start end_)) (step_by_page start end_) r N m.
Proof using HYX.
  intros Ho Ht Hs He Hph Hend Hb. unfold paging_map. unfold page_aligned in Hs, He, Hph.
  rewrite Hs, He, Hph. cbn [negb Z.eqb].
  pose proof (loop_run root X Y Y m0 (fun i => entry_addr (phys + (i - start))) rw us pwt pcd (fun _ m s => s = m)
    (fun i => let indicies := [pml4_entry_index i; pml3_entry_index i; pml2_entry_index i] in
              let! pml1_table := map_tables root indicies rw us pwt pcd alloc_page leak_frame in
              let pte := entry_at pml1_table (pml1_entry_index i) in
              let! page := slift (uadd 64 phys (i - start)) in
              update_entry pte (fun e => set_entry e page rw us pwt pcd))
    (step_by_page start end_) [] 0 ∅ m0 m0 []) as Hrun.
  destruct (sfor _ _ m0) as [r m]. destruct Hrun as (N & m' & -> & Hl).
  - by apply Forall_pages.
  - apply Forall_pages; [done|done|]. intros i Hi Ha. apply kernel_body_ok; unfold canonical, canonical_range in *; lia.
  - by apply grown_refl.
  - done.
  - split; [|apply Forall_nil_2]. intros va Hva. by rewrite decide_False by set_solver.
  - rewrite size_empty. lia.
  - apply mine_path_nil. apply elem_of_union_r. by apply (tree_frames _ _ _ Ht [] root path_nil).
  - cbn; lia.
  - exists N. done.
Qed.

End Kernel.

(** *** The table of a task *)

(** A task's table with its top frame and the other frames it owns. *)
Definition user_table (kr : Z) (ks : list Z) : UserPageTable :=
  {| pml4_frame := Some (frame_at kr 1); allocated_frames := frames_of ks |}.

Section Task.
Context (kr : Z) (ks : list Z) (X Y : gset Z) (m0 : M) (start phys : Z).
Context (rw : ReadWrite) (pwt : PageWriteThroughLevel) (pcd : bool).
Let root := kr * PAGE_SIZE.
Let U := own_set root ks.
Hypothesis HYX : Y ⊆ X.

(** The frames taken so far are appended to those of the table. *)
Definition holds (N : gset Z) m (s : UserPageTable * M) : Prop :=
  exists ks', s = (user_table kr (ks ++ ks'), m) /\ NoDup ks' /\ N = list_to_set ks'.

Lemma user_body_ok i :
  canonical i -> start <= i -> phys + (i - start) < 2 ^ 64 ->
  body_ok root X Y U m0 (fun i => entry_addr (phys + (i - start))) rw User pwt pcd holds
    (fun i => let! page_phys := slift (uadd 64 phys (i - start)) in
              on_owner (user_map_page root i page_phys rw pwt pcd)) i.
Proof using HYX.
  intros Hi Hs Hb N m s prev G (ks1 & -> & Hnd & ->) Hm Hprev. cbv zeta.
  pose proof (common_len_bound prev (table_path i)) as Hcb. cbn [length table_path] in Hcb.
  set (k := Z.to_nat (common_len prev (table_path i))).
  unfold sbind, slift, uadd. destruct (Z.ltb_spec (phys + (i - start)) (2 ^ 64)); [|lia].
  unfold on_owner. cbn [fst snd user_table allocated_frames pml4_frame]. rewrite user_map_page_tables.
  pose proof (task_tables_run rw pwt pcd root (table_path i) (list_to_set ks1 ∪ X) (list_to_set ks1 ∪ Y) m [] root k (ks ++ ks1)) as Hrun.
  unfold sbind. destruct (task_tables root (table_path i) rw pwt pcd (frames_of (ks ++ ks1), m)) as [r s1].
  rewrite own_set_app in Hrun. fold U in Hrun. destruct Hrun as (ks2 & m1 & -> & Hnd2 & Hspec).
  - apply G.
  - by apply union_mono_l.
  - apply G.
  - apply table_path_path.
  - cbn. lia.
  - done.
  - cbn [app]. eapply mine_path_prefix; [exact Hm|apply common_prefix].
  - apply allowed_on_nil.
  - cbn [app] in Hspec. replace (Z.of_nat (length (table_path i) - k)) with (3 - common_len prev (table_path i)) in Hspec
      by (cbn [length table_path]; lia).
    assert (forall m2 (Y2 : gset Z), grown root (list_to_set ks1 ∪ X) Y2 (list_to_set ks1 ∪ U) m (list_to_set ks2) m1 ->
              holds (list_to_set ks2 ∪ list_to_set ks1) m2 (user_table kr (ks ++ (ks1 ++ ks2)), m2)) as Hh.
    { intros m2 Y2 HG. exists (ks1 ++ ks2). split; [done|]. rewrite list_to_set_app_L, (comm_L (∪)). split; [|done].
      apply NoDup_app. split_and!; [done| |done]. intros q Hq Hq2.
      apply (gr_fresh _ _ _ _ _ _ _ HG q); [by apply elem_of_list_to_set|].
      apply elem_of_union_l. by apply elem_of_list_to_set. }
    rewrite <- app_assoc. destruct r as [t|e|]; [| |done].
    + destruct Hspec as [Hd Hw].
      edestruct (write_page root (list_to_set ks1 ∪ X) (list_to_set ks1 ∪ Y) (list_to_set ks1 ∪ U) m i) as (m2 & R2 & Hps);
        [by apply union_mono_l|done|exact Hd|exact Hw|].
      unfold on_mem. cbn [fst snd]. rewrite R2. exists (list_to_set ks2), m2. split; [|by apply Hps].
      eapply Hh. apply Hd.
    + destruct Hspec as [-> Hx]. exists (list_to_set ks2), m1. split; [|done]. eapply Hh. apply Hx.
Qed.

Lemma user_map_run end_ :
  owns m0 X -> tree m0 root Y -> page_aligned start -> page_aligned end_ ->
  canonical_range start end_ -> phys + (end_ - start) <= 2 ^ 64 ->
  let '(r, s) := UserPageTable_map start end_ phys rw pwt pcd (user_table kr ks, m0) in
  exists N m, holds N m s
    /\ loop_spec root X Y U m0 (fun i => entry_addr (phys + (i - start))) rw User pwt pcd
         (tables_needed [] (step_by_page start end_)) (step_by_page start end_) r N m.
Proof using HYX.
  intros Ho Ht Hs He Hend Hb. unfold UserPageTable_map. unfold sbind at 1, sget. unfold sbind at 1, slift at 1.
  cbn [fst user_table pml4_phys_addr pml4_frame unwrap obind].
  change (frame_start_phys_addr (frame_at kr 1)) with root.
  pose proof (loop_run root X Y U m0 (fun i => entry_addr (phys + (i - start))) rw User pwt pcd holds
    (fun i => let! page_phys := slift (uadd 64 phys (i - start)) in
              on_owner (user_map_page root i page_phys rw pwt pcd))
    (step_by_page start end_) [] 0 ∅ m0 (user_table kr ks, m0) []) as Hrun.
  destruct (sfor _ _ (user_table kr ks, m0)) as [r s]. apply Hrun.
  - by apply Forall_pages.
  - apply Forall_pages; [done|done|]. intros i Hi Ha. apply user_body_ok; unfold canonical, canonical_range in *; lia.
  - by apply grown_refl.
  - exists []. rewrite app_nil_r. split_and!; [done|apply NoDup_nil_2|done].
  - split; [|apply Forall_nil_2]. intros va Hva. by rewrite decide_False by set_solver.
  - rewrite size_empty. lia.
  - apply mine_path_nil. apply elem_of_union_r. unfold U, own_set. cbn. apply elem_of_union_l. by apply elem_of_singleton.
  - cbn; lia.
Qed.

End Task.

End Range.
