(* ===== verification/PagingSpace.v ===== *)
(** * Address spaces

    The kernel's table: [kernel_init] and [kernel_map].  The table of a task:
    an overlay over the kernel's translations that the operations change, from
    its creation to its end. *)
From Stdlib Require Import ZArith Lia.
From stdpp Require Import base gmap sets list.
From S2P Require Import Prelude KError Bitmap Paging PagingTree PagingMap PagingRange.

#[local] Open Scope list_scope.
#[local] Open Scope Z_scope.

(** ** Addresses of entries *)

Lemma entry_offset e va : Z.lor (entry_addr e) (Z.land va 0xfff) = entry_addr e + va mod PAGE_SIZE.
Proof.
  change 0xfff with (Z.ones 12). rewrite Z.land_ones by lia. change (2 ^ 12) with PAGE_SIZE.
  destruct (entry_addr_bound e) as [_ Ha]. assert (0 <= va mod PAGE_SIZE < 2 ^ 12) as Hb by (by apply Z.mod_pos_bound).
  assert (Z.land (entry_addr e) (va mod PAGE_SIZE) = 0) as H0.
  { change PAGE_SIZE with (2 ^ 12) in *. apply Z.bits_inj'. intros j Hj. rewrite Z.land_spec, Z.bits_0.
    destruct (Z.lt_ge_cases j 12).
    - rewrite <- (Z.mod_pow2_bits_low (entry_addr e) 12 j), Ha, Z.bits_0 by lia. done.
    - by rewrite Z.mod_pow2_bits_high, andb_false_r by lia. }
  rewrite Z.add_nocarry_lxor by done. symmetry. by apply Z.lxor_lor.
Qed.

(** What an entry keeps of an address: bits 12 to 38. *)
Lemma entry_addr_mod a : page_aligned a -> entry_addr a = a mod 2 ^ 39.
Proof.
  intros Ha. rewrite <- (entry_addr_aligned (a mod 2 ^ 39)).
  - apply entry_addr_ext. intros i Hi. by rewrite Z.mod_pow2_bits_low by lia.
  - by apply Z.mod_pos_bound.
  - unfold page_aligned, PAGE_SIZE in *. Z.div_mod_to_equations. lia.
Qed.

Section Space.
Context {M : Type} `{PhysMemLaws M}.
Implicit Types m : M.
Implicit Types s : @PagingState M.

Lemma calc_phys_leaf m root X va :
  tree m root X ->
  calc_phys_addr m root va = (fun e => entry_addr e + va mod PAGE_SIZE) <$> leaf_at m root va.
Proof.
  intros Ht. unfold calc_phys_addr. rewrite (lookup_pte_leaf m root X va Ht). fold (leaf_at m root va).
  destruct (leaf_at m root va) as [e|]; [|done]. cbn -[Z.land]. by rewrite entry_offset.
Qed.

Lemma maps_calc m root X va page rw us pwt pcd :
  tree m root X -> maps m root va page rw us pwt pcd -> calc_phys_addr m root va = Some (page + va mod PAGE_SIZE).
Proof.
  intros Ht [(e & He & Ha & _) _]. rewrite (calc_phys_leaf m root X va Ht), He. cbn. by rewrite Ha.
Qed.

(** ** An empty table *)

Lemma zero_walk m root l : (forall i, valid_index i -> load m (entry_at root i) = 0) -> Forall valid_index l ->
  walk m root l = if decide (l = []) then Some root else None.
Proof.
  intros Hz Hl. destruct l as [|i l]; [done|]. apply Forall_cons in Hl as [Hi _]. cbn -[entry_at]. by rewrite Hz.
Qed.

Lemma zero_tree m k X :
  (forall i, valid_index i -> load m (entry_at (k * PAGE_SIZE) i) = 0) -> k ∈ X -> tree m (k * PAGE_SIZE) X.
Proof.
  intros Hz Hk. destruct (table_at_frame k) as [Ha Hp]. split.
  - intros l t [Hl _]. rewrite zero_walk by done. destruct (decide _); [|done]. intros [= <-]. by rewrite Hp.
  - intros l t i [Hl _] _ Hi. rewrite zero_walk by done. destruct (decide _); [|done]. intros [= <-]. by rewrite Hz.
  - intros l l' t [Hl _] [Hl' _]. rewrite !zero_walk by done.
    destruct (decide (l = [])) as [->|], (decide (l' = [])) as [->|]; done.
Qed.

Lemma zero_leaf m root va : (forall i, valid_index i -> load m (entry_at root i) = 0) -> leaf_at m root va = None.
Proof.
  intros Hz. unfold leaf_at, leaf. rewrite zero_walk; [done|done|]. apply table_path_valid.
Qed.

(** ** The kernel's table *)

(** The tables under the kernel's root lie in the frames [Y]. *)
Record kernel_ok s (X Y : gset Z) : Prop := {
  ko_owns : owns (machine s) X;
  ko_sub : Y ⊆ X;
  ko_tree : tree (machine s) (KERNEL_PML4_PHYS s) Y
}.

(** A frame taken and cleared. *)
Lemma alloc_zero_run m X :
  owns m X -> 0 < available m ->
  exists k m1, alloc_page m = (Ok (frame_at k 1), m1) /\ ~ (k ∈ X)
    /\ exists m2, zero_page (frame_at k 1) m1 = (Ok tt, m2) /\ owns m2 ({[k]} ∪ X)
    /\ (k ∈ free_set m /\ free_set m2 = free_set m ∖ {[k]}) /\ same_on X m m2
    /\ forall i, valid_index i -> load m2 (entry_at (k * PAGE_SIZE) i) = 0.
Proof.
  intros Ho Ha. pose proof (alloc_page_ok m X Ho) as Hal. destruct (alloc_page m) as [[f|e|] m1]; [| |done].
  2: { destruct Hal as (_ & _ & ?). unfold available in Ha. lia. }
  destruct Hal as (k & Hk & _ & -> & O1 & A1 & F1). exists k, m1. split; [done|]. split; [done|].
  destruct (zero_page_ok m1 ({[k]} ∪ X) k O1 ltac:(set_solver)) as (m2 & R2 & O2 & A2 & F2).
  exists m2. rewrite A2. split; [done|]. split; [done|]. split; [done|]. split.
  - intros b Hb Hx. rewrite F2 by done. destruct (Z.eqb_spec (page_of b) k) as [<-|]; [done|]. by apply F1.
  - intros i Hi. destruct (table_at_frame k) as [Hta Hpg]. destruct (entry_at_loc _ i Hta Hi) as [Hw Hp].
    rewrite F2, Hp, Hpg, Z.eqb_refl by done. done.
Qed.

(** The translations a table has after [loop_spec]. *)
Lemma mapped_calc root X m0 m start end_ phys rw us pwt pcd va :
  tree m root X -> page_aligned start -> page_aligned end_ -> page_aligned phys ->
  mapped root m0 (fun i => entry_addr (phys + (i - start))) rw us pwt pcd (step_by_page start end_) m ->
  canonical va ->
  calc_phys_addr m root va
  = if decide (start <= va < end_) then Some ((phys + (page_base va - start)) mod 2 ^ 39 + va mod PAGE_SIZE)
    else (fun e => entry_addr e + va mod PAGE_SIZE) <$> leaf_at m0 root va.
Proof.
  intros Ht Hs He Hp Hm Hva. specialize (Hm va Hva).
  assert (page_aligned (page_base va)) as Hpb by (by apply table_at_frame).
  assert (page_base va ∈ step_by_page start end_ <-> start <= va < end_) as Hiff.
  { rewrite elem_of_step_by_page by done. unfold page_aligned, page_base, page_of, PAGE_SIZE in *.
    Z.div_mod_to_equations. lia. }
  destruct (decide (start <= va < end_)) as [Hin|Hout].
  - rewrite decide_True in Hm by (by apply Hiff). rewrite (maps_calc m root X va _ _ _ _ _ Ht Hm).
    rewrite entry_addr_mod; [done|]. unfold page_aligned, PAGE_SIZE in *. Z.div_mod_to_equations. lia.
  - rewrite decide_False in Hm by (by intros ?%Hiff). by rewrite (calc_phys_leaf m root X va Ht), Hm.
Qed.

Lemma on_kernel_run {A} (c : SR M A) s r m :
  c (machine s) = (r, m) -> on_kernel c s = (r, MkPaging m (KERNEL_PML4_PHYS s) (cr3 s)).
Proof. unfold on_kernel. by intros ->. Qed.

(** Enough frames for the tables: [map] succeeds. *)
Lemma loop_enough root X Y U m0 f rw us pwt pcd n ps r N m :
  owns m0 X -> loop_spec root X Y U m0 f rw us pwt pcd n ps r N m -> n <= available m0 ->
  r = Ok tt /\ settled root U m0 f rw us pwt pcd ps N m.
Proof.
  intros Ho [G Hr] Hn. destruct r as [[]|e|]; [by destruct Hr|exfalso|done].
  destruct Hr as (_ & Ha & Hs & _). pose proof (gr_avail _ _ _ _ _ _ _ G). lia.
Qed.

Lemma kernel_init_run s X start end_ :
  owns (machine s) X -> page_aligned start -> page_aligned end_ -> 0 <= start -> end_ <= 2 ^ 39 ->
  tables_needed [] (step_by_page start end_) < available (machine s) ->
  exists s' Y, kernel_init start end_ s = (Ok tt, s') /\ kernel_ok s' (Y ∪ X) Y /\ Y ## X
    /\ cr3 s' = KERNEL_PML4_PHYS s' /\ same_on X (machine s) (machine s')
    /\ forall va, canonical va -> calc_phys_addr (machine s') (KERNEL_PML4_PHYS s') va
                                = if decide (start <= va < end_) then Some va else None.
Proof.
  intros Ho Hs He Hs0 He39 Hn. pose proof (tables_needed_nonneg [] (step_by_page start end_)) as Hn0.
  destruct (alloc_zero_run (machine s) X Ho ltac:(lia)) as (k & m1 & R1 & Hk & m2 & R2 & O2 & A2%available_take & F2 & Z2).
  assert (tree m2 (k * PAGE_SIZE) {[k]}) as Ht by (apply zero_tree; [done|by apply elem_of_singleton]).
  pose proof (paging_map_run (k * PAGE_SIZE) ({[k]} ∪ X) {[k]} m2 start start Write Supervisor WriteBack false
    ltac:(set_solver) end_ O2 Ht Hs He Hs ltac:(left; lia) ltac:(lia)) as Hmap.
  destruct (paging_map _ _ _ _ _ _ _ _ _ _ m2) as [r m3] eqn:R3. destruct Hmap as (N & Hl).
  destruct (loop_enough _ _ _ _ _ _ _ _ _ _ _ _ _ _ _ O2 Hl ltac:(lia)) as [-> [Hm _]].
  destruct Hl as [G _]. pose proof (gr_tree _ _ _ _ _ _ _ G) as Ht3.
  exists (MkPaging m3 (k * PAGE_SIZE) (k * PAGE_SIZE)), (N ∪ {[k]}). split.
  { unfold kernel_init. unfold sbind at 1. erewrite on_kernel_run.
    2: { unfold sbind at 1. rewrite R1. unfold sbind, owning. rewrite R2. done. }
    unfold sbind at 1.
    erewrite on_kernel_run; [|cbn [machine]; unfold owning; change (frame_start_phys_addr (frame_at k 1)) with (k * PAGE_SIZE); rewrite R3; done]. done. }
  pose proof (gr_fresh _ _ _ _ _ _ _ G) as HN. split.
  { split; cbn [machine KERNEL_PML4_PHYS]; [|set_solver|done]. rewrite <- (assoc_L (∪)). apply G. }
  split; [set_solver|]. split; [done|]. split.
  { eapply same_on_trans; [exact F2|]. eapply same_on_sub; [apply G|]. set_solver. }
  intros va Hva. cbn [machine KERNEL_PML4_PHYS]. rewrite (mapped_calc _ _ m2 m3 start end_ start _ _ _ _ va Ht3) by done.
  destruct (decide (start <= va < end_)); [|by rewrite zero_leaf by done].
  f_equal. unfold page_base, page_of, page_aligned, PAGE_SIZE in *. rewrite Z.mod_small; Z.div_mod_to_equations; lia.
Qed.

(** [kernel_map] adds the identity of its range, as far as an entry can hold it. *)
Lemma kernel_map_run s X Y start end_ rw pwt pcd :
  kernel_ok s X Y -> page_aligned start -> page_aligned end_ -> canonical_range start end_ ->
  let '(r, s') := kernel_map start end_ rw pwt pcd s in
  exists N, kernel_ok s' (N ∪ X) (N ∪ Y) /\ same_on (X ∖ Y) (machine s) (machine s')
    /\ KERNEL_PML4_PHYS s' = KERNEL_PML4_PHYS s
    /\ available (machine s') = available (machine s) - Z.of_nat (size N)
    /\ match r with
       | Ok _ => forall va, canonical va -> calc_phys_addr (machine s') (KERNEL_PML4_PHYS s') va
                  = if decide (start <= va < end_) then Some (va mod 2 ^ 39)
                    else calc_phys_addr (machine s) (KERNEL_PML4_PHYS s) va
       | Err e => e = not_found /\ available (machine s) < tables_needed [] (step_by_page start end_)
       | Panic => False
       end.
Proof.
  intros [Ho HYX Ht] Hs He Hc. unfold kernel_map. unfold sbind, sget, on_kernel.
  assert (start + (end_ - start) <= 2 ^ 64) as Hb by (unfold canonical_range in Hc; lia).
  pose proof (paging_map_run (KERNEL_PML4_PHYS s) X Y (machine s) start start rw Supervisor pwt pcd HYX end_
    Ho Ht Hs He Hs Hc Hb) as Hmap.
  destruct (paging_map _ _ _ _ _ _ _ _ _ _ (machine s)) as [r m] eqn:R. destruct Hmap as (N & G & Hr).
  exists N. cbn [machine KERNEL_PML4_PHYS]. split_and!.
  - split; cbn [machine KERNEL_PML4_PHYS]; [apply G|by apply union_mono_l|apply G].
  - apply G.
  - done.
  - by eapply gr_avail.
  - destruct r as [[]|e|]; [| |done].
    + intros va Hva. destruct Hr as (_ & Hm & _).
      rewrite (mapped_calc _ _ (machine s) m start end_ start _ _ _ _ va (gr_tree _ _ _ _ _ _ _ G)) by done.
      rewrite (calc_phys_leaf (machine s) _ Y va Ht).
      destruct (decide (start <= va < end_)); [|done]. f_equal.
      unfold page_base, page_of, page_aligned, PAGE_SIZE in *. Z.div_mod_to_equations. lia.
    + destruct Hr as (-> & Ha & Hs' & _). split; [done|]. pose proof (gr_avail _ _ _ _ _ _ _ G). lia.
Qed.

End Space.
