(* ===== verification/PagingTask.v ===== *)
(** * The address space of a task

    The abstract address space is an overlay over the translations of the kernel:
    pages the task mapped and holes it left.  The table of the task refines it
    from [new_cloned_from_kernel] over any mappings and unmappings to its
    [Drop], and never changes what it shares with the kernel. *)
From Stdlib Require Import ZArith Lia.
From stdpp Require Import base gmap sets list.
From S2P Require Import Prelude KError Bitmap Paging PagingTree PagingMap PagingRange PagingSpace.

#[local] Open Scope list_scope.
#[local] Open Scope Z_scope.

(** ** The abstract address space *)

Inductive slot :=
| Mapped (page : Z) (rw : ReadWrite) (pwt : PageWriteThroughLevel) (pcd : bool)
| Hole.

(** By page number; other pages are the kernel's. *)
Abbreviation overlay := (gmap Z slot).

Definition overlay_lookup (ov : overlay) (kernel : VirtualAddress -> option Z) (va : VirtualAddress) : option Z :=
  match ov !! page_of va with
  | Some (Mapped page _ _ _) => Some (page + va mod PAGE_SIZE)
  | Some Hole => None
  | None => kernel va
  end.

Inductive SpaceOp :=
| OpMap (start end_ phys_addr : Z) (rw : ReadWrite) (pwt : PageWriteThroughLevel) (pcd : bool)
| OpUnmap (start end_ : Z).

Definition op_pages (op : SpaceOp) : list Z :=
  match op with OpMap start end_ _ _ _ _ | OpUnmap start end_ => step_by_page start end_ end.

Definition op_slot (op : SpaceOp) (i : Z) : slot :=
  match op with
  | OpMap start _ phys_addr rw pwt pcd => Mapped (phys_addr + (i - start)) rw pwt pcd
  | OpUnmap _ _ => Hole
  end.

Definition overlay_write (op : SpaceOp) (ps : list Z) (ov : overlay) : overlay :=
  foldl (fun ov i => <[page_of i := op_slot op i]> ov) ov ps.

Definition overlay_ops (ops : list SpaceOp) (ov : overlay) : overlay :=
  foldl (fun ov op => overlay_write op (op_pages op) ov) ov ops.

(** Ranges are aligned and canonical, physical addresses fit into an entry, and only
    pages that the task mapped are unmapped. *)
Definition op_ok (ov : overlay) (op : SpaceOp) : Prop :=
  match op with
  | OpMap start end_ phys_addr _ _ _ =>
      page_aligned start /\ page_aligned end_ /\ page_aligned phys_addr /\ canonical_range start end_
      /\ 0 <= phys_addr /\ phys_addr + (end_ - start) <= 2 ^ 39
  | OpUnmap start end_ =>
      page_aligned start /\ page_aligned end_ /\ canonical_range start end_
      /\ Forall (fun i => is_Some (ov !! page_of i)) (step_by_page start end_)
  end.

Fixpoint ops_ok (ov : overlay) (ops : list SpaceOp) : Prop :=
  match ops with
  | [] => True
  | op :: ops => op_ok ov op /\ ops_ok (overlay_write op (op_pages op) ov) ops
  end.

Definition op_tables (op : SpaceOp) : Z :=
  match op with OpMap _ _ _ _ _ _ => tables_needed [] (op_pages op) | OpUnmap _ _ => 0 end.
Definition ops_tables (ops : list SpaceOp) : Z := foldr (fun op n => op_tables op + n) 0 ops.

Lemma overlay_write_lookup op ps ov va :
  Forall page_aligned ps ->
  overlay_write op ps ov !! page_of va
  = if decide (page_base va ∈ ps) then Some (op_slot op (page_base va)) else ov !! page_of va.
Proof.
  revert ov. induction ps as [|i ps IH]; intros ov Hps; [by rewrite decide_False by set_solver|].
  apply Forall_cons in Hps as [Hi Hps]. cbn. fold (overlay_write op ps (<[page_of i:=op_slot op i]> ov)).
  rewrite IH by done. destruct (decide (page_base va ∈ ps)); [by rewrite decide_True by set_solver|].
  destruct (decide (page_base va = i)) as [<-|Hne].
  - rewrite decide_True by set_solver. by rewrite page_of_base, lookup_insert_eq.
  - rewrite decide_False by set_solver. rewrite lookup_insert_ne; [done|].
    intros He. apply Hne. by apply page_base_eq.
Qed.

Section Task.
Context {M : Type} `{PhysMemLaws M}.
Implicit Types m : M.

Definition run_space_op (op : SpaceOp) : SR (UserPageTable * M) unit :=
  match op with
  | OpMap start end_ phys_addr rw pwt pcd => UserPageTable_map start end_ phys_addr rw pwt pcd
  | OpUnmap start end_ => UserPageTable_unmap start end_
  end.

(** ** The invariant

    [mi] is the memory at creation, [fr] the frames free then, [X] the
    frames in use and [Y] those of the kernel's tables at that time. *)
Section Inv.
Context (mi : M) (fr : gset Z) (kroot : Z) (X Y : gset Z) (kr : Z).
Let root := kr * PAGE_SIZE.

Definition slot_ok m (va : VirtualAddress) (o : option slot) : Prop :=
  match o with
  | Some (Mapped page rw pwt pcd) => maps m root va page rw User pwt pcd
  | Some Hole => leaf_at m root va = None
  | None => leaf_at m root va = leaf_at mi kroot va
  end.

Record space_inv (ks : list Z) (ov : overlay) m : Prop := {
  si_nodup : NoDup (kr :: ks);
  si_fresh : own_set root ks ## X;
  si_owns : owns m (own_set root ks ∪ X);
  si_tree : tree m root (own_set root ks ∪ Y);
  si_free : own_set root ks ⊆ fr /\ free_set m = fr ∖ own_set root ks;
  si_same : same_on X mi m;
  si_mine : forall p, is_Some (ov !! page_of p) -> mine_path m root (own_set root ks) (table_path p);
  si_slots : forall va, canonical va -> slot_ok m va (ov !! page_of va)
}.

Lemma own_size ks ov m : space_inv ks ov m -> size (own_set root ks) = S (length ks).
Proof.
  intros I. unfold own_set. rewrite size_list_to_set; [done|]. unfold root. rewrite (proj2 (table_at_frame kr)). apply I.
Qed.

Lemma si_avail ks ov m : space_inv ks ov m -> available m + Z.of_nat (S (length ks)) = Z.of_nat (size fr).
Proof.
  intros I. destruct (si_free _ _ _ I) as [HS E]. unfold available. rewrite E, size_taken, (own_size ks ov m I) by done. lia.
Qed.

Lemma slot_grown Xg Yg Ug m N m1 va o :
  grown root Xg Yg Ug m N m1 -> leaf_at m1 root va = leaf_at m root va -> slot_ok m va o -> slot_ok m1 va o.
Proof.
  intros G He Hs. destruct o as [[page rw pwt pcd|]|]; cbn in *; [by eapply maps_grown|congruence|congruence].
Qed.

(** Progress on the table keeps the invariant, when the new pages are as the overlay says. *)
Lemma space_grown ks ks' ov ov' m m1 :
  space_inv ks ov m -> NoDup ks' ->
  grown root (own_set root ks ∪ X) (own_set root ks ∪ Y) (own_set root ks) m (list_to_set ks') m1 ->
  (forall p, is_Some (ov' !! page_of p) ->
     is_Some (ov !! page_of p) \/ mine_path m1 root (list_to_set ks' ∪ own_set root ks) (table_path p)) ->
  (forall va, canonical va -> slot_ok m1 va (ov' !! page_of va)) ->
  space_inv (ks ++ ks') ov' m1.
Proof.
  intros I Hnd G Hmine Hslots. pose proof (gr_fresh _ _ _ _ _ _ _ G) as HN. pose proof (si_fresh _ _ _ I) as HX.
  assert (own_set root (ks ++ ks') = list_to_set ks' ∪ own_set root ks) as HU by apply own_set_app.
  assert (forall q, q ∈ ks' -> q ∉ own_set root ks) as Hq.
  { intros q Hq Hu. apply (HN q); [by apply elem_of_list_to_set|by apply elem_of_union_l]. }
  split.
  - change (kr :: ks ++ ks') with ((kr :: ks) ++ ks'). apply NoDup_app. split_and!; [apply I| |done].
    intros q Hq1 Hq2. apply (Hq q Hq2). unfold own_set. apply elem_of_list_to_set.
    unfold root. by rewrite (proj2 (table_at_frame kr)).
  - rewrite HU. intros q [Hq1|Hq1]%elem_of_union Hq2; [|by apply (HX q)].
    apply (HN q); [done|by apply elem_of_union_r].
  - rewrite HU, <- (assoc_L (∪)). apply G.
  - rewrite HU, <- (assoc_L (∪)). apply G.
  - destruct (si_free _ _ _ I) as [S1 E1], (gr_free _ _ _ _ _ _ _ G) as [S2 E2]. rewrite E2, E1, HU in *.
    split; [set_solver|]. apply set_eq. set_solver.
  - eapply same_on_trans; [apply I|]. eapply same_on_sub; [apply G|]. intros q Hqx. apply elem_of_difference.
    split; [by apply elem_of_union_r|]. intros Hu. by apply (HX q).
  - rewrite HU. intros p Hp. destruct (Hmine p Hp) as [Hold|]; [|done].
    eapply mine_path_grown; [exact G|apply table_path_path|by apply I].
  - done.
Qed.

(** ** Mapping *)

(** The pages [ps] of a map operation are settled. *)
Lemma settled_space ks ks' ov m m1 start end_ phys rw pwt pcd ps :
  space_inv ks ov m -> NoDup ks' ->
  page_aligned start -> page_aligned phys -> 0 <= phys -> phys + (end_ - start) <= 2 ^ 39 ->
  Forall (fun i => start <= i < end_ /\ page_aligned i) ps ->
  grown root (own_set root ks ∪ X) (own_set root ks ∪ Y) (own_set root ks) m (list_to_set ks') m1 ->
  settled root (own_set root ks) m (fun i => entry_addr (phys + (i - start))) rw User pwt pcd ps (list_to_set ks') m1 ->
  space_inv (ks ++ ks') (overlay_write (OpMap start end_ phys rw pwt pcd) ps ov) m1.
Proof.
  intros I Hnd Hs Hp H0' Hb Hps G [Hm Hmi].
  assert (Forall page_aligned ps) as Hal by (eapply Forall_impl; [exact Hps|by intros i [_ ?]]).
  rewrite Forall_forall in Hps. rewrite Forall_forall in Hmi.
  eapply space_grown; [done|done|done| |].
  - intros p. rewrite overlay_write_lookup by done. case_decide as Hin; [|by intros ?; left].
    intros _. right. destruct (page_indices p (page_base p)) as [-> _]; [by rewrite page_of_base|]. by apply Hmi.
  - intros va Hva. rewrite overlay_write_lookup by done. specialize (Hm va Hva).
    destruct (decide (page_base va ∈ ps)) as [Hin|Hn];
      [rewrite decide_True by done|rewrite decide_False by done].
    + cbn. rewrite entry_addr_aligned in Hm; [done| |].
      * specialize (Hps _ Hin). cbn beta in Hps. lia.
      * destruct (Hps _ Hin) as [_ Ha]. unfold page_aligned, PAGE_SIZE in *. Z.div_mod_to_equations. lia.
    + eapply slot_grown; [exact G|done|]. by apply (si_slots _ _ _ I).
Qed.

Lemma root_page : page_of root = kr.
Proof. apply table_at_frame. Qed.

Hypothesis HYX : Y ⊆ X.

(** A map operation: all its pages, or those of a prefix when the frames run out. *)
Lemma map_op_run ks ov m start end_ phys rw pwt pcd :
  space_inv ks ov m -> op_ok ov (OpMap start end_ phys rw pwt pcd) ->
  let op := OpMap start end_ phys rw pwt pcd in
  let '(r, s) := UserPageTable_map start end_ phys rw pwt pcd (user_table kr ks, m) in
  exists ks' m1, s = (user_table kr (ks ++ ks'), m1)
    /\ match r with
       | Ok _ => Z.of_nat (length ks') <= op_tables op
           /\ space_inv (ks ++ ks') (overlay_write op (op_pages op) ov) m1
       | Err e => e = not_found /\ available m < op_tables op
           /\ exists ps1 ps2, op_pages op = ps1 ++ ps2 /\ space_inv (ks ++ ks') (overlay_write op ps1 ov) m1
       | Panic => False
       end.
Proof using HYX.
  intros I (Hs & He & Hp & Hc & H0' & Hb). cbv zeta.
  assert (phys + (end_ - start) <= 2 ^ 64) as Hb' by lia.
  pose proof (user_map_run kr ks (own_set root ks ∪ X) (own_set root ks ∪ Y) m start phys rw pwt pcd
    ltac:(by apply union_mono_l) end_ (si_owns _ _ _ I) (si_tree _ _ _ I) Hs He Hc Hb') as Hrun. fold root in Hrun.
  destruct (UserPageTable_map _ _ _ _ _ _ _) as [r s]. destruct Hrun as (N & m1 & (ks' & -> & Hnd & ->) & G & Hr).
  assert (Forall (fun i => start <= i < end_ /\ page_aligned i) (step_by_page start end_)) as Hpages
    by (by apply Forall_pages).
  pose proof (gr_avail _ _ _ _ _ _ _ G) as Hav. rewrite size_list_to_set in Hav by done.
  exists ks', m1. split; [done|]. destruct r as [[]|e|]; [| |done].
  - destruct Hr as [Hsz Hset]. rewrite size_list_to_set in Hsz by done. split; [done|].
    by apply (settled_space ks ks' ov m m1 start end_ phys rw pwt pcd).
  - destruct Hr as (-> & Ha & Hsz & ps1 & ps2 & Heq & Hset). rewrite size_list_to_set in Hsz by done.
    split; [done|]. split; [cbn [op_tables op_pages]; lia|]. exists ps1, ps2. split; [done|].
    apply (settled_space ks ks' ov m m1 start end_ phys rw pwt pcd); try done.
    rewrite Heq in Hpages. by apply Forall_app in Hpages as [? _].
Qed.

(** ** Unmapping *)

Definition unmap_page (virt : Z) : SR (UserPageTable * M) unit :=
  let! s := sget in
  let m := snd s in
  let pml4e := load m (entry_at root (pml4_entry_index virt)) in
  if negb (entry_p pml4e) then sret tt
  else
    let pml3e := load m (entry_at (entry_addr pml4e) (pml3_entry_index virt)) in
    if negb (entry_p pml3e) then sret tt
    else
      let pml2e := load m (entry_at (entry_addr pml3e) (pml2_entry_index virt)) in
      if negb (entry_p pml2e) then sret tt
      else
        let pml1 := entry_addr pml2e in
        smodify (fun s => (fst s, store (entry_at pml1 (pml1_entry_index virt)) 0 (snd s))).

Lemma unmap_page_walk u m i t :
  walk m root (table_path i) = Some t ->
  unmap_page i (u, m) = (Ok tt, (u, store (entry_at t (pml1_entry_index i)) 0 m)).
Proof.
  unfold table_path, unmap_page. cbn -[entry_at]. unfold sbind, sget. cbn -[entry_at].
  destruct (entry_p (load m (entry_at root (pml4_entry_index i)))); [|done]. cbn -[entry_at].
  destruct (entry_p (load m (entry_at _ (pml3_entry_index i)))); [|done]. cbn -[entry_at].
  destruct (entry_p (load m (entry_at _ (pml2_entry_index i)))); [|done]. by intros [= <-].
Qed.

Lemma unmap_page_run ks ov m i :
  space_inv ks ov m -> canonical i -> page_aligned i -> is_Some (ov !! page_of i) ->
  exists m1, unmap_page i (user_table kr ks, m) = (Ok tt, (user_table kr ks, m1))
    /\ space_inv ks (<[page_of i := Hole]> ov) m1.
Proof using HYX.
  intros I Hi Ha Hov. pose proof (table_path_path i) as Hp.
  assert (valid_index (pml1_entry_index i)) as Hv by (by apply index_valid).
  destruct (si_mine _ _ _ I i Hov (table_path i) [] ltac:(by rewrite app_nil_r)) as (t & Hw & Hu).
  destruct (write_leaf_grown root (own_set root ks ∪ X) (own_set root ks ∪ Y) (own_set root ks) m (table_path i) t
    (pml1_entry_index i)) with (f := fun _ : PageTableEntry => 0) as (m1 & R1 & G & Hother & Hleaf);
    [apply I|by apply union_mono_l|apply I|done|done|done|done|done|done|].
  exists m1. rewrite (unmap_page_walk _ m i t Hw). injection R1 as R1. rewrite R1. split; [done|].
  rewrite <- (app_nil_r ks). eapply space_grown; [done|apply NoDup_nil_2|exact G| |].
  - intros p Hp'. left. destruct (decide (page_of p = page_of i)) as [->|Hne]; [done|].
    by rewrite lookup_insert_ne in Hp'.
  - intros va Hva. destruct (decide (page_of va = page_of i)) as [He|Hne].
    + rewrite He, lookup_insert_eq. destruct (page_indices va i He) as [E1 E2]. unfold slot_ok, leaf_at. by rewrite E1, E2.
    + rewrite lookup_insert_ne by done. eapply slot_grown; [exact G| |by apply (si_slots _ _ _ I)].
      apply Hother; [apply table_path_path|done|by apply index_valid|]. intros He. apply Hne. by apply page_indices_inj.
Qed.

Lemma unmap_loop_run op ps : forall ks ov m,
  (forall i, op_slot op i = Hole) -> space_inv ks ov m ->
  Forall (fun i => canonical i /\ page_aligned i) ps -> Forall (fun i => is_Some (ov !! page_of i)) ps ->
  exists m1, sfor ps unmap_page (user_table kr ks, m) = (Ok tt, (user_table kr ks, m1))
    /\ space_inv ks (overlay_write op ps ov) m1.
Proof using HYX.
  induction ps as [|i ps IH]; intros ks ov m Hop I Hps Hov; [by exists m|].
  apply Forall_cons in Hps as [[Hc Ha] Hps]. apply Forall_cons in Hov as [Hi Hov].
  destruct (unmap_page_run ks ov m i I Hc Ha Hi) as (m1 & R1 & I1). cbn [sfor overlay_write foldl].
  fold (overlay_write op ps (<[page_of i:=op_slot op i]> ov)). rewrite Hop. unfold sbind. rewrite R1. apply IH; [done..|].
  eapply Forall_impl; [exact Hov|]. intros j Hj. destruct (decide (page_of j = page_of i)) as [->|];
    [by rewrite lookup_insert_eq; eexists|by rewrite lookup_insert_ne].
Qed.

Lemma unmap_op_run ks ov m start end_ :
  space_inv ks ov m -> op_ok ov (OpUnmap start end_) ->
  exists m1, UserPageTable_unmap start end_ (user_table kr ks, m) = (Ok tt, (user_table kr ks, m1))
    /\ space_inv ks (overlay_write (OpUnmap start end_) (step_by_page start end_) ov) m1.
Proof using HYX.
  intros I (Hs & He & Hc & Hov). apply unmap_loop_run; [done|done| |done].
  apply Forall_pages; [done|done|]. intros i Hi Ha. split; [|done]. unfold canonical, canonical_range in *. lia.
Qed.

(** ** Sequences of operations *)

(** The overlay after a run: all operations, or up to the page for which no table could be
    made. *)
Definition ops_outcome (ov : overlay) (ops : list SpaceOp) m (r : Result unit) (ov' : overlay) : Prop :=
  match r with
  | Ok _ => ov' = overlay_ops ops ov
  | Err e => e = not_found /\ available m < ops_tables ops
      /\ exists ops1 op ops2 ps1 ps2, ops = ops1 ++ op :: ops2 /\ op_pages op = ps1 ++ ps2
           /\ ov' = overlay_write op ps1 (overlay_ops ops1 ov)
  | Panic => False
  end.

Lemma op_run op ks ov m :
  space_inv ks ov m -> op_ok ov op ->
  let '(r, s) := run_space_op op (user_table kr ks, m) in
  exists ks' m1, s = (user_table kr (ks ++ ks'), m1)
    /\ match r with
       | Ok _ => Z.of_nat (length ks') <= op_tables op
           /\ space_inv (ks ++ ks') (overlay_write op (op_pages op) ov) m1
       | Err e => e = not_found /\ available m < op_tables op
           /\ exists ps1 ps2, op_pages op = ps1 ++ ps2 /\ space_inv (ks ++ ks') (overlay_write op ps1 ov) m1
       | Panic => False
       end.
Proof using HYX.
  intros I Hop. destruct op as [start end_ phys rw pwt pcd|start end_].
  - by apply map_op_run.
  - destruct (unmap_op_run ks ov m start end_ I Hop) as (m1 & R1 & I1). cbn [run_space_op]. rewrite R1.
    exists [], m1. rewrite app_nil_r. split; [done|]. split; [done|exact I1].
Qed.

Lemma op_tables_nonneg op : 0 <= op_tables op.
Proof. destruct op; cbn [op_tables]; [apply tables_needed_nonneg|lia]. Qed.

Lemma ops_tables_nonneg ops : 0 <= ops_tables ops.
Proof. induction ops as [|op ops IH]; cbn; [lia|]. pose proof (op_tables_nonneg op). fold (ops_tables ops). lia. Qed.

Lemma ops_run ops : forall ks ov m,
  space_inv ks ov m -> ops_ok ov ops ->
  let '(r, s) := sfor ops run_space_op (user_table kr ks, m) in
  exists ks' m1 ov', s = (user_table kr ks', m1) /\ space_inv ks' ov' m1 /\ ops_outcome ov ops m r ov'.
Proof using HYX.
  induction ops as [|op ops IH]; intros ks ov m I Hok; [by exists ks, m, ov|].
  destruct Hok as [Hop Hok]. pose proof (op_run op ks ov m I Hop) as Hrun. cbn [sfor]. unfold sbind.
  pose proof (ops_tables_nonneg ops) as Hn. pose proof (op_tables_nonneg op).
  destruct (run_space_op op (user_table kr ks, m)) as [[[]|e|] s1]; destruct Hrun as (ks1 & m1 & -> & Hr); [| |done].
  - destruct Hr as [Hlen I1]. specialize (IH (ks ++ ks1) _ m1 I1 Hok).
    destruct (sfor ops run_space_op _) as [r s2]. destruct IH as (ks2 & m2 & ov2 & -> & I2 & Hout).
    exists ks2, m2, ov2. split; [done|]. split; [done|]. destruct r as [[]|e|]; [done| |done].
    destruct Hout as (-> & Ha & ops1 & op' & ops2 & ps1 & ps2 & -> & Hps & Hov). split; [done|]. split.
    + change (ops_tables (op :: ops1 ++ op' :: ops2)) with (op_tables op + ops_tables (ops1 ++ op' :: ops2)).
      pose proof (si_avail _ _ _ I) as A0. pose proof (si_avail _ _ _ I1) as A1. rewrite length_app in A1. lia.
    + exists (op :: ops1), op', ops2, ps1, ps2. done.
  - destruct Hr as (-> & Ha & ps1 & ps2 & Hps & I1). exists (ks ++ ks1), m1, (overlay_write op ps1 ov).
    split; [done|]. split; [done|]. split; [done|]. split.
    + change (ops_tables (op :: ops)) with (op_tables op + ops_tables ops). lia.
    + by exists [], op, ops, ps1, ps2.
Qed.

(** What the table translates. *)
Lemma space_lookup ks ov m va :
  tree mi kroot Y -> space_inv ks ov m -> canonical va ->
  calc_phys_addr m root va = overlay_lookup ov (calc_phys_addr mi kroot) va.
Proof.
  intros Hk I Hva. pose proof (si_slots _ _ _ I va Hva) as Hs. unfold overlay_lookup.
  destruct (ov !! page_of va) as [[page rw pwt pcd|]|]; cbn [slot_ok] in Hs.
  - by eapply maps_calc; [apply I|].
  - rewrite (calc_phys_leaf m root _ va (si_tree _ _ _ I)), Hs. done.
  - rewrite (calc_phys_leaf m root _ va (si_tree _ _ _ I)), (calc_phys_leaf mi kroot Y va Hk), Hs. done.
Qed.

(** ** The end of the table *)

Lemma drop_frames l : forall m (W : gset Z),
  owns m W -> NoDup l -> Forall (fun k => k ∈ W) l ->
  exists m1, sfor (frames_of l) dealloc_unwrap m = (Ok tt, m1) /\ owns m1 (W ∖ list_to_set l)
    /\ free_set m1 = list_to_set l ∪ free_set m /\ same_on (W ∖ list_to_set l) m m1.
Proof.
  induction l as [|k l IH]; intros m W Ho Hnd Hl.
  { exists m. cbn. rewrite difference_empty_L, (left_id_L ∅ (∪)). done. }
  apply NoDup_cons in Hnd as [Hk Hnd]. apply Forall_cons in Hl as [HkW Hl].
  destruct (dealloc_page_ok m W k Ho HkW) as (m1 & R1 & O1 & A1 & F1).
  destruct (IH m1 (W ∖ {[k]}) O1 Hnd) as (m2 & R2 & O2 & A2 & F2).
  { rewrite Forall_forall in Hl |- *. intros q Hq. apply elem_of_difference. split; [by apply Hl|].
    intros ->%elem_of_singleton. done. }
  assert (W ∖ {[k]} ∖ list_to_set l = W ∖ list_to_set (k :: l)) as HW by (cbn; by rewrite difference_difference_l_L).
  rewrite HW in O2, F2. exists m2. cbn [frames_of fmap list_fmap sfor]. fold (frames_of l).
  split_and!; [|done|rewrite A2, A1; cbn; set_solver|].
  - unfold sbind, dealloc_unwrap at 1. rewrite R1. done.
  - intros b Hb Hx. rewrite F2 by done. apply F1; [done|set_solver|]. intros <-. set_solver.
Qed.

Lemma drop_run ks ov m :
  space_inv ks ov m ->
  exists m1, UserPageTable_drop (user_table kr ks) m = (Ok tt, m1) /\ owns m1 X
    /\ free_set m1 = fr /\ same_on X mi m1.
Proof.
  intros I. pose proof (si_nodup _ _ _ I) as Hnd. pose proof (si_fresh _ _ _ I) as HX.
  destruct (drop_frames (ks ++ [kr]) m (own_set root ks ∪ X) (si_owns _ _ _ I)) as (m1 & R1 & O1 & A1 & F1).
  { by rewrite <- (Permutation_cons_append ks kr). }
  { apply Forall_forall. intros q Hq. apply elem_of_union_l, elem_of_list_to_set. rewrite root_page.
    rewrite <- (Permutation_cons_append ks kr) in Hq. done. }
  assert ((own_set root ks ∪ X) ∖ list_to_set (ks ++ [kr]) = X) as HW.
  { unfold own_set in *. rewrite root_page in *. rewrite list_to_set_app_L. cbn in *. set_solver. }
  rewrite HW in O1, F1. exists m1. split_and!; [|done| |].
  - unfold UserPageTable_drop, user_table. cbn [allocated_frames pml4_frame].
    unfold frames_of in R1. rewrite fmap_app in R1. fold (frames_of ks) in R1. cbn [fmap list_fmap] in R1.
    clear -R1. revert m R1. generalize (frames_of ks) as F. induction F as [|f F IH]; intros m; cbn [app sfor]; unfold sbind.
    + unfold sret. cbn beta iota. by destruct (dealloc_unwrap (frame_at kr 1) m) as [[[]|e|] m'].
    + destruct (dealloc_unwrap f m) as [[[]|e|] m']; [|done|done]. apply IH.
  - destruct (si_free _ _ _ I) as [S1 E1]. rewrite A1, E1.
    assert (list_to_set (ks ++ [kr]) = own_set root ks) as ->.
    { unfold own_set. rewrite root_page, list_to_set_app_L. cbn. by rewrite (right_id_L ∅ (∪)), (comm_L (∪)). }
    symmetry. by apply union_difference_L.
  - eapply same_on_trans; [apply I|exact F1].
Qed.

End Inv.

(** ** Creation *)

(** A copy of the kernel's top table reaches the kernel's other tables. *)
Section Clone.
Context (m m2 : M) (kroot kr : Z) (X Y : gset Z).
Hypothesis HYX : Y ⊆ X.
Hypothesis Hk : ~ (kr ∈ X).
Hypothesis Ht : tree m kroot Y.
Hypothesis Hs : same_on X m m2.
Hypothesis Hc : forall i, valid_index i -> load m2 (entry_at (kr * PAGE_SIZE) i) = load m (entry_at kroot i).

Lemma clone_walk l : path l -> walk m2 (kr * PAGE_SIZE) l = if decide (l = []) then Some (kr * PAGE_SIZE) else walk m kroot l.
Proof using All.
  intros Hl. destruct l as [|i l]; [done|]. rewrite decide_False by done.
  pose proof (path_mid [] i l Hl) as (_ & Hi & _). cbn [walk]. rewrite Hc by done.
  destruct (entry_p (load m (entry_at kroot i))) eqn:Hp; [|done].
  apply walk_frame. intros l1 j r t1 -> Hw.
  assert (walk m kroot (i :: l1) = Some t1) as Hw' by (cbn [walk]; by rewrite Hp).
  change (i :: l1 ++ j :: r) with ((i :: l1) ++ j :: r) in Hl. apply path_mid in Hl as (Hl1 & Hj & _).
  destruct (tree_loc m kroot Y (i :: l1) t1 j Ht Hl1 Hw' Hj). apply Hs; [done|]. by apply HYX.
Qed.

Lemma clone_entry l t i :
  path l -> walk m2 (kr * PAGE_SIZE) l = Some t -> valid_index i ->
  exists t0, walk m kroot l = Some t0 /\ load m2 (entry_at t i) = load m (entry_at t0 i).
Proof using All.
  intros Hl Hw Hi. rewrite clone_walk in Hw by done. destruct (decide (l = [])) as [->|].
  - injection Hw as <-. exists kroot. split; [done|]. by apply Hc.
  - exists t. split; [done|]. destruct (tree_loc m kroot Y l t i Ht Hl Hw Hi). apply Hs; [done|]. by apply HYX.
Qed.

Lemma clone_tree : tree m2 (kr * PAGE_SIZE) ({[kr]} ∪ Y).
Proof using All.
  destruct (table_at_frame kr) as [Ha Hp].
  assert (forall l, path l -> walk m kroot l = Some (kr * PAGE_SIZE) -> False) as Hfresh.
  { intros l Hl Hw. destruct (tree_frames _ _ _ Ht l _ Hl Hw) as [_ Hy]. rewrite Hp in Hy. by apply Hk, HYX. }
  split.
  - intros l t Hl. rewrite clone_walk by done. destruct (decide _).
    + intros [= <-]. rewrite Hp. split; [done|]. apply elem_of_union_l. by apply elem_of_singleton.
    + intros Hw. destruct (tree_frames _ _ _ Ht l t Hl Hw). split; [done|]. by apply elem_of_union_r.
  - intros l t i Hl Hl2 Hi Hw. destruct (clone_entry l t i Hl Hw Hi) as (t0 & Hw0 & ->).
    by apply (tree_links _ _ _ Ht l t0 i).
  - intros l l' t Hl Hl'. rewrite !clone_walk by done. destruct (decide (l = [])) as [->|], (decide (l' = [])) as [->|].
    + done.
    + intros [= <-] Hw. by apply Hfresh in Hw.
    + intros Hw [= <-]. by apply Hfresh in Hw.
    + by apply (tree_inj _ _ _ Ht).
Qed.

Lemma clone_leaf va : leaf_at m2 (kr * PAGE_SIZE) va = leaf_at m kroot va.
Proof using All.
  unfold leaf_at, leaf. pose proof (table_path_path va) as Hp.
  rewrite clone_walk by done. rewrite decide_False by done.
  destruct (walk m kroot (table_path va)) as [t|] eqn:Hw; [|done]. cbn -[entry_at].
  destruct (tree_loc m kroot Y _ t (pml1_entry_index va) Ht Hp Hw) as [Hl Hy]; [by apply index_valid|].
  rewrite Hs; [done|done|]. by apply HYX.
Qed.

End Clone.

Lemma new_cloned_run s X Y :
  kernel_ok s X Y ->
  match new_cloned_from_kernel s with
  | (Ok u, s1) => exists kr, u = user_table kr []
      /\ space_inv (machine s) (free_set (machine s)) (KERNEL_PML4_PHYS s) X Y kr [] ∅ (machine s1)
  | (Err e, s1) => e = not_found /\ machine s1 = machine s /\ available (machine s) = 0
  | (Panic, _) => False
  end.
Proof.
  intros [Ho HYX Ht]. unfold new_cloned_from_kernel. unfold sbind at 1, on_kernel at 1. unfold UserPageTable_new, sbind at 1.
  pose proof (alloc_page_ok (machine s) X Ho) as Hal.
  destruct (alloc_page (machine s)) as [[f|e|] m1] eqn:R1; [| |done]; [|by destruct Hal as (-> & -> & ?)].
  destruct Hal as (k & Hk & _ & -> & O1 & A1 & _). pose proof (available_nonneg m1) as Hav. pose proof (available_take _ _ _ A1).
  destruct (alloc_zero_run (machine s) X Ho ltac:(lia)) as (k' & m1' & R1' & _ & m2 & R2 & O2 & A2 & F2 & _).
  rewrite R1 in R1'. injection R1' as He <-.
  assert (k' = k) as -> by (unfold PAGE_SIZE in He; lia).
  unfold sbind at 1. rewrite R2. unfold sret at 1. cbn [fst snd machine].
  unfold sbind at 1, sget. unfold sbind at 1, slift. cbn [pml4_phys_addr pml4_frame unwrap obind].
  change (frame_start_phys_addr (frame_at k 1)) with (k * PAGE_SIZE). unfold sbind, on_kernel. cbn [machine KERNEL_PML4_PHYS].
  destruct (tree_frames _ _ _ Ht [] _ path_nil eq_refl) as [Hka Hkx].
  assert (page_of (KERNEL_PML4_PHYS s) <> k) as Hne by (intros Heq; apply Hk; rewrite <- Heq; by apply HYX).
  destruct (copy_entries_run ({[k]} ∪ X) (KERNEL_PML4_PHYS s) k m2) as (m3 & R3 & O3 & A3 & C3 & F3);
    [done|done|done|apply elem_of_union_l; by apply elem_of_singleton|].
  rewrite R3. clear R3. cbn [machine sret]. exists k. split; [done|].
  assert (same_on X (machine s) m3) as Hs.
  { intros b Hb Hx. rewrite F3, F2; [done|done|done|done|]. by intros <-. }
  assert (forall i, valid_index i -> load m3 (entry_at (k * PAGE_SIZE) i) = load (machine s) (entry_at (KERNEL_PML4_PHYS s) i)) as Hc.
  { intros i Hi. rewrite C3 by done. destruct (entry_at_loc _ i Hka Hi) as [Hw Hp]. apply F2; [done|]. rewrite Hp. by apply HYX. }
  assert (own_set (k * PAGE_SIZE) [] = {[k]}) as HU.
  { unfold own_set. cbn. rewrite (proj2 (table_at_frame k)). by rewrite (right_id_L ∅ (∪)). }
  split; rewrite ?HU.
  - apply NoDup_singleton.
  - intros q ->%elem_of_singleton. done.
  - done.
  - by apply (clone_tree (machine s) m3 (KERNEL_PML4_PHYS s) k X Y).
  - destruct A2 as [Hkf E2]. rewrite A3, E2. split; [by apply singleton_subseteq_l|done].
  - done.
  - intros p. rewrite lookup_empty. by intros [? ?].
  - intros va Hva. rewrite lookup_empty. cbn. by apply (clone_leaf (machine s) m3 (KERNEL_PML4_PHYS s) k X Y).
Qed.

End Task.
