(* ===== verification/PagingBitmap.v ===== *)
(** * Page tables on the bitmap manager

    The physical memory and the frame allocator of [Bitmap] keep the contract the
    page table code relies on: a [u64] is eight little-endian bytes, and the
    manager writes nothing but its bitmap.  With it, the properties of the page
    tables and of the initialisation of memory ([kernel/src/mem/mod.rs]). *)
From Stdlib Require Import ZArith Lia.
From stdpp Require Import base gmap sets list.
From S2P Require Import Prelude KError Bitmap Heap HeapSegs HeapList HeapRefine.
From S2P Require Import Paging PagingTree PagingMap PagingRange PagingSpace PagingTask.

#[local] Open Scope list_scope.
#[local] Open Scope Z_scope.

Implicit Types s : Machine.

(** ** Words *)

(** A [u64] at an address, and its store. *)
Definition load_u64 (s : Machine) (a : Z) : Z :=
  from_be_bytes ((fun i => phys s (a + i)) <$> [7; 6; 5; 4; 3; 2; 1; 0]).

Definition store_u64 (a v : Z) (s : Machine) : Machine :=
  {| bmm := bmm s;
     phys := fun b => if (a <=? b) && (b <? a + 8) then v / 256 ^ (b - a) mod 256 else phys s b |}.

#[export] Instance machine_mem : PhysMem Machine := {
  load := load_u64;
  store := store_u64;
  alloc_page := alloc_multi_mem_frame 1;
  dealloc_page := dealloc_mem_frame;
  zero_page := MemoryFrame_zero_out
}.

Definition bytes_ok (s : Machine) : Prop := forall a, 0 <= phys s a < 256.

Lemma load_u64_word s a : bytes_ok s -> 0 <= load_u64 s a < 2 ^ 64.
Proof.
  intros Hb. apply (from_be_bytes_bound). repeat (apply Forall_cons_2; [apply is_byte_range, Hb|]). apply Forall_nil_2.
Qed.

Lemma load_u64_ext s s' a : (forall i, 0 <= i < 8 -> phys s' (a + i) = phys s (a + i)) -> load_u64 s' a = load_u64 s a.
Proof. intros He. unfold load_u64. cbn [fmap list_fmap]. by rewrite !He by lia. Qed.

Lemma load_store_same s a v : 0 <= v < 2 ^ 64 -> load_u64 (store_u64 a v s) a = v.
Proof.
  intros Hv. unfold load_u64. transitivity (from_be_bytes (to_be_bytes 8 v)); [|by apply from_to_be_bytes].
  f_equal. cbn [fmap list_fmap store_u64 phys].
  assert (forall i, 0 <= i < 8 -> (if (a <=? a + i) && (a + i <? a + 8) then v / 256 ^ (a + i - a) mod 256 else phys s (a + i))
            = v / 256 ^ i mod 256) as He.
  { intros i Hi. destruct (Z.leb_spec a (a + i)), (Z.ltb_spec (a + i) (a + 8)); try lia. cbn.
    by replace (a + i - a) with i by lia. }
  rewrite !He by lia. cbn [to_be_bytes app]. rewrite !Z.div_div by lia.
  change (256 ^ 0) with 1. rewrite Z.div_1_r. done.
Qed.

Lemma word_page a i : word_at a -> 0 <= i < 8 -> page_of (a + i) = page_of a.
Proof. unfold word_at, page_of, PAGE_SIZE. intros Ha Hi. Z.div_mod_to_equations. lia. Qed.

Lemma load_store_other s a b v : word_at a -> word_at b -> b <> a -> load_u64 (store_u64 a v s) b = load_u64 s b.
Proof.
  intros Ha Hb Hne. apply load_u64_ext. intros i Hi. cbn.
  destruct (Z.leb_spec a (b + i)), (Z.ltb_spec (b + i) (a + 8)); try done. exfalso.
  unfold word_at in *. Z.div_mod_to_equations. lia.
Qed.

(** ** The manager writes its bitmap only *)

(** [s'] is [s] up to the counters and the bytes of the bitmap. *)
Record outside (s s' : Machine) : Prop := {
  out_addr : bmm_bitmap_phys_addr (bmm s') = bmm_bitmap_phys_addr (bmm s);
  out_total : total_frame_len (bmm s') = total_frame_len (bmm s);
  out_phys : forall a, a < bitmap_base s \/ bitmap_base s + bitmap_bytes s <= a -> phys s' a = phys s a
}.

Lemma outside_refl s : outside s s.
Proof. done. Qed.

Lemma outside_trans s1 s2 s3 : outside s1 s2 -> outside s2 s3 -> outside s1 s3.
Proof.
  intros [A1 T1 P1] [A2 T2 P2]. split; [congruence|congruence|]. intros a Ha. rewrite P2, P1; [done|done|].
  unfold bitmap_base, bitmap_bytes in *. by rewrite A1, T1.
Qed.

(** Code that keeps the rest of memory, in states of a sane size. *)
Definition sane (s : Machine) : Prop := 1 <= total_frame_len (bmm s) <= 2 ^ 52 /\ 0 <= bitmap_base s.

Definition keeps {A} (c : SR Machine A) : Prop := forall s, sane s -> outside s (snd (c s)).

Lemma wf_sane s : bmm_wf s -> sane s.
Proof. intros Hwf. split; apply Hwf. Qed.

Lemma outside_sane s s' : outside s s' -> sane s -> sane s'.
Proof. intros [A T _]. unfold sane, bitmap_base. by rewrite A, T. Qed.

Lemma keeps_ret {A} (a : A) : keeps (sret a).
Proof. intros s _. apply outside_refl. Qed.
Lemma keeps_err {A} e : keeps (A := A) (serr e).
Proof. intros s _. apply outside_refl. Qed.
Lemma keeps_lift {A} (r : Result A) : keeps (slift r).
Proof. intros s _. apply outside_refl. Qed.
Lemma keeps_get : keeps sget.
Proof. intros s _. apply outside_refl. Qed.

Lemma keeps_bind {A B} (c : SR Machine A) (k : A -> SR Machine B) :
  keeps c -> (forall a, keeps (k a)) -> keeps (sbind c k).
Proof.
  intros Hc Hk s Hs. specialize (Hc s Hs). unfold sbind. destruct (c s) as [[a|e|] s1]; cbn in Hc; [|done|done].
  eapply outside_trans; [exact Hc|]. apply Hk. by eapply outside_sane.
Qed.

Lemma keeps_get_bind {B} (k : Machine -> SR Machine B) :
  (forall s0, sane s0 -> outside s0 (snd (k s0 s0))) -> keeps (sbind sget k).
Proof. intros Hk s Hs. by apply Hk. Qed.

Lemma keeps_for {A} (l : list A) (body : A -> SR Machine unit) :
  Forall (fun x => keeps (body x)) l -> keeps (sfor l body).
Proof. induction 1 as [|x l Hx _ IH]; cbn; [apply keeps_ret|]. by apply keeps_bind. Qed.

#[local] Hint Resolve keeps_ret keeps_err keeps_lift keeps_get keeps_bind : core.


Lemma keeps_count_alloc : keeps count_alloc.
Proof.
  apply keeps_get_bind. intros s Hs. unfold sbind, slift. do 3 (destruct (uadd _ _ _) || destruct (usub _ _ _); try done).
  cbn. destruct (uadd _ _ _); try done. unfold sassert. by destruct (_ =? _).
Qed.

Lemma keeps_count_dealloc : keeps count_dealloc.
Proof.
  apply keeps_get_bind. intros s Hs. unfold sbind, slift. do 3 (destruct (usub _ _ _) || destruct (uadd _ _ _); try done).
  cbn. destruct (uadd _ _ _); try done. unfold sassert. by destruct (_ =? _).
Qed.

(** The addresses [bitmap_at] gives lie in the bitmap. *)
Lemma bitmap_at_inside s o a s' :
  sane s -> 0 <= o -> bitmap_at o s = (Ok a, s') ->
  s' = s /\ bitmap_base s <= a < bitmap_base s + bitmap_bytes s.
Proof.
  intros Hs Ho. unfold bitmap_at, sbind, sget, slift. rewrite bitmap_len_run by apply Hs.
  destruct (Z.leb_spec (bitmap_bytes s) o); [done|]. unfold bitmap_phys_addr, bitmap_base.
  destruct (bmm_bitmap_phys_addr (bmm s)) as [b|]; [|done]. cbn. unfold uadd.
  destruct (Z.ltb_spec (b + o) (2 ^ 64)); [|done]. intros [= <- <-]. split; [done|lia].
Qed.

Lemma write_outside s a v :
  bitmap_base s <= a < bitmap_base s + bitmap_bytes s -> outside s (write_phys s a v).
Proof. intros Ha. split; [done|done|]. intros b Hb. cbn. destruct (Z.eqb_spec b a); [lia|done]. Qed.

(** The state a computation that looks at the bitmap leaves alone. *)
Lemma keeps_at {B} o (k : Z -> SR Machine B) :
  0 <= o ->
  (forall s a, sane s -> bitmap_base s <= a < bitmap_base s + bitmap_bytes s ->
     outside s (snd (k a s))) ->
  keeps (sbind (bitmap_at o) k).
Proof.
  intros Ho Hk s Hs. unfold sbind. destruct (bitmap_at o s) as [r s1] eqn:Hat.
  assert (s1 = s) as ->.
  { revert Hat. unfold bitmap_at, sbind, sget, slift. destruct (bitmap_len (bmm s)); [|congruence|congruence].
    destruct (_ <=? _); [unfold serr; congruence|]. destruct (bitmap_phys_addr (bmm s)); congruence. }
  destruct r as [a|e|]; [|apply outside_refl|apply outside_refl].
  destruct (bitmap_at_inside s o a s Hs Ho Hat) as [_ Ha]. by apply Hk.
Qed.

Lemma keeps_set_frame v i : 0 <= i -> keeps (set_frame v i).
Proof.
  intros Hi. assert (0 <= bitmap_offset i) as Ho by (by apply Z.div_pos).
  unfold set_frame. destruct v; [unfold alloc_frame|unfold dealloc_frame]; apply keeps_at; try done; intros s a Hs Ha;
    unfold sbind at 1, sget; unfold sbind at 1, slift; destruct (Bitmap_get _ _) as [b| |]; try apply outside_refl.
  - destruct b; [apply outside_refl|]. unfold sbind at 1. destruct (Bitmap_set _ _ _) as [w| |]; try apply outside_refl.
    unfold sbind, sput. eapply outside_trans; [by apply write_outside|]. by apply keeps_count_alloc.
  - destruct b; [|apply outside_refl]. cbn [negb]. unfold sbind at 1. destruct (Bitmap_set _ _ _) as [w| |]; try apply outside_refl.
    unfold sbind, sput. eapply outside_trans; [by apply write_outside|]. by apply keeps_count_dealloc.
Qed.

Lemma loop_index_nonneg i j k : 0 <= i -> 0 <= j -> loop_index i j = Ok k -> 0 <= k.
Proof.
  unfold loop_index, umul, BITMAP_SIZE. intros Hi Hj. destruct (_ <? _); [|done]. cbn. unfold uadd.
  destruct (_ <? _); [|done]. intros [= <-]. lia.
Qed.

Lemma keeps_single_inner i b js : 0 <= i -> Forall (fun j => 0 <= j) js -> keeps (single_inner i b js).
Proof.
  intros Hi. induction 1 as [|j js Hj _ IH]; cbn [single_inner]; [apply keeps_ret|].
  intros s Hs. unfold sbind at 1, slift. destruct (loop_index i j) as [k| |] eqn:Hk; try apply outside_refl.
  pose proof (loop_index_nonneg i j k Hi Hj Hk). destruct (k =? 0); [by apply IH|].
  revert s Hs. change (keeps (sbind (slift (Bitmap_get b j)) (fun allocated =>
    if negb allocated then
      do! alloc_frame k in
      let! addr := slift (umul 64 k PAGE_SIZE) in
      let! frame := slift (MemoryFrame_new addr PAGE_SIZE) in
      sret (Some frame)
    else single_inner i b js))).
  apply keeps_bind; [apply keeps_lift|]. intros [|]; cbn [negb]; [done|].
  apply keeps_bind; [by apply (keeps_set_frame true)|]. auto 10.
Qed.

Lemma keeps_single_outer offs : Forall (fun i => 0 <= i) offs -> keeps (single_outer offs).
Proof.
  induction 1 as [|i offs Hi _ IH]; cbn [single_outer]; [apply keeps_err|]. apply keeps_at; [done|]. intros s a Hs _.
  unfold sbind at 1, sget. destruct (is_allocated_all _); [by apply IH|]. revert s Hs. intros s Hs.
  apply (keeps_bind (single_inner i (phys s a) (seqZ 0 BITMAP_SIZE))
    (fun r => match r with Some frame => sret frame | None => single_outer offs end)); [| |done].
  - apply keeps_single_inner; [done|]. apply Forall_forall. intros j ?%elem_of_seqZ. lia.
  - intros [f|]; auto.
Qed.

Lemma keeps_alloc_page : keeps (alloc_multi_mem_frame 1).
Proof.
  change (alloc_multi_mem_frame 1) with alloc_single_mem_frame. apply keeps_get_bind. intros s Hs.
  destruct (_ =? _); [apply outside_refl|]. unfold sbind, slift. rewrite bitmap_len_run by apply Hs.
  apply keeps_single_outer; [|done]. apply Forall_forall. intros j ?%elem_of_seqZ. lia.
Qed.

Lemma keeps_dealloc k n : 0 <= k -> keeps (dealloc_mem_frame (frame_at k n)).
Proof.
  intros Hk s Hs. unfold dealloc_mem_frame. set (c := sbind _ _).
  assert (keeps c) as Hc.
  { apply keeps_bind; [apply keeps_lift|]. intros e. apply keeps_for. apply Forall_forall. intros j Hj%elem_of_seqZ.
    apply (keeps_set_frame false). unfold frame_index, frame_at, frame_start_phys_addr in Hj. rewrite Z.div_mul in Hj by done. lia. }
  specialize (Hc s Hs). destruct (c s) as [[[]|e|] s1]; cbn in *; [done| |done]. done.
Qed.

Definition nonneg_start (start : option Z) : Prop := forall x, start = Some x -> 0 <= x.

Lemma multi_inner_nonneg len i b js : forall start count start' count' broke,
  0 <= i -> Forall (fun j => 0 <= j) js -> nonneg_start start ->
  multi_inner len i b js start count = Ok (start', count', broke) -> nonneg_start start'.
Proof.
  induction js as [|j js IH]; intros start count start' count' broke Hi Hjs Hst; cbn [multi_inner].
  { by intros [= <- _ _]. }
  apply Forall_cons in Hjs as [Hj Hjs]. destruct (loop_index i j) as [k| |] eqn:Hk; [|done|done]. cbn [obind].
  pose proof (loop_index_nonneg i j k Hi Hj Hk) as Hk0.
  destruct (k =? 0); [by apply IH|]. destruct (Bitmap_get b j) as [[|]| |]; [|  |done|done]; cbn [obind negb].
  - by apply IH.
  - assert (nonneg_start (if count =? 0 then Some k else start)) as Hst'
      by (destruct (count =? 0); [by intros x [= <-]|done]).
    destruct (uadd 64 count 1) as [c| |]; [|done|done]. cbn [obind]. destruct (c =? len); [by intros [= <- _ _]|by apply IH].
Qed.

Lemma multi_outer_nonneg len offs : forall start count s start' count' s',
  Forall (fun i => 0 <= i) offs -> nonneg_start start ->
  multi_outer len offs start count s = (Ok (start', count'), s') -> nonneg_start start'.
Proof.
  induction offs as [|i offs IH]; intros start count s start' count' s' Ho Hst; cbn [multi_outer].
  { by intros [= <- _ _]. }
  apply Forall_cons in Ho as [Hi Ho]. unfold sbind at 1. destruct (bitmap_at i s) as [[a| |] s1]; [|done|done].
  unfold sbind at 1, sget. destruct (_ && _).
  - unfold sbind, slift, umul, BITMAP_SIZE. destruct (_ <? _); [|done]. intros [= <- _ _]. intros x [= <-]. lia.
  - unfold sbind, slift. destruct (multi_inner _ _ _ _ _ _) as [[[st c] br]| |] eqn:Hm; [|done|done].
    assert (nonneg_start st) as Hst1.
    { eapply multi_inner_nonneg; [exact Hi| |exact Hst|exact Hm]. apply Forall_forall. intros j ?%elem_of_seqZ. lia. }
    destruct br; [by intros [= <- _ _]|by apply IH].
Qed.

Lemma keeps_multi_outer len offs : Forall (fun i => 0 <= i) offs -> forall start count, keeps (multi_outer len offs start count).
Proof.
  induction 1 as [|i offs Hi _ IH]; intros start count; cbn [multi_outer]; [apply keeps_ret|].
  apply keeps_at; [done|]. intros s a Hs _. unfold sbind at 1, sget. destruct (_ && _).
  - unfold sbind, slift. destruct (umul _ _ _); apply outside_refl.
  - unfold sbind, slift. destruct (multi_inner _ _ _ _ _ _) as [[[st c] [|]]| |]; try apply outside_refl. by apply IH.
Qed.

Lemma keeps_alloc len : 0 <= len -> keeps (alloc_multi_mem_frame len).
Proof.
  intros Hlen. unfold alloc_multi_mem_frame. destruct (len =? 0); [apply keeps_err|].
  destruct (len =? 1); [apply keeps_alloc_page|]. apply keeps_get_bind. intros s Hs.
  destruct (_ <? _); [apply outside_refl|]. unfold sbind at 1, slift. rewrite bitmap_len_run by apply Hs.
  assert (Forall (fun i => 0 <= i) (seqZ 0 (bitmap_bytes s))) as Hoffs
    by (apply Forall_forall; intros j ?%elem_of_seqZ; lia).
  unfold sbind at 1. pose proof (keeps_multi_outer len _ Hoffs None 0 s Hs) as Hk.
  destruct (multi_outer len (seqZ 0 (bitmap_bytes s)) None 0 s) as [[[st c]| |] s1] eqn:Hm; cbn [snd] in Hk; [|done|done].
  assert (nonneg_start st) as Hst by (eapply multi_outer_nonneg; [exact Hoffs| |exact Hm]; by intros x [=]).
  unfold sbind at 1. destruct st as [x|]; [|done]. cbn [ok_or]. specialize (Hst x eq_refl).
  destruct (c <? len); [done|]. eapply outside_trans; [exact Hk|].
  pose proof (outside_sane _ _ Hk Hs) as Hs1. revert s1 Hs1 Hm Hk. intros s1 Hs1 _ _.
  apply keeps_bind; [|auto 10|done]. apply keeps_for, Forall_forall. intros i Hi%elem_of_seqZ s2 Hs2.
  unfold sbind, slift, uadd. destruct (_ <? _); [|apply outside_refl]. apply (keeps_set_frame true); [lia|done].
Qed.

(** ** The contract *)

(** Frames that hold a byte of the bitmap. *)
Definition bitmap_frame (s : Machine) (k : Z) : Prop := bitmap_first s <= k <= bitmap_last s.

Record machine_owns (s : Machine) (X : gset Z) : Prop := {
  mo_wf : bmm_wf s;
  mo_small : total_frame_len (bmm s) <= 2 ^ 27;
  mo_bytes : bytes_ok s;
  mo_bitmap : forall k, bitmap_frame s k -> k < total_frame_len (bmm s) -> allocated s k = true;
  mo_frames : forall k, k ∈ X -> 1 <= k < total_frame_len (bmm s) /\ allocated s k = true /\ ~ bitmap_frame s k;
  mo_count : Z.of_nat (size X) <= allocated_frame_len_in_available_mem (bmm s)
}.

(** The frames that can be handed out: frame 0 is not. *)
Definition free_list (s : Machine) : list Z :=
  List.filter (fun k => negb (allocated s k)) (seqZ 1 (total_frame_len (bmm s) - 1)).
Definition machine_free (s : Machine) : gset Z := list_to_set (free_list s).

Lemma elem_free_list s q : q ∈ free_list s <-> 1 <= q < total_frame_len (bmm s) /\ allocated s q = false.
Proof.
  unfold free_list. rewrite list_elem_of_In, List.filter_In, <- list_elem_of_In, elem_of_seqZ, negb_true_iff.
  split; intros [??]; (split; [lia|done]).
Qed.

Lemma elem_machine_free s q : q ∈ machine_free s <-> 1 <= q < total_frame_len (bmm s) /\ allocated s q = false.
Proof. unfold machine_free. rewrite elem_of_list_to_set. apply elem_free_list. Qed.

Lemma machine_free_size s : size (machine_free s) = length (free_list s).
Proof. apply size_list_to_set, NoDup_ListNoDup, List.NoDup_filter, NoDup_ListNoDup, NoDup_seqZ. Qed.

(** The frames of a run. *)
Definition run_set (k n : Z) : gset Z := list_to_set (seqZ k n).

Lemma elem_run_set k n q : q ∈ run_set k n <-> k <= q < k + n.
Proof. unfold run_set. by rewrite elem_of_list_to_set, elem_of_seqZ. Qed.

Lemma run_set_size k n : 0 <= n -> Z.of_nat (size (run_set k n)) = n.
Proof. intros Hn. unfold run_set. rewrite size_list_to_set by apply NoDup_seqZ. rewrite length_seqZ. lia. Qed.

Lemma run_set_1 k : run_set k 1 = {[k]}.
Proof. apply set_eq. intros q. rewrite elem_run_set, elem_of_singleton. lia. Qed.

Lemma outside_frames s s' :
  outside s s' -> (forall k, bitmap_frame s' k <-> bitmap_frame s k).
Proof.
  intros [A T _] k. unfold bitmap_frame, bitmap_first, bitmap_last, bitmap_base, bitmap_bytes. by rewrite A, T.
Qed.

(** Words of other frames are not words of the bitmap. *)
Lemma outside_load s s' b : outside s s' -> word_at b -> ~ bitmap_frame s (page_of b) -> load_u64 s' b = load_u64 s b.
Proof.
  intros [_ _ P] Hb Hn. apply load_u64_ext. intros i Hi. apply P.
  destruct (Z.lt_ge_cases (b + i) (bitmap_base s)) as [|H1]; [by left|].
  destruct (Z.lt_ge_cases (b + i) (bitmap_base s + bitmap_bytes s)) as [H2|]; [|by right].
  exfalso. apply Hn. rewrite <- (word_page b i Hb Hi). unfold bitmap_frame, bitmap_first, bitmap_last, page_of.
  split; apply Z.div_le_mono; done || lia.
Qed.

Lemma outside_bytes s s' : bmm_wf s' -> bytes_ok s -> outside s s' -> bytes_ok s'.
Proof.
  intros Hwf Hb Ho a. destruct Ho as [A T P]. pose proof (wf_bytes s' Hwf) as Hw.
  unfold bitmap_base, bitmap_bytes in Hw, P. rewrite A, T in Hw. fold (bitmap_base s) in Hw, P.
  destruct (Z.lt_ge_cases a (bitmap_base s)) as [|H1]; [rewrite P by (by left); apply Hb|].
  destruct (Z.lt_ge_cases a (bitmap_base s + (total_frame_len (bmm s) + 7) / 8)) as [H2|]; [|rewrite P by (by right); apply Hb].
  replace a with (bitmap_base s + (a - bitmap_base s)) by lia. apply Hw. lia.
Qed.

(** The bits of the bitmap after frames were set. *)
Lemma frames_set_allocated s s' k n v q :
  frames_set s s' k n v -> 0 <= q < total_frame_len (bmm s) ->
  allocated s' q = if decide (q ∈ run_set k n) then v else allocated s q.
Proof.
  intros (_ & _ & _ & B & _) Hq. pose proof (bytes_bound s). rewrite B by lia.
  destruct (decide (q ∈ run_set k n)) as [Hr|Hr]; rewrite elem_run_set in Hr; bool_cases; simpl; done || lia.
Qed.

Lemma frames_set_free s s' k n v :
  1 <= k -> k + n <= total_frame_len (bmm s) -> frames_set s s' k n v ->
  machine_free s' = if v then machine_free s ∖ run_set k n else run_set k n ∪ machine_free s.
Proof.
  intros Hk Hn Hset. pose proof Hset as (_ & T & _). apply set_eq. intros q.
  assert (q ∈ machine_free s' <-> 1 <= q < total_frame_len (bmm s) /\ (if decide (q ∈ run_set k n) then v else allocated s q) = false) as Hq.
  { rewrite elem_machine_free, T. split; intros [Hq Ha]; (split; [done|]);
      [rewrite <- (frames_set_allocated s s' k n v) by (done || lia); done|rewrite (frames_set_allocated s s' k n v) by (done || lia); done]. }
  rewrite Hq. destruct v; rewrite ?elem_of_difference, ?elem_of_union, elem_machine_free; destruct (decide (q ∈ run_set k n)) as [Hr|Hr].
  - split; [by intros [_ ?]|by intros [_ ?]].
  - tauto.
  - split; [by left|]. intros _. rewrite elem_run_set in Hr. split; [lia|done].
  - tauto.
Qed.

Lemma bitmap_frame_nonneg s k : bmm_wf s -> bitmap_frame s k -> 0 <= k.
Proof.
  intros Hwf [H1 _]. pose proof (wf_base s Hwf) as [Hb _].
  assert (0 <= bitmap_first s) by (apply Z.div_pos; done). lia.
Qed.

(** Bytes of other frames are not bytes of the bitmap. *)
Lemma outside_byte s s' a : outside s s' -> ~ bitmap_frame s (page_of a) -> phys s' a = phys s a.
Proof.
  intros [_ _ P] Hn. apply P. destruct (Z.lt_ge_cases a (bitmap_base s)) as [|H1]; [by left|].
  destruct (Z.lt_ge_cases a (bitmap_base s + bitmap_bytes s)) as [H2|]; [|by right].
  exfalso. apply Hn. unfold bitmap_frame, bitmap_first, bitmap_last, page_of. split; apply Z.div_le_mono; done || lia.
Qed.

Lemma machine_owns_not_free s X : machine_owns s X -> X ## machine_free s.
Proof. intros O q Hq [_ Ha]%elem_machine_free. destruct (mo_frames _ _ O q Hq) as (_ & ? & _). congruence. Qed.

(** A run of frames taken. *)
Lemma machine_alloc_run s X n :
  machine_owns s X -> 1 <= n < 2 ^ 64 ->
  match alloc_multi_mem_frame n s with
  | (Ok f, s') => exists k, run_set k n ## X /\ 1 <= k /\ k + n <= 2 ^ 27 /\ f = frame_at k n
      /\ machine_owns s' (run_set k n ∪ X)
      /\ (run_set k n ⊆ machine_free s /\ machine_free s' = machine_free s ∖ run_set k n)
      /\ forall a, page_of a ∈ X -> phys s' a = phys s a
  | (Err e, s') => s' = s /\ e = not_found /\ forall k, ~ run_set k n ⊆ machine_free s
  | (Panic, _) => False
  end.
Proof.
  intros O Hn. pose proof (mo_wf _ _ O) as Hwf. pose proof (wf_total s Hwf) as Ht.
  pose proof (alloc_multi_promise s n Hwf ltac:(lia)) as Hp. pose proof (keeps_alloc n ltac:(lia) s (wf_sane s Hwf)) as Hk.
  destruct (alloc_multi_mem_frame n s) as [[f|e|] s']; cbn in Hp, Hk; [| |done].
  - destruct Hp as (k & _ & (K1 & K2 & K3) & -> & Hset & Hwf').
    pose proof (mo_small _ _ O). assert (run_set k n ⊆ machine_free s) as Hfree.
    { intros q Hq%elem_run_set. apply elem_machine_free. split; [lia|]. apply K3. lia. }
    assert (run_set k n ## X) as HX. { pose proof (machine_owns_not_free s X O). set_solver. }
    exists k. split; [done|]. split; [lia|]. split; [lia|]. split; [done|]. split; [split|split].
    + done.
    + by rewrite (out_total _ _ Hk).
    + apply (outside_bytes s); [done|apply O|done].
    + intros q Hq%(outside_frames s s' Hk) Hqt. rewrite (out_total _ _ Hk) in Hqt.
      pose proof (bitmap_frame_nonneg s q Hwf Hq). rewrite (frames_set_allocated s s' k n true) by (done || lia).
      destruct (decide _); [done|]. by apply (mo_bitmap _ _ O).
    + intros q Hq. rewrite (out_total _ _ Hk), (outside_frames s s' Hk).
      assert (0 <= q < total_frame_len (bmm s)) as Hqt.
      { apply elem_of_union in Hq as [Hq%elem_run_set|Hq]; [lia|]. destruct (mo_frames _ _ O q Hq). lia. }
      rewrite (frames_set_allocated s s' k n true) by done.
      destruct (decide (q ∈ run_set k n)) as [Hr|Hr].
      * pose proof (Hfree q Hr) as [Hq1 Ha]%elem_machine_free. split; [done|]. split; [done|].
        intros Hb. rewrite (mo_bitmap _ _ O q Hb) in Ha by lia. done.
      * apply elem_of_union in Hq as [?|Hq]; [done|]. by apply (mo_frames _ _ O q Hq).
    + destruct Hset as (_ & _ & _ & _ & _ & C). rewrite size_union by done. pose proof (run_set_size k n ltac:(lia)).
      pose proof (mo_count _ _ O). lia.
    + split; [done|]. by apply (frames_set_free s s' k n true).
    + intros a Ha. apply outside_byte; [done|]. by destruct (mo_frames _ _ O _ Ha) as (_ & _ & ?).
  - destruct Hp as [-> [[? _]|(_ & -> & Hno)]]; [lia|]. split; [done|]. split; [done|]. intros k Hsub. apply (Hno k).
    assert (forall q, k <= q < k + n -> 1 <= q < total_frame_len (bmm s) /\ allocated s q = false) as Hq
      by (intros q Hq%elem_run_set; by apply elem_machine_free, Hsub).
    pose proof (Hq k ltac:(lia)). pose proof (Hq (k + n - 1) ltac:(lia)). split; [lia|]. split; [lia|]. intros q ?. by apply Hq.
Qed.

Lemma machine_alloc s X :
  machine_owns s X ->
  match alloc_multi_mem_frame 1 s with
  | (Ok f, s') => exists k, ~ (k ∈ X) /\ 1 <= k < 2 ^ 27 /\ f = frame_at k 1 /\ machine_owns s' ({[k]} ∪ X)
      /\ (k ∈ machine_free s /\ machine_free s' = machine_free s ∖ {[k]})
      /\ forall b, word_at b -> page_of b ∈ X -> load_u64 s' b = load_u64 s b
  | (Err e, s') => s' = s /\ e = not_found /\ Z.of_nat (size (machine_free s)) = 0
  | (Panic, _) => False
  end.
Proof.
  intros O. pose proof (machine_alloc_run s X 1 O ltac:(lia)) as Hr. destruct (alloc_multi_mem_frame 1 s) as [[f|e|] s']; [| |done].
  - destruct Hr as (k & HX & K1 & K2 & -> & O' & [Hf E] & Hb). rewrite run_set_1 in *. exists k.
    split_and!; [set_solver|lia|lia|done|done|set_solver|done|].
    intros b Hw HbX. apply load_u64_ext. intros i Hi. apply Hb. by rewrite word_page.
  - destruct Hr as (-> & -> & Hno). split; [done|]. split; [done|].
    destruct (decide (machine_free s = ∅)) as [->|(q & Hq)%set_choose_L]; [by rewrite size_empty|].
    exfalso. apply (Hno q). rewrite run_set_1. by apply singleton_subseteq_l.
Qed.

(** A run of frames given back. *)
Lemma machine_dealloc_run s X k n :
  machine_owns s X -> 1 <= n -> run_set k n ⊆ X ->
  exists s', dealloc_mem_frame (frame_at k n) s = (Ok tt, s') /\ machine_owns s' (X ∖ run_set k n)
    /\ machine_free s' = run_set k n ∪ machine_free s
    /\ forall a, page_of a ∈ X -> phys s' a = phys s a.
Proof.
  intros O Hn HkX. pose proof (mo_wf _ _ O) as Hwf. pose proof (wf_total s Hwf) as Ht.
  assert (forall q, k <= q < k + n -> 1 <= q < total_frame_len (bmm s) /\ allocated s q = true) as Hq.
  { intros q Hq%elem_run_set%HkX. destruct (mo_frames _ _ O q Hq) as (? & ? & _). done. }
  pose proof (Hq k ltac:(lia)). pose proof (Hq (k + n - 1) ltac:(lia)).
  pose proof (mo_count _ _ O) as Hc. pose proof (run_set_size k n ltac:(lia)) as Hsz. pose proof (subseteq_size _ _ HkX).
  destruct (dealloc_run_promise s k n Hwf) as (s' & R & Hwf' & Hset); [lia|lia|lia| |lia|].
  { intros q Hq'. by apply Hq. }
  pose proof (keeps_dealloc k n ltac:(lia) s (wf_sane s Hwf)) as Hk. rewrite R in Hk. cbn in Hk.
  exists s'. split; [done|]. split; [split|split].
  - done.
  - rewrite (out_total _ _ Hk). apply O.
  - apply (outside_bytes s); [done|apply O|done].
  - intros q Hqb%(outside_frames s s' Hk) Hqt. rewrite (out_total _ _ Hk) in Hqt.
    pose proof (bitmap_frame_nonneg s q Hwf Hqb). rewrite (frames_set_allocated s s' k n false) by (done || lia).
    destruct (decide (q ∈ run_set k n)) as [Hr%HkX|]; [|by apply (mo_bitmap _ _ O)].
    by destruct (mo_frames _ _ O q Hr) as (_ & _ & ?).
  - intros q [HqX Hqk]%elem_of_difference. rewrite (out_total _ _ Hk), (outside_frames s s' Hk).
    destruct (mo_frames _ _ O q HqX) as (Q1 & Q2 & Q3). split; [done|]. split; [|done].
    rewrite (frames_set_allocated s s' k n false) by (done || lia). by rewrite decide_False.
  - destruct Hset as (_ & _ & _ & _ & _ & C). rewrite size_difference by done. lia.
  - apply (frames_set_free s s' k n false); [lia|lia|done].
  - intros a HaX. apply outside_byte; [done|]. by destruct (mo_frames _ _ O _ HaX) as (_ & _ & ?).
Qed.

Lemma machine_dealloc s X k :
  machine_owns s X -> k ∈ X ->
  exists s', dealloc_mem_frame (frame_at k 1) s = (Ok tt, s') /\ machine_owns s' (X ∖ {[k]})
    /\ machine_free s' = {[k]} ∪ machine_free s
    /\ forall b, word_at b -> page_of b ∈ X -> page_of b <> k -> load_u64 s' b = load_u64 s b.
Proof.
  intros O Hk. destruct (machine_dealloc_run s X k 1 O ltac:(lia)) as (s' & R & O' & E & Hb).
  { rewrite run_set_1. by apply singleton_subseteq_l. }
  rewrite run_set_1 in O', E. exists s'. split_and!; [done|done|done|].
  intros b Hw HbX _. apply load_u64_ext. intros i Hi. apply Hb. by rewrite word_page.
Qed.

(** Writes to frames that were handed out do not touch the manager. *)
Lemma machine_edit s X s' :
  machine_owns s X -> bmm s' = bmm s -> bytes_ok s' ->
  (forall a, ~ (page_of a ∈ X) -> phys s' a = phys s a) ->
  machine_owns s' X /\ machine_free s' = machine_free s.
Proof.
  intros O Hm Hb Hp. pose proof (mo_wf _ _ O) as Hwf. pose proof (bytes_bound s) as Hbb.
  assert (bitmap_base s' = bitmap_base s /\ bitmap_bytes s' = bitmap_bytes s) as [E1 E2]
    by (unfold bitmap_base, bitmap_bytes; by rewrite Hm).
  assert (forall a, bitmap_base s <= a < bitmap_base s + bitmap_bytes s -> phys s' a = phys s a) as Hsame.
  { intros a Ha. apply Hp. intros HX. destruct (mo_frames _ _ O _ HX) as (_ & _ & Hn). apply Hn.
    unfold bitmap_frame, bitmap_first, bitmap_last, page_of. split; apply Z.div_le_mono; done || lia. }
  assert (forall k, 0 <= k < 8 * bitmap_bytes s -> allocated s' k = allocated s k) as Hal.
  { intros k Hk. unfold allocated. rewrite E1, Hsame; [done|]. Z.div_mod_to_equations. lia. }
  assert (forall lo n, 0 <= lo -> lo + n <= total_frame_len (bmm s) ->
            List.filter (fun i => negb (allocated s' i)) (seqZ lo n) = List.filter (fun i => negb (allocated s i)) (seqZ lo n)) as Hf.
  { intros lo n Hlo Hn. apply List.filter_ext_in. intros i Hi%list_elem_of_In%elem_of_seqZ. rewrite Hal by lia. done. }
  split; [split|].
  - destruct Hwf. split; rewrite ?Hm, ?E1, ?E2; try done.
    + intros i Hi. rewrite Hal by lia. auto.
    + unfold free_frames. rewrite Hm, Hf by lia. done.
  - rewrite Hm. apply O.
  - done.
  - intros k Hk Hkt. rewrite Hm in Hkt. unfold bitmap_frame, bitmap_first, bitmap_last in Hk. rewrite E1, E2 in Hk.
    pose proof (bitmap_frame_nonneg s k Hwf Hk). rewrite Hal by lia. by apply (mo_bitmap _ _ O).
  - intros k Hk. destruct (mo_frames _ _ O k Hk) as (K1 & K2 & K3). rewrite Hm, Hal by lia. split; [done|]. split; [done|].
    unfold bitmap_frame, bitmap_first, bitmap_last. by rewrite E1, E2.
  - rewrite Hm. apply O.
  - unfold machine_free, free_list. rewrite Hm, Hf by lia. done.
Qed.

Lemma machine_store s X a v :
  machine_owns s X -> word_at a -> page_of a ∈ X -> 0 <= v < 2 ^ 64 ->
  machine_owns (store_u64 a v s) X /\ machine_free (store_u64 a v s) = machine_free s
  /\ load_u64 (store_u64 a v s) a = v
  /\ forall b, word_at b -> b <> a -> load_u64 (store_u64 a v s) b = load_u64 s b.
Proof.
  intros O Ha HX Hv. destruct (machine_edit s X (store_u64 a v s) O) as [O' C']; [done| | |].
  - intros b. cbn. destruct ((a <=? b) && (b <? a + 8)); [by apply Z.mod_pos_bound|]. apply (mo_bytes _ _ O).
  - intros b Hb. cbn. destruct (Z.leb_spec a b), (Z.ltb_spec b (a + 8)); try done. exfalso. apply Hb.
    replace b with (a + (b - a)) by lia. rewrite word_page by (done || lia). done.
  - split_and!; [done|done|by apply load_store_same|]. intros b Hb Hne. by apply load_store_other.
Qed.

Lemma machine_zero s X k :
  machine_owns s X -> k ∈ X ->
  exists s', MemoryFrame_zero_out (frame_at k 1) s = (Ok tt, s') /\ machine_owns s' X /\ machine_free s' = machine_free s
    /\ forall b, word_at b -> load_u64 s' b = if page_of b =? k then 0 else load_u64 s b.
Proof.
  intros O HX. eexists. split; [reflexivity|].
  assert (forall a, ((frame_start_phys_addr (frame_at k 1) <=? a)
            && (a <? frame_start_phys_addr (frame_at k 1) + frame_size (frame_at k 1))) = (page_of a =? k)) as Hin.
  { intros a. cbn [frame_at frame_start_phys_addr frame_size]. unfold page_of, PAGE_SIZE.
    apply eq_true_iff_eq. rewrite andb_true_iff, Z.leb_le, Z.ltb_lt, Z.eqb_eq. Z.div_mod_to_equations. lia. }
  assert (0 <= k) as Hk by (destruct (mo_frames _ _ O k HX); lia).
  edestruct (machine_edit s X) as [O' C']; [exact O| | | |split; [exact O'|split; [exact C'|]]]; [done| | |].
  - intros a. cbn. rewrite Hin. destruct (_ =? _); [done|]. apply (mo_bytes _ _ O).
  - intros a Ha. cbn. rewrite Hin. destruct (Z.eqb_spec (page_of a) k) as [<-|]; done.
  - intros b Hb. destruct (page_of b =? k) eqn:He.
    + unfold load_u64. cbn [fmap list_fmap phys]. rewrite !Hin, !word_page, He by (done || lia). done.
    + apply load_u64_ext. intros i Hi. cbn [phys]. by rewrite Hin, word_page, He.
Qed.

#[export, refine] Instance machine_laws : PhysMemLaws Machine := {
  owns := machine_owns;
  free_set := machine_free
}.
Proof.
  - apply machine_owns_not_free.
  - intros m X a O. by apply load_u64_word, (mo_bytes _ X).
  - intros m X a v. apply machine_store.
  - intros m X. apply machine_alloc.
  - intros m X k. apply machine_zero.
  - intros m X k. apply machine_dealloc.
Defined.

(** ** Initialisation *)

Lemma keeps_bmm_init2 mem_map : Forall (fun d => 0 <= desc_phys_start d) mem_map -> keeps (bmm_init2 mem_map).
Proof.
  intros Hd. apply keeps_get_bind. intros s0 Hs0. revert s0 Hs0.
  assert (forall s0, keeps (
    let! len := slift (bitmap_len (bmm s0)) in
    do! sfor (seqZ 0 len) (fun i => let! addr := bitmap_at i in smodify (fun s => write_phys s addr (Bitmap_fill true))) in
    do! sfor (List.filter is_valid_mem_desc mem_map) (fun d =>
          sfor (seqZ 0 (desc_page_cnt d)) (fun i =>
            let! o := slift (umul 64 i PAGE_SIZE) in
            let! a := slift (uadd 64 (desc_phys_start d) o) in
            dealloc_frame (a / PAGE_SIZE))) in
    let! s := sget in
    let! addr := slift (bitmap_phys_addr (bmm s)) in
    let! len := slift (bitmap_len (bmm s)) in
    let first := addr / PAGE_SIZE in
    let! e := slift (uadd 64 addr len) in
    let last := e / PAGE_SIZE in
    sfor (seqZ first (last + 1 - first)) (fun i => signore (alloc_frame i)))) as Hall; [|intros s0 Hs0; by apply Hall].
  intros s0. apply keeps_bind; [apply keeps_lift|]. intros len. apply keeps_bind; [|intros _; apply keeps_bind].
  - apply keeps_for, Forall_forall. intros i Hi%elem_of_seqZ. apply keeps_at; [lia|]. intros s a _ Ha. by apply write_outside.
  - apply keeps_for, Forall_forall. intros d Hd'%list_elem_of_In. apply List.filter_In in Hd' as [Hin _].
    rewrite Forall_forall in Hd. specialize (Hd d (proj2 (list_elem_of_In _ _) Hin)).
    apply keeps_for, Forall_forall. intros i Hi%elem_of_seqZ. intros s Hs. unfold sbind at 1, slift.
    unfold umul. destruct (_ <? _); [|apply outside_refl]. unfold sbind, slift, uadd. destruct (_ <? _); [|apply outside_refl].
    apply (keeps_set_frame false); [|done]. unfold PAGE_SIZE. apply Z.div_pos; lia.
  - intros _. apply keeps_get_bind. intros s Hs. unfold sbind at 1, slift. unfold bitmap_phys_addr.
    destruct (bmm_bitmap_phys_addr (bmm s)) as [b|] eqn:Hb; [|apply outside_refl]. cbn [ok_or].
    unfold sbind. destruct (bitmap_len (bmm s)); try apply outside_refl. destruct (uadd _ _ _); try apply outside_refl.
    apply keeps_for; [|done]. apply Forall_forall. intros i Hi%elem_of_seqZ.
    assert (0 <= b) by (destruct Hs as [_ Hs]; unfold bitmap_base in Hs; by rewrite Hb in Hs).
    assert (0 <= i) as Hi0 by (assert (0 <= b / PAGE_SIZE) by (apply Z.div_pos; done); lia).
    intros s1 Hs1. pose proof (keeps_set_frame true i Hi0 s1 Hs1) as Hk. cbn [set_frame] in Hk. unfold signore.
    by destruct (alloc_frame i s1) as [[[]|e|] s2].
Qed.

(** After the initialisation nothing has been handed out. *)
Lemma mem_init_owns mem_map d s :
  mem_map_ok mem_map -> List.find (fits_bitmap (total_frames mem_map)) mem_map = Some d ->
  total_frames mem_map <= 2 ^ 27 -> bytes_ok s ->
  exists s', mem_init mem_map s = (Ok tt, s') /\ machine_owns s' ∅
    /\ total_frame_len (bmm s') = total_frames mem_map
    /\ forall k, 0 <= k < total_frames mem_map ->
         allocated s' k = ((bitmap_first s' <=? k) && (k <=? bitmap_last s'))
                          || negb (bool_decide (k ∈ available_frames mem_map)).
Proof.
  intros Hok Hd Ht Hb. destruct (mem_init_run mem_map d s Hok Hd) as (s' & R & Hwf & Ha & Htot & Hbits).
  exists s'. split; [done|]. split; [|done].
  assert (mem_map <> []) as Hne by (intros ->; done).
  pose proof (bmm_init_run mem_map d s Hok Hne Hd) as R0. unfold mem_init in R. rewrite (sbind_run _ _ _ _ _ R0) in R.
  assert (Forall (fun d => 0 <= desc_phys_start d) mem_map) as Hall.
  { pose proof (ok_desc _ Hok) as H1. eapply Forall_impl; [exact H1|]. cbn beta. intros x Hx. lia. }
  pose proof (keeps_bmm_init2 mem_map Hall (snd (bmm_init mem_map s))) as Hk. rewrite R0 in Hk. cbn [snd] in Hk. rewrite R in Hk.
  assert (outside {| bmm := init_bmm mem_map d; phys := phys s |} s') as Hout.
  { apply Hk. split; [cbn; rewrite <- Htot; apply Hwf|]. pose proof (wf_base s' Hwf) as [Hb0 _].
    unfold bitmap_base in *. rewrite Ha in Hb0. done. }
  split.
  - done.
  - lia.
  - by eapply outside_bytes; [done| |exact Hout].
  - intros k Hk' Hkt. rewrite Htot in Hkt. pose proof (bitmap_frame_nonneg s' k Hwf Hk'). rewrite Hbits by lia.
    destruct Hk' as [K1 K2]. bool_cases; simpl; lia || done.
  - intros k Hk'. by apply not_elem_of_empty in Hk'.
  - rewrite size_empty. apply Hwf.
Qed.

(** ** The start of the heap leaves the page tables alone *)

Lemma init_heap_same s X w :
  machine_owns s X ->
  let '(r, (s', w')) := init_heap (s, w) in
  same_on X s s'
  /\ match r with
     | Ok _ => exists start, free_run s start 8192 /\ bottom (holes (heap w')) = start * PAGE_SIZE
                 /\ heap_rep w' [Free HEAP_SIZE]
     | Err e => e = not_found /\ s' = s /\ w' = w /\ forall start, ~ free_run s start 8192
     | Panic => False
     end.
Proof.
  intros O. pose proof (mo_wf _ _ O) as Hwf. pose proof (mo_small _ _ O) as Hsm.
  pose proof (alloc_multi_promise s 8192 Hwf ltac:(lia)) as Hp.
  pose proof (keeps_alloc 8192 ltac:(lia) s (wf_sane s Hwf)) as Hk.
  destruct (alloc_multi_mem_frame 8192 s) as [[f|e|] s1] eqn:Hal; cbn [snd] in Hk; [| |done].
  - destruct (init_heap_ready s w f s1 Hwf ltac:(lia) Hal) as (start & st & Hfree & Hrun & Hbot & Hrep).
    destruct Hp as (start' & _ & (S1 & S2 & S3) & -> & _). destruct st as [s2 w2].
    rewrite Hrun. cbn [snd] in Hbot, Hrep. split; [|by exists start].
    revert Hrun. unfold init_heap, sbind, HeapRefine.on_machine. change ((HEAP_SIZE + PAGE_SIZE - 1) / PAGE_SIZE) with 8192.
    cbn [fst snd]. rewrite Hal. unfold MemoryFrame_zero_out, smodify. cbn [fst snd]. unfold on_heap. cbn [fst snd].
    destruct (Heap_init _ _ w) as [r w3]. intros [= _ <- _]. intros b Hb HX. cbn [load machine_mem].
    rewrite <- (outside_load s s1 b Hk Hb); [|by destruct (mo_frames _ _ O _ HX) as (_ & _ & ?)].
    apply load_u64_ext. intros i Hi. cbn [phys frame_at frame_start_phys_addr frame_size].
    destruct (Z.leb_spec (start' * PAGE_SIZE) (b + i)), (Z.ltb_spec (b + i) (start' * PAGE_SIZE + PAGE_SIZE * 8192)); try done.
    exfalso. destruct (mo_frames _ _ O _ HX) as (_ & Hall & _). rewrite <- (word_page b i Hb Hi) in Hall.
    rewrite S3 in Hall; [done|]. unfold page_of, PAGE_SIZE in *. Z.div_mod_to_equations. lia.
  - destruct Hp as [-> [[? _]|(_ & -> & Hno)]]; [lia|].
    unfold init_heap, sbind, HeapRefine.on_machine. change ((HEAP_SIZE + PAGE_SIZE - 1) / PAGE_SIZE) with 8192.
    cbn [fst snd]. rewrite Hal. done.
Qed.

(** ** [mem::init]: frames, page tables, heap *)

Abbreviation MemWorld := (@PagingState Machine * HeapWorld)%type.

Definition on_paging {A} (c : SR PagingState A) : SR MemWorld A :=
  fun x => let '(r, p) := c (fst x) in (r, (p, snd x)).
Definition on_memory {A} (c : SR (Machine * HeapWorld) A) : SR MemWorld A :=
  fun x => let '(r, (m, w)) := c (machine (fst x), snd x) in
           (r, ({| machine := m; KERNEL_PML4_PHYS := KERNEL_PML4_PHYS (fst x); cr3 := cr3 (fst x) |}, w)).

Definition memory_init (mem_map : list MemoryDescriptor) : SR MemWorld unit :=
  do! on_paging (on_kernel (mem_init mem_map)) in
  let start := PAGE_SIZE in
  let! x := sget in
  let! end_ := slift (total_mem_size (machine (fst x))) in
  do! on_paging (kernel_init start end_) in
  on_memory init_heap.

(** The available frames that do not hold the bitmap, which lies at the start of [d]. *)
Definition spare_frames (mem_map : list MemoryDescriptor) (d : MemoryDescriptor) : list Z :=
  List.filter (fun k => negb ((desc_phys_start d / PAGE_SIZE <=? k)
                              && (k <=? (desc_phys_start d + (total_frames mem_map + 7) / 8) / PAGE_SIZE)))
    (available_frames mem_map).

Lemma spare_frames_free mem_map d s :
  mem_map_ok mem_map -> bmm_bitmap_phys_addr (bmm s) = Some (desc_phys_start d) ->
  total_frame_len (bmm s) = total_frames mem_map ->
  (forall k, 0 <= k < total_frames mem_map ->
     allocated s k = ((bitmap_first s <=? k) && (k <=? bitmap_last s))
                     || negb (bool_decide (k ∈ available_frames mem_map))) ->
  Z.of_nat (length (spare_frames mem_map d)) <= available s.
Proof.
  intros Hok Ha Ht Hbits. unfold available. cbn [free_set machine_laws]. rewrite machine_free_size. apply inj_le, List.NoDup_incl_length.
  - apply List.NoDup_filter, NoDup_ListNoDup, Hok.
  - intros k [Hk Hb]%List.filter_In. apply list_elem_of_In in Hk. pose proof (available_frames_bound _ _ Hok Hk) as Hkb.
    apply List.filter_In. rewrite <- list_elem_of_In, elem_of_seqZ, Ht. split; [lia|].
    rewrite Hbits by lia. rewrite bool_decide_true by done.
    unfold bitmap_first, bitmap_last, bitmap_base, bitmap_bytes. rewrite Ha, Ht. cbn [default]. by rewrite orb_false_r.
Qed.

Lemma total_mem_size_run s : bmm_wf s -> total_frame_len (bmm s) <= 2 ^ 27 ->
  total_mem_size s = Ok (total_frame_len (bmm s) * PAGE_SIZE).
Proof.
  intros Hwf Ht. unfold total_mem_size, umul, PAGE_SIZE. pose proof (wf_total s Hwf).
  destruct (Z.ltb_spec (total_frame_len (bmm s) * 4096) (2 ^ 64)); [done|lia].
Qed.

Lemma memory_init_run mem_map d p w :
  mem_map_ok mem_map -> List.find (fits_bitmap (total_frames mem_map)) mem_map = Some d ->
  total_frames mem_map <= 2 ^ 27 -> bytes_ok (machine p) ->
  let end_ := total_frames mem_map * PAGE_SIZE in
  tables_needed [] (step_by_page PAGE_SIZE end_) < Z.of_nat (length (spare_frames mem_map d)) ->
  exists p1 Y, kernel_ok p1 (Y ∪ ∅) Y
    /\ (forall va, canonical va -> calc_phys_addr (machine p1) (KERNEL_PML4_PHYS p1) va
                               = if decide (PAGE_SIZE <= va < end_) then Some va else None)
    /\ cr3 p1 = KERNEL_PML4_PHYS p1
    /\ memory_init mem_map (p, w) = on_memory init_heap (p1, w).
Proof.
  intros Hok Hd Ht Hb end_ Hn. destruct (mem_init_owns mem_map d (machine p) Hok Hd Ht Hb) as (s1 & R1 & O1 & T1 & B1).
  assert (bmm_bitmap_phys_addr (bmm s1) = Some (desc_phys_start d)) as Ha.
  { destruct (mem_init_run mem_map d (machine p) Hok Hd) as (s2 & R2 & _ & Ha & _). rewrite R1 in R2. by injection R2 as <-. }
  pose proof (spare_frames_free mem_map d s1 Hok Ha T1 B1) as Hfree.
  pose proof (wf_total s1 (mo_wf _ _ O1)) as Htot.
  destruct (kernel_init_run (MkPaging s1 (KERNEL_PML4_PHYS p) (cr3 p)) ∅ PAGE_SIZE end_) as (p1 & Y & R2 & K & _ & C & _ & Hva).
  - exact O1.
  - done.
  - apply Z.mod_mul. done.
  - done.
  - unfold end_, PAGE_SIZE. lia.
  - cbn [machine]. lia.
  - exists p1, Y. split; [done|]. split; [done|]. split; [done|].
    unfold memory_init. unfold sbind at 1, on_paging at 1. erewrite on_kernel_run by exact R1. cbn [fst snd].
    unfold sbind at 1, sget. unfold sbind at 1, slift. cbn [fst machine].
    rewrite total_mem_size_run by (apply O1 || lia). rewrite T1. fold end_.
    unfold sbind at 1, on_paging. cbn [fst snd]. by rewrite R2.
Qed.

(** ** Demonstration states *)

Definition demo_kernel : PagingState := snd (kernel_init 0x1000 0x10000 (MkPaging demo_machine 0 0)).

Lemma demo_owns : machine_owns demo_machine ∅.
Proof.
  destruct (mem_init_owns demo_map (List.nth 0 demo_map (MkDesc MemReserved 0 0 0 0))
              {| bmm := BitmapMemoryManager_new; phys := fun _ => 0 |}) as (s' & Hrun & Ho & _);
    [apply demo_map_ok|done|by vm_compute|done|].
  unfold demo_machine. by rewrite Hrun.
Qed.

Lemma demo_kernel_ok : exists Y, kernel_ok demo_kernel Y Y.
Proof.
  destruct (kernel_init_run (MkPaging demo_machine 0 0) ∅ 0x1000 0x10000) as (s' & Y & R & K & _);
    [exact demo_owns|done|done|done|done|by vm_compute|].
  exists Y. unfold demo_kernel. rewrite R. by rewrite (right_id_L ∅ (∪)) in K.
Qed.

(** ** Properties *)

(** C3: the initialisation of memory.  From any sane memory map below 512 GiB with a region
    for the bitmap and enough spare frames for the page tables, [mem::init] does not
    panic; afterwards the kernel's page table, which [cr3] points to, translates
    every address of physical memory but the first page to itself and nothing else;
    the heap is one hole of 32 MiB on frames of its own, or there is no run of frames
    for it and the error is returned. *)
Theorem memory_init_correct mem_map d p w :
  mem_map_ok mem_map -> List.find (fits_bitmap (total_frames mem_map)) mem_map = Some d ->
  total_frames mem_map <= 2 ^ 27 -> bytes_ok (machine p) ->
  let end_ := total_frames mem_map * PAGE_SIZE in
  tables_needed [] (step_by_page PAGE_SIZE end_) < Z.of_nat (length (spare_frames mem_map d)) ->
  let '(r, (p', w')) := memory_init mem_map (p, w) in
  cr3 p' = KERNEL_PML4_PHYS p'
  /\ (forall va, canonical va ->
        phys_addr p' va = if decide (PAGE_SIZE <= va < end_) then Ok va
                          else Err (error_into (EPage (AddressNotMapped va))))
  /\ match r with
     | Ok _ => exists start, bottom (holes (heap w')) = start * PAGE_SIZE /\ heap_rep w' [Free HEAP_SIZE]
     | Err e => e = not_found /\ w' = w /\ forall start, ~ free_run (machine p') start 8192
     | Panic => False
     end.
Proof.
  intros Hok Hd Ht Hb end_ Hn. destruct (memory_init_run mem_map d p w Hok Hd Ht Hb Hn) as (p1 & Y & K & Hva & Hc & ->).
  destruct K as [O _ Htree]. rewrite (right_id_L ∅ (∪)) in O. unfold on_memory. cbn [fst snd].
  pose proof (init_heap_same (machine p1) Y w O) as Hh. destruct (init_heap (machine p1, w)) as [r [s' w']].
  destruct Hh as [Hsame Hr]. cbn [machine KERNEL_PML4_PHYS cr3]. split; [done|]. split.
  - intros va Hca. unfold phys_addr. cbn [machine KERNEL_PML4_PHYS].
    rewrite (calc_phys_leaf s' _ Y va) by (by apply (same_on_tree (machine p1) s' _ Y Y)).
    unfold leaf_at. rewrite (same_on_leaf (machine p1) s' _ Y) by (done || apply table_path_path || by apply index_valid).
    specialize (Hva va Hca). rewrite (calc_phys_leaf (machine p1) _ Y va Htree) in Hva. unfold leaf_at in Hva. rewrite Hva.
    by destruct (decide _).
  - destruct r as [[]|e|]; [|by destruct Hr as (-> & -> & -> & ?)|done]. destruct Hr as (start & _ & ? & ?). by exists start.
Qed.

Lemma memory_init_correct_witness :
  let '(r, (p', w')) := memory_init demo_map (MkPaging {| bmm := BitmapMemoryManager_new; phys := fun _ => 0 |} 0 0, demo_heap) in
  phys_addr p' 0x3456 = Ok 0x3456
  /\ phys_addr p' 0x20000 = Err (error_into (EPage (AddressNotMapped 0x20000))) /\ r = Err not_found.
Proof.
  pose proof (memory_init_correct demo_map (List.nth 0 demo_map (MkDesc MemReserved 0 0 0 0))
    (MkPaging {| bmm := BitmapMemoryManager_new; phys := fun _ => 0 |} 0 0) demo_heap
    demo_map_ok eq_refl ltac:(by vm_compute) ltac:(intros a; vm_compute; split; [discriminate|reflexivity])
    ltac:(by vm_compute)) as H.
  destruct (memory_init demo_map _) as [r [p' w']] eqn:E. destruct H as (_ & Hva & _).
  split; [rewrite Hva; [reflexivity|left; lia]|]. split; [rewrite Hva; [reflexivity|left; lia]|].
  assert (Hr : fst (memory_init demo_map (MkPaging {| bmm := BitmapMemoryManager_new; phys := fun _ => 0 |} 0 0, demo_heap)) = r)
    by (rewrite E; reflexivity).
  rewrite <- Hr. vm_compute. reflexivity.
Defined.

(** C5: on a page-aligned canonical range (it refuses an address that is not aligned) [kernel_map]
    never panics and maps the range to itself as far as a page table entry can
    hold the address, below 512 GiB: an address of the range translates to its low 39 bits,
    every other address translates as before.  It then fails only when there are not
    enough frames for its tables, and it changes no frame in use other than the
    kernel's tables. *)
Theorem kernel_map_identity {M} `{PhysMemLaws M} (s : @PagingState M) X Y start end_ rw pwt pcd :
  kernel_ok s X Y -> page_aligned start -> page_aligned end_ -> canonical_range start end_ ->
  let '(r, s') := kernel_map start end_ rw pwt pcd s in
  (exists N, kernel_ok s' (N ∪ X) (N ∪ Y)) /\ same_on (X ∖ Y) (machine s) (machine s')
  /\ match r with
     | Ok _ => forall va, canonical va ->
         calc_phys_addr (machine s') (KERNEL_PML4_PHYS s') va
         = if decide (start <= va < end_) then Some (va mod 2 ^ 39)
           else calc_phys_addr (machine s) (KERNEL_PML4_PHYS s) va
     | Err e => e = not_found /\ available (machine s) < tables_needed [] (step_by_page start end_)
     | Panic => False
     end.
Proof.
  intros K Hs He Hc. pose proof (kernel_map_run s X Y start end_ rw pwt pcd K Hs He Hc) as Hrun.
  destruct (kernel_map start end_ rw pwt pcd s) as [r s']. destruct Hrun as (N & K' & Hsame & _ & _ & Hr).
  split; [by exists N|]. by split.
Qed.

(** A device register page below and one above 512 GiB: the second is mapped to other memory. *)
Lemma kernel_map_identity_witness :
  let s1 := snd (kernel_map 0xfee00000 0xfee01000 Write WriteThrough true demo_kernel) in
  let s2 := snd (kernel_map 0x8000001000 0x8000002000 Write WriteThrough true demo_kernel) in
  calc_phys_addr (machine s1) (KERNEL_PML4_PHYS s1) 0xfee00020 = Some 0xfee00020
  /\ calc_phys_addr (machine s2) (KERNEL_PML4_PHYS s2) 0x8000001008 = Some 0x1008.
Proof.
  destruct demo_kernel_ok as [Y K]. cbv zeta. split.
  - pose proof (kernel_map_identity demo_kernel Y Y 0xfee00000 0xfee01000 Write WriteThrough true K
      eq_refl eq_refl ltac:(left; lia)) as H.
    destruct (kernel_map _ _ _ _ _ demo_kernel) as [r s'] eqn:E. destruct H as (_ & _ & Hr).
    destruct r as [[]|e|]; [|exfalso; assert (Hf : fst (kernel_map 0xfee00000 0xfee01000 Write WriteThrough true demo_kernel) = Err e)
      by (rewrite E; reflexivity); vm_compute in Hf; discriminate Hf|destruct Hr].
    cbn [snd]. rewrite Hr; [reflexivity|left; lia].
  - pose proof (kernel_map_identity demo_kernel Y Y 0x8000001000 0x8000002000 Write WriteThrough true K
      eq_refl eq_refl ltac:(left; lia)) as H.
    destruct (kernel_map _ _ _ _ _ demo_kernel) as [r s'] eqn:E. destruct H as (_ & _ & Hr).
    destruct r as [[]|e|]; [|exfalso; assert (Hf : fst (kernel_map 0x8000001000 0x8000002000 Write WriteThrough true demo_kernel) = Err e)
      by (rewrite E; reflexivity); vm_compute in Hf; discriminate Hf|destruct Hr].
    cbn [snd]. rewrite Hr; [reflexivity|left; lia].
Defined.

(** C4: the address space of a task refines an overlay over the kernel's translations.  A table
    is created unless there is no frame for it.  After any sequence of mappings of
    page-aligned canonical ranges to memory below 2^39 and of unmappings of pages that the
    task itself mapped, the task's table translates every address as the
    overlay says: mapped pages to their frames, unmapped pages not at all, and all
    other addresses as the kernel does; a sequence stops early only when there are not
    enough frames for its tables, and no operation panics.  The kernel's translations
    and everything else in use stay as they are, and dropping the table gives exactly
    its frames back. *)
Theorem task_address_space {M} `{PhysMemLaws M} (s : @PagingState M) X Y ops :
  kernel_ok s X Y -> ops_ok ∅ ops ->
  let kernel := calc_phys_addr (machine s) (KERNEL_PML4_PHYS s) in
  match new_cloned_from_kernel s with
  | (Ok u, s1) =>
      let '(r, (u', m)) := sfor ops run_space_op (u, machine s1) in
      exists root ov, pml4_phys_addr u' = Ok root
        /\ ops_outcome ∅ ops (machine s1) r ov
        /\ (forall va, canonical va -> calc_phys_addr m root va = overlay_lookup ov kernel va)
        /\ (forall va, calc_phys_addr m (KERNEL_PML4_PHYS s) va = kernel va)
        /\ exists m', UserPageTable_drop u' m = (Ok tt, m') /\ owns m' X
             /\ free_set m' = free_set (machine s) /\ same_on X (machine s) m'
  | (Err e, s1) => e = not_found /\ machine s1 = machine s /\ available (machine s) = 0
  | (Panic, _) => False
  end.
Proof.
  intros K Hops. pose proof K as [Ho HYX Ht]. pose proof (new_cloned_run s X Y K) as Hnew. cbv zeta.
  destruct (new_cloned_from_kernel s) as [[u|e|] s1]; [|done|done]. destruct Hnew as (kr & -> & I).
  pose proof (ops_run (machine s) (free_set (machine s)) (KERNEL_PML4_PHYS s) X Y kr HYX ops [] ∅ (machine s1) I Hops) as Hrun.
  destruct (sfor ops run_space_op (user_table kr [], machine s1)) as [r [u' m]].
  destruct Hrun as (ks & m1 & ov & [= -> ->] & I' & Hout).
  exists (kr * PAGE_SIZE), ov. split; [done|]. split; [done|]. split; [|split].
  - intros va Hva. by apply (space_lookup (machine s) (free_set (machine s)) (KERNEL_PML4_PHYS s) X Y kr ks ov m1 va).
  - intros va. pose proof (same_on_sub Y X _ _ (si_same _ _ _ _ _ _ _ _ _ I') HYX) as Hsame.
    rewrite (calc_phys_leaf m1 _ Y va) by (by apply (same_on_tree (machine s) m1 _ Y Y)).
    rewrite (calc_phys_leaf (machine s) _ Y va Ht). f_equal. unfold leaf_at.
    by apply (same_on_leaf (machine s) m1 _ Y); [..|apply table_path_path|apply index_valid].
  - by apply (drop_run (machine s) (free_set (machine s)) (KERNEL_PML4_PHYS s) X Y kr HYX ks ov m1).
Qed.

(** A program page in the upper half, a heap page mapped at its own address and freed again. *)
Definition demo_space_ops : list SpaceOp :=
  [OpMap 0xffff800000000000 0xffff800000001000 0x9000 Write WriteThrough false;
   OpMap 0xa000 0xb000 0xa000 Write WriteThrough false;
   OpUnmap 0xa000 0xb000].

Lemma demo_space_ops_ok : ops_ok ∅ demo_space_ops.
Proof.
  unfold demo_space_ops. cbn [ops_ok op_ok]. split_and!; try done; try lia; try (left; lia); try (right; lia).
  apply Forall_cons_2; [|apply Forall_nil_2]. vm_compute. by eexists.
Qed.

Lemma task_address_space_witness :
  match new_cloned_from_kernel demo_kernel with
  | (Ok u, s1) =>
      let '(r, (u', m)) := sfor demo_space_ops run_space_op (u, machine s1) in
      r = Ok tt /\ exists root, pml4_phys_addr u' = Ok root
        /\ calc_phys_addr m root 0xffff800000000123 = Some 0x9123
        /\ calc_phys_addr m root 0xa000 = None
        /\ calc_phys_addr m root 0x2345 = Some 0x2345
        /\ calc_phys_addr m (KERNEL_PML4_PHYS demo_kernel) 0xa000 = Some 0xa000
        /\ exists m', UserPageTable_drop u' m = (Ok tt, m') /\ free_set m' = free_set (machine demo_kernel)
  | _ => False
  end.
Proof.
  destruct demo_kernel_ok as [Y K].
  pose proof (task_address_space demo_kernel Y Y demo_space_ops K demo_space_ops_ok) as H. cbv zeta in H.
  assert (Hok : is_ok (fst (new_cloned_from_kernel demo_kernel)) = true) by (vm_compute; reflexivity).
  assert (Hav : match new_cloned_from_kernel demo_kernel with
                | (Ok u, s1) => ops_tables demo_space_ops <=? available (machine s1)
                | _ => false end = true) by (vm_compute; reflexivity).
  assert (Hk1 : calc_phys_addr (machine demo_kernel) (KERNEL_PML4_PHYS demo_kernel) 0x2345 = Some 0x2345)
    by (vm_compute; reflexivity).
  assert (Hk2 : calc_phys_addr (machine demo_kernel) (KERNEL_PML4_PHYS demo_kernel) 0xa000 = Some 0xa000)
    by (vm_compute; reflexivity).
  destruct (new_cloned_from_kernel demo_kernel) as [[u|e|] s1]; [|discriminate Hok|discriminate Hok].
  apply Z.leb_le in Hav.
  destruct (sfor demo_space_ops run_space_op (u, machine s1)) as [[[]|e|] [u' m]];
    destruct H as (root & ov & Hroot & Hout & Hva & Hkern & m' & Hdrop & _ & Hfree & _);
    [|exfalso; destruct Hout as (_ & Hlt & _); lia|destruct Hout].
  cbn [ops_outcome] in Hout. subst ov.
  split; [reflexivity|]. exists root. split; [exact Hroot|].
  split; [rewrite Hva by (right; lia); vm_compute; reflexivity|].
  split; [rewrite Hva by (left; lia); vm_compute; reflexivity|].
  assert (Hov : forall kernel, overlay_lookup (overlay_ops demo_space_ops ∅) kernel 0x2345 = kernel 0x2345)
    by (intros kernel; vm_compute; reflexivity).
  split; [rewrite Hva by (left; lia); rewrite Hov; exact Hk1|].
  split; [rewrite Hkern; exact Hk2|]. exists m'. split; [exact Hdrop|exact Hfree].
Defined.
