(* ===== verification/Loader.v ===== *)
(** * Loading programs ([kernel/src/task/exec.rs], [Task::new] of [task/mod.rs])

    [Task_image] is [Task::new] up to the construction of the task: it builds the
    address space of a task, copies the segments of its ELF image into frames and
    maps them, and prepares stack, arguments and registers.  Frames are affine in
    the source: a [MemoryFrame] that is dropped without being given back panics,
    which is what an early return does to every frame a local variable holds. *)
From Stdlib Require Import ZArith Lia.
From stdpp Require Import base gmap list strings.
From S2P Require Import Prelude Utf8 Path KError Elf Bitmap Vfs Scheduler Paging PagingBitmap.

#[local] Open Scope string_scope.
#[local] Open Scope list_scope.
#[local] Open Scope Z_scope.

(** ** Registers ([arch/x86_64/context.rs], [gdt.rs], [registers/status.rs]) *)

Inductive ContextMode := ModeKernel | ModeUser.

#[export] Instance ContextMode_eq_dec : EqDecision ContextMode.
Proof. solve_decision. Defined.

Definition KERNEL_MODE_SS_VALUE : Z := Z.shiftl 2 3.
Definition KERNEL_MODE_CS_VALUE : Z := Z.shiftl 1 3.
Definition USER_MODE_SS_VALUE : Z := Z.lor (Z.shiftl 3 3) 3.
Definition USER_MODE_CS_VALUE : Z := Z.lor (Z.shiftl 4 3) 3.

Definition Rflags_default : Z := Z.shiftl 1 1.
Definition set_tf (r : Z) (value : bool) : Z :=
  Z.lor (Z.land r (unot 64 (Z.shiftl 1 8))) (Z.shiftl (Z.b2z value) 8).
Definition set_if_ (r : Z) (value : bool) : Z :=
  Z.lor (Z.land r (unot 64 (Z.shiftl 1 9))) (Z.shiftl (Z.b2z value) 9).

Definition Context_new : CpuContext :=
  {| ctx_cr3 := 0; ctx_rip := 0; ctx_rflags := Rflags_default; ctx_reserved := 0;
     ctx_cs := 0; ctx_ss := 0; ctx_fs := 0; ctx_gs := 0;
     ctx_rax := 0; ctx_rbx := 0; ctx_rcx := 0; ctx_rdx := 0;
     ctx_rdi := 0; ctx_rsi := 0; ctx_rsp := 0; ctx_rbp := 0;
     ctx_r8 := 0; ctx_r9 := 0; ctx_r10 := 0; ctx_r11 := 0;
     ctx_r12 := 0; ctx_r13 := 0; ctx_r14 := 0; ctx_r15 := 0;
     ctx_fpu := replicate 512 0 |}.

(** [cr3] is the register as [Cr3::read] finds it. *)
Definition Context_init (c : CpuContext) (rip rdi rsi rsp : Z) (mode : ContextMode) (trap_flag : bool)
    (cr3 : Z) : CpuContext :=
  let '(cs, ss) := match mode with
                   | ModeKernel => (KERNEL_MODE_CS_VALUE, KERNEL_MODE_SS_VALUE)
                   | ModeUser => (USER_MODE_CS_VALUE, USER_MODE_SS_VALUE)
                   end in
  {| ctx_cr3 := cr3; ctx_rip := rip; ctx_rflags := set_tf (set_if_ Rflags_default true) trap_flag;
     ctx_reserved := ctx_reserved c;
     ctx_cs := cs; ctx_ss := ss; ctx_fs := ctx_fs c; ctx_gs := ctx_gs c;
     ctx_rax := ctx_rax c; ctx_rbx := ctx_rbx c; ctx_rcx := ctx_rcx c; ctx_rdx := ctx_rdx c;
     ctx_rdi := rdi; ctx_rsi := rsi; ctx_rsp := rsp; ctx_rbp := rsp;
     ctx_r8 := ctx_r8 c; ctx_r9 := ctx_r9 c; ctx_r10 := ctx_r10 c; ctx_r11 := ctx_r11 c;
     ctx_r12 := ctx_r12 c; ctx_r13 := ctx_r13 c; ctx_r14 := ctx_r14 c; ctx_r15 := ctx_r15 c;
     ctx_fpu := ctx_fpu c |}.

(** [context.cr3 = cr3] *)
Definition with_cr3 (cr3 : Z) (c : CpuContext) : CpuContext :=
  {| ctx_cr3 := cr3; ctx_rip := ctx_rip c; ctx_rflags := ctx_rflags c; ctx_reserved := ctx_reserved c;
     ctx_cs := ctx_cs c; ctx_ss := ctx_ss c; ctx_fs := ctx_fs c; ctx_gs := ctx_gs c;
     ctx_rax := ctx_rax c; ctx_rbx := ctx_rbx c; ctx_rcx := ctx_rcx c; ctx_rdx := ctx_rdx c;
     ctx_rdi := ctx_rdi c; ctx_rsi := ctx_rsi c; ctx_rsp := ctx_rsp c; ctx_rbp := ctx_rbp c;
     ctx_r8 := ctx_r8 c; ctx_r9 := ctx_r9 c; ctx_r10 := ctx_r10 c; ctx_r11 := ctx_r11 c;
     ctx_r12 := ctx_r12 c; ctx_r13 := ctx_r13 c; ctx_r14 := ctx_r14 c; ctx_r15 := ctx_r15 c;
     ctx_fpu := ctx_fpu c |}.

(** ** C strings ([util/cstring.rs]) *)

(** [from_slice]: the bytes up to the first zero. *)
Definition cstring_from_slice (s : list Z) : list Z := from_utf8_lossy (take_until_nul s).

Definition into_cstring_bytes_with_nul (s : string) : Result (list Z) :=
  let bs := string_bytes s in
  if existsb (fun b => b =? 0) bs then Panic else Ok (bs ++ [0]).

(** ** Frames held by local variables *)

(** The state of [Task::new]: the table it builds and the memory. *)
Definition Build : Type := Paging.UserPageTable * @PagingState Machine.

Definition on_machine {A} (c : SR Machine A) : SR Build A := fun st =>
  let '(r, p) := on_kernel c (snd st) in (r, (fst st, p)).

(** A method of the table. *)
Definition on_table {A} (c : SR (Paging.UserPageTable * Machine) A) : SR Build A := fun st =>
  let '(r, (table, m)) := c (fst st, machine (snd st)) in
  (r, (table, {| machine := m; KERNEL_PML4_PHYS := KERNEL_PML4_PHYS (snd st); cr3 := cr3 (snd st) |})).

Fixpoint drop_all (frames : list MemoryFrame) : Result unit :=
  match frames with
  | [] => Ok tt
  | f :: frames => let? _ := MemoryFrame_drop f in drop_all frames
  end.

(** An early return of [c] drops the frames. *)
Definition holding {A} (frames : list MemoryFrame) (c : SR Build A) : SR Build A := fun st =>
  match c st with
  | (Err e, st') => (let? _ := drop_all frames in Err e, st')
  | r => r
  end.

(** [copy_from_nonoverlapping] to physical memory, at its own address. *)
Definition copy_to (dst : Z) (data : list Z) : SR Machine unit :=
  smodify (fun s =>
    {| bmm := bmm s;
       phys := fun a => if (dst <=? a) && (a <? dst + Z.of_nat (length data))
                        then nth (Z.to_nat (a - dst)) data 0 else phys s a |}).

(** ** Segments *)

Definition pages_needed (ph : Elf64ProgramHeader) : Result Z :=
  let? n := uadd 64 (ph_virt_addr ph mod PAGE_SIZE) (ph_mem_size ph) in
  let? n := uadd 64 n PAGE_SIZE in
  let? n := usub 64 n 1 in
  Ok (n / PAGE_SIZE).

(** One segment of type [Load]: its frame, filled and mapped. *)
Definition load_segment (e : Elf64) (ph : Elf64ProgramHeader) : SR Build MemoryFrame :=
  let! pages := slift (pages_needed ph) in
  let! user_mem_frame := on_machine (alloc_multi_mem_frame pages) in
  holding [user_mem_frame] (
    do! on_machine (MemoryFrame_zero_out user_mem_frame) in
    let! program_data := slift (data_by_program_header e ph) in
    do! match program_data with
        | Some data =>
            let! dst := slift (VirtualAddress_offset (frame_start_phys_addr user_mem_frame)
                                 (ph_virt_addr ph mod PAGE_SIZE)) in
            on_machine (copy_to dst data)
        | None => sret tt
        end in
    let start_virt_addr := ph_virt_addr ph / PAGE_SIZE * PAGE_SIZE in
    let! end_ := slift (VirtualAddress_offset start_virt_addr (frame_size user_mem_frame)) in
    do! on_table (UserPageTable_map start_virt_addr end_ (frame_start_phys_addr user_mem_frame)
                    Write WriteThrough false) in
    sret user_mem_frame).

(** [header.entry_point >= p_virt_addr && header.entry_point < p_virt_addr + p_mem_size] *)
Definition entry_in_segment (h : Elf64Header) (ph : Elf64ProgramHeader) : Result bool :=
  if entry_point h <? ph_virt_addr ph then Ok false
  else let? end_ := uadd 64 (ph_virt_addr ph) (ph_mem_size ph) in Ok (entry_point h <? end_).

Fixpoint load_segments (e : Elf64) (phs : list Elf64ProgramHeader) (program_frames : list MemoryFrame)
    (entry : option Z) : SR Build (list MemoryFrame * option Z) :=
  match phs with
  | [] => sret (program_frames, entry)
  | ph :: phs =>
      if negb (bool_decide (segment_type ph = Load)) then load_segments e phs program_frames entry
      else
        let! frame := holding program_frames (load_segment e ph) in
        let program_frames := program_frames ++ [frame] in
        let! inside := slift (entry_in_segment (header e) ph) in
        load_segments e phs program_frames (if (inside : bool) then Some (entry_point (header e)) else entry)
  end.

Definition load_elf (elf64 : option Elf64) : SR Build (list MemoryFrame * option Z) :=
  match elf64 with
  | None => sret ([], None)
  | Some e =>
      if negb (bool_decide (elf_type (header e) = Executable))
      then serr (with_context InvalidData "ELF type")
      else if negb (bool_decide (elf_machine (header e) = X8664))
      then serr (with_context InvalidData "ELF machine")
      else
        let! phs := slift (program_headers e) in
        load_segments e phs [] None
  end.

(** ** Stack and arguments *)

(** A frame that user code reaches at its physical address. *)
Definition map_identity (f : MemoryFrame) : SR Build unit :=
  let start := frame_start_phys_addr f in
  let! end_ := slift (VirtualAddress_offset start (frame_size f)) in
  on_table (UserPageTable_map start end_ start Write WriteThrough false).

Definition div_ceil (a b : Z) : Z := if a mod b =? 0 then a / b else a / b + 1.

Definition alloc_stack (stack_size : Z) (mode : ContextMode) : SR Build (option MemoryFrame) :=
  if 0 <? stack_size then
    let! stack := on_machine (alloc_multi_mem_frame (Z.max (div_ceil stack_size PAGE_SIZE) 1)) in
    do! (if decide (mode = ModeUser) then holding [stack] (map_identity stack) else sret tt) in
    sret (Some stack)
  else sret None.

Definition stack_pointer (stack : option MemoryFrame) (stack_size : Z) : Result Z :=
  match stack with
  | None => Ok 0
  | Some stack =>
      let? top := uadd 64 (frame_start_phys_addr stack) stack_size in
      let? top := usub 64 top 63 in
      Ok (Z.land top (unot 64 63))
  end.

(** [c_args.extend(into_cstring_bytes_with_nul(arg))] for every argument. *)
Fixpoint args_bytes (args : list string) : Result (list Z) :=
  match args with
  | [] => Ok []
  | arg :: args =>
      let? bs := into_cstring_bytes_with_nul arg in
      let? rest := args_bytes args in
      Ok (bs ++ rest)
  end.

(** The addresses of the arguments. *)
Fixpoint args_refs (base c_args_offset : Z) (args : list string) : Result (list Z) :=
  match args with
  | [] => Ok []
  | arg :: args =>
      let? a := VirtualAddress_offset base c_args_offset in
      let? n := uadd 64 c_args_offset (Z.of_nat (String.length arg) + 1) in
      let? rest := args_refs base n args in
      Ok (a :: rest)
  end.

Definition write_args (args : list string) (mode : ContextMode) : SR Build MemoryFrame :=
  let! c_args := slift (args_bytes args) in
  let len := Z.of_nat (length args) in
  let! c_args_offset := slift (umul 64 (len + 2) 8) in
  let! total := slift (uadd 64 (Z.of_nat (length c_args)) c_args_offset) in
  let! mem_frame := on_machine (alloc_multi_mem_frame (Z.max (total / PAGE_SIZE) 1)) in
  holding [mem_frame] (
    do! on_machine (MemoryFrame_zero_out mem_frame) in
    do! (if decide (mode = ModeUser) then map_identity mem_frame else sret tt) in
    let args_mem_virt_addr := frame_start_phys_addr mem_frame in
    let! dst := slift (VirtualAddress_offset args_mem_virt_addr c_args_offset) in
    do! on_machine (copy_to dst c_args) in
    let! c_args_ref := slift (args_refs args_mem_virt_addr c_args_offset args) in
    do! on_machine (copy_to args_mem_virt_addr (mjoin (to_le_bytes 8 <$> c_args_ref))) in
    sret mem_frame).

(** ** Tasks *)

(** The table of a task as the scheduler holds it. *)
Definition task_table (u : Paging.UserPageTable) : Scheduler.UserPageTable :=
  Scheduler.MkUserPageTable (pml4_frame u) (allocated_frames u).

Definition option_frames (o : option MemoryFrame) : list MemoryFrame := match o with Some f => [f] | None => [] end.

Definition task_parts (stack_size : Z) (elf64 : option Elf64) (args : option (list string))
    (mode : ContextMode) (debug : bool) : SR Build TaskImage :=
  let! (program_frames, entry) := load_elf elf64 in
  let rip := default 0 entry in
  let! stack_frame := holding program_frames (alloc_stack stack_size mode) in
  let! rsp := slift (stack_pointer stack_frame stack_size) in
  do! sassert (rsp mod 64 =? 0) in
  let! (args_frame, arg0, arg1) :=
    match args with
    | None => sret (None, 0, 0)
    | Some args =>
        let! f := holding (program_frames ++ option_frames stack_frame) (write_args args mode) in
        sret (Some f, Z.of_nat (length args), frame_start_phys_addr f)
    end in
  let! first := slift (idx (default ["/kernel"] args) 0) in
  let name := Path_name (Path_new first) in
  let! st := sget in
  let! table_cr3 := slift (match mode with
                           | ModeUser => pml4_phys_addr (fst st)
                           | ModeKernel => Ok (cr3 (snd st))
                           end) in
  let context := with_cr3 table_cr3 (Context_init Context_new rip arg0 arg1 rsp mode debug (cr3 (snd st))) in
  sret {| image_name := name; image_context := context; image_page_table := task_table (fst st);
          image_args_frame := args_frame; image_stack_frame := stack_frame;
          image_program_frames := program_frames |}.

(** An error drops the table, whose frames go back. *)
Definition Task_image (stack_size : Z) (elf64 : option Elf64) (args : option (list string))
    (mode : ContextMode) (debug : bool) : SR (@PagingState Machine) TaskImage :=
  let! user_page_table := (match mode with
                           | ModeUser => new_cloned_from_kernel
                           | ModeKernel => on_kernel UserPageTable_new
                           end) in
  fun s =>
    match task_parts stack_size elf64 args mode debug (user_page_table, s) with
    | (Ok im, (_, s')) => (Ok im, s')
    | (Err e, (table, s')) => (do! on_kernel (UserPageTable_drop table) in serr e) s'
    | (Panic, (_, s')) => (Panic, s')
    end.

(** [Drop for TaskResource]: the frames go back. *)
Definition TaskResource_drop_frames (r : TaskResource) : SR Machine unit :=
  do! sfor (option_frames (args_frame r)) dealloc_unwrap in
  do! sfor (option_frames (stack_frame r)) dealloc_unwrap in
  do! sfor (program_frames r) dealloc_unwrap in
  sfor (alloc_frames r) dealloc_unwrap.

