(* ===== verification/LoaderSpec.v ===== *)
(** * What loading a program promises

    The address space that [Task_image] builds: every byte of every segment at its
    virtual address, zeroes behind it, a mapped stack and the arguments; the
    frames it took are exactly those that the task holds, and giving them back
    restores the free ones. *)
From Stdlib Require Import ZArith Lia.
From stdpp Require Import base gmap sets list strings.
From S2P Require Import Prelude Utf8 Path KError Elf Bitmap Vfs Scheduler.
From S2P Require Import Paging PagingTree PagingMap PagingRange PagingSpace PagingTask PagingBitmap Loader.

#[local] Open Scope string_scope.
#[local] Open Scope list_scope.
#[local] Open Scope Z_scope.

(** ** Address spaces while memory changes elsewhere *)

Section Rebase.
Context {M : Type} `{PhysMemLaws M}.

Lemma same_on_maps (m m' : M) root T va page rw us pwt pcd :
  tree m root T -> same_on T m m' -> maps m root va page rw us pwt pcd -> maps m' root va page rw us pwt pcd.
Proof.
  intros Ht Hs [(e & He & Hr) Ha]. pose proof (table_path_path va) as Hp. split.
  - exists e. split; [|done]. unfold leaf_at. by rewrite (same_on_leaf m m' root T) by (done || by apply index_valid).
  - intros l1 j l2 Hl. rewrite Hl in Hp. apply path_mid in Hp as (Hl1 & Hj & _).
    rewrite (same_on_leaf m m' root T) by done. by apply (Ha l1 j l2).
Qed.

(** The invariant of an address space, restated with the present memory as the
    reference: frames [X2] are in use besides its tables. *)
Lemma space_rebase (mi : M) fr kroot X Y kr ks ov m m2 X2 :
  let own := own_set (kr * PAGE_SIZE) ks in
  Y ⊆ X -> tree mi kroot Y -> space_inv mi fr kroot X Y kr ks ov m -> own ## X2 -> owns m2 (own ∪ X2) ->
  same_on (own ∪ Y) m m2 -> space_inv m2 (own ∪ free_set m2) kroot X2 Y kr ks ov m2.
Proof.
  intros own HYX Hk I Hown O2 Hs. pose proof (si_tree _ _ _ _ _ _ _ _ _ I) as Ht. fold own in Ht.
  assert (same_on Y mi m2) as HsY.
  { eapply same_on_trans; [eapply same_on_sub; [apply I|done]|]. eapply same_on_sub; [exact Hs|set_solver]. }
  assert (forall va, leaf_at m2 (kr * PAGE_SIZE) va = leaf_at m (kr * PAGE_SIZE) va) as Hleaf.
  { intros va. by apply (same_on_leaf m m2 _ (own ∪ Y)); [..|apply table_path_path|apply index_valid]. }
  split.
  - apply I.
  - done.
  - done.
  - by apply (same_on_tree m m2 _ (own ∪ Y)).
  - fold own. split; [set_solver|]. pose proof (owns_not_free _ _ O2). apply set_eq. set_solver.
  - done.
  - intros p Hp l1 l2 Hl. destruct (si_mine _ _ _ _ _ _ _ _ _ I p Hp l1 l2 Hl) as (t & Hw & Hu). exists t. split; [|done].
    rewrite (same_on_walk m m2 _ (own ∪ Y)); [done..|]. pose proof (table_path_path p) as Hpath. rewrite Hl in Hpath. by apply path_app in Hpath.
  - intros va Hva. pose proof (si_slots _ _ _ _ _ _ _ _ _ I va Hva) as Hslot.
    destruct (ov !! page_of va) as [[page rw pwt pcd|]|]; cbn [slot_ok] in *.
    + by eapply same_on_maps.
    + by rewrite Hleaf.
    + rewrite Hleaf, Hslot. symmetry. unfold leaf_at. by apply (same_on_leaf mi m2 _ Y); [..|apply table_path_path|apply index_valid].
Qed.

End Rebase.

(** ** Bytes *)

Definition same_bytes (X : gset Z) (m m' : Machine) : Prop := forall a, page_of a ∈ X -> phys m' a = phys m a.

Lemma same_bytes_trans X m1 m2 m3 : same_bytes X m1 m2 -> same_bytes X m2 m3 -> same_bytes X m1 m3.
Proof. intros H1 H2 a Ha. by rewrite H2, H1. Qed.

Lemma same_bytes_sub X X' m m' : same_bytes X' m m' -> X ⊆ X' -> same_bytes X m m'.
Proof. intros Hs HX a Ha. apply Hs. set_solver. Qed.

Lemma same_bytes_words X m m' : same_bytes X m m' -> same_on X m m'.
Proof. intros Hs b Hb Hx. apply load_u64_ext. intros i Hi. apply Hs. by rewrite word_page. Qed.

Lemma words_same_bytes X m m' : bytes_ok m -> bytes_ok m' -> same_on X m m' -> same_bytes X m m'.
Proof.
  intros B B' Hs a Ha. set (b := a - a mod 8).
  assert (word_at b) as Hb by (unfold b, word_at; Z.div_mod_to_equations; lia).
  assert (0 <= a mod 8 < 8) as Hi by (apply Z.mod_pos_bound; lia).
  assert (page_of b = page_of a) as Hp by (rewrite <- (word_page b (a mod 8) Hb Hi); f_equal; unfold b; lia).
  pose proof (Hs b Hb ltac:(by rewrite Hp)) as He. cbn [load machine_mem] in He. unfold load_u64 in He.
  assert (forall m0, bytes_ok m0 -> bytes ((fun i => phys m0 (b + i)) <$> [7; 6; 5; 4; 3; 2; 1; 0])) as Hby.
  { intros m0 B0. apply Forall_fmap, Forall_true. intros i. apply is_byte_range, B0. }
  pose proof (to_from_be_bytes _ (Hby m' B')) as E'. pose proof (to_from_be_bytes _ (Hby m B)) as E.
  rewrite length_fmap in E', E. rewrite He, E in E'. cbn [fmap list_fmap] in E'. injection E' as H7 H6 H5 H4 H3 H2 H1 H0.
  replace a with (b + a mod 8) by (unfold b; lia).
  assert (a mod 8 = 0 \/ a mod 8 = 1 \/ a mod 8 = 2 \/ a mod 8 = 3 \/ a mod 8 = 4 \/ a mod 8 = 5 \/ a mod 8 = 6 \/ a mod 8 = 7)
    as Hcase by lia.
  clear Hs He E Hp Ha Hb Hi. clearbody b. by destruct Hcase as [-> | [-> | [-> | [-> | [-> | [-> | [-> | ->]]]]]]].
Qed.

(** ** Runs of frames *)

Abbreviation runs := (list (Z * Z)).

Definition runs_set (rs : runs) : gset Z := ⋃ ((fun r => run_set (fst r) (snd r)) <$> rs).
Definition run_frames (rs : runs) : list MemoryFrame := (fun r => frame_at (fst r) (snd r)) <$> rs.

(** Every run is new to those before it. *)
Fixpoint runs_ok (rs : runs) : Prop :=
  match rs with
  | [] => True
  | r :: rs => 1 <= snd r /\ run_set (fst r) (snd r) ## runs_set rs /\ runs_ok rs
  end.

Lemma runs_set_app rs rs' : runs_set (rs ++ rs') = runs_set rs ∪ runs_set rs'.
Proof. unfold runs_set. by rewrite fmap_app, union_list_app_L. Qed.

Lemma runs_set_cons r rs : runs_set (r :: rs) = run_set (fst r) (snd r) ∪ runs_set rs.
Proof. done. Qed.

Lemma runs_set_one r : runs_set [r] = run_set (fst r) (snd r).
Proof. rewrite runs_set_cons. apply (right_id_L ∅ (∪)). Qed.

Lemma runs_ok_snoc rs r : runs_ok rs -> 1 <= snd r -> run_set (fst r) (snd r) ## runs_set rs -> runs_ok (rs ++ [r]).
Proof.
  induction rs as [|r' rs IH]; intros Hok Hr Hd; [by split|]. destruct Hok as (H1 & H2 & H3). rewrite runs_set_cons in Hd.
  split; [done|]. split; [|apply IH; [done|done|set_solver]]. rewrite runs_set_app, runs_set_one. set_solver.
Qed.

(** ** Segments *)

Definition seg_first (ph : Elf64ProgramHeader) : Z := ph_virt_addr ph / PAGE_SIZE.
Definition seg_len (ph : Elf64ProgramHeader) : Z := (ph_virt_addr ph mod PAGE_SIZE + ph_mem_size ph + PAGE_SIZE - 1) / PAGE_SIZE.
Definition seg_pages (ph : Elf64ProgramHeader) : gset Z := run_set (seg_first ph) (seg_len ph).

(** The byte a segment has at distance [i] of its start. *)
Definition seg_byte (e : Elf64) (ph : Elf64ProgramHeader) (i : Z) : Z :=
  if i <? ph_file_size ph then nth (Z.to_nat (ph_file_offset ph + i)) (elf_data e) 0 else 0.

(** Segments lie in the upper half of the address space, where programs are
    linked, and in the file. *)
Record seg_ok (e : Elf64) (ph : Elf64ProgramHeader) : Prop := {
  seg_high : 2 ^ 64 - 2 ^ 47 <= ph_virt_addr ph;
  seg_end : ph_virt_addr ph + ph_mem_size ph <= 2 ^ 64 - PAGE_SIZE;
  seg_mem : 1 <= ph_mem_size ph;
  seg_file : 0 <= ph_file_size ph <= ph_mem_size ph;
  seg_offset : 0 <= ph_file_offset ph /\ ph_file_offset ph + ph_file_size ph <= elf_len e
}.

Record elf_ok (e : Elf64) : Prop := {
  elf_bytes_ok : bytes (elf_data e);
  elf_short : elf_len e < 2 ^ 63
}.

Lemma seg_len_bound e ph : seg_ok e ph ->
  1 <= seg_len ph /\ ph_virt_addr ph mod PAGE_SIZE + ph_mem_size ph <= seg_len ph * PAGE_SIZE
  /\ seg_len ph < 2 ^ 36 /\ (seg_first ph + seg_len ph) * PAGE_SIZE < 2 ^ 64.
Proof.
  intros [H1 H2 H3 H4 H5]. unfold seg_len, seg_first, PAGE_SIZE in *. Z.div_mod_to_equations. lia.
Qed.

Lemma pages_needed_run e ph : seg_ok e ph -> pages_needed ph = Ok (seg_len ph).
Proof.
  intros [H1 H2 H3 H4 H5]. unfold pages_needed, uadd, usub. unfold PAGE_SIZE in *.
  pose proof (Z.mod_pos_bound (ph_virt_addr ph) 4096 ltac:(lia)).
  destruct (Z.ltb_spec (ph_virt_addr ph mod 4096 + ph_mem_size ph) (2 ^ 64)); [|lia]. cbn [obind].
  destruct (Z.ltb_spec (ph_virt_addr ph mod 4096 + ph_mem_size ph + 4096) (2 ^ 64)); [|lia]. cbn [obind].
  destruct (Z.leb_spec 1 (ph_virt_addr ph mod 4096 + ph_mem_size ph + 4096)); [|lia]. done.
Qed.

Definition seg_data (e : Elf64) (ph : Elf64ProgramHeader) : list Z :=
  take (Z.to_nat (ph_file_size ph)) (drop (Z.to_nat (ph_file_offset ph)) (elf_data e)).

Lemma seg_data_run e ph : elf_ok e -> seg_ok e ph -> segment_type ph = Load ->
  data_by_program_header e ph = Ok (if ph_file_size ph =? 0 then None else Some (seg_data e ph)).
Proof.
  intros [_ He] [H1 H2 H3 H4 H5] Hload. unfold data_by_program_header. rewrite Hload. cbn [negb bool_decide decide].
  rewrite bool_decide_true by done. cbn [negb]. destruct (Z.eqb_spec (ph_file_size ph) 0); [done|].
  destruct (Z.eqb_spec (ph_mem_size ph) 0); [lia|]. cbn [orb]. unfold uadd.
  destruct (Z.ltb_spec (ph_file_offset ph + ph_file_size ph) (2 ^ 64)); [|lia]. cbn [obind].
  destruct (Z.ltb_spec (elf_len e) (ph_file_offset ph + ph_file_size ph)); [lia|].
  unfold slice, elf_len in *. destruct (Nat.leb_spec (Z.to_nat (ph_file_offset ph)) (Z.to_nat (ph_file_offset ph + ph_file_size ph))); [|lia].
  destruct (Nat.leb_spec (Z.to_nat (ph_file_offset ph + ph_file_size ph)) (length (elf_data e))); [|lia]. cbn [andb obind].
  unfold seg_data. do 3 f_equal. lia.
Qed.

Lemma seg_data_length e ph : seg_ok e ph -> Z.of_nat (length (seg_data e ph)) = ph_file_size ph.
Proof. intros [H1 H2 H3 H4 H5]. unfold seg_data, elf_len in *. rewrite length_take, length_drop. lia. Qed.

Lemma seg_data_nth e ph i : 0 <= i < ph_file_size ph -> 0 <= ph_file_offset ph ->
  nth (Z.to_nat i) (seg_data e ph) 0 = seg_byte e ph i.
Proof.
  intros Hi Ho. unfold seg_byte, seg_data. destruct (Z.ltb_spec i (ph_file_size ph)); [|lia].
  rewrite nth_firstn. destruct (Nat.ltb_spec (Z.to_nat i) (Z.to_nat (ph_file_size ph))); [|lia].
  rewrite nth_skipn. f_equal. lia.
Qed.

(** ** Program header tables *)

Definition loadable (phs : list Elf64ProgramHeader) : list Elf64ProgramHeader :=
  filter (fun ph => segment_type ph = Load) phs.

(** The tables that a run of pages needs at most, and the frames with its own. *)
Definition tables_for (n : Z) : Z := 6 + 3 * (n / 512).
Definition run_cost (n : Z) : Z := n + tables_for n.

Lemma tables_for_nonneg n : 0 <= n -> 6 <= tables_for n.
Proof. intros Hn. unfold tables_for. pose proof (Z.div_pos n 512). lia. Qed.

Definition load_pages (phs : list Elf64ProgramHeader) : Z := foldr (fun ph n => seg_len ph + n) 0 phs.
Definition load_cost (phs : list Elf64ProgramHeader) : Z := foldr (fun ph n => run_cost (seg_len ph) + n) 0 phs.

(** No page holds bytes of two segments. *)
Fixpoint segs_apart (phs : list Elf64ProgramHeader) : Prop :=
  match phs with
  | [] => True
  | ph :: phs => Forall (fun ph' => seg_pages ph ## seg_pages ph') phs /\ segs_apart phs
  end.

(** The segments of a program. *)
Definition segments (e : Elf64) : list Elf64ProgramHeader :=
  match program_headers e with Ok phs => loadable phs | _ => [] end.

(** A program that can be run. *)
Record program_ok (e : Elf64) : Prop := {
  po_elf : elf_ok e;
  po_type : elf_type (header e) = Executable;
  po_machine : elf_machine (header e) = X8664;
  po_headers : is_ok (program_headers e) = true;
  po_segments : Forall (seg_ok e) (segments e);
  po_apart : segs_apart (segments e)
}.

Definition in_segment (a : Z) (ph : Elf64ProgramHeader) : bool :=
  (ph_virt_addr ph <=? a) && (a <? ph_virt_addr ph + ph_mem_size ph).

Lemma entry_run e ph : seg_ok e ph -> entry_in_segment (header e) ph = Ok (in_segment (entry_point (header e)) ph).
Proof.
  intros [H1 H2 H3 H4 H5]. unfold entry_in_segment, in_segment, uadd. unfold PAGE_SIZE in *.
  destruct (Z.ltb_spec (entry_point (header e)) (ph_virt_addr ph)), (Z.leb_spec (ph_virt_addr ph) (entry_point (header e))); try lia; [done|].
  destruct (Z.ltb_spec (ph_virt_addr ph + ph_mem_size ph) (2 ^ 64)); [done|lia].
Qed.

Lemma load_cost_pages e phs : Forall (seg_ok e) phs -> 0 <= load_pages phs <= load_cost phs.
Proof.
  induction 1 as [|ph phs Hp _ IH]; [done|]. unfold load_pages, load_cost, run_cost in *. cbn [foldr].
  pose proof (seg_len_bound e ph Hp). pose proof (tables_for_nonneg (seg_len ph) ltac:(lia)). lia.
Qed.

(** ** Filling a run *)

(** The bytes of a run after it was cleared and [data] copied to [v]. *)
Definition fill_byte (v : Z) (data : list Z) (j : Z) : Z :=
  if (v <=? j) && (j <? v + Z.of_nat (length data)) then nth (Z.to_nat (j - v)) data 0 else 0.

Lemma run_offset k n a : page_of a ∈ run_set k n <-> k * PAGE_SIZE <= a < k * PAGE_SIZE + PAGE_SIZE * n.
Proof. rewrite elem_run_set. unfold page_of, PAGE_SIZE. split; intros; Z.div_mod_to_equations; lia. Qed.

(** ** Enough frames *)

Definition weight (rs : runs) : Z := foldr (fun r n => snd r + n) 0 rs.

Lemma weight_cons r rs : weight (r :: rs) = snd r + weight rs.
Proof. done. Qed.

Lemma weight_app rs rs' : weight (rs ++ rs') = weight rs + weight rs'.
Proof. induction rs as [|r rs IH]; [done|]. cbn [app]. rewrite !weight_cons, IH. lia. Qed.

Lemma weight_nonneg rs : runs_ok rs -> 0 <= weight rs.
Proof. induction rs as [|r rs IH]; [done|]. intros (? & _ & ?%IH). rewrite weight_cons. lia. Qed.

Lemma runs_set_size rs : runs_ok rs -> Z.of_nat (size (runs_set rs)) = weight rs.
Proof.
  induction rs as [|r rs IH]; [done|]. intros (H1 & H2 & H3). rewrite runs_set_cons, size_union by done.
  pose proof (run_set_size (fst r) (snd r) ltac:(lia)). rewrite weight_cons, Nat2Z.inj_add, IH by done. lia.
Qed.

(** The frames and tables of runs. *)
Definition cost (rs : runs) : Z := foldr (fun r n => run_cost (snd r) + n) 0 rs.

Lemma cost_app rs rs' : cost (rs ++ rs') = cost rs + cost rs'.
Proof. induction rs as [|r rs IH]; [done|]. unfold cost in *. cbn [app foldr]. rewrite IH. lia. Qed.

(** When some [t] frames are taken, no run of some length up to [w] is left. *)
Definition scarce (m : Machine) (t w : Z) : Prop :=
  exists (A : gset Z) n, A ⊆ machine_free m /\ Z.of_nat (size A) <= t /\ 1 <= n <= w
    /\ forall k, ~ run_set k n ⊆ machine_free m ∖ A.

Lemma size_set_map_le (f : Z -> Z) (A : gset Z) : (size (set_map (D := gset Z) f A) <= size A)%nat.
Proof.
  induction A as [|a A Ha IH] using set_ind_L; [by rewrite set_map_empty|].
  rewrite set_map_union_L, set_map_singleton_L, (size_union {[a]} A), size_singleton by set_solver.
  rewrite size_union_alt, size_singleton. pose proof (subseteq_size (set_map (D := gset Z) f A ∖ {[f a]}) (set_map f A) ltac:(set_solver)). lia.
Qed.

(** A free region of [t + 1] blocks of [w] frames is enough: one of them is untouched. *)
Lemma roomy_not_scarce m t w lo :
  0 <= t -> 0 < w -> run_set lo ((t + 1) * w) ⊆ machine_free m -> ~ scarce m t w.
Proof.
  intros Ht Hw Hroom (A & n & HA & Hs & Hn & Hno).
  set (B := set_map (D := gset Z) (fun a => (a - lo) / w) A : gset Z).
  assert (Z.of_nat (size B) <= t) as HB.
  { assert (size B <= size A)%nat by apply size_set_map_le. lia. }
  destruct (decide (run_set 0 (t + 1) ⊆ B)) as [Hsub|Hnot].
  { apply subseteq_size in Hsub. pose proof (run_set_size 0 (t + 1) ltac:(lia)). lia. }
  assert (exists j, j ∈ run_set 0 (t + 1) /\ ~ (j ∈ B)) as (j & Hj & HjB).
  { destruct (set_choose_L (run_set 0 (t + 1) ∖ B)) as [j Hj].
    - intros E. apply Hnot. intros x Hx. destruct (decide (x ∈ B)) as [|HxB]; [done|]. exfalso.
      assert (x ∈ run_set 0 (t + 1) ∖ B) as Hxb by (by apply elem_of_difference). by rewrite E in Hxb.
    - exists j. by apply elem_of_difference in Hj. }
  apply elem_run_set in Hj. apply (Hno (lo + j * w)). intros q Hq%elem_run_set. apply elem_of_difference. split.
  - apply Hroom, elem_run_set. nia.
  - intros HqA. apply HjB. unfold B. apply elem_of_map. exists q. split; [|done].
    apply Z.div_unique with (q - (lo + j * w)); lia.
Qed.

(** The frames of a task with the tables [ks] besides its root. *)
Definition spent (ks : list Z) (rs : runs) : Z := 1 + Z.of_nat (length ks) + weight rs.

Lemma spent_snoc ks ks' rs k n :
  spent ks rs <= 1 + cost rs -> Z.of_nat (length ks') <= tables_for n -> spent (ks ++ ks') (rs ++ [(k, n)]) <= 1 + cost (rs ++ [(k, n)]).
Proof. unfold spent. rewrite length_app, weight_app, cost_app. cbn. unfold run_cost. lia. Qed.

(** ** Mapped bytes *)

(** A user page that holds a byte: mapped to one of the frames [R]. *)
Definition img (m : Machine) (ov : overlay) (R : gset Z) (va b : Z) : Prop :=
  exists page, ov !! page_of va = Some (Mapped page Write WriteThrough false)
    /\ page_of (page + va mod PAGE_SIZE) ∈ R /\ phys m (page + va mod PAGE_SIZE) = b.

Lemma img_kept m m' ov ov' R R' va b :
  img m ov R va b -> same_bytes R m m' -> R ⊆ R' -> ov' !! page_of va = ov !! page_of va -> img m' ov' R' va b.
Proof. intros (page & H1 & H2 & H3) Hs HR Hov. exists page. rewrite Hov. split_and!; [done|set_solver|]. by rewrite Hs. Qed.

(** The pages of a run mapped from [start] on hold the bytes of the run. *)
Lemma mapped_img m ov k n start va :
  page_aligned start -> start <= va < start + PAGE_SIZE * n -> 0 <= k ->
  let op := OpMap start (start + PAGE_SIZE * n) (k * PAGE_SIZE) Write WriteThrough false in
  img m (overlay_write op (op_pages op) ov) (run_set k n) va (phys m (k * PAGE_SIZE + (va - start))).
Proof.
  intros Hs Hva Hk op. unfold page_aligned, PAGE_SIZE in *.
  assert (page_aligned start /\ page_aligned (start + 4096 * n)) as [Hs1 He1] by (unfold page_aligned, PAGE_SIZE; Z.div_mod_to_equations; lia).
  exists (k * 4096 + (page_base va - start)).
  assert (k * 4096 + (page_base va - start) + va mod 4096 = k * 4096 + (va - start)) as E.
  { unfold page_base, page_of, PAGE_SIZE. Z.div_mod_to_equations. lia. }
  unfold PAGE_SIZE. rewrite E. split; [|split; [|done]].
  - rewrite overlay_write_lookup by (cbn [op_pages op]; apply Forall_pages; [done|done|by intros]).
    rewrite decide_True; [done|]. apply elem_of_step_by_page; [done|done|]. unfold page_base, page_of, page_aligned, PAGE_SIZE.
    Z.div_mod_to_equations. lia.
  - apply run_offset. unfold PAGE_SIZE. lia.
Qed.

(** Other pages keep their slots. *)
Lemma mapped_other ov k start end_ p :
  page_aligned start -> page_aligned end_ ->
  let op := OpMap start end_ (k * PAGE_SIZE) Write WriteThrough false in
  ~ (start / PAGE_SIZE <= p < end_ / PAGE_SIZE) -> overlay_write op (op_pages op) ov !! p = ov !! p.
Proof.
  intros Hs He op Hp. assert (p = page_of (p * PAGE_SIZE)) as E by (unfold page_of; by rewrite Z.div_mul).
  rewrite E at 1. rewrite overlay_write_lookup by (cbn [op_pages op]; apply Forall_pages; [done|done|by intros]).
  rewrite decide_False; [by rewrite <- E|]. cbn [op_pages op]. rewrite elem_of_step_by_page by done. intros [Hr _]. apply Hp.
  unfold page_base, page_of, page_aligned, PAGE_SIZE in *. rewrite Z.div_mul in Hr by done. Z.div_mod_to_equations. lia.
Qed.

(** Pages in a row share their tables unless a boundary of 512 pages lies between them. *)
Lemma same_tables va : page_aligned va -> (va / PAGE_SIZE + 1) mod 512 <> 0 -> table_path (va + PAGE_SIZE) = table_path va.
Proof.
  intros Ha Hm. unfold table_path, pml4_entry_index, pml3_entry_index, pml2_entry_index. rewrite !index_div by lia.
  unfold page_aligned, PAGE_SIZE in *. assert ((va + 4096) / 2 ^ 21 = va / 2 ^ 21) as E by (Z.div_mod_to_equations; lia).
  assert (forall x k, 0 <= k -> x / 2 ^ (21 + k) = x / 2 ^ 21 / 2 ^ k) as Hd by (intros x k Hk; rewrite Z.pow_add_r, Z.div_div by lia; done).
  change 39 with (21 + 18). change 30 with (21 + 9). rewrite !Hd by lia. by rewrite E.
Qed.

Lemma common_len_refl l : common_len l l = Z.of_nat (length l).
Proof. induction l as [|i l IH]; [done|]. cbn [common_len length]. rewrite Z.eqb_refl, IH. lia. Qed.

Lemma tables_row n : forall va, page_aligned va ->
  tables_needed (table_path va) ((fun k => va + (k + 1) * PAGE_SIZE) <$> seqZ 0 (Z.of_nat n))
  <= 3 * ((va / PAGE_SIZE + Z.of_nat n) / 512 - va / PAGE_SIZE / 512).
Proof.
  induction n as [|n IH]; intros va Ha; [change (Z.of_nat 0) with 0; rewrite Z.add_0_r, Z.sub_diag; done|]. rewrite Nat2Z.inj_succ, seqZ_cons, Z.pred_succ by lia. cbn [fmap list_fmap tables_needed].
  replace (va + (0 + 1) * PAGE_SIZE) with (va + PAGE_SIZE) by lia.
  assert (page_aligned (va + PAGE_SIZE)) as Ha' by (unfold page_aligned, PAGE_SIZE in *; Z.div_mod_to_equations; lia).
  assert ((va + PAGE_SIZE) / PAGE_SIZE = va / PAGE_SIZE + 1) as E by (unfold PAGE_SIZE; Z.div_mod_to_equations; lia).
  specialize (IH _ Ha'). rewrite E in IH.
  replace ((fun k => va + (k + 1) * PAGE_SIZE) <$> seqZ (Z.succ 0) (Z.of_nat n))
    with ((fun k => va + PAGE_SIZE + (k + 1) * PAGE_SIZE) <$> seqZ 0 (Z.of_nat n)).
  2: { change (Z.succ 0) with (1 + 0). rewrite <- fmap_add_seqZ, <- list_fmap_compose. apply list_fmap_ext. intros ? k _. cbn. lia. }
  assert (3 - common_len (table_path va) (table_path (va + PAGE_SIZE)) <= 3 * ((va / PAGE_SIZE + 1) / 512 - va / PAGE_SIZE / 512)) as Hstep.
  { destruct (decide ((va / PAGE_SIZE + 1) mod 512 = 0)) as [H0|H0].
    - pose proof (common_len_bound (table_path va) (table_path (va + PAGE_SIZE))). Z.div_mod_to_equations. lia.
    - rewrite same_tables, common_len_refl by done. cbn [length table_path]. Z.div_mod_to_equations. lia. }
  replace (va / PAGE_SIZE + Z.succ (Z.of_nat n)) with (va / PAGE_SIZE + 1 + Z.of_nat n) by lia. lia.
Qed.

Lemma op_tables_bound start n phys_addr : page_aligned start -> 
  0 <= n -> op_tables (OpMap start (start + PAGE_SIZE * n) phys_addr Write WriteThrough false) <= tables_for n.
Proof.
  intros Ha Hn. cbn [op_tables op_pages]. unfold step_by_page, PAGE_SIZE.
  replace ((start + 4096 * n - start + 4096 - 1) / 4096) with n by (Z.div_mod_to_equations; lia).
  destruct (decide (n = 0)) as [->|Hn0]; [by rewrite seqZ_nil by lia|].
  rewrite seqZ_cons by lia. cbn [fmap list_fmap tables_needed common_len]. replace (start + 0 * 4096) with start by lia.
  pose proof (tables_row (Z.to_nat (n - 1)) start Ha) as Hrow. rewrite Z2Nat.id in Hrow by lia. unfold PAGE_SIZE in Hrow.
  replace ((fun k => start + k * 4096) <$> seqZ (Z.succ 0) (Z.pred n)) with ((fun k => start + (k + 1) * 4096) <$> seqZ 0 (n - 1)).
  2: { change (Z.succ 0) with (1 + 0). rewrite <- Z.sub_1_r, <- fmap_add_seqZ, <- list_fmap_compose. apply list_fmap_ext. intros ? k _. cbn. lia. }
  unfold tables_for. Z.div_mod_to_equations. lia.
Qed.

(** Not enough frames: after [n] frames are taken, too few are left for tables. *)
Definition lacks_tables (m : Machine) (n : Z) : Prop :=
  exists k, run_set k n ⊆ machine_free m /\ Z.of_nat (size (machine_free m ∖ run_set k n)) < tables_for n.

Lemma holding_err {A} frames (c : SR Build A) st e st' :
  c st = (Err e, st') -> holding frames c st = (let? _ := drop_all frames in Err e, st').
Proof. intros Hc. unfold holding. by rewrite Hc. Qed.

Lemma seg_page_in ph i : 1 <= ph_mem_size ph -> 0 <= i < ph_mem_size ph -> page_of (ph_virt_addr ph + i) ∈ seg_pages ph.
Proof.
  intros Hm Hi. unfold seg_pages. apply elem_run_set. unfold page_of, seg_first, seg_len, PAGE_SIZE. Z.div_mod_to_equations. lia.
Qed.

(** Frames taken from those that are free. *)
Lemma taken_more (F fr own own' R : gset Z) :
  own ⊆ own' -> own' ⊆ fr -> fr ∖ own = F ∖ (own ∪ R) -> own ∪ R ⊆ F -> own' ∪ R ⊆ F /\ fr ∖ own' = F ∖ (own' ∪ R).
Proof.
  intros H1 H2 H3 H4. assert (forall q, q ∈ fr /\ ~ (q ∈ own) <-> q ∈ F /\ ~ (q ∈ own) /\ ~ (q ∈ R)) as Hq.
  { intros q. rewrite set_eq in H3. specialize (H3 q). set_solver. }
  clear H3. split.
  - intros q Hin. specialize (Hq q). destruct (decide (q ∈ own)); set_solver.
  - apply set_eq. intros q. specialize (Hq q). destruct (decide (q ∈ own)); set_solver.
Qed.

(** ** The state of the loader *)

Section Load.
Context (s0 : @PagingState Machine) (X Y : gset Z).
Hypothesis K : kernel_ok s0 X Y.
Implicit Types (st : Build) (rs : runs).
Let kroot := KERNEL_PML4_PHYS s0.

(** The frames of the task: its tables and the runs [rs]. *)
Definition task_frames (kr : Z) (ks : list Z) (rs : runs) : gset Z := own_set (kr * PAGE_SIZE) ks ∪ runs_set rs.

Record linv (kr : Z) (ks : list Z) (rs : runs) (ov : overlay) st : Prop := {
  li_table : fst st = user_table kr ks;
  li_kernel : KERNEL_PML4_PHYS (snd st) = kroot;
  li_cr3 : cr3 (snd st) = cr3 s0;
  li_runs : runs_ok rs;
  li_space : exists mi fr, same_on Y (machine s0) mi
    /\ space_inv mi fr kroot (runs_set rs ∪ X) Y kr ks ov (machine (snd st));
  li_fresh : runs_set rs ## X;
  li_same : same_bytes X (machine s0) (machine (snd st));
  li_free : task_frames kr ks rs ⊆ machine_free (machine s0)
    /\ machine_free (machine (snd st)) = machine_free (machine s0) ∖ task_frames kr ks rs
}.

Lemma kernel_sub : Y ⊆ X.
Proof. apply K. Qed.

Lemma ref_tree mi : same_on Y (machine s0) mi -> tree mi kroot Y.
Proof. intros Hs. by apply (same_on_tree (machine s0) mi _ Y); [apply K|..]. Qed.

Lemma li_owns kr ks rs ov st :
  linv kr ks rs ov st -> machine_owns (machine (snd st)) (own_set (kr * PAGE_SIZE) ks ∪ (runs_set rs ∪ X)).
Proof using. intros L. destruct (li_space _ _ _ _ _ L) as (mi & fr & _ & I). apply (si_owns _ _ _ _ _ _ _ _ _ I). Qed.

Lemma li_own_fresh kr ks rs ov st :
  linv kr ks rs ov st -> own_set (kr * PAGE_SIZE) ks ## runs_set rs ∪ X.
Proof using. intros L. destruct (li_space _ _ _ _ _ L) as (mi & fr & _ & I). apply (si_fresh _ _ _ _ _ _ _ _ _ I). Qed.

Definition with_machine (m : Machine) st : Build := (fst st, MkPaging m (KERNEL_PML4_PHYS (snd st)) (cr3 (snd st))).

(** A new run of frames. *)
Lemma take_run kr ks rs ov st n :
  linv kr ks rs ov st -> 1 <= n < 2 ^ 64 ->
  match on_machine (alloc_multi_mem_frame n) st with
  | (Ok f, st') => exists k, f = frame_at k n /\ 1 <= k /\ k + n <= 2 ^ 27 /\ linv kr ks (rs ++ [(k, n)]) ov st'
      /\ same_bytes (runs_set rs ∪ X) (machine (snd st)) (machine (snd st'))
      /\ run_set k n ## runs_set rs ∪ X
  | (Err e, st') => st' = st /\ e = not_found /\ forall k, ~ run_set k n ⊆ machine_free (machine (snd st))
  | (Panic, _) => False
  end.
Proof using K.
  intros L Hn. pose proof (machine_alloc_run _ _ n (li_owns _ _ _ _ _ L) Hn) as Ha. unfold on_machine, on_kernel.
  destruct (alloc_multi_mem_frame n (machine (snd st))) as [[f|e|] m']; [| |done].
  2: { destruct Ha as (-> & -> & Hno). split; [|done]. destruct st as [u [m a b]]. done. }
  destruct Ha as (k & HX & K1 & K2 & -> & O' & [Hsub Hfree] & Hb). exists k. split; [done|]. split; [done|]. split; [done|].
  destruct L as [L1 L2 L3 L4 (mi & fr & Hmi & I) L6 L7 [L8 L9]]. cbn [fst snd machine KERNEL_PML4_PHYS cr3].
  assert (own_set (kr * PAGE_SIZE) ks ## runs_set rs ∪ X) as Hown by apply (si_fresh _ _ _ _ _ _ _ _ _ I).
  split; [split|].
  - done.
  - done.
  - done.
  - apply runs_ok_snoc; [done|cbn; lia|cbn; set_solver].
  - exists m', (own_set (kr * PAGE_SIZE) ks ∪ free_set m'). split.
    + eapply same_on_trans; [exact Hmi|]. eapply same_on_trans; [eapply same_on_sub; [apply I|pose proof kernel_sub; set_solver]|].
      apply same_bytes_words. intros a Ha'. apply Hb. pose proof kernel_sub. set_solver.
    + apply (space_rebase mi fr kroot (runs_set rs ∪ X) Y kr ks ov (machine (snd st)));
        [pose proof kernel_sub; set_solver|by apply ref_tree|done| | |].
      * rewrite runs_set_app, runs_set_one. cbn. set_solver.
      * rewrite runs_set_app, runs_set_one. cbn. cbn [owns machine_laws].
        replace (own_set (kr * PAGE_SIZE) ks ∪ (runs_set rs ∪ run_set k n ∪ X))
          with (run_set k n ∪ (own_set (kr * PAGE_SIZE) ks ∪ (runs_set rs ∪ X))) by (apply set_eq; set_solver). done.
      * apply same_bytes_words. intros a Ha'. apply Hb. pose proof kernel_sub. set_solver.
  - rewrite runs_set_app, runs_set_one. cbn. set_solver.
  - eapply same_bytes_trans; [exact L7|]. intros a Ha'. apply Hb. set_solver.
  - unfold task_frames in *. rewrite runs_set_app, runs_set_one. cbn. rewrite Hfree, L9. rewrite L9 in Hsub.
    split; [set_solver|]. apply set_eq. set_solver.
  - split; [|set_solver]. intros a Ha'. apply Hb. set_solver.
Qed.

(** Writes to frames of the runs. *)
Lemma edit_runs kr ks rs ov st m' :
  linv kr ks rs ov st -> bmm m' = bmm (machine (snd st)) -> bytes_ok m' ->
  (forall a, ~ (page_of a ∈ runs_set rs) -> phys m' a = phys (machine (snd st)) a) ->
  linv kr ks rs ov (with_machine m' st).
Proof using K.
  intros L Hm Hb Hp. destruct (machine_edit _ _ m' (li_owns _ _ _ _ _ L) Hm Hb) as [O' E'].
  { intros a Ha. apply Hp. set_solver. }
  pose proof (li_own_fresh _ _ _ _ _ L) as Hown.
  destruct L as [L1 L2 L3 L4 (mi & fr & Hmi & I) L6 L7 [L8 L9]]. split; cbn [with_machine fst snd machine KERNEL_PML4_PHYS cr3]; try done.
  - exists m', (own_set (kr * PAGE_SIZE) ks ∪ free_set m'). split.
    + eapply same_on_trans; [exact Hmi|]. eapply same_on_trans; [eapply same_on_sub; [apply I|pose proof kernel_sub; set_solver]|].
      apply same_bytes_words. intros a Ha'. apply Hp. pose proof kernel_sub. set_solver.
    + apply (space_rebase mi fr kroot (runs_set rs ∪ X) Y kr ks ov (machine (snd st)));
        [pose proof kernel_sub; set_solver|by apply ref_tree|done|done|done|].
      apply same_bytes_words. intros a Ha'. apply Hp. pose proof kernel_sub. set_solver.
  - intros a Ha. rewrite Hp by set_solver. by apply L7.
  - rewrite E'. done.
Qed.

(** Work on the table keeps the invariant. *)
Lemma linv_space kr ks rs ov st mi fr ks' ov' m1 :
  linv kr ks rs ov st -> same_on Y (machine s0) mi ->
  space_inv mi fr kroot (runs_set rs ∪ X) Y kr ks ov (machine (snd st)) ->
  space_inv mi fr kroot (runs_set rs ∪ X) Y kr (ks ++ ks') ov' m1 ->
  linv kr (ks ++ ks') rs ov' (user_table kr (ks ++ ks'), MkPaging m1 (KERNEL_PML4_PHYS (snd st)) (cr3 (snd st)))
  /\ same_bytes (runs_set rs ∪ X) (machine (snd st)) m1.
Proof using. clear K.
  intros [L1 L2 L3 L4 _ L6 L7 [L8 L9]] Hmi I I'.
  assert (same_bytes (runs_set rs ∪ X) (machine (snd st)) m1) as Hb.
  { apply words_same_bytes; [apply (mo_bytes _ _ (si_owns _ _ _ _ _ _ _ _ _ I))|apply (mo_bytes _ _ (si_owns _ _ _ _ _ _ _ _ _ I'))|].
    intros b Hw Hx. rewrite (si_same _ _ _ _ _ _ _ _ _ I' b Hw Hx). by rewrite (si_same _ _ _ _ _ _ _ _ _ I b Hw Hx). }
  split; [|done]. split; cbn [fst snd machine KERNEL_PML4_PHYS cr3]; try done.
  - by exists mi, fr.
  - eapply same_bytes_trans; [exact L7|]. eapply same_bytes_sub; [exact Hb|set_solver].
  - destruct (si_free _ _ _ _ _ _ _ _ _ I) as [A1 A2], (si_free _ _ _ _ _ _ _ _ _ I') as [B1 B2].
    cbn [free_set machine_laws] in A2, B2.
    cbn [free_set machine_laws] in B2. unfold task_frames in *. rewrite B2.
    apply (taken_more _ fr (own_set (kr * PAGE_SIZE) ks)); [|done| |done].
    + rewrite own_set_app. set_solver.
    + by rewrite <- A2.
Qed.

(** A mapping. *)
Lemma map_run kr ks rs ov st start end_ phys_addr :
  let op := OpMap start end_ phys_addr Write WriteThrough false in
  linv kr ks rs ov st -> op_ok ov op ->
  match on_table (UserPageTable_map start end_ phys_addr Write WriteThrough false) st with
  | (Ok _, st') => exists ks', linv kr (ks ++ ks') rs (overlay_write op (op_pages op) ov) st'
      /\ Z.of_nat (length ks') <= op_tables op
      /\ same_bytes (runs_set rs ∪ X) (machine (snd st)) (machine (snd st'))
  | (Err e, st') => e = not_found /\ available (machine (snd st)) < op_tables op
      /\ exists ks' ov', linv kr (ks ++ ks') rs ov' st'
  | (Panic, _) => False
  end.
Proof using K.
  intros op L Hop. destruct (li_space _ _ _ _ _ L) as (mi & fr & Hmi & I). unfold on_table. rewrite (li_table _ _ _ _ _ L).
  assert (Y ⊆ runs_set rs ∪ X) as HYX by (pose proof kernel_sub; set_solver).
  pose proof (map_op_run mi fr kroot (runs_set rs ∪ X) Y kr HYX ks ov _ start end_ phys_addr Write WriteThrough false I Hop) as Hrun.
  fold op in Hrun. cbv zeta in Hrun. destruct (UserPageTable_map _ _ _ _ _ _ _) as [r [u m']].
  destruct Hrun as (ks' & m1 & [= -> ->] & Hr).
  pose proof (fun ov' => linv_space kr ks rs ov st mi fr ks' ov' m1 L Hmi I) as Hl.
  destruct r as [[]|e|]; [| |done].
  - destruct Hr as [Hlen I']. exists ks'. destruct (Hl _ I'). done.
  - destruct Hr as (-> & Hav & ps1 & ps2 & _ & I'). split; [done|]. split; [done|]. exists ks', (overlay_write op ps1 ov). by destruct (Hl _ I').
Qed.

(** Clearing a run and copying into the runs. *)
Lemma zero_run kr ks rs ov st k n :
  linv kr ks rs ov st -> run_set k n ⊆ runs_set rs ->
  exists m', on_machine (MemoryFrame_zero_out (frame_at k n)) st = (Ok tt, with_machine m' st)
    /\ linv kr ks rs ov (with_machine m' st)
    /\ forall a, phys m' a = if decide (page_of a ∈ run_set k n) then 0 else phys (machine (snd st)) a.
Proof using K.
  intros L Hsub. eexists. split; [reflexivity|].
  assert (forall a, (frame_start_phys_addr (frame_at k n) <=? a)
            && (a <? frame_start_phys_addr (frame_at k n) + frame_size (frame_at k n)) = bool_decide (page_of a ∈ run_set k n)) as Hin.
  { intros a. cbn [frame_at frame_start_phys_addr frame_size]. apply eq_true_iff_eq.
    rewrite andb_true_iff, Z.leb_le, Z.ltb_lt, bool_decide_eq_true, run_offset. lia. }
  assert (forall a, phys (MkMachine (bmm (machine (snd st))) (fun a => if (frame_start_phys_addr (frame_at k n) <=? a)
            && (a <? frame_start_phys_addr (frame_at k n) + frame_size (frame_at k n)) then 0 else phys (machine (snd st)) a)) a
          = if decide (page_of a ∈ run_set k n) then 0 else phys (machine (snd st)) a) as Hphys.
  { intros a. cbn [phys]. rewrite Hin. by destruct (decide (page_of a ∈ run_set k n)) as [H|H]; [rewrite bool_decide_true|rewrite bool_decide_false]. }
  split; [|exact Hphys]. apply edit_runs; [done|done| |].
  - intros a. rewrite Hphys. destruct (decide _); [lia|]. apply (mo_bytes _ _ (li_owns _ _ _ _ _ L)).
  - intros a Ha. rewrite Hphys, decide_False; [done|]. set_solver.
Qed.

Lemma copy_run kr ks rs ov st dst data :
  linv kr ks rs ov st -> bytes data ->
  (forall a, dst <= a < dst + Z.of_nat (length data) -> page_of a ∈ runs_set rs) ->
  exists m', on_machine (copy_to dst data) st = (Ok tt, with_machine m' st)
    /\ linv kr ks rs ov (with_machine m' st)
    /\ forall a, phys m' a = if (dst <=? a) && (a <? dst + Z.of_nat (length data)) then nth (Z.to_nat (a - dst)) data 0
                             else phys (machine (snd st)) a.
Proof using K.
  intros L Hb Hin. eexists. split; [reflexivity|]. split; [|done]. apply edit_runs; [done|done| |].
  - intros a. cbn [phys]. destruct (Z.leb_spec dst a), (Z.ltb_spec a (dst + Z.of_nat (length data))); cbn [andb];
      try apply (mo_bytes _ _ (li_owns _ _ _ _ _ L)).
    destruct (nth_in_or_default (Z.to_nat (a - dst)) data 0) as [Hi| ->]; [|lia].
    apply is_byte_range. rewrite Forall_forall in Hb. by apply Hb, list_elem_of_In.
  - intros a Ha. cbn [phys]. destruct (Z.leb_spec dst a), (Z.ltb_spec a (dst + Z.of_nat (length data))); cbn [andb]; try done.
    exfalso. apply Ha, Hin. lia.
Qed.

Lemma load_segment_run kr ks rs ov st e ph :
  linv kr ks rs ov st -> elf_ok e -> seg_ok e ph -> segment_type ph = Load ->
  let n := seg_len ph in
  match load_segment e ph st with
  | (Ok f, st') => exists k ks' ov', f = frame_at k n /\ linv kr (ks ++ ks') (rs ++ [(k, n)]) ov' st'
      /\ Z.of_nat (length ks') <= tables_for n
      /\ same_bytes (runs_set rs ∪ X) (machine (snd st)) (machine (snd st'))
      /\ (forall p, ~ (p ∈ seg_pages ph) -> ov' !! p = ov !! p)
      /\ (forall i, 0 <= i < ph_mem_size ph ->
           img (machine (snd st')) ov' (run_set k n) (ph_virt_addr ph + i) (seg_byte e ph i))
  | (Err err, st') => st' = st /\ err = not_found /\ forall k, ~ run_set k n ⊆ machine_free (machine (snd st))
  | (Panic, _) => lacks_tables (machine (snd st)) n
  end.
Proof using K.
  intros L He Hseg Hload n. destruct (seg_len_bound e ph Hseg) as (N1 & N2 & N3 & N4). fold n in N1, N2, N3, N4.
  unfold load_segment. unfold sbind at 1, slift at 1. rewrite (pages_needed_run e ph Hseg). fold n.
  unfold sbind at 1. pose proof (take_run kr ks rs ov st n L ltac:(lia)) as Ht.
  destruct (on_machine (alloc_multi_mem_frame n) st) as [[f|err|] st1]; [|done|done].
  destruct Ht as (k & -> & K1 & K2 & L1 & B1 & D1).
  assert (run_set k n ⊆ runs_set (rs ++ [(k, n)])) as Hsub by (rewrite runs_set_app, runs_set_one; cbn; set_solver).
  destruct (zero_run kr ks _ ov st1 k n L1 Hsub) as (m2 & R2 & L2 & P2).
  set (v := ph_virt_addr ph mod PAGE_SIZE).
  assert (0 <= v < PAGE_SIZE) as Hv by (by apply Z.mod_pos_bound).
  pose proof (seg_data_length e ph Hseg) as Hlen. pose proof (seg_file e ph Hseg) as Hfile.
  set (copy := match (if ph_file_size ph =? 0 then None else Some (seg_data e ph)) with
               | Some data => let! dst := slift (VirtualAddress_offset (frame_start_phys_addr (frame_at k n)) v) in
                              on_machine (copy_to dst data)
               | None => sret tt
               end).
  assert (exists m3, copy (with_machine m2 st1) = (Ok tt, with_machine m3 st1)
    /\ linv kr ks (rs ++ [(k, n)]) ov (with_machine m3 st1)
    /\ forall a, phys m3 a = if (k * PAGE_SIZE + v <=? a) && (a <? k * PAGE_SIZE + v + ph_file_size ph)
                             then nth (Z.to_nat (a - (k * PAGE_SIZE + v))) (seg_data e ph) 0 else phys m2 a) as (m3 & R3 & L3 & P3).
  { unfold copy. destruct (Z.eqb_spec (ph_file_size ph) 0) as [H0|H0].
    - exists m2. split; [done|]. split; [done|]. intros a. rewrite H0.
      destruct (Z.leb_spec (k * PAGE_SIZE + v) a), (Z.ltb_spec a (k * PAGE_SIZE + v + 0)); done || lia.
    - destruct (copy_run kr ks _ ov (with_machine m2 st1) (k * PAGE_SIZE + v) (seg_data e ph) L2) as (m3 & R3 & L3 & P3).
      { apply Forall_take, Forall_drop, He. }
      { intros a Ha. apply Hsub, run_offset. unfold n in *. lia. }
      rewrite Hlen in P3. exists m3. split; [|done]. unfold sbind, slift, VirtualAddress_offset, uadd. cbn [frame_at frame_start_phys_addr].
      unfold PAGE_SIZE in *. destruct (Z.ltb_spec (k * 4096 + v) (2 ^ 64)); [exact R3|lia]. }
  set (start := ph_virt_addr ph / PAGE_SIZE * PAGE_SIZE).
  pose proof (seg_high e ph Hseg) as Hhigh.
  assert (page_aligned start) as Hst by (unfold start, page_aligned; by apply Z.mod_mul).
  assert (page_aligned (start + PAGE_SIZE * n)) as Hen by (unfold page_aligned, PAGE_SIZE in *; Z.div_mod_to_equations; lia).
  set (op := OpMap start (start + PAGE_SIZE * n) (k * PAGE_SIZE) Write WriteThrough false).
  assert (op_ok ov op) as Hop.
  { split_and!; [done|done|by apply Z.mod_mul|right; unfold start, seg_first, PAGE_SIZE in *; Z.div_mod_to_equations; lia
      |unfold PAGE_SIZE; lia|unfold PAGE_SIZE; lia]. }
  pose proof (map_run kr ks _ ov (with_machine m3 st1) start (start + PAGE_SIZE * n) (k * PAGE_SIZE) L3 Hop) as Hmap. fold op in Hmap.
  unfold holding. unfold sbind at 1. rewrite R2. unfold sbind at 1, slift at 1. rewrite (seg_data_run e ph He Hseg Hload).
  fold v copy. unfold sbind at 1. rewrite R3. fold start. unfold sbind at 1, slift at 1.
  unfold VirtualAddress_offset, uadd. change (frame_size (frame_at k n)) with (PAGE_SIZE * n).
  destruct (Z.ltb_spec (start + PAGE_SIZE * n) (2 ^ 64)) as [_|Hbad]; [|unfold start, seg_first, PAGE_SIZE in *; Z.div_mod_to_equations; lia].
  unfold sbind at 1. change (frame_start_phys_addr (frame_at k n)) with (k * PAGE_SIZE).
  pose proof (op_tables_bound start n (k * PAGE_SIZE) Hst ltac:(lia)) as Hcost. fold op in Hcost.
  destruct (on_table _ (with_machine m3 st1)) as [[[]|err|] st4]; [| |done].
  2: { destruct Hmap as (-> & Hav & _). cbn [drop_all MemoryFrame_drop frame_at frame_deallocated obind].
       exists k. destruct (li_free _ _ _ _ _ L) as [_ E0], (li_free _ _ _ _ _ L1) as [S1 _], (li_free _ _ _ _ _ L3) as [_ E3].
       unfold task_frames in *. rewrite runs_set_app, runs_set_one in S1, E3. cbn [fst snd] in S1, E3.
       split.
       - rewrite E0. pose proof (li_own_fresh _ _ _ _ _ L1) as Hf. rewrite runs_set_app, runs_set_one in Hf. cbn [fst snd] in Hf.
         clear - S1 Hf D1. set_solver.
       - unfold available in Hav. cbn [free_set machine_laws] in Hav. rewrite E3 in Hav. rewrite E0.
         rewrite (difference_difference_l_L (machine_free (machine s0))), <- union_assoc_L. lia. }
  destruct Hmap as (ks' & L4 & Hks & B4).
  exists k, ks', (overlay_write op (op_pages op) ov). cbn [sret]. split; [done|]. split; [done|]. split; [lia|].
  assert (same_bytes (run_set k n) m3 (machine (snd st4))) as Hrun.
  { eapply same_bytes_sub; [exact B4|]. rewrite runs_set_app, runs_set_one. cbn. set_solver. }
  split_and!.
  - intros a Ha. rewrite B4 by (rewrite runs_set_app; set_solver). cbn [with_machine snd machine].
    assert (~ (page_of a ∈ run_set k n)) as Hn by set_solver.
    rewrite P3, P2, decide_False by done. rewrite B1 by done. rewrite run_offset in Hn. fold n in Hlen.
    destruct (Z.leb_spec (k * PAGE_SIZE + v) a), (Z.ltb_spec a (k * PAGE_SIZE + v + ph_file_size ph)); cbn [andb]; try done. exfalso. apply Hn. unfold n in *. lia.
  - intros p Hp. apply mapped_other; [done|done|]. unfold seg_pages in Hp. rewrite elem_run_set in Hp. fold n in Hp.
    unfold start, seg_first, PAGE_SIZE in *. intros Hpr. apply Hp. Z.div_mod_to_equations. lia.
  - intros i Hi. set (va := ph_virt_addr ph + i).
    assert (va - start = v + i) as Eva by (unfold va, start, v, PAGE_SIZE; Z.div_mod_to_equations; lia).
    assert (start <= va < start + PAGE_SIZE * n) as Hva by (unfold n in *; lia).
    pose proof (mapped_img (machine (snd st4)) ov k n start va Hst Hva ltac:(lia)) as Him. fold op in Him. cbv zeta in Him.
    assert (phys (machine (snd st4)) (k * PAGE_SIZE + (va - start)) = seg_byte e ph i) as Hb; [|by rewrite Hb in Him].
    rewrite Hrun by (apply run_offset; unfold n in *; lia). rewrite P3, Eva.
    replace (k * PAGE_SIZE + (v + i) - (k * PAGE_SIZE + v)) with i by lia.
    destruct (Z.leb_spec (k * PAGE_SIZE + v) (k * PAGE_SIZE + (v + i))); [|lia].
    destruct (Z.ltb_spec (k * PAGE_SIZE + (v + i)) (k * PAGE_SIZE + v + ph_file_size ph)); cbn [andb].
    + apply seg_data_nth; [lia|apply Hseg].
    + rewrite P2, decide_True by (apply run_offset; unfold n in *; lia). unfold seg_byte. destruct (Z.ltb_spec i (ph_file_size ph)); [lia|done].
Qed.

(** ** Running out of frames *)

Lemma task_frames_size kr ks rs ov st :
  linv kr ks rs ov st -> Z.of_nat (size (task_frames kr ks rs)) = spent ks rs.
Proof using. clear K.
  intros L. destruct (li_space _ _ _ _ _ L) as (mi & fr & _ & I). unfold task_frames, spent.
  rewrite size_union by (pose proof (li_own_fresh _ _ _ _ _ L); set_solver).
  rewrite (own_size _ _ _ _ _ _ _ _ _ I), Nat2Z.inj_add, runs_set_size by apply L. lia.
Qed.

Lemma alloc_scarce kr ks rs ov st n t w :
  linv kr ks rs ov st -> (forall k, ~ run_set k n ⊆ machine_free (machine (snd st))) ->
  1 <= n <= w -> spent ks rs <= t -> scarce (machine s0) t w.
Proof using. clear K.
  intros L Hno Hn Ht. pose proof (task_frames_size _ _ _ _ _ L) as Hs.
  destruct (li_free _ _ _ _ _ L) as [Hsub E]. exists (task_frames kr ks rs), n.
  split; [done|]. split; [lia|]. split; [done|]. by rewrite <- E.
Qed.

(** Fewer than [l] frames are left. *)
Lemma left_scarce kr ks rs ov st l t w :
  linv kr ks rs ov st -> Z.of_nat (size (machine_free (machine (snd st)))) < l -> spent ks rs + l <= t -> 1 <= w -> scarce (machine s0) t w.
Proof using. clear K.
  intros L Hw Ht H1. pose proof (task_frames_size _ _ _ _ _ L) as Hs.
  destruct (li_free _ _ _ _ _ L) as [Hsub E]. exists (machine_free (machine s0)), 1. split; [done|]. split; [|split; [lia|]].
  - rewrite (union_difference_L _ _ Hsub), size_union by set_solver. rewrite <- E. lia.
  - intros k Hk. rewrite difference_diag_L in Hk. specialize (Hk k). rewrite elem_run_set in Hk. set_solver by lia.
Qed.

Lemma lacks_scarce kr ks rs ov st n t w :
  linv kr ks rs ov st -> 1 <= n <= w -> lacks_tables (machine (snd st)) n -> spent ks rs + run_cost n <= t -> scarce (machine s0) t w.
Proof using. clear K.
  intros L Hn (k & Hsub & Hlt) Ht. unfold run_cost in Ht. apply (left_scarce kr ks rs ov st (n + tables_for n) t w L); [|lia|lia].
  rewrite (union_difference_L _ _ Hsub), size_union by set_solver. pose proof (run_set_size k n ltac:(lia)). lia.
Qed.

(** ** All segments *)

(** What the segments [phs], loaded into the runs [rs], add to a state. *)
Record loaded (e : Elf64) (phs : list Elf64ProgramHeader) rs (st : Build) (ov : overlay) rs' (st' : Build) (ov' : overlay) : Prop := {
  ld_lens : snd <$> rs' = seg_len <$> phs;
  ld_same : same_bytes (runs_set rs ∪ X) (machine (snd st)) (machine (snd st'));
  ld_other : forall p, Forall (fun ph => ~ (p ∈ seg_pages ph)) phs -> ov' !! p = ov !! p;
  ld_image : forall ph i, ph ∈ phs -> 0 <= i < ph_mem_size ph ->
    img (machine (snd st')) ov' (runs_set rs') (ph_virt_addr ph + i) (seg_byte e ph i)
}.

Lemma loaded_cons e ph phs rs st ov r st1 ov1 rs' st' ov' :
  seg_ok e ph -> snd r = seg_len ph ->
  Forall (fun ph' => seg_pages ph ## seg_pages ph') phs ->
  same_bytes (runs_set rs ∪ X) (machine (snd st)) (machine (snd st1)) ->
  (forall p, ~ (p ∈ seg_pages ph) -> ov1 !! p = ov !! p) ->
  (forall i, 0 <= i < ph_mem_size ph ->
     img (machine (snd st1)) ov1 (run_set (fst r) (snd r)) (ph_virt_addr ph + i) (seg_byte e ph i)) ->
  loaded e phs (rs ++ [r]) st1 ov1 rs' st' ov' -> loaded e (ph :: phs) rs st ov (r :: rs') st' ov'.
Proof using. clear K.
  intros Hseg Hr Hap Hb Hov Him [D1 D2 D3 D4]. split.
  - cbn. by rewrite Hr, D1.
  - eapply same_bytes_trans; [exact Hb|]. eapply same_bytes_sub; [exact D2|]. rewrite runs_set_app. set_solver.
  - intros p [Hp Hps]%Forall_cons. by rewrite D3, Hov.
  - intros ph' i Hin Hi. rewrite runs_set_cons. apply elem_of_cons in Hin as [->|Hin].
    + eapply img_kept; [by apply Him| | |].
      * eapply same_bytes_sub; [exact D2|]. rewrite runs_set_app, runs_set_one. set_solver.
      * set_solver.
      * apply D3. eapply Forall_impl; [exact Hap|]. cbn. intros q Hd Hq.
        pose proof (seg_page_in ph i (seg_mem e ph Hseg) Hi). set_solver.
    + eapply img_kept; [by apply D4|by intros ??|set_solver|done].
Qed.

Lemma load_segments_run e phs : forall kr ks rs ov st fs entry t w,
  linv kr ks rs ov st -> elf_ok e -> Forall (seg_ok e) (loadable phs) -> segs_apart (loadable phs) ->
  Forall (fun f => frame_deallocated f = false) fs ->
  spent ks rs <= 1 + cost rs -> 1 + cost rs + load_cost (loadable phs) <= t -> load_pages (loadable phs) <= w ->
  match load_segments e phs fs entry st with
  | (Ok (fs', entry'), st') => exists ks' rs' ov', fs' = fs ++ run_frames rs' /\ linv kr (ks ++ ks') (rs ++ rs') ov' st'
      /\ spent (ks ++ ks') (rs ++ rs') <= 1 + cost (rs ++ rs')
      /\ loaded e (loadable phs) rs st ov rs' st' ov'
      /\ entry' = if existsb (in_segment (entry_point (header e))) (loadable phs) then Some (entry_point (header e)) else entry
  | (Err err, st') => fs = [] /\ err = not_found /\ st' = st /\ scarce (machine s0) t w
  | (Panic, _) => scarce (machine s0) t w
  end.
Proof using K.
  induction phs as [|ph phs IH]; intros kr ks rs ov st fs entry t w L He Hseg Hap Hfs Hcost Ht Hw.
  { cbn [load_segments sret]. exists [], [], ov. rewrite !app_nil_r. split_and!; try done. split; try done; set_solver. }
  cbn [load_segments]. unfold loadable in *. rewrite filter_cons in Hseg, Hap, Ht, Hw |- *.
  case_decide as Hload; [|by rewrite bool_decide_false by done; apply IH].
  rewrite bool_decide_true by done. cbn [negb]. fold (loadable phs) in *. apply Forall_cons in Hseg as [Hph Hseg]. destruct Hap as [Hap1 Hap].
  pose proof (seg_len_bound e ph Hph) as (N1 & _). pose proof (load_cost_pages e _ Hseg) as N2. unfold load_cost in Ht. unfold load_pages in Hw.
  cbn [foldr] in Ht, Hw. fold (load_cost (loadable phs)) in Ht. fold (load_pages (loadable phs)) in Hw.
  assert (1 <= seg_len ph <= w) as Hlen by lia. pose proof (tables_for_nonneg (seg_len ph) ltac:(lia)) as N3.
  unfold sbind at 1, holding. pose proof (load_segment_run kr ks rs ov st e ph L He Hph Hload) as Hrun. cbv zeta in Hrun.
  destruct (load_segment e ph st) as [[f|err|] st1].
  3: { apply (lacks_scarce kr ks rs ov st _ t w L Hlen Hrun). lia. }
  2: { destruct Hrun as (-> & -> & Hno). pose proof (alloc_scarce kr ks rs ov st _ t w L Hno Hlen ltac:(unfold run_cost in Ht; lia)) as Hsc.
       destruct fs as [|f fs]; [done|]. apply Forall_cons in Hfs as [Hf _]. cbn [drop_all]. unfold MemoryFrame_drop. by rewrite Hf. }
  destruct Hrun as (k & ks1 & ov1 & -> & L1 & Hks & B1 & O1 & I1). unfold sbind at 1, slift. rewrite (entry_run e ph Hph).
  assert (Forall (fun f => frame_deallocated f = false) (fs ++ [frame_at k (seg_len ph)])) as Hfs1
    by (apply Forall_app; split; [done|by apply Forall_singleton]).
  assert (spent (ks ++ ks1) (rs ++ [(k, seg_len ph)]) <= 1 + cost (rs ++ [(k, seg_len ph)])) as Hc1 by (by apply spent_snoc).
  assert (1 + cost (rs ++ [(k, seg_len ph)]) + load_cost (loadable phs) <= t) as Ht1 by (rewrite cost_app; cbn; lia).
  specialize (IH kr (ks ++ ks1) (rs ++ [(k, seg_len ph)]) ov1 st1 (fs ++ [frame_at k (seg_len ph)])
    (if in_segment (entry_point (header e)) ph then Some (entry_point (header e)) else entry) t w L1 He Hseg Hap Hfs1 Hc1 Ht1 ltac:(lia)).
  destruct (load_segments _ _ _ _ st1) as [[[fs' entry']|err|] st'].
  - destruct IH as (ks' & rs' & ov' & -> & L' & C' & D' & ->).
    exists (ks1 ++ ks'), ((k, seg_len ph) :: rs'), ov'. rewrite <- (app_assoc ks), <- (app_assoc rs) in L', C'. rewrite <- (app_assoc fs). cbn [app] in L', C'.
    split; [done|]. split; [done|]. split; [done|]. split.
    + by apply (loaded_cons e ph (loadable phs) rs st ov (k, seg_len ph) st1 ov1).
    + cbn [existsb]. destruct (in_segment _ ph); cbn [orb]; [|done]. by destruct (existsb _ _).
  - exfalso. destruct IH as (Habs & _).
    by destruct fs.
  - done.
Qed.

Lemma load_elf_run kr ov st e t w :
  linv kr [] [] ov st -> program_ok e -> 1 + load_cost (segments e) <= t -> load_pages (segments e) <= w ->
  match load_elf (Some e) st with
  | (Ok (fs, entry), st') => exists ks rs ov', fs = run_frames rs /\ linv kr ks rs ov' st'
      /\ spent ks rs <= 1 + cost rs
      /\ loaded e (segments e) [] st ov rs st' ov'
      /\ entry = if existsb (in_segment (entry_point (header e))) (segments e) then Some (entry_point (header e)) else None
  | (Err err, st') => err = not_found /\ st' = st /\ scarce (machine s0) t w
  | (Panic, _) => scarce (machine s0) t w
  end.
Proof using K.
  intros L [P1 P2 P3 P4 P5 P6] Ht Hw. unfold load_elf. rewrite !bool_decide_true by done. cbn [negb].
  unfold sbind, slift, segments in *. destruct (program_headers e) as [phs|?|]; [|done|done].
  pose proof (load_segments_run e phs kr [] [] ov st [] None t w L P1 P5 P6 (Forall_nil_2 _) ltac:(done) ltac:(cbn [cost foldr]; lia) Hw) as Hrun.
  destruct (load_segments e phs [] None st) as [[[fs entry]|err|] st']; [done|by destruct Hrun as (_ & ?)|done].
Qed.

End Load.
