(* ===== verification/LoaderTask.v ===== *)
(** * The address space of a loaded task

    Stack, arguments and registers of the task that [Task_image] prepares, the
    outcome of the whole construction, and what giving its frames back restores. *)
From Stdlib Require Import ZArith Lia.
From stdpp Require Import base gmap sets list strings.
From S2P Require Import Prelude Utf8 Path KError Elf Bitmap Vfs Scheduler Paging.
From S2P Require Import PagingTree PagingMap PagingRange PagingSpace PagingTask PagingBitmap Loader LoaderSpec.

#[local] Open Scope string_scope.
#[local] Open Scope list_scope.
#[local] Open Scope Z_scope.

(** A run of frames mapped at its own address. *)
Definition identity_op (k n : Z) : SpaceOp :=
  OpMap (k * PAGE_SIZE) (k * PAGE_SIZE + PAGE_SIZE * n) (k * PAGE_SIZE) Write WriteThrough false.

Definition identity (ov : overlay) (R : gset Z) : Prop :=
  forall p, p ∈ R -> ov !! p = Some (Mapped (p * PAGE_SIZE) Write WriteThrough false).

Lemma identity_aligned k n : page_aligned (k * PAGE_SIZE) /\ page_aligned (k * PAGE_SIZE + PAGE_SIZE * n).
Proof. unfold page_aligned, PAGE_SIZE. Z.div_mod_to_equations. lia. Qed.

Lemma identity_ok ov k n : 1 <= k -> 1 <= n -> k + n <= 2 ^ 27 -> op_ok ov (identity_op k n).
Proof.
  intros Hk Hn Hb. destruct (identity_aligned k n) as [H1 H2]. split_and!; [done|done|done| |unfold PAGE_SIZE; lia|unfold PAGE_SIZE; lia].
  left. unfold PAGE_SIZE. lia.
Qed.

Lemma identity_write ov k n : 1 <= k -> identity (overlay_write (identity_op k n) (op_pages (identity_op k n)) ov) (run_set k n).
Proof.
  intros Hk p Hp%elem_run_set. assert (p = page_of (p * PAGE_SIZE)) as E by (unfold page_of; by rewrite Z.div_mul).
  destruct (identity_aligned k n) as [H1 H2]. rewrite E at 1. rewrite overlay_write_lookup by (cbn [op_pages identity_op]; apply Forall_pages; [done|done|by intros]).
  rewrite decide_True.
  - cbn [op_slot identity_op]. do 2 f_equal. unfold page_base. rewrite <- E. lia.
  - cbn [op_pages identity_op]. apply elem_of_step_by_page; [done|done|]. unfold page_base. rewrite <- E. unfold page_aligned, PAGE_SIZE.
    split; [lia|by apply Z.mod_mul].
Qed.

Lemma identity_other ov k n p :
  ~ (p ∈ run_set k n) -> overlay_write (identity_op k n) (op_pages (identity_op k n)) ov !! p = ov !! p.
Proof.
  rewrite elem_run_set. intros Hp. destruct (identity_aligned k n) as [H1 H2]. apply (mapped_other ov k (k * PAGE_SIZE) (k * PAGE_SIZE + PAGE_SIZE * n) p H1 H2).
  unfold PAGE_SIZE. rewrite Z.div_mul by done. replace ((k * 4096 + 4096 * n) / 4096) with (k + n) by (Z.div_mod_to_equations; lia). lia.
Qed.

(** ** The stack *)

Definition stack_pages (stack_size : Z) : Z := Z.max (div_ceil stack_size PAGE_SIZE) 1.

Lemma stack_pages_bound size : 0 < size < 2 ^ 63 -> 1 <= stack_pages size < 2 ^ 52 /\ size <= PAGE_SIZE * stack_pages size.
Proof.
  intros Hs. unfold stack_pages, div_ceil, PAGE_SIZE. destruct (Z.eqb_spec (size mod 4096) 0); Z.div_mod_to_equations; lia.
Qed.

Definition stack_top (base size : Z) : Z := (base + size - 63) / 64 * 64.

Lemma align_down x : 0 <= x < 2 ^ 64 -> Z.land x (unot 64 63) = x / 64 * 64.
Proof.
  intros Hx. change (unot 64 63) with (Z.ldiff (Z.ones 64) (Z.ones 6)).
  assert (Z.land x (Z.ldiff (Z.ones 64) (Z.ones 6)) = Z.ldiff x (Z.ones 6)) as ->.
  { apply Z.bits_inj'. intros b Hb. rewrite Z.land_spec, !Z.ldiff_spec, Z.testbit_ones_nonneg by lia.
    destruct (Z.ltb_spec b 64); [by rewrite andb_true_l|]. cbn [andb]. rewrite andb_false_r.
    rewrite (Z.bits_above_log2 x b); [done|lia|]. destruct (Z.eq_dec x 0) as [->|]; [cbn; lia|].
    apply Z.lt_le_trans with 64; [apply Z.log2_lt_pow2; lia|done]. }
  rewrite Z.ldiff_ones_r, Z.shiftr_div_pow2, Z.shiftl_mul_pow2 by lia. done.
Qed.

Lemma stack_pointer_run k n size : 1 <= k -> k <= 2 ^ 27 -> 0 < size < 2 ^ 63 ->
  stack_pointer (Some (frame_at k n)) size = Ok (stack_top (k * PAGE_SIZE) size).
Proof.
  intros Hk Hk2 Hs. unfold stack_pointer, uadd, usub. cbn [frame_at frame_start_phys_addr]. unfold PAGE_SIZE.
  destruct (Z.ltb_spec (k * 4096 + size) (2 ^ 64)); [|lia]. cbn [obind].
  destruct (Z.leb_spec 63 (k * 4096 + size)); [|lia]. cbn [obind]. rewrite align_down by lia. done.
Qed.

(** ** The argument block *)

(** An argument that can be a C string. *)
Definition arg_ok (arg : string) : Prop := existsb (fun b => b =? 0) (string_bytes arg) = false.

Definition argv_bytes (args : list string) : list Z := mjoin ((fun arg => string_bytes arg ++ [0]) <$> args).
Definition argv_offset (args : list string) : Z := (Z.of_nat (length args) + 2) * 8.
Definition argv_size (args : list string) : Z := Z.of_nat (length (argv_bytes args)) + argv_offset args.
Definition argv_pages (args : list string) : Z := Z.max (argv_size args / PAGE_SIZE) 1.

(** The arguments fit into the frame that is taken for them. *)
Definition argv_fits (args : list string) : Prop := argv_size args <= PAGE_SIZE * argv_pages args.

Fixpoint arg_addrs (base off : Z) (args : list string) : list Z :=
  match args with
  | [] => []
  | arg :: args => base + off :: arg_addrs base (off + Z.of_nat (String.length arg) + 1) args
  end.

Lemma string_bytes_length arg : length (string_bytes arg) = String.length arg.
Proof. unfold string_bytes. rewrite length_fmap. induction arg as [|a arg IH]; [done|]. cbn. by rewrite IH. Qed.

Lemma string_bytes_bytes arg : bytes (string_bytes arg).
Proof.
  unfold string_bytes. apply Forall_fmap, Forall_true. intros a. cbn. apply is_byte_range.
  pose proof (Ascii.N_ascii_bounded a). lia.
Qed.

Lemma args_bytes_run args : Forall arg_ok args -> args_bytes args = Ok (argv_bytes args).
Proof.
  induction 1 as [|arg args Ha _ IH]; [done|]. cbn [args_bytes]. unfold into_cstring_bytes_with_nul. by rewrite Ha, IH.
Qed.

Lemma argv_bytes_bytes args : bytes (argv_bytes args).
Proof.
  induction args as [|arg args IH]; [apply Forall_nil_2|]. unfold argv_bytes. cbn [fmap list_fmap mjoin list_join].
  apply Forall_app. split; [|exact IH]. apply Forall_app. split; [apply string_bytes_bytes|]. by apply Forall_singleton.
Qed.

Lemma argv_bytes_cons arg args : argv_bytes (arg :: args) = (string_bytes arg ++ [0]) ++ argv_bytes args.
Proof. done. Qed.

Lemma args_refs_run base args : forall off, 0 <= base -> 0 <= off ->
  base + off + Z.of_nat (length (argv_bytes args)) < 2 ^ 64 -> args_refs base off args = Ok (arg_addrs base off args).
Proof.
  induction args as [|arg args IH]; intros off Hb Ho Hl; [done|]. cbn [args_refs arg_addrs].
  rewrite argv_bytes_cons, !length_app, string_bytes_length in Hl. cbn [length] in Hl. unfold VirtualAddress_offset, uadd.
  destruct (Z.ltb_spec (base + off) (2 ^ 64)); [|lia]. cbn [obind].
  destruct (Z.ltb_spec (off + (Z.of_nat (String.length arg) + 1)) (2 ^ 64)); [|lia]. cbn [obind]. rewrite Z.add_assoc, IH by lia. done.
Qed.

Lemma arg_addrs_length base off args : length (arg_addrs base off args) = length args.
Proof. revert off. induction args as [|arg args IH]; intros off; [done|]. cbn. by rewrite IH. Qed.

Lemma arg_addrs_bound base off args : 0 <= base -> 0 <= off ->
  Forall (fun a => base + off <= a < base + off + Z.of_nat (length (argv_bytes args))) (arg_addrs base off args).
Proof.
  revert off. induction args as [|arg args IH]; intros off Hb Ho; [apply Forall_nil_2|]. cbn [arg_addrs].
  rewrite argv_bytes_cons, !length_app, string_bytes_length. cbn [length]. apply Forall_cons_2; [lia|].
  eapply Forall_impl; [apply IH; lia|]. cbn. intros a Ha. lia.
Qed.

(** Where an argument lies. *)
Lemma arg_addr_at base off args i arg : args !! i = Some arg ->
  exists pre post, argv_bytes args = pre ++ (string_bytes arg ++ [0]) ++ post
    /\ arg_addrs base off args !! i = Some (base + off + Z.of_nat (length pre)).
Proof.
  revert off i. induction args as [|arg0 args IH]; intros off [|i] Hi; try done.
  - injection Hi as <-. exists [], (argv_bytes args). split; [done|]. cbn. f_equal. lia.
  - destruct (IH (off + Z.of_nat (String.length arg0) + 1) i Hi) as (pre & post & E & Ha).
    exists ((string_bytes arg0 ++ [0]) ++ pre), post. rewrite argv_bytes_cons, E, <- (app_assoc _ pre). split; [done|].
    cbn [arg_addrs]. change ((base + off :: arg_addrs base (off + Z.of_nat (String.length arg0) + 1) args) !! S i)
      with (arg_addrs base (off + Z.of_nat (String.length arg0) + 1) args !! i). rewrite Ha. f_equal.
    rewrite !length_app, string_bytes_length. cbn [length]. lia.
Qed.

Definition words (ws : list Z) : list Z := mjoin (to_le_bytes 8 <$> ws).

Lemma words_length ws : length (words ws) = (8 * length ws)%nat.
Proof. induction ws as [|w ws IH]; [done|]. unfold words in *. cbn [fmap list_fmap mjoin list_join length]. rewrite length_app, length_to_le_bytes. unfold mjoin in *. lia. Qed.

Lemma words_bytes ws : bytes (words ws).
Proof. induction ws as [|w ws IH]; [apply Forall_nil_2|]. apply Forall_app. split; [apply to_le_bytes_bytes|exact IH]. Qed.

Lemma words_nth ws i w j : ws !! i = Some w -> (j < 8)%nat -> nth (8 * i + j) (words ws) 0 = nth j (to_le_bytes 8 w) 0.
Proof.
  revert i. induction ws as [|w' ws IH]; intros [|i] Hi Hj; try done; change (words (w' :: ws)) with (to_le_bytes 8 w' ++ words ws).
  - injection Hi as ->. cbn [Nat.mul Nat.add]. apply app_nth1. by rewrite length_to_le_bytes.
  - rewrite app_nth2; rewrite length_to_le_bytes; [|lia]. replace (8 * S i + j - 8)%nat with (8 * i + j)%nat by lia. by apply IH.
Qed.

(** A word whose bytes are in memory. *)
Lemma load_bytes m a w : 0 <= w < 2 ^ 64 -> (forall j, (j < 8)%nat -> phys m (a + Z.of_nat j) = nth j (to_le_bytes 8 w) 0) -> load_u64 m a = w.
Proof.
  intros Hw Hb. transitivity (from_le_bytes (to_le_bytes 8 w)); [|by apply from_to_le_bytes].
  assert (to_le_bytes 8 w = (fun j => phys m (a + Z.of_nat j)) <$> seq 0 8) as ->; [|done].
  apply nth_ext with 0 0; [by rewrite length_to_le_bytes|]. rewrite length_to_le_bytes. intros j Hj. rewrite <- Hb by done.
  do 8 (destruct j as [|j]; [done|]). lia.
Qed.

(** The bytes of the block: pointers, two empty words, strings. *)
Definition argv_block (base : Z) (args : list string) : list Z :=
  words (arg_addrs base (argv_offset args) args) ++ replicate 16 0 ++ argv_bytes args.

Lemma argv_block_pointer base args i w j :
  arg_addrs base (argv_offset args) args !! i = Some w -> (j < 8)%nat ->
  nth (8 * i + j) (argv_block base args) 0 = nth j (to_le_bytes 8 w) 0.
Proof.
  intros Hi Hj. pose proof (lookup_lt_Some _ _ _ Hi). unfold argv_block. rewrite app_nth1; [by apply words_nth|]. rewrite words_length. lia.
Qed.

Lemma nth_replicate {A} (x : A) n j : nth j (replicate n x) x = x.
Proof. revert j. induction n as [|n IH]; intros [|j]; try done. apply IH. Qed.

Lemma argv_block_end base args j : (j < 16)%nat -> nth (8 * length args + j) (argv_block base args) 0 = 0.
Proof.
  intros Hj. unfold argv_block. rewrite app_nth2; rewrite words_length, arg_addrs_length; [|lia].
  rewrite app_nth1 by (rewrite length_replicate; lia). replace (8 * length args + j - 8 * length args)%nat with j by lia.
  apply nth_replicate.
Qed.

Lemma argv_block_string base args j : nth (8 * (length args + 2) + j) (argv_block base args) 0 = nth j (argv_bytes args) 0.
Proof.
  unfold argv_block. rewrite app_nth2; rewrite words_length, arg_addrs_length; [|lia].
  rewrite app_nth2; rewrite length_replicate; [|lia]. f_equal. lia.
Qed.

Lemma argv_block_length base args : Z.of_nat (length (argv_block base args)) = argv_size args.
Proof.
  unfold argv_block, argv_size, argv_offset. rewrite !length_app, words_length, arg_addrs_length, length_replicate. lia.
Qed.

(** Memory that was cleared and had strings and pointers copied to it. *)
Lemma argv_block_copies base args a : base <= a ->
  (if (base <=? a) && (a <? base + Z.of_nat (length (words (arg_addrs base (argv_offset args) args))))
   then nth (Z.to_nat (a - base)) (words (arg_addrs base (argv_offset args) args)) 0
   else if (base + argv_offset args <=? a) && (a <? base + argv_offset args + Z.of_nat (length (argv_bytes args)))
   then nth (Z.to_nat (a - (base + argv_offset args))) (argv_bytes args) 0 else 0)
  = nth (Z.to_nat (a - base)) (argv_block base args) 0.
Proof.
  intros Ha. unfold argv_block, argv_offset. pose proof (words_length (arg_addrs base (argv_offset args) args)) as Hw. unfold argv_offset in Hw.
  rewrite arg_addrs_length in Hw. rewrite Hw. destruct (Z.leb_spec base a); [|lia].
  destruct (Z.ltb_spec a (base + Z.of_nat (8 * length args))) as [H1|H1]; cbn [andb].
  { rewrite app_nth1 by lia. done. }
  rewrite app_nth2 by lia. rewrite Hw. destruct (Z.leb_spec (base + (Z.of_nat (length args) + 2) * 8) a) as [H2|H2]; cbn [andb].
  - rewrite app_nth2; rewrite length_replicate; [|lia].
    destruct (Z.ltb_spec a (base + (Z.of_nat (length args) + 2) * 8 + Z.of_nat (length (argv_bytes args)))) as [H3|H3].
    + f_equal. lia.
    + symmetry. apply nth_overflow. lia.
  - rewrite app_nth1 by (rewrite length_replicate; lia). symmetry. apply nth_replicate.
Qed.

Lemma cost_lens rs phs : snd <$> rs = seg_len <$> phs -> weight rs = load_pages phs /\ cost rs = load_cost phs.
Proof.
  revert phs. induction rs as [|r rs IH]; intros [|ph phs] E; try done.
  injection E as E1 E2. destruct (IH phs E2) as [H1 H2]. unfold weight, cost, load_pages, load_cost in *. cbn [foldr]. by rewrite H1, H2, E1.
Qed.

Section Task.
Context (s0 : @PagingState Machine) (X Y : gset Z).
Hypothesis K : kernel_ok s0 X Y.
Implicit Types (st : Build) (rs : runs).
#[local] Abbreviation linv := (linv s0 X Y).

(** ** Frames mapped at their own address *)

Lemma map_identity_run kr ks rs ov st k n :
  linv kr ks rs ov st -> 1 <= k -> 1 <= n -> k + n <= 2 ^ 27 ->
  match map_identity (frame_at k n) st with
  | (Ok _, st') => exists ks' ov', linv kr (ks ++ ks') rs ov' st' /\ Z.of_nat (length ks') <= tables_for n
      /\ same_bytes (runs_set rs ∪ X) (machine (snd st)) (machine (snd st'))
      /\ identity ov' (run_set k n) /\ (forall p, ~ (p ∈ run_set k n) -> ov' !! p = ov !! p)
  | (Err e, st') => e = not_found /\ Z.of_nat (size (machine_free (machine (snd st)))) < tables_for n
  | (Panic, _) => False
  end.
Proof using K.
  intros L Hk Hn Hb. unfold map_identity. cbn [frame_at frame_start_phys_addr frame_size].
  unfold sbind, slift, VirtualAddress_offset, uadd. destruct (Z.ltb_spec (k * PAGE_SIZE + PAGE_SIZE * n) (2 ^ 64)); [|unfold PAGE_SIZE in *; lia].
  pose proof (map_run s0 X Y K kr ks rs ov st (k * PAGE_SIZE) (k * PAGE_SIZE + PAGE_SIZE * n) (k * PAGE_SIZE) L (identity_ok ov k n Hk Hn Hb)) as Hm.
  cbv zeta in Hm. fold (identity_op k n) in Hm. pose proof (op_tables_bound (k * PAGE_SIZE) n (k * PAGE_SIZE) (proj1 (identity_aligned k n)) ltac:(lia)) as Hc. fold (identity_op k n) in Hc.
  destruct (on_table _ st) as [[[]|e|] st']; [| |done].
  - destruct Hm as (ks' & L' & Hks & B'). exists ks', (overlay_write (identity_op k n) (op_pages (identity_op k n)) ov).
    split; [done|]. split; [lia|]. split; [done|]. split; [by apply identity_write|]. intros p. apply identity_other.
  - destruct Hm as (-> & Hav & _). split; [done|]. unfold available in Hav. cbn [free_set machine_laws] in Hav. lia.
Qed.

Lemma runs_set_snoc rs k n : runs_set (rs ++ [(k, n)]) = runs_set rs ∪ run_set k n.
Proof. by rewrite runs_set_app, runs_set_one. Qed.

(** What a run of frames at its own address adds to a state. *)
Record placed rs st (ov : overlay) (k n : Z) (ks' : list Z) (ov' : overlay) st' : Prop := {
  pl_low : 1 <= k /\ k + n <= 2 ^ 27;
  pl_fresh : run_set k n ## runs_set rs ∪ X;
  pl_tables : Z.of_nat (length ks') <= tables_for n;
  pl_same : same_bytes (runs_set rs ∪ X) (machine (snd st)) (machine (snd st'));
  pl_identity : identity ov' (run_set k n);
  pl_other : forall p, ~ (p ∈ run_set k n) -> ov' !! p = ov !! p
}.

Lemma held_panics {A} frames e : Forall (fun f => frame_deallocated f = false) frames -> frames <> [] ->
  (let? _ := drop_all frames in Err e) = (Panic : Result A).
Proof. destruct frames as [|f frames]; [done|]. intros [Hf _]%Forall_cons _. cbn [drop_all]. unfold MemoryFrame_drop. by rewrite Hf. Qed.

(** The frames that a state can still need. *)
Lemma place_scarce kr ks rs ov st k n t w :
  linv kr ks (rs ++ [(k, n)]) ov st -> 1 <= n -> Z.of_nat (size (machine_free (machine (snd st)))) < tables_for n ->
  spent ks rs + run_cost n <= t -> 1 <= w -> scarce (machine s0) t w.
Proof using. clear K.
  intros L Hn Hs Ht Hw. apply (left_scarce s0 X Y _ _ _ _ _ _ _ _ L Hs); [|done]. unfold spent, run_cost in *. rewrite weight_app. cbn. lia.
Qed.

Lemma alloc_stack_run kr ks rs ov st size t w :
  linv kr ks rs ov st -> 0 < size < 2 ^ 63 -> spent ks rs + run_cost (stack_pages size) <= t -> stack_pages size <= w ->
  let n := stack_pages size in
  match alloc_stack size ModeUser st with
  | (Ok o, st') => exists k ks' ov', o = Some (frame_at k n) /\ linv kr (ks ++ ks') (rs ++ [(k, n)]) ov' st'
      /\ placed rs st ov k n ks' ov' st'
  | (Err e, st') => e = not_found /\ st' = st /\ scarce (machine s0) t w
  | (Panic, _) => scarce (machine s0) t w
  end.
Proof using K.
  intros L Hsz Ht Hw n. destruct (stack_pages_bound size Hsz) as [Hn' _]. assert (1 <= n < 2 ^ 64) as Hn by (unfold n; lia).
  pose proof (tables_for_nonneg n ltac:(lia)) as Hn0.
  unfold alloc_stack. destruct (Z.ltb_spec 0 size); [|lia]. fold (stack_pages size). fold n in Ht, Hw |- *. unfold sbind at 1.
  pose proof (take_run s0 X Y K kr ks rs ov st n L Hn) as Hta. destruct (on_machine _ st) as [[f|e|] st1]; [| |done].
  2: { destruct Hta as (-> & -> & Hno). split; [done|]. split; [done|]. apply (alloc_scarce s0 X Y kr ks rs ov st n t w L Hno); unfold run_cost in *; lia. }
  destruct Hta as (k & -> & K1 & K2 & L1 & B1 & D1). rewrite decide_True by done. unfold sbind at 1, holding.
  pose proof (map_identity_run kr ks _ ov st1 k n L1 K1 (proj1 Hn) K2) as Hm.
  destruct (map_identity (frame_at k n) st1) as [[[]|e|] st2]; [| |done].
  - destruct Hm as (ks' & ov' & L2 & C2 & B2 & I2 & O2). cbn [sret]. exists k, ks', ov'. split; [done|]. split; [done|]. split; try done.
    eapply same_bytes_trans; [exact B1|]. eapply same_bytes_sub; [exact B2|]. rewrite runs_set_snoc. set_solver.
  - destruct Hm as (-> & Hs). rewrite held_panics by (done || by apply Forall_singleton).
    apply (place_scarce kr ks rs ov st1 k n t w L1); lia.
Qed.

(** Copies into a run. *)
Lemma copy_placed kr ks rs ov st k n dst data :
  linv kr ks rs ov st -> run_set k n ⊆ runs_set rs -> bytes data ->
  k * PAGE_SIZE <= dst -> dst + Z.of_nat (length data) <= k * PAGE_SIZE + PAGE_SIZE * n ->
  exists m', on_machine (copy_to dst data) st = (Ok tt, with_machine m' st)
    /\ linv kr ks rs ov (with_machine m' st)
    /\ forall a, phys m' a = if (dst <=? a) && (a <? dst + Z.of_nat (length data)) then nth (Z.to_nat (a - dst)) data 0
                             else phys (machine (snd st)) a.
Proof using K.
  intros L Hsub Hd H1 H2. apply (copy_run s0 X Y K kr ks rs ov st dst data L Hd). intros a Ha. apply Hsub, run_offset. lia.
Qed.

Lemma write_args_run kr ks rs ov st args t w :
  linv kr ks rs ov st -> Forall arg_ok args -> argv_fits args -> argv_size args < 2 ^ 63 ->
  spent ks rs + run_cost (argv_pages args) <= t -> argv_pages args <= w ->
  let n := argv_pages args in
  match write_args args ModeUser st with
  | (Ok f, st') => exists k ks' ov', f = frame_at k n /\ linv kr (ks ++ ks') (rs ++ [(k, n)]) ov' st'
      /\ placed rs st ov k n ks' ov' st'
      /\ forall j, 0 <= j < PAGE_SIZE * n ->
           phys (machine (snd st')) (k * PAGE_SIZE + j) = nth (Z.to_nat j) (argv_block (k * PAGE_SIZE) args) 0
  | (Err e, st') => e = not_found /\ st' = st /\ scarce (machine s0) t w
  | (Panic, _) => scarce (machine s0) t w
  end.
Proof using K.
  intros L Hok Hfit Hsz Ht Hw n. assert (1 <= n < 2 ^ 64) as Hn.
  { unfold n, argv_pages, argv_offset, PAGE_SIZE in *. Z.div_mod_to_equations. lia. }
  pose proof (tables_for_nonneg n ltac:(lia)) as Hn0.
  unfold write_args. unfold sbind at 1, slift at 1. rewrite args_bytes_run by done. unfold sbind at 1, slift at 1, umul.
  fold (argv_offset args). assert (argv_offset args < 2 ^ 63 /\ Z.of_nat (length (argv_bytes args)) < 2 ^ 63) as [Hoff Hlen]
    by (unfold argv_size, argv_offset in *; lia).
  destruct (Z.ltb_spec (argv_offset args) (2 ^ 64)); [|lia]. unfold sbind at 1, slift at 1, uadd. fold (argv_size args).
  destruct (Z.ltb_spec (argv_size args) (2 ^ 64)); [|lia]. fold (argv_pages args). fold n. fold n in Ht, Hw. unfold sbind at 1.
  pose proof (take_run s0 X Y K kr ks rs ov st n L Hn) as Hta. destruct (on_machine _ st) as [[f|e|] st1]; [| |done].
  2: { destruct Hta as (-> & -> & Hno). split; [done|]. split; [done|]. apply (alloc_scarce s0 X Y kr ks rs ov st n t w L Hno); unfold run_cost in *; lia. }
  destruct Hta as (k & -> & K1 & K2 & L1 & B1 & D1). set (rs1 := rs ++ [(k, n)]) in *. set (base := k * PAGE_SIZE).
  assert (run_set k n ⊆ runs_set rs1) as Hsub by (unfold rs1; rewrite runs_set_snoc; set_solver).
  destruct (zero_run s0 X Y K kr ks rs1 ov st1 k n L1 Hsub) as (m2 & R2 & L2 & P2).
  unfold holding. unfold sbind at 1. rewrite R2, decide_True by done. unfold sbind at 1.
  pose proof (map_identity_run kr ks rs1 ov (with_machine m2 st1) k n L2 K1 (proj1 Hn) K2) as Hm.
  destruct (map_identity (frame_at k n) (with_machine m2 st1)) as [[[]|e|] st3]; [| |done].
  2: { destruct Hm as (-> & Hs). rewrite held_panics by (done || by apply Forall_singleton).
       apply (place_scarce kr ks rs ov (with_machine m2 st1) k n t w L2); lia. }
  destruct Hm as (ks' & ov' & L3 & C3 & B3 & I3 & O3). change (frame_start_phys_addr (frame_at k n)) with base.
  unfold argv_fits in Hfit. fold n in Hfit. assert (0 <= argv_offset args) as Hoff0 by (unfold argv_offset; lia).
  assert (base + PAGE_SIZE * n < 2 ^ 63) as Hend by (unfold base, PAGE_SIZE in *; lia).
  unfold sbind at 1, slift at 1, VirtualAddress_offset, uadd. unfold argv_size in Hfit.
  destruct (Z.ltb_spec (base + argv_offset args) (2 ^ 64)); [|lia]. unfold sbind at 1.
  destruct (copy_placed kr (ks ++ ks') rs1 ov' st3 k n (base + argv_offset args) (argv_bytes args) L3 Hsub (argv_bytes_bytes args))
    as (m4 & R4 & L4 & P4); [lia|unfold base in *; lia|]. rewrite R4. unfold sbind at 1, slift at 1.
  rewrite args_refs_run by (unfold base, PAGE_SIZE in *; lia). unfold sbind at 1. fold (words (arg_addrs base (argv_offset args) args)).
  pose proof (words_length (arg_addrs base (argv_offset args) args)) as Hwl. rewrite arg_addrs_length in Hwl.
  destruct (copy_placed kr (ks ++ ks') rs1 ov' (with_machine m4 st3) k n base (words (arg_addrs base (argv_offset args) args)) L4 Hsub (words_bytes _))
    as (m5 & R5 & L5 & P5); [unfold base; lia|unfold argv_offset, base in *; lia|]. rewrite R5. cbn [sret].
  exists k, ks', ov'. split; [done|]. split; [done|]. cbn [with_machine snd machine] in P5 |- *.
  assert (forall a, ~ (page_of a ∈ run_set k n) -> phys m5 a = phys (machine (snd st3)) a) as Hout.
  { intros a Ha. rewrite run_offset in Ha. fold base in Ha. rewrite P5, P4. unfold argv_offset in *.
    repeat match goal with |- context [?x <=? ?y] => destruct (Z.leb_spec x y) | |- context [?x <? ?y] => destruct (Z.ltb_spec x y) end;
      cbn [andb]; done || (exfalso; apply Ha; lia). }
  split; [split; [done|done|done| |done|done]|].
  - intros a Ha. cbn [with_machine snd machine]. rewrite Hout by set_solver. rewrite B3 by (unfold rs1; rewrite runs_set_snoc; set_solver).
    cbn [with_machine snd machine]. rewrite P2, decide_False by set_solver. by apply B1.
  - intros j Hj. fold base. replace (Z.to_nat j) with (Z.to_nat (base + j - base)) by lia.
    rewrite <- argv_block_copies by lia. rewrite P5, P4. rewrite B3 by (apply elem_of_union_l, Hsub, run_offset; fold base; lia).
    cbn [with_machine snd machine]. rewrite P2, decide_True by (apply run_offset; fold base; lia). done.
Qed.

(** ** The whole task *)

(** The parts of a task: program in the runs [prs], stack at frame [kst], arguments at
    frame [ka]. *)
Record built (e : Elf64) (size : Z) (args : list string) (kr : Z) (ks : list Z) (prs : runs) (kst ka : Z)
    (ov : overlay) st : Prop := {
  bu_linv : linv kr ks (prs ++ [(kst, stack_pages size)] ++ [(ka, argv_pages args)]) ov st;
  bu_lens : snd <$> prs = seg_len <$> segments e;
  bu_image : forall ph i, ph ∈ segments e -> 0 <= i < ph_mem_size ph ->
    img (machine (snd st)) ov (runs_set prs) (ph_virt_addr ph + i) (seg_byte e ph i);
  bu_low : 1 <= kst /\ kst + stack_pages size <= 2 ^ 27 /\ 1 <= ka /\ ka + argv_pages args <= 2 ^ 27;
  bu_stack : identity ov (run_set kst (stack_pages size));
  bu_args : identity ov (run_set ka (argv_pages args));
  bu_argv : forall j, 0 <= j < PAGE_SIZE * argv_pages args ->
    phys (machine (snd st)) (ka * PAGE_SIZE + j) = nth (Z.to_nat j) (argv_block (ka * PAGE_SIZE) args) 0
}.

Definition task_entry (e : Elf64) : Z :=
  if existsb (in_segment (entry_point (header e))) (segments e) then entry_point (header e) else 0.

Definition built_context (e : Elf64) (size : Z) (args : list string) (debug : bool) (kr kst ka cr : Z) : CpuContext :=
  with_cr3 (kr * PAGE_SIZE) (Context_init Context_new (task_entry e) (Z.of_nat (length args)) (ka * PAGE_SIZE)
    (stack_top (kst * PAGE_SIZE) size) ModeUser debug cr).

Definition built_image (e : Elf64) (size : Z) (args : list string) (debug : bool) (kr : Z) (ks : list Z) (prs : runs)
    (kst ka cr : Z) : TaskImage :=
  {| image_name := Path_name (Path_new (default "" (args !! 0%nat)));
     image_context := built_context e size args debug kr kst ka cr;
     image_page_table := task_table (user_table kr ks);
     image_args_frame := Some (frame_at ka (argv_pages args));
     image_stack_frame := Some (frame_at kst (stack_pages size));
     image_program_frames := run_frames prs |}.

(** The pages of a task, and the frames that it takes at most: a table of its own, the
    pages, and tables for each of its runs. *)
Definition task_pages (e : Elf64) (size : Z) (args : list string) : Z :=
  load_pages (segments e) + stack_pages size + argv_pages args.

Definition task_need (e : Elf64) (size : Z) (args : list string) : Z :=
  1 + load_cost (segments e) + run_cost (stack_pages size) + run_cost (argv_pages args).

Lemma task_need_bound e size args :
  program_ok e -> 0 < size < 2 ^ 63 -> 0 <= task_need e size args /\ 1 <= task_pages e size args.
Proof using. clear.
  intros He Hs. unfold task_need, task_pages, run_cost. pose proof (load_cost_pages e _ (po_segments e He)). pose proof (stack_pages_bound _ Hs).
  assert (1 <= argv_pages args) by (unfold argv_pages; lia).
  pose proof (tables_for_nonneg (stack_pages size) ltac:(lia)). pose proof (tables_for_nonneg (argv_pages args) ltac:(lia)). lia.
Qed.

Lemma segment_high e ph p : seg_ok e ph -> p ∈ seg_pages ph -> 2 ^ 27 <= p.
Proof.
  intros [H1 _ _ _ _]. unfold seg_pages. rewrite elem_run_set. unfold seg_first, PAGE_SIZE. Z.div_mod_to_equations. lia.
Qed.

(** Program pages survive what is placed at low addresses. *)
Lemma img_placed e ph i rs R st ov k n ks' ov' st' :
  seg_ok e ph -> 0 <= i < ph_mem_size ph -> R ⊆ runs_set rs ->
  img (machine (snd st)) ov R (ph_virt_addr ph + i) (seg_byte e ph i) -> placed rs st ov k n ks' ov' st' ->
  img (machine (snd st')) ov' R (ph_virt_addr ph + i) (seg_byte e ph i).
Proof using. clear K.
  intros Hseg Hi HR Him [P1 P2 P3 P4 P5 P6]. eapply img_kept; [exact Him| |done|].
  - eapply same_bytes_sub; [exact P4|set_solver].
  - apply P6. rewrite elem_run_set. intros Hp. pose proof (segment_high e ph _ Hseg (seg_page_in ph i (seg_mem e ph Hseg) Hi)). lia.
Qed.

Lemma identity_placed R rs st ov k n ks' ov' st' :
  R ⊆ runs_set rs -> identity ov R -> placed rs st ov k n ks' ov' st' -> identity ov' R.
Proof using. clear K. intros HR Hid [P1 P2 P3 P4 P5 P6] p Hp. rewrite P6; [by apply Hid|]. set_solver. Qed.

Lemma run_frames_live rs : Forall (fun f => frame_deallocated f = false) (run_frames rs).
Proof. unfold run_frames. by apply Forall_fmap, Forall_true. Qed.

Lemma task_parts_run kr st e size args debug :
  linv kr [] [] ∅ st -> program_ok e -> 0 < size < 2 ^ 63 ->
  args <> [] -> Forall arg_ok args -> argv_fits args -> argv_size args < 2 ^ 63 ->
  match task_parts size (Some e) (Some args) ModeUser debug st with
  | (Ok im, st') => exists ks prs kst ka ov, built e size args kr ks prs kst ka ov st'
      /\ im = built_image e size args debug kr ks prs kst ka (cr3 s0)
  | (Err err, st') => err = not_found /\ scarce (machine s0) (task_need e size args) (task_pages e size args) /\ exists ks ov, linv kr ks [] ov st'
  | (Panic, _) => scarce (machine s0) (task_need e size args) (task_pages e size args)
  end.
Proof using K.
  intros L He Hsz Hne Hok Hfit Hasz. set (t := task_need e size args). set (w := task_pages e size args). pose proof (po_segments e He) as Hsegs.
  destruct (stack_pages_bound size Hsz) as [[S1 S2] _]. assert (1 <= argv_pages args) as A1 by (unfold argv_pages; lia).
  pose proof (load_cost_pages e _ Hsegs) as N0. pose proof (tables_for_nonneg (stack_pages size) ltac:(lia)) as N1.
  pose proof (tables_for_nonneg (argv_pages args) ltac:(lia)) as N2. unfold task_parts. unfold sbind at 1.
  pose proof (load_elf_run s0 X Y K kr ∅ st e t w L He ltac:(unfold t, task_need, run_cost; lia) ltac:(unfold w, task_pages; lia)) as Hl.
  destruct (load_elf (Some e) st) as [[[fs entry]|err|] st1]; [| |done].
  2: { destruct Hl as (-> & -> & ?). split; [done|]. split; [done|]. by exists [], ∅. }
  destruct Hl as (ks1 & prs & ov1 & -> & L1 & C1 & D1 & ->). destruct D1 as [D1 D2 D3 D4].
  destruct (cost_lens _ _ D1) as [Hw1 Hw2].
  unfold sbind at 1, holding at 1. pose proof (alloc_stack_run kr ks1 prs ov1 st1 size t w L1 Hsz ltac:(unfold t, task_need, run_cost in *; lia) ltac:(unfold w, task_pages; lia)) as Hs.
  cbv zeta in Hs. destruct (alloc_stack size ModeUser st1) as [[o|err|] st2]; [| |done].
  2: { destruct Hs as (-> & -> & Hsc). destruct prs as [|r prs]; [split; [done|]; split; [done|]; by exists ks1, ov1|].
       rewrite held_panics by (done || apply run_frames_live). done. }
  destruct Hs as (kst & ks2 & ov2 & -> & L2 & P2). destruct (pl_low _ _ _ _ _ _ _ _ P2) as [K1 K2].
  unfold sbind at 1, slift at 1. rewrite stack_pointer_run by lia. unfold sbind at 1, sassert.
  unfold stack_top at 1. rewrite Z.mod_mul by done. cbn [Z.eqb]. unfold sret at 1.
  unfold sbind at 1. unfold sbind at 1, holding at 1. set (rs2 := prs ++ [(kst, stack_pages size)]) in *.
  pose proof (pl_tables _ _ _ _ _ _ _ _ P2) as C2.
  pose proof (write_args_run kr (ks1 ++ ks2) rs2 ov2 st2 args t w L2 Hok Hfit Hasz) as Ha. cbv zeta in Ha.
  assert (spent (ks1 ++ ks2) rs2 + run_cost (argv_pages args) <= t) as Hsp.
  { pose proof (spent_snoc ks1 ks2 prs kst (stack_pages size) C1 C2) as Hsp. fold rs2 in Hsp. unfold rs2 in Hsp at 2. rewrite cost_app in Hsp.
    cbn [cost foldr snd] in Hsp. unfold t, task_need. lia. }
  specialize (Ha Hsp ltac:(unfold w, task_pages; lia)). destruct (write_args args ModeUser st2) as [[f|err|] st3]; [| |done].
  2: { destruct Ha as (-> & -> & Hsc). rewrite held_panics; [done|apply Forall_app; split; [apply run_frames_live|by apply Forall_singleton]|by destruct (run_frames prs)]. }
  destruct Ha as (ka & ks3 & ov3 & -> & L3 & P3 & B3). destruct (pl_low _ _ _ _ _ _ _ _ P3) as [K3 K4].
  destruct args as [|arg args']; [done|]. set (args := arg :: args') in *.
  unfold sret at 1. unfold sbind at 1, slift at 1. unfold sbind at 1. cbn [default idx lookup list_lookup args]. fold args.
  unfold sget. rewrite (li_table _ _ _ _ _ _ _ _ L3), (li_cr3 _ _ _ _ _ _ _ _ L3). unfold sbind at 1, slift. cbn [pml4_phys_addr].
  exists ((ks1 ++ ks2) ++ ks3), prs, kst, ka, ov3. split.
  - split.
    + unfold rs2 in L3. by rewrite <- (app_assoc prs) in L3.
    + done.
    + intros ph i Hph Hi. assert (seg_ok e ph) as Hseg by (by eapply Forall_forall in Hsegs).
      eapply (img_placed e ph i rs2 _ st2); [done|done|unfold rs2; rewrite runs_set_app; set_solver| |exact P3].
      eapply (img_placed e ph i prs _ st1); [done|done|done|by apply D4|exact P2].
    + done.
    + eapply identity_placed; [|apply P2|exact P3]. unfold rs2. rewrite runs_set_snoc. set_solver.
    + apply P3.
    + done.
  - unfold built_image, built_context, task_entry. cbn. by destruct (existsb _ _).
Qed.

(** ** Giving frames back *)

Lemma runs_ok_remove rs1 r rs2 : runs_ok (rs1 ++ r :: rs2) ->
  1 <= snd r /\ run_set (fst r) (snd r) ## runs_set (rs1 ++ rs2) /\ runs_ok (rs1 ++ rs2).
Proof using. clear K.
  induction rs1 as [|r1 rs1 IH]; [done|]. intros (H1 & H2 & (H3 & H4 & H5)%IH). cbn [app] in *.
  rewrite runs_set_app, runs_set_cons in H2. rewrite !runs_set_cons, !runs_set_app in *. split; [done|]. split; [set_solver|].
  split; [done|]. rewrite runs_set_app. split; [set_solver|done].
Qed.

Lemma free_run kr ks rs1 r rs2 ov st :
  linv kr ks (rs1 ++ r :: rs2) ov st ->
  exists m', dealloc_unwrap (frame_at (fst r) (snd r)) (machine (snd st)) = (Ok tt, m')
    /\ linv kr ks (rs1 ++ rs2) ov (with_machine m' st)
    /\ same_bytes (runs_set (rs1 ++ rs2) ∪ X) (machine (snd st)) m'.
Proof using K.
  intros L. pose proof (li_owns _ _ _ _ _ _ _ _ L) as O. pose proof (li_own_fresh _ _ _ _ _ _ _ _ L) as Hown.
  destruct L as [L1 L2 L3 L4 (mi & fr & Hmi & I) L6 L7 [L8 L9]]. destruct (runs_ok_remove _ _ _ L4) as (R1 & R2 & R3).
  unfold task_frames in *. pose proof (kernel_sub s0 X Y K) as HYX.
  rewrite !runs_set_app in *. rewrite runs_set_cons in *. set (R := run_set (fst r) (snd r)) in *. set (R12 := runs_set rs1 ∪ runs_set rs2) in *.
  set (own := own_set (kr * PAGE_SIZE) ks) in *.
  destruct (machine_dealloc_run _ _ (fst r) (snd r) O R1 ltac:(set_solver)) as (m' & D1 & O' & F' & B'). fold R in O', F'.
  exists m'. split; [unfold dealloc_unwrap; cbn [dealloc_page machine_mem]; by rewrite D1|].
  split; [|intros a Ha; apply B'; set_solver]. split; cbn [with_machine fst snd machine KERNEL_PML4_PHYS cr3]; try done.
  - exists m', (own ∪ free_set m'). split.
    + eapply same_on_trans; [exact Hmi|]. eapply same_on_trans; [eapply same_on_sub; [apply I|set_solver]|].
      apply same_bytes_words. intros a Ha. apply B'. set_solver.
    + apply (space_rebase mi fr (KERNEL_PML4_PHYS s0) (runs_set (rs1 ++ r :: rs2) ∪ X) Y kr ks ov (machine (snd st)));
        [set_solver|by apply (ref_tree s0 X Y K)| | | |].
      * by rewrite runs_set_app, runs_set_cons.
      * rewrite runs_set_app. fold own. set_solver.
      * rewrite runs_set_app. fold own R12. cbn [owns machine_laws].
        replace (own ∪ (R12 ∪ X)) with ((own ∪ (runs_set rs1 ∪ (R ∪ runs_set rs2) ∪ X)) ∖ R); [done|]. apply set_eq. set_solver.
      * apply same_bytes_words. intros a Ha. apply B'. fold own in Ha. set_solver.
  - rewrite runs_set_app. set_solver.
  - eapply same_bytes_trans; [exact L7|]. intros a Ha. apply B'. set_solver.
  - unfold task_frames. rewrite runs_set_app. fold own R12. split; [set_solver|]. rewrite F', L9. apply set_eq. intros q.
    destruct (decide (q ∈ R)) as [Hq|Hq]; set_solver.
Qed.

Lemma free_runs kr ks rs0 rs rs1 ov : forall st, linv kr ks (rs0 ++ rs ++ rs1) ov st ->
  exists m', sfor (run_frames rs) dealloc_unwrap (machine (snd st)) = (Ok tt, m') /\ linv kr ks (rs0 ++ rs1) ov (with_machine m' st).
Proof using K.
  induction rs as [|r rs IH]; intros st L.
  { exists (machine (snd st)). split; [done|]. by destruct st as [u [m a b]]. }
  destruct (free_run kr ks rs0 r (rs ++ rs1) ov st L) as (m1 & R1 & L1 & _). destruct (IH _ L1) as (m' & R' & L').
  exists m'. cbn [run_frames fmap list_fmap sfor]. unfold sbind. rewrite R1. done.
Qed.

(** Only the tables are left. *)
Lemma drop_table kr ks ov st :
  linv kr ks [] ov st ->
  exists m', UserPageTable_drop (user_table kr ks) (machine (snd st)) = (Ok tt, m') /\ machine_owns m' X
    /\ machine_free m' = machine_free (machine s0) /\ same_bytes X (machine s0) m'.
Proof using K.
  intros [L1 L2 L3 L4 (mi & fr & Hmi & I) L6 L7 [L8 L9]]. unfold task_frames in *.
  change (runs_set []) with (∅ : gset Z) in *. rewrite (left_id_L ∅ (∪) X) in I. rewrite (right_id_L ∅ (∪)) in L8, L9.
  destruct (drop_run mi fr (KERNEL_PML4_PHYS s0) X Y kr (kernel_sub s0 X Y K) ks ov _ I) as (m' & R' & O' & F' & S').
  exists m'. split; [done|]. split; [done|]. split.
  - cbn [free_set machine_laws] in F'. rewrite F'. destruct (si_free _ _ _ _ _ _ _ _ _ I) as [A1 A2]. cbn [free_set machine_laws] in A2.
    rewrite (union_difference_L _ _ A1), (union_difference_L _ _ L8). f_equal. by rewrite <- A2, <- L9.
  - eapply same_bytes_trans; [exact L7|]. apply words_same_bytes; [apply (si_owns _ _ _ _ _ _ _ _ _ I)|apply O'|].
    intros b Hb Hx. rewrite S' by done. symmetry. by apply (si_same _ _ _ _ _ _ _ _ _ I).
Qed.

(** ** Addresses of the task *)

(** A byte that the task reads and writes at [va]. *)
Definition user_byte (m : Machine) (root va b : Z) : Prop :=
  exists page, maps m root va page Write User WriteThrough false
    /\ calc_phys_addr m root va = Some (page + va mod PAGE_SIZE) /\ phys m (page + va mod PAGE_SIZE) = b.

Lemma img_user_byte kr ks rs ov st R va b :
  linv kr ks rs ov st -> canonical va -> img (machine (snd st)) ov R va b -> user_byte (machine (snd st)) (kr * PAGE_SIZE) va b.
Proof using. clear K.
  intros L Hva (page & H1 & H2 & H3). destruct (li_space _ _ _ _ _ _ _ _ L) as (mi & fr & _ & I).
  pose proof (si_slots _ _ _ _ _ _ _ _ _ I va Hva) as Hs. rewrite H1 in Hs. cbn [slot_ok] in Hs.
  exists page. split; [done|]. split; [|done]. eapply maps_calc; [apply I|exact Hs].
Qed.

Lemma identity_user_byte kr ks rs ov st k n va :
  linv kr ks rs ov st -> identity ov (run_set k n) -> 1 <= k -> k + n <= 2 ^ 27 ->
  k * PAGE_SIZE <= va < k * PAGE_SIZE + PAGE_SIZE * n ->
  user_byte (machine (snd st)) (kr * PAGE_SIZE) va (phys (machine (snd st)) va).
Proof using. clear K.
  intros L Hid Hk Hn Hva. apply (img_user_byte kr ks rs ov st (run_set k n) va); [done|left; unfold PAGE_SIZE in *; lia|].
  assert (page_of va ∈ run_set k n) as Hp by (by apply run_offset).
  exists (page_of va * PAGE_SIZE).
  assert (page_of va * PAGE_SIZE + va mod PAGE_SIZE = va) as -> by (unfold page_of; rewrite Z.mul_comm; symmetry; by apply Z.div_mod).
  split; [by apply Hid|done].
Qed.

Lemma kernel_kept kr ks rs ov st va :
  linv kr ks rs ov st ->
  calc_phys_addr (machine (snd st)) (KERNEL_PML4_PHYS s0) va = calc_phys_addr (machine s0) (KERNEL_PML4_PHYS s0) va.
Proof using K.
  intros L. pose proof (same_bytes_words _ _ _ (li_same _ _ _ _ _ _ _ _ L)) as Hs. pose proof (same_on_sub Y X _ _ Hs (kernel_sub s0 X Y K)) as HsY.
  destruct K as [_ _ Ht]. rewrite (calc_phys_leaf _ _ Y va (same_on_tree _ _ _ Y Y Ht HsY (reflexivity Y))), (calc_phys_leaf _ _ Y va Ht). f_equal. unfold leaf_at.
  by apply (same_on_leaf (machine s0) _ _ Y); [..|apply table_path_path|apply index_valid].
Qed.

(** What [main] finds: [argv] points to [argc] C strings and a null pointer. *)
Definition argv_at (m : Machine) (argv : Z) (args : list string) : Prop :=
  (forall i arg, args !! i = Some arg ->
     exists a, load_u64 m (argv + 8 * Z.of_nat i) = a /\ argv <= a
       /\ a + Z.of_nat (length (string_bytes arg)) < argv + PAGE_SIZE * argv_pages args
       /\ forall j, (j <= length (string_bytes arg))%nat -> phys m (a + Z.of_nat j) = nth j (string_bytes arg ++ [0]) 0)
  /\ load_u64 m (argv + 8 * Z.of_nat (length args)) = 0.

Lemma block_argv m base args :
  0 <= base < 2 ^ 39 -> argv_fits args -> argv_size args < 2 ^ 63 ->
  (forall j, 0 <= j < PAGE_SIZE * argv_pages args -> phys m (base + j) = nth (Z.to_nat j) (argv_block base args) 0) ->
  argv_at m base args.
Proof using. clear K.
  intros Hbase Hfit Hsz Hb. unfold argv_fits in Hfit. pose proof (argv_block_length base args) as Hlen. unfold argv_size, argv_offset in Hfit, Hsz. split.
  - intros i arg Hi. destruct (arg_addr_at base (argv_offset args) args i arg Hi) as (pre & post & E & Ha).
    pose proof (lookup_lt_Some _ _ _ Hi) as Hlt. set (a := base + argv_offset args + Z.of_nat (length pre)) in *.
    assert (Z.of_nat (length (argv_bytes args)) = Z.of_nat (length pre) + Z.of_nat (length (string_bytes arg)) + 1 + Z.of_nat (length post)) as El
      by (rewrite E, !length_app; cbn [length]; lia).
    exists a. split_and!; [|unfold a, argv_offset; lia|unfold a, argv_offset; lia|].
    + apply load_bytes; [unfold a, argv_offset; lia|]. intros j Hj. rewrite <- Z.add_assoc, Hb by lia.
      rewrite <- (argv_block_pointer base args i a j Ha Hj). f_equal. lia.
    + intros j Hj. replace (a + Z.of_nat j) with (base + (argv_offset args + Z.of_nat (length pre) + Z.of_nat j)) by (unfold a; lia).
      rewrite Hb by (unfold argv_offset; lia).
      replace (Z.to_nat (argv_offset args + Z.of_nat (length pre) + Z.of_nat j)) with (8 * (length args + 2) + (length pre + j))%nat by (unfold argv_offset; lia).
      rewrite argv_block_string, E, app_nth2 by lia. replace (length pre + j - length pre)%nat with j by lia.
      apply app_nth1. rewrite length_app. cbn [length]. lia.
  - apply load_bytes; [lia|]. intros j Hj. rewrite <- Z.add_assoc, Hb by lia.
    replace (Z.to_nat (8 * Z.of_nat (length args) + Z.of_nat j)) with (8 * length args + j)%nat by lia. rewrite argv_block_end by lia.
    by do 8 (destruct j as [|j]; [done|]); lia.
Qed.

(** ** From the first table to the task *)

Lemma new_cloned_registers (s : @PagingState Machine) :
  let s' := snd (new_cloned_from_kernel s) in KERNEL_PML4_PHYS s' = KERNEL_PML4_PHYS s /\ cr3 s' = cr3 s.
Proof using. clear.
  unfold new_cloned_from_kernel, sbind, on_kernel, sget, slift, sret. destruct (UserPageTable_new (machine s)) as [[u|e|] m1]; [|done|done].
  destruct (pml4_phys_addr u) as [root|e|]; [|done|done]. cbn [KERNEL_PML4_PHYS machine]. by destruct (copy_entries _ _ m1) as [[[]|e|] m2].
Qed.

Lemma new_cloned_linv :
  match new_cloned_from_kernel s0 with
  | (Ok u, s1) => exists kr, u = user_table kr [] /\ linv kr [] [] ∅ (u, s1)
  | (Err e, s1) => e = not_found /\ machine s1 = machine s0 /\ size (machine_free (machine s0)) = 0%nat
  | (Panic, _) => False
  end.
Proof using K.
  pose proof (new_cloned_run s0 X Y K) as Hrun. pose proof (new_cloned_registers s0) as Hreg.
  destruct (new_cloned_from_kernel s0) as [[u|e|] s1]; [| |done].
  2: { destruct Hrun as (-> & Hm & Hav). split; [done|]. split; [done|]. unfold available in Hav. cbn [free_set machine_laws] in Hav. lia. }
  destruct Hrun as (kr & -> & I), Hreg as [Hr1 Hr2]. exists kr. split; [done|]. cbn [snd] in Hr1, Hr2.
  assert (runs_set [] ∪ X = X) as HX by apply (left_id_L ∅ (∪)).
  split; cbn [fst snd]; try done.
  - exists (machine s0), (free_set (machine s0)). split; [by intros b ??|]. by rewrite HX.
  - apply words_same_bytes; [apply (ko_owns _ _ _ K)|apply (si_owns _ _ _ _ _ _ _ _ _ I)|apply (si_same _ _ _ _ _ _ _ _ _ I)].
  - unfold task_frames. change (runs_set []) with (∅ : gset Z). rewrite (right_id_L ∅ (∪)). apply (si_free _ _ _ _ _ _ _ _ _ I).
Qed.

Lemma no_frames_scarce t w : 0 <= t -> 1 <= w -> size (machine_free (machine s0)) = 0%nat -> scarce (machine s0) t w.
Proof using. clear K.
  intros Ht Hw Hs. exists ∅, 1. split_and!; [set_solver|rewrite size_empty; lia|lia|lia|]. intros k Hk.
  apply size_empty_inv in Hs. assert (k ∈ machine_free (machine s0) ∖ ∅) by (apply Hk, elem_run_set; lia). set_solver.
Qed.

(** A task, or no frames. *)
Lemma Task_image_run e stack_size args debug :
  program_ok e -> 0 < stack_size < 2 ^ 63 ->
  args <> [] -> Forall arg_ok args -> argv_fits args -> argv_size args < 2 ^ 63 ->
  match Task_image stack_size (Some e) (Some args) ModeUser debug s0 with
  | (Ok im, s') => exists kr ks prs kst ka ov u, built e stack_size args kr ks prs kst ka ov (u, s')
      /\ im = built_image e stack_size args debug kr ks prs kst ka (cr3 s0)
  | (Err err, s') => err = not_found /\ scarce (machine s0) (task_need e stack_size args) (task_pages e stack_size args)
      /\ machine_free (machine s') = machine_free (machine s0) /\ same_bytes X (machine s0) (machine s')
  | (Panic, _) => scarce (machine s0) (task_need e stack_size args) (task_pages e stack_size args)
  end.
Proof using K.
  intros He Hsz Hne Hok Hfit Hasz.
  destruct (task_need_bound e stack_size args He Hsz) as [Hneed Hpages].
  unfold Task_image, sbind at 1. pose proof new_cloned_linv as Hn. destruct (new_cloned_from_kernel s0) as [[u|err|] s1]; [| |done].
  2: { destruct Hn as (-> & -> & Hs). split_and!; [done|by apply no_frames_scarce|done|by intros a ?]. }
  destruct Hn as (kr & -> & L). pose proof (task_parts_run kr _ e stack_size args debug L He Hsz Hne Hok Hfit Hasz) as Hp.
  destruct (task_parts _ _ _ _ _ _) as [[im|err|] [u s2]].
  - destruct Hp as (ks & prs & kst & ka & ov & B & ->). by exists kr, ks, prs, kst, ka, ov, u.
  - destruct Hp as (-> & Hsc & ks & ov & L2). destruct (drop_table kr ks ov _ L2) as (m' & R & O & F & S).
    pose proof (li_table _ _ _ _ _ _ _ _ L2) as Hu. cbn [fst] in Hu. subst u. unfold sbind, on_kernel. cbn [snd] in R. rewrite R. done.
  - done.
Qed.

End Task.
