(* ===== verification/Exec.v ===== *)
(** * Starting programs ([kernel/src/task/exec.rs])

    What the construction of a task promises, [exec_elf] over the file system, the
    memory and the scheduler, and programs small enough to be loaded here. *)
From Stdlib Require Import ZArith Lia.
From stdpp Require Import base gmap sets list strings.
From S2P Require Import Prelude Utf8 Path KError Elf Bitmap Vfs VfsFiles Scheduler Paging.
From S2P Require Import PagingTree PagingMap PagingRange PagingSpace PagingTask PagingBitmap Loader LoaderSpec LoaderTask.

#[local] Open Scope string_scope.
#[local] Open Scope list_scope.
#[local] Open Scope Z_scope.

(** ** [exec_elf] *)

Definition USER_TASK_STACK_SIZE : Z := 1024 * 1024.

Section Exec.
Context {FS Dev Dwarf : Type} `{FileSystem FS}.
#[local] Abbreviation Vfs := (Vfs.Vfs (FS := FS) (Dev := Dev)).

(** [dwarf::parse]; its errors are only logged. *)
Context (dwarf_parse : Elf64 -> Result Dwarf).

Record ExecWorld := MkExec {
  ew_files : VfsWorld (FS := FS) (Dev := Dev);
  ew_memory : @PagingState Machine;
  ew_sched : Scheduler.World (Dwarf := Dwarf)
}.

Definition on_files {A} (c : SR VfsWorld A) : SR ExecWorld A := fun x =>
  let '(r, w) := c (ew_files x) in (r, MkExec w (ew_memory x) (ew_sched x)).
Definition on_memory {A} (c : SR PagingState A) : SR ExecWorld A := fun x =>
  let '(r, p) := c (ew_memory x) in (r, MkExec (ew_files x) p (ew_sched x)).
Definition on_sched {A} (c : SR Scheduler.World A) : SR ExecWorld A := fun x =>
  let '(r, w) := c (ew_sched x) in (r, MkExec (ew_files x) (ew_memory x) w).

(** The result of a step as a value. *)
Definition stry {S A} (c : SR S A) : SR S (Result A) := fun s => let '(r, s) := c s in (Ok r, s).

(** [scheduler::spawn_user_task] with the construction of the task. *)
Definition spawn_user_elf (elf64 : Elf64) (path : Path) (args : list string) (dwarf : option Dwarf)
    (pipe_fd : option Z * option Z * option Z) : SR ExecWorld Z :=
  let path_string := path_str path in
  let all_args := [path_string] ++ args in
  let! x := sget in
  let! _ := slift (ok_or (with_context NotFound "current task") (current_task_id (TASK_SCHED (ew_sched x)))) in
  let! image := on_memory (stry (Task_image USER_TASK_STACK_SIZE (Some elf64) (Some all_args) ModeUser
                                   (match dwarf with Some _ => true | None => false end))) in
  on_sched (spawn_user_task image dwarf pipe_fd).

Definition debug_info (enable_debug : bool) (elf64 : Elf64) : Result (option Dwarf) :=
  if enable_debug then
    match dwarf_parse elf64 with
    | Ok d => Ok (Some d)
    | Err _ => Ok None
    | Panic => Panic
    end
  else Ok None.

(** [around] is the memory behind the bytes of the file, which [Elf64] can reach. *)
Definition exec_elf (elf_path : Path) (args : list string) (enable_debug : bool)
    (pipe_fd : option Z * option Z * option Z) (around : Z -> Z) : SR ExecWorld Z :=
  let! fd_num := on_files (sys_open_file elf_path false) in
  let! elf_data := on_files (sys_read_file fd_num (2 ^ 64 - 1)) in
  let! elf64 := match Elf64_new elf_data around with
                | Ok e => sret e
                | Err err => serr (error_into (EElf64 err))
                | Panic => spanic
                end in
  do! on_files (sys_close_file fd_num) in
  let! dwarf := slift (debug_info enable_debug elf64) in
  spawn_user_elf elf64 elf_path args dwarf pipe_fd.

(** ** A program in a file *)

(** The path leads to a file in memory with the content, and nobody has it open. *)
Record plain_file (v : Vfs) (path : Path) (id : Z) (f : FileInfo (FS := FS) (Dev := Dev)) (data : list Z) : Prop := {
  pf_path : find_file_by_path v path = Some (ResVfs id f);
  pf_found : file_ref v id = Ok f;
  pf_type : file_ty f = VirtualFile;
  pf_data : file_buf f = Some data;
  pf_closed : list_find (fun fd => fd_backing fd = BackVfs id) (fds v) = None;
  pf_new : MkFd (next_fd_num v) ∉ fd_num <$> fds v;
  pf_room : next_fd_num v < 2 ^ 64 - 1
}.

(** A state with one more descriptor given out, open or not. *)
Definition fds_and_next (l : list FileDescriptor) (v : Vfs) : Vfs :=
  MkVfs (FS := FS) (Dev := Dev) (cwd_path v) (root_id v) (files v) l (next_file_id v) (wrap 64 (next_fd_num v + 1)).

Lemma find_child_fds l v cs name : find_child (fds_and_next l v) cs name = find_child v cs name.
Proof. induction cs as [|c cs IH]; [done|]. cbn [find_child]. by rewrite IH. Qed.

Lemma find_path_fds l v path : find_file_by_path (fds_and_next l v) path = find_file_by_path v path.
Proof.
  assert (forall names id f, resolve_names (fds_and_next l v) id f names = resolve_names v id f names) as Hn.
  { induction names as [|name names IH]; intros id f; [done|]. cbn [resolve_names]. rewrite find_child_fds.
    destruct (file_fs f); [done|]. by destruct (find_child v _ _) as [[c g]|]. }
  unfold find_file_by_path. change (absolutize (fds_and_next l v) path) with (absolutize v path). destruct (absolutize v path); [|done].
  change (root_id (fds_and_next l v)) with (root_id v). destruct (root_id v) as [r|]; [|done].
  change (find_file (fds_and_next l v) r) with (find_file v r). by destruct (find_file v r).
Qed.

Definition opened (v : Vfs) (id offset : Z) : Vfs :=
  fds_and_next (fds v ++ [MkFileDescriptor (MkFd (next_fd_num v)) (BackVfs id) offset None None]) v.

Lemma open_plain v path id f data d : plain_file v path id f data ->
  sys_open_file path false (MkVfsWorld v d) = (Ok (MkFd (next_fd_num v)), MkVfsWorld (opened v id 0) d).
Proof.
  intros [P1 P2 P3 P4 P5 P6 P7]. unfold sys_open_file, sbind, on_vfs, open_file, sbind, sget. cbn [VFS]. rewrite P1, P3, P5. done.
Qed.

Lemma opened_find v path id f data offset : plain_file v path id f data ->
  fd_find (opened v id offset) (MkFd (next_fd_num v))
  = Some (length (fds v), MkFileDescriptor (MkFd (next_fd_num v)) (BackVfs id) offset None None).
Proof.
  intros [P1 P2 P3 P4 P5 P6 P7]. unfold fd_find, opened, fds_and_next. cbn [fds]. rewrite list_find_app_r.
  - cbn. rewrite decide_True by done. done.
  - by apply fd_find_absent.
Qed.

Lemma read_plain v path id f data d : plain_file v path id f data -> Z.of_nat (length data) < 2 ^ 64 ->
  sys_read_file (MkFd (next_fd_num v)) (2 ^ 64 - 1) (MkVfsWorld (opened v id 0) d)
  = (Ok data, MkVfsWorld (opened v id (Z.of_nat (length data))) d).
Proof.
  intros P Hlen. pose proof (opened_find v path id f data 0 P) as Hfd. destruct P as [P1 P2 P3 P4 P5 P6 P7].
  assert (read_window data 0 (2 ^ 64 - 1) = Ok (data, Z.of_nat (length data))) as Hw.
  { unfold read_window, saturating_add, slice. replace (Z.min 0 (Z.of_nat (length data))) with 0 by lia.
    replace (Z.min _ (Z.of_nat (length data))) with (Z.of_nat (length data)) by lia. rewrite Nat2Z.id, Nat.leb_refl. cbn.
    by rewrite Nat.sub_0_r, drop_0, firstn_all. }
  unfold sys_read_file, sbind at 1, on_vfs at 1, vfs_read_file, sbind at 1, sget. cbn [VFS]. unfold sbind at 1, slift at 1, file_desc. rewrite Hfd.
  cbn [fmap option_fmap option_map snd ok_or fd_backing fd_offset]. unfold sbind at 1, slift at 1.
  assert (file_ref (opened v id 0) id = Ok f) as -> by exact P2. rewrite P3, P4. change (default [] (Some data)) with data. unfold sbind at 1, slift at 1. rewrite Hw.
  unfold sbind at 1, update_desc, sbind at 1, sget. unfold sbind at 1, slift. rewrite Hfd. cbn. unfold sret. do 3 f_equal.
  unfold set_fds, opened, fds_and_next. cbn. f_equal. rewrite alter_app_r_alt, Nat.sub_diag by done. done.
Qed.

Lemma close_plain v path id f data d offset : plain_file v path id f data ->
  sys_close_file (MkFd (next_fd_num v)) (MkVfsWorld (opened v id offset) d) = (Ok tt, MkVfsWorld (fds_and_next (fds v) v) d).
Proof.
  intros P. pose proof (opened_find v path id f data offset P) as Hfd. destruct P as [P1 P2 P3 P4 P5 P6 P7].
  unfold sys_close_file, sbind at 1, on_vfs, close_file, sbind at 1, sget. cbn [VFS]. unfold sbind at 1, slift. rewrite Hfd. cbn [ok_or].
  assert (find_file (set_fds (delete (length (fds v)) (fds (opened v id offset))) (opened v id offset)) id = Some f) as Hf.
  { unfold file_ref, ok_or in P2. unfold find_file, set_fds, opened, fds_and_next in *. cbn. by destruct (files v !! id) as [g|]; [injection P2 as ->|]. }
  unfold sbind at 1, smodify. cbn [fd_backing]. unfold sbind at 1. rewrite Hf. cbn [fmap option_fmap option_map]. rewrite P3.
  unfold sbind at 1, release_pipe_end, sbind at 1, sget. rewrite Hf. cbn [fmap option_fmap option_map]. rewrite P3. cbn [sret devices].
  do 2 f_equal. unfold set_fds, opened, fds_and_next. cbn. f_equal. by rewrite delete_middle, app_nil_r.
Qed.

(** The new task of an image, and the scheduler with it. *)
Definition image_task (im : TaskImage) (id parent : Z) (dwarf : option Dwarf) (pipe : option Z * option Z * option Z) : Task :=
  {| task_id := id; task_name := image_name im; task_state := TaskState_default; task_context := image_context im;
     task_resource := TaskResource_new (image_page_table im) (image_args_frame im) (image_stack_frame im) (image_program_frames im) pipe;
     task_dwarf := dwarf; waiting_for := None; task_parent := Some parent; children := [] |}.

Definition spawned (w : Scheduler.World (Dwarf := Dwarf)) (cur t : Task) : Scheduler.World (Dwarf := Dwarf) :=
  MkWorld (set_current (Some (set_children (children cur ++ [task_id t]) cur)) (spawn t (TASK_SCHED w))) (wrap 64 (NEXT w + 1)).

Lemma spawn_image w im cur dwarf pipe : current_task (TASK_SCHED w) = Some cur ->
  spawn_user_task (Ok im) dwarf pipe w = (Ok (NEXT w), spawned w cur (image_task im (NEXT w) (task_id cur) dwarf pipe)).
Proof.
  intros Hcur. unfold spawn_user_task, sbind at 1, sget, current_task_id. unfold sbind at 1, slift. rewrite Hcur. cbn [fmap option_fmap option_map ok_or].
  unfold sbind, Task_new, sbind, slift, TaskId_new, locked, smodify, with_current, current_task_mut, sret. cbn. rewrite Hcur. reflexivity.
Qed.

(** Up to the program in memory. *)
Lemma exec_plain x path args debug pipe around id f data :
  plain_file (VFS (ew_files x)) path id f data -> Z.of_nat (length data) < 2 ^ 64 ->
  let e := {| elf_data := data; elf_around := around |} in
  let v := VFS (ew_files x) in
  exec_elf path args debug pipe around x =
    if is_valid (header e)
    then (let! dwarf := slift (debug_info debug e) in spawn_user_elf e path args dwarf pipe)
           (MkExec (MkVfsWorld (fds_and_next (fds v) v) (devices (ew_files x))) (ew_memory x) (ew_sched x))
    else (Err (error_into (EElf64 InvalidMagicNumber)),
          MkExec (MkVfsWorld (opened v id (Z.of_nat (length data))) (devices (ew_files x))) (ew_memory x) (ew_sched x)).
Proof.
  intros P Hlen e v. destruct x as [[v0 d] mem sch]. unfold v in *. cbn [ew_files VFS devices ew_memory ew_sched] in *.
  unfold exec_elf. unfold sbind at 1, on_files at 1. cbn [ew_files]. rewrite (open_plain v0 path id f data d P). cbn [ew_memory ew_sched].
  unfold sbind at 1, on_files at 1. cbn [ew_files]. rewrite (read_plain v0 path id f data d P Hlen). cbn [ew_memory ew_sched].
  unfold Elf64_new. fold e. destruct (is_valid (header e)); cbn [negb]; [|reflexivity].
  unfold sbind at 1, sret at 1. unfold sbind at 1, on_files at 1. cbn [ew_files].
  rewrite (close_plain v0 path id f data d _ P). reflexivity.
Qed.

(** ** Properties of [exec_elf] *)

(** C11: starting a program.  For a file that nobody has open, with the magic number, the
    file is read and closed again: no descriptor stays open.  The task is then made
    from the program, with its path before the arguments; when that succeeds, the new
    task is the last one that is ready, a child of the running task, and its id is
    returned.  Otherwise the scheduler is unchanged and the error is returned. *)
Theorem exec_elf_starts_program x path args debug pipe around id f data dwarf cur :
  let v := VFS (ew_files x) in let w := ew_sched x in
  let e := {| elf_data := data; elf_around := around |} in
  plain_file v path id f data -> Z.of_nat (length data) < 2 ^ 64 -> is_valid (header e) = true ->
  debug_info debug e = Ok dwarf -> current_task (TASK_SCHED w) = Some cur ->
  let files := MkVfsWorld (fds_and_next (fds v) v) (devices (ew_files x)) in
  let traced := match dwarf with Some _ => true | None => false end in
  match Task_image USER_TASK_STACK_SIZE (Some e) (Some (path_str path :: args)) ModeUser traced (ew_memory x) with
  | (Ok im, memory) =>
      exec_elf path args debug pipe around x
      = (Ok (NEXT w), MkExec files memory (spawned w cur (image_task im (NEXT w) (task_id cur) dwarf pipe)))
  | (Err err, memory) => exec_elf path args debug pipe around x = (Err err, MkExec files memory w)
  | (Panic, _) => fst (exec_elf path args debug pipe around x) = Panic
  end.
Proof.
  intros v w e P Hlen Hv Hd Hcur files traced. rewrite (exec_plain x path args debug pipe around id f data P Hlen). fold e v files. rewrite Hv.
  unfold sbind at 1, slift at 1. rewrite Hd.
  unfold spawn_user_elf, on_memory, on_sched, stry, sbind, sget, slift. cbn [ew_files ew_memory ew_sched app]. fold w. unfold current_task_id.
  rewrite Hcur. cbn [fmap option_fmap option_map ok_or]. cbn [ew_files ew_memory ew_sched]. fold traced.
  destruct (Task_image _ _ _ _ _ _) as [[im|err|] memory]; cbn [ew_sched ew_files ew_memory]; fold w.
  - by rewrite (spawn_image w im cur).
  - unfold spawn_user_task, sbind, sget, slift, current_task_id, Task_new, sbind, slift. rewrite Hcur. by destruct w.
  - unfold spawn_user_task, sbind, sget, slift, current_task_id, Task_new, sbind, slift. by rewrite Hcur.
Qed.

(** C39: a file of the virtual file system's own memory without the magic number stays
    open.  The error is returned before the descriptor is closed, so that after one
    attempt to run such a file nobody can open it: the next attempt fails because the
    file is in use.  (A file of a mounted file system is opened without that check: there
    only the descriptor stays.) *)
Theorem exec_elf_leaves_file_open x path args debug pipe around id f data :
  let v := VFS (ew_files x) in
  plain_file v path id f data -> Z.of_nat (length data) < 2 ^ 64 ->
  is_valid (header {| elf_data := data; elf_around := around |}) = false ->
  exists x', exec_elf path args debug pipe around x = (Err (error_into (EElf64 InvalidMagicNumber)), x')
    /\ fds (VFS (ew_files x')) = fds v ++ [MkFileDescriptor (MkFd (next_fd_num v)) (BackVfs id) (Z.of_nat (length data)) None None]
    /\ exec_elf path args debug pipe around x' = (Err (vfs_err (BlockingFileResource (MkFd (next_fd_num v)))), x').
Proof.
  intros v P Hlen Hv. rewrite (exec_plain x path args debug pipe around id f data P Hlen), Hv. eexists. split; [reflexivity|]. split; [reflexivity|].
  destruct P as [P1 P2 P3 P4 P5 P6 P7]. unfold exec_elf. unfold sbind at 1, on_files at 1. cbn [ew_files].
  unfold sys_open_file, sbind at 1, on_vfs, open_file, sbind at 1, sget. cbn [VFS].
  assert (find_file_by_path (opened v id (Z.of_nat (length data))) path = Some (ResVfs id f)) as E by (unfold opened; by rewrite find_path_fds). fold v. rewrite E, P3.
  cbn [opened fds_and_next fds]. rewrite list_find_app_r by done. cbn. rewrite decide_True by done. reflexivity.
Qed.

End Exec.

(** ** What a task finds *)




(** ** Properties of tasks *)


(** The resources of a task that was made from an image. *)
Definition image_resource (im : TaskImage) (pipe : option Z * option Z * option Z) : TaskResource :=
  TaskResource_new (image_page_table im) (image_args_frame im) (image_stack_frame im) (image_program_frames im) pipe.

(** A task with the frames it was made with and the blocks [us] gives them back. *)
Lemma drop_frames_run s X Y kr ks prs kst nst ka na us ov st r :
  kernel_ok s X Y -> linv s X Y kr ks ((prs ++ [(kst, nst)] ++ [(ka, na)]) ++ us) ov st ->
  args_frame r = Some (frame_at ka na) -> stack_frame r = Some (frame_at kst nst) ->
  program_frames r = run_frames prs -> alloc_frames r = run_frames us ->
  exists m, TaskResource_drop_frames r (machine (snd st)) = (Ok tt, m) /\ linv s X Y kr ks [] ov (with_machine m st).
Proof.
  intros K L Ha Hs Hp Hu. unfold TaskResource_drop_frames. rewrite Ha, Hs, Hp, Hu. cbn [option_frames].
  change [frame_at ka na] with (run_frames [(ka, na)]). change [frame_at kst nst] with (run_frames [(kst, nst)]).
  replace ((prs ++ [(kst, nst)] ++ [(ka, na)]) ++ us) with ((prs ++ [(kst, nst)]) ++ [(ka, na)] ++ us) in L by (by rewrite <- !app_assoc).
  destruct (free_runs s X Y K kr ks _ [(ka, na)] us ov st L) as (m1 & R1 & L1). rewrite <- app_assoc in L1.
  destruct (free_runs s X Y K kr ks prs [(kst, nst)] us ov _ L1) as (m2 & R2 & L2).
  destruct (free_runs s X Y K kr ks [] prs us ov _ L2) as (m3 & R3 & L3). cbn [app] in L3. rewrite <- (app_nil_r us) in L3.
  destruct (free_runs s X Y K kr ks [] us [] ov _ L3) as (m4 & R4 & L4).
  cbn [with_machine snd machine] in R2, R3, R4. exists m4. split; [|exact L4].
  unfold sbind at 1. rewrite R1. unfold sbind at 1. rewrite R2. unfold sbind at 1. by rewrite R3.
Qed.

(** ** A small program on a small machine *)

Definition demo_elf : Elf64 :=
  {| elf_data := mjoin (header_fields demo_header) ++ program_header_bytes demo_segment ++ [0x90; 0x90; 0xeb; 0xfe];
     elf_around := fun _ => 0 |}.




(** 300 frames and an empty kernel table. *)
Definition exec_map : list MemoryDescriptor :=
  [ {| desc_ty := Conventional; desc_phys_start := 0x1000; desc_virt_start := 0; desc_page_cnt := 300; desc_attr := 0 |} ].

Definition exec_machine : Machine := snd (mem_init exec_map {| bmm := BitmapMemoryManager_new; phys := fun _ => 0 |}).

Definition exec_kernel : @PagingState Machine :=
  match UserPageTable_new exec_machine with
  | (Ok u, m) => {| machine := m; KERNEL_PML4_PHYS := match pml4_phys_addr u with Ok a => a | _ => 0 end; cr3 := 0 |}
  | (_, m) => {| machine := m; KERNEL_PML4_PHYS := 0; cr3 := 0 |}
  end.





(** Two files of a small system: the program above and one that is no program. *)
Definition write_file (path : Path) (data : list Z) (v : Vfs.Vfs (FS := RamFs) (Dev := unit)) : Vfs.Vfs (FS := RamFs) (Dev := unit) :=
  snd ((let! (n, _) := open_file path true in do! vfs_write_file n data in do! close_file n in sret tt) v).

Definition demo_files : Vfs.Vfs (FS := RamFs) (Dev := unit) :=
  Eval vm_compute in write_file (Path_new "/notes") [104; 105] (write_file (Path_new "/prog") (elf_data demo_elf) demo_mounted).

Definition demo_no_image : TaskImage := MkTaskImage "/kernel" Context_new (Scheduler.MkUserPageTable None []) None None [].

Definition demo_world : ExecWorld (FS := RamFs) (Dev := unit) (Dwarf := unit) :=
  MkExec (MkVfsWorld demo_files tt) exec_kernel (boot demo_no_image).

Lemma demo_plain path data :
  (path, data) = (Path_new "/prog", elf_data demo_elf) \/ (path, data) = (Path_new "/notes", [104; 105]) ->
  exists id f, plain_file (VFS (ew_files demo_world)) path id f data.
Proof.
  change (VFS (ew_files demo_world)) with demo_files. assert (fds demo_files = []) as Hfds by reflexivity.
  intros [[= -> ->]|[= -> ->]]; (eexists _, _; split; [vm_compute; reflexivity|vm_compute; reflexivity|reflexivity|vm_compute; reflexivity|
    rewrite Hfds; reflexivity|rewrite Hfds; apply not_elem_of_nil|vm_compute; reflexivity]).
Qed.

Lemma exec_elf_leaves_file_open_witness : exists x',
  exec_elf (fun _ => Panic) (Path_new "/notes") [] false (None, None, None) (fun _ => 0) demo_world
  = (Err (error_into (EElf64 InvalidMagicNumber)), x')
  /\ length (fds (VFS (ew_files x'))) = 1%nat
  /\ is_ok (fst (exec_elf (fun _ => Panic) (Path_new "/notes") [] false (None, None, None) (fun _ => 0) x')) = false.
Proof.
  destruct (demo_plain (Path_new "/notes") [104; 105] (or_intror eq_refl)) as (id & f & P).
  destruct (exec_elf_leaves_file_open (fun _ => Panic) demo_world (Path_new "/notes") [] false (None, None, None) (fun _ => 0) id f [104; 105] P
    ltac:(reflexivity) ltac:(vm_compute; reflexivity)) as (x' & H1 & H2 & H3).
  exists x'. split; [exact H1|]. split; [rewrite H2; reflexivity|]. rewrite H3. reflexivity.
Defined.

Lemma exec_elf_starts_program_witness :
  let run := exec_elf (fun _ => Panic) (Path_new "/prog") ["-v"] false (None, None, None) (fun _ => 0) demo_world in
  match Task_image USER_TASK_STACK_SIZE (Some {| elf_data := elf_data demo_elf; elf_around := fun _ => 0 |})
          (Some (path_str (Path_new "/prog") :: ["-v"])) ModeUser false (ew_memory demo_world) with
  | (Ok im, memory) => exists x', run = (Ok (NEXT (ew_sched demo_world)), x')
      /\ fds (VFS (ew_files x')) = [] /\ ew_memory x' = memory /\ length (ready_queue (TASK_SCHED (ew_sched x'))) = 1%nat
  | (Err err, _) => fst run = Err err
  | (Panic, _) => fst run = Panic
  end.
Proof.
  destruct (demo_plain (Path_new "/prog") (elf_data demo_elf) (or_introl eq_refl)) as (id & f & P).
  pose proof (exec_elf_starts_program (fun _ => Panic) demo_world (Path_new "/prog") ["-v"] false (None, None, None) (fun _ => 0) id f (elf_data demo_elf)
    None (set_task_state Running (MkTask 0 "/kernel" Ready Context_new (TaskResource_new (Scheduler.MkUserPageTable None []) None None [] (None, None, None)) None None None []))
    P ltac:(vm_compute; reflexivity) ltac:(vm_compute; reflexivity) eq_refl eq_refl) as H.
  cbv beta iota zeta in H |- *. destruct (Task_image _ _ _ _ _ _) as [[im|err|] memory].
  - eexists. split; [exact H|]. split; [reflexivity|]. split; reflexivity.
  - rewrite H. reflexivity.
  - exact H.
Defined.
