(* ===== verification/UserMem.v ===== *)
(** * Memory of a running program ([task/syscall.rs], [task/scheduler.rs])

    The system calls [sbrk], [free] and [sbrksz] and the functions of the scheduler
    behind them: frames from the allocator of [Bitmap] are mapped at their own address
    into the table of the running task, recorded in it and given back. *)
From Stdlib Require Import ZArith Lia.
From stdpp Require Import base gmap sets list strings.
From S2P Require Import Prelude KError Bitmap Scheduler Paging PagingTree PagingMap PagingRange PagingSpace PagingTask.
From S2P Require Import PagingBitmap Elf Loader LoaderSpec LoaderTask Exec.

#[local] Open Scope string_scope.
#[local] Open Scope list_scope.
#[local] Open Scope Z_scope.

Section UserMem.
Context {Dwarf : Type}.

Record UserWorld := MkUserWorld {
  uw_sched : Scheduler.World (Dwarf := Dwarf);
  uw_mem : @PagingState Machine
}.

Implicit Types w : UserWorld.

Definition on_tasks {A} (c : SR (Scheduler.World (Dwarf := Dwarf)) A) : SR UserWorld A := fun w =>
  let '(r, s) := c (uw_sched w) in (r, MkUserWorld s (uw_mem w)).
Definition on_frames {A} (c : SR Machine A) : SR UserWorld A := fun w =>
  let '(r, p) := on_kernel c (uw_mem w) in (r, MkUserWorld (uw_sched w) p).

(** An early return of [c] drops the frame. *)
Definition keeping {A} (f : MemoryFrame) (c : SR UserWorld A) : SR UserWorld A := fun w =>
  match c w with
  | (Err e, w') => (let? _ := MemoryFrame_drop f in Err e, w')
  | r => r
  end.

Definition with_page_table (pt : Scheduler.UserPageTable) (r : TaskResource) : TaskResource :=
  MkTaskResource pt (args_frame r) (stack_frame r) (program_frames r)
    (alloc_frames r) (created_layer_ids r) (fd_nums r) (pipe_fd r).

(** The table of a task as [Paging] has it. *)
Definition paging_table (pt : Scheduler.UserPageTable) : Paging.UserPageTable :=
  Paging.MkUserPageTable (Scheduler.pml4_frame pt) (Scheduler.allocated_frames pt).

(** [task.resource.page_table] of the running task. *)
Definition on_current_table {A} (c : SR Build A) : SR UserWorld A := fun w =>
  match current_task_mut (TASK_SCHED (uw_sched w)) with
  | Ok (t, write) =>
      let '(r, (u, p)) := c (paging_table (Scheduler.page_table (task_resource t)), uw_mem w) in
      (r, MkUserWorld (MkWorld (write (map_resource (with_page_table (task_table u)))) (NEXT (uw_sched w))) p)
  | Err e => (Err e, w)
  | Panic => (Panic, w)
  end.

(** The kernel runs on the table of the task and clears and fills the frame of a new table
    at the frame's own address: where the table has it not, that is a page fault. *)
Definition reached (m : Machine) (pt : Paging.UserPageTable) (f : MemoryFrame) : bool :=
  match pml4_phys_addr pt with
  | Ok root => bool_decide (calc_phys_addr m root (frame_start_phys_addr f) = Some (frame_start_phys_addr f))
  | _ => false
  end.

(** [c] changes the table it runs on; no address of another page than those it maps moves
    meanwhile, so that the frames of its new tables are looked up in the table before. *)
Definition on_own_table {A} (c : SR Build A) : SR Build A := fun s =>
  let '(r, s') := c s in
  let new_tables := drop (length (Paging.allocated_frames (fst s))) (Paging.allocated_frames (fst s')) in
  if forallb (reached (machine (snd s)) (fst s)) new_tables then (r, s') else (Panic, s').

Definition current_map_user_page (frame : MemoryFrame) : SR UserWorld unit :=
  on_current_table (on_own_table (
    let phys := frame_start_phys_addr frame in
    let start := phys in
    let! end_ := slift (VirtualAddress_offset start (frame_size frame)) in
    on_table (UserPageTable_map start end_ phys Write WriteThrough false))).

Definition current_unmap_user_page (frame : MemoryFrame) : SR UserWorld unit :=
  on_current_table (
    let start := frame_start_phys_addr frame in
    let! end_ := slift (VirtualAddress_offset start (frame_size frame)) in
    on_table (UserPageTable_unmap start end_)).

(** ** System calls *)

Definition sys_sbrk (len : Z) : SR UserWorld Z :=
  if len =? 0 then sret 0
  else
    let! total := slift (uadd 64 len PAGE_SIZE) in
    let! mem_frame := on_frames (alloc_multi_mem_frame (div_ceil total PAGE_SIZE)) in
    do! keeping mem_frame (current_map_user_page mem_frame) in
    let virt_addr := frame_start_phys_addr mem_frame in
    do! keeping mem_frame (on_tasks (current_add_mem_frame mem_frame)) in
    sret virt_addr.

Definition sys_free (ptr : Z) : SR UserWorld unit :=
  let! mem_frame := on_tasks (current_remove_mem_frame ptr) in
  do! keeping mem_frame (current_unmap_user_page mem_frame) in
  on_frames (dealloc_mem_frame mem_frame).

Definition sys_sbrksz (target : Z) : SR UserWorld Z :=
  let! size := on_tasks (current_mem_frame_size target) in
  slift (ok_or (with_context NotFound "memory frame size") size).

(** ** Lemmas *)

(** The running task has the blocks [us] from [sbrk], besides the runs [rs0] it was
    loaded with; every block is mapped at its own address. *)
Section Inv.
Context (s0 : @PagingState Machine) (X Y : gset Z) (rs0 : runs) (kr : Z).
Hypothesis K : kernel_ok s0 X Y.

(** The running task with its table and its blocks. *)
Definition running (us : runs) (ks : list Z) w : Prop :=
  exists t, current_task (TASK_SCHED (uw_sched w)) = Some t
    /\ Scheduler.page_table (task_resource t) = task_table (user_table kr ks)
    /\ alloc_frames (task_resource t) = run_frames us.

Record umem (us : runs) (ks : list Z) (ov : overlay) w : Prop := {
  um_task : running us ks w;
  um_linv : linv s0 X Y kr ks (rs0 ++ us) ov (user_table kr ks, uw_mem w);
  um_low : Forall (fun r => 1 <= fst r /\ fst r + snd r <= 2 ^ 27) us;
  um_identity : identity ov (runs_set us)
}.

Lemma paging_task_table u : paging_table (task_table u) = u.
Proof using. clear K. by destruct u. Qed.

(** A method of the table, in the task and in its memory. *)
Lemma on_current_table_run {A} (c : SR Build A) us ks w :
  running us ks w ->
  exists w', on_current_table c w = (fst (c (user_table kr ks, uw_mem w)), w')
    /\ uw_mem w' = snd (snd (c (user_table kr ks, uw_mem w)))
    /\ forall ks', fst (snd (c (user_table kr ks, uw_mem w))) = user_table kr ks' -> running us ks' w'.
Proof using. clear K.
  intros (t & Ht & Hp & Ha). unfold on_current_table, current_task_mut. rewrite Ht, Hp, paging_task_table.
  destruct (c (user_table kr ks, uw_mem w)) as [r [u p]]. eexists. split; [reflexivity|]. split; [done|].
  intros ks' Hu. cbn [fst snd] in Hu. subst u. eexists. split; [reflexivity|]. by split.
Qed.

Lemma add_frame_run us ks w k n :
  running us ks w ->
  exists w', on_tasks (current_add_mem_frame (frame_at k n)) w = (Ok tt, w') /\ uw_mem w' = uw_mem w
    /\ running (us ++ [(k, n)]) ks w'.
Proof using. clear K.
  intros (t & Ht & Hp & Ha). unfold on_tasks, current_add_mem_frame, locked, with_current, current_task_mut. rewrite Ht.
  eexists. split; [reflexivity|]. split; [done|]. eexists. split; [reflexivity|]. split; [done|].
  cbn. rewrite Ha. unfold run_frames. by rewrite fmap_app.
Qed.

Definition sbrk_pages (len : Z) : Z := div_ceil (len + PAGE_SIZE) PAGE_SIZE.

Lemma sbrk_pages_bound len : 0 < len < 2 ^ 63 -> 2 <= sbrk_pages len < 2 ^ 52 /\ len <= PAGE_SIZE * sbrk_pages len.
Proof using. clear K.
  intros H. unfold sbrk_pages, div_ceil, PAGE_SIZE. destruct (Z.eqb_spec ((len + 4096) mod 4096) 0); Z.div_mod_to_equations; lia.
Qed.

(** Frames left: those free before the task came, less its own. *)
Lemma linv_left ks rs ov st :
  linv s0 X Y kr ks rs ov st ->
  Z.of_nat (size (machine_free (machine (snd st)))) + spent ks rs = Z.of_nat (size (machine_free (machine s0))).
Proof using. clear K.
  intros L. pose proof (task_frames_size _ _ _ _ _ _ _ _ L) as Hs.
  destruct (li_free _ _ _ _ _ _ _ _ L) as [Hsub E].
  rewrite (union_difference_L _ _ Hsub), size_union by set_solver. rewrite <- E. lia.
Qed.

(** What the table translates. *)
Lemma linv_lookup ks rs ov st va :
  linv s0 X Y kr ks rs ov st -> canonical va ->
  calc_phys_addr (machine (snd st)) (kr * PAGE_SIZE) va = overlay_lookup ov (calc_phys_addr (machine s0) (KERNEL_PML4_PHYS s0)) va.
Proof using K.
  intros L Hva. destruct (li_space _ _ _ _ _ _ _ _ L) as (mi & fr & Hmi & I).
  pose proof (ref_tree s0 X Y K mi Hmi) as Ht. rewrite (space_lookup _ _ _ _ _ _ _ _ _ va Ht I Hva).
  unfold overlay_lookup. destruct (ov !! page_of va) as [[]|]; [done|done|].
  destruct K as [_ _ Ht0]. rewrite (calc_phys_leaf _ _ Y va Ht), (calc_phys_leaf _ _ Y va Ht0). f_equal. unfold leaf_at.
  by apply (same_on_leaf (machine s0) _ _ Y); [..|apply table_path_path|apply index_valid].
Qed.

Lemma umem_lookup us ks ov w va :
  umem us ks ov w -> canonical va ->
  calc_phys_addr (machine (uw_mem w)) (kr * PAGE_SIZE) va = overlay_lookup ov (calc_phys_addr (machine s0) (KERNEL_PML4_PHYS s0)) va.
Proof using K. intros U. exact (linv_lookup ks (rs0 ++ us) ov (user_table kr ks, uw_mem w) va (um_linv _ _ _ _ U)). Qed.

(** A free frame that the task's table has at its own address. *)
Definition at_own_address w (q : Z) : Prop :=
  calc_phys_addr (machine (uw_mem w)) (kr * PAGE_SIZE) (q * PAGE_SIZE) = Some (q * PAGE_SIZE).

(** No free frame is hidden by the task's table. *)
Definition free_reached w : Prop := forall q, q ∈ machine_free (machine (uw_mem w)) -> at_own_address w q.

Lemma linv_new_tables ks ks' rs ov ov' st st' :
  linv s0 X Y kr ks rs ov st -> linv s0 X Y kr (ks ++ ks') rs ov' st' ->
  Forall (fun q => q ∈ machine_free (machine (snd st))) ks'.
Proof using. clear K.
  intros L L'. apply Forall_forall. intros q Hq. pose proof (li_own_fresh _ _ _ _ _ _ _ _ L') as Hd.
  destruct (li_space _ _ _ _ _ _ _ _ L') as (mi & fr & _ & I). pose proof (si_nodup _ _ _ _ _ _ _ _ _ I) as Hnd.
  destruct (li_free _ _ _ _ _ _ _ _ L') as [Hsub _]. destruct (li_free _ _ _ _ _ _ _ _ L) as [_ ->]. unfold task_frames in *.
  rewrite own_set_app in Hsub, Hd. assert (q ∈ (list_to_set ks' : gset Z)) as Hq' by (by apply elem_of_list_to_set).
  rewrite app_comm_cons in Hnd. apply NoDup_app in Hnd as (_ & Hnd & _). apply elem_of_difference. split; [set_solver|].
  intros [Ho|Hr]%elem_of_union; [|set_solver]. unfold own_set in Ho. rewrite elem_of_list_to_set in Ho.
  apply (Hnd q); [|done]. unfold page_of in Ho. by rewrite Z.div_mul in Ho.
Qed.

(** The check on new tables passes, or a free frame is hidden. *)
Lemma new_tables_reached ks ks' rs ov ov' st st' :
  linv s0 X Y kr ks rs ov st -> linv s0 X Y kr (ks ++ ks') rs ov' st' ->
  forallb (reached (machine (snd st)) (fst st)) (drop (length (Paging.allocated_frames (fst st))) (Paging.allocated_frames (fst st'))) = true
  \/ exists q, q ∈ machine_free (machine (snd st))
       /\ calc_phys_addr (machine (snd st)) (kr * PAGE_SIZE) (q * PAGE_SIZE) <> Some (q * PAGE_SIZE).
Proof using. clear K.
  intros L L'. rewrite (li_table _ _ _ _ _ _ _ _ L), (li_table _ _ _ _ _ _ _ _ L'). cbn [user_table Paging.allocated_frames].
  unfold frames_of. rewrite fmap_app, drop_app_length. pose proof (linv_new_tables _ _ _ _ _ _ _ L L') as Hf.
  clear L L'. induction Hf as [|q qs Hq _ IH]; [by left|].
  cbn [fmap list_fmap forallb]. unfold reached at 1. cbn [user_table pml4_phys_addr Paging.pml4_frame unwrap obind frame_at frame_start_phys_addr].
  case_bool_decide as Hc; [|right; by exists q]. exact IH.
Qed.

Lemma sys_sbrk_run us ks ov w len :
  umem us ks ov w -> 0 < len < 2 ^ 63 ->
  let n := sbrk_pages len in
  match sys_sbrk len w with
  | (Ok p, w') => exists k ks' ov', p = k * PAGE_SIZE /\ umem (us ++ [(k, n)]) (ks ++ ks') ov' w'
      /\ Z.of_nat (length ks') <= tables_for n
      /\ run_set k n ## runs_set (rs0 ++ us) ∪ X
      /\ (forall q, ~ (q ∈ run_set k n) -> ov' !! q = ov !! q)
      /\ same_bytes (runs_set (rs0 ++ us) ∪ X) (machine (uw_mem w)) (machine (uw_mem w'))
  | (Err e, w') => e = not_found /\ w' = w /\ forall k, ~ run_set k n ⊆ machine_free (machine (uw_mem w))
  | (Panic, _) => Z.of_nat (size (machine_free (machine (uw_mem w)))) < run_cost n \/ ~ free_reached w
  end.
Proof using K.
  intros [Ut UL Ul Ui] Hlen n. destruct (sbrk_pages_bound len Hlen) as [Hn _]. fold n in Hn. unfold sys_sbrk.
  destruct (Z.eqb_spec len 0); [lia|]. unfold sbind at 1, slift, uadd.
  destruct (Z.ltb_spec (len + PAGE_SIZE) (2 ^ 64)); [|unfold PAGE_SIZE in *; lia]. fold (sbrk_pages len). fold n. unfold sbind at 1.
  pose proof (take_run s0 X Y K kr ks (rs0 ++ us) ov _ n UL ltac:(lia)) as Hta.
  unfold on_machine in Hta. unfold on_frames. cbn [fst snd] in Hta.
  destruct (on_kernel (alloc_multi_mem_frame n) (uw_mem w)) as [[f|e|] p1]; [| |done].
  2: { destruct Hta as ([= ->] & -> & Hno). split; [done|]. split; [by destruct w|done]. }
  destruct Hta as (k & -> & K1 & K2 & L1 & B1 & D1). cbn [snd] in B1.
  set (w1 := MkUserWorld (uw_sched w) p1). assert (running us ks w1) as Ut1 by exact Ut.
  pose proof (map_identity_run s0 X Y K kr ks _ ov _ k n L1 K1 ltac:(lia) K2) as Hm. change p1 with (uw_mem w1) in Hm.
  destruct (on_current_table_run (on_own_table (map_identity (frame_at k n))) us ks w1 Ut1) as (w2 & E2 & M2 & R2).
  unfold sbind at 1, keeping at 1. change (current_map_user_page (frame_at k n) w1) with (on_current_table (on_own_table (map_identity (frame_at k n))) w1).
  rewrite E2. unfold on_own_table in M2, R2 |- *.
  destruct (map_identity (frame_at k n) (user_table kr ks, uw_mem w1)) as [[[]|e|] st2]; cbn [fst snd] in *; [| |done].
  2: { destruct Hm as (_ & Hs). assert (Z.of_nat (size (machine_free (machine (uw_mem w)))) < run_cost n) as Hlow.
       { pose proof (linv_left _ _ _ _ UL) as A0. pose proof (linv_left _ _ _ _ L1) as A1.
         cbn [snd uw_mem] in *. unfold spent in *. rewrite (weight_app (rs0 ++ us)) in A1. cbn in A1. unfold run_cost. cbn [uw_mem w1] in Hs. lia. }
       change (MemoryFrame_drop (frame_at k n)) with (Panic : Result unit). by destruct (forallb _ _); left. }
  destruct Hm as (ks' & ov' & L2 & C2 & B2 & I2 & O2).
  pose proof (new_tables_reached _ _ _ _ _ _ _ L1 L2) as Hch. cbn [fst snd] in Hch. change p1 with (uw_mem w1) in Hch.
  destruct (forallb _ _); cbn [fst snd] in *.
  2: { right. intros Hr. destruct Hch as [Hch|(q & Hq & Hno)]; [done|]. apply Hno.
       destruct (li_free _ _ _ _ _ _ _ _ L1) as [_ F1]. destruct (li_free _ _ _ _ _ _ _ _ UL) as [_ F0]. cbn [fst snd uw_mem w1] in *.
       rewrite F1 in Hq. unfold free_reached, at_own_address in Hr. rewrite F0 in Hr.
       assert (canonical (q * PAGE_SIZE)) as Hc.
       { apply elem_of_difference in Hq as [[Hq _]%elem_machine_free _]. destruct K as [O _ _]. pose proof (mo_small _ _ O).
         left. unfold PAGE_SIZE. lia. }
       pose proof (linv_lookup _ _ _ _ (q * PAGE_SIZE) L1 Hc) as E1. pose proof (linv_lookup _ _ _ _ (q * PAGE_SIZE) UL Hc) as E0. cbn [snd] in E0, E1.
       rewrite E1, <- E0. apply Hr. unfold task_frames in *. rewrite (runs_set_app (rs0 ++ us)) in Hq. set_solver. }
  destruct (add_frame_run us (ks ++ ks') w2 k n (R2 _ (li_table _ _ _ _ _ _ _ _ L2))) as (w3 & E3 & M3 & R3).
  unfold sbind at 1, keeping. rewrite E3. cbn [sret].
  assert (st2 = (user_table kr (ks ++ ks'), uw_mem w3)) as Est.
  { rewrite M3, M2. rewrite <- (li_table _ _ _ _ _ _ _ _ L2). by destruct st2. }
  exists k, ks', ov'. split; [done|]. split; [|split; [done|split; [done|split; [done|]]]].
  - split; [done| | |].
    + rewrite <- app_assoc in L2. by rewrite <- Est.
    + apply Forall_app. split; [done|]. by apply Forall_singleton.
    + intros q. rewrite runs_set_app, runs_set_one, elem_of_union. cbn [fst snd]. intros [Hq|Hq]; [|by apply I2].
      rewrite O2; [by apply Ui|]. rewrite runs_set_app in D1. set_solver.
  - rewrite M3, M2. eapply same_bytes_trans; [exact B1|]. eapply same_bytes_sub; [exact B2|]. rewrite (runs_set_app (rs0 ++ us)). set_solver.
Qed.

(** Writes to a range of pages of the overlay. *)
Lemma range_write op k n ov q :
  op_pages op = step_by_page (k * PAGE_SIZE) (k * PAGE_SIZE + PAGE_SIZE * n) ->
  overlay_write op (op_pages op) ov !! q = if decide (q ∈ run_set k n) then Some (op_slot op (q * PAGE_SIZE)) else ov !! q.
Proof using. clear K.
  intros Hp. destruct (identity_aligned k n) as [H1 H2]. assert (q = page_of (q * PAGE_SIZE)) as E by (unfold page_of; by rewrite Z.div_mul).
  rewrite E at 1. rewrite overlay_write_lookup by (rewrite Hp; apply Forall_pages; [done|done|by intros]).
  assert (page_base (q * PAGE_SIZE) = q * PAGE_SIZE) as Hb by (unfold page_base; by rewrite <- E). rewrite Hb, <- E.
  assert (q * PAGE_SIZE ∈ op_pages op <-> q ∈ run_set k n) as Hq.
  { rewrite Hp, elem_of_step_by_page by done. rewrite elem_run_set. unfold page_aligned, PAGE_SIZE in *. rewrite Z.mod_mul by done. lia. }
  by repeat case_decide; tauto || done.
Qed.

Definition unmap_op (k n : Z) : SpaceOp := OpUnmap (k * PAGE_SIZE) (k * PAGE_SIZE + PAGE_SIZE * n).

Lemma unmap_run ks rs ov st k n :
  linv s0 X Y kr ks rs ov st -> 1 <= k -> 1 <= n -> k + n <= 2 ^ 27 -> identity ov (run_set k n) ->
  exists p, on_table (UserPageTable_unmap (k * PAGE_SIZE) (k * PAGE_SIZE + PAGE_SIZE * n)) st = (Ok tt, (user_table kr ks, p))
    /\ linv s0 X Y kr ks rs (overlay_write (unmap_op k n) (op_pages (unmap_op k n)) ov) (user_table kr ks, p)
    /\ same_bytes (runs_set rs ∪ X) (machine (snd st)) (machine p).
Proof using K.
  intros L Hk Hn Hb Hid. destruct (li_space _ _ _ _ _ _ _ _ L) as (mi & fr & Hmi & I). destruct (identity_aligned k n) as [H1 H2].
  assert (Y ⊆ runs_set rs ∪ X) as HYX by (pose proof (kernel_sub s0 X Y K); set_solver).
  assert (op_ok ov (unmap_op k n)) as Hop.
  { split_and!; [done|done|left; unfold PAGE_SIZE; lia|]. apply Forall_pages; [done|done|]. intros i Hi _.
    rewrite (Hid (page_of i)) by (apply run_offset; lia). done. }
  destruct (unmap_op_run mi fr (KERNEL_PML4_PHYS s0) (runs_set rs ∪ X) Y kr HYX ks ov _ _ _ I Hop) as (m1 & R1 & I1).
  unfold on_table. rewrite (li_table _ _ _ _ _ _ _ _ L), R1. eexists. split; [reflexivity|].
  rewrite <- (app_nil_r ks) in I1. pose proof (linv_space s0 X Y kr ks rs ov st mi fr [] _ m1 L Hmi I I1) as [L1 B1].
  rewrite app_nil_r in L1. by split.
Qed.

Lemma remove_frame_run us ks w ptr :
  running us ks w ->
  match on_tasks (current_remove_mem_frame ptr) w with
  | (Ok f, w') => exists us1 k n us2, us = us1 ++ (k, n) :: us2 /\ ptr = k * PAGE_SIZE /\ f = frame_at k n
      /\ running (us1 ++ us2) ks w' /\ uw_mem w' = uw_mem w
  | (Err e, w') => e = with_context InvalidData "virtual address" /\ w' = w /\ Forall (fun r => fst r * PAGE_SIZE <> ptr) us
  | (Panic, _) => False
  end.
Proof using. clear K.
  intros (t & Ht & Hp & Ha). unfold on_tasks, current_remove_mem_frame, locked, current_task_mut. rewrite Ht, Ha.
  destruct (list_find _ (run_frames us)) as [[i f]|] eqn:Hf.
  - apply list_find_Some in Hf as (Hi & Hptr & _). unfold run_frames in Hi. rewrite list_lookup_fmap in Hi.
    destruct (us !! i) as [[k n]|] eqn:Hu; [|done]. injection Hi as <-. apply list_elem_of_split_length in Hu as (us1 & us2 & -> & Hl).
    exists us1, k, n, us2. split_and!; [done|done|done| |done]. eexists. split; [reflexivity|]. split; [done|].
    cbn. rewrite Ha. unfold run_frames. rewrite !fmap_app. cbn [fmap list_fmap fst snd].
    rewrite <- (length_fmap (fun r => frame_at (fst r) (snd r)) us1) in Hl. by rewrite Hl, delete_middle.
  - split; [done|]. split; [by destruct w as [[]]|]. apply list_find_None in Hf. unfold run_frames in Hf. rewrite Forall_fmap in Hf. exact Hf.
Qed.
Lemma sys_free_run us ks ov w ptr :
  umem us ks ov w ->
  match sys_free ptr w with
  | (Ok _, w') => exists us1 k n us2 ov', us = us1 ++ (k, n) :: us2 /\ ptr = k * PAGE_SIZE /\ umem (us1 ++ us2) ks ov' w'
      /\ (forall q, ov' !! q = if decide (q ∈ run_set k n) then Some Hole else ov !! q)
      /\ same_bytes (runs_set (rs0 ++ us1 ++ us2) ∪ X) (machine (uw_mem w)) (machine (uw_mem w'))
  | (Err e, w') => e = with_context InvalidData "virtual address" /\ w' = w /\ Forall (fun r => fst r * PAGE_SIZE <> ptr) us
  | (Panic, _) => False
  end.
Proof using K.
  intros [Ut UL Ul Ui]. unfold sys_free, sbind at 1. pose proof (remove_frame_run us ks w ptr Ut) as Hr.
  destruct (on_tasks (current_remove_mem_frame ptr) w) as [[f|e|] w1]; [|done|done].
  destruct Hr as (us1 & k & n & us2 & -> & -> & -> & Ut1 & M1).
  apply Forall_app in Ul as [Ul1 [[Hk Hb] Ul2]%Forall_cons]. cbn [fst snd] in *.
  rewrite app_assoc in UL. destruct (runs_ok_remove _ _ _ (li_runs _ _ _ _ _ _ _ _ UL)) as (Hn & Hd & _). cbn [fst snd] in *.
  assert (identity ov (run_set k n)) as Hid by (intros q Hq; apply Ui; rewrite runs_set_app, runs_set_cons; set_solver).
  destruct (unmap_run ks _ ov _ k n UL Hk Hn Hb Hid) as (p & R2 & L2 & B2). rewrite <- M1 in R2.
  destruct (on_current_table_run (on_table (UserPageTable_unmap (k * PAGE_SIZE) (k * PAGE_SIZE + PAGE_SIZE * n))) (us1 ++ us2) ks w1 Ut1)
    as (w2 & E2 & M2 & Rn2). rewrite R2 in E2, M2, Rn2. cbn [fst snd] in *.
  assert (current_unmap_user_page (frame_at k n) w1 = (Ok tt, w2)) as Hun.
  { rewrite <- E2. unfold current_unmap_user_page. cbn [frame_at frame_start_phys_addr frame_size].
    unfold on_current_table, sbind, slift, VirtualAddress_offset, uadd.
    destruct (Z.ltb_spec (k * PAGE_SIZE + PAGE_SIZE * n) (2 ^ 64)); [done|unfold PAGE_SIZE in *; lia]. }
  unfold sbind, keeping. rewrite Hun. set (ov' := overlay_write _ _ _) in L2.
  destruct (free_run s0 X Y K kr ks (rs0 ++ us1) (k, n) us2 ov' _ L2) as (m' & R3 & L3 & B3). cbn [fst snd machine] in R3, B3.
  assert (dealloc_mem_frame (frame_at k n) (machine p) = (Ok tt, m')) as R4.
  { unfold dealloc_unwrap in R3. cbn [dealloc_page machine_mem] in R3. destruct (dealloc_mem_frame _ _) as [[[]|?|] ?]; [|done|done]. exact R3. }
  unfold on_frames, on_kernel. rewrite M2, R4. exists us1, k, n, us2, ov'. split; [done|]. split; [done|].
  assert (forall q, ov' !! q = if decide (q ∈ run_set k n) then Some Hole else ov !! q) as Hov by (intros q; by apply range_write).
  split; [|split; [done|]].
  - split.
    + destruct (Rn2 ks eq_refl) as (t & Ht & Hp & Ha). by exists t.
    + rewrite app_assoc. exact L3.
    + by apply Forall_app.
    + intros q Hq. rewrite Hov, decide_False; [apply Ui; rewrite runs_set_app, runs_set_cons in *; set_solver|].
      rewrite runs_set_app in Hd, Hq. rewrite runs_set_app in Hd. set_solver.
  - rewrite app_assoc. cbn [uw_mem machine]. eapply same_bytes_trans; [eapply same_bytes_sub; [exact B2|]|exact B3].
    rewrite !runs_set_app, runs_set_cons. set_solver.
Qed.

(** ** Programs as callers *)

Inductive mem_call := CallSbrk (len : Z) | CallFree (ptr : Z).

Definition run_call (c : mem_call) : SR UserWorld Z :=
  match c with CallSbrk len => sys_sbrk len | CallFree ptr => do! sys_free ptr in sret 0 end.

(** The calls of a program; nothing follows a panic. *)
Fixpoint run_calls (cs : list mem_call) w : list (Result Z) * UserWorld :=
  match cs with
  | [] => ([], w)
  | c :: cs =>
      match run_call c w with
      | (Panic, w) => ([Panic], w)
      | (r, w) => let '(rs, w) := run_calls cs w in (r :: rs, w)
      end
  end.

(** What a call does to the blocks of a program: the specification. *)
Inductive blocks_step (us : runs) : mem_call -> Result Z -> runs -> Prop :=
| step_sbrk_zero : blocks_step us (CallSbrk 0) (Ok 0) us
| step_sbrk len k :
    0 < len -> len <= PAGE_SIZE * sbrk_pages len -> 1 <= k -> run_set k (sbrk_pages len) ## runs_set us ->
    blocks_step us (CallSbrk len) (Ok (k * PAGE_SIZE)) (us ++ [(k, sbrk_pages len)])
| step_sbrk_none len : 0 < len -> blocks_step us (CallSbrk len) (Err not_found) us
| step_free us1 k n us2 :
    us = us1 ++ (k, n) :: us2 -> blocks_step us (CallFree (k * PAGE_SIZE)) (Ok 0) (us1 ++ us2)
| step_free_none ptr :
    Forall (fun r => fst r * PAGE_SIZE <> ptr) us ->
    blocks_step us (CallFree ptr) (Err (with_context InvalidData "virtual address")) us.

Inductive blocks_run : runs -> list mem_call -> list (Result Z) -> runs -> Prop :=
| run_nil us : blocks_run us [] [] us
| run_cons us c r us1 cs rs us2 :
    blocks_step us c r us1 -> blocks_run us1 cs rs us2 -> blocks_run us (c :: cs) (r :: rs) us2.

Definition call_ok (c : mem_call) : Prop := match c with CallSbrk len => 0 <= len < 2 ^ 63 | CallFree _ => True end.

(** The frames a call can take. *)
Definition call_cost (c : mem_call) : Z :=
  match c with CallSbrk len => if len =? 0 then 0 else run_cost (sbrk_pages len) | CallFree _ => 0 end.
Definition calls_cost (cs : list mem_call) : Z := foldr (fun c n => call_cost c + n) 0 cs.

Definition free_frames w : Z := Z.of_nat (size (machine_free (machine (uw_mem w)))).

Lemma call_cost_nonneg c : call_ok c -> 0 <= call_cost c.
Proof using. clear K.
  destruct c as [len|]; cbn; [|lia]. intros H. destruct (Z.eqb_spec len 0); [lia|]. destruct (sbrk_pages_bound len) as [Hn _]; [lia|].
  pose proof (tables_for_nonneg (sbrk_pages len) ltac:(lia)). unfold run_cost. lia.
Qed.

(** What is not a block is a hole, or was none and is as it was. *)
Definition holes (us : runs) (ov : overlay) (us' : runs) (ov' : overlay) : Prop :=
  forall q, ~ q ∈ runs_set us' -> ov' !! q = Some Hole \/ (~ q ∈ runs_set us /\ ov' !! q = ov !! q).

Lemma holes_refl us ov : holes us ov us ov.
Proof using. clear K. intros q Hq. by right. Qed.

Lemma holes_trans us1 ov1 us2 ov2 us3 ov3 : holes us1 ov1 us2 ov2 -> holes us2 ov2 us3 ov3 -> holes us1 ov1 us3 ov3.
Proof using. clear K.
  intros H1 H2 q Hq. destruct (H2 q Hq) as [E|[Hq2 E]]; [by left|]. rewrite E. exact (H1 q Hq2).
Qed.

(** What a call that is served does besides its result. *)
Record served (us : runs) (ov : overlay) w (c : mem_call) (r : Result Z) (us' : runs) (ks' : list Z) (ov' : overlay) w' : Prop := {
  sv_run : run_call c w = (r, w') /\ r <> Panic;
  sv_step : blocks_step us c r us';
  sv_umem : umem us' ks' ov' w';
  sv_frames : free_frames w - call_cost c <= free_frames w';
  sv_holes : holes us ov us' ov';
  sv_same : same_bytes (runs_set rs0 ∪ X) (machine (uw_mem w)) (machine (uw_mem w'));
  sv_reached : free_reached w -> free_reached w' \/ exists ptr, c = CallFree ptr /\ r = Ok 0
}.

(** A call that fails leaves everything as it was. *)
Lemma served_refused us ks ov w c r :
  umem us ks ov w -> run_call c w = (r, w) -> r <> Panic -> blocks_step us c r us -> 0 <= call_cost c -> served us ov w c r us ks ov w.
Proof using. clear K.
  intros U E Hp Hs Hc. split; [done|done|done|lia|apply holes_refl|by intros a|by left].
Qed.

Lemma free_canonical q : q ∈ machine_free (machine s0) -> canonical (q * PAGE_SIZE).
Proof using K.
  intros [Hq _]%elem_machine_free. destruct K as [O _ _]. pose proof (mo_small _ _ O). left. unfold PAGE_SIZE. lia.
Qed.

(** A new block hides no frame that stays free. *)
Lemma sbrk_reached us ks ov w k n ks' ov' w' :
  umem us ks ov w -> umem (us ++ [(k, n)]) (ks ++ ks') ov' w' -> (forall q, ~ (q ∈ run_set k n) -> ov' !! q = ov !! q) ->
  free_reached w -> free_reached w'.
Proof using K.
  intros U U' Ho Hr q Hq. destruct (li_free _ _ _ _ _ _ _ _ (um_linv _ _ _ _ U)) as [_ F].
  destruct (li_free _ _ _ _ _ _ _ _ (um_linv _ _ _ _ U')) as [_ F']. cbn [snd] in F, F'. rewrite F' in Hq.
  assert (canonical (q * PAGE_SIZE)) as Hc by (apply free_canonical; set_solver).
  unfold task_frames in Hq. rewrite own_set_app, runs_set_app, (runs_set_app us), runs_set_one in Hq. cbn [fst snd] in Hq.
  unfold at_own_address. rewrite (umem_lookup _ _ _ _ _ U' Hc). unfold overlay_lookup.
  assert (page_of (q * PAGE_SIZE) = q) as Hp by (unfold page_of; by rewrite Z.div_mul). rewrite Hp, Ho by set_solver.
  rewrite <- Hp at 1. fold (overlay_lookup ov (calc_phys_addr (machine s0) (KERNEL_PML4_PHYS s0)) (q * PAGE_SIZE)).
  rewrite <- (umem_lookup _ _ _ _ _ U Hc). apply Hr. rewrite F. unfold task_frames. rewrite runs_set_app. set_solver.
Qed.

Lemma sbrk_call_run us ks ov w len :
  umem us ks ov w -> 0 < len < 2 ^ 63 -> call_cost (CallSbrk len) <= free_frames w ->
  (exists r us' ks' ov' w', served us ov w (CallSbrk len) r us' ks' ov' w')
  \/ exists w', run_call (CallSbrk len) w = (Panic, w') /\ ~ free_reached w.
Proof using K.
  intros U Hlen Hc. destruct (sbrk_pages_bound len Hlen) as [Hn Hp]. pose proof (tables_for_nonneg (sbrk_pages len) ltac:(lia)).
  pose proof (call_cost_nonneg (CallSbrk len) ltac:(cbn; lia)) as Hc0.
  assert (call_cost (CallSbrk len) = run_cost (sbrk_pages len)) as Hcost by (cbn; destruct (Z.eqb_spec len 0); [lia|done]).
  pose proof (sys_sbrk_run us ks ov w len U Hlen) as Hr. cbv zeta in Hr. destruct (sys_sbrk len w) as [[p|e|] w'] eqn:E.
  - left. destruct Hr as (k & ks' & ov' & -> & U' & Hks & Hd & Ho & Hb). exists (Ok (k * PAGE_SIZE)), (us ++ [(k, sbrk_pages len)]), (ks ++ ks'), ov', w'.
    pose proof (um_low _ _ _ _ U') as Hl. apply Forall_app in Hl as [_ [[Hk _] _]%Forall_cons]. split; [done| |exact U'| | | |].
    + apply step_sbrk; [lia|done|done|]. rewrite runs_set_app in Hd. set_solver.
    + rewrite Hcost. pose proof (linv_left _ _ _ _ (um_linv _ _ _ _ U)) as A0. pose proof (linv_left _ _ _ _ (um_linv _ _ _ _ U')) as A1.
      cbn [snd] in A0, A1. unfold spent in *. rewrite app_assoc, (weight_app (rs0 ++ us)), length_app in A1. cbn in A1.
      unfold free_frames, run_cost. lia.
    + intros q. rewrite runs_set_app, runs_set_one. cbn [fst snd]. intros Hq. right. split; [set_solver|apply Ho; set_solver].
    + eapply same_bytes_sub; [exact Hb|]. rewrite runs_set_app. set_solver.
    + intros Hr. left. by apply (sbrk_reached us ks ov w k (sbrk_pages len) ks' ov' w').
  - left. destruct Hr as (-> & -> & _). exists (Err not_found), us, ks, ov, w. apply served_refused; [done|done|done|apply step_sbrk_none; lia|done].
  - right. exists w'. split; [done|]. destruct Hr as [Hlow|Hr]; [unfold free_frames in Hc; lia|done].
Qed.

Lemma free_call_run us ks ov w ptr :
  umem us ks ov w -> exists r us' ov' w', served us ov w (CallFree ptr) r us' ks ov' w'.
Proof using K.
  intros U. pose proof (sys_free_run us ks ov w ptr U) as Hr. destruct (sys_free ptr w) as [[[]|e|] w'] eqn:E; [| |done].
  - destruct Hr as (us1 & k & n & us2 & ov' & -> & -> & U' & Ho & Hb). exists (Ok 0), (us1 ++ us2), ov', w'.
    split; [|by eapply step_free|exact U'| | | |].
    + cbn [run_call]. unfold sbind. by rewrite E.
    + pose proof (linv_left _ _ _ _ (um_linv _ _ _ _ U)) as A0. pose proof (linv_left _ _ _ _ (um_linv _ _ _ _ U')) as A1.
      pose proof (li_runs _ _ _ _ _ _ _ _ (um_linv _ _ _ _ U)) as Hok. rewrite app_assoc in Hok.
      destruct (runs_ok_remove _ _ _ Hok) as (Hn & _). cbn [fst snd] in *. unfold spent in *.
      rewrite !weight_app in A0, A1. rewrite weight_cons in A0. cbn [fst snd] in A0. unfold free_frames, call_cost. lia.
    + intros q Hq. rewrite Ho. case_decide as Hk; [by left|]. right. split; [|done].
      rewrite runs_set_app in Hq. rewrite runs_set_app, runs_set_cons. cbn [fst snd]. set_solver.
    + eapply same_bytes_sub; [exact Hb|]. rewrite runs_set_app. set_solver.
    + intros _. right. by exists (k * PAGE_SIZE).
  - destruct Hr as (-> & -> & Hf). exists (Err (with_context InvalidData "virtual address")), us, ov, w.
    apply served_refused; [done| |done|by apply step_free_none|done]. cbn [run_call]. unfold sbind. by rewrite E.
Qed.

Lemma call_run us ks ov w c :
  umem us ks ov w -> call_ok c -> call_cost c <= free_frames w ->
  (exists r us' ks' ov' w', served us ov w c r us' ks' ov' w')
  \/ exists len w', c = CallSbrk len /\ run_call c w = (Panic, w') /\ ~ free_reached w.
Proof using K.
  intros U Hok Hc. destruct c as [len|ptr]; cbn [call_ok] in Hok.
  - destruct (Z.eq_dec len 0) as [->|Hz].
    + left. exists (Ok 0), us, ks, ov, w. apply served_refused; [done|done|done|constructor|done].
    + destruct (sbrk_call_run us ks ov w len U ltac:(lia) Hc) as [?|(w' & E & Hr)]; [by left|]. right. by exists len, w'.
  - left. destruct (free_call_run us ks ov w ptr U) as (r & us' & ov' & w' & S). by exists r, us', ks, ov', w'.
Qed.

(** A block was given back. *)
Definition freed (cs : list mem_call) (rs : list (Result Z)) : Prop :=
  exists i ptr, cs !! i = Some (CallFree ptr) /\ rs !! i = Some (Ok 0).

(** An [sbrk] that the kernel does not survive: it finds a free frame that the table of the
    task hides. *)
Definition faults us w (cs : list mem_call) : Prop :=
  exists cs1 len cs2 rs us' w1 w', cs = cs1 ++ CallSbrk len :: cs2
    /\ run_calls cs1 w = (rs, w1) /\ run_calls cs w = (rs ++ [Panic], w')
    /\ blocks_run us cs1 rs us' /\ ~ free_reached w1 /\ (free_reached w -> freed cs1 rs).

Lemma faults_cons us us1 w w1 c r cs :
  run_call c w = (r, w1) -> r <> Panic -> blocks_step us c r us1 ->
  (free_reached w -> free_reached w1 \/ exists ptr, c = CallFree ptr /\ r = Ok 0) -> faults us1 w1 cs -> faults us w (c :: cs).
Proof using. clear K.
  intros E Hp Hs Hr (cs1 & len & cs2 & rs & us' & w2 & w' & -> & E1 & E' & Hrun & Hw2 & Hf).
  exists (c :: cs1), len, cs2, (r :: rs), us', w2, w'. split; [done|]. split; [cbn [run_calls]; rewrite E, E1; by destruct r|].
  split; [cbn [app run_calls]; rewrite E, E'; by destruct r|]. split; [by econstructor|]. split; [done|]. intros Hw. destruct (Hr Hw) as [Hw1|(ptr & -> & ->)]; [|by exists 0%nat, ptr].
  destruct (Hf Hw1) as (i & ptr & H1 & H2). by exists (S i), ptr.
Qed.

Lemma calls_run cs : forall us ks ov w,
  umem us ks ov w -> Forall call_ok cs -> calls_cost cs <= free_frames w ->
  (exists rs us' ks' ov' w', run_calls cs w = (rs, w') /\ blocks_run us cs rs us' /\ umem us' ks' ov' w'
     /\ holes us ov us' ov' /\ same_bytes (runs_set rs0 ∪ X) (machine (uw_mem w)) (machine (uw_mem w')))
  \/ faults us w cs.
Proof using K.
  induction cs as [|c cs IH]; intros us ks ov w U Hok Hc.
  { left. exists [], us, ks, ov, w. split_and!; [done|constructor|done|apply holes_refl|by intros a]. }
  apply Forall_cons in Hok as [Hok1 Hok]. cbn in Hc. fold (calls_cost cs) in Hc.
  assert (0 <= calls_cost cs) as Hcs.
  { clear -Hok. induction Hok as [|c' cs' H _ IH]; cbn; [lia|]. fold (calls_cost cs'). pose proof (call_cost_nonneg c' H). lia. }
  destruct (call_run us ks ov w c U Hok1 ltac:(lia)) as [(r & us1 & ks1 & ov1 & w1 & [[E1 P1] S1 U1 F1 J1 B1 R1])|(len & w' & -> & E & Hr)].
  2: { right. exists [], len, cs, [], us, w, w'. split_and!; [done|done|cbn [run_calls]; by rewrite E|constructor|done|done]. }
  destruct (IH us1 ks1 ov1 w1 U1 Hok ltac:(lia)) as [(rs & us2 & ks2 & ov2 & w2 & E2 & S2 & U2 & J2 & B2)|Hf].
  2: { right. by eapply faults_cons. }
  left. exists (r :: rs), us2, ks2, ov2, w2. cbn [run_calls]. rewrite E1, E2.
  split_and!; [by destruct r|by econstructor|done|by eapply holes_trans|by eapply same_bytes_trans].
Qed.

(** On the tables that are built at boot a new table of a task hides nothing. *)
Lemma new_table_reached us ks w total :
  umem us ks ∅ w ->
  (forall va, canonical va ->
     calc_phys_addr (machine s0) (KERNEL_PML4_PHYS s0) va = if decide (PAGE_SIZE <= va < total * PAGE_SIZE) then Some va else None) ->
  total_frame_len (bmm (machine s0)) = total -> free_reached w.
Proof using K.
  intros U Hva Ht q Hq. destruct (li_free _ _ _ _ _ _ _ _ (um_linv _ _ _ _ U)) as [_ F]. cbn [snd] in F. rewrite F in Hq.
  apply elem_of_difference in Hq as [Hq _]. pose proof (free_canonical q Hq) as Hc.
  unfold at_own_address. rewrite (umem_lookup us ks ∅ w _ U Hc). unfold overlay_lookup. rewrite lookup_empty, Hva by done.
  apply elem_machine_free in Hq as [Hq _]. rewrite decide_True; [done|unfold PAGE_SIZE; lia].
Qed.

(** Every block is the program's to read and write at its own address. *)
Lemma block_user_byte us ks ov w k n va :
  umem us ks ov w -> (k, n) ∈ us -> k * PAGE_SIZE <= va < k * PAGE_SIZE + PAGE_SIZE * n ->
  user_byte (machine (uw_mem w)) (kr * PAGE_SIZE) va (phys (machine (uw_mem w)) va).
Proof using. clear K.
  intros [_ L Hl Hi] Hin Hva. rewrite Forall_forall in Hl. destruct (Hl _ Hin) as [Hk Hb]. cbn [fst snd] in *.
  apply (identity_user_byte s0 X Y kr ks (rs0 ++ us) ov (user_table kr ks, uw_mem w) k n va L); [|done|done|done].
  intros q Hq. apply Hi. apply list_elem_of_split in Hin as (us1 & us2 & ->). rewrite runs_set_app, runs_set_cons. set_solver.
Qed.

End Inv.

(** Lengths of the last page of the address space overflow. *)
Lemma sbrk_overflow_panics len w : 2 ^ 64 - PAGE_SIZE <= len < 2 ^ 64 -> sys_sbrk len w = (Panic, w).
Proof.
  intros H. unfold sys_sbrk, sbind, slift, uadd. destruct (Z.eqb_spec len 0); [unfold PAGE_SIZE in *; lia|].
  by destruct (Z.ltb_spec (len + PAGE_SIZE) (2 ^ 64)); [lia|].
Qed.

(** ** Properties *)

(** C12: the memory calls of a program.  Over any sequence of [sbrk] and [free] that the
    free frames can serve, tables included, by a task whose table hides no free frame
    from the kernel, the results are those of a set of blocks: [sbrk] returns the address
    of a new block, apart from all others and with room for the length asked for, or
    fails; [free] takes a block by its address and refuses any other pointer.  Every
    block can be read and written by the program at its own address, the addresses of a
    block that was freed translate to nothing and the other addresses as before; exactly
    its frames, the tables and what the program was loaded with are not free; and
    neither the kernel's translations nor the memory of others nor that of the loaded
    program change.  The one thing that can go wrong is a page fault of the kernel in an
    [sbrk]: only after a block was freed, when the task's table hides a free frame, and
    the calls before it are still those of the blocks. *)
Theorem user_memory_refines_blocks s0 X Y rs0 kr us ks ov w (cs : list mem_call) :
  kernel_ok s0 X Y -> umem s0 X Y rs0 kr us ks ov w -> free_reached kr w ->
  Forall call_ok cs -> calls_cost cs <= free_frames w ->
  let '(rs, w') := run_calls cs w in
  (exists us' ks', blocks_run us cs rs us'
    /\ (forall k n va, (k, n) ∈ us' -> k * PAGE_SIZE <= va < k * PAGE_SIZE + PAGE_SIZE * n ->
          user_byte (machine (uw_mem w')) (kr * PAGE_SIZE) va (phys (machine (uw_mem w')) va))
    /\ (forall va, canonical va -> ~ page_of va ∈ runs_set us' ->
          calc_phys_addr (machine (uw_mem w')) (kr * PAGE_SIZE) va = None
          \/ ~ page_of va ∈ runs_set us
             /\ calc_phys_addr (machine (uw_mem w')) (kr * PAGE_SIZE) va = calc_phys_addr (machine (uw_mem w)) (kr * PAGE_SIZE) va)
    /\ running kr us' ks' w'
    /\ machine_free (machine (uw_mem w')) = machine_free (machine s0) ∖ task_frames kr ks' (rs0 ++ us')
    /\ (forall va, calc_phys_addr (machine (uw_mem w')) (KERNEL_PML4_PHYS s0) va = calc_phys_addr (machine s0) (KERNEL_PML4_PHYS s0) va)
    /\ same_bytes (runs_set rs0 ∪ X) (machine (uw_mem w)) (machine (uw_mem w')))
  \/ (exists cs1 len cs2 rs1 us1 w1, cs = cs1 ++ CallSbrk len :: cs2 /\ run_calls cs1 w = (rs1, w1) /\ rs = rs1 ++ [Panic]
        /\ blocks_run us cs1 rs1 us1 /\ freed cs1 rs1 /\ ~ free_reached kr w1).
Proof.
  intros K U Hr Hok Hc. destruct (calls_run s0 X Y rs0 kr K cs us ks ov w U Hok Hc) as [(rs & us' & ks' & ov' & w' & -> & Hrun & U' & Hh & Hb)|Hf].
  2: { destruct Hf as (cs1 & len & cs2 & rs & us1 & w1 & w' & -> & E1 & -> & Hrun & Hw1 & Hf). right. exists cs1, len, cs2, rs, us1, w1.
       split_and!; [done..|by apply Hf|done]. }
  left. exists us', ks'. pose proof (um_linv _ _ _ _ _ _ _ _ _ U') as L. split_and!; [done| | |apply U'| | |done].
  - intros k n va. by apply (block_user_byte s0 X Y rs0 kr us' ks' ov' w').
  - intros va Hva Hq. rewrite (umem_lookup s0 X Y rs0 kr K us' ks' ov' w' va U' Hva), (umem_lookup s0 X Y rs0 kr K us ks ov w va U Hva).
    unfold overlay_lookup. destruct (Hh _ Hq) as [->|[Hn ->]]; [by left|by right].
  - apply (li_free _ _ _ _ _ _ _ _ L).
  - intros va. exact (kernel_kept s0 X Y K kr ks' _ ov' _ va L).
Qed.
End UserMem.

(** Eighty frames, the kernel's tables, and a task with a new table. *)
Definition user_map : list MemoryDescriptor :=
  [ {| desc_ty := Conventional; desc_phys_start := 0x1000; desc_virt_start := 0; desc_page_cnt := 80; desc_attr := 0 |} ].

Definition user_machine : Machine := snd (mem_init user_map {| bmm := BitmapMemoryManager_new; phys := fun _ => 0 |}).

Lemma user_owns : machine_owns user_machine ∅.
Proof.
  destruct (mem_init_owns user_map (List.nth 0 user_map (MkDesc MemReserved 0 0 0 0))
              {| bmm := BitmapMemoryManager_new; phys := fun _ => 0 |}) as (s' & Hrun & Ho & _);
    [|done|by vm_compute|done|].
  - constructor; [|apply (bool_decide_unpack _); by vm_compute]. repeat constructor; vm_compute; by intros.
  - unfold user_machine. by rewrite Hrun.
Qed.

Definition user_kernel : @PagingState Machine := snd (kernel_init 0x1000 0x52000 (MkPaging user_machine 0 0)).

Lemma user_kernel_ok : exists Y, kernel_ok user_kernel Y Y
  /\ forall va, canonical va ->
       calc_phys_addr (machine user_kernel) (KERNEL_PML4_PHYS user_kernel) va = if decide (0x1000 <= va < 0x52000) then Some va else None.
Proof.
  destruct (kernel_init_run (MkPaging user_machine 0 0) ∅ 0x1000 0x52000) as (s' & Y & R & Hok & _ & _ & _ & Hva);
    [exact user_owns|done|done|done|done|by vm_compute|].
  exists Y. unfold user_kernel. rewrite R. rewrite (right_id_L ∅ (∪)) in Hok. by split.
Qed.

Definition mem_demo : UserWorld (Dwarf := unit) :=
  let '(u, s) := match new_cloned_from_kernel user_kernel with
                 | (Ok u, s) => (task_table u, s)
                 | (_, s) => (Scheduler.MkUserPageTable None [], s)
                 end in
  MkUserWorld (boot (MkTaskImage "/demo" Context_new u None None [])) s.

Lemma mem_demo_ok X Y : kernel_ok user_kernel X Y -> exists kr, umem user_kernel X Y [] kr [] [] ∅ mem_demo.
Proof.
  intros K. pose proof (new_cloned_linv user_kernel X Y K) as Hn. unfold mem_demo.
  destruct (new_cloned_from_kernel user_kernel) as [[u|e|] s1].
  - destruct Hn as (kr & -> & L). exists kr. split; [|exact L|done|].
    + eexists. split; [reflexivity|]. by split.
    + intros q Hq. change (runs_set []) with (∅ : gset Z) in Hq. by apply elem_of_empty in Hq.
  - exfalso. destruct Hn as (_ & _ & Hav). revert Hav. vm_compute. discriminate.
  - done.
Qed.

Lemma mem_demo_reached Y kr :
  kernel_ok user_kernel Y Y -> umem user_kernel Y Y [] kr [] [] ∅ mem_demo ->
  (forall va, canonical va ->
     calc_phys_addr (machine user_kernel) (KERNEL_PML4_PHYS user_kernel) va = if decide (0x1000 <= va < 0x52000) then Some va else None) ->
  free_reached kr mem_demo.
Proof.
  intros K U Hva. apply (new_table_reached user_kernel Y Y [] kr K [] [] mem_demo 82 U); [exact Hva|]. vm_compute. reflexivity.
Qed.

Lemma user_memory_refines_blocks_witness :
  exists rs us', blocks_run [] [CallSbrk 5000; CallSbrk 100; CallFree 0x7000] rs us'.
Proof.
  destruct user_kernel_ok as (Y & K & Hva). destruct (mem_demo_ok Y Y K) as [kr U].
  assert (calls_cost [CallSbrk 5000; CallSbrk 100; CallFree 0x7000] <= free_frames mem_demo) as Hc by (vm_compute; discriminate).
  pose proof (user_memory_refines_blocks user_kernel Y Y [] kr [] [] ∅ mem_demo [CallSbrk 5000; CallSbrk 100; CallFree 0x7000] K U
    (mem_demo_reached Y kr K U Hva) ltac:(repeat (apply Forall_cons_2; [cbn; lia || exact I|]); apply Forall_nil_2) Hc) as H.
  destruct (run_calls _ mem_demo) as [rs w']. destruct H as [(us' & ks' & Hrun & _)|(cs1 & len & cs2 & rs1 & us1 & w1 & Hcs & _ & _ & _ & Hf & _)].
  - exists rs, us'. exact Hrun.
  - exfalso. destruct Hf as (i & ptr & H1 & _).
    destruct cs1 as [|c1 [|c2 [|c3 [|c4 cs1]]]]; [destruct i; discriminate H1| | |injection Hcs; discriminate|injection Hcs; discriminate].
    + injection Hcs as <- _ _. destruct i as [|[|i]]; discriminate H1.
    + discriminate Hcs.
Defined.

(** Fourteen free frames below and twelve in another region of 2 MiB, which needs a table
    of its own: after the first block was given back, its first frame becomes that table
    and the kernel faults. *)
Definition two_regions : list MemoryDescriptor :=
  [ {| desc_ty := Conventional; desc_phys_start := 0x1000; desc_virt_start := 0; desc_page_cnt := 14; desc_attr := 0 |};
    {| desc_ty := Conventional; desc_phys_start := 0x200000; desc_virt_start := 0; desc_page_cnt := 12; desc_attr := 0 |} ].

Definition two_regions_demo : UserWorld (Dwarf := unit) :=
  let m := snd (mem_init two_regions {| bmm := BitmapMemoryManager_new; phys := fun _ => 0 |}) in
  let k := snd (kernel_init 0x1000 0x10000 (MkPaging m 0 0)) in
  match new_cloned_from_kernel k with
  | (Ok u, s) => MkUserWorld (boot (MkTaskImage "/demo" Context_new (task_table u) None None [])) s
  | (_, s) => mem_demo
  end.

Example sbrk_after_free_faults :
  fst (run_calls [CallSbrk 5000; CallFree 0x7000; CallSbrk (8 * PAGE_SIZE)] two_regions_demo) = [Ok 0x7000; Ok 0; Panic].
Proof. vm_compute. reflexivity. Qed.
