(* ===== verification/TaskExit.v ===== *)
(** * The end of a task ([Drop for TaskResource] of [task/mod.rs])

    A task that is dropped gives its frames back, removes its windows, closes its files
    and gives the frames of its page table back. *)
From Stdlib Require Import ZArith Lia.
From stdpp Require Import base gmap sets list relations strings.
From S2P Require Import Prelude Path KError Windows Bitmap Scheduler Vfs VfsFiles Paging PagingTree PagingMap PagingRange PagingSpace PagingTask.
From S2P Require Import PagingBitmap Elf Loader LoaderSpec LoaderTask Exec UserMem.

#[local] Open Scope string_scope.
#[local] Open Scope list_scope.
#[local] Open Scope Z_scope.

Section TaskExit.
Context {FS Dev Dwarf : Type} `{FileSystem FS}.



(** [vfs::close_file(fd).unwrap()] *)
Definition close_unwrap (fd : Z) : SR (VfsWorld (FS := FS) (Dev := Dev)) unit := fun f =>
  match sys_close_file (MkFd fd) f with
  | (Ok _, f) => (Ok tt, f)
  | (_, f) => (Panic, f)
  end.


(** ** Closing files *)

#[local] Abbreviation Vfs := (Vfs.Vfs (FS := FS) (Dev := Dev)).
Implicit Types v : Vfs.


Definition open_numbers v : list FileDescriptorNumber := fd_num <$> fds v.








(** A task whose file was closed by another one does not end. *)
Lemma closed_file_panics nums n f : MkFd n ∉ open_numbers (VFS f) -> fst (sfor (n :: nums) close_unwrap f) = Panic.
Proof.
  intros Hn. cbn [sfor]. unfold sbind, close_unwrap, sys_close_file, on_vfs. unfold close_file, sbind, sget, slift.
  destruct (fd_find (VFS f) (MkFd n)) as [[i fd]|] eqn:E; [|done].
  apply list_find_Some in E as (Hi & Hx & _). destruct Hn. unfold open_numbers. rewrite <- Hx. apply list_elem_of_fmap_2. by eapply list_elem_of_lookup_2.
Qed.

(** ** What a program does to its memory *)

Implicit Types w : UserWorld (Dwarf := Dwarf).



















Section Task.
Context (s : @PagingState Machine) (X Y : gset Z) (prs : runs) (kst nst ka na kr : Z).
Hypothesis K : kernel_ok s X Y.





End Task.

(** ** Properties *)

End TaskExit.










