(* ===== verification/Fat.v ===== *)
(** * The FAT32 file system ([kernel/src/fs/fat])

    A volume lies in memory, a function from addresses to bytes, from its start
    address on.  The file system is read-only: it reads the boot sector, follows
    chains of clusters in the file allocation table and scans directories with
    short and long names.  The loop over a chain runs at most [2 ^ 28] rounds,
    as many as there are cluster numbers: [Fat] takes a chain that is longer, and
    so never ends, as a panic. *)
From Stdlib Require Import ZArith Lia Ascii.
From stdpp Require Import base list strings.
From S2P Require Import Prelude Utf8 Path KError Vfs Paging.

#[local] Open Scope string_scope.
#[local] Open Scope list_scope.
#[local] Open Scope Z_scope.

(** ** The boot sector ([boot_sector.rs]) *)

Inductive FatType := Fat12 | Fat16 | Fat32.

#[export] Instance FatType_eq_dec : EqDecision FatType.
Proof. solve_decision. Defined.

Record BootSectorFat32OtherField := MkOtherField {
  fat_size32 : list Z;
  ext_flags : list Z;
  fs_version : list Z;
  root_cluster : list Z;
  fs_info : list Z;
  backup_boot_sector : list Z;
  reserved0 : list Z;
  drive_num : Z;
  reserved1 : Z;
  ext_boot_sign : Z;
  volume_id : list Z;
  volume_label : list Z;
  fs_type : list Z;
  boot_code32 : list Z;
  boot_sign : list Z
}.

Definition fs_info_sector_num (o : BootSectorFat32OtherField) : Z := from_le_bytes (fs_info o).
Definition fat_size (o : BootSectorFat32OtherField) : Z := from_le_bytes (fat_size32 o).
Definition other_root_cluster_num (o : BootSectorFat32OtherField) : Z := from_le_bytes (root_cluster o).

Record BootSector := MkBootSector {
  jmp_boot : list Z;
  bs_oem_name : list Z;
  bs_bytes_per_sector : list Z;
  bs_sectors_per_cluster : Z;
  reserved_sector_count : list Z;
  bs_num_fats : Z;
  bs_root_entry_count : list Z;
  total_sector16 : list Z;
  media : Z;
  bs_fat_size16 : list Z;
  sectors_per_track : list Z;
  num_heads : list Z;
  hidden_sectors : list Z;
  total_sector32 : list Z;
  other_field : list Z
}.

(** A field of [len] bytes at [offset] of a [repr(C)] struct. *)
Definition field (raw : list Z) (offset len : nat) : list Z := take len (drop offset raw).
Definition field8 (raw : list Z) (offset : nat) : Z := nth offset raw 0.

(** [transmute] of the last field. *)
Definition other_field_of (raw : list Z) : BootSectorFat32OtherField :=
  {| fat_size32 := field raw 0 4; ext_flags := field raw 4 2; fs_version := field raw 6 2;
     root_cluster := field raw 8 4; fs_info := field raw 12 2; backup_boot_sector := field raw 14 2;
     reserved0 := field raw 16 12; drive_num := field8 raw 28; reserved1 := field8 raw 29;
     ext_boot_sign := field8 raw 30; volume_id := field raw 31 4; volume_label := field raw 35 11;
     fs_type := field raw 46 8; boot_code32 := field raw 54 420; boot_sign := field raw 474 2 |}.

Definition boot_sector_of (raw : list Z) : BootSector :=
  {| jmp_boot := field raw 0 3; bs_oem_name := field raw 3 8; bs_bytes_per_sector := field raw 11 2;
     bs_sectors_per_cluster := field8 raw 13; reserved_sector_count := field raw 14 2;
     bs_num_fats := field8 raw 16; bs_root_entry_count := field raw 17 2;
     total_sector16 := field raw 19 2; media := field8 raw 21; bs_fat_size16 := field raw 22 2;
     sectors_per_track := field raw 24 2; num_heads := field raw 26 2;
     hidden_sectors := field raw 28 4; total_sector32 := field raw 32 4;
     other_field := field raw 36 476 |}.

Section BootSector.
Implicit Types b : BootSector.

Definition bytes_per_sector b : Z := from_le_bytes (bs_bytes_per_sector b).
Definition sectors_per_cluster b : Z := bs_sectors_per_cluster b.
Definition num_fats b : Z := bs_num_fats b.
Definition fat_size16 b : Z := from_le_bytes (bs_fat_size16 b).
Definition root_entry_count b : Z := from_le_bytes (bs_root_entry_count b).
Definition reserved_sectors b : Z := from_le_bytes (reserved_sector_count b).
Definition oem_name b : list Z := from_utf8_lossy (bs_oem_name b).

Definition fat_sectors16 b : Result Z := umul 64 (fat_size16 b) (num_fats b).

Definition total_sectors b : Z :=
  let total16 := from_le_bytes (total_sector16 b) in
  let total32 := from_le_bytes (total_sector32 b) in
  if total16 =? 0 then total32 else total16.

Definition root_dir_start_sector16 b : Result Z :=
  let? s := fat_sectors16 b in uadd 64 (reserved_sectors b) s.

Definition root_dir_sectors16 b : Result Z :=
  let? n := umul 64 (root_entry_count b) 32 in
  let? n := uadd 64 n (bytes_per_sector b) in
  let? n := usub 64 n 1 in
  udiv n (bytes_per_sector b).

Definition data_start_sector16 b : Result Z :=
  let? s := root_dir_start_sector16 b in
  let? n := root_dir_sectors16 b in
  uadd 64 s n.

Definition data_sectors16 b : Result Z :=
  let? s := data_start_sector16 b in usub 64 (total_sectors b) s.

Definition data_clusters b : Result Z :=
  let? n := data_sectors16 b in udiv n (sectors_per_cluster b).

Definition fat_type b : Result FatType :=
  let? n := data_clusters b in
  Ok (if n <=? 4085 then Fat12 else if n <=? 65525 then Fat16 else Fat32).

Definition fat32_other_field b : Result (option BootSectorFat32OtherField) :=
  let? t := fat_type b in
  Ok (if decide (t = Fat32) then Some (other_field_of (other_field b)) else None).

Definition fat_sectors32 b : Result (option Z) :=
  let? o := fat32_other_field b in
  match o with
  | Some other => let? n := umul 64 (fat_size other) (num_fats b) in Ok (Some n)
  | None => Ok None
  end.

Definition data_start_sector32 b : Result (option Z) :=
  let? o := fat_sectors32 b in
  match o with
  | Some n => let? s := uadd 64 (reserved_sectors b) n in Ok (Some s)
  | None => Ok None
  end.

Definition data_sectors32 b : Result (option Z) :=
  let? o := data_start_sector32 b in
  match o with
  | Some s => let? n := usub 64 (total_sectors b) s in Ok (Some n)
  | None => Ok None
  end.

End BootSector.

(** ** Directory entries ([dir_entry.rs]) *)

Inductive Attribute :=
| AttrReadOnly
| AttrHidden
| AttrSystem
| AttrVolumeLabel
| AttrLongFileName
| AttrDirectory
| AttrArchive
| AttrDevice.

#[export] Instance Attribute_eq_dec : EqDecision Attribute.
Proof. solve_decision. Defined.

Inductive EntryType := EntryNull | EntryUnused | EntryLongFileName | EntryData.

#[export] Instance EntryType_eq_dec : EqDecision EntryType.
Proof. solve_decision. Defined.

(** The 32 bytes of an entry. *)
Definition DirectoryEntry : Type := list Z.

Section DirEntry.
Implicit Types e : DirectoryEntry.

Definition raw e (i : nat) : Z := nth i e 0.

Definition attr e : option Attribute :=
  let a := raw e 11 in
  if a =? 0x01 then Some AttrReadOnly
  else if a =? 0x02 then Some AttrHidden
  else if a =? 0x04 then Some AttrSystem
  else if a =? 0x08 then Some AttrVolumeLabel
  else if a =? 0x0f then Some AttrLongFileName
  else if a =? 0x10 then Some AttrDirectory
  else if a =? 0x20 then Some AttrArchive
  else if a =? 0x40 then Some AttrDevice
  else None.

Definition entry_type e : EntryType :=
  if raw e 0 =? 0x00 then EntryNull
  else if raw e 0 =? 0xe5 then EntryUnused
  else if raw e 10 =? 0x0f then EntryLongFileName
  else EntryData.

Definition first_cluster_num e : Z :=
  Z.lor (Z.shiftl (from_le_bytes [raw e 20; raw e 21]) 16) (from_le_bytes [raw e 26; raw e 27]).

Definition file_size e : Z := from_le_bytes [raw e 28; raw e 29; raw e 30; raw e 31].

Definition is_lf_name_entry e : bool :=
  match attr e with Some AttrLongFileName => true | _ => false end.

(** A name is a list of characters. *)
Definition sf_name e : option (list Z) :=
  match attr e with
  | Some (AttrDirectory | AttrArchive | AttrVolumeLabel) => Some (from_utf8_lossy (take 11 e))
  | _ => None
  end.

Lemma sf_name_file e a : attr e = Some a -> a = AttrArchive \/ a = AttrDirectory -> sf_name e = Some (from_utf8_lossy (take 11 e)).
Proof. unfold sf_name. by intros -> [-> | ->]. Qed.

Definition lfn_entry_index e : option Z :=
  if negb (is_lf_name_entry e) then None else Some (raw e 0).

(** One of the three loops of [lf_name], over its indices. *)
Definition push_units e (is_ : list nat) (utf16_buf : list Z) : list Z :=
  fold_left (fun buf i =>
    if existsb (fun f => f =? 0) buf then buf
    else buf ++ [Z.lor (raw e i) (raw e (i + 1))]) is_ utf16_buf.

Definition lf_name e : option (list Z) :=
  if negb (is_lf_name_entry e) then None
  else
    let utf16_buf := push_units e [1; 3; 5; 7; 9]%nat [] in
    let utf16_buf := push_units e [14; 16; 18; 20; 22; 24]%nat utf16_buf in
    let utf16_buf := push_units e [28; 30]%nat utf16_buf in
    Some (List.filter (fun c => negb (c =? 0)) (from_utf16_lossy utf16_buf)).

End DirEntry.

(** ** The volume ([volume.rs]) *)

(** [file_allocation_table.rs] *)
Inductive ClusterType :=
| ClusterFree
| ClusterReserved
| ClusterData (n : Z)
| ClusterBad (n : Z)
| ClusterEndOfChain.

(** [fs_info_sector.rs]: signatures, reserved bytes and the free counts. *)
Record FsInfoSector := MkFsInfoSector {
  sign0 : list Z;
  info_reserved0 : list Z;
  sign1 : list Z;
  free_cnt : list Z;
  next_free : list Z;
  info_reserved1 : list Z;
  sign2 : list Z
}.

Definition fs_info_sector_of (r : list Z) : FsInfoSector :=
  {| sign0 := field r 0 4; info_reserved0 := field r 4 480; sign1 := field r 484 4;
     free_cnt := field r 488 4; next_free := field r 492 4; info_reserved1 := field r 496 12;
     sign2 := field r 508 4 |}.

(** The volume with the memory it lies in. *)
Record FatVolume := MkFatVolume {
  vol_mem : Z -> Z;
  volume_start_virt_addr : VirtualAddress
}.

Section Volume.
Implicit Types v : FatVolume.

(** [len] bytes behind a pointer. *)
Definition read_bytes v (addr : Z) (len : nat) : list Z :=
  (fun i => vol_mem v (addr + i)) <$> seqZ 0 (Z.of_nat len).

Definition boot_sector v : BootSector := boot_sector_of (read_bytes v (volume_start_virt_addr v) 512).

Definition vol_fat_type v : Result FatType := fat_type (boot_sector v).

Definition fs_info_sector v : Result (option FsInfoSector) :=
  let? t := vol_fat_type v in
  match t with
  | Fat32 =>
      let? o := fat32_other_field (boot_sector v) in
      let? other := unwrap o in
      let? off := umul 64 (fs_info_sector_num other) (bytes_per_sector (boot_sector v)) in
      let? addr := VirtualAddress_offset (volume_start_virt_addr v) off in
      Ok (Some (fs_info_sector_of (read_bytes v addr 512)))
  | _ => Ok None
  end.

(** [match self.fat_type() { Fat12 | Fat16 => unimplemented!(), Fat32 => () }] *)
Definition require_fat32 v : Result unit :=
  let? t := vol_fat_type v in
  match t with Fat32 => Ok tt | _ => Panic end.

Definition root_cluster_num v : Result Z :=
  let? _ := require_fat32 v in
  let? o := fat32_other_field (boot_sector v) in
  let? other := unwrap o in
  Ok (other_root_cluster_num other).

Definition dir_entries_per_cluster v : Result Z :=
  let? n := umul 64 (bytes_per_sector (boot_sector v)) (sectors_per_cluster (boot_sector v)) in
  Ok (n / 32).

Definition clusters_cnt v : Result Z := data_clusters (boot_sector v).

Definition max_dir_entry_num v : Result Z :=
  let b := boot_sector v in
  let? t := vol_fat_type v in
  let? data_sectors :=
    match t with
    | Fat12 | Fat16 => data_sectors16 b
    | Fat32 => let? o := data_sectors32 b in unwrap o
    end in
  let? n := umul 64 data_sectors (bytes_per_sector b) in
  Ok (n / 32).

(** The address of entry [i] of a cluster. *)
Definition entry_addr_of v (cluster_num i : Z) : Result Z :=
  let b := boot_sector v in
  let? o := data_start_sector32 b in
  let? start := unwrap o in
  let? off := umul 64 start (bytes_per_sector b) in
  let? c := umul 64 (bytes_per_sector b) (sectors_per_cluster b) in
  let? n := usub 64 cluster_num 2 in
  let? c := umul 64 c n in
  let? off := uadd 64 off c in
  let? e := umul 64 32 i in
  let? off := uadd 64 off e in
  VirtualAddress_offset (volume_start_virt_addr v) off.

Fixpoint omap_list {A B} (f : A -> Result B) (l : list A) : Result (list B) :=
  match l with
  | [] => Ok []
  | x :: l => let? y := f x in let? ys := omap_list f l in Ok (y :: ys)
  end.

(** [Vec::with_capacity(n)] has the capacity [n]. *)
Definition dir_entries v (cluster_num : Z) : Result (list DirectoryEntry) :=
  let? capacity := dir_entries_per_cluster v in
  let? outside := if cluster_num <? 2 then Ok true
                  else let? n := clusters_cnt v in Ok (n <=? cluster_num) in
  if outside then Ok []
  else
    let? _ := require_fat32 v in
    omap_list (fun i => let? addr := entry_addr_of v cluster_num i in Ok (read_bytes v addr 32))
      (seqZ 0 capacity).

Definition next_cluster_num v (cluster_num : Z) : Result (option ClusterType) :=
  let b := boot_sector v in
  let? _ := require_fat32 v in
  let? r := umul 64 (reserved_sectors b) (bytes_per_sector b) in
  let? c := umul 64 4 cluster_num in
  let? offset := uadd 64 r c in
  let? addr := VirtualAddress_offset (volume_start_virt_addr v) offset in
  let value := from_le_bytes (read_bytes v addr 4) in
  Ok (Some (if 0xffffff8 <=? value then ClusterEndOfChain
            else if 0xffffff7 <=? value then ClusterBad value
            else if 0xffffff0 <=? value then ClusterReserved
            else if 0x2 <=? value then ClusterData value
            else if value =? 0x1 then ClusterReserved
            else ClusterFree)).

(** The loop of [read_chained_dir_entries]: its state is the entries read, the
    current cluster and what follows it. *)
Definition chain_body v (st : list DirectoryEntry * Z * option ClusterType) :
    Result ((list DirectoryEntry * Z * option ClusterType) + list DirectoryEntry) :=
  let '(entries, current_cluster_num, next) := st in
  let? es := dir_entries v current_cluster_num in
  let entries := entries ++ es in
  match next with
  | Some (ClusterData n) =>
      let? next := next_cluster_num v n in
      Ok (inl (entries, n, next))
  | _ => Ok (inr entries)
  end.

Definition CHAIN_ROUNDS : positive := (2 ^ 28)%positive.

Definition read_chained_dir_entries v (start_cluster_num : Z) : Result (list DirectoryEntry) :=
  let? next := next_cluster_num v start_cluster_num in
  let? r := loop_pos (chain_body v) CHAIN_ROUNDS ([], start_cluster_num, next) in
  match r with
  | inr entries => Ok entries
  | inl _ => Panic
  end.

End Volume.

(** ** The file system ([fat/mod.rs]) *)

Record FileMetaData := MkFileMetaData {
  md_name : list Z;
  md_attr : Attribute;
  md_size : Z;
  md_target_cluster_num : Z
}.

Record Fat := MkFat {
  volume : FatVolume;
  fat_root_cluster_num : Z
}.

Definition Fat_new (v : FatVolume) : Result Fat :=
  let? n := root_cluster_num v in
  Ok {| volume := v; fat_root_cluster_num := n |}.

(** The trimmed name as a string. *)
Definition md_string (f : FileMetaData) : string := chars_string (trim (md_name f)).

(** The loop of [scan_dir] over the entries of a directory.  [sf_name().unwrap()]
    cannot fail on the entries that reach it ([sf_name_file]). *)
Fixpoint scan_entries (dir_entries : list DirectoryEntry) (lf_name_buf : list (list Z)) :
    list FileMetaData :=
  match dir_entries with
  | [] => []
  | e :: rest =>
      let file_attr := attr e in
      if bool_decide (entry_type e = EntryNull) && bool_decide (file_attr = None) then []
      else
        match lf_name e, lfn_entry_index e with
        | Some name, Some i =>
            if 1 <=? i then scan_entries rest (name :: lf_name_buf)
            else scan_entries rest lf_name_buf
        | _, _ =>
            match file_attr with
            | Some (AttrArchive as a) | Some (AttrDirectory as a) =>
                let file_name := match lf_name_buf with
                                 | [] => default [] (sf_name e)
                                 | _ => mjoin lf_name_buf
                                 end in
                {| md_name := file_name; md_attr := a; md_size := file_size e;
                   md_target_cluster_num := first_cluster_num e |} :: scan_entries rest []
            | _ => scan_entries rest lf_name_buf
            end
        end
  end.

Section Fat.
Implicit Types fs : Fat.

Definition scan_dir fs (dir_cluster_num : option Z) : Result (list FileMetaData) :=
  let n := default (fat_root_cluster_num fs) dir_cluster_num in
  let? es := read_chained_dir_entries (volume fs) n in
  Ok (scan_entries es []).

Definition fat_cluster_num fs (dir_name : string) (current : option Z) : Result Z :=
  if (bool_decide (current = None) || bool_decide (current = Some (fat_root_cluster_num fs)))
     && (String.eqb dir_name "." || String.eqb dir_name "..")
  then Ok (fat_root_cluster_num fs)
  else
    let? files := scan_dir fs current in
    let? dir := ok_or (with_context NotFound "directory")
                  (List.find (fun f => bool_decide (md_attr f = AttrDirectory)
                                       && String.eqb (md_string f) dir_name) files) in
    Ok (md_target_cluster_num dir).

Definition entry_in_dir fs (name : string) (current : option Z) (include_dirs : bool) :
    Result FileMetaData :=
  let? files := scan_dir fs current in
  ok_or (with_context NotFound "entry")
    (List.find (fun f => (bool_decide (md_attr f = AttrArchive)
                          || (include_dirs && bool_decide (md_attr f = AttrDirectory)))
                         && String.eqb (md_string f) name) files).

(** [for dir_name in names { current = self.cluster_num(dir_name, current)?; }] *)
Fixpoint descend fs (names : list string) (current : option Z) : Result (option Z) :=
  match names with
  | [] => Ok current
  | dir_name :: rest =>
      let? n := fat_cluster_num fs dir_name current in
      descend fs rest (Some n)
  end.

Definition metadata_by_abs_path fs (path : Path) : Result FileMetaData :=
  let path := Path_normalize path in
  let parent_path := Path_parent path in
  let? current := descend fs (Path_names parent_path) (Some (fat_root_cluster_num fs)) in
  entry_in_dir fs (Path_name path) current true.

Definition fat_file fs (file_name : string) (current : option Z) : Result (FileMetaData * list Z) :=
  let? file := entry_in_dir fs file_name current false in
  let? dir_entries := read_chained_dir_entries (volume fs) (md_target_cluster_num file) in
  let bytes := mjoin dir_entries in
  Ok (file, vec_resize bytes (Z.to_nat (md_size file)) 0).

Definition file_by_abs_path fs (path : Path) : Result (FileMetaData * list Z) :=
  let path := Path_normalize path in
  let parent_path := Path_parent path in
  let? current := descend fs (Path_names parent_path) (Some (fat_root_cluster_num fs)) in
  fat_file fs (Path_name path) current.

Definition fat_read_entry_names fs (path : Path) : Result (list string) :=
  let path := Path_normalize path in
  let? current := descend fs (Path_names path) None in
  let? files := scan_dir fs current in
  Ok (md_string <$> files).

Definition fat_read_file fs (path : Path) (offset max_len : Z) : Result (list Z) :=
  let? (_, bytes) := file_by_abs_path fs path in
  let start := Z.min offset (Z.of_nat (length bytes)) in
  let end_ := Z.min (saturating_add start max_len) (Z.of_nat (length bytes)) in
  slice bytes (Z.to_nat start) (Z.to_nat end_).

Definition fat_write_file fs (path : Path) (offset : Z) (data : list Z) : Result unit :=
  Err (error_into (EVirtualFileSystem (ReadOnly (Some path)))).

Definition fat_metadata fs (path : Path) : Result FsMetaData :=
  let? meta := metadata_by_abs_path fs path in
  let file_type := match md_attr meta with AttrDirectory => FsDirectory | _ => FsFile end in
  Ok {| meta_file_type := file_type; meta_size := md_size meta |}.

End Fat.

#[export] Instance fat_file_system : FileSystem Fat := {
  fs_read_entry_names := fat_read_entry_names;
  fs_read_file := fat_read_file;
  fs_write_file fs path offset data := (fat_write_file fs path offset data, fs);
  fs_metadata := fat_metadata
}.
