(* ===== verification/FatSpec.v ===== *)
(** * What the FAT32 file system promises

    The layout of a FAT32 volume, from its documentation: chains of clusters,
    directory entries with the parts of long names, and a tree of files and
    directories on a volume ([dir_rep]).  The read operations of [Fat] are shown
    to be lookups in that tree, and the loop over a chain to end exactly when the
    chain does. *)
From Stdlib Require Import ZArith Lia Ascii.
From stdpp Require Import base list strings.
From S2P Require Import Prelude Utf8 Path KError Vfs Paging Fat.

#[local] Open Scope string_scope.
#[local] Open Scope list_scope.
#[local] Open Scope Z_scope.

Implicit Types v : FatVolume.

(** ** Geometry *)

Definition fat32 v : BootSectorFat32OtherField := other_field_of (other_field (boot_sector v)).

Record volume_ok v : Prop := {
  vol_bytes : forall a, 0 <= vol_mem v a < 256;
  vol_start : 0 <= volume_start_virt_addr v < 2 ^ 63;
  vol_fat32 : vol_fat_type v = Ok Fat32
}.

(** The first address of the data area and the bytes of a cluster. *)
Definition data_area v : Z :=
  volume_start_virt_addr v
  + (reserved_sectors (boot_sector v) + fat_size (fat32 v) * num_fats (boot_sector v))
    * bytes_per_sector (boot_sector v).
Definition cluster_size v : Z := bytes_per_sector (boot_sector v) * sectors_per_cluster (boot_sector v).
Definition cluster_addr v (c : Z) : Z := data_area v + cluster_size v * (c - 2).
Definition cluster_count v : Z := match clusters_cnt v with Ok n => n | _ => 0 end.

(** The entry of a cluster in the file allocation table. *)
Definition fat_entry_addr v (c : Z) : Z :=
  volume_start_virt_addr v + reserved_sectors (boot_sector v) * bytes_per_sector (boot_sector v) + 4 * c.
Definition fat_value v (c : Z) : Z := from_le_bytes (read_bytes v (fat_entry_addr v c) 4).

(** The next cluster of a chain. *)
Definition next_data v (c : Z) : option Z :=
  let x := fat_value v c in if (2 <=? x) && (x <? 0xffffff0) then Some x else None.

Definition cluster_entries v (c : Z) : list DirectoryEntry :=
  if (2 <=? c) && (c <? cluster_count v)
  then (fun i => read_bytes v (cluster_addr v c + 32 * i) 32) <$> seqZ 0 (cluster_size v / 32)
  else [].

Lemma read_bytes_bytes v a n : volume_ok v -> bytes (read_bytes v a n).
Proof.
  intros Hv. unfold read_bytes. apply Forall_fmap, Forall_true. intros i. apply is_byte_range, (vol_bytes v Hv).
Qed.

Lemma length_read_bytes v a n : length (read_bytes v a n) = n.
Proof. unfold read_bytes. rewrite length_fmap, length_seqZ. lia. Qed.

Lemma bytes_field l i n : bytes l -> bytes (field l i n).
Proof. intros Hl. by apply Forall_take, Forall_drop. Qed.

Lemma le_field_bound l i n : bytes l -> 0 <= from_le_bytes (field l i n) < 256 ^ Z.of_nat n.
Proof.
  intros Hl. pose proof (from_le_bytes_bound (field l i n) (bytes_field l i n Hl)) as Hb.
  assert (length (field l i n) <= n)%nat as Hn by (unfold field; rewrite length_take; lia).
  assert (256 ^ Z.of_nat (length (field l i n)) <= 256 ^ Z.of_nat n) by (apply Z.pow_le_mono_r; lia). lia.
Qed.

Lemma field8_bound l i : bytes l -> 0 <= field8 l i < 256.
Proof.
  intros Hl. unfold field8. destruct (nth_in_or_default i l 0) as [Hi| ->]; [|lia].
  apply is_byte_range. eapply Forall_forall in Hl; [exact Hl|]. by apply list_elem_of_In.
Qed.

(** The fields of the boot sector are small. *)
Lemma geometry_bounds v :
  volume_ok v ->
  0 <= bytes_per_sector (boot_sector v) < 2 ^ 16 /\ 0 <= sectors_per_cluster (boot_sector v) < 2 ^ 8
  /\ 0 <= num_fats (boot_sector v) < 2 ^ 8 /\ 0 <= reserved_sectors (boot_sector v) < 2 ^ 16
  /\ 0 <= fat_size (fat32 v) < 2 ^ 32 /\ 0 <= other_root_cluster_num (fat32 v) < 2 ^ 32.
Proof.
  intros Hv. pose proof (read_bytes_bytes v (volume_start_virt_addr v) 512 Hv) as Hb.
  assert (bytes (other_field (boot_sector v))) as Ho by (by apply bytes_field).
  refine (conj _ (conj _ (conj _ (conj _ (conj _ _))))); [apply (le_field_bound _ _ 2 Hb)|by apply field8_bound|by apply field8_bound|apply (le_field_bound _ _ 2 Hb)
    |apply (le_field_bound _ _ 4 Ho)|apply (le_field_bound _ _ 4 Ho)].
Qed.

(** Checked arithmetic on these fields. *)
Ltac urun := repeat first
  [ rewrite uadd_run by nia | rewrite umul_run by nia | rewrite usub_run by lia
  | progress cbn [obind unwrap] ].

Lemma fat32_other_field_run v : volume_ok v -> fat32_other_field (boot_sector v) = Ok (Some (fat32 v)).
Proof. intros Hv. unfold fat32_other_field. fold (vol_fat_type v). by rewrite (vol_fat32 v Hv). Qed.

Lemma require_fat32_run v : volume_ok v -> require_fat32 v = Ok tt.
Proof. intros Hv. unfold require_fat32. by rewrite (vol_fat32 v Hv). Qed.

Lemma clusters_cnt_run v : volume_ok v -> clusters_cnt v = Ok (cluster_count v).
Proof.
  intros Hv. pose proof (vol_fat32 v Hv) as Ht. unfold vol_fat_type, fat_type in Ht.
  unfold cluster_count, clusters_cnt. by destruct (data_clusters (boot_sector v)).
Qed.

Lemma root_cluster_run v : volume_ok v -> root_cluster_num v = Ok (other_root_cluster_num (fat32 v)).
Proof.
  intros Hv. unfold root_cluster_num. by rewrite require_fat32_run, fat32_other_field_run.
Qed.

Lemma data_start_run v :
  volume_ok v ->
  data_start_sector32 (boot_sector v)
  = Ok (Some (reserved_sectors (boot_sector v) + fat_size (fat32 v) * num_fats (boot_sector v))).
Proof.
  intros Hv. destruct (geometry_bounds v Hv) as (? & ? & ? & ? & ? & _).
  unfold data_start_sector32, fat_sectors32. rewrite fat32_other_field_run by done. cbn [obind].
  by urun.
Qed.

Lemma entry_addr_run v c i :
  volume_ok v -> 2 <= c < 2 ^ 32 -> 0 <= i < 2 ^ 24 ->
  entry_addr_of v c i = Ok (cluster_addr v c + 32 * i).
Proof.
  intros Hv Hc Hi. destruct (geometry_bounds v Hv) as (Hb & Hs & Hn & Hr & Hf & _).
  destruct (vol_start v Hv) as [H0 H1]. unfold entry_addr_of. rewrite data_start_run by done. cbn [obind unwrap].
  unfold cluster_addr, data_area, cluster_size, VirtualAddress_offset.
  set (bps := bytes_per_sector (boot_sector v)) in *. set (spc := sectors_per_cluster (boot_sector v)) in *.
  set (st := reserved_sectors (boot_sector v) + fat_size (fat32 v) * num_fats (boot_sector v)).
  assert (0 <= st < 2 ^ 41) as Hst by (unfold st; nia). clearbody bps spc st.
  assert (0 <= bps * spc < 2 ^ 24) by nia. assert (0 <= st * bps < 2 ^ 57) by nia.
  assert (0 <= bps * spc * (c - 2) < 2 ^ 56) by nia.
  rewrite (umul_run 64 st bps) by lia. cbn [obind]. rewrite umul_run by lia. cbn [obind].
  rewrite usub_run by lia. cbn [obind]. rewrite umul_run by lia. cbn [obind].
  rewrite uadd_run by lia. cbn [obind]. rewrite umul_run by lia. cbn [obind].
  rewrite uadd_run by lia. cbn [obind]. rewrite uadd_run by lia. f_equal. lia.
Qed.

Lemma omap_list_run {A B} (f : A -> Result B) (g : A -> B) l :
  (forall x, x ∈ l -> f x = Ok (g x)) -> omap_list f l = Ok (g <$> l).
Proof.
  induction l as [|x l IH]; intros Hf; [done|]. cbn [omap_list].
  rewrite (Hf x) by apply list_elem_of_here. cbn [obind]. rewrite IH; [done|].
  intros y Hy. apply Hf. by apply list_elem_of_further.
Qed.

Lemma dir_entries_run v c :
  volume_ok v -> 0 <= c < 2 ^ 32 -> dir_entries v c = Ok (cluster_entries v c).
Proof.
  intros Hv Hc. destruct (geometry_bounds v Hv) as (Hb & Hs & _).
  unfold dir_entries, dir_entries_per_cluster, cluster_entries. rewrite umul_run by nia. cbn [obind].
  fold (cluster_size v). assert (0 <= cluster_size v < 2 ^ 24) as Hz by (unfold cluster_size; nia).
  destruct (Z.ltb_spec c 2) as [Hlt|Hge]; cbn [obind].
  { by destruct (Z.leb_spec 2 c); [lia|]. }
  destruct (Z.leb_spec 2 c); [|lia]. rewrite clusters_cnt_run by done. cbn [obind andb].
  destruct (Z.leb_spec (cluster_count v) c); destruct (Z.ltb_spec c (cluster_count v)); [lia|done| |lia].
  rewrite require_fat32_run by done. cbn [obind].
  apply (omap_list_run _ (fun i => read_bytes v (cluster_addr v c + 32 * i) 32)).
  intros i Hi%elem_of_seqZ. assert (cluster_size v / 32 <= cluster_size v) by (apply Z.div_le_upper_bound; lia).
  by rewrite entry_addr_run by (done || lia).
Qed.

Definition cluster_type (value : Z) : ClusterType :=
  if 0xffffff8 <=? value then ClusterEndOfChain
  else if 0xffffff7 <=? value then ClusterBad value
  else if 0xffffff0 <=? value then ClusterReserved
  else if 0x2 <=? value then ClusterData value
  else if value =? 0x1 then ClusterReserved
  else ClusterFree.

Lemma next_cluster_run v c :
  volume_ok v -> 0 <= c < 2 ^ 32 -> next_cluster_num v c = Ok (Some (cluster_type (fat_value v c))).
Proof.
  intros Hv Hc. destruct (geometry_bounds v Hv) as (Hb & _ & _ & Hr & _). destruct (vol_start v Hv) as [H0 H1].
  unfold next_cluster_num. rewrite require_fat32_run by done. cbn [obind].
  rewrite umul_run by nia. cbn [obind]. rewrite umul_run by lia. cbn [obind]. rewrite uadd_run by nia. cbn [obind].
  unfold VirtualAddress_offset. rewrite uadd_run by nia. cbn [obind]. unfold fat_value, fat_entry_addr.
  by rewrite Z.add_assoc.
Qed.

Lemma cluster_type_data v c :
  match cluster_type (fat_value v c) with ClusterData n => Some n | _ => None end = next_data v c.
Proof.
  unfold cluster_type, next_data. set (x := fat_value v c).
  bool_cases; cbn; done || lia.
Qed.

(** ** Chains of clusters *)

Inductive chain v : Z -> list Z -> Prop :=
| chain_last c : next_data v c = None -> chain v c [c]
| chain_next c n cs : next_data v c = Some n -> chain v n cs -> chain v c (c :: cs).

Definition chain_entries v (cs : list Z) : list DirectoryEntry := mjoin (cluster_entries v <$> cs).

Lemma chain_det v c cs cs' : chain v c cs -> chain v c cs' -> cs = cs'.
Proof.
  intros Hc. revert cs'. induction Hc as [c Hn|c n cs Hn Hc IH]; intros cs' Hc'; inversion Hc'; subst; simplify_eq; [done|].
  f_equal. by apply IH.
Qed.

Lemma chain_suffix v c l1 c' l2 : chain v c (l1 ++ c' :: l2) -> chain v c' (c' :: l2).
Proof.
  revert c. induction l1 as [|x l1 IH]; intros c Hc; cbn in Hc.
  - by inversion Hc; subst.
  - inversion Hc as [?|? n ? Hn Hr]; subst; [by destruct l1|]. by apply (IH n).
Qed.

(** A chain visits no cluster twice. *)
Lemma chain_NoDup v c cs : chain v c cs -> NoDup cs.
Proof.
  induction 1 as [c Hn|c n cs Hn Hc IH]; [apply NoDup_singleton|].
  constructor; [|done]. intros (l1 & l2 & ->)%list_elem_of_split.
  pose proof (chain_suffix v n l1 c l2 Hc) as Hc'.
  pose proof (chain_det v c _ _ Hc' (chain_next v c n _ Hn Hc)) as Heq.
  apply (f_equal length) in Heq. cbn in Heq. rewrite length_app in Heq. cbn in Heq. lia.
Qed.

Lemma next_data_bound v c n : next_data v c = Some n -> 2 <= n < 0xffffff0.
Proof. unfold next_data. destruct (Z.leb_spec 2 (fat_value v c)), (Z.ltb_spec (fat_value v c) 0xffffff0); cbn; [|done..]. intros [= <-]. lia. Qed.

Lemma chain_tail_bound v c cs : chain v c cs -> Forall (fun n => 2 <= n < 0xffffff0) (tail cs).
Proof.
  induction 1 as [c Hn|c n cs Hn Hc IH]; [constructor|]. cbn.
  apply next_data_bound in Hn. inversion Hc; subst; by constructor.
Qed.

(** There are fewer clusters than rounds. *)
Lemma chain_length v c cs : chain v c cs -> (length cs <= Pos.to_nat CHAIN_ROUNDS)%nat.
Proof.
  intros Hc. pose proof (chain_NoDup v c cs Hc) as Hnd. pose proof (chain_tail_bound v c cs Hc) as Hb.
  assert (length (tail cs) <= length (seqZ 0 0xffffff0))%nat as Hl.
  { apply submseteq_length, NoDup_submseteq.
    - destruct cs; [done|]. by inversion Hnd.
    - intros x Hx. apply elem_of_seqZ. eapply Forall_forall in Hb; [|exact Hx]. lia. }
  rewrite length_seqZ in Hl. apply Nat2Z.inj_le. rewrite positive_nat_Z. unfold CHAIN_ROUNDS.
  destruct cs; cbn [tail length] in Hl |- *; lia.
Qed.

Section ChainLoop.
Context v (Hv : volume_ok v).

Lemma chain_body_run es c :
  0 <= c < 2 ^ 32 ->
  chain_body v (es, c, Some (cluster_type (fat_value v c)))
  = Ok (match next_data v c with
        | Some n => inl (es ++ cluster_entries v c, n, Some (cluster_type (fat_value v n)))
        | None => inr (es ++ cluster_entries v c)
        end).
Proof.
  intros Hc. unfold chain_body. rewrite dir_entries_run by done. cbn [obind].
  pose proof (cluster_type_data v c) as Hd. destruct (next_data v c) as [n|] eqn:Hn.
  - destruct (cluster_type (fat_value v c)) eqn:Ht; try done. simplify_eq.
    apply next_data_bound in Hn. by rewrite next_cluster_run by (done || lia).
  - by destruct (cluster_type (fat_value v c)).
Qed.

Lemma chain_loop es c cs n :
  0 <= c < 2 ^ 32 -> chain v c cs -> (length cs <= n)%nat ->
  loop_nat (chain_body v) n (es, c, Some (cluster_type (fat_value v c)))
  = Ok (inr (es ++ chain_entries v cs)).
Proof.
  intros Hc Hch. revert es n Hc. induction Hch as [c Hn|c m cs Hn Hch IH]; intros es [|n] Hc Hl; cbn in Hl; [lia| |lia|].
  - cbn [loop_nat]. rewrite chain_body_run, Hn by done. unfold chain_entries. cbn. by rewrite app_nil_r.
  - cbn [loop_nat]. rewrite chain_body_run, Hn by done. pose proof (next_data_bound v c m Hn).
    rewrite IH by (done || lia). unfold chain_entries. cbn. by rewrite app_assoc.
Qed.

Lemma chain_loop_inv es c n r :
  0 <= c < 2 ^ 32 ->
  loop_nat (chain_body v) n (es, c, Some (cluster_type (fat_value v c))) = r ->
  match r with
  | Ok (inl _) => True
  | Ok (inr _) => exists cs, chain v c cs
  | _ => False
  end.
Proof.
  revert es c r. induction n as [|n IH]; intros es c r Hc <-; [done|]. cbn [loop_nat].
  rewrite chain_body_run by done. destruct (next_data v c) as [m|] eqn:Hm.
  - pose proof (next_data_bound v c m Hm). specialize (IH (es ++ cluster_entries v c) m _ ltac:(lia) eq_refl).
    destruct (loop_nat _ _ _) as [[|]| |]; [done| |done..]. destruct IH as [cs Hcs].
    exists (c :: cs). by apply (chain_next v c m).
  - exists [c]. by constructor.
Qed.

Lemma read_chained_run c cs :
  0 <= c < 2 ^ 32 -> chain v c cs -> read_chained_dir_entries v c = Ok (chain_entries v cs).
Proof.
  intros Hc Hch. unfold read_chained_dir_entries. rewrite next_cluster_run by done. cbn [obind].
  rewrite loop_pos_nat, (chain_loop [] c cs) by (done || by apply (chain_length v c)). done.
Qed.

End ChainLoop.

(** ** The layout of directories *)

(** One file of a directory: the parts of its long name, at most 13 characters
    each, and its short entry. *)
Record dir_item := MkItem {
  it_parts : list (list Z);
  it_short : list Z;
  it_dir : bool;
  it_size : Z;
  it_cluster : Z;
  it_times1 : list Z;
  it_times2 : list Z
}.

Definition unit_bytes (u : Z) : list Z := [u mod 256; u / 256].

(** The 13 units of a part: a shorter part ends with a zero, then all ones. *)
Definition part_units (part : list Z) : list Z :=
  take 13 (part ++ [0] ++ replicate 13 0xffff).

Definition units_bytes (us : list Z) : list Z := mjoin (unit_bytes <$> us).

Definition long_entry (seq : Z) (part : list Z) : DirectoryEntry :=
  let us := part_units part in
  [seq] ++ units_bytes (take 5 us) ++ [0x0f; 0; 0] ++ units_bytes (take 6 (drop 5 us)) ++ [0; 0]
  ++ units_bytes (drop 11 us).

Definition short_entry (it : dir_item) : DirectoryEntry :=
  it_short it ++ [if it_dir it then 0x10 else 0x20] ++ it_times1 it
  ++ to_le_bytes 2 (it_cluster it / 65536) ++ it_times2 it ++ to_le_bytes 2 (it_cluster it mod 65536)
  ++ to_le_bytes 4 (it_size it).

(** The parts carry the numbers 1, 2, ...; the last one is marked and comes
    first. *)
Fixpoint long_entries (seq : Z) (parts : list (list Z)) : list DirectoryEntry :=
  match parts with
  | [] => []
  | [part] => [long_entry (Z.lor seq 0x40) part]
  | part :: rest => long_entries (seq + 1) rest ++ [long_entry seq part]
  end.

Definition item_entries (it : dir_item) : list DirectoryEntry := long_entries 1 (it_parts it) ++ [short_entry it].

(** The characters whose code fits one byte. *)
Definition latin1 (c : Z) : Prop := 1 <= c < 256.

Record item_ok (it : dir_item) : Prop := {
  ok_parts : Forall (fun p => Forall latin1 p /\ (length p <= 13)%nat) (it_parts it);
  ok_short : length (it_short it) = 11%nat /\ Forall (fun b => 0 <= b < 128) (it_short it);
  ok_size : 0 <= it_size it < 2 ^ 32;
  ok_cluster : 0 <= it_cluster it < 2 ^ 32;
  ok_times : length (it_times1 it) = 8%nat /\ length (it_times2 it) = 4%nat
}.

Definition item_name (it : dir_item) : list Z :=
  match it_parts it with [] => it_short it | parts => mjoin parts end.

Definition item_attr (it : dir_item) : Attribute := if it_dir it then AttrDirectory else AttrArchive.

Definition item_meta (it : dir_item) : FileMetaData :=
  {| md_name := item_name it; md_attr := item_attr it; md_size := it_size it;
     md_target_cluster_num := it_cluster it |}.

(** What the code makes of a unit: the two bytes joined without a shift. *)
Definition unit_char (u : Z) : Z := Z.lor (u mod 256) (u / 256).

Definition push_unit (buf : list Z) (u : Z) : list Z :=
  if existsb (fun f => f =? 0) buf then buf else buf ++ [u].

Definition UNIT_OFFSETS : list nat := [1; 3; 5; 7; 9; 14; 16; 18; 20; 22; 24; 28; 30]%nat.

Definition entry_units (e : DirectoryEntry) : list Z :=
  (fun i => Z.lor (raw e i) (raw e (i + 1))) <$> UNIT_OFFSETS.

Lemma push_units_fold e is_ buf :
  push_units e is_ buf = fold_left push_unit ((fun i => Z.lor (raw e i) (raw e (i + 1))) <$> is_) buf.
Proof. revert buf. induction is_ as [|i is_ IH]; intros buf; [done|]. cbn. by rewrite <- IH. Qed.

Lemma lf_name_units e :
  is_lf_name_entry e = true ->
  lf_name e = Some (List.filter (fun c => negb (c =? 0)) (from_utf16_lossy (fold_left push_unit (entry_units e) []))).
Proof.
  intros He. unfold lf_name. rewrite He. cbn [negb]. rewrite !push_units_fold, <- !fold_left_app, <- !fmap_app. done.
Qed.

Lemma length_part_units part : length (part_units part) = 13%nat.
Proof. unfold part_units. rewrite length_take, !length_app, length_replicate. cbn [length]. lia. Qed.

Lemma long_entry_facts seq part :
  raw (long_entry seq part) 0 = seq /\ attr (long_entry seq part) = Some AttrLongFileName
  /\ entry_units (long_entry seq part) = unit_char <$> part_units part.
Proof.
  unfold long_entry. pose proof (length_part_units part) as Hl.
  destruct (part_units part) as [|u0 [|u1 [|u2 [|u3 [|u4 [|u5 [|u6 [|u7 [|u8 [|u9 [|u10 [|u11 [|u12 [|]]]]]]]]]]]]]];
    try discriminate Hl.
  split_and!; reflexivity.
Qed.

Lemma no_zero_unit l : Forall (fun u => u <> 0) l -> existsb (fun f => f =? 0) l = false.
Proof. induction 1 as [|u l Hu Hl IH]; [done|]. cbn. rewrite IH. destruct (Z.eqb_spec u 0); done. Qed.

Lemma fold_push_plain us buf :
  Forall (fun u => u <> 0) us -> Forall (fun u => u <> 0) buf -> fold_left push_unit us buf = buf ++ us.
Proof.
  intros Hus. revert buf. induction Hus as [|u us Hu Hus IH]; intros buf Hb; [by rewrite app_nil_r|]. cbn.
  unfold push_unit at 2. rewrite no_zero_unit, IH, <- app_assoc; [done| |done]. apply Forall_app. by repeat constructor.
Qed.

Lemma fold_push_closed us buf : existsb (fun f => f =? 0) buf = true -> fold_left push_unit us buf = buf.
Proof. intros Hb. induction us as [|u us IH]; [done|]. cbn. unfold push_unit at 2. by rewrite Hb. Qed.

Lemma unit_char_latin1 c : latin1 c -> unit_char c = c.
Proof. intros [? ?]. unfold unit_char. rewrite Z.mod_small, Z.div_small, Z.lor_0_r by lia. done. Qed.

(** Reading a part of a long name gives it back. *)
Lemma lf_name_long_entry seq part :
  Forall latin1 part -> (length part <= 13)%nat -> lf_name (long_entry seq part) = Some part.
Proof.
  intros Hp Hl. destruct (long_entry_facts seq part) as (_ & Ha & Hu).
  rewrite lf_name_units by (unfold is_lf_name_entry; by rewrite Ha). rewrite Hu.
  assert (Forall (fun u => u <> 0) part) as Hnz by (eapply Forall_impl; [exact Hp|]; intros ? []; cbn; lia).
  assert (unit_char <$> part = part) as Hpart.
  { clear -Hp. induction Hp as [|c l Hc Hl IH]; [done|]. cbn. rewrite unit_char_latin1 by done. by f_equal. }
  assert (Forall (fun u => u < 0xd800) part) as Hsmall by (eapply Forall_impl; [exact Hp|]; intros ? []; cbn; lia).
  assert (List.filter (fun c => negb (c =? 0)) part = part) as Hfil.
  { clear -Hnz. induction Hnz as [|c l Hc Hl IH]; [done|]. cbn. destruct (Z.eqb_spec c 0); [done|]. cbn. by rewrite IH. }
  f_equal. unfold part_units. rewrite take_app. destruct (decide (length part = 13)%nat) as [E|E].
  - replace (13 - length part)%nat with 0%nat by lia. rewrite take_0, app_nil_r, firstn_all2 by lia.
    rewrite Hpart, (fold_push_plain part []) by done. cbn. by rewrite from_utf16_plain.
  - rewrite (firstn_all2 part) by lia. destruct (13 - length part)%nat as [|k] eqn:Hk; [lia|].
    cbn [take app]. rewrite fmap_app, Hpart, fold_left_app, (fold_push_plain part []) by done. cbn [app fmap list_fmap fold_left].
    assert (push_unit part (unit_char 0) = part ++ [0]) as -> by (unfold push_unit; by rewrite no_zero_unit).
    rewrite fold_push_closed by (rewrite existsb_app; cbn; apply orb_true_r).
    rewrite from_utf16_plain by (apply Forall_app; split; [done|repeat constructor; lia]).
    rewrite List.filter_app, Hfil. cbn. apply app_nil_r.
Qed.

(** *** Scanning a directory *)

Lemma le_bytes2 x : to_le_bytes 2 x = [x mod 256; x / 256 mod 256].
Proof. done. Qed.
Lemma le_bytes4 x :
  to_le_bytes 4 x = [x mod 256; x / 256 mod 256; x / 256 / 256 mod 256; x / 256 / 256 / 256 mod 256].
Proof. done. Qed.

(** The fields of a short entry are found where they were written. *)
Lemma short_entry_facts it :
  item_ok it ->
  take 11 (short_entry it) = it_short it /\ attr (short_entry it) = Some (item_attr it)
  /\ first_cluster_num (short_entry it) = it_cluster it /\ file_size (short_entry it) = it_size it.
Proof.
  intros [_ [Hs _] Hz Hc [Ht1 Ht2]].
  assert (0 <= it_cluster it mod 65536 < 256 ^ Z.of_nat 2) as Hlo by (by apply Z.mod_pos_bound).
  assert (0 <= it_cluster it / 65536 < 256 ^ Z.of_nat 2) as Hhi.
  { split; [apply Z.div_pos; lia|apply Z.div_lt_upper_bound; [lia|]]. change (256 ^ Z.of_nat 2) with 65536. lia. }
  pose proof (from_to_le_bytes 2 _ Hlo) as Elo. pose proof (from_to_le_bytes 2 _ Hhi) as Ehi.
  pose proof (from_to_le_bytes 4 (it_size it) Hz) as Esz.
  rewrite le_bytes2 in Elo, Ehi. rewrite le_bytes4 in Esz.
  split; [unfold short_entry; rewrite take_app_le, firstn_all2; lia || done|].
  unfold attr, first_cluster_num, file_size, short_entry. rewrite !le_bytes2, le_bytes4.
  destruct (it_short it) as [|s0 [|s1 [|s2 [|s3 [|s4 [|s5 [|s6 [|s7 [|s8 [|s9 [|s10 [|]]]]]]]]]]]]; try discriminate Hs.
  destruct (it_times1 it) as [|t0 [|t1 [|t2 [|t3 [|t4 [|t5 [|t6 [|t7 [|]]]]]]]]]; try discriminate Ht1.
  destruct (it_times2 it) as [|r0 [|r1 [|r2 [|r3 [|]]]]]; try discriminate Ht2.
  cbn [raw nth app]. split_and!.
  - unfold item_attr. by destruct (it_dir it).
  - rewrite Elo, Ehi, (lor_shiftl 16) by (done || lia). change (2 ^ 16) with 65536.
    pose proof (Z.div_mod (it_cluster it) 65536). lia.
  - exact Esz.
Qed.

(** The entries of a long name fill the buffer with its parts, in order. *)
Lemma scan_long_entries parts seq rest buf :
  Forall (fun p => Forall latin1 p /\ (length p <= 13)%nat) parts -> 1 <= seq ->
  scan_entries (long_entries seq parts ++ rest) buf = scan_entries rest (parts ++ buf).
Proof.
  assert (forall seq part rest buf, Forall latin1 part -> (length part <= 13)%nat -> 1 <= seq ->
    scan_entries (long_entry seq part :: rest) buf = scan_entries rest (part :: buf)) as Hone.
  { clear. intros seq part rest buf Hp Hl Hseq. destruct (long_entry_facts seq part) as (H0 & Ha & _).
    cbn [scan_entries]. rewrite Ha, (bool_decide_eq_false_2 (Some _ = None)), andb_false_r by done.
    rewrite lf_name_long_entry by done. unfold lfn_entry_index, is_lf_name_entry. rewrite Ha, H0. cbn [negb].
    by destruct (Z.leb_spec 1 seq); [|lia]. }
  intros Hf. revert seq rest buf. induction Hf as [|part parts [Hp Hl] Hf IH]; intros seq rest buf Hseq; [done|].
  destruct parts as [|part' parts].
  - cbn [long_entries app]. rewrite Hone; [done..|]. rewrite Z.lor_comm.
    enough (0 <= Z.lor 64 seq /\ Z.lor 64 seq <> 0) by lia.
    split; [apply Z.lor_nonneg; lia|]. intros [? ?]%Z.lor_eq_0_iff. lia.
  - change (long_entries seq (part :: part' :: parts)) with (long_entries (seq + 1) (part' :: parts) ++ [long_entry seq part]).
    rewrite <- app_assoc, IH by lia. cbn [app]. by rewrite Hone.
Qed.

Lemma scan_item it rest :
  item_ok it -> scan_entries (item_entries it ++ rest) [] = item_meta it :: scan_entries rest [].
Proof.
  intros Hok. unfold item_entries. rewrite <- app_assoc, scan_long_entries by (done || apply Hok).
  rewrite app_nil_r. destruct (short_entry_facts it Hok) as (Hs & Ha & Hc & Hz).
  cbn [scan_entries app]. rewrite Ha, (bool_decide_eq_false_2 (Some _ = None)), andb_false_r by done.
  assert (lf_name (short_entry it) = None) as ->
    by (unfold lf_name, is_lf_name_entry; rewrite Ha; unfold item_attr; by destruct (it_dir it)).
  unfold sf_name. rewrite Ha, Hs, Hc, Hz. destruct (ok_short it Hok) as [_ Hascii].
  rewrite from_utf8_ascii by (eapply Forall_impl; [exact Hascii|]; intros ? []; cbn; lia).
  unfold item_meta, item_name, item_attr. destruct (it_dir it), (it_parts it); done.
Qed.

(** The end of a directory: no more entries, or one that begins with a zero. *)
Definition dir_end (tail : list DirectoryEntry) : Prop :=
  match tail with [] => True | e :: _ => entry_type e = EntryNull /\ attr e = None end.

Lemma scan_items items tail :
  Forall item_ok items -> dir_end tail ->
  scan_entries (mjoin (item_entries <$> items) ++ tail) [] = item_meta <$> items.
Proof.
  intros Hf Ht. induction Hf as [|it items Hi Hf IH]; cbn.
  - destruct tail as [|e tail]; [done|]. destruct Ht as [He Ha]. cbn [scan_entries]. by rewrite He, Ha.
  - rewrite <- app_assoc, scan_item by done. f_equal. exact IH.
Qed.

(** ** Trees of files *)

Inductive node :=
| NFile (data : list Z)
| NDir (kids : list (string * node)).

Definition find_kid (kids : list (string * node)) (name : string) : option node :=
  snd <$> List.find (fun k => String.eqb (fst k) name) kids.

Fixpoint tree_find (kids : list (string * node)) (names : list string) : option node :=
  match names with
  | [] => Some (NDir kids)
  | n :: rest =>
      match find_kid kids n with
      | Some (NDir kids') => tree_find kids' rest
      | Some (NFile data) => match rest with [] => Some (NFile data) | _ => None end
      | None => None
      end
  end.

(** Its name, without white space around it. *)
Definition item_string (it : dir_item) : string := chars_string (trim (item_name it)).

(** A name other than [.] and [..], without a separator. *)
Definition entry_name (s : string) : bool := plain_name s && no_sep s.

Definition DOT : Z := 0x2e.
Definition SPACE : Z := 0x20.

(** The first two entries of a directory other than the root. *)
Definition dot_item (dots : nat) (cluster : Z) : dir_item :=
  {| it_parts := []; it_short := replicate dots DOT ++ replicate (11 - dots) SPACE; it_dir := true;
     it_size := 0; it_cluster := cluster; it_times1 := replicate 8 0; it_times2 := replicate 4 0 |}.

(** A node at its entry, and the directory [kids] that starts at a cluster, with
    the entries [dots] in front. *)
Inductive node_rep v : dir_item -> node -> Prop :=
| rep_file it data cs :
    it_dir it = false -> it_size it = Z.of_nat (length data) ->
    chain v (it_cluster it) cs -> data `prefix_of` mjoin (chain_entries v cs) ->
    node_rep v it (NFile data)
| rep_dir it parent kids :
    it_dir it = true -> it_size it = 0 -> 0 <= parent < 2 ^ 32 ->
    dir_rep v (it_cluster it) [dot_item 1 (it_cluster it); dot_item 2 parent] kids ->
    node_rep v it (NDir kids)
with dir_rep v : Z -> list dir_item -> list (string * node) -> Prop :=
| rep_kids c dots items tail cs kids :
    0 <= c < 2 ^ 32 -> chain v c cs ->
    chain_entries v cs = mjoin (item_entries <$> dots ++ items) ++ tail -> dir_end tail ->
    Forall (fun it => item_ok it /\ entry_name (item_string it) = true) items ->
    NoDup (item_string <$> items) ->
    Forall2 (fun it k => item_string it = fst k /\ node_rep v it (snd k)) items kids ->
    dir_rep v c dots kids.

(** A file system on such a volume. *)
Record fat_ok (fs : Fat) (kids : list (string * node)) : Prop := {
  fat_volume : volume_ok (volume fs);
  fat_new : Fat_new (volume fs) = Ok fs;
  fat_tree : dir_rep (volume fs) (fat_root_cluster_num fs) [] kids
}.

Definition is_dots (dots : list dir_item) : Prop :=
  Forall (fun it => item_ok it /\ plain_name (md_string (item_meta it)) = false) dots.

Lemma dot_item_ok n c : 0 <= c < 2 ^ 32 -> n = 1%nat \/ n = 2%nat ->
  item_ok (dot_item n c) /\ plain_name (md_string (item_meta (dot_item n c))) = false.
Proof.
  intros Hc [-> | ->]; (split; [|vm_compute; reflexivity]);
    (split; cbn; [constructor|split; [done|by repeat constructor]|lia|done|done]).
Qed.

Section Tree.
Context (fs : Fat) (Hv : volume_ok (volume fs)).

(** What a scan of a directory of the tree gives. *)
Lemma scan_dir_run c dots kids :
  dir_rep (volume fs) c dots kids -> Forall item_ok dots ->
  exists items, scan_dir fs (Some c) = Ok (item_meta <$> dots ++ items)
    /\ Forall (fun it => item_ok it /\ entry_name (item_string it) = true) items
    /\ NoDup (item_string <$> items)
    /\ Forall2 (fun it k => item_string it = fst k /\ node_rep (volume fs) it (snd k)) items kids.
Proof.
  intros Hd Hdots. destruct Hd as [c dots items tail cs kids Hc Hch He Ht Hi Hnd Hk]. exists items. split_and!; [|done..].
  unfold scan_dir. change (default (fat_root_cluster_num fs) (Some c)) with c. rewrite (read_chained_run _ Hv c cs) by done. cbn [obind]. rewrite He.
  rewrite scan_items; [done| |done]. apply Forall_app. split; [done|].
  eapply Forall_impl; [exact Hi|]. by intros it (? & _).
Qed.

(** Searching a directory for a plain name. *)
Lemma find_item (P : FileMetaData -> bool) name dots items kids :
  is_dots dots -> plain_name name = true ->
  Forall (fun it => item_ok it /\ entry_name (item_string it) = true) items ->
  NoDup (item_string <$> items) ->
  Forall2 (fun it k => item_string it = fst k /\ node_rep (volume fs) it (snd k)) items kids ->
  List.find (fun f => P f && String.eqb (md_string f) name) (item_meta <$> dots ++ items)
  = match List.find (fun it => String.eqb (item_string it) name) items with
    | Some it => if P (item_meta it) then Some (item_meta it) else None
    | None => None
    end
  /\ match List.find (fun it => String.eqb (item_string it) name) items with
     | Some it => exists n, find_kid kids name = Some n /\ item_ok it /\ node_rep (volume fs) it n
     | None => find_kid kids name = None
     end.
Proof.
  intros Hdots Hname Hi Hnd Hk.
  assert (forall l, List.find (fun f => P f && String.eqb (md_string f) name) ((item_meta <$> dots) ++ l)
    = List.find (fun f => P f && String.eqb (md_string f) name) l) as Hskip.
  { intros l. induction Hdots as [|d dots [_ Hd] Hds IH]; [done|]. cbn [fmap list_fmap app List.find].
    assert (String.eqb (md_string (item_meta d)) name = false) as ->.
    { apply String.eqb_neq. intros E. by rewrite E, Hname in Hd. }
    by rewrite andb_false_r. }
  rewrite fmap_app, Hskip. clear Hskip Hdots.
  induction Hk as [|it k items kids [Hs Hr] Hk IH]; [done|].
  inversion_clear Hi as [|? ? (Hok & Hpl) Hi']. inversion_clear Hnd as [|? ? Hnin Hnd'].
  cbn [fmap list_fmap List.find]. unfold find_kid. cbn [List.find]. change (md_string (item_meta it)) with (item_string it). rewrite <- Hs.
  destruct (String.eqb_spec (item_string it) name) as [E|E].
  - rewrite andb_true_r. split.
    + destruct (P (item_meta it)); [done|]. specialize (IH Hi' Hnd') as [-> _].
      destruct (List.find _ items) as [it'|] eqn:Hf; [|done]. exfalso. apply Hnin.
      apply find_some in Hf as [Hin%list_elem_of_In Hn%String.eqb_eq]. rewrite E, <- Hn. by apply list_elem_of_fmap_2.
    + cbn. eauto.
  - rewrite andb_false_r. exact (IH Hi' Hnd').
Qed.

Lemma find_bad_item (P : FileMetaData -> bool) name items :
  entry_name name = false ->
  Forall (fun it => item_ok it /\ entry_name (item_string it) = true) items ->
  List.find (fun f => P f && String.eqb (md_string f) name) (item_meta <$> items) = None.
Proof.
  intros Hn Hi. induction Hi as [|it items (_ & Hok) Hi IH]; [done|]. cbn [fmap list_fmap List.find].
  change (md_string (item_meta it)) with (item_string it). destruct (String.eqb_spec (item_string it) name) as [E|_]; [by rewrite E, Hn in Hok|].
  by rewrite andb_false_r.
Qed.

Definition no_directory : Error_ := with_context NotFound "directory".
Definition no_entry : Error_ := with_context NotFound "entry".

(** A directory of the tree; all but the root begin with [.] and [..]. *)
Definition dir_at (sub : bool) (c : Z) (kids : list (string * node)) : Prop :=
  exists dots, dir_rep (volume fs) c dots kids /\ is_dots dots
    /\ md_string ∘ item_meta <$> dots = if sub then [Path_CURRENT_DIR; Path_PARENT_DIR] else [].

Lemma is_dots_ok dots : is_dots dots -> Forall item_ok dots.
Proof. intros Hd. eapply Forall_impl; [exact Hd|]. by intros it [? _]. Qed.

Lemma cluster_num_run name sub c kids :
  dir_at sub c kids -> plain_name name = true ->
  match find_kid kids name with
  | Some (NDir kids') => exists c', fat_cluster_num fs name (Some c) = Ok c' /\ dir_at true c' kids'
  | _ => fat_cluster_num fs name (Some c) = Err no_directory
  end.
Proof.
  intros (dots & Hd & Hdots & _) Hn. destruct (plain_name_facts name Hn) as (_ & H1 & H2).
  unfold fat_cluster_num. change ".." with Path_PARENT_DIR. change "." with Path_CURRENT_DIR. rewrite H1, H2, andb_false_r.
  destruct (scan_dir_run c dots kids Hd (is_dots_ok dots Hdots)) as (items & -> & Hi & Hnd & Hk). cbn [obind].
  destruct (find_item (fun f => bool_decide (md_attr f = AttrDirectory)) name dots items kids Hdots Hn Hi Hnd Hk) as [-> Hf].
  destruct (List.find _ items) as [it|]; [|by rewrite Hf]. destruct Hf as (n & -> & Hok & Hr).
  cbn [item_meta md_attr]. unfold item_attr.
  destruct Hr as [it data cs Hdir _ _ _|it parent kids' Hdir _ Hp Hr]; rewrite Hdir; cbn; [done|].
  eexists. split; [done|]. exists [dot_item 1 (it_cluster it); dot_item 2 parent]. split; [done|].
  split; [|vm_compute; reflexivity]. apply Forall_cons. split; [apply dot_item_ok; [apply Hok|by left]|]. apply Forall_singleton, dot_item_ok; [done|by right].
Qed.

Lemma descend_run names sub c kids :
  Forall (fun s => plain_name s = true) names -> dir_at sub c kids ->
  match tree_find kids names with
  | Some (NDir kids') =>
      exists c', descend fs names (Some c) = Ok (Some c')
        /\ dir_at (match names with [] => sub | _ => true end) c' kids'
  | _ => descend fs names (Some c) = Err no_directory
  end.
Proof.
  intros Hn. revert sub c kids. induction Hn as [|name names Hname Hn IH]; intros sub c kids Hd; cbn [tree_find descend].
  { by exists c. }
  pose proof (cluster_num_run name sub c kids Hd Hname) as Hc. destruct (find_kid kids name) as [[data|kids']|].
  - rewrite Hc. by destruct names.
  - destruct Hc as (c' & -> & Hd'). specialize (IH true c' kids' Hd'). by destruct names.
  - by rewrite Hc.
Qed.

(** Looking up a name in a directory. *)
Lemma entry_in_dir_run name sub c kids (dirs : bool) :
  dir_at sub c kids -> plain_name name = true ->
  match find_kid kids name with
  | Some n =>
      exists it, item_ok it /\ node_rep (volume fs) it n
        /\ entry_in_dir fs name (Some c) dirs
           = if match n with NFile _ => true | NDir _ => dirs end then Ok (item_meta it) else Err no_entry
  | None => entry_in_dir fs name (Some c) dirs = Err no_entry
  end.
Proof.
  intros (dots & Hd & Hdots & _) Hn. unfold entry_in_dir.
  destruct (scan_dir_run c dots kids Hd (is_dots_ok dots Hdots)) as (items & -> & Hi & Hnd & Hk). cbn [obind].
  destruct (find_item (fun f => bool_decide (md_attr f = AttrArchive) || (dirs && bool_decide (md_attr f = AttrDirectory)))
              name dots items kids Hdots Hn Hi Hnd Hk) as [-> Hf].
  destruct (List.find _ items) as [it|]; [|by rewrite Hf]. destruct Hf as (n & -> & Hok & Hr). exists it. split_and!; [done..|].
  cbn [item_meta md_attr]. unfold item_attr.
  destruct Hr as [it data cs Hdir _ _ _|it parent kids' Hdir _ Hp Hr]; rewrite Hdir; [done|]. by destruct dirs.
Qed.

Lemma entry_bad_name name c kids dirs :
  dir_rep (volume fs) c [] kids -> entry_name name = false -> entry_in_dir fs name (Some c) dirs = Err no_entry.
Proof.
  intros Hd Hn. unfold entry_in_dir.
  destruct (scan_dir_run c [] kids Hd (Forall_nil_2 _)) as (items & -> & Hi & _). cbn [obind app].
  by rewrite (find_bad_item (fun f => bool_decide (md_attr f = AttrArchive) || (dirs && bool_decide (md_attr f = AttrDirectory)))).
Qed.

End Tree.

(** ** Paths *)

(** The components of a normalised path: [..] in front, then the names it denotes. *)
Lemma parts_denote p :
  exists n, normalize_parts p = replicate n Path_PARENT_DIR ++ denote [] p
    /\ Forall (fun s => plain_name s = true) (denote [] p).
Proof.
  destruct (normalize_parts_canonical p) as (n & names & Hp & Hf & _).
  assert (denote [] p = names) as ->.
  { unfold denote. replace (if Path_is_abs p then [] else []) with (@nil string) by (by destruct (Path_is_abs p)).
    rewrite <- normalize_parts_walk, Hp, Path.walk_app by done.
    assert (walk [] (replicate n Path_PARENT_DIR) = []) as -> by (clear; by induction n).
    by rewrite walk_plain_names. }
  by exists n.
Qed.

Section Paths.
Context (fs : Fat) (kids : list (string * node)) (Hfs : fat_ok fs kids).

#[local] Abbreviation root := (fat_root_cluster_num fs).

Lemma root_dir_at : dir_at fs false root kids.
Proof. exists []. split; [apply Hfs|]. split; [constructor|done]. Qed.

Lemma descend_dots names n :
  descend fs (replicate n Path_PARENT_DIR ++ names) (Some root) = descend fs names (Some root).
Proof.
  induction n as [|n IH]; [done|]. cbn [replicate app descend]. unfold fat_cluster_num.
  rewrite (bool_decide_eq_true_2 (Some root = Some root)), orb_true_r by done. cbn. exact IH.
Qed.

(** The directory that holds the entry of a path. *)
Lemma descend_parent p :
  descend fs (Path_names (Path_parent (Path_normalize p))) (Some root)
  = descend fs (removelast (denote [] p)) (Some root).
Proof.
  destruct (parts_denote p) as (n & Hp & _).
  assert (descend fs (removelast (normalize_parts p)) (Some root) = descend fs (removelast (denote [] p)) (Some root)) as Hr.
  { rewrite Hp. destruct (denote [] p) as [|x l _] using rev_ind.
    - rewrite app_nil_r. destruct n as [|n]; [done|]. rewrite replicate_S_end, removelast_last.
      rewrite <- (app_nil_r (replicate n _)). apply descend_dots.
    - rewrite app_assoc, !removelast_last. apply descend_dots. }
  destruct (names_parent (Path_normalize p)) as [E|[E1 E2]].
  - by rewrite E, normalize_parts_normalize.
  - rewrite normalize_parts_normalize in E1. rewrite E2, <- Hr, E1. cbn [descend]. unfold fat_cluster_num.
    by rewrite (bool_decide_eq_true_2 (Some root = Some root)), orb_true_r by done.
Qed.

Lemma last_name p :
  match last (denote [] p) with
  | Some name => Path_name (Path_normalize p) = name
  | None => entry_name (Path_name (Path_normalize p)) = false
  end.
Proof.
  unfold Path_name. rewrite names_normalize. destruct (parts_denote p) as (n & -> & _). rewrite last_app.
  destruct (last (denote [] p)); [done|]. destruct n as [|n]; [done|]. by rewrite replicate_S_end, last_snoc.
Qed.

Lemma tree_find_snoc ks names name :
  tree_find ks (names ++ [name]) = match tree_find ks names with
                                   | Some (NDir ks') => find_kid ks' name
                                   | _ => None
                                   end.
Proof.
  revert ks. induction names as [|n names IH]; intros ks; cbn [app tree_find].
  - destruct (find_kid ks name) as [[]|]; done.
  - destruct (find_kid ks n) as [[data|ks']|]; [by destruct names|apply IH|done].
Qed.

(** The entry of a path, and the node behind it. *)
Lemma lookup_path p (dirs : bool) :
  let r := (let? c := descend fs (Path_names (Path_parent (Path_normalize p))) (Some root) in
            entry_in_dir fs (Path_name (Path_normalize p)) c dirs) in
  match denote [] p, tree_find kids (denote [] p) with
  | _ :: _, Some n =>
      exists it, item_ok it /\ node_rep (volume fs) it n
        /\ r = if match n with NFile _ => true | NDir _ => dirs end then Ok (item_meta it) else Err no_entry
  | _, _ => exists ctx, r = Err (with_context NotFound ctx)
  end.
Proof.
  destruct (parts_denote p) as (_ & _ & Hpl). pose proof (last_name p) as Hl. cbv zeta. rewrite descend_parent.
  pose proof root_dir_at as Hroot. pose proof (fat_volume fs kids Hfs) as Hv.
  destruct (denote [] p) as [|name names _] using rev_ind.
  { cbn [removelast descend obind]. eexists. by apply (entry_bad_name fs Hv _ root kids), Hl; apply Hfs. }
  rewrite removelast_last, tree_find_snoc. rewrite last_snoc in Hl. rewrite Hl.
  apply Forall_app in Hpl as [Hnames [Hname _]%Forall_cons].
  destruct (names ++ [name]) as [|x l] eqn:E; [by destruct names|]. clear x l E.
  pose proof (descend_run fs Hv names false root kids Hnames Hroot) as Hd.
  destruct (tree_find kids names) as [[data|ks]|]; [rewrite Hd; by eexists| |rewrite Hd; by eexists].
  destruct Hd as (c & -> & Hc). cbn [obind]. pose proof (entry_in_dir_run fs Hv name _ c ks dirs Hc Hname) as He.
  destruct (find_kid ks name) as [n|]; [exact He|]. rewrite He. by eexists.
Qed.

(** The listing of a directory. *)
Lemma list_path p :
  match tree_find kids (denote [] p) with
  | Some (NDir ks) =>
      fat_read_entry_names fs p
      = Ok (match denote [] p with [] => [] | _ => [Path_CURRENT_DIR; Path_PARENT_DIR] end ++ (fst <$> ks))
  | _ => fat_read_entry_names fs p = Err no_directory
  end.
Proof.
  destruct (parts_denote p) as (n & Hp & Hpl). pose proof (fat_volume fs kids Hfs) as Hv.
  assert (fat_read_entry_names fs p
    = (let? c := descend fs (denote [] p) (Some root) in
       let? files := scan_dir fs c in Ok (md_string <$> files))) as ->.
  { unfold fat_read_entry_names. rewrite names_normalize, Hp, <- (descend_dots (denote [] p) n).
    destruct (replicate n Path_PARENT_DIR ++ denote [] p) as [|x l]; [done|]. cbn [descend].
    assert (fat_cluster_num fs x None = fat_cluster_num fs x (Some root)) as ->; [|done]. unfold fat_cluster_num.
    by rewrite (bool_decide_eq_true_2 (Some root = Some root)), orb_true_r by done. }
  pose proof (descend_run fs Hv _ false root kids Hpl root_dir_at) as Hd.
  destruct (tree_find kids (denote [] p)) as [[data|ks]|]; [by rewrite Hd| |by rewrite Hd].
  destruct Hd as (c & -> & dots & Hr & Hdots & Hn). cbn [obind].
  destruct (scan_dir_run fs Hv c dots ks Hr (is_dots_ok dots Hdots)) as (items & -> & Hi & _ & Hk). cbn [obind].
  rewrite <- list_fmap_compose, fmap_app, Hn. do 2 f_equal; [by destruct (denote [] p)|].
  clear -Hi Hk. induction Hk as [|it k items ks [E _] Hk IH]; [done|]. inversion_clear Hi as [|? ? _ Hi'].
  cbn [fmap list_fmap]. f_equal; [by rewrite <- E|by apply IH].
Qed.

(** Reading the clusters of a file. *)
Lemma file_content it data :
  item_ok it -> node_rep (volume fs) it (NFile data) ->
  exists es, read_chained_dir_entries (volume fs) (it_cluster it) = Ok es
    /\ vec_resize (mjoin es) (Z.to_nat (it_size it)) 0 = data.
Proof.
  intros Hok Hr. inversion Hr as [? ? cs Hd Hs Hch [rest Hpre]|]; subst.
  exists (chain_entries (volume fs) cs).
  rewrite (read_chained_run _ (fat_volume fs kids Hfs) _ cs) by (done || apply Hok). split; [done|].
  unfold vec_resize. rewrite Hpre, Hs, Nat2Z.id, take_app_length, length_app.
  replace (length data - (length data + length rest))%nat with 0%nat by lia. apply app_nil_r.
Qed.

End Paths.

Definition reports_not_found {A} (r : Result A) : Prop := exists ctx, r = Err (with_context NotFound ctx).

(** What reading a path and its metadata give. *)
Lemma read_path fs kids p offset max_len :
  fat_ok fs kids -> 0 <= offset -> 0 <= max_len < 2 ^ 64 ->
  match denote [] p, tree_find kids (denote [] p) with
  | _ :: _, Some (NFile data) =>
      fat_read_file fs p offset max_len = Ok (read_range data offset max_len)
      /\ fat_metadata fs p = Ok (MkFsMetaData FsFile (Z.of_nat (length data)))
  | _ :: _, Some (NDir _) =>
      reports_not_found (fat_read_file fs p offset max_len) /\ fat_metadata fs p = Ok (MkFsMetaData FsDirectory 0)
  | _, _ => reports_not_found (fat_read_file fs p offset max_len) /\ reports_not_found (fat_metadata fs p)
  end.
Proof.
  intros Hfs Ho Hm. unfold reports_not_found.
  pose proof (lookup_path fs kids Hfs p false) as Hf. pose proof (lookup_path fs kids Hfs p true) as Hd. cbv zeta in Hf, Hd.
  unfold fat_read_file, file_by_abs_path, fat_file, fat_metadata, metadata_by_abs_path.
  destruct (descend fs (Path_names (Path_parent (Path_normalize p))) (Some (fat_root_cluster_num fs))) as [c|e|];
    cbn [obind] in Hf, Hd |- *.
  - destruct (denote [] p) as [|n names]; [destruct Hf as [? ->], Hd as [? ->]; cbn; eauto|].
    destruct (tree_find kids (n :: names)) as [[data|ks]|]; [| |destruct Hf as [? ->], Hd as [? ->]; cbn; eauto].
    + destruct Hf as (it & Hok & Hr & ->), Hd as (it' & Hok' & Hr' & ->). cbn [obind item_meta md_target_cluster_num md_size].
      destruct (file_content fs kids Hfs it data Hok Hr) as (es & -> & Hres). cbn [obind]. cbv zeta.
      rewrite Hres. cbn [obind]. inversion Hr' as [? ? ? Hd' Hs' _ _|]; subst. pose proof (ok_size _ Hok').
      split; [apply slice_range; lia|]. cbn. rewrite Hs'. unfold item_attr. by rewrite Hd'.
    + destruct Hf as (it & Hok & Hr & ->), Hd as (it' & Hok' & Hr' & ->). split; [by eexists|].
      inversion Hr' as [|? ? ? Hd' Hs' _ _]; subst. cbn. rewrite Hs'. unfold item_attr. by rewrite Hd'.
  - destruct (denote [] p) as [|n names]; [destruct Hf as [? [= ->]]; eauto|].
    destruct (tree_find kids (n :: names)) as [[data|ks]|]; [by destruct Hf as (? & ? & ? & ?)|by destruct Hd as (? & ? & ? & ?)|].
    destruct Hf as [? [= ->]]. eauto.
  - destruct (denote [] p) as [|n names]; [by destruct Hf|].
    destruct (tree_find kids (n :: names)) as [[data|ks]|]; [by destruct Hf as (? & ? & ? & ?)|by destruct Hd as (? & ? & ? & ?)|by destruct Hf].
Qed.

(** ** Properties *)

(** C7: On a volume that holds a tree of files and directories (long names of
    Latin-1 characters), the read operations are lookups in that tree: a path
    of a file reads the range of its content and has its size, a directory
    lists its entries, any other path is reported as not found, and writes are
    refused; nothing panics. *)
Theorem fat_refines_tree fs kids p offset max_len :
  fat_ok fs kids -> 0 <= offset -> 0 <= max_len < 2 ^ 64 ->
  let names := denote [] p in
  match names, tree_find kids names with
  | _ :: _, Some (NFile data) =>
      fs_read_file fs p offset max_len = Ok (read_range data offset max_len)
      /\ fs_metadata fs p = Ok (MkFsMetaData FsFile (Z.of_nat (length data)))
  | _ :: _, Some (NDir _) =>
      reports_not_found (fs_read_file fs p offset max_len) /\ fs_metadata fs p = Ok (MkFsMetaData FsDirectory 0)
  | _, _ => reports_not_found (fs_read_file fs p offset max_len) /\ reports_not_found (fs_metadata fs p)
  end
  /\ match tree_find kids names with
     | Some (NDir ks) =>
         fs_read_entry_names fs p
         = Ok (match names with [] => [] | _ => [Path_CURRENT_DIR; Path_PARENT_DIR] end ++ (fst <$> ks))
     | _ => reports_not_found (fs_read_entry_names fs p)
     end
  /\ fs_write_file fs p offset [] = (Err (error_into (EVirtualFileSystem (ReadOnly (Some p)))), fs).
Proof.
  intros Hfs Ho Hm names. split; [|split; [|done]].
  { pose proof (read_path fs kids p offset max_len Hfs Ho Hm) as H. fold names in H. by destruct names. }
  pose proof (list_path fs kids Hfs p) as Hl. fold names in Hl. cbn [fs_read_entry_names fat_file_system]. unfold reports_not_found.
  destruct (tree_find kids names) as [[]|]; [rewrite Hl; by eexists|exact Hl|rewrite Hl; by eexists].
Qed.

(** C33: Reading a chain of clusters ends exactly when the chain does: if following
    the file allocation table from a cluster reaches an end, the bound on the
    rounds is never met and the entries of the clusters come back in order;
    otherwise the loop goes on after any number of rounds. *)
Theorem fat_chain_terminates v c :
  volume_ok v -> 0 <= c < 2 ^ 32 ->
  (exists cs, chain v c cs /\ read_chained_dir_entries v c = Ok (chain_entries v cs))
  \/ ((forall cs, ~ chain v c cs)
      /\ forall n, exists next s, next_cluster_num v c = Ok next
           /\ loop_nat (chain_body v) n ([], c, next) = Ok (inl s)).
Proof.
  intros Hv Hc. pose proof (chain_length v c) as Hlen. revert Hlen. generalize (Pos.to_nat CHAIN_ROUNDS). intros rounds Hlen.
  destruct (loop_nat (chain_body v) rounds ([], c, Some (cluster_type (fat_value v c)))) as [[s|es]|e|] eqn:Hl.
  - right. assert (forall cs, ~ chain v c cs) as Hno.
    { intros cs Hch. by rewrite (chain_loop v Hv [] c cs rounds Hc Hch (Hlen cs Hch)) in Hl. }
    split; [done|]. intros n. exists (Some (cluster_type (fat_value v c))).
    destruct (loop_nat (chain_body v) n ([], c, Some (cluster_type (fat_value v c)))) as [[s'|]|e|] eqn:Hn;
      apply (chain_loop_inv v Hv [] c n _ Hc) in Hn; [|by destruct Hn as [cs []%Hno]|done|done].
    exists s'. by rewrite next_cluster_run.
  - left. apply (chain_loop_inv v Hv [] c rounds _ Hc) in Hl as [cs Hcs]. exists cs. split; [done|]. by apply read_chained_run.
  - by apply (chain_loop_inv v Hv [] c rounds _ Hc) in Hl.
  - by apply (chain_loop_inv v Hv [] c rounds _ Hc) in Hl.
Qed.

(** The mark of a deleted entry: its first byte. *)
Definition deleted (e : DirectoryEntry) : DirectoryEntry := 0xe5 :: tail e.

Lemma long_entry_deleted seq part : deleted (long_entry seq part) = long_entry 0xe5 part.
Proof. done. Qed.

Lemma scan_deleted it rest :
  item_ok it -> it_parts it <> [] ->
  scan_entries (deleted <$> item_entries it) [] = [item_meta it]
  /\ scan_entries ((deleted <$> item_entries it) ++ rest) [] = item_meta it :: scan_entries rest [].
Proof.
  intros Hok Hne. enough (forall rest, scan_entries ((deleted <$> item_entries it) ++ rest) [] = item_meta it :: scan_entries rest []) as H
    by (split; [rewrite <- (app_nil_r (_ <$> _)); apply H|apply H]). clear rest. intros rest.
  unfold item_entries. rewrite fmap_app, <- app_assoc.
  assert (forall parts seq rest buf, Forall (fun p => Forall latin1 p /\ (length p <= 13)%nat) parts ->
    scan_entries ((deleted <$> long_entries seq parts) ++ rest) buf = scan_entries rest (parts ++ buf)) as Hlong.
  { clear. intros parts. induction parts as [|part [|part' parts] IH]; intros seq rest buf Hf; [done| |].
    - cbn [long_entries fmap list_fmap app]. rewrite long_entry_deleted.
      by apply (scan_long_entries [part] 0xe5 rest buf Hf ltac:(lia)).
    - change (long_entries seq (part :: part' :: parts)) with (long_entries (seq + 1) (part' :: parts) ++ [long_entry seq part]).
      inversion_clear Hf as [|? ? Hp Hf']. rewrite fmap_app, <- app_assoc, IH by done. cbn [fmap list_fmap app].
      rewrite long_entry_deleted. apply (scan_long_entries [part] 0xe5); [by apply Forall_singleton|lia]. }
  rewrite Hlong, app_nil_r by apply Hok.
  destruct (short_entry_facts it Hok) as (Hs & Ha & Hc & Hz). pose proof (ok_short it Hok) as [Hlen _].
  cbn [fmap list_fmap app scan_entries].
  assert (forall i, (1 <= i)%nat -> raw (deleted (short_entry it)) i = raw (short_entry it) i) as Hraw.
  { intros [|i] Hi; [lia|]. unfold deleted, short_entry. destruct (it_short it); [done|]. done. }
  assert (attr (deleted (short_entry it)) = Some (item_attr it)) as Ha' by (rewrite <- Ha; unfold attr; by rewrite Hraw by lia).
  rewrite Ha', (bool_decide_eq_false_2 (Some _ = None)), andb_false_r by done.
  assert (lf_name (deleted (short_entry it)) = None) as ->
    by (unfold lf_name, is_lf_name_entry; rewrite Ha'; unfold item_attr; by destruct (it_dir it)).
  unfold file_size, first_cluster_num in *. rewrite !Hraw by lia. rewrite Hc, Hz.
  unfold item_meta, item_name, item_attr. destruct (it_dir it), (it_parts it); done.
Qed.

(** A scan does not look at the mark of deleted entries: a file whose entries
    are all marked as deleted is listed under its old name, with its old size and
    cluster, between the files around it. *)
Theorem scan_lists_deleted_files items1 it items2 tail :
  Forall item_ok items1 -> item_ok it -> Forall item_ok items2 -> it_parts it <> [] -> dir_end tail ->
  scan_entries (mjoin (item_entries <$> items1) ++ (deleted <$> item_entries it)
                ++ mjoin (item_entries <$> items2) ++ tail) []
  = item_meta <$> items1 ++ it :: items2.
Proof.
  intros H1 Hit H2 Hne Ht. induction H1 as [|i items1 Hi H1 IH]; cbn [fmap list_fmap mjoin list_join app].
  - destruct (scan_deleted it (mjoin (item_entries <$> items2) ++ tail) Hit Hne) as [_ ->]. f_equal. by apply scan_items.
  - rewrite <- app_assoc, scan_item by done. f_equal. exact IH.
Qed.

(** An entry that is neither a file nor a directory leaves the parts of its long
    name behind: they become the end of the next name. *)
Lemma scan_keeps_stale_parts parts e it rest :
  Forall (fun p => Forall latin1 p /\ (length p <= 13)%nat) parts ->
  attr e = None -> entry_type e <> EntryNull -> item_ok it -> it_parts it <> [] ->
  scan_entries (long_entries 1 parts ++ e :: item_entries it ++ rest) []
  = {| md_name := mjoin (it_parts it ++ parts); md_attr := item_attr it; md_size := it_size it;
       md_target_cluster_num := it_cluster it |} :: scan_entries rest [].
Proof.
  intros Hp Ha He Hok Hne. rewrite scan_long_entries, app_nil_r by (done || lia). cbn [scan_entries].
  rewrite Ha, (bool_decide_eq_false_2 (entry_type e = EntryNull)) by done. cbn [andb].
  assert (lf_name e = None) as -> by (unfold lf_name, is_lf_name_entry; by rewrite Ha).
  unfold item_entries. rewrite <- app_assoc, scan_long_entries by (done || apply Hok || lia). cbn [app scan_entries].
  destruct (short_entry_facts it Hok) as (Hs & Ha' & Hc & Hz).
  rewrite Ha', (bool_decide_eq_false_2 (Some _ = None)), andb_false_r by done.
  assert (lf_name (short_entry it) = None) as ->
    by (unfold lf_name, is_lf_name_entry; rewrite Ha'; unfold item_attr; by destruct (it_dir it)).
  rewrite Hc, Hz. unfold item_attr. destruct (it_dir it), (it_parts it); done.
Qed.

(** The two bytes of a unit are joined without a shift: the Japanese letter
    U+3042 is read as the letter r. *)
Lemma lf_name_above_latin1 : lf_name (long_entry 0x41 [0x3042]) = Some [0x72].
Proof. vm_compute. reflexivity. Qed.
