(* ===== verification/Procfs.v ===== *)
(** * The process file system ([kernel/src/fs/procfs.rs])

    Files made of the state of the scheduler: [/uptime], [/self] and a directory
    with a [status] file per task.  [ProcFs] carries the scheduler and the clock as
    they are when an operation runs. *)
From Stdlib Require Import ZArith Lia Ascii.
From stdpp Require Import base gmap list strings sorting.
From S2P Require Import Prelude Utf8 Path KError Ansi Vfs Scheduler.

#[local] Open Scope string_scope.
#[local] Open Scope list_scope.
#[local] Open Scope Z_scope.

(** ** Numbers as text *)

(** [to_string] of a [usize] and of an [i32]. *)
Definition usize_bytes (n : Z) : list Z := to_dec 20 n.
Definition usize_string (n : Z) : string := bytes_string (usize_bytes n).
Definition i32_string (n : Z) : string :=
  if n <? 0 then "-" +:+ bytes_string (to_dec 10 (- n)) else bytes_string (to_dec 10 n).

(** [s.parse::<usize>()]: an optional plus sign and digits. *)
Definition parse_usize (s : string) : option Z :=
  let bs := string_bytes s in
  let digits := match bs with
                | b :: (_ :: _ as rest) => if b =? 0x2b then rest else bs
                | _ => bs
                end in
  if forallb is_ascii_digit digits then parse_num (2 ^ 64 - 1) digits else None.

(** ** Data *)

Inductive ProcNode :=
| ProcRoot
| ProcUptime
| ProcTaskDir (id : Z)
| ProcTaskStatus (id : Z).

Section ProcFs.
Context {Dwarf : Type}.

Record ProcFs := MkProcFs {
  proc_sched : @TaskScheduler Dwarf;
  proc_uptime_ms : Z
}.

Implicit Types p : ProcFs.

Definition state_string (st : TaskState) : string :=
  match st with
  | Running => "Running"
  | Ready => "Ready"
  | Sleeping => "Sleeping"
  | Exited code => "Exited(" +:+ i32_string code +:+ ")"
  end.

Definition TAB : string := String "009"%char "".
Definition NL : string := String "010"%char "".

(** [{:02}] of a number below 100 *)
Definition two_digits (n : Z) : string := bytes_string [ch_0 + n / 10; ch_0 + n mod 10].

Definition uptime_text (ms : Z) : string :=
  usize_string (ms / 1000) +:+ "." +:+ two_digits (ms mod 1000 / 10) +:+ NL.

Definition status_text (s : TaskSnapshot) : string :=
  "Name:" +:+ TAB +:+ snap_name s +:+ NL
  +:+ "Pid:" +:+ TAB +:+ usize_string (snap_id s) +:+ NL
  +:+ "PPid:" +:+ TAB +:+ match snap_parent s with Some q => usize_string q | None => "-" end +:+ NL
  +:+ "State:" +:+ TAB +:+ state_string (snap_state s) +:+ NL.

Definition proc_err (e : VirtualFileSystemError) : Error_ := error_into (EVirtualFileSystem e).

Definition ProcNode_read p (node : ProcNode) : Result (list Z) :=
  match node with
  | ProcRoot => Err (proc_err (NotFile None))
  | ProcUptime => Ok (string_bytes (uptime_text (proc_uptime_ms p)))
  | ProcTaskDir _ => Err (proc_err (NotFile None))
  | ProcTaskStatus task_id =>
      let? s := ok_or (proc_err (NoSuchFileOrDirectory None)) (task_snapshot (proc_sched p) task_id) in
      Ok (string_bytes (status_text s))
  end.

Definition ProcNode_write (node : ProcNode) (data : list Z) : Result unit :=
  Err (proc_err (ReadOnly None)).

Definition ProcNode_metadata (node : ProcNode) : FsMetaData :=
  match node with
  | ProcRoot => MkFsMetaData FsDirectory 0
  | ProcUptime => MkFsMetaData FsFile 0
  | ProcTaskDir _ => MkFsMetaData FsDirectory 0
  | ProcTaskStatus _ => MkFsMetaData FsFile 0
  end.

Definition resolve_task_id p (s : string) (path : Path) : Result Z :=
  if String.eqb s "self"
  then ok_or (proc_err (NoSuchFileOrDirectory (Some path))) (current_task_id (proc_sched p))
  else
    let? id := ok_or (proc_err (NoSuchFileOrDirectory (Some path))) (parse_usize s) in
    match task_snapshot (proc_sched p) id with
    | None => Err (proc_err (NoSuchFileOrDirectory (Some path)))
    | Some _ => Ok id
    end.

Definition path_to_node p (normalized_path : Path) : Result ProcNode :=
  match Path_names normalized_path with
  | [] => Ok ProcRoot
  | [pid] =>
      if String.eqb pid "uptime" then Ok ProcUptime
      else let? id := resolve_task_id p pid normalized_path in Ok (ProcTaskDir id)
  | [pid; name] =>
      if String.eqb name "status"
      then let? id := resolve_task_id p pid normalized_path in Ok (ProcTaskStatus id)
      else Err (proc_err (NoSuchFileOrDirectory (Some normalized_path)))
  | _ => Err (proc_err (NoSuchFileOrDirectory (Some normalized_path)))
  end.

(** [sort_unstable] of the ids. *)
Definition sorted_task_ids p : list Z := merge_sort Z.le (task_ids (proc_sched p)).

Definition proc_read_entry_names p (path : Path) : Result (list string) :=
  let? node := path_to_node p (Path_normalize path) in
  match node with
  | ProcRoot => Ok (["uptime"; "self"] ++ (usize_string <$> sorted_task_ids p))
  | ProcTaskDir _ => Ok ["status"]
  | _ => Err (proc_err (NotDirectory (Some path)))
  end.

Definition proc_read_file p (path : Path) (offset max_len : Z) : Result (list Z) :=
  let? node := path_to_node p (Path_normalize path) in
  let? bytes := ProcNode_read p node in
  let len := Z.of_nat (length bytes) in
  let start := Z.min offset len in
  let end_ := Z.min (saturating_add start max_len) len in
  slice bytes (Z.to_nat start) (Z.to_nat end_).

Definition proc_write_file p (path : Path) (offset : Z) (data : list Z) : Result unit :=
  let? node := path_to_node p (Path_normalize path) in
  ProcNode_write node data.

Definition proc_metadata p (path : Path) : Result FsMetaData :=
  let? node := path_to_node p (Path_normalize path) in
  Ok (ProcNode_metadata node).

#[export] Instance proc_file_system : FileSystem ProcFs := {
  fs_read_entry_names := proc_read_entry_names;
  fs_read_file := proc_read_file;
  fs_write_file p path offset data := (proc_write_file p path offset data, p);
  fs_metadata := proc_metadata
}.

(** ** Listing and reading agree *)

Lemma digits_bytes l : Forall (fun c => is_ascii_digit c = true) l -> bytes l.
Proof.
  intros Hl. eapply Forall_impl; [exact Hl|]. intros c Hc. apply is_byte_range. revert Hc. unfold is_ascii_digit. cbn.
  bool_cases; cbn; lia || done.
Qed.

(** Parsing a printed id gives it back. *)
Lemma parse_usize_string n : 0 <= n < 2 ^ 64 -> parse_usize (usize_string n) = Some n.
Proof.
  intros Hn. unfold parse_usize, usize_string, usize_bytes.
  pose proof (to_dec_digits 20 n ltac:(lia)) as Hd. rewrite string_bytes_string by (by apply digits_bytes).
  pose proof (parse_to_dec (2 ^ 64 - 1) 20 n ltac:(lia) ltac:(lia) ltac:(lia)) as Hp.
  assert (forallb is_ascii_digit (to_dec 20 n) = true) as Hf.
  { clear Hp. induction Hd as [|c l Hc Hl IH]; [done|]. cbn. by rewrite Hc. }
  destruct (to_dec 20 n) as [|c l]; [done|]. inversion_clear Hd as [|? ? Hc _].
  destruct (Z.eqb_spec c 0x2b) as [->|_]; [done|]. destruct l; by rewrite Hf.
Qed.

Lemma find_task_listed (s : @TaskScheduler Dwarf) id : id ∈ task_ids s -> is_Some (find_task s id).
Proof.
  unfold task_ids, find_task, current_with_id. rewrite !elem_of_app.
  destruct (current_task s) as [t|]; [destruct (decide (task_id t = id)) as [?|Hne]; [by eexists|]|];
  (destruct (list_find _ (ready_queue s)) as [[i t1]|] eqn:Hr; [by eexists|]);
  (destruct (list_find _ (sleeping_tasks s)) as [[i t2]|] eqn:Hs; [by eexists|]);
  apply list_find_id_absent in Hr; apply list_find_id_absent in Hs; intros [?|[Hc|?]]; try done.
  - by apply list_elem_of_singleton in Hc.
  - by apply not_elem_of_nil in Hc.
Qed.

Lemma find_task_id (s : @TaskScheduler Dwarf) id t : find_task s id = Some t -> task_id t = id.
Proof.
  unfold find_task, current_with_id. destruct (current_task s) as [t0|].
  - destruct (decide (task_id t0 = id)); [by intros [= <-]|].
    destruct (list_find _ (ready_queue s)) as [[i t1]|] eqn:Hr; [intros [= <-]; by apply list_find_Some in Hr as (_ & ? & _)|].
    destruct (list_find _ (sleeping_tasks s)) as [[i t2]|] eqn:Hs; [intros [= <-]; by apply list_find_Some in Hs as (_ & ? & _)|done].
  - destruct (list_find _ (ready_queue s)) as [[i t1]|] eqn:Hr; [intros [= <-]; by apply list_find_Some in Hr as (_ & ? & _)|].
    destruct (list_find _ (sleeping_tasks s)) as [[i t2]|] eqn:Hs; [intros [= <-]; by apply list_find_Some in Hs as (_ & ? & _)|done].
Qed.

(** A printed id is a name of a path. *)
Lemma digits_no_sep l : Forall (fun c => is_ascii_digit c = true) l -> no_sep (bytes_string l) = true.
Proof.
  induction 1 as [|c l Hc Hl IH]; [done|].
  change (bytes_string (c :: l)) with (String (byte_ascii c) (bytes_string l)). cbn [no_sep]. rewrite IH, andb_true_r.
  apply negb_true_iff, Ascii.eqb_neq. intros E. apply (f_equal Ascii.N_of_ascii) in E. unfold byte_ascii in E.
  revert Hc. unfold is_ascii_digit. bool_cases; cbn [andb]; intros; try done.
  rewrite Ascii.N_ascii_embedding in E by lia. cbn in E. lia.
Qed.

Lemma usize_string_plain n : 0 <= n -> plain_name (usize_string n) = true /\ no_sep (usize_string n) = true.
Proof.
  intros Hn. pose proof (to_dec_digits 20 n Hn) as Hd. split; [|by apply digits_no_sep].
  unfold usize_string, usize_bytes. pose proof (to_dec_nonempty 19 n) as Hne.
  destruct (to_dec 20 n) as [|c l]; [done|]. inversion_clear Hd as [|? ? Hc _].
  change (bytes_string (c :: l)) with (String (byte_ascii c) (bytes_string l)). unfold plain_name. cbn [str_is_empty negb andb].
  assert (byte_ascii c <> "."%char) as Hdot.
  { intros E. apply (f_equal Ascii.N_of_ascii) in E. unfold byte_ascii in E. revert Hc. unfold is_ascii_digit.
    bool_cases; cbn [andb]; intros; try done. rewrite Ascii.N_ascii_embedding in E by lia. cbn in E. lia. }
  apply Ascii.eqb_neq in Hdot. cbn [String.eqb Path_CURRENT_DIR Path_PARENT_DIR]. by rewrite Hdot.
Qed.

(** Path of a task's status file, as the names of a listing give it. *)
Definition status_path (name : string) : Path := Path_join (Path_join Path_root name) "status".

Lemma status_path_names n :
  0 <= n -> Path_names (Path_normalize (status_path (usize_string n))) = [usize_string n; "status"].
Proof.
  intros Hn. destruct (usize_string_plain n Hn) as [Hp Hs]. unfold status_path. rewrite names_normalize.
  rewrite join_plain_parts, join_plain_parts by (done || by rewrite is_abs_join). done.
Qed.

(** C34: Every live task appears in the listing of the process file system under
    its number, and the status file of that name holds the name, the number,
    the parent and the state the scheduler has for that task. *)
Theorem procfs_tasks_readable p id :
  id ∈ task_ids (proc_sched p) -> 0 <= id < 2 ^ 64 ->
  exists t, find_task (proc_sched p) id = Some t /\ task_id t = id
    /\ (exists names, fs_read_entry_names p Path_root = Ok names /\ usize_string id ∈ names)
    /\ (let text := string_bytes (status_text (MkTaskSnapshot id (task_name t) (task_state t) (task_parent t))) in
        Z.of_nat (length text) < 2 ^ 64 ->
        fs_read_file p (status_path (usize_string id)) 0 (2 ^ 64 - 1) = Ok text)
    /\ fs_metadata p (status_path (usize_string id)) = Ok (MkFsMetaData FsFile 0).
Proof.
  intros Hin Hid. destruct (find_task_listed _ _ Hin) as [t Ht]. exists t. pose proof (find_task_id _ _ _ Ht) as Hti.
  assert (path_to_node p (Path_normalize (status_path (usize_string id))) = Ok (ProcTaskStatus id)) as Hnode.
  { unfold path_to_node. rewrite status_path_names by lia. cbn [String.eqb]. unfold resolve_task_id.
    assert (String.eqb (usize_string id) "self" = false) as ->.
    { apply String.eqb_neq. intros E. pose proof (parse_usize_string id Hid) as Hp. by rewrite E in Hp. }
    rewrite parse_usize_string by done. cbn [ok_or obind]. unfold task_snapshot. by rewrite Ht. }
  split_and!; [done|done| | |].
  - eexists. split; [reflexivity|]. apply elem_of_app. right. apply list_elem_of_fmap_2.
    unfold sorted_task_ids. by rewrite merge_sort_Permutation.
  - intros text Hlen. cbn [fs_read_file proc_file_system]. unfold proc_read_file. rewrite Hnode. cbn [obind ProcNode_read].
    unfold task_snapshot. rewrite Ht. cbn [fmap option_fmap option_map ok_or obind]. rewrite Hti. fold text.
    rewrite slice_range by lia. f_equal. unfold read_range. rewrite drop_0. apply firstn_all2. lia.
  - cbn [fs_metadata proc_file_system]. unfold proc_metadata. by rewrite Hnode.
Qed.

End ProcFs.
