(* ===== verification/FsInit.v ===== *)
(** * The mounted file systems ([kernel/src/fs/mod.rs])

    The file systems behind [Box<dyn FileSystem>], the start of the file system,
    and files read through the virtual file system: a file of the FAT volume is
    opened, read and closed by its path.  Witnesses for the FAT volume, the process
    file system and their mounts. *)
From Stdlib Require Import ZArith Lia Ascii.
From stdpp Require Import base gmap list strings sorting.
From S2P Require Import Prelude Utf8 Path KError Vfs Paging Fat FatSpec Scheduler Procfs.

#[local] Open Scope string_scope.
#[local] Open Scope list_scope.
#[local] Open Scope Z_scope.

Section FsInit.
Context {Dwarf Dev : Type}.

(** [Box<dyn FileSystem>] *)
Inductive MountedFs :=
| MountFat (fs : Fat)
| MountProc (p : @ProcFs Dwarf).

#[export] Instance mounted_file_system : FileSystem MountedFs := {
  fs_read_entry_names m path :=
    match m with MountFat fs => fs_read_entry_names fs path | MountProc p => fs_read_entry_names p path end;
  fs_read_file m path offset len :=
    match m with MountFat fs => fs_read_file fs path offset len | MountProc p => fs_read_file p path offset len end;
  fs_write_file m path offset data :=
    match m with
    | MountFat fs => let '(r, fs) := fs_write_file fs path offset data in (r, MountFat fs)
    | MountProc p => let '(r, p) := fs_write_file p path offset data in (r, MountProc p)
    end;
  fs_metadata m path :=
    match m with MountFat fs => fs_metadata fs path | MountProc p => fs_metadata p path end
}.

Definition fs_init (initramfs : FatVolume) (proc : ProcFs) (init_cwd_path : string) : SR (@Vfs MountedFs Dev) unit :=
  do! vfs_init in
  let! fat_fs := slift (Fat_new initramfs) in
  do! mount_fs (Path_new "/mnt/initramfs") (MountFat fat_fs) in
  do! mount_fs (Path_new "/proc") (MountProc proc) in
  chdir (Path_new init_cwd_path).

(** ** No panics *)

Definition mounted_ok (m : MountedFs) : Prop :=
  match m with MountFat fs => exists kids, fat_ok fs kids | MountProc _ => True end.

(** A file system that holds a tree. *)
Definition SafeFs : Type := { m : MountedFs | mounted_ok m }.

(** Both file systems are read-only: a write leaves them as they are. *)
#[export] Instance safe_file_system : FileSystem SafeFs := {
  fs_read_entry_names m := fs_read_entry_names (proj1_sig m);
  fs_read_file m := fs_read_file (proj1_sig m);
  fs_write_file m path offset data := (fst (fs_write_file (proj1_sig m) path offset data), m);
  fs_metadata m := fs_metadata (proj1_sig m)
}.

Lemma mounted_write_same (m : MountedFs) path offset data : snd (fs_write_file m path offset data) = m.
Proof. by destruct m. Qed.

Lemma fat_safe fs kids p offset max_len :
  fat_ok fs kids -> 0 <= offset < 2 ^ 64 -> 0 <= max_len < 2 ^ 64 ->
  fs_read_file fs p offset max_len <> Panic /\ fs_metadata fs p <> Panic.
Proof.
  intros Hfs Ho Hm. pose proof (read_path fs kids p offset max_len Hfs ltac:(lia) Hm) as H.
  cbn [fs_read_file fs_metadata fat_file_system].
  destruct (denote [] p); [|destruct (tree_find kids _) as [[]|]]; destruct H as [H1 H2];
    (rewrite H1 || destruct H1 as [? ->]); by (rewrite H2 || destruct H2 as [? ->]).
Qed.

Lemma path_to_node_no_panic (p : @ProcFs Dwarf) path : path_to_node p path <> Panic.
Proof.
  unfold path_to_node, resolve_task_id. destruct (Path_names path) as [|n [|m [|]]]; try done.
  - destruct (String.eqb n "uptime"); [done|]. destruct (String.eqb n "self"); [by destruct (current_task_id _)|].
    destruct (parse_usize n) as [id|]; [|done]. cbn. by destruct (task_snapshot _ id).
  - destruct (String.eqb m "status"); [|done]. destruct (String.eqb n "self"); [by destruct (current_task_id _)|].
    destruct (parse_usize n) as [id|]; [|done]. cbn. by destruct (task_snapshot _ id).
Qed.

Lemma proc_safe (p : @ProcFs Dwarf) path offset max_len :
  0 <= offset < 2 ^ 64 -> 0 <= max_len ->
  fs_read_file p path offset max_len <> Panic /\ fs_metadata p path <> Panic
  /\ fst (fs_write_file p path offset []) <> Panic.
Proof.
  intros Ho Hm. cbn. unfold proc_read_file, proc_metadata, proc_write_file.
  pose proof (path_to_node_no_panic p (Path_normalize path)) as Hn.
  destruct (path_to_node p (Path_normalize path)) as [node|e|]; [|done|done]. split; [|done]. cbn [obind].
  destruct node as [| | |id]; cbn [ProcNode_read]; try done; [by apply slice_no_panic|].
  destruct (task_snapshot _ id); [|done]. by apply slice_no_panic.
Qed.

#[export] Instance safe_file_system_safe : FileSystemSafe SafeFs.
Proof.
  split.
  - intros [[fs|p] Hok] path offset len Ho Hl; cbn.
    + destruct Hok as [kids Hk]. by apply (fat_safe fs kids).
    + apply (proc_safe p); lia.
  - intros [[fs|p] Hok] path offset data; [done|]. cbn. unfold proc_write_file.
    pose proof (path_to_node_no_panic p (Path_normalize path)). by destruct (path_to_node _ _).
  - intros [[fs|p] Hok] path; cbn.
    + destruct Hok as [kids Hk]. by apply (fat_safe fs kids path 0 0).
    + by apply (proc_safe p path 0 0).
Qed.

(** ** Reading through a mount *)

#[local] Abbreviation Vfs := (@Vfs MountedFs Dev).
Implicit Types v : Vfs.

(** The components of a path in the virtual file system are names. *)
Lemma denote_entries v path :
  cwd_ok (cwd_path v) ->
  Forall (fun s => plain_name s = true) (denote (cwd_names v) path)
  /\ Forall (fun s => no_sep s = true) (denote (cwd_names v) path).
Proof.
  intros Hc. destruct (absolutize_names v path Hc) as (p & Hp & <-).
  destruct (absolutize_ok v path p Hc Hp) as (q & [= <-] & Ha & Hn).
  rewrite <- Hn, names_normalize. split; [|apply normalize_parts_no_sep].
  apply canonical_abs. rewrite <- Ha. apply normalize_parts_canonical.
Qed.

Lemma rel_path_denote names :
  Forall (fun s => plain_name s = true) names -> Forall (fun s => no_sep s = true) names ->
  denote [] (Path_new (Path_ROOT +:+ str_join (String Path_SEPARATOR "") names)) = names.
Proof.
  intros Hp Hs. unfold denote.
  assert (Path_names (Path_new (Path_ROOT +:+ str_join (String Path_SEPARATOR "") names)) = names) as ->.
  { unfold Path_names. rewrite <- join_root_slash. apply (names_join_parts (fun s => negb (str_is_empty s))); [done|done|].
    eapply Forall_impl; [exact Hp|]. intros s Hx%plain_name_facts. by destruct Hx as (-> & _). }
  replace (if Path_is_abs _ then [] else []) with (@nil string) by (by destruct (Path_is_abs _)).
  by rewrite walk_plain_names.
Qed.

(** A mount of a FAT volume that holds a tree. *)
Record fat_mount v (pre : list string) (mid : Z) (fs : Fat) (kids : list (string * node)) : Prop := {
  fm_at : exists root, root_id v = Some root /\ at_path v root pre mid;
  fm_file : exists f, find_file v mid = Some f /\ file_fs f = Some (MountFat fs);
  fm_tree : fat_ok fs kids
}.

(** A path below a mount resolves to the file of the tree. *)
Lemma resolve_mounted v pre mid fs kids path names data :
  vfs_wf v -> fat_mount v pre mid fs kids -> denote (cwd_names v) path = pre ++ names -> names <> [] ->
  tree_find kids names = Some (NFile data) ->
  exists rel, find_file_by_path v path = Some (ResFs mid (MountFat fs) rel (MkFsMetaData FsFile (Z.of_nat (length data))))
    /\ fs_read_file (MountFat fs) rel 0 (2 ^ 64 - 1) = Ok data /\ Z.of_nat (length data) < 2 ^ 32.
Proof.
  intros Hwf [(root & Hroot & Hat) (f & Hf & Hfs) Hfat] Hpath Hne Hfind.
  destruct (wf_root v Hwf) as (root' & rf & Hr & Hrf & Ht). assert (root' = root) as -> by congruence.
  destruct (denote_entries v path (vw_cwd v Hwf)) as [Hplain Hsep]. rewrite Hpath in Hplain, Hsep.
  apply Forall_app in Hplain as [_ Hplain]. apply Forall_app in Hsep as [_ Hsep].
  rewrite (find_file_by_path_denote v path root rf) by (done || apply Hwf). rewrite Hpath.
  rewrite (at_path_resolve v root Ht rf pre mid f names) by done.
  set (rel := Path_new (Path_ROOT +:+ str_join (String Path_SEPARATOR "") names)). exists rel.
  assert (denote [] rel = names) as Hrel by (by apply rel_path_denote).
  assert (Z.of_nat (length data) < 2 ^ 32) as Hlen.
  { pose proof (lookup_path fs kids Hfat rel true) as Hl. rewrite Hrel in Hl. destruct names as [|n names]; [done|].
    rewrite Hfind in Hl. destruct Hl as (it & Hok & Hrep & _). inversion Hrep as [? ? ? _ Hs _ _|]; subst. pose proof (ok_size it Hok). lia. }
  pose proof (read_path fs kids rel 0 (2 ^ 64 - 1) Hfat ltac:(lia) ltac:(lia)) as Hread. rewrite Hrel in Hread.
  destruct names as [|n names]; [done|]. rewrite Hfind in Hread. destruct Hread as [Hread Hmeta].
  cbn [resolve_names]. rewrite Hfs. fold rel. unfold resolve_mount.
  assert (String.eqb (path_str rel) Path_ROOT = false) as ->.
  { apply String.eqb_neq. intros E. assert (denote [] rel = []) as Hnil by (unfold denote, Path_is_abs, Path_names; by rewrite E).
    by rewrite Hrel in Hnil. }
  cbn [fs_metadata fs_read_file mounted_file_system fat_file_system]. rewrite Hmeta, Hread. split_and!; [done| |done].
  f_equal. unfold read_range. rewrite drop_0. apply firstn_all2. lia.
Qed.

Lemma alter_last {A} (g : A -> A) l x : alter g (length l) (l ++ [x]) = l ++ [g x].
Proof. rewrite <- (Nat.add_0_r (length l)). by rewrite alter_app_r. Qed.

(** The first read of a descriptor of a mounted file. *)
Lemma mounted_read_run v l fd mid rel f fs data max_len :
  fds v = l ++ [fd] -> fd_find v (fd_num fd) = Some (length l, fd) ->
  fd_backing fd = BackFs mid rel -> fd_offset fd = 0 -> fs_content_cache fd = None ->
  find_file v mid = Some f -> file_fs f = Some fs -> fs_read_file fs rel 0 (2 ^ 64 - 1) = Ok data ->
  0 <= max_len -> Z.of_nat (length data) < 2 ^ 64 ->
  vfs_read_file (fd_num fd) max_len v
  = (Ok (ReadData (take (Z.to_nat max_len) data)),
     set_fds (l ++ [set_offset (Z.min max_len (Z.of_nat (length data))) (set_cache (Some data) fd)]) v).
Proof.
  intros Hfds Hfd Hb Ho Hc Hf Hfs Hread Hm Hlen. unfold vfs_read_file, file_desc.
  rewrite (sbind_run sget _ v v v) by done. rewrite Hfd. cbn [fmap option_fmap option_map snd ok_or].
  rewrite (sbind_run (slift _) _ v fd v) by done. rewrite Hb, Hc, Ho.
  unfold mount_fs_ref, file_ref, sbind, slift, sget. rewrite Hf. cbn -[read_window update_desc fs_read_file].
  rewrite Hfs. cbn -[read_window update_desc fs_read_file]. rewrite Hread, (update_desc_run v _ _ (length l) fd Hfd).
  set (v1 := set_fds _ v). pose proof (fd_find_alter v (fd_num fd) (length l) fd (set_cache (Some data)) Hfd ltac:(done)) as Hfd1.
  fold v1 in Hfd1. rewrite Hfd1. cbn -[read_window update_desc].
  rewrite read_window_spec by lia. cbn -[update_desc]. rewrite (update_desc_run v1 _ _ (length l) _ Hfd1).
  unfold v1. cbn [fds set_fds]. rewrite Hfds, !alter_last. rewrite (Z.min_l 0 (Z.of_nat (length data))), Z.add_0_l by lia. done.
Qed.

(** C8: A file of a mounted FAT volume is read through the virtual file system:
    opening a path that leads below the mount to a file of the volume's tree
    gives a new descriptor, a read up to any length gives the start of the
    file's content and leaves the offset behind it, and closing the descriptor
    gives the table of open files back as it was. *)
Theorem mounted_fat_file_read v pre mid fs kids path names data max_len :
  vfs_wf v -> room v -> fat_mount v pre mid fs kids ->
  denote (cwd_names v) path = pre ++ names -> names <> [] -> tree_find kids names = Some (NFile data) ->
  0 <= max_len ->
  exists n v1 v2 v3,
    open_file path false v = (Ok (n, None), v1)
    /\ vfs_read_file n max_len v1 = (Ok (ReadData (take (Z.to_nat max_len) data)), v2)
    /\ (exists fd, snd <$> fd_find v2 n = Some fd /\ fd_offset fd = Z.min max_len (Z.of_nat (length data)))
    /\ close_file n v2 = (Ok None, v3)
    /\ fds v3 = fds v /\ files v3 = files v /\ cwd_path v3 = cwd_path v.
Proof.
  intros Hwf Hroom Hmount Hpath Hne Hfind Hm.
  destruct (resolve_mounted v pre mid fs kids path names data Hwf Hmount Hpath Hne Hfind) as (rel & Hres & Hread & Hlen).
  destruct Hmount as [_ (f & Hf & Hfs) Hfat].
  set (n := MkFd (next_fd_num v)). set (fd := MkFileDescriptor n (BackFs mid rel) 0 None None).
  set (v1 := MkVfs (cwd_path v) (root_id v) (files v) (fds v ++ [fd]) (next_file_id v) (wrap 64 (next_fd_num v + 1))).
  assert (forall fd', fd_num fd' = n -> list_find (fun x => fd_num x = n) (fds v ++ [fd']) = Some (length (fds v), fd')) as Hfind1.
  { intros fd' Hn. apply list_find_app_Some. right. rewrite Nat.sub_diag. cbn. rewrite decide_True by done.
    split_and!; [lia| |done]. apply list_find_None, Forall_forall. intros x Hx E.
    destruct (fo_fd _ _ _ (vw_fds v Hwf) x Hx) as [Hlt _]. rewrite E in Hlt. cbn in Hlt. lia. }
  set (fd2 := set_offset (Z.min max_len (Z.of_nat (length data))) (set_cache (Some data) fd)).
  exists n, v1, (set_fds (fds v ++ [fd2]) v1), (set_fds (fds v) v1). split_and!; try done.
  - unfold open_file, sbind, sget. by rewrite Hres.
  - apply (mounted_read_run v1 (fds v) fd mid rel f (MountFat fs)); try done; [by apply Hfind1|lia].
  - exists fd2. split; [|done]. unfold fd_find. cbn [fds set_fds]. by rewrite Hfind1.
  - unfold close_file, sbind, sget, slift, fd_find. cbn [fds set_fds]. rewrite Hfind1 by done. cbn.
    by rewrite delete_middle, app_nil_r.
Qed.

Lemma at_step v root ns id f c g ns' :
  at_path v root ns id -> find_file v id = Some f -> file_fs f = None -> c ∈ file_children f ->
  find_file v c = Some g -> ns' = ns ++ [file_name g] -> at_path v root ns' c.
Proof. intros ? ? ? ? ? ->. by eapply at_child. Qed.

(** The file system after its start: the volume is mounted and files below it can
    be read. *)
Lemma fs_init_mounts vol fs kids proc cwd v :
  Fat_new vol = Ok fs -> fat_ok fs kids -> fs_init vol proc cwd Vfs_new = (Ok tt, v) ->
  vfs_wf v /\ room v /\ fat_mount v ["mnt"; "initramfs"] 2 fs kids.
Proof.
  intros Hnew Hfat Hrun. unfold fs_init in Hrun.
  apply sbind_ok in Hrun as ([] & v0 & Hv0 & Hrun). pose proof (vfs_init_wf v0 Hv0) as Hwf0.
  vm_compute in Hv0. injection Hv0 as <-. rewrite Hnew in Hrun.
  apply sbind_ok in Hrun as (fs' & ? & [[= <-] ->]%slift_ok & Hrun).
  apply sbind_ok in Hrun as ([] & v1 & Hv1 & Hrun). pose proof (mount_fs_safe (Path_new "/mnt/initramfs") (MountFat fs) _ Hwf0) as [Hwf1 _].
  rewrite Hv1 in Hwf1. cbn [snd] in Hwf1. vm_compute in Hv1. injection Hv1 as <-.
  apply sbind_ok in Hrun as ([] & v2 & Hv2 & Hrun). pose proof (mount_fs_safe (Path_new "/proc") (MountProc proc) _ Hwf1) as [Hwf2 _].
  rewrite Hv2 in Hwf2. cbn [snd] in Hwf2. vm_compute in Hv2. injection Hv2 as <-.
  pose proof (chdir_safe (Path_new cwd) _ Hwf2) as [Hwf3 _]. rewrite Hrun in Hwf3. cbn [snd] in Hwf3.
  split; [done|]. unfold chdir in Hrun. apply sbind_ok in Hrun as (? & ? & [= <- <-] & Hrun).
  apply sbind_ok in Hrun as (p & ? & [_ ->]%slift_ok & Hrun). apply sbind_ok in Hrun as (r & ? & [_ ->]%slift_ok & Hrun).
  destruct (negb _); [done|]. injection Hrun as <-. split; [by vm_compute|]. split; [|by eexists|done].
  exists 0. split; [done|].
  eapply (at_step _ 0 ["mnt"] 1); [|reflexivity|reflexivity|by left|reflexivity|reflexivity].
  eapply (at_step _ 0 [] 0); [apply at_root|reflexivity|reflexivity|by left|reflexivity|reflexivity].
Qed.

End FsInit.

(** ** Witnesses *)

(** A volume with sectors and clusters of 512 bytes, one table of 600 sectors
    and 66168 clusters.  Clusters 2 and 3 hold the root and a directory, 4 and 5
    a file of 600 bytes, 6 one of three bytes. *)

Definition demo_boot : list Z :=
  [0xeb; 0x58; 0x90] ++ replicate 8 0x20 ++ to_le_bytes 2 512 ++ [1] ++ to_le_bytes 2 32 ++ [1]
  ++ to_le_bytes 2 0 ++ to_le_bytes 2 0 ++ [0xf8] ++ to_le_bytes 2 0 ++ to_le_bytes 2 32 ++ to_le_bytes 2 2
  ++ to_le_bytes 4 0 ++ to_le_bytes 4 66200 ++ to_le_bytes 4 600 ++ to_le_bytes 2 0 ++ to_le_bytes 2 0
  ++ to_le_bytes 4 2 ++ to_le_bytes 2 1 ++ to_le_bytes 2 6 ++ replicate 460 0.

Definition demo_table : list Z :=
  mjoin (to_le_bytes 4 <$> [0xffffff8; 0xfffffff; 0xfffffff; 0xfffffff; 5; 0xfffffff; 0xfffffff]).

Definition ascii_chars (s : string) : list Z := string_bytes s.

Definition demo_item (parts : list string) (short : string) (dir : bool) (size cluster : Z) : dir_item :=
  {| it_parts := ascii_chars <$> parts; it_short := ascii_chars short; it_dir := dir; it_size := size;
     it_cluster := cluster; it_times1 := replicate 8 0; it_times2 := replicate 4 0 |}.

Definition demo_hello : dir_item := demo_item ["hello world.t"; "xt"] "HELLOW~1TXT" false 600 4.
Definition demo_sub : dir_item := demo_item ["sub"] "SUB        " true 0 3.
Definition demo_notes : dir_item := demo_item ["notes"] "NOTES      " false 3 6.

Definition demo_dir (items : list dir_item) : list Z := mjoin (mjoin (item_entries <$> items)).

(** Regions of bytes in memory, zero elsewhere. *)
Fixpoint regions (l : list (Z * list Z)) (a : Z) : Z :=
  match l with
  | [] => 0
  | (start, bs) :: l =>
      if (start <=? a) && (a <? start + Z.of_nat (length bs)) then nth (Z.to_nat (a - start)) bs 0 else regions l a
  end.

Lemma regions_bytes l a :
  forallb (fun r => forallb is_byte (snd r)) l = true -> 0 <= regions l a < 256.
Proof.
  induction l as [|[start bs] l IH]; cbn [regions forallb snd]; [lia|]. intros [Hb Hl]%andb_true_iff.
  destruct (_ && _); [|by apply IH]. destruct (nth_in_or_default (Z.to_nat (a - start)) bs 0) as [Hin| ->]; [|lia].
  apply is_byte_range. by eapply forallb_forall in Hb.
Qed.

Definition demo_data : list Z := (fun i => i mod 251) <$> seqZ 0 600.

Definition demo_regions : list (Z * list Z) :=
  let cluster c := 0x1000 + 632 * 512 + 512 * (c - 2) in
  [(0x1000, demo_boot); (0x1000 + 32 * 512, demo_table);
   (cluster 2, demo_dir [demo_hello; demo_sub]);
   (cluster 3, demo_dir [dot_item 1 3; dot_item 2 0; demo_notes]);
   (cluster 4, demo_data); (cluster 6, [1; 2; 3])].

Definition demo_volume : FatVolume :=
  {| vol_mem := regions demo_regions; volume_start_virt_addr := 0x1000 |}.

Definition demo_fat : Fat := {| volume := demo_volume; fat_root_cluster_num := 2 |}.

Definition demo_tree : list (string * node) :=
  [("hello world.txt", NFile demo_data); ("sub", NDir [("notes", NFile [1; 2; 3])])].

Lemma demo_volume_ok : volume_ok demo_volume.
Proof.
  split; [|cbn; lia|vm_compute; reflexivity]. intros a. apply regions_bytes. vm_compute. reflexivity.
Qed.

Lemma demo_item_ok it :
  it ∈ [demo_hello; demo_sub; demo_notes] -> item_ok it /\ entry_name (item_string it) = true.
Proof.
  intros [->|[->|[->|[]%not_elem_of_nil]%elem_of_cons]%elem_of_cons]%elem_of_cons;
    (split; [split; [|split|..|split]|vm_compute; reflexivity]);
    try (vm_compute; intuition congruence);
    repeat constructor; vm_compute; intuition congruence.
Qed.

(** The chains of the volume. *)
Lemma demo_chains :
  chain demo_volume 2 [2] /\ chain demo_volume 3 [3] /\ chain demo_volume 4 [4; 5] /\ chain demo_volume 6 [6].
Proof.
  split_and!; [apply chain_last; vm_compute; reflexivity..| |apply chain_last; vm_compute; reflexivity].
  apply (chain_next _ _ 5); [vm_compute; reflexivity|]. apply chain_last. vm_compute. reflexivity.
Qed.

(** The entries of its clusters, with the geometry evaluated. *)
Definition demo_entries (cs : list Z) : list DirectoryEntry :=
  mjoin ((fun c => (fun i => read_bytes demo_volume (0x1000 + 632 * 512 + 512 * (c - 2) + 32 * i) 32) <$> seqZ 0 16) <$> cs).

Lemma demo_chain_entries cs : Forall (fun c => 2 <= c < 66168) cs -> chain_entries demo_volume cs = demo_entries cs.
Proof.
  assert (cluster_size demo_volume = 512 /\ cluster_count demo_volume = 66168 /\ data_area demo_volume = 0x1000 + 632 * 512)
    as (Hs & Hn & Ha) by (vm_compute; repeat split).
  intros Hcs. unfold chain_entries, demo_entries. f_equal. induction Hcs as [|c cs Hc Hcs IH]; [done|].
  cbn [fmap list_fmap]. f_equal; [|exact IH]. unfold cluster_entries, cluster_addr. rewrite Hn, Hs, Ha.
  destruct (Z.leb_spec 2 c); [|lia]. by destruct (Z.ltb_spec c 66168); [|lia].
Qed.

Lemma demo_file it cs data :
  it_dir it = false -> it_size it = Z.of_nat (length data) -> chain demo_volume (it_cluster it) cs ->
  Forall (fun c => 2 <= c < 66168) cs -> take (length data) (mjoin (demo_entries cs)) = data ->
  node_rep demo_volume it (NFile data).
Proof.
  intros Hd Hs Hc Hcs Ht. rewrite <- demo_chain_entries in Ht by done. apply (rep_file _ _ _ cs); [done..|].
  revert Ht. generalize (mjoin (chain_entries demo_volume cs)). intros l Ht. exists (drop (length data) l).
  rewrite <- (take_drop (length data) l) at 1. by rewrite Ht.
Qed.

Lemma demo_directory c cs dots items kids :
  0 <= c < 2 ^ 32 -> chain demo_volume c cs -> Forall (fun c => 2 <= c < 66168) cs ->
  let es := mjoin (item_entries <$> dots ++ items) in
  take (length es) (demo_entries cs) = es -> dir_end (drop (length es) (demo_entries cs)) ->
  items ⊆ [demo_hello; demo_sub; demo_notes] -> NoDup (item_string <$> items) ->
  Forall2 (fun it k => item_string it = fst k /\ node_rep demo_volume it (snd k)) items kids ->
  dir_rep demo_volume c dots kids.
Proof.
  intros Hc Hch Hcs es Ht He Hi Hnd Hk. rewrite <- demo_chain_entries in Ht, He by done.
  apply (rep_kids _ c dots items (drop (length es) (chain_entries demo_volume cs)) cs); try done.
  - fold es. revert Ht. generalize (chain_entries demo_volume cs). intros l Ht.
    rewrite <- (take_drop (length es) l) at 1. by rewrite Ht.
  - apply Forall_forall. intros it Hit. by apply demo_item_ok, Hi.
Qed.

Lemma demo_fat_new : Fat_new demo_volume = Ok demo_fat.
Proof. unfold Fat_new. assert (root_cluster_num demo_volume = Ok 2) as -> by (vm_compute; reflexivity). done. Qed.

Lemma demo_fat_ok : fat_ok demo_fat demo_tree.
Proof.
  destruct demo_chains as (H2 & H3 & H4 & H6). split; [apply demo_volume_ok|apply demo_fat_new|].
  apply (demo_directory 2 [2] [] [demo_hello; demo_sub]);
    [lia|done|by repeat constructor|vm_compute; reflexivity|vm_compute; split; reflexivity|set_solver|refine (bool_decide_unpack _ _); vm_compute; exact I|].
  constructor; [|constructor; [|constructor]]; (split; [vm_compute; reflexivity|]).
  - apply (demo_file _ [4; 5]); [done|vm_compute; reflexivity|done|by repeat constructor|vm_compute; reflexivity].
  - apply (rep_dir _ _ 0); [done|done|lia|]. apply (demo_directory 3 [3] _ [demo_notes]);
      [lia|done|by repeat constructor|vm_compute; reflexivity|vm_compute; split; reflexivity|set_solver|refine (bool_decide_unpack _ _); vm_compute; exact I|].
    constructor; [|constructor]. split; [vm_compute; reflexivity|].
    apply (demo_file _ [6]); [done|vm_compute; reflexivity|done|by repeat constructor|vm_compute; reflexivity].
Qed.

Lemma fat_refines_tree_witness :
  fs_read_file demo_fat (Path_new "/sub/../sub/notes") 1 10 = Ok [2; 3]
  /\ fs_read_entry_names demo_fat (Path_new "/sub") = Ok ["."; ".."; "notes"].
Proof.
  pose proof (fat_refines_tree demo_fat demo_tree (Path_new "/sub/../sub/notes") 1 10 demo_fat_ok ltac:(lia) ltac:(lia)) as [[H _] _].
  pose proof (fat_refines_tree demo_fat demo_tree (Path_new "/sub") 0 0 demo_fat_ok ltac:(lia) ltac:(lia)) as [_ [H' _]].
  split; [exact H|exact H'].
Defined.

(** A table whose first file entry points to itself. *)
Definition demo_cycle : FatVolume :=
  {| vol_mem := regions ((0x1000 + 32 * 512 + 16, [4; 0; 0; 0]) :: demo_regions); volume_start_virt_addr := 0x1000 |}.

Lemma demo_cycle_ok : volume_ok demo_cycle.
Proof.
  split; [|cbn; lia|vm_compute; reflexivity]. intros a. apply regions_bytes. vm_compute. reflexivity.
Qed.

Lemma demo_cycle_chain cs : ~ chain demo_cycle 4 cs.
Proof.
  intros Hc. pose proof (chain_NoDup _ _ _ Hc) as Hnd. inversion Hc as [? Hn|? n cs' Hn Hr]; subst.
  - by vm_compute in Hn.
  - assert (n = 4) as -> by (vm_compute in Hn; congruence). inversion Hnd as [|? ? Hin _]. apply Hin.
    inversion Hr; by left.
Qed.

Lemma fat_chain_terminates_witness :
  read_chained_dir_entries demo_volume 4 = Ok (chain_entries demo_volume [4; 5])
  /\ forall n, exists next s, next_cluster_num demo_cycle 4 = Ok next
       /\ loop_nat (chain_body demo_cycle) n ([], 4, next) = Ok (inl s).
Proof.
  destruct demo_chains as (_ & _ & H4 & _). split.
  - destruct (fat_chain_terminates demo_volume 4 demo_volume_ok ltac:(lia)) as [(cs & Hc & Hr)|[Hn _]].
    + by rewrite (chain_det _ _ _ _ Hc H4) in Hr.
    + by apply Hn in H4.
  - destruct (fat_chain_terminates demo_cycle 4 demo_cycle_ok ltac:(lia)) as [(cs & Hc & _)|[_ Hn]]; [|exact Hn].
    by apply demo_cycle_chain in Hc.
Defined.

Lemma scan_lists_deleted_files_witness :
  md_string <$> scan_entries (mjoin (item_entries <$> [demo_sub]) ++ (deleted <$> item_entries demo_hello)
                              ++ mjoin (item_entries <$> []) ++ []) []
  = ["sub"; "hello world.txt"].
Proof.
  rewrite (scan_lists_deleted_files [demo_sub] demo_hello [] []); [vm_compute; reflexivity|..].
  - apply Forall_singleton, demo_item_ok. set_solver.
  - apply demo_item_ok. set_solver.
  - constructor.
  - discriminate.
  - exact I.
Defined.

Definition demo_proc : @ProcFs unit := MkProcFs (TASK_SCHED demo_waiting) 12345.

Definition demo_started : @Vfs (@MountedFs unit) unit :=
  snd (fs_init demo_volume demo_proc "/mnt/initramfs/sub" Vfs_new).

Lemma demo_started_run : fs_init demo_volume demo_proc "/mnt/initramfs/sub" Vfs_new = (Ok tt, demo_started).
Proof.
  assert (forall {A B} (x : A * B) a, fst x = a -> x = (a, snd x)) as Hx by (intros A B [x y] a; cbn; by intros ->).
  apply Hx. vm_compute. reflexivity.
Qed.

Lemma mounted_fat_file_read_witness :
  exists n v1, open_file (Path_new "../hello world.txt") false demo_started = (Ok (n, None), v1)
    /\ exists v2, vfs_read_file n 3 v1 = (Ok (ReadData [0; 1; 2]), v2).
Proof.
  destruct (fs_init_mounts demo_volume demo_fat demo_tree demo_proc "/mnt/initramfs/sub" demo_started
              demo_fat_new demo_fat_ok demo_started_run) as (Hwf & Hroom & Hm).
  destruct (mounted_fat_file_read demo_started ["mnt"; "initramfs"] 2 demo_fat demo_tree
              (Path_new "../hello world.txt") ["hello world.txt"] demo_data 3 Hwf Hroom Hm)
    as (n & v1 & v2 & v3 & Ho & Hr & _).
  - vm_compute. reflexivity.
  - discriminate.
  - reflexivity.
  - lia.
  - exists n, v1. split; [exact Ho|]. exists v2. exact Hr.
Defined.

Lemma procfs_tasks_readable_witness :
  exists t, find_task (TASK_SCHED demo_waiting) 1 = Some t
    /\ fs_read_file demo_proc (status_path "1") 0 (2 ^ 64 - 1)
       = Ok (string_bytes (status_text (MkTaskSnapshot 1 (task_name t) (task_state t) (task_parent t)))).
Proof.
  destruct (procfs_tasks_readable demo_proc 1) as (t & Ht & Hid & _ & Hr & _).
  - vm_compute. repeat (apply list_elem_of_here || apply list_elem_of_further).
  - lia.
  - exists t. split; [exact Ht|]. apply Hr. vm_compute in Ht. injection Ht as <-. vm_compute. reflexivity.
Defined.
