(* ===== verification/Syscall.v ===== *)
(** * File system calls ([task/syscall.rs], [util/cstring.rs])

    The system calls on files, pipes and directories, on the memory of the running task:
    a user pointer is translated by the table of the task, on which the kernel runs
    during a call.  The memory calls are in [UserMem].  The numbers of the flags and the
    layouts of [f_stat] and [sockaddr_in] are those of the C headers in [apps/libc],
    from which the kernel's are generated. *)
From Stdlib Require Import ZArith Lia Ascii.
From stdpp Require Import base gmap sets list strings.
From S2P Require Import Prelude Utf8 Path KError Ansi Fifo Keyboard Tty Bitmap Packet Socket Net Scheduler Vfs VfsFiles.
From S2P Require Import Paging PagingTree PagingMap PagingRange PagingSpace PagingTask PagingBitmap Elf Loader LoaderSpec LoaderTask Exec UserMem.

#[local] Open Scope string_scope.
#[local] Open Scope list_scope.
#[local] Open Scope Z_scope.

Definition OPEN_FLAG_CREATE : Z := 1.
Definition EXEC_FLAG_DEBUG : Z := 1.
Definition SOCKET_DOMAIN_AF_INET : Z := 1.
Definition SOCKET_TYPE_SOCK_DGRAM : Z := 1.
Definition SOCKET_TYPE_SOCK_STREAM : Z := 2.
Definition SEEK_SET : Z := 0.
Definition SEEK_CUR : Z := 1.
Definition SEEK_END : Z := 2.

(** [struct sockaddr_in]: family, port, address and eight bytes of padding. *)
Record sockaddr_in := MkSockaddrIn { sin_family : Z; sin_port : Z; s_addr : Z }.

Definition sockaddr_in_size : Z := 16.

Definition sockaddr_in_of (bs : list Z) : sockaddr_in :=
  MkSockaddrIn (from_le_bytes (take 2 bs)) (from_le_bytes (take 2 (drop 2 bs))) (from_le_bytes (take 4 (drop 4 bs))).

(** [Ipv4Addr::from] a [u32] *)
Definition ipv4_from_u32 (a : Z) : Ipv4Addr :=
  (Z.land (Z.shiftr a 24) 255, Z.land (Z.shiftr a 16) 255, Z.land (Z.shiftr a 8) 255, Z.land a 255).

Section Syscall.
Context {FS Dev Dwarf : Type} `{FileSystem FS}.

(** [dwarf::parse] *)
Context (dwarf_parse : Elf64 -> Result Dwarf).

Record SysWorld := MkSys {
  sw_files : VfsWorld (FS := FS) (Dev := Dev);
  sw_net : NetworkManager;
  sw_tty : Tty;
  sw_user : UserWorld (Dwarf := Dwarf)
}.

Implicit Types x : SysWorld.

Definition with_files {A} (c : SR VfsWorld A) : SR SysWorld A := fun x =>
  let '(r, f) := c (sw_files x) in (r, MkSys f (sw_net x) (sw_tty x) (sw_user x)).
Definition with_net {A} (c : SR NetworkManager A) : SR SysWorld A := fun x =>
  let '(r, n) := c (sw_net x) in (r, MkSys (sw_files x) n (sw_tty x) (sw_user x)).
Definition with_tty {A} (c : SR Tty A) : SR SysWorld A := fun x =>
  let '(r, t) := c (sw_tty x) in (r, MkSys (sw_files x) (sw_net x) t (sw_user x)).
Definition with_user {A} (c : SR UserWorld A) : SR SysWorld A := fun x =>
  let '(r, u) := c (sw_user x) in (r, MkSys (sw_files x) (sw_net x) (sw_tty x) u).

Definition task_sched x : TaskScheduler := TASK_SCHED (uw_sched (sw_user x)).

(** [as i32] *)
Definition as_i32 (z : Z) : Z := let w := wrap 32 z in if w <? 2 ^ 31 then w else w - 2 ^ 32.

(** ** User memory *)

(** The physical address behind a user pointer; a page that is not mapped is a page fault
    in the kernel. *)
Definition user_addr (w : UserWorld (Dwarf := Dwarf)) (va : Z) : Result Z :=
  let? (t, _) := current_task_mut (TASK_SCHED (uw_sched w)) in
  let? root := unwrap (frame_start_phys_addr <$> Scheduler.pml4_frame (Scheduler.page_table (task_resource t))) in
  unwrap (calc_phys_addr (machine (uw_mem w)) root va).

Definition user_load (w : UserWorld (Dwarf := Dwarf)) (va : Z) : Result Z :=
  let? pa := user_addr w va in Ok (phys (machine (uw_mem w)) pa).

Definition user_store (va b : Z) : SR UserWorld unit := fun w =>
  match user_addr w va with
  | Ok pa => (Ok tt, MkUserWorld (uw_sched w)
                       (MkPaging (write_phys (machine (uw_mem w)) pa b) (KERNEL_PML4_PHYS (uw_mem w)) (cr3 (uw_mem w))))
  | Err e => (Err e, w)
  | Panic => (Panic, w)
  end.

(** [slice::from_raw_parts] and [copy_from_nonoverlapping] *)
Fixpoint read_user (w : UserWorld (Dwarf := Dwarf)) (va : Z) (n : nat) : Result (list Z) :=
  match n with
  | O => Ok []
  | S n => let? b := user_load w va in let? bs := read_user w (va + 1) n in Ok (b :: bs)
  end.

Fixpoint write_user (va : Z) (data : list Z) : SR UserWorld unit :=
  match data with
  | [] => sret tt
  | b :: data => do! user_store va b in write_user (va + 1) data
  end.

Definition user_slice (buf len : Z) : SR SysWorld (list Z) := fun x =>
  (read_user (sw_user x) buf (Z.to_nat len), x).

(** [from_cstring_ptr]: bytes up to the first zero; there are 2^64 addresses. *)
Definition cstring_body (w : UserWorld (Dwarf := Dwarf)) (st : Z * list Z) : Result ((Z * list Z) + list Z) :=
  let '(ptr, s) := st in
  let? b := user_load w ptr in
  if b =? 0 then Ok (inr s) else Ok (inl (ptr + 1, s ++ [b])).

Definition from_cstring_ptr (s_ptr : Z) : SR SysWorld string := fun x =>
  (let? r := loop_pos (cstring_body (sw_user x)) (2 ^ 64) (s_ptr, []) in
   match r with inr s => Ok (chars_string (from_utf8_lossy s)) | inl _ => Panic end, x).

(** ** Calls *)

(** The arm of [sys_read] for descriptors of files and pipes. *)
Definition sys_read_fd (fd : FileDescriptorNumber) (buf buf_len : Z) : SR SysWorld Z := fun x =>
  let '(r, x) := with_files (sys_read_file fd buf_len) x in
  let r := match r with
           | Err err => match error_kind err with BufferEmpty => Ok [] | _ => Err err end
           | r => r
           end in
  (let! data := slift r in
   do! with_user (write_user buf data) in
   sret (Z.of_nat (length data))) x.

Definition sys_write (fd_num buf buf_len : Z) : SR SysWorld Z :=
  let! fd_num := slift (fd_try_new fd_num) in
  let! buf_slice := user_slice buf buf_len in
  if decide (fd_num = FD_STDOUT \/ fd_num = FD_STDERR) then
    let! x := sget in
    match current_pipe_fd (task_sched x) with
    | Some (_, Some pipe, _) =>
        do! with_files (sys_write_file (MkFd pipe) buf_slice) in
        sret buf_len
    | _ =>
        do! with_tty (signore (tty_write_all (from_utf8_lossy buf_slice))) in
        sret buf_len
    end
  else if decide (fd_num = FD_STDIN) then serr (with_context InvalidData "stdin write")
  else
    do! with_files (sys_write_file fd_num buf_slice) in
    sret buf_len.

Definition sys_open (filepath flags : Z) : SR SysWorld Z :=
  let! filepath := from_cstring_ptr filepath in
  let create := negb (Z.land (flags mod 2 ^ 32) OPEN_FLAG_CREATE =? 0) in
  let! fd_num := with_files (sys_open_file (Path_new filepath) create) in
  do! with_user (on_tasks (current_add_fd (fd_get fd_num))) in
  sret (as_i32 (fd_get fd_num)).

(** [if let Ok(_) = m]: a panic goes on. *)
Definition try_call {A} (m : SR SysWorld A) : SR SysWorld bool := fun x =>
  match m x with
  | (Ok _, x) => (Ok true, x)
  | (Err _, x) => (Ok false, x)
  | (Panic, x) => (Panic, x)
  end.

Definition sys_close (fd_num : Z) : SR SysWorld unit :=
  let! closed := match fd_try_new fd_num with
                 | Ok fd => try_call (with_files (sys_close_file fd))
                 | _ => sret false
                 end in
  if closed then with_user (on_tasks (current_remove_fd fd_num))
  else
    let! closed := match SocketId_try_new fd_num with
                   | Ok socket_id => try_call (with_net (close_socket socket_id))
                   | _ => sret false
                   end in
    if closed then sret tt else serr (with_context InvalidData "file descriptor").

(** [stat_mut.size = size]: the only field, of eight bytes. *)
Definition sys_stat (fd_num buf : Z) : SR SysWorld unit :=
  let! fd_num := slift (fd_try_new fd_num) in
  let! x := sget in
  let! size := slift (
    if decide (fd_num = FD_STDIN) then tty_input_count (sw_tty x)
    else if decide (fd_num = FD_STDOUT \/ fd_num = FD_STDERR) then Ok 0
    else vfs_file_size (VFS (sw_files x)) fd_num) in
  with_user (write_user buf (to_le_bytes 8 size)).

(** A reply that must fit into the buffer of the caller. *)
Definition reply (bytes : list Z) (buf buf_len : Z) : SR SysWorld unit :=
  if buf_len <? Z.of_nat (length bytes)
  then serr (error_into (InvalidBufferSize (Z.of_nat (length bytes)) buf_len))
  else with_user (write_user buf bytes).

Definition sys_getcwd (buf buf_len : Z) : SR SysWorld unit :=
  let! x := sget in
  let! cwd := slift (cwd (VFS (sw_files x))) in
  let! cwd_s := slift (into_cstring_bytes_with_nul (path_str cwd)) in
  reply cwd_s buf buf_len.

Definition sys_chdir (path : Z) : SR SysWorld unit :=
  let! path := from_cstring_ptr path in
  with_files (on_vfs (chdir (Path_new path))).

Definition sys_getenames (path buf buf_len : Z) : SR SysWorld unit :=
  let! path := from_cstring_ptr path in
  let! x := sget in
  let! names := slift (entry_names (VFS (sw_files x)) (Path_new path)) in
  let! names_s := slift (args_bytes names) in
  reply names_s buf buf_len.

(** [pipefd.write(fd as i32)] for both ends. *)
Definition sys_pipe (pipefd : Z) : SR SysWorld unit :=
  let! (read_fd, write_fd) := with_files (on_vfs create_pipe) in
  do! with_user (write_user pipefd (to_le_bytes 4 (wrap 32 (fd_get read_fd)))) in
  do! with_user (write_user (pipefd + 4) (to_le_bytes 4 (wrap 32 (fd_get write_fd)))) in
  do! with_user (on_tasks (current_add_fd (fd_get read_fd))) in
  with_user (on_tasks (current_add_fd (fd_get write_fd))).

Definition sys_lseek (fd_num offset whence : Z) : SR SysWorld Z :=
  let! fd_num := slift (fd_try_new fd_num) in
  let! pos := slift (
    if whence =? SEEK_SET then Ok (SeekStart offset)
    else if whence =? SEEK_CUR then Ok (SeekCurrent offset)
    else if whence =? SEEK_END then Ok (SeekEnd offset)
    else Err (with_context InvalidData "lseek whence")) in
  with_files (on_vfs (vfs_seek fd_num pos)).

(** [sys_exec] makes the task in the memory of the machine and adds it to the scheduler. *)
Definition with_exec {A} (c : SR (ExecWorld (FS := FS) (Dev := Dev) (Dwarf := Dwarf)) A) : SR SysWorld A := fun x =>
  let '(r, e) := c (MkExec (sw_files x) (uw_mem (sw_user x)) (uw_sched (sw_user x))) in
  (r, MkSys (ew_files e) (sw_net x) (sw_tty x) (MkUserWorld (ew_sched e) (ew_memory e))).

(** [FileDescriptorNumber::try_new(fds[i]).ok()] of the four bytes of [fds[i]]. *)
Definition pipe_end (bs : list Z) : option Z :=
  match fd_try_new (as_i32 (from_le_bytes bs)) with Ok fd => Some (fd_get fd) | _ => None end.

Definition sys_exec (args flags pipefd : Z) (around : Z -> Z) : SR SysWorld Z :=
  let! args := from_cstring_ptr args in
  let args := str_split " "%char args in
  let! pipe_fd :=
    if pipefd =? 0 then sret (None, None, None)
    else let! fds := user_slice pipefd 12 in
         sret (pipe_end (take 4 fds), pipe_end (take 4 (drop 4 fds)), pipe_end (take 4 (drop 8 fds))) in
  let enable_debug := negb (Z.land (flags mod 2 ^ 32) EXEC_FLAG_DEBUG =? 0) in
  match args with
  | [] => spanic
  | path :: rest =>
      let! child_id := with_exec (exec_elf dwarf_parse (Path_new path) rest enable_debug pipe_fd around) in
      sret (as_i32 child_id)
  end.

Definition sys_getpid : SR SysWorld Z :=
  let! x := sget in
  let! task_id := slift (ok_or (with_context NotFound "current task") (current_task_id (task_sched x))) in
  sret (as_i32 task_id).

Definition sys_socket (domain type_ : Z) : SR SysWorld Z :=
  if negb (wrap 32 domain =? SOCKET_DOMAIN_AF_INET) then serr (with_context InvalidData "socket domain")
  else if wrap 32 type_ =? SOCKET_TYPE_SOCK_STREAM then with_net (create_new_socket Stream)
  else if wrap 32 type_ =? SOCKET_TYPE_SOCK_DGRAM then with_net (create_new_socket Dgram)
  else serr (with_context InvalidData "socket type").

Definition sys_bind (sockfd addr addrlen : Z) : SR SysWorld unit :=
  let! socket_id := slift (SocketId_try_new sockfd) in
  let! bs := user_slice addr sockaddr_in_size in
  let addr := sockaddr_in_of bs in
  if negb (addrlen =? sockaddr_in_size) then spanic
  else if negb (sin_family addr =? SOCKET_DOMAIN_AF_INET) then serr (with_context InvalidData "address family")
  else
    let! x := sget in
    let ip := ipv4_from_u32 (s_addr addr) in
    if negb (bool_decide (ip = (0, 0, 0, 0))) && negb (bool_decide (ip = nm_my_ipv4_addr (sw_net x)))
    then serr (with_context InvalidData "bind address")
    else
      let bound_addr := if bool_decide (ip = (0, 0, 0, 0)) then None else Some ip in
      let port := if sin_port addr =? 0 then None else Some (sin_port addr) in
      with_net (bind_socket_v4 socket_id bound_addr port).

Definition sys_listen (sockfd : Z) : SR SysWorld unit :=
  let! socket_id := slift (SocketId_try_new sockfd) in
  with_net (listen_tcp_v4 socket_id).

(** ** Lemmas *)

Section Memory.
Context (s0 : @PagingState Machine) (X Y : gset Z) (rs0 : runs) (kr : Z) (us : runs) (ks : list Z) (ov : overlay).
Hypothesis K : kernel_ok s0 X Y.
Implicit Types w : UserWorld (Dwarf := Dwarf).
#[local] Abbreviation umem := (umem s0 X Y rs0 kr us ks ov).

(** [len] bytes from [va] lie in a block of the program. *)
Definition in_block (va len : Z) : Prop :=
  exists k n, (k, n) ∈ us /\ k * PAGE_SIZE <= va /\ va + len <= k * PAGE_SIZE + PAGE_SIZE * n.

Lemma block_page va len a : in_block va len -> va <= a < va + len -> page_of a ∈ runs_set us.
Proof using.
  intros (k & n & Hin & H1 & H2) Ha. apply list_elem_of_split in Hin as (us1 & us2 & E). rewrite E, runs_set_app, runs_set_cons.
  apply elem_of_union_r, elem_of_union_l, run_offset. cbn [fst snd]. lia.
Qed.

Lemma block_addr w va len a : umem w -> in_block va len -> va <= a < va + len -> user_addr w a = Ok a.
Proof using.
  intros U Hb Ha. pose proof (block_page va len a Hb Ha) as Hp. destruct U as [(t & Ht & Hpt & _) L Hl Hi].
  unfold user_addr, current_task_mut. rewrite Ht. cbn [obind]. rewrite Hpt.
  cbn [task_table user_table Scheduler.pml4_frame Paging.pml4_frame fmap option_fmap option_map unwrap obind frame_at frame_start_phys_addr].
  assert (canonical a) as Hc.
  { destruct Hb as (k & n & Hin & H1 & H2). rewrite Forall_forall in Hl. destruct (Hl _ Hin) as [Hk Hn]. cbn [fst snd] in *.
    left. unfold PAGE_SIZE in *. lia. }
  destruct (li_space _ _ _ _ _ _ _ _ L) as (mi & fr & _ & I). pose proof (si_slots _ _ _ _ _ _ _ _ _ I a Hc) as Hs.
  rewrite (Hi _ Hp) in Hs. cbn [slot_ok snd] in Hs.
  assert (calc_phys_addr (machine (uw_mem w)) (kr * PAGE_SIZE) a = Some (page_of a * PAGE_SIZE + a mod PAGE_SIZE)) as E
    by (eapply maps_calc; [apply I|exact Hs]).
  rewrite E. cbn [unwrap]. f_equal. unfold page_of. rewrite Z.mul_comm. symmetry. by apply Z.div_mod.
Qed.

(** The bytes of a range of memory. *)
Definition mem_bytes (m : Machine) (va : Z) (n : nat) : list Z := (fun i => phys m (va + Z.of_nat i)) <$> seq 0 n.

Lemma mem_bytes_cons m va n : mem_bytes m va (S n) = phys m va :: mem_bytes m (va + 1) n.
Proof using.
  unfold mem_bytes. cbn [seq fmap list_fmap]. rewrite Z.add_0_r. f_equal. rewrite <- seq_shift, <- list_fmap_compose.
  apply list_fmap_ext. intros i j _. cbn. f_equal. lia.
Qed.

Lemma read_user_run w va n : umem w -> in_block va (Z.of_nat n) -> read_user w va n = Ok (mem_bytes (machine (uw_mem w)) va n).
Proof using.
  intros U. revert va. induction n as [|n IH]; intros va Hb; [done|]. cbn [read_user]. unfold user_load.
  rewrite (block_addr w va _ va U Hb) by lia. cbn [obind]. rewrite IH, mem_bytes_cons; [done|].
  destruct Hb as (k & m & Hin & H1 & H2). exists k, m. split; [done|lia].
Qed.

(** The machine after a copy. *)
Definition set_mem (m : Machine) w : UserWorld :=
  MkUserWorld (uw_sched w) (MkPaging m (KERNEL_PML4_PHYS (uw_mem w)) (cr3 (uw_mem w))).

Lemma store_run w va b :
  umem w -> in_block va 1 -> is_byte b = true ->
  user_store va b w = (Ok tt, set_mem (write_phys (machine (uw_mem w)) va b) w)
  /\ umem (set_mem (write_phys (machine (uw_mem w)) va b) w).
Proof using K.
  intros U Hb Hby. unfold user_store. rewrite (block_addr w va 1 va U Hb) by lia. split; [done|].
  pose proof (block_page va 1 va Hb ltac:(lia)) as Hp. destruct U as [Ut L Hl Hi]. split; [done| |done|done].
  apply (edit_runs s0 X Y K kr ks (rs0 ++ us) ov (user_table kr ks, uw_mem w) (write_phys (machine (uw_mem w)) va b)); [done|done| |].
  - intros a. cbn [write_phys phys]. destruct (a =? va); [by apply is_byte_range|]. apply (mo_bytes _ _ (li_owns _ _ _ _ _ _ _ _ L)).
  - intros a Ha. cbn [write_phys phys snd]. destruct (Z.eqb_spec a va) as [->|]; [|done]. exfalso. apply Ha. rewrite runs_set_app. set_solver.
Qed.

Lemma write_user_run data : forall w va,
  umem w -> in_block va (Z.of_nat (length data)) -> Forall (fun b => is_byte b = true) data ->
  exists m, write_user va data w = (Ok tt, set_mem m w) /\ umem (set_mem m w) /\ bmm m = bmm (machine (uw_mem w))
    /\ mem_bytes m va (length data) = data
    /\ forall a, ~ (va <= a < va + Z.of_nat (length data)) -> phys m a = phys (machine (uw_mem w)) a.
Proof using K.
  induction data as [|b data IH]; intros w va U Hb Hd.
  { exists (machine (uw_mem w)). split; [by destruct w as [? []]|]. split; [by destruct w as [? []]|]. done. }
  apply Forall_cons in Hd as [Hby Hd]. cbn [length] in Hb. destruct Hb as (k & n & Hin & H1 & H2).
  destruct (store_run w va b U) as [E1 U1]; [by exists k, n; split; [|lia]|done|].
  destruct (IH _ (va + 1) U1) as (m & E2 & U2 & B2 & M2 & F2); [exists k, n; split; [done|lia]|done|].
  exists m. cbn [write_user]. unfold sbind. rewrite E1, E2. cbn [set_mem uw_mem machine uw_sched] in *.
  split; [done|]. split; [done|]. split; [done|]. split.
  - cbn [length]. rewrite mem_bytes_cons, M2. f_equal. rewrite F2 by lia. cbn [write_phys phys]. by rewrite Z.eqb_refl.
  - cbn [length]. intros a Ha. rewrite F2 by lia. cbn [write_phys phys]. destruct (Z.eqb_spec a va); [lia|done].
Qed.

(** A C string in a block is read up to its zero; the 2^64 rounds are enough. *)
Lemma cstring_loop w (bs : list Z) : forall va acc fuel,
  umem w -> in_block va (Z.of_nat (length bs) + 1) -> Forall (fun b => b <> 0) bs ->
  mem_bytes (machine (uw_mem w)) va (S (length bs)) = bs ++ [0] -> (length bs < fuel)%nat ->
  loop_nat (cstring_body w) fuel (va, acc) = Ok (inr (acc ++ bs)).
Proof using.
  induction bs as [|b bs IH]; intros va acc fuel U Hb Hnz Hm Hf; (destruct fuel as [|fuel]; [cbn in Hf; lia|]);
    cbn [loop_nat cstring_body]; unfold user_load; rewrite (block_addr w va _ va U Hb) by lia; cbn [obind].
  - rewrite mem_bytes_cons in Hm. injection Hm as ->. by rewrite app_nil_r.
  - cbn [length] in *. rewrite mem_bytes_cons in Hm. injection Hm as -> Hm. apply Forall_cons in Hnz as [Hnz1 Hnz].
    destruct (Z.eqb_spec b 0); [done|]. rewrite IH; [by rewrite <- app_assoc|done| |done|done|lia].
    destruct Hb as (k & len & Hin & H1 & H2). exists k, len. split; [done|lia].
Qed.
End Memory.

Lemma from_cstring_ptr_run s0 X Y rs0 kr us ks ov x va bs :
  umem s0 X Y rs0 kr us ks ov (sw_user x) -> in_block us va (Z.of_nat (length bs) + 1) ->
  Forall (fun b => b <> 0) bs -> mem_bytes (machine (uw_mem (sw_user x))) va (S (length bs)) = bs ++ [0] ->
  from_cstring_ptr va x = (Ok (chars_string (from_utf8_lossy bs)), x).
Proof using.
  intros U Hb Hnz Hm. unfold from_cstring_ptr. rewrite loop_pos_nat, (cstring_loop s0 X Y rs0 kr us ks ov _ bs); [done..|].
  destruct Hb as (k & n & Hin & H1 & H2). pose proof (um_low _ _ _ _ _ _ _ _ _ U) as Hl. rewrite Forall_forall in Hl.
  destruct (Hl _ Hin) as [Hk Hn]. cbn [fst snd] in *. unfold PAGE_SIZE in *. lia.
Qed.

Lemma overwrite_read (c : list Z) (o : nat) (data : list Z) : take (length data) (drop o (overwrite c o data)) = data.
Proof.
  unfold overwrite. rewrite app_assoc, drop_app_length'; [by rewrite take_app_length|].
  rewrite length_app, length_take, length_replicate. lia.
Qed.

(** Files behind the public functions of the file system. *)
Section Files.
Context (v : Vfs.Vfs (FS := FS) (Dev := Dev)) (d : Dev) (n : FileDescriptorNumber) (id : Z) (c : list Z) (o : Z).
Context (Hv : file_view v n id (c, o)) (Hst : file_st_ok (c, o)).

Lemma write_file_view data :
  o + Z.of_nat (length data) <= 2 ^ 63 - 1 ->
  exists v', sys_write_file n data (MkVfsWorld v d) = (Ok tt, MkVfsWorld v' d)
    /\ file_view v' n id (overwrite c (Z.to_nat o) data, o + Z.of_nat (length data)) /\ others_same v v' n id.
Proof using Hv Hst.
  intros Hl. pose proof (run_file_op_sim v n id (FWrite data) (c, o) Hv Hst Hl) as Hs. unfold simulates, run_file_op, sbind in Hs.
  unfold sys_write_file, sbind, on_vfs. cbn [VFS devices].
  destruct (vfs_write_file n data v) as [[[|wr]|e|] v']; cbn in Hs; destruct Hs as (Hr & Hv' & Ho); try done. by exists v'.
Qed.

Lemma read_file_view max_len :
  0 <= max_len ->
  exists v', sys_read_file n max_len (MkVfsWorld v d) = (Ok (take (Z.to_nat max_len) (drop (Z.to_nat o) c)), MkVfsWorld v' d)
    /\ file_view v' n id (c, Z.min (Z.min o (Z.of_nat (length c)) + max_len) (Z.of_nat (length c))) /\ others_same v v' n id.
Proof using Hv Hst.
  intros Hl. pose proof (run_file_op_sim v n id (FRead max_len) (c, o) Hv Hst Hl) as Hs. unfold simulates, run_file_op, sbind in Hs.
  unfold sys_read_file, sbind, on_vfs. cbn [VFS devices].
  destruct (vfs_read_file n max_len v) as [[[bs|rd off]|e|] v']; cbn in Hs; destruct Hs as (Hr & Hv' & Ho); try done.
  injection Hr as ->. by exists v'.
Qed.

Lemma seek_file_view t :
  0 <= t < 2 ^ 63 ->
  exists v', vfs_seek n (SeekStart t) v = (Ok t, v') /\ file_view v' n id (c, t) /\ others_same v v' n id.
Proof using Hv Hst.
  intros Ht. pose proof (run_file_op_sim v n id (FSeek (SeekStart t)) (c, o) Hv Hst ltac:(cbn; lia)) as Hs.
  unfold simulates, run_file_op, sbind in Hs. cbn [spec_file spec_target] in Hs. destruct (Z.ltb_spec t 0); [lia|].
  destruct (vfs_seek n (SeekStart t) v) as [[t'|e|] v']; cbn in Hs; destruct Hs as (Hr & Hv' & Ho); try done.
  injection Hr as ->. by exists v'.
Qed.
End Files.

(** An address of another length than [sockaddr_in] stops the kernel. *)
Lemma bind_length_panics s0 X Y rs0 kr us ks ov x sockfd addr addrlen :
  umem s0 X Y rs0 kr us ks ov (sw_user x) -> 0 <= sockfd -> in_block us addr sockaddr_in_size ->
  addrlen <> sockaddr_in_size -> fst (sys_bind sockfd addr addrlen x) = Panic.
Proof using.
  intros U Hs Hb Hl. unfold sys_bind, sbind, slift, SocketId_try_new, user_slice. destruct (Z.ltb_spec sockfd 0); [lia|].
  rewrite (read_user_run s0 X Y rs0 kr us ks ov (sw_user x) addr (Z.to_nat sockaddr_in_size) U) by done.
  by destruct (Z.eqb_spec addrlen sockaddr_in_size).
Qed.

(** A number that is an open file and a socket closes the file only. *)
Lemma close_prefers_file x fd f :
  0 <= fd -> sys_close_file (MkFd fd) (sw_files x) = (Ok tt, f) ->
  sw_net (snd (sys_close fd x)) = sw_net x.
Proof using.
  intros Hfd E. unfold sys_close, fd_try_new. destruct (Z.ltb_spec fd 0); [lia|].
  unfold sbind, try_call, with_files. rewrite E. unfold with_user. cbn [sw_user].
  by destruct (on_tasks (current_remove_fd fd) (sw_user x)).
Qed.

(** ** Properties *)

(** C13: a program writes [len] bytes of its memory to a regular file, seeks back to where
    they start and reads into another part of its memory: all three calls succeed, the
    second part holds the bytes of the first, the file has them in its contents, and
    no other memory, file or descriptor changes. *)
Theorem sys_file_roundtrip s0 X Y rs0 kr us ks ov x fd id c o src dst len :
  kernel_ok s0 X Y -> umem s0 X Y rs0 kr us ks ov (sw_user x) ->
  in_block us src len -> in_block us dst len -> 0 <= len ->
  3 <= fd -> file_view (VFS (sw_files x)) (MkFd fd) id (c, o) -> file_st_ok (c, o) ->
  o + len <= 2 ^ 63 - 1 ->
  let m := machine (uw_mem (sw_user x)) in
  let data := mem_bytes m src (Z.to_nat len) in
  exists x1 x2 x3,
    sys_write fd src len x = (Ok len, x1) /\ sys_lseek fd o SEEK_SET x1 = (Ok o, x2)
    /\ sys_read_fd (MkFd fd) dst len x2 = (Ok len, x3)
    /\ let m' := machine (uw_mem (sw_user x3)) in
       mem_bytes m' dst (Z.to_nat len) = data
       /\ (forall a, ~ (dst <= a < dst + len) -> phys m' a = phys m a)
       /\ umem s0 X Y rs0 kr us ks ov (sw_user x3)
       /\ file_view (VFS (sw_files x3)) (MkFd fd) id (overwrite c (Z.to_nat o) data, o + len)
       /\ others_same (VFS (sw_files x)) (VFS (sw_files x3)) (MkFd fd) id
       /\ sw_net x3 = sw_net x /\ sw_tty x3 = sw_tty x.
Proof.
  intros K U Hsrc Hdst Hlen Hfd Hv Hst Ho m data. destruct x as [[v d] net tty u]. cbn [sw_files sw_net sw_tty sw_user VFS] in *.
  assert (length data = Z.to_nat len) as Hdl by (unfold data, mem_bytes; by rewrite length_fmap, length_seq).
  assert (fd_try_new fd = Ok (MkFd fd)) as Hfn by (unfold fd_try_new; destruct (Z.ltb_spec fd 0); [lia|done]).
  destruct Hst as [Hst1 Hst2]. cbn [fst snd] in Hst1, Hst2.
  destruct (write_file_view v d (MkFd fd) id c o Hv (conj Hst1 Hst2) data) as (v1 & E1 & V1 & O1); [lia|].
  assert (file_st_ok (overwrite c (Z.to_nat o) data, o + len)) as Hst'.
  { pose proof (spec_file_ok (FWrite data) (c, o) (conj Hst1 Hst2)) as Hs. cbn in Hs. rewrite Hdl, Z2Nat.id in Hs by lia. apply Hs. lia. }
  rewrite Hdl, Z2Nat.id in V1 by lia.
  destruct (seek_file_view v1 (MkFd fd) id _ _ V1 Hst' o ltac:(lia)) as (v2 & E2 & V2 & O2).
  assert (file_st_ok (overwrite c (Z.to_nat o) data, o)) as Hst2' by (split; [cbn; lia|apply Hst']).
  destruct (read_file_view v2 d (MkFd fd) id _ _ V2 Hst2' len Hlen) as (v3 & E3 & V3 & O3).
  assert (take (Z.to_nat len) (drop (Z.to_nat o) (overwrite c (Z.to_nat o) data)) = data) as Hread
    by (rewrite <- Hdl; apply overwrite_read).
  rewrite Hread in E3.
  destruct (write_user_run s0 X Y rs0 kr us ks ov K data u dst U) as (m' & E4 & U4 & _ & M4 & F4);
    [rewrite Hdl, Z2Nat.id by lia; done| |].
  { apply Forall_forall. intros b Hb. unfold data, mem_bytes in Hb. apply list_elem_of_fmap in Hb as (i & -> & _).
    apply is_byte_range. apply (mo_bytes _ _ (li_owns _ _ _ _ _ _ _ _ (um_linv _ _ _ _ _ _ _ _ _ U))). }
  exists (MkSys (MkVfsWorld v1 d) net tty u), (MkSys (MkVfsWorld v2 d) net tty u), (MkSys (MkVfsWorld v3 d) net tty (set_mem m' u)).
  split; [|split; [|split]].
  - unfold sys_write, sbind, slift, user_slice. rewrite Hfn. cbn [sw_user].
    rewrite (read_user_run s0 X Y rs0 kr us ks ov u src (Z.to_nat len) U) by (by rewrite Z2Nat.id). fold m. fold data.
    rewrite decide_False by (intros [[=]|[=]]; lia). rewrite decide_False by (intros [=]; lia).
    unfold with_files. cbn [sw_files]. rewrite E1. done.
  - unfold sys_lseek, sbind, slift. rewrite Hfn, Z.eqb_refl. unfold with_files, on_vfs. cbn [sw_files VFS devices]. by rewrite E2.
  - unfold sys_read_fd, with_files. cbn [sw_files]. rewrite E3. unfold sbind, slift, with_user. cbn [sw_user]. rewrite E4.
    unfold sret. by rewrite Hdl, Z2Nat.id.
  - cbv zeta. cbn [sw_user sw_files sw_net sw_tty VFS set_mem uw_mem machine]. rewrite Hdl in M4. rewrite Hdl, Z2Nat.id in F4 by lia.
    split_and!; [done|done|done| | |done|done].
    + replace (o + len) with (Z.min (Z.min o (Z.of_nat (length (overwrite c (Z.to_nat o) data))) + len)
        (Z.of_nat (length (overwrite c (Z.to_nat o) data)))); [done|]. rewrite length_overwrite, Hdl. lia.
    + eapply others_same_trans; [exact O1|]. by eapply others_same_trans.
Qed.
End Syscall.


(** The task of [UserMem] with a block from [sbrk] and a new file. *)
Definition sys_demo : SysWorld (FS := RamFs) (Dev := unit) (Dwarf := unit) :=
  MkSys (MkVfsWorld demo_open tt) (NetworkManager_new (10, 0, 2, 15)) (Tty_new false) (snd (sys_sbrk 5000 mem_demo)).

Lemma sys_demo_ok Y :
  kernel_ok user_kernel Y Y -> exists kr us ks ov, umem user_kernel Y Y [] kr us ks ov (sw_user sys_demo) /\ us = [(7, 3)].
Proof.
  intros K. destruct (mem_demo_ok Y Y K) as [kr U].
  pose proof (sys_sbrk_run user_kernel Y Y [] kr K [] [] ∅ mem_demo 5000 U ltac:(lia)) as Hr. cbv zeta in Hr.
  assert (fst (sys_sbrk 5000 mem_demo) = Ok (7 * PAGE_SIZE)) as E by (vm_compute; reflexivity).
  unfold sys_demo, sw_user. destruct (sys_sbrk 5000 mem_demo) as [r w]. cbn [fst snd] in *. subst r.
  destruct Hr as (k & ks' & ov' & Hp & U' & _). assert (k = 7) as -> by (unfold PAGE_SIZE in Hp; lia).
  eexists kr, _, _, ov'. split; [exact U'|reflexivity].
Qed.

Lemma sys_file_roundtrip_witness :
  exists x1 x2 x3,
    sys_write 3 0x7000 8 sys_demo = (Ok 8, x1) /\ sys_lseek 3 0 SEEK_SET x1 = (Ok 0, x2)
    /\ sys_read_fd (MkFd 3) 0x8000 8 x2 = (Ok 8, x3).
Proof.
  destruct user_kernel_ok as (Y & K & _). destruct (sys_demo_ok Y K) as (kr & us & ks & ov & U & ->).
  destruct (sys_file_roundtrip user_kernel Y Y [] kr [(7, 3)] ks ov sys_demo 3 5 [] 0 0x7000 0x8000 8 K U)
    as (x1 & x2 & x3 & E1 & E2 & E3 & _).
  - exists 7, 3. split; [apply list_elem_of_here|unfold PAGE_SIZE; lia].
  - exists 7, 3. split; [apply list_elem_of_here|unfold PAGE_SIZE; lia].
  - lia.
  - lia.
  - exact demo_view.
  - split; cbn; lia.
  - cbn; lia.
  - exists x1, x2, x3. split; [exact E1|]. split; [exact E2|exact E3].
Defined.
